(* ===== verification/_CoqProject ===== *)
-Q . S2P
Prelude.v
Heap.v
AdaptiblePQueue.v
CxxFloat.v
Timers.v
VirtualTimeline.v
Controllers.v
TimeLogger.v
Statistics.v
ThreadParts.v
ThreadState.v
ThreadQueue.v
Registries.v
ThreadRegistry.v
ThreadManager.v
SchedulingPass.v
ControllerWait.v
StrictParallel.v
Suspension.v
NativeWaiting.v
SignalHandler.v
MethodLog.v
StackTraces.v
EventLogger.v
QuickSort.v
PredictionMethods.v
MarkovPredictor.v
LinkedList.v
CinqsQueue.v
CinqsSim.v
ProcessorSharing.v
CinqsNetwork.v
Handlers.v
ThreadHandlers.v
ThreadEvents.v
HandlerLogic.v
EventDiscipline.v
EventFaults.v
Notifications.v
Joining.v
IoPrediction.v
IoSimulation.v
IoCounting.v
IoTiming.v
MethodEvents.v
MethodSpeed.v
LooseParallel.v
PassiveManager.v
ManagerRegistry.v
ModelNodes.v
ModelNetwork.v
ModelSimulation.v
