(* ===== verification/Prelude.v ===== *)
(** * VEX virtual-time scheduler: verification library

    VEX (src/src/vex) runs the threads of an application in virtual time: a
    scheduler thread per simulated core lets one application thread run at a
    time, every thread carries the virtual time it has reached, and virtual
    time leaps over waits, over I/O whose duration is predicted and over methods
    that a queueing network stands for.  This library models the core of VEX
    and of its queueing library cinqs (src/src/cinqs) and proves what they rely
    on; it also proves where the code does not do what it means to.

    ** Parts and their files

    Data and clocks:
    - [Prelude]: machine integers, faults and the error monad [res], arrays
      read with a default, and [Part], the part of a shared state that a
      component works on.
    - [Heap], [AdaptiblePQueue]: ds/AdaptiblePQueue.h over the heap algorithms of
      the C++ library, which are the class [StdHeapOps] with the laws
      [StdHeap], and an executable instance.
    - [CxxFloat]: binary32 and binary64 arithmetic and its conversions.
    - [Timers] (threads/Timers): the clocks of a thread.
    - [VirtualTimeline] (timer/VirtualTimeline): the timeline of one core, and
      the timelines of several, plain ones and ones that can be disabled.
    - [Controllers] (same sources): the interface between scheduler and
      timeline as the class [VirtualTimelineController], with its four
      implementations and the laws that the scheduler uses, [ControllerLaws],
      [TotalController] and [RunningTimers].
    - [TimeLogger] (timer/TimeLogger): the profile of virtual time by what it
      was spent on, and the samples of single commits.
    - [Statistics] (threads/Statistics, threads/AggregateStateCounters,
      Constants.h): state codes, transition counters and their aggregate.

    Threads and the scheduler of a core:
    - [ThreadParts], [ThreadState] (threads/IoHandler, ModelHandler, Scheduling,
      ThreadState): the state of a thread.
    - [ThreadQueue] (ds/ThreadQueue): the queue of runnable threads.
    - [Registries] (registries/LockRegistry, ObjectRegistry) and
      [ThreadRegistry] (registries/ThreadRegistry): monitors, waiting objects and
      the threads VEX knows.
    - [ThreadManager] (scheduler/ThreadManager): the scheduler of a core, both
      what threads call and what the scheduler thread does.
    - [SchedulingPass]: theorems on a pass of the scheduler, over the class
      [KeepsOthers] of what a derived manager may replace.
    - [ControllerWait] (ThreadManager::doControllerWait): the sleep between passes.
    - [StrictParallel], [LooseParallel], [PassiveManager] (scheduler/, the
      derived managers) and [ManagerRegistry]
      (registries/ThreadManagerRegistry): managers that keep cores within a
      timeslot of each other, that hold them back by barriers, that only
      profile, and the choice of the core for a thread.
    - [Suspension]: theorems on the calls of threads on their manager.
    - [NativeWaiting] (threads/NativeWaitingCriteria) and [SignalHandler]
      (VexThreadState::onSignalledFromScheduler): the answer of a signalled thread.

    Events, as handlers that threads run side by side:
    - [Handlers]: handlers as sequences of steps, the keys of threads, and the
      typing judgement [disciplined]; [HandlerLogic]: what handlers come to.
    - [ThreadHandlers] (threads/ThreadState.cpp), [ThreadEvents]
      (events/ThreadEventsBehaviour): what VEX does when threads start, wait,
      notify, park, lock, join and end; theorems in [EventDiscipline],
      [EventFaults], [Notifications] and [Joining].
    - [MethodEvents] (events/MethodEventsBehaviour): entry and exit of methods;
      theorems in [MethodSpeed].
    - [MethodLog], [StackTraces], [EventLogger] (threads/MethodLog, profiler/):
      the call stack of a thread and the profiles per method and per trace.
    - [QuickSort], [PredictionMethods], [MarkovPredictor]
      (io/PredictionMethod), [IoPrediction] (io/IoRecognizer, IoPredictor, IoParameters) and [IoSimulation]
      (io/IoPredictor, IoProtocol, IoSimulator): I/O and its predictions;
      theorems in [IoCounting] and [IoTiming].

    Queueing networks:
    - [LinkedList], [CinqsQueue], [CinqsSim] (src/src/cinqs): lists, queues with
      their disciplines and measures, and the simulator; theorems in
      [CinqsNetwork]; [ProcessorSharing]: the node that shares its server.
    - [ModelNodes] (models/): the networks that stand for methods, which the
      schedulers simulate; their invariant in [ModelNetwork], theorems in
      [ModelSimulation].

    ** How the parts interact

    The threads live in a store, a finite map from numbers (their addresses) to
    thread states.  The queue, the registries and the running thread of a manager
    name threads by these numbers, so that a change of a thread's clock is seen
    through every pointer to it, and changes the order of the queue behind its
    back, as in the code.  A [World] is everything one manager works on: store,
    queue, registries, timeline and its own members.  Every operation is a
    function of the world; one that may fail an assertion, block on a mutex that
    its thread holds or wait for an answer that nobody gives returns [Err] with
    that fault.  The build is the one with assertions.  A method runs while its
    caller holds the lock that the code takes around it, and is one step;
    a call in which a thread blocks returns [BlockedAt] with the frames that are
    left, and [resume_frames] goes on when the scheduler has resumed the thread.
    Virtual methods that derived classes replace are arguments of the functions
    that call them.

    The events of threads are finer: a handler is a sequence of steps ([proc]) on
    a [Vex], a world and the state that the handlers of all threads share, and
    steps of different threads and of the scheduler come in any order.  One
    manager controls all threads there.  Components that own a part of the
    shared state (locks, logs of methods, the predictor, the networks) reach it
    through the class [Part].  A turn of the simulation of a model is one step of
    the scheduler that takes it; in [ThreadState] and [ThreadManager] the
    entry into a node is the parameter [enter] and acts on one thread, in
    [ModelNodes] it acts on the network and on the threads that it resumes.

    What the host decides is an argument: readings of the clocks (one of each
    per call of a handler), the state letters of the operating system, whether a
    signal is delivered and whether a lock with timeout is obtained ([Host]), the
    frames of a stack, random numbers and what is sampled from a distribution.
    Logging, visualisation and statistics printouts are left out, and so is the
    counter [waitingInNativeVTFcode] on the side of the threads: nothing reads it.

    ** What is shown

    - Running: a call returns to a thread only when it has the core, every
      suspension ends in one of two ways and leaves the thread where the scheduler
      finds it ([control_needs_core], [suspension_outcome]); a signalled
      thread answers ([signalled_thread_answers]).
    - Choosing: a pass handles a thread of least virtual time and keeps the queue
      a heap of distinct threads ([handles_least_thread], [pass_keeps_queue],
      [strict_pass_keeps_queue], [loose_pass_keeps_queue]); threads are given to
      cores in turn ([spawned_in_turn]).
    - Leaping: the exact condition of a leap ([leap_iff], [nobody_alive_iff]).
    - Time: the timestamp of a running thread is its clock
      ([running_timestamp_invariant]), per-state times add up and the counters
      of transitions balance, those included that are only remarks in the
      statistics ([state_accounting]), global time does not decrease
      ([global_time_monotone]), resuming brings thread and core together
      ([multiple_resume_in_sync]), cores keep pace
      ([strict_resume_keeps_pace], [barrier_holds_back],
      [disabling_global_is_slowest_active]), the barrier of a scaled thread
      does not disturb its time ([barrier_follows_time]), the passive clock is
      the sum of what threads charge ([passive_clock_is_total]), the profile
      of virtual time accounts for all of it ([profile_is_complete]).
    - Events: in the calls that keep to the thread's own key, beside a scheduler
      that locks the keys of threads one at a time, no thread waits for a key
      that another thread holds ([keys_never_waited_for]); whom a notification
      wakes and when it goes on ([notify_wakes_last_waiter]); a join sleeps
      registered with the other thread or ends, when it starts and whenever it
      is resumed ([join_never_spins]).
    - Methods: the incremental profile is that of a recursive definition
      ([call_tree_profiled]), own times add up ([own_times_add_up]), the two
      profiles agree ([stack_traces_agree]), the speed of a thread is that of
      its open methods ([speed_of_open_methods]).
    - I/O: what the predictors predict ([prediction_exact], [sort_sorts]), that
      the Markov process always predicts ([markov_always_predicts]), the count
      that indexes them ([io_threads_counted]), and that a predicted
      operation takes the time it really took ([predicted_io_takes_real_time]).
    - Networks: lists and queues implement sequences ([linked_list_refines],
      [queue_refines], and [littles_law] where time is exact); in networks
      without cycles, pools of resources and bounded queues a simulation ends
      with every customer gone ([network_drains]), and resources count services
      ([resources_are_services]); where time is exact, a shared server gives each
      of n customers the n-th part of the time ([processor_sharing]).  In the
      networks of models
      resources count their holders however simulations are mixed and no turn
      fails ([resources_are_held]), a simulation ends within its timeslice
      ([simulation_ends], and [model_simulation_ends] for any nodes), and a
      resource is handed to the first that waits ([served_customer_hands_over]);
      both simulations are over unbounded queues, a full one blocks its
      scheduler ([full_queue_locks_node]).
    - Registries: objects are found by the low 32 bits of their identifiers
      ([colliding_objects]); mutual exclusion, notification of each waiter once,
      parking as a permit, the times that new threads inherit.
    - Deviations: theorems that exhibit a fault of the code, such as
      [contended_lock_lost_wakeup], [interrupted_wait_starves],
      [unparking_deadlocks], [unwound_speed_sticks], [operation_level_overruns],
      [scaled_run_loses_timeslot], [full_queue_locks_node],
      [disabling_block_deadlocks], [neighbours_abort], [feedback_crashes], [strict_pass_deadlocks],
      [reentrant_monitor_can_be_stolen], [single_resume_in_sync_iff],
      [wait_deadline], [stack_criterion_ignores_vex].

    ** Bounds and fuel

    Integers have their C++ width: a theorem about exact times has the range of
    its sums as a hypothesis.  Fuel is never a hypothesis on the result:
    - [suspendCurrentThread] and [setRunningThread] call each other at most once,
      fuel 2 is enough and more changes nothing (lemma [suspension_depth]);
    - [continueThread] is given three calls and needs no more
      ([handles_least_thread]);
    - the loop of a model simulation needs three turns per nanosecond of the
      timeslice and three more ([simulation_ends]);
    - the loop of a cinqs simulation ends with the network empty for some fuel
      ([network_drains]), and the sort for as much as its part is long
      ([sort_sorts]);
    - the Markov process sorts its measurements in as many passes as it has
      states ([markov_always_predicts]);
    - [carry] is given the number of seconds that it carries ([wait_deadline]);
    - the prediction loop of the queue is bounded by its length;
    - [rounds] ends when the list of what happens in each round does: the
      scheduler waits as long as there is nothing to schedule.

    ** Not modelled

    The agent and its Java side (jine), the profiler over hardware counters and
    the tests; the distributed managers, which are messages over sockets; the
    options of the command line but for those of I/O; the parser of networks,
    over a vendored XML library, and the customers that simulate themselves,
    which are deprecated; methods that are described by a model, on the side of
    the events; the I/O simulators that are queueing networks; the logs of I/O;
    predictors by sampling, by regression and by histograms; the sources, the
    boxed queues and the random number generators of cinqs; debugging
    and visualisation.  The condition variables between the scheduler and a
    thread appear through the flags that they guard. *)

From Stdlib Require Import ZArith Lia.
From stdpp Require Export base option gmap list.

#[global] Open Scope Z_scope.

(** ** Machine integers

    The sources are compiled for LP64: [int] and [unsigned int] have 32 bits,
    [long] and [long long] 64.  Additions, subtractions and products are
    carried out in [Z] and brought back into the width; on the signed types
    this is the two's complement result (an overflow is undefined in C++, and
    the theorems that need exact times carry the range as a hypothesis). *)
Declare Scope cxx_scope.
Delimit Scope cxx_scope with cxx.

Definition wrap (w z : Z) : Z := (z + 2 ^ (w - 1)) `mod` 2 ^ w - 2 ^ (w - 1).
Definition uwrap (w z : Z) : Z := z `mod` 2 ^ w.

Definition LLONG_MAX : Z := 2 ^ 63 - 1.
Definition LLONG_MIN : Z := - 2 ^ 63.
Definition in_ll (z : Z) : Prop := LLONG_MIN <= z <= LLONG_MAX.
Definition in_int (z : Z) : Prop := - 2 ^ 31 <= z < 2 ^ 31.

Definition ll (z : Z) : Z := wrap 64 z.
Definition ll_add (a b : Z) : Z := ll (a + b).
Definition ll_sub (a b : Z) : Z := ll (a - b).
Definition ll_mul (a b : Z) : Z := ll (a * b).
Definition int_add (a b : Z) : Z := wrap 32 (a + b).
Definition int_sub (a b : Z) : Z := wrap 32 (a - b).
Definition int_mul (a b : Z) : Z := wrap 32 (a * b).
Definition uint_add (a b : Z) : Z := uwrap 32 (a + b).
Definition uint_sub (a b : Z) : Z := uwrap 32 (a - b).
Definition ulong_add (a b : Z) : Z := uwrap 64 (a + b).

(** C++ division truncates toward zero. *)
Definition ll_div (a b : Z) : Z := ll (Z.quot a b).

Notation "a +ll b" := (ll_add a b) (at level 50, left associativity) : cxx_scope.
Notation "a -ll b" := (ll_sub a b) (at level 50, left associativity) : cxx_scope.
Notation "a *ll b" := (ll_mul a b) (at level 40, left associativity) : cxx_scope.
#[global] Open Scope cxx_scope.

Create HintDb vex.

Lemma wrap_id w z : 0 < w -> - 2 ^ (w - 1) <= z < 2 ^ (w - 1) -> wrap w z = z.
Proof.
  intros Hw Hz. unfold wrap.
  assert (2 ^ w = 2 * 2 ^ (w - 1)) as Hp.
  { rewrite <- Z.pow_succ_r by lia. f_equal. lia. }
  rewrite Z.mod_small by lia. lia.
Qed.

Lemma wrap_range w z : 0 < w -> - 2 ^ (w - 1) <= wrap w z < 2 ^ (w - 1).
Proof.
  intros Hw. unfold wrap.
  assert (2 ^ w = 2 * 2 ^ (w - 1)) as Hp.
  { rewrite <- Z.pow_succ_r by lia. f_equal. lia. }
  pose proof (Z.pow_pos_nonneg 2 (w - 1) ltac:(lia) ltac:(lia)).
  pose proof (Z.mod_pos_bound (z + 2 ^ (w - 1)) (2 ^ w) ltac:(lia)). lia.
Qed.

Lemma uwrap_id w z : 0 <= z < 2 ^ w -> uwrap w z = z.
Proof. apply Z.mod_small. Qed.

Lemma uwrap_range w z : 0 <= w -> 0 <= uwrap w z < 2 ^ w.
Proof. intros. apply Z.mod_pos_bound, Z.pow_pos_nonneg; lia. Qed.

Lemma ll_id z : in_ll z -> ll z = z.
Proof. unfold in_ll, LLONG_MIN, LLONG_MAX. intros. apply wrap_id; lia. Qed.

Lemma ll_in_ll z : in_ll (ll z).
Proof.
  pose proof (wrap_range 64 z ltac:(lia)).
  unfold in_ll, LLONG_MIN, LLONG_MAX, ll. lia.
Qed.
#[export] Hint Resolve ll_in_ll : vex.

Lemma wrap_add_l w a b : wrap w (wrap w a + b) = wrap w (a + b).
Proof.
  unfold wrap. f_equal.
  replace ((a + 2 ^ (w - 1)) `mod` 2 ^ w - 2 ^ (w - 1) + b + 2 ^ (w - 1))
    with ((a + 2 ^ (w - 1)) `mod` 2 ^ w + b) by lia.
  rewrite Zplus_mod_idemp_l. f_equal. lia.
Qed.

Lemma uint_add_exact a b : 0 <= a + b < 2 ^ 32 -> uint_add a b = a + b.
Proof. apply uwrap_id. Qed.

Lemma uint_sub_exact a b : 0 <= a - b < 2 ^ 32 -> uint_sub a b = a - b.
Proof. apply uwrap_id. Qed.

(** The 64-bit sum is associative, wrapping included. *)
Lemma ll_add_assoc a b c : a +ll (b +ll c) = (a +ll b) +ll c.
Proof.
  unfold ll_add, ll. rewrite wrap_add_l, Z.add_comm, wrap_add_l. f_equal. lia.
Qed.

(** Machine results are congruent to the exact ones, and congruent numbers have
    the same representation: theorems on sums that wrap argue with these. *)
Lemma uwrap_spec w z : 0 <= w -> exists k, uwrap w z = z + k * 2 ^ w.
Proof.
  intros Hw. exists (- (z / 2 ^ w)). unfold uwrap.
  pose proof (Z.pow_pos_nonneg 2 w ltac:(lia) Hw). pose proof (Z.div_mod z (2 ^ w)). lia.
Qed.

Lemma uwrap_eq w x y k : x = y + k * 2 ^ w -> uwrap w x = uwrap w y.
Proof.
  intros ->. unfold uwrap. destruct (Z.eq_dec (2 ^ w) 0) as [->|]; [f_equal; lia|].
  by apply Z.mod_add.
Qed.

Lemma ll_spec z : exists k, ll z = z + k * 2 ^ 64.
Proof.
  destruct (uwrap_spec 64 (z + 2 ^ 63)) as [k Hk]; [lia|]. exists k.
  unfold ll, wrap. change (64 - 1) with 63. unfold uwrap in Hk. lia.
Qed.

Lemma ll_eq x y k : x = y + k * 2 ^ 64 -> ll x = ll y.
Proof.
  intros H. unfold ll, wrap. f_equal. apply (uwrap_eq 64 _ _ k). lia.
Qed.

Lemma ll_eq_mod x y : (x - y) `mod` 2 ^ 64 = 0 -> ll x = ll y.
Proof.
  intros H. apply (ll_eq _ _ ((x - y) / 2 ^ 64)). pose proof (Z.div_mod (x - y) (2 ^ 64)). lia.
Qed.

(** [ll_ring] proves that two 64-bit results agree when the exact ones do. *)
Ltac ll_ring :=
  unfold ll_add, ll_sub, ll_mul; apply ll_eq_mod;
  repeat match goal with
  | |- context [ll ?z] =>
    lazymatch z with
    | context [ll _] => fail
    | _ => let k := fresh "k" in let E := fresh in destruct (ll_spec z) as [k E]; rewrite E; clear E
    end
  end; Z.div_mod_to_equations; lia.

(** [ll_exact] removes the wrap-around of every 64-bit operation whose exact
    result the context proves to be in range. *)
Ltac ll_range := unfold in_ll, LLONG_MIN, LLONG_MAX in *; lia.
Ltac ll_exact :=
  unfold ll_add, ll_sub, ll_mul in *;
  repeat match goal with
  | |- context [ll ?z] => rewrite (ll_id z) by ll_range
  | H : context [ll ?z] |- _ => rewrite (ll_id z) in H by ll_range
  end.

(** Case analysis on the boolean tests of the code. *)
Ltac case_bool :=
  repeat first
    [ match goal with
      | |- context [Z.ltb ?a ?b] => destruct (Z.ltb_spec a b)
      | |- context [Z.leb ?a ?b] => destruct (Z.leb_spec a b)
      | |- context [Z.eqb ?a ?b] => destruct (Z.eqb_spec a b)
      end
    | case_decide | case_match ].

(** ** Faults

    What ends a call other than by a return: a thread that blocks on a mutex
    it holds itself, a failing [assert], a null pointer that is followed, a
    read past the end of an array, a division of integers by zero, a call
    that waits for what nobody does or runs out of fuel, and the release of a
    mutex by a thread that does not hold it. *)
Inductive fault := SelfDeadlock | AssertFailed | NullDereference | OutOfBounds | WaitsForever | OutOfFuel | DivisionByZero | NotOwner.

Inductive res (A : Type) : Type := Ok (a : A) | Err (e : fault).
Arguments Ok {A} a.
Arguments Err {A} e.

#[export] Instance fault_eq_dec : EqDecision fault.
Proof. solve_decision. Defined.
#[export] Instance res_ret : MRet res := fun _ a => Ok a.
#[export] Instance res_bind : MBind res := fun _ _ f m => match m with Ok a => f a | Err e => Err e end.
#[export] Instance res_fmap : FMap res := fun _ _ f m => match m with Ok a => Ok (f a) | Err e => Err e end.

Definition guard_assert (b : bool) : res unit := if b then Ok tt else Err AssertFailed.

Lemma bind_ok {A B} (f : A -> res B) m b :
  m ≫= f = Ok b -> exists a, m = Ok a /\ f a = Ok b.
Proof. destruct m; [|done]. by exists a. Qed.

(** Case analysis on the outcome of the calls a goal makes, innermost first. *)
Ltac res_cases :=
  unfold mbind, res_bind, fmap, res_fmap, mret, res_ret in *;
  repeat (match goal with
    | |- context [match ?x with Ok _ => _ | Err _ => _ end] =>
      lazymatch x with
      | context [match _ with Ok _ => _ | Err _ => _ end] => fail
      | _ => let E := fresh "E" in destruct x as [?|?] eqn:E
      end
    | p : (_ * _)%type |- _ => destruct p
    end; simplify_eq/=).

(** ** Lists *)

(** The C++ arrays and [std::vector]s are lists read with a default. *)
Definition nthd {A} `{Inhabited A} (l : list A) (i : nat) : A := default inhabitant (l !! i).

Lemma nthd_lookup {A} `{Inhabited A} (l : list A) i :
  (i < length l)%nat -> l !! i = Some (nthd l i).
Proof.
  intros [x Hx]%lookup_lt_is_Some. unfold nthd. by rewrite Hx.
Qed.

Lemma nthd_insert {A} `{Inhabited A} (l : list A) i j x :
  (i < length l)%nat -> nthd (<[i:=x]> l) j = if decide (i = j) then x else nthd l j.
Proof.
  intros Hi. unfold nthd. case_decide as Hd.
  - subst. by rewrite list_lookup_insert_eq.
  - by rewrite list_lookup_insert_ne.
Qed.

Lemma nthd_insert_eq {A} `{Inhabited A} (l : list A) i x :
  (i < length l)%nat -> nthd (<[i:=x]> l) i = x.
Proof. intros. rewrite nthd_insert by done. by rewrite decide_True. Qed.

Lemma nthd_insert_ne {A} `{Inhabited A} (l : list A) i j x :
  i <> j -> nthd (<[i:=x]> l) j = nthd l j.
Proof. intros. unfold nthd. by rewrite list_lookup_insert_ne. Qed.

Lemma nthd_elem_of {A} `{Inhabited A} (l : list A) i :
  (i < length l)%nat -> nthd l i ∈ l.
Proof. intros. eapply list_elem_of_lookup_2. by apply nthd_lookup. Qed.

(** Sums in 64 bits, as a loop computes them. *)
Definition ll_sum (l : list Z) : Z := foldl ll_add 0 l.

Lemma ll_add_comm a b : a +ll b = b +ll a.
Proof. unfold ll_add. f_equal. lia. Qed.

Lemma ll_ll_add a b : ll (a + ll b) = ll (a + b).
Proof. ll_ring. Qed.

Lemma ll_add_ll a b : ll (ll a + b) = ll (a + b).
Proof. ll_ring. Qed.

Lemma foldl_ll_add l : forall a, in_ll a -> foldl ll_add a l = ll (a + foldr Z.add 0 l).
Proof.
  induction l as [|x l IH]; intros a Ha; cbn; [by rewrite Z.add_0_r, ll_id|].
  rewrite IH by apply ll_in_ll. unfold ll_add. rewrite ll_add_ll. f_equal. lia.
Qed.

(** Whatever the order, the loop gives the exact sum brought back into 64 bits. *)
Lemma ll_sum_exact l : ll_sum l = ll (foldr Z.add 0 l).
Proof. apply foldl_ll_add. ll_range. Qed.

Lemma ll_sum_app l k : ll_sum (l ++ k) = ll_sum l +ll ll_sum k.
Proof.
  rewrite !ll_sum_exact, foldr_app. unfold ll_add. rewrite ll_add_ll, ll_ll_add. f_equal.
  induction l; cbn; lia.
Qed.

(** The sum of an integer per element. *)
Definition sum_of {A} (f : A -> Z) (l : list A) : Z := foldr (fun x s => f x + s) 0 l.

Lemma sum_of_app {A} (f : A -> Z) l k : sum_of f (l ++ k) = sum_of f l + sum_of f k.
Proof. induction l as [|x l IH]; simpl; [done|]. unfold sum_of in *. simpl. lia. Qed.

Lemma sum_of_perm {A} (f : A -> Z) l k : l ≡ₚ k -> sum_of f l = sum_of f k.
Proof. induction 1; unfold sum_of in *; simpl in *; lia. Qed.

#[export] Instance sum_of_proper {A} (f : A -> Z) : Proper ((≡ₚ) ==> (=)) (sum_of f).
Proof. intros l k H. by apply sum_of_perm. Qed.

Lemma sum_of_ext {A} (f g : A -> Z) l :
  (forall x, x ∈ l -> f x = g x) -> sum_of f l = sum_of g l.
Proof.
  induction l as [|x l IH]; intros H; simpl; [done|].
  unfold sum_of in *. simpl. rewrite (H x) by left.
  rewrite IH; [done|]. intros y Hy. apply H. by right.
Qed.

Lemma sum_of_insert {A} (f : A -> Z) (l : list A) i x y :
  l !! i = Some x -> sum_of f (<[i:=y]> l) = sum_of f l - f x + f y.
Proof.
  revert i. induction l as [|z l IH]; intros [|i] Hi; simplify_eq/=.
  - unfold sum_of. simpl. lia.
  - specialize (IH _ Hi). unfold sum_of in *. simpl. lia.
Qed.

Lemma sum_of_nonneg {A} (f : A -> Z) l :
  (forall x, x ∈ l -> 0 <= f x) -> 0 <= sum_of f l.
Proof.
  induction l as [|x l IH]; intros H; unfold sum_of in *; simpl; [lia|].
  pose proof (H x ltac:(left)). specialize (IH ltac:(intros; apply H; by right)). lia.
Qed.

Lemma sum_of_alter {A} (f : A -> Z) (g : A -> A) (l : list A) i x :
  l !! i = Some x -> sum_of f (alter g i l) = sum_of f l - f x + f (g x).
Proof.
  intros Hi. assert (alter g i l = <[i:=g x]> l) as ->; [|by apply sum_of_insert].
  revert i Hi. induction l as [|y l IH]; intros [|i] Hi; simplify_eq/=; [done|].
  by rewrite <- IH.
Qed.

Lemma nthd_app_l {A} `{Inhabited A} (l k : list A) i : (i < length l)%nat -> nthd (l ++ k) i = nthd l i.
Proof. intros. unfold nthd. by rewrite lookup_app_l. Qed.

Lemma nthd_snoc {A} `{Inhabited A} (l : list A) x : nthd (l ++ [x]) (length l) = x.
Proof. unfold nthd. by rewrite lookup_app_r, Nat.sub_diag. Qed.

Lemma nthd_alter {A} `{Inhabited A} (f : A -> A) (l : list A) i j : (i < length l)%nat ->
  nthd (alter f i l) j = if decide (i = j) then f (nthd l i) else nthd l j.
Proof.
  intros Hi. unfold nthd. case_decide as Hij.
  - subst. rewrite list_lookup_alter_eq. by destruct (lookup_lt_is_Some_2 l j Hi) as [c ->].
  - by rewrite list_lookup_alter_ne.
Qed.

Lemma nthd_map {A B} `{Inhabited A} `{Inhabited B} (f : A -> B) (l : list A) i :
  (i < length l)%nat -> nthd (map f l) i = f (nthd l i).
Proof.
  intros [x Hx]%lookup_lt_is_Some. unfold nthd.
  change (map f l) with (f <$> l). by rewrite list_lookup_fmap, Hx.
Qed.

(** ** States that hold others

    Components that do not know each other work on their part of one state. *)
Class Part (X L : Type) := {
  part : L -> X;
  set_part : X -> L -> L;
  part_set x l : part (set_part x l) = x;
}.
