(* ===== verification/Heap.v ===== *)
(** * Binary heaps

  [AdaptiblePQueue] (src/src/vex/ds/AdaptiblePQueue.h) extends
  [std::priority_queue] and calls [std::make_heap] on its container.  This
  file models the standard library's heap algorithms on an array, the way
  libstdc++ carries them out (a hole that moves down to a leaf and then up),
  and states what [<algorithm>] promises about them as the interface
  [StdHeap]: the queue is verified against the interface and the algorithms
  discharge it.

  The comparator of VEX, [threadStatePtr_compare]
  (src/src/vex/threads/ThreadState.h), makes the front of the heap the
  element of smallest estimated real time: [comp a b] is [key b < key a]. *)
From S2P Require Import Prelude.

(** ** The promise of [<algorithm>] *)

Definition parent (i : nat) : nat := Nat.div (i - 1) 2.

(** Every element from index 1 on has its parent's key below its own. *)
Definition is_heap {A} `{Inhabited A} (key : A -> Z) (l : list A) : Prop :=
forall i, (0 < i < length l)%nat -> key (nthd l (parent i)) <= key (nthd l i).

Class StdHeapOps := {
push_heap : forall {A} `{Inhabited A}, (A -> Z) -> list A -> list A;
pop_heap : forall {A} `{Inhabited A}, (A -> Z) -> list A -> list A;
make_heap : forall {A} `{Inhabited A}, (A -> Z) -> list A -> list A;
}.

Class StdHeap (O : StdHeapOps) : Prop := {
push_heap_perm : forall A (HA : Inhabited A) (key : A -> Z) l, push_heap key l ≡ₚ l;
push_heap_heap : forall A (HA : Inhabited A) (key : A -> Z) l x,
  is_heap key l -> is_heap key (push_heap key (l ++ [x]));
pop_heap_perm : forall A (HA : Inhabited A) (key : A -> Z) l, pop_heap key l ≡ₚ l;
pop_heap_last : forall A (HA : Inhabited A) (key : A -> Z) x l,
  last (pop_heap key (x :: l)) = Some x;
pop_heap_heap : forall A (HA : Inhabited A) (key : A -> Z) l,
  is_heap key l -> is_heap key (removelast (pop_heap key l));
make_heap_perm : forall A (HA : Inhabited A) (key : A -> Z) l, make_heap key l ≡ₚ l;
make_heap_heap : forall A (HA : Inhabited A) (key : A -> Z) l, is_heap key (make_heap key l);
}.

(** ** libstdc++'s algorithms *)

Section algorithms.
Context {A : Type} `{Inhabited A} (key : A -> Z).

Definition comp (a b : A) : bool := key b <? key a.

(** [std::__push_heap]: the value climbs from the hole. *)
Fixpoint push_loop (fuel : nat) (l : list A) (hole top : nat) (v : A) : list A :=
  match fuel with
  | O => <[hole:=v]> l
  | S fuel =>
    if Nat.ltb top hole && comp (nthd l (parent hole)) v
    then push_loop fuel (<[hole:=nthd l (parent hole)]> l) (parent hole) top v
    else <[hole:=v]> l
  end.

(** [std::__adjust_heap]: the hole sinks along the smaller children. *)
Fixpoint sink_loop (fuel : nat) (l : list A) (hole len : nat) : list A * nat :=
  match fuel with
  | O => (l, hole)
  | S fuel =>
    if Nat.ltb hole (Nat.div (len - 1) 2) then
      let second := (2 * (hole + 1))%nat in
      let child := if comp (nthd l second) (nthd l (second - 1)) then (second - 1)%nat else second in
      sink_loop fuel (<[hole:=nthd l child]> l) child len
    else if Nat.even len && Nat.eqb hole (Nat.div (len - 2) 2) && Nat.leb 2 len then
      let child := (2 * (hole + 1) - 1)%nat in
      (<[hole:=nthd l child]> l, child)
    else (l, hole)
  end.

Definition adjust_heap (l : list A) (hole len : nat) (v : A) : list A :=
  let '(l', hole') := sink_loop len l hole len in
  push_loop len l' hole' hole v.

Definition std_push_heap (l : list A) : list A :=
  match last l with
  | None => l
  | Some v => push_loop (length l) l (length l - 1) 0 v
  end.

Definition std_pop_heap (l : list A) : list A :=
  match l, last l with
  | x :: _ :: _, Some v => adjust_heap (removelast l) 0 (length l - 1) v ++ [x]
  | _, _ => l
  end.

Fixpoint make_loop (n : nat) (l : list A) : list A :=
  match n with
  | O => l
  | S p => make_loop p (adjust_heap l p (length l) (nthd l p))
  end.

Definition std_make_heap (l : list A) : list A :=
  if Nat.ltb (length l) 2 then l else make_loop (S (Nat.div (length l - 2) 2)) l.

(** *** Index arithmetic *)

Lemma parent_lt i : (0 < i)%nat -> (parent i < i)%nat.
Proof. intros. unfold parent. apply Nat.Div0.div_lt_upper_bound. lia. Qed.

Lemma parent_child i h : (0 < i)%nat -> parent i = h <-> (i = 2 * h + 1 \/ i = 2 * h + 2)%nat.
Proof.
  intros. unfold parent. pose proof (Nat.div_mod_eq (i - 1) 2).
  pose proof (Nat.mod_upper_bound (i - 1) 2). lia.
Qed.

Lemma half_lt h n : (h < Nat.div n 2)%nat <-> (2 * h + 2 <= n)%nat.
Proof.
  pose proof (Nat.div_mod_eq n 2). pose proof (Nat.mod_upper_bound n 2). lia.
Qed.

(** [desc top i]: index [i] lies in the subtree of [top]. *)
Inductive desc (top : nat) : nat -> Prop :=
| desc_here : desc top top
| desc_child i : (0 < i)%nat -> desc top (parent i) -> desc top i.

Lemma desc_le top i : desc top i -> (top <= i)%nat.
Proof. induction 1 as [|i Hi _ IH]; [done|]. pose proof (parent_lt i Hi). lia. Qed.

Lemma desc_zero i : desc 0 i.
Proof.
  induction (lt_wf i) as [i _ IH]. destruct (decide (i = 0%nat)) as [->|]; [constructor|].
  apply desc_child; [lia|]. apply IH, parent_lt. lia.
Qed.

Lemma desc_parent top i : desc top i -> i <> top -> (0 < i)%nat /\ desc top (parent i).
Proof. destruct 1; done. Qed.

(** *** Permutations *)

Lemma hole_move_perm (l : list A) i j v :
  (i < length l)%nat -> (j < length l)%nat ->
  <[j:=v]> (<[i:=nthd l j]> l) ≡ₚ <[i:=v]> l.
Proof.
  intros Hi Hj. destruct (decide (i = j)) as [->|Hij].
  { by rewrite list_insert_insert_eq. }
  pose proof (nthd_lookup l j Hj) as Hlj. revert Hlj. generalize (nthd l j) as y. intros y Hlj.
  apply lookup_lt_is_Some in Hi as [x Hi].
  rewrite (list_insert_insert_ne l j i) by done.
  apply Permutation_inj. split; [by rewrite !length_insert|].
  exists (fun k => if decide (k = i) then j else if decide (k = j) then i else k).
  split; [intros a b; repeat case_decide; congruence|].
  pose proof (lookup_lt_Some _ _ _ Hi). pose proof (lookup_lt_Some _ _ _ Hlj).
  intros k. repeat case_decide; subst.
  - rewrite list_lookup_insert_eq by (rewrite length_insert; lia).
    by rewrite list_lookup_insert_ne.
  - rewrite list_lookup_insert_ne by done.
    rewrite !list_lookup_insert_eq by lia. done.
  - by rewrite !list_lookup_insert_ne by done.
Qed.

Lemma push_loop_perm fuel l hole top v :
  (hole < length l)%nat -> push_loop fuel l hole top v ≡ₚ <[hole:=v]> l.
Proof.
  revert l hole. induction fuel as [|fuel IH]; intros l hole Hh; simpl; [done|].
  destruct (Nat.ltb_spec top hole); simpl; [|done].
  destruct (comp _ _); [|done].
  pose proof (parent_lt hole ltac:(lia)).
  rewrite IH by (rewrite length_insert; lia). apply hole_move_perm; lia.
Qed.

Lemma push_loop_length fuel l hole top v : length (push_loop fuel l hole top v) = length l.
Proof.
  revert l hole. induction fuel as [|fuel IH]; intros l hole; simpl;
    [by rewrite length_insert|].
  case_match; [rewrite IH|]; by rewrite length_insert.
Qed.

Lemma sink_loop_spec fuel l hole len l' hole' v :
  length l = len -> (hole < len)%nat -> sink_loop fuel l hole len = (l', hole') ->
  length l' = len /\ (hole' < len)%nat /\ <[hole':=v]> l' ≡ₚ <[hole:=v]> l.
Proof.
  revert l hole. induction fuel as [|fuel IH]; intros l hole Hl Hh; cbn [sink_loop].
  { by intros [= <- <-]. }
  destruct (Nat.ltb_spec hole (Nat.div (len - 1) 2)) as [Hlt|].
  - apply half_lt in Hlt. set (child := if comp _ _ then _ else _). intros Hs.
    assert (child < len)%nat by (subst child; destruct (comp _ _); lia).
    destruct (IH _ _ ltac:(by rewrite length_insert) ltac:(done) Hs) as (?&?&Hp).
    split_and!; [done..|]. rewrite Hp. apply hole_move_perm; lia.
  - case_match eqn:Hb; [|by intros [= <- <-]]. intros [= <- <-].
    apply andb_prop in Hb as [[_ Hb%Nat.eqb_eq]%andb_prop Hle%Nat.leb_le].
    pose proof (Nat.div_mod_eq (len - 2) 2).
    rewrite length_insert. split_and!; [done|lia|]. apply hole_move_perm; lia.
Qed.

Lemma adjust_heap_perm l hole v :
  (hole < length l)%nat -> adjust_heap l hole (length l) v ≡ₚ <[hole:=v]> l.
Proof.
  intros Hh. unfold adjust_heap. destruct (sink_loop _ _ _ _) as [l' hole'] eqn:Hs.
  destruct (sink_loop_spec _ _ _ _ _ _ v eq_refl Hh Hs) as (Hl&?&Hp).
  rewrite push_loop_perm by lia. done.
Qed.

Lemma adjust_heap_length l hole v :
  (hole < length l)%nat -> length (adjust_heap l hole (length l) v) = length l.
Proof. intros. rewrite adjust_heap_perm by done. apply length_insert. Qed.

(** *** Heap order *)

(** The order holds on the edges whose parent is at [top] or later. *)
Definition heap_from (top : nat) (l : list A) : Prop :=
  forall i, (0 < i < length l)%nat -> (top <= parent i)%nat ->
    key (nthd l (parent i)) <= key (nthd l i).

(** The order around a hole: edges that avoid it, and the edges from its
    parent to its children once it is closed up. *)
Definition heap_hole (top hole : nat) (l : list A) : Prop :=
  (forall i, (0 < i < length l)%nat -> (top <= parent i)%nat -> i <> hole -> parent i <> hole ->
     key (nthd l (parent i)) <= key (nthd l i)) /\
  (forall i, (0 < i < length l)%nat -> parent i = hole -> hole <> top ->
     key (nthd l (parent hole)) <= key (nthd l i)).

Lemma heap_from_hole top l : heap_from top l -> heap_hole top top l.
Proof. intros Hf. split; [by auto|done]. Qed.

Lemma push_loop_heap fuel l hole top v :
  (hole <= fuel)%nat -> (hole < length l)%nat -> desc top hole -> heap_hole top hole l ->
  (forall i, (0 < i < length l)%nat -> parent i = hole -> key v <= key (nthd l i)) ->
  heap_from top (push_loop fuel l hole top v).
Proof.
  revert l hole. induction fuel as [|fuel IH]; intros l hole Hf Hh Hd [H1 H2] Hv.
  { assert (hole = 0%nat) as -> by lia. simpl. intros i Hi Ht. rewrite length_insert in Hi.
    rewrite !nthd_insert by done. repeat case_decide; subst; try lia.
    - apply Hv; done.
    - apply H1; lia. }
  simpl. pose proof (desc_le _ _ Hd).
  assert (hole <> top -> 0 < hole /\ desc top (parent hole))%nat as Hpar by (by apply desc_parent).
  destruct (Nat.ltb_spec top hole) as [Htop|Htop]; simpl; unfold comp;
    [destruct (Z.ltb_spec (key v) (key (nthd l (parent hole)))) as [Hlt|Hge]|].
  - destruct Hpar as [Hpos Hdp]; [lia|]. pose proof (parent_lt hole Hpos).
    pose proof (desc_le _ _ Hdp).
    apply IH; rewrite ?length_insert; try lia; [done|split|].
    + intros i Hi Ht Hip Hpp. rewrite length_insert in Hi. rewrite !nthd_insert by lia.
      repeat case_decide; subst; try done; [by apply H2; lia|by apply H1; lia].
    + intros i Hi Hip Hpt. rewrite length_insert in Hi. rewrite !nthd_insert by lia.
      destruct (desc_parent _ _ Hdp Hpt) as [Hpp Hdpp].
      pose proof (parent_lt _ Hpp). pose proof (desc_le _ _ Hdpp).
      pose proof (H1 (parent hole) ltac:(lia) ltac:(lia) ltac:(lia) ltac:(lia)).
      repeat case_decide; try lia.
      pose proof (H1 i ltac:(lia) ltac:(lia) ltac:(lia) ltac:(lia)). rewrite Hip in *. lia.
    + intros i Hi Hip. rewrite nthd_insert by lia. case_decide; [lia|].
      pose proof (H1 i ltac:(lia) ltac:(lia) ltac:(lia) ltac:(lia)). rewrite Hip in *. lia.
  - intros i Hi Ht. rewrite length_insert in Hi. pose proof (parent_lt i ltac:(lia)).
    rewrite !nthd_insert by done.
    repeat case_decide; subst; try lia; [by apply Hv|by apply H1; lia].
  - intros i Hi Ht. rewrite length_insert in Hi. pose proof (parent_lt i ltac:(lia)).
    rewrite !nthd_insert by done.
    repeat case_decide; subst; try lia; [by apply Hv|by apply H1; lia].
Qed.

Definition leaf (len hole : nat) : Prop := forall i, (0 < i < len)%nat -> parent i <> hole.

Lemma sink_step top l hole child :
  (hole < length l)%nat -> (0 < child < length l)%nat -> parent child = hole -> desc top hole ->
  (forall i, (0 < i < length l)%nat -> parent i = hole -> key (nthd l child) <= key (nthd l i)) ->
  heap_hole top hole l -> heap_hole top child (<[hole:=nthd l child]> l).
Proof.
  intros Hh Hc Hp Hd Hmin [H1 H2]. pose proof (parent_lt child ltac:(lia)).
  pose proof (desc_le _ _ Hd).
  split; intros i Hi; rewrite length_insert in Hi; rewrite !nthd_insert by done.
  - intros Ht Hic Hpc. pose proof (parent_lt i ltac:(lia)).
    case_decide as Hd1; case_decide as Hd2; [lia|by apply Hmin| |by apply H1; lia].
    rewrite <- Hd2. apply H2; [lia|done|]. intros ->. rewrite <- Hd2 in *. lia.
  - intros Hpi Hct. pose proof (parent_lt i ltac:(lia)).
    rewrite Hp. repeat case_decide; try lia.
    pose proof (H1 i ltac:(lia) ltac:(lia) ltac:(lia) ltac:(lia)) as Hcc.
    rewrite Hpi in Hcc. done.
Qed.

Lemma sink_loop_heap fuel top l hole len l' hole' :
  length l = len -> (hole < len)%nat -> (len <= fuel + hole)%nat -> desc top hole ->
  heap_hole top hole l -> sink_loop fuel l hole len = (l', hole') ->
  desc top hole' /\ heap_hole top hole' l' /\ leaf len hole'.
Proof.
  revert l hole. induction fuel as [|fuel IH]; intros l hole Hl Hh Hf Hd HH; [lia|]. cbn [sink_loop].
  destruct (Nat.ltb_spec hole (Nat.div (len - 1) 2)) as [Hlt|Hge].
  - apply half_lt in Hlt.
    set (child := if comp _ _ then _ else _). intros Hs.
    assert (parent child = hole /\ 0 < child < len /\ hole < child)%nat as (Hp&Hc&?).
    { subst child. destruct (comp _ _); (split; [apply parent_child|]; lia). }
    eapply (IH _ child); [..|exact Hs]; rewrite ?length_insert; try lia.
    + apply desc_child; [lia|]. by rewrite Hp.
    + apply sink_step; rewrite ?Hl; try done. intros i Hi Hpi%parent_child; [|lia].
      subst child. unfold comp.
      replace (2 * (hole + 1) - 1)%nat with (2 * hole + 1)%nat by lia.
      replace (2 * (hole + 1))%nat with (2 * hole + 2)%nat by lia.
      destruct (Z.ltb_spec (key (nthd l (2 * hole + 1)%nat)) (key (nthd l (2 * hole + 2)%nat)));
        destruct Hpi as [->| ->]; lia.
  - assert (len <= 2 * hole + 2)%nat as Hlen
      by (pose proof (half_lt hole (len - 1)); lia).
    case_match eqn:Hb; intros [= <- <-].
    + apply andb_prop in Hb as [[_ Hb%Nat.eqb_eq]%andb_prop Hle%Nat.leb_le].
      pose proof (Nat.div_mod_eq (len - 2) 2). pose proof (Nat.mod_upper_bound (len - 2) 2).
      match goal with |- desc top ?c /\ _ => replace c with (2 * hole + 1)%nat by lia end.
      assert (parent (2 * hole + 1)%nat = hole) as Hp by (apply parent_child; lia).
      split_and!.
      * apply desc_child; [lia|]. by rewrite Hp.
      * apply sink_step; rewrite ?Hl; try done; try lia.
        intros i Hi Hpi%parent_child; [|lia]. destruct Hpi as [->| ->]; lia.
      * intros i Hi Hpi%parent_child; lia.
    + split_and!; [done..|]. intros i Hi Hpi%parent_child; [|lia].
      apply not_true_iff_false in Hb. apply Hb.
      destruct Hpi as [->| ->]; [|lia].
      assert (len = 2 * hole + 2)%nat as -> by lia.
      rewrite !andb_true_iff, Nat.eqb_eq, Nat.leb_le. split_and!; [|..|lia].
      * replace (2 * hole + 2)%nat with (2 * (hole + 1))%nat by lia.
        rewrite Nat.even_mul. done.
      * replace (2 * hole + 2 - 2)%nat with (hole * 2)%nat by lia. by rewrite Nat.div_mul.
Qed.

Lemma adjust_heap_heap top l v :
  (top < length l)%nat -> heap_hole top top l ->
  heap_from top (adjust_heap l top (length l) v).
Proof.
  intros Ht HH. unfold adjust_heap. destruct (sink_loop _ _ _ _) as [l' hole'] eqn:Hs.
  destruct (sink_loop_spec _ _ _ _ _ _ v eq_refl Ht Hs) as (Hl&?&_).
  destruct (sink_loop_heap (length l) top _ _ _ _ _ eq_refl Ht ltac:(lia) (desc_here _) HH Hs)
    as (Hd&HH'&Hleaf).
  apply push_loop_heap; try lia; [done..|]. intros i Hi Hp. rewrite Hl in Hi.
  by destruct (Hleaf i Hi).
Qed.

Lemma make_loop_perm n l : (n <= length l)%nat -> make_loop n l ≡ₚ l.
Proof.
  revert l. induction n as [|p IH]; intros l Hn; cbn [make_loop]; [done|].
  rewrite IH by (rewrite adjust_heap_length; lia).
  rewrite adjust_heap_perm by lia. by rewrite list_insert_id by (apply nthd_lookup; lia).
Qed.

Lemma make_loop_heap n l : (n <= length l)%nat -> heap_from n l -> heap_from 0 (make_loop n l).
Proof.
  revert l. induction n as [|p IH]; intros l Hn Hf; cbn [make_loop]; [done|].
  apply IH; [rewrite adjust_heap_length; lia|]. apply adjust_heap_heap; [lia|].
  split; [|done]. intros i Hi Ht Hip Hpp. apply Hf; [done|lia].
Qed.

Lemma heap_from_zero l : heap_from 0 l <-> is_heap key l.
Proof. split; intros Hh i Hi; [apply Hh; lia|intros; by apply Hh]. Qed.

Lemma is_heap_removelast l x : is_heap key (l ++ [x]) -> is_heap key l.
Proof.
  intros Hh i Hi. specialize (Hh i). rewrite length_app in Hh. simpl in Hh.
  specialize (Hh ltac:(lia)). pose proof (parent_lt i ltac:(lia)).
  unfold nthd in *. by rewrite !lookup_app_l in Hh by lia.
Qed.

(** The front of a heap has the least key. *)
Lemma is_heap_front l i : is_heap key l -> (i < length l)%nat -> key (nthd l 0) <= key (nthd l i).
Proof.
  intros Hh. induction (lt_wf i) as [i _ IH]; intros Hi.
  destruct (decide (i = 0%nat)) as [->|]; [lia|]. pose proof (parent_lt i ltac:(lia)).
  specialize (IH (parent i) ltac:(lia) ltac:(lia)). pose proof (Hh i ltac:(lia)). lia.
Qed.

Lemma std_push_heap_heap l x : is_heap key l -> is_heap key (std_push_heap (l ++ [x])).
Proof.
  intros Hh. unfold std_push_heap. rewrite last_snoc, length_app. cbn [length].
  apply heap_from_zero, push_loop_heap; rewrite ?length_app; cbn [length]; try lia;
    [apply desc_zero|split|].
  - intros i Hi _ Hip Hpp. pose proof (parent_lt i ltac:(lia)).
    rewrite ?length_app in Hi. cbn [length] in *.
    unfold nthd. rewrite !lookup_app_l by lia. by apply Hh; lia.
  - intros i Hi Hp. pose proof (parent_lt i ltac:(lia)).
    rewrite ?length_app in Hi. cbn [length] in *. lia.
  - intros i Hi Hp. pose proof (parent_lt i ltac:(lia)).
    rewrite ?length_app in Hi. cbn [length] in *. lia.
Qed.

Lemma std_push_heap_perm l : std_push_heap l ≡ₚ l.
Proof.
  unfold std_push_heap. destruct (last l) as [v|] eqn:Hl; [|done].
  apply last_Some in Hl as [l' ->]. rewrite length_app. cbn [length].
  rewrite push_loop_perm by (rewrite length_app; cbn [length]; lia).
  rewrite list_insert_id; [done|]. rewrite lookup_app_r by lia.
  by replace (length l' + 1 - 1 - length l')%nat with 0%nat by lia.
Qed.

Lemma pop_shape x y l v l' : x :: y :: l = l' ++ [v] ->
  std_pop_heap (x :: y :: l) = adjust_heap l' 0 (length l') v ++ [x] /\
  l' = x :: removelast (y :: l).
Proof.
  intros Heq. unfold std_pop_heap.
  assert (last (x :: y :: l) = Some v) as -> by (rewrite Heq; apply last_snoc).
  assert (removelast (x :: y :: l) = l') as Hr by (rewrite Heq; apply removelast_last).
  rewrite Hr. split; [|by rewrite <- Hr]. rewrite Heq, length_app. cbn [length].
  by replace (length l' + 1 - 1)%nat with (length l') by lia.
Qed.

Lemma std_pop_heap_perm l : std_pop_heap l ≡ₚ l.
Proof.
  destruct l as [|x [|y l]]; [done..|].
  destruct (exists_last (l := x :: y :: l)) as (l'&v&Heq); [done|].
  destruct (pop_shape _ _ _ _ _ Heq) as [-> Hl'].
  rewrite adjust_heap_perm by (rewrite Hl'; simpl; lia).
  rewrite Heq, Hl'. simpl. rewrite Permutation_app_comm. simpl.
  rewrite (Permutation_app_comm _ [v]). simpl. constructor.
Qed.

Lemma std_pop_heap_last x l : last (std_pop_heap (x :: l)) = Some x.
Proof.
  destruct l as [|y l]; [done|].
  destruct (exists_last (l := x :: y :: l)) as (l'&v&Heq); [done|].
  destruct (pop_shape _ _ _ _ _ Heq) as [-> _]. apply last_snoc.
Qed.

Lemma std_pop_heap_heap l : is_heap key l -> is_heap key (removelast (std_pop_heap l)).
Proof.
  destruct l as [|x [|y l]]; [done|intros _ i Hi; simpl in Hi; lia|]. intros Hh.
  destruct (exists_last (l := x :: y :: l)) as (l'&v&Heq); [done|].
  destruct (pop_shape _ _ _ _ _ Heq) as [-> Hl']. rewrite removelast_last.
  rewrite Heq in Hh. apply is_heap_removelast, heap_from_zero in Hh.
  apply heap_from_zero, adjust_heap_heap; [rewrite Hl'; simpl; lia|].
  by apply heap_from_hole.
Qed.

Lemma std_make_heap_perm l : std_make_heap l ≡ₚ l.
Proof.
  unfold std_make_heap. destruct (Nat.ltb_spec (length l) 2); [done|].
  pose proof (Nat.div_mod_eq (length l - 2) 2). apply make_loop_perm. lia.
Qed.

Lemma std_make_heap_heap l : is_heap key (std_make_heap l).
Proof.
  unfold std_make_heap. destruct (Nat.ltb_spec (length l) 2).
  { intros i Hi. lia. }
  pose proof (Nat.div_mod_eq (length l - 2) 2). pose proof (Nat.mod_upper_bound (length l - 2) 2).
  apply heap_from_zero, make_loop_heap; [lia|]. intros i Hi Ht.
  pose proof (parent_child i (parent i) ltac:(lia)). lia.
Qed.
End algorithms.

#[export] Instance libstdcxx_ops : StdHeapOps := {|
push_heap := @std_push_heap; pop_heap := @std_pop_heap; make_heap := @std_make_heap |}.

#[export] Instance libstdcxx_heap : StdHeap libstdcxx_ops.
Proof.
split; intros; cbn.
- apply std_push_heap_perm.
- by apply std_push_heap_heap.
- apply std_pop_heap_perm.
- apply std_pop_heap_last.
- by apply std_pop_heap_heap.
- apply std_make_heap_perm.
- apply std_make_heap_heap.
Qed.

Example make_heap_example : make_heap (fun z : Z => z) [5; 3; 9; 1; 4] = [1; 3; 9; 5; 4].
Proof. reflexivity. Qed.
