(* ===== verification/AdaptiblePQueue.v ===== *)
(** * AdaptiblePQueue

  The priority queue of src/src/vex/ds/AdaptiblePQueue.h: a
  [std::priority_queue] whose container [c] is also searched, erased from
  and re-heapified.  The container is the list of its elements; every
  operation takes the ordering [key] at the time of the call, because VEX
  keeps pointers in the queue and changes the times behind them. *)
From S2P Require Import Prelude Heap.

Module AdaptiblePQueue.
Section pqueue.
Context `{HO : StdHeapOps}.
Context {T : Type} `{Inhabited T} `{EqDecision T} (key : T -> Z).

(** [std::priority_queue] *)
Definition empty (c : list T) : bool := match c with [] => true | _ => false end.
Definition size (c : list T) : nat := length c.
Definition top (c : list T) : option T := head c.
Definition push (c : list T) (x : T) : list T := push_heap key (c ++ [x]).
Definition pop (c : list T) : list T := removelast (pop_heap key c).

Definition update (c : list T) : list T := make_heap key c.

Fixpoint find (c : list T) (state : T) : bool :=
  match c with
  | [] => false
  | x :: c => if decide (x = state) then true else find c state
  end.

Fixpoint erase_first (c : list T) (state : T) : list T :=
  match c with
  | [] => []
  | x :: c => if decide (x = state) then c else x :: erase_first c state
  end.

Definition erase (c : list T) (state : T) : list T := update (erase_first c state).

Fixpoint erase_every (c : list T) (state : T) : list T :=
  match c with
  | [] => []
  | x :: c => if decide (x = state) then erase_every c state else x :: erase_every c state
  end.

Definition eraseAll (c : list T) (state : T) : list T := update (erase_every c state).

(** ** Laws *)
Context `{HH : !StdHeap HO}.

Lemma push_perm c x : push c x ≡ₚ x :: c.
Proof. unfold push. rewrite push_heap_perm. by rewrite Permutation_app_comm. Qed.

Lemma push_heap_order c x : is_heap key c -> is_heap key (push c x).
Proof. apply push_heap_heap. Qed.

Lemma pop_perm x c : x :: pop (x :: c) ≡ₚ x :: c.
Proof.
  unfold pop. pose proof (pop_heap_last T _ key x c) as Hl.
  apply last_Some in Hl as [l' Hl]. rewrite Hl, removelast_last.
  rewrite <- (pop_heap_perm T _ key (x :: c)), Hl. by rewrite Permutation_app_comm.
Qed.

Lemma pop_tail_perm x c : pop (x :: c) ≡ₚ c.
Proof. eapply Permutation_cons_inv, pop_perm. Qed.

Lemma pop_heap_order c : is_heap key c -> is_heap key (pop c).
Proof. apply pop_heap_heap. Qed.

Lemma update_perm c : update c ≡ₚ c.
Proof. apply make_heap_perm. Qed.

Lemma update_heap_order c : is_heap key (update c).
Proof. apply make_heap_heap. Qed.

Lemma find_spec c x : find c x = true <-> x ∈ c.
Proof using Type.
  clear key.
  induction c as [|y c IH]; simpl; [split; [done|by intros ?%not_elem_of_nil]|].
  case_decide as Hd; rewrite elem_of_cons; [naive_solver|]. rewrite IH. naive_solver.
Qed.

Lemma erase_first_perm c x : x ∈ c -> x :: erase_first c x ≡ₚ c.
Proof.
  induction c as [|y c IH]; simpl; [by intros ?%not_elem_of_nil|].
  intros [->|Hx]%elem_of_cons.
  - by rewrite decide_True.
  - case_decide; [by subst|]. rewrite <- (IH Hx) at 2. constructor.
Qed.

Lemma erase_first_absent c x : x ∉ c -> erase_first c x = c.
Proof.
  induction c as [|y c IH]; simpl; [done|]. intros [??]%not_elem_of_cons.
  rewrite decide_False by congruence. by rewrite IH.
Qed.

Lemma erase_perm c x : x ∈ c -> x :: erase c x ≡ₚ c.
Proof. intros. unfold erase. rewrite update_perm. by apply erase_first_perm. Qed.

Lemma erase_absent_perm c x : x ∉ c -> erase c x ≡ₚ c.
Proof. intros. unfold erase. by rewrite update_perm, erase_first_absent. Qed.

Lemma erase_heap_order c x : is_heap key (erase c x).
Proof. apply update_heap_order. Qed.

Lemma erase_every_spec c x y : y ∈ erase_every c x <-> y ∈ c /\ y <> x.
Proof.
  induction c as [|z c IH]; simpl; [set_solver|].
  case_decide; rewrite ?elem_of_cons, IH; naive_solver.
Qed.

Lemma eraseAll_spec c x y : y ∈ eraseAll c x <-> y ∈ c /\ y <> x.
Proof. unfold eraseAll. rewrite update_perm. apply erase_every_spec. Qed.

Lemma top_min c x y : is_heap key c -> top c = Some x -> y ∈ c -> key x <= key y.
Proof.
  destruct c as [|z c]; simpl; [done|]. intros Hh [= ->] [i Hi]%list_elem_of_lookup.
  pose proof (lookup_lt_Some _ _ _ Hi) as Hlt. pose proof (is_heap_front key _ _ Hh Hlt) as Hm.
  unfold nthd in Hm. by rewrite Hi in Hm.
Qed.

Lemma top_elem c x : top c = Some x -> x ∈ c.
Proof. destruct c; simpl; [done|]. intros [= ->]. by left. Qed.

Lemma empty_spec c : empty c = true <-> c = [].
Proof. by destruct c. Qed.
End pqueue.
End AdaptiblePQueue.

#[export] Hint Resolve AdaptiblePQueue.push_heap_order AdaptiblePQueue.pop_heap_order
AdaptiblePQueue.update_heap_order AdaptiblePQueue.erase_heap_order : vex.
