(* ===== verification/CxxFloat.v ===== *)
(** * The floating-point arithmetic of the time factors

    [Timers] multiplies nanosecond counts by [float] factors.  This file gives
    binary32 and binary64 arithmetic (round to nearest, ties to even) through
    the executable [SpecFloat] of the Standard Library, the conversions
    between [long long] and [float] and their properties.

    A [float] out of the range of [long long] converts to [LLONG_MIN], the
    integer indefinite value of the x86-64 conversion instruction (the
    conversion is undefined in C++). *)
From Stdlib Require Export SpecFloat.
From S2P Require Import Prelude.

Definition float : Type := spec_float.

Definition f32 (m e : Z) : float := binary_normalize 24 128 m e false.
Definition f64 (m e : Z) : float := binary_normalize 53 1024 m e false.

Definition f32_one : float := Eval vm_compute in f32 1 0.

Definition ll_to_f32 (z : Z) : float := f32 z 0.
Definition ll_to_f64 (z : Z) : float := f64 z 0.
Definition f32_mul (x y : float) : float := SFmul 24 128 x y.
Definition f32_div (x y : float) : float := SFdiv 24 128 x y.
Definition f32_add (x y : float) : float := SFadd 24 128 x y.
Definition f64_mul (x y : float) : float := SFmul 53 1024 x y.
Definition f64_add (x y : float) : float := SFadd 53 1024 x y.
Definition f64_sub (x y : float) : float := SFsub 53 1024 x y.
Definition f64_div (x y : float) : float := SFdiv 53 1024 x y.
Definition f64_opp (x : float) : float := SFopp x.
(** The value is the same, and so is what is infinite or not a number. *)
Definition f32_to_f64 (x : float) : float :=
  match x with
  | S754_finite s m e => binary_normalize 53 1024 (cond_Zopp s (Zpos m)) e s
  | _ => x
  end.

Definition f_ltb (x y : float) : bool := SFltb x y.
Definition f_leb (x y : float) : bool := SFleb x y.
Definition f_eqb (x y : float) : bool := SFeqb x y.

(** Truncation toward zero of a finite float. *)
Definition f_trunc (x : float) : option Z :=
  match x with
  | S754_zero _ => Some 0
  | S754_finite s m e =>
    let v := if 0 <=? e then Zpos m * 2 ^ e else Zpos m / 2 ^ (- e) in
    Some (if s then - v else v)
  | _ => None
  end.

Definition f_to_ll (x : float) : Z :=
  match f_trunc x with
  | Some z => if (LLONG_MIN <=? z) && (z <=? LLONG_MAX) then z else LLONG_MIN
  | None => LLONG_MIN
  end.

(** ** Integers of at most 24 bits survive multiplication by one *)

(** A normal binary32 number: 24 significant bits. *)
Definition normal32 (m : positive) (e : Z) : Prop :=
  digits2_pos m = 24%positive /\ -149 <= e <= 104.

Lemma iter_xO_value m n : Zpos (Pos.iter xO m n) = Zpos m * 2 ^ Zpos n.
Proof.
  induction n as [|n IH] using Pos.peano_ind; [simpl; lia|].
  rewrite Pos.iter_succ, Pos2Z.inj_xO, IH, Pos2Z.inj_succ, Z.pow_succ_r by lia. lia.
Qed.

Lemma iter_xO_digits m n : digits2_pos (Pos.iter xO m n) = (digits2_pos m + n)%positive.
Proof.
  induction n as [|n IH] using Pos.peano_ind; [simpl; lia|].
  rewrite Pos.iter_succ. simpl. lia.
Qed.

Lemma digits2_pos_bound m : 2 ^ (Zpos (digits2_pos m) - 1) <= Zpos m < 2 ^ Zpos (digits2_pos m).
Proof.
  induction m as [m IH|m IH|]; simpl digits2_pos; [..|simpl; lia];
    rewrite Pos2Z.inj_succ, Z.sub_1_r, Z.pred_succ, Z.pow_succ_r by lia;
    replace (Zpos (digits2_pos m)) with (Z.succ (Zpos (digits2_pos m) - 1)) by lia;
    rewrite Z.pow_succ_r by lia;
    replace (Zpos (digits2_pos m)) with (Z.succ (Zpos (digits2_pos m) - 1)) in IH at 2 by lia;
    rewrite Z.pow_succ_r in IH by lia; lia.
Qed.

Lemma digits2_pos_le m n : Zpos m < 2 ^ Zpos n -> (digits2_pos m <= n)%positive.
Proof.
  intros Hm. pose proof (digits2_pos_bound m) as [Hl _].
  destruct (Pos.leb_spec (digits2_pos m) n); [done|].
  assert (2 ^ Zpos n <= 2 ^ (Zpos (digits2_pos m) - 1)) by (apply Z.pow_le_mono_r; lia). lia.
Qed.

Lemma shr_fexp_normal m e : normal32 m e ->
  shr_fexp 24 128 (Zpos m) e loc_Exact = ({| shr_m := Zpos m; shr_r := false; shr_s := false |}, e).
Proof.
  intros [Hd He]. unfold shr_fexp, fexp, emin, Zdigits2. rewrite Hd.
  by replace (Z.max _ _ - e) with 0 by lia.
Qed.

Lemma round32_exact s m e : normal32 m e ->
  binary_round_aux 24 128 s (Zpos m) e loc_Exact = S754_finite s m e.
Proof.
  intros Hn. unfold binary_round_aux. rewrite shr_fexp_normal by done.
  cbn [shr_m loc_of_shr_record round_nearest_even]. rewrite shr_fexp_normal by done. cbn [shr_m].
  destruct Hn. destruct (Z.leb_spec e (128 - 24)); [done|lia].
Qed.

(** The factor one is neutral on normal numbers. *)
Lemma f32_mul_one s m e : normal32 m e ->
  f32_mul (S754_finite s m e) f32_one = S754_finite s m e.
Proof.
  intros [Hd He]. unfold f32_mul, f32_one, SFmul. rewrite xorb_false_r.
  assert (m * 8388608 = Pos.iter xO m 23)%positive as ->.
  { apply Pos2Z.inj. rewrite iter_xO_value. change (2 ^ 23) with 8388608. lia. }
  unfold binary_round_aux at 1.
  assert (shr_fexp 24 128 (Zpos (Pos.iter xO m 23)) (e + -23) loc_Exact
          = ({| shr_m := Zpos m; shr_r := false; shr_s := false |}, e)) as ->.
  { unfold shr_fexp, fexp, emin, Zdigits2. rewrite iter_xO_digits, Hd.
    replace (Z.max _ _ - (e + -23)) with 23 by lia. unfold shr.
    f_equal. lia. }
  cbn [shr_m loc_of_shr_record round_nearest_even]. rewrite shr_fexp_normal by done. cbn [shr_m].
  destruct (Z.leb_spec e (128 - 24)); [done|lia].
Qed.

(** An integer of at most 24 bits, normalised. *)
Lemma ll_to_f32_normal m : Zpos m <= 2 ^ 24 -> Zpos m <> 2 ^ 24 ->
  exists m' d, 0 <= d <= 23 /\ normal32 m' (- d) /\ Zpos m' = Zpos m * 2 ^ d /\
    ll_to_f32 (Zpos m) = S754_finite false m' (- d) /\
    ll_to_f32 (Zneg m) = S754_finite true m' (- d).
Proof.
  intros Hm Hne. pose proof (digits2_pos_le m 24 ltac:(lia)) as Hd.
  assert (forall m' d, 0 <= d <= 23 -> normal32 m' (- d) -> Zpos m' = Zpos m * 2 ^ d ->
    shl_align m 0 (fexp 24 128 (Zpos (digits2_pos m) + 0)) = (m', - d) ->
    exists m' d, 0 <= d <= 23 /\ normal32 m' (- d) /\ Zpos m' = Zpos m * 2 ^ d /\
      ll_to_f32 (Zpos m) = S754_finite false m' (- d) /\
      ll_to_f32 (Zneg m) = S754_finite true m' (- d)) as Hwit.
  { intros m' d Hr Hn Hv Hs. exists m', d. split_and!; try done; try lia; try apply Hn;
      unfold ll_to_f32, f32, binary_normalize, binary_round; rewrite Hs; by apply round32_exact. }
  destruct (Pos.eqb_spec (digits2_pos m) 24) as [He|He].
  - apply (Hwit m 0); [lia|done|lia|].
    unfold shl_align, fexp, emin. rewrite He. done.
  - apply (Hwit (Pos.iter xO m (24 - digits2_pos m)) (Zpos (24 - digits2_pos m))).
    + lia.
    + split; [rewrite iter_xO_digits; lia|lia].
    + apply iter_xO_value.
    + unfold shl_align, fexp, emin.
      replace (Z.max _ _ - 0) with (Z.neg (24 - digits2_pos m)) by lia.
      f_equal. lia.
Qed.

Lemma f_to_ll_scaled s m m' d : 0 <= d <= 23 -> Zpos m' = Zpos m * 2 ^ d -> Zpos m < 2 ^ 24 ->
  f_to_ll (S754_finite s m' (- d)) = if s then Zneg m else Zpos m.
Proof.
  intros Hd Hv Hm. unfold f_to_ll, f_trunc.
  assert ((if 0 <=? - d then Zpos m' * 2 ^ (- d) else Zpos m' / 2 ^ (- - d)) = Zpos m) as ->.
  { destruct (Z.leb_spec 0 (- d)).
    - assert (d = 0) as -> by lia. simpl. rewrite Hv. simpl. lia.
    - rewrite Hv, Z.opp_involutive, Z.div_mul; [done|]. apply Z.pow_nonzero; lia. }
  unfold LLONG_MIN, LLONG_MAX.
  destruct s; case_match eqn:Hb; try done; apply andb_false_iff in Hb as [?%Z.leb_gt|?%Z.leb_gt]; lia.
Qed.

(** The time factors of [Timers]: [(long long)(z * a * b)]. *)
Definition scale2 (z : Z) (a b : float) : Z := f_to_ll (f32_mul (f32_mul (ll_to_f32 z) a) b).
Definition scale1 (z : Z) (a : float) : Z := f_to_ll (f32_mul (ll_to_f32 z) a).

Lemma scale_one z : Z.abs z < 2 ^ 24 ->
  scale1 z f32_one = z /\ scale2 z f32_one f32_one = z.
Proof.
  intros Hz. unfold scale1, scale2. destruct z as [|m|m]; [done|..];
    destruct (ll_to_f32_normal m ltac:(simpl in *; lia) ltac:(simpl in *; lia))
      as (m'&d&Hd&Hn&Hv&Hp&Hneg);
    rewrite ?Hp, ?Hneg, !f32_mul_one by done;
    split; first [apply (f_to_ll_scaled false m m' d)|apply (f_to_ll_scaled true m m' d)];
    try done; simpl in *; lia.
Qed.

(** From 2^24 + 1 nanoseconds on, a multiplication by one loses time. *)
Example scale_one_inexact : scale2 16777217 f32_one f32_one = 16777216.
Proof. vm_compute. reflexivity. Qed.

(** ** Signs *)

(** Not negative: zeros, positive numbers, or a NaN. *)
Definition f_nonneg (x : float) : Prop :=
  match x with S754_finite true _ _ | S754_infinity true => False | _ => True end.

Lemma round_nonneg prec emax m e l : f_nonneg (binary_round_aux prec emax false m e l).
Proof.
  unfold binary_round_aux. destruct (shr_fexp _ _ _ _ _) as [mrs e'].
  destruct (shr_fexp _ _ _ _ _) as [mrs' e'']. destruct (shr_m mrs'); [done| |done].
  by destruct (Z.leb _ _).
Qed.

Lemma ll_to_f32_nonneg z : 0 <= z -> f_nonneg (ll_to_f32 z).
Proof.
  intros Hz. destruct z as [|m|m]; [done| |lia].
  unfold ll_to_f32, f32, binary_normalize, binary_round.
  destruct (shl_align _ _ _). apply round_nonneg.
Qed.

Lemma f32_mul_nonneg x y : f_nonneg x -> f_nonneg y -> f_nonneg (f32_mul x y).
Proof.
  unfold f32_mul, SFmul.
  destruct x as [[]|[]| |[] mx ex], y as [[]|[]| |[] my ey]; try done;
    intros _ _; cbn [xorb]; apply round_nonneg.
Qed.

Lemma f_to_ll_nonneg x : f_nonneg x -> f_to_ll x <> LLONG_MIN -> 0 <= f_to_ll x.
Proof.
  intros Hx. unfold f_to_ll.
  assert (forall z, f_trunc x = Some z -> 0 <= z) as Ht.
  { destruct x as [| | |[] m e]; simpl; try done; intros z [= <-]; [lia|].
    destruct (Z.leb_spec 0 e); [|apply Z.div_pos; lia].
    apply Z.mul_nonneg_nonneg; [lia|]. apply Z.pow_nonneg. lia. }
  destruct (f_trunc x) as [z|]; [|done]. specialize (Ht z eq_refl). by case_match.
Qed.

Lemma scale2_nonneg z a b : 0 <= z -> f_nonneg a -> f_nonneg b ->
  scale2 z a b <> LLONG_MIN -> 0 <= scale2 z a b.
Proof. intros. apply f_to_ll_nonneg; auto using f32_mul_nonneg, ll_to_f32_nonneg. Qed.

Lemma f_to_ll_in_ll x : in_ll (f_to_ll x).
Proof.
  unfold f_to_ll. destruct (f_trunc x) as [z|]; [|unfold in_ll, LLONG_MIN, LLONG_MAX; lia].
  destruct (_ && _) eqn:Hb; [|unfold in_ll, LLONG_MIN, LLONG_MAX; lia].
  apply andb_prop in Hb as [?%Z.leb_le ?%Z.leb_le]. done.
Qed.
#[export] Hint Resolve f_to_ll_in_ll : vex.
