(* ===== verification/Timers.v ===== *)
(** * Timers

    The clocks of a thread, src/src/vex/threads/Timers.h and Timers.cpp.  The
    two clocks of the host, [Time::getRealTime] (wall clock) and
    [Timers::getVirtualTime] (CPU time of the thread), read the operating
    system: their readings are arguments ([realNow], [cpuNow]) of the
    operations that poll them.  The static [globalScalingFactor] is the
    argument [gsf]. *)
From S2P Require Import Prelude CxxFloat.

Module Timers.

(** The fields of class [Timers]. *)
Record Timers := mkTimers {
  virtualTime : Z;
  estimatedRealTime : Z;
  lastCPUTime : Z;
  lastRealTime : Z;
  localTimeSinceLastResume : Z;
  resumedLastAt : Z;
  resumedLastAtReal : Z;
  lastTimeInHandler : Z;
  lastRealTimeInHandler : Z;
  lastTimePerStateERT : Z;
  virtualTimeAtSimulationStart : Z;
  ioWaitingTime : Z;
  monitorWaitingTime : Z;
  dontUpdateToGlobalTime : bool;
  virtualTimeSpeedup : float;
  timeout : Z;
  threadStillBlocked : Z;
}.

Definition set_virtualTime (v : Z) (r : Timers) : Timers := mkTimers v (r.(estimatedRealTime))
  (r.(lastCPUTime)) (r.(lastRealTime)) (r.(localTimeSinceLastResume)) (r.(resumedLastAt))
  (r.(resumedLastAtReal)) (r.(lastTimeInHandler)) (r.(lastRealTimeInHandler))
  (r.(lastTimePerStateERT)) (r.(virtualTimeAtSimulationStart)) (r.(ioWaitingTime))
  (r.(monitorWaitingTime)) (r.(dontUpdateToGlobalTime)) (r.(virtualTimeSpeedup)) (r.(timeout))
  (r.(threadStillBlocked)).
Definition set_estimatedRealTime (v : Z) (r : Timers) : Timers := mkTimers (r.(virtualTime)) v
  (r.(lastCPUTime)) (r.(lastRealTime)) (r.(localTimeSinceLastResume)) (r.(resumedLastAt))
  (r.(resumedLastAtReal)) (r.(lastTimeInHandler)) (r.(lastRealTimeInHandler))
  (r.(lastTimePerStateERT)) (r.(virtualTimeAtSimulationStart)) (r.(ioWaitingTime))
  (r.(monitorWaitingTime)) (r.(dontUpdateToGlobalTime)) (r.(virtualTimeSpeedup)) (r.(timeout))
  (r.(threadStillBlocked)).
Definition set_lastCPUTime (v : Z) (r : Timers) : Timers := mkTimers (r.(virtualTime))
  (r.(estimatedRealTime)) v (r.(lastRealTime)) (r.(localTimeSinceLastResume)) (r.(resumedLastAt))
  (r.(resumedLastAtReal)) (r.(lastTimeInHandler)) (r.(lastRealTimeInHandler))
  (r.(lastTimePerStateERT)) (r.(virtualTimeAtSimulationStart)) (r.(ioWaitingTime))
  (r.(monitorWaitingTime)) (r.(dontUpdateToGlobalTime)) (r.(virtualTimeSpeedup)) (r.(timeout))
  (r.(threadStillBlocked)).
Definition set_lastRealTime (v : Z) (r : Timers) : Timers := mkTimers (r.(virtualTime))
  (r.(estimatedRealTime)) (r.(lastCPUTime)) v (r.(localTimeSinceLastResume)) (r.(resumedLastAt))
  (r.(resumedLastAtReal)) (r.(lastTimeInHandler)) (r.(lastRealTimeInHandler))
  (r.(lastTimePerStateERT)) (r.(virtualTimeAtSimulationStart)) (r.(ioWaitingTime))
  (r.(monitorWaitingTime)) (r.(dontUpdateToGlobalTime)) (r.(virtualTimeSpeedup)) (r.(timeout))
  (r.(threadStillBlocked)).
Definition set_localTimeSinceLastResume (v : Z) (r : Timers) : Timers := mkTimers
  (r.(virtualTime)) (r.(estimatedRealTime)) (r.(lastCPUTime)) (r.(lastRealTime)) v
  (r.(resumedLastAt)) (r.(resumedLastAtReal)) (r.(lastTimeInHandler)) (r.(lastRealTimeInHandler))
  (r.(lastTimePerStateERT)) (r.(virtualTimeAtSimulationStart)) (r.(ioWaitingTime))
  (r.(monitorWaitingTime)) (r.(dontUpdateToGlobalTime)) (r.(virtualTimeSpeedup)) (r.(timeout))
  (r.(threadStillBlocked)).
Definition set_resumedLastAt (v : Z) (r : Timers) : Timers := mkTimers (r.(virtualTime))
  (r.(estimatedRealTime)) (r.(lastCPUTime)) (r.(lastRealTime)) (r.(localTimeSinceLastResume)) v
  (r.(resumedLastAtReal)) (r.(lastTimeInHandler)) (r.(lastRealTimeInHandler))
  (r.(lastTimePerStateERT)) (r.(virtualTimeAtSimulationStart)) (r.(ioWaitingTime))
  (r.(monitorWaitingTime)) (r.(dontUpdateToGlobalTime)) (r.(virtualTimeSpeedup)) (r.(timeout))
  (r.(threadStillBlocked)).
Definition set_resumedLastAtReal (v : Z) (r : Timers) : Timers := mkTimers (r.(virtualTime))
  (r.(estimatedRealTime)) (r.(lastCPUTime)) (r.(lastRealTime)) (r.(localTimeSinceLastResume))
  (r.(resumedLastAt)) v (r.(lastTimeInHandler)) (r.(lastRealTimeInHandler))
  (r.(lastTimePerStateERT)) (r.(virtualTimeAtSimulationStart)) (r.(ioWaitingTime))
  (r.(monitorWaitingTime)) (r.(dontUpdateToGlobalTime)) (r.(virtualTimeSpeedup)) (r.(timeout))
  (r.(threadStillBlocked)).
Definition set_lastTimeInHandler (v : Z) (r : Timers) : Timers := mkTimers (r.(virtualTime))
  (r.(estimatedRealTime)) (r.(lastCPUTime)) (r.(lastRealTime)) (r.(localTimeSinceLastResume))
  (r.(resumedLastAt)) (r.(resumedLastAtReal)) v (r.(lastRealTimeInHandler))
  (r.(lastTimePerStateERT)) (r.(virtualTimeAtSimulationStart)) (r.(ioWaitingTime))
  (r.(monitorWaitingTime)) (r.(dontUpdateToGlobalTime)) (r.(virtualTimeSpeedup)) (r.(timeout))
  (r.(threadStillBlocked)).
Definition set_lastRealTimeInHandler (v : Z) (r : Timers) : Timers := mkTimers (r.(virtualTime))
  (r.(estimatedRealTime)) (r.(lastCPUTime)) (r.(lastRealTime)) (r.(localTimeSinceLastResume))
  (r.(resumedLastAt)) (r.(resumedLastAtReal)) (r.(lastTimeInHandler)) v (r.(lastTimePerStateERT))
  (r.(virtualTimeAtSimulationStart)) (r.(ioWaitingTime)) (r.(monitorWaitingTime))
  (r.(dontUpdateToGlobalTime)) (r.(virtualTimeSpeedup)) (r.(timeout)) (r.(threadStillBlocked)).
Definition set_lastTimePerStateERT (v : Z) (r : Timers) : Timers := mkTimers (r.(virtualTime))
  (r.(estimatedRealTime)) (r.(lastCPUTime)) (r.(lastRealTime)) (r.(localTimeSinceLastResume))
  (r.(resumedLastAt)) (r.(resumedLastAtReal)) (r.(lastTimeInHandler)) (r.(lastRealTimeInHandler))
  v (r.(virtualTimeAtSimulationStart)) (r.(ioWaitingTime)) (r.(monitorWaitingTime))
  (r.(dontUpdateToGlobalTime)) (r.(virtualTimeSpeedup)) (r.(timeout)) (r.(threadStillBlocked)).
Definition set_virtualTimeAtSimulationStart (v : Z) (r : Timers) : Timers := mkTimers
  (r.(virtualTime)) (r.(estimatedRealTime)) (r.(lastCPUTime)) (r.(lastRealTime))
  (r.(localTimeSinceLastResume)) (r.(resumedLastAt)) (r.(resumedLastAtReal))
  (r.(lastTimeInHandler)) (r.(lastRealTimeInHandler)) (r.(lastTimePerStateERT)) v
  (r.(ioWaitingTime)) (r.(monitorWaitingTime)) (r.(dontUpdateToGlobalTime))
  (r.(virtualTimeSpeedup)) (r.(timeout)) (r.(threadStillBlocked)).
Definition set_ioWaitingTime (v : Z) (r : Timers) : Timers := mkTimers (r.(virtualTime))
  (r.(estimatedRealTime)) (r.(lastCPUTime)) (r.(lastRealTime)) (r.(localTimeSinceLastResume))
  (r.(resumedLastAt)) (r.(resumedLastAtReal)) (r.(lastTimeInHandler)) (r.(lastRealTimeInHandler))
  (r.(lastTimePerStateERT)) (r.(virtualTimeAtSimulationStart)) v (r.(monitorWaitingTime))
  (r.(dontUpdateToGlobalTime)) (r.(virtualTimeSpeedup)) (r.(timeout)) (r.(threadStillBlocked)).
Definition set_monitorWaitingTime (v : Z) (r : Timers) : Timers := mkTimers (r.(virtualTime))
  (r.(estimatedRealTime)) (r.(lastCPUTime)) (r.(lastRealTime)) (r.(localTimeSinceLastResume))
  (r.(resumedLastAt)) (r.(resumedLastAtReal)) (r.(lastTimeInHandler)) (r.(lastRealTimeInHandler))
  (r.(lastTimePerStateERT)) (r.(virtualTimeAtSimulationStart)) (r.(ioWaitingTime)) v
  (r.(dontUpdateToGlobalTime)) (r.(virtualTimeSpeedup)) (r.(timeout)) (r.(threadStillBlocked)).
Definition set_dontUpdateToGlobalTime (v : bool) (r : Timers) : Timers := mkTimers
  (r.(virtualTime)) (r.(estimatedRealTime)) (r.(lastCPUTime)) (r.(lastRealTime))
  (r.(localTimeSinceLastResume)) (r.(resumedLastAt)) (r.(resumedLastAtReal))
  (r.(lastTimeInHandler)) (r.(lastRealTimeInHandler)) (r.(lastTimePerStateERT))
  (r.(virtualTimeAtSimulationStart)) (r.(ioWaitingTime)) (r.(monitorWaitingTime)) v
  (r.(virtualTimeSpeedup)) (r.(timeout)) (r.(threadStillBlocked)).
Definition set_virtualTimeSpeedup (v : float) (r : Timers) : Timers := mkTimers (r.(virtualTime))
  (r.(estimatedRealTime)) (r.(lastCPUTime)) (r.(lastRealTime)) (r.(localTimeSinceLastResume))
  (r.(resumedLastAt)) (r.(resumedLastAtReal)) (r.(lastTimeInHandler)) (r.(lastRealTimeInHandler))
  (r.(lastTimePerStateERT)) (r.(virtualTimeAtSimulationStart)) (r.(ioWaitingTime))
  (r.(monitorWaitingTime)) (r.(dontUpdateToGlobalTime)) v (r.(timeout)) (r.(threadStillBlocked)).
Definition set_timeout (v : Z) (r : Timers) : Timers := mkTimers (r.(virtualTime))
  (r.(estimatedRealTime)) (r.(lastCPUTime)) (r.(lastRealTime)) (r.(localTimeSinceLastResume))
  (r.(resumedLastAt)) (r.(resumedLastAtReal)) (r.(lastTimeInHandler)) (r.(lastRealTimeInHandler))
  (r.(lastTimePerStateERT)) (r.(virtualTimeAtSimulationStart)) (r.(ioWaitingTime))
  (r.(monitorWaitingTime)) (r.(dontUpdateToGlobalTime)) (r.(virtualTimeSpeedup)) v
  (r.(threadStillBlocked)).
Definition set_threadStillBlocked (v : Z) (r : Timers) : Timers := mkTimers (r.(virtualTime))
  (r.(estimatedRealTime)) (r.(lastCPUTime)) (r.(lastRealTime)) (r.(localTimeSinceLastResume))
  (r.(resumedLastAt)) (r.(resumedLastAtReal)) (r.(lastTimeInHandler)) (r.(lastRealTimeInHandler))
  (r.(lastTimePerStateERT)) (r.(virtualTimeAtSimulationStart)) (r.(ioWaitingTime))
  (r.(monitorWaitingTime)) (r.(dontUpdateToGlobalTime)) (r.(virtualTimeSpeedup)) (r.(timeout)) v.

Definition MAXIMUM_CONSECUTIVE_TIMESLICES_AS_BLOCKED_IN_MONITOR : Z := 10.

(** The initial values: [Timers::Timers] and [resetCounters].  The two fields
    the constructor leaves alone are taken as 0. *)
Definition resetCounters (realNow : Z) (t : Timers) : Timers :=
  mkTimers 0 0 t.(lastCPUTime) realNow 0 0 realNow 0 realNow 0
    t.(virtualTimeAtSimulationStart) 0 0 false f32_one (-1) t.(threadStillBlocked).

Definition new_Timers (realNow : Z) : Timers :=
  set_lastCPUTime 0
    (resetCounters realNow (mkTimers 0 0 0 0 0 0 0 0 0 0 0 0 0 false f32_one 0 0)).

Section operations.
Variable gsf : float.
Implicit Type t : Timers.

(** ** Moving the clocks *)

Definition setVirtualTime (v : Z) t := set_virtualTime v t.
Definition setEstimatedRealTime (v : Z) t := set_estimatedRealTime v t.

Definition setSynchronizationBarrierTime (slot : Z) t :=
  set_estimatedRealTime (t.(estimatedRealTime) +ll slot) t.
Definition clearSynchronizationBarrierTime (slot : Z) t :=
  set_estimatedRealTime (t.(estimatedRealTime) -ll slot) t.

Definition leapForwardTo (currentTime : Z) t :=
  if t.(estimatedRealTime) <? currentTime then set_estimatedRealTime currentTime t else t.

Definition leapToGlobalTime (currentVirtualTime : Z) t :=
  if t.(dontUpdateToGlobalTime) then t else set_estimatedRealTime currentVirtualTime t.

Definition addElapsedTime (time : Z) t :=
  set_estimatedRealTime (t.(estimatedRealTime) +ll time)
    (set_virtualTime (t.(virtualTime) +ll time) t).

Definition add_local (time : Z) t :=
  set_localTimeSinceLastResume (t.(localTimeSinceLastResume) +ll time) t.

Definition addGlobalTime (timeAdded : Z) t := add_local timeAdded (addElapsedTime timeAdded t).

Definition addLocalTime (timeDiff : Z) t :=
  let timeAdded := scale2 timeDiff t.(virtualTimeSpeedup) gsf in
  add_local timeAdded (addElapsedTime timeAdded t).

Definition addLocalIoTime (timeDiff : Z) t :=
  let timeAdded := scale1 timeDiff t.(virtualTimeSpeedup) in
  add_local timeAdded (set_estimatedRealTime (t.(estimatedRealTime) +ll timeAdded) t).

Definition leapForwardBy (time : Z) t := set_estimatedRealTime (t.(estimatedRealTime) +ll time) t.

Definition leapTo (time : Z) t :=
  if t.(estimatedRealTime) <? time then set_estimatedRealTime time t else t.

Definition beforeCurrentGlobalTime (currentVirtualTime : Z) t : bool :=
  t.(estimatedRealTime) <? currentVirtualTime.

(** ** Polling the host clocks *)

Definition updateCpuTimeClock (cpuNow : Z) t := set_lastCPUTime cpuNow t.
Definition setCpuTimeClockAfterIo (cpuNow ioBytecodeDelay : Z) t :=
  set_lastCPUTime (cpuNow +ll ioBytecodeDelay) t.
Definition updateCpuTimeAddingSimulatedVirtualTime t :=
  set_lastCPUTime (t.(lastCPUTime) +ll (t.(virtualTime) -ll t.(virtualTimeAtSimulationStart))) t.
Definition updateResumedLastRealAt (realNow : Z) t := set_resumedLastAtReal realNow t.
Definition updateRealTimeClock (realNow : Z) t := set_lastRealTime realNow t.
Definition updateClocks (realNow cpuNow : Z) t := set_lastRealTime realNow (set_lastCPUTime cpuNow t).

Definition updateThreadLocalTimeSinceLastResumeTo (presetTime : Z) t :=
  let timeDiff := presetTime -ll t.(lastCPUTime) in
  if 0 <? timeDiff then addLocalTime timeDiff t else t.

Definition updateThreadLocalTimeSinceLastResumeToRealTime (presetTime : Z) t :=
  let timeDiff := presetTime -ll t.(lastRealTime) in
  if 0 <? timeDiff then addLocalTime timeDiff t else t.

Definition updateCurrentLocalTime (cpuNow : Z) t := updateThreadLocalTimeSinceLastResumeTo cpuNow t.

Definition getAndResetLocalTime t : Z * Timers :=
  (t.(localTimeSinceLastResume), set_localTimeSinceLastResume 0 t).

(** The sum is computed in [float], and the local time is reset. *)
Definition getTimeDifferenceUntil (startingTime : Z) t : Z * Timers :=
  let '(localTime, t') := getAndResetLocalTime t in
  (f_to_ll (f32_add
     (f32_mul (f32_mul (ll_to_f32 (startingTime -ll t.(lastCPUTime))) t.(virtualTimeSpeedup)) gsf)
     (ll_to_f32 localTime)), t').

Definition getCurrentTimeDifferenceFromLastUpdatedRealTime (realNow : Z) t : Z :=
  realNow -ll t.(lastRealTime).

Definition maximumPossibleIoTimeExpired (realNow : Z) t : bool :=
  500000000 <? getCurrentTimeDifferenceFromLastUpdatedRealTime realNow t.

(** ** Resuming *)

Definition updateLastResumedTo (realHandlerTime : Z) t :=
  set_lastRealTimeInHandler realHandlerTime (set_lastTimeInHandler t.(estimatedRealTime) t).

Definition updateTimesAfterResuming (realNow resumingVirtualTime : Z) t :=
  let at_ := if t.(dontUpdateToGlobalTime) then t.(estimatedRealTime) else resumingVirtualTime in
  set_localTimeSinceLastResume 0
    (set_lastRealTimeInHandler realNow
      (set_lastTimeInHandler at_
        (set_resumedLastAtReal realNow (set_resumedLastAt at_ t)))).

Definition getCurrentVirtualTimestampOfRunningThread t : Z :=
  t.(resumedLastAt) +ll t.(localTimeSinceLastResume).

Definition logStartingVirtualTime t := set_virtualTimeAtSimulationStart t.(virtualTime) t.

(** [std::swap(estimatedRealTime, resumedLastAt)], both functions. *)
Definition setBlockingTimeToLastResumedTime t :=
  set_resumedLastAt t.(estimatedRealTime) (set_estimatedRealTime t.(resumedLastAt) t).
Definition unsetBlockingTimeToLastResumedTime t :=
  set_resumedLastAt t.(estimatedRealTime) (set_estimatedRealTime t.(resumedLastAt) t).

(** ** Waiting times *)

Definition updateIoWaitingTimeFrom (startingWaiting actualIoDuration : Z) t :=
  let leap := t.(estimatedRealTime) -ll startingWaiting in
  if 0 <? leap then
    if actualIoDuration <? leap
    then set_ioWaitingTime (t.(ioWaitingTime) +ll actualIoDuration) t
    else set_ioWaitingTime (t.(ioWaitingTime) +ll leap) t
  else t.

Definition updateWaitingTimeFrom (startingWaiting : Z) t :=
  let leap := t.(estimatedRealTime) -ll startingWaiting in
  if 0 <? leap then set_monitorWaitingTime (t.(monitorWaitingTime) +ll leap) t else t.

(** ** Timeouts *)

Definition setTimeout (v : Z) t := set_timeout v t.

Definition setTimeoutFlagToDenotePossiblyResumingThread t :=
  set_threadStillBlocked MAXIMUM_CONSECUTIVE_TIMESLICES_AS_BLOCKED_IN_MONITOR (set_timeout 0 t).

Definition rollbackFromTimeOutValue t :=
  set_timeout (-1) (set_estimatedRealTime (t.(estimatedRealTime) -ll t.(timeout)) t).

(** Both the test and the compound assignment are carried out in [float]. *)
Definition updateTimesBeforeWaitingWithTimeout (_timeout : Z) t :=
  let t := set_timeout _timeout t in
  if _timeout =? 0 then
    set_threadStillBlocked MAXIMUM_CONSECUTIVE_TIMESLICES_AS_BLOCKED_IN_MONITOR t
  else
    let factor := f32_mul t.(virtualTimeSpeedup) gsf in
    if f_leb (f32_div (ll_to_f32 (LLONG_MAX -ll t.(estimatedRealTime))) factor) (ll_to_f32 _timeout)
    then set_estimatedRealTime LLONG_MAX t
    else set_estimatedRealTime
           (f_to_ll (f32_add (ll_to_f32 t.(estimatedRealTime))
              (f32_mul (f32_mul (ll_to_f32 t.(timeout)) t.(virtualTimeSpeedup)) gsf))) t.

(** Asking consumes one of the remaining chances. *)
Definition isThreadStillBlockedInMonitor t : bool * Timers :=
  if t.(timeout) =? 0
  then (0 <? t.(threadStillBlocked), set_threadStillBlocked (int_sub t.(threadStillBlocked) 1) t)
  else (false, t).

(** [log10] of the C library, applied to a [long long]. *)
Variable log10 : Z -> float.

Definition hasTimeoutExpiredInRealTime (realNow minimumMaybeAliveTime remaining : Z) t : bool :=
  if t.(timeout) <=? 0 then true
  else
    let difference := t.(estimatedRealTime) -ll minimumMaybeAliveTime in
    if difference <? 0 then true
    else
      let factor :=
        if 100000000 <? difference
        then SFsub 53 1024 (f64_mul (ll_to_f64 100) (log10 difference)) (ll_to_f64 7)
        else ll_to_f64 1 in
      f_ltb (f64_mul factor (ll_to_f64 remaining))
            (ll_to_f64 (getCurrentTimeDifferenceFromLastUpdatedRealTime realNow t)).

(** ** The native-waiting heuristic *)

Definition cpu_since_handler t : Z :=
  f_to_ll (f32_div (ll_to_f32 (t.(estimatedRealTime) -ll t.(lastTimeInHandler)))
                   (f32_mul t.(virtualTimeSpeedup) gsf)).

Definition getDifferenceBetweenCpuAndRealTimeSinceLastSignalling (realTime : Z) t : Z :=
  (realTime -ll t.(lastRealTimeInHandler)) -ll cpu_since_handler t.

Definition doesTheDifferenceBetweenCpuAndRealTimeIndicateLackOfProgress
    (realTime : Z) (accepted : float) t : bool :=
  f_ltb (ll_to_f32 (cpu_since_handler t))
        (f32_mul accepted (ll_to_f32 (realTime -ll t.(lastRealTimeInHandler)))).

Definition getDifferenceBetweenCpuAndRealTime (realTime : Z) (accepted : float) t : Z :=
  f_to_ll (SFsub 24 128
    (f32_mul accepted (ll_to_f32 (realTime -ll t.(lastRealTimeInHandler))))
    (ll_to_f32 (cpu_since_handler t))).

End operations.

(** [Timers::setGlobalScalingFactor]: only positive factors are taken. *)
Definition setGlobalScalingFactor (f gsf : float) : float :=
  if f_ltb (S754_zero false) f then f else gsf.

(** ** The timestamp of a running thread

    While a thread runs, its last resume plus the local time since then is its
    estimated real time. *)
Definition timestamp_in_sync (t : Timers) : Prop :=
  getCurrentVirtualTimestampOfRunningThread t = t.(estimatedRealTime).

Lemma add_local_in_sync time t : timestamp_in_sync t ->
  timestamp_in_sync (add_local time (set_estimatedRealTime (t.(estimatedRealTime) +ll time) t)).
Proof.
  unfold timestamp_in_sync, getCurrentVirtualTimestampOfRunningThread. cbn. intros <-.
  by rewrite ll_add_assoc.
Qed.

(** The operations that account for time spent since the last resume. *)
Inductive accounting (gsf : float) : Timers -> Timers -> Prop :=
| acc_local d t : accounting gsf t (addLocalTime gsf d t)
| acc_io d t : accounting gsf t (addLocalIoTime d t)
| acc_global d t : accounting gsf t (addGlobalTime d t)
| acc_cpu now t : accounting gsf t (updateThreadLocalTimeSinceLastResumeTo gsf now t)
| acc_real now t : accounting gsf t (updateThreadLocalTimeSinceLastResumeToRealTime gsf now t)
| acc_clock now t : accounting gsf t (updateCpuTimeClock now t)
| acc_clocks r c t : accounting gsf t (updateClocks r c t)
| acc_wait s t : accounting gsf t (updateWaitingTimeFrom s t)
| acc_iowait s d t : accounting gsf t (updateIoWaitingTimeFrom s d t)
| acc_handler now t : accounting gsf t (updateLastResumedTo now t).

Lemma addLocalTime_in_sync gsf d t : timestamp_in_sync t -> timestamp_in_sync (addLocalTime gsf d t).
Proof. intros Hs. apply (add_local_in_sync (scale2 d t.(virtualTimeSpeedup) gsf) _ Hs). Qed.

(** From a resume on, whatever sequence of accounting operations follows
    and whatever the time factors are (wrap-around included), the timestamp a
    running thread reports to the timeline, last resume plus local time, is
    its estimated real time. *)
Theorem running_timestamp_invariant gsf realNow t t' :
  rtc (accounting gsf) (updateTimesAfterResuming realNow t.(estimatedRealTime) t) t' ->
  in_ll t.(estimatedRealTime) -> timestamp_in_sync t'.
Proof.
  intros Hsteps Hr.
  assert (timestamp_in_sync (updateTimesAfterResuming realNow t.(estimatedRealTime) t)) as H0.
  { unfold timestamp_in_sync, getCurrentVirtualTimestampOfRunningThread. cbn.
    destruct (dontUpdateToGlobalTime t); unfold ll_add; rewrite Z.add_0_r; by apply ll_id. }
  revert H0. induction Hsteps as [|t1 t2 t3 Hstep _ IH]; [done|]. intros H1. apply IH.
  destruct Hstep as [d t1|d t1|d t1|now t1|now t1|now t1|r c t1|s t1|s d t1|now t1].
  - by apply addLocalTime_in_sync.
  - by apply add_local_in_sync.
  - apply (add_local_in_sync d _ H1).
  - unfold updateThreadLocalTimeSinceLastResumeTo. case_match; auto using addLocalTime_in_sync.
  - unfold updateThreadLocalTimeSinceLastResumeToRealTime. case_match; auto using addLocalTime_in_sync.
  - done.
  - done.
  - unfold updateWaitingTimeFrom. by case_match.
  - unfold updateIoWaitingTimeFrom. by repeat case_match.
  - done.
Qed.

Lemma running_timestamp_invariant_witness :
  timestamp_in_sync (addLocalTime f32_one 7 (updateTimesAfterResuming 5 0 (new_Timers 3))).
Proof.
  apply (running_timestamp_invariant f32_one 5 (new_Timers 3)).
  - apply rtc_once. constructor.
  - vm_compute. split; congruence.
Defined.

(** ** Exact accounting with unit factors *)

(** With unit factors, a poll of the CPU clock that finds it [d] ns ahead
    of the last one, [0 < d < 2^24], moves the virtual time, the estimated
    real time and the local time by exactly [d]; a clock that did not advance
    changes nothing. *)
Theorem cpu_poll_exact cpuNow t :
  t.(virtualTimeSpeedup) = f32_one ->
  let d := cpuNow - t.(lastCPUTime) in
  d < 2 ^ 24 -> in_ll d ->
  in_ll (t.(estimatedRealTime) + d) -> in_ll (t.(virtualTime) + d) ->
  in_ll (t.(localTimeSinceLastResume) + d) ->
  let t' := updateThreadLocalTimeSinceLastResumeTo f32_one cpuNow t in
  if 0 <? d
  then t'.(estimatedRealTime) = t.(estimatedRealTime) + d /\
       t'.(virtualTime) = t.(virtualTime) + d /\
       t'.(localTimeSinceLastResume) = t.(localTimeSinceLastResume) + d
  else t' = t.
Proof.
  intros Hs d Hd Hr He Hv Hl t'. subst t'.
  unfold updateThreadLocalTimeSinceLastResumeTo, ll_sub. fold d. rewrite (ll_id d) by done.
  destruct (Z.ltb_spec 0 d) as [Hpos|]; [|done].
  assert (scale2 d f32_one f32_one = d) as Hsc by (apply scale_one; lia).
  unfold addLocalTime. rewrite Hs, Hsc. cbn. unfold ll_add. by rewrite !ll_id.
Qed.

Lemma cpu_poll_exact_witness :
  estimatedRealTime (updateThreadLocalTimeSinceLastResumeTo f32_one 1000 (new_Timers 0)) = 1000.
Proof.
  pose proof (cpu_poll_exact 1000 (new_Timers 0) eq_refl) as H. cbn in H.
  destruct H as [H _]; [lia|ll_range..|]. exact H.
Defined.

(** ** Waiting with a timeout *)

(** A timed wait of a strictly positive duration can set the estimated
    real time back: the compound assignment rounds the whole clock to a
    24-bit float.  With ERT 33554433 ns a wait of 1 ns arrives at
    33554432 ns. *)
Theorem timed_wait_can_move_time_back :
  exists t _timeout, 0 < _timeout /\ t.(virtualTimeSpeedup) = f32_one /\
    (updateTimesBeforeWaitingWithTimeout f32_one _timeout t).(estimatedRealTime)
      < t.(estimatedRealTime).
Proof.
  exists (setEstimatedRealTime 33554433 (new_Timers 0)), 1. vm_compute. done.
Qed.

(** ** The patience of the forward-leap heuristic *)

(** The answers to [n] consecutive questions. *)
Fixpoint ask (n : nat) (t : Timers) : list bool * Timers :=
  match n with
  | O => ([], t)
  | S n => let '(b, t1) := isThreadStillBlockedInMonitor t in
           let '(bs, t2) := ask n t1 in (b :: bs, t2)
  end.

Lemma ask_blocked n t k : t.(timeout) = 0 -> t.(threadStillBlocked) = Z.of_nat k ->
  (n <= k)%nat -> (k <= 10)%nat ->
  (ask n t).1 = replicate n true /\ (ask n t).2.(timeout) = 0 /\
  (ask n t).2.(threadStillBlocked) = Z.of_nat (k - n).
Proof.
  revert t k. induction n as [|n IH]; intros t k Ht Hk Hn Hk10.
  { cbn. by rewrite Nat.sub_0_r. }
  cbn [ask]. unfold isThreadStillBlockedInMonitor. rewrite Ht, Hk. cbn [Z.eqb].
  specialize (IH (set_threadStillBlocked (int_sub (Z.of_nat k) 1) t) (k - 1)%nat).
  destruct (ask n _) as [bs t2]. cbn in IH |- *.
  destruct IH as (-> & ? & ?); [done| |lia|lia|].
  { unfold int_sub. rewrite wrap_id by lia. lia. }
  split_and!; [|done|by replace (k - S n)%nat with (k - 1 - n)%nat by lia].
  f_equal. apply Z.ltb_lt. lia.
Qed.

Lemma ask_exhausted n t : t.(timeout) = 0 -> - Z.of_nat n - t.(threadStillBlocked) < 2 ^ 31 ->
  t.(threadStillBlocked) <= 0 -> Z.of_nat n - t.(threadStillBlocked) < 2 ^ 31 ->
  (ask n t).1 = replicate n false.
Proof.
  revert t. induction n as [|n IH]; intros t Ht H1 H2 H3; [done|].
  cbn [ask]. unfold isThreadStillBlockedInMonitor. rewrite Ht. cbn [Z.eqb].
  specialize (IH (set_threadStillBlocked (int_sub (threadStillBlocked t) 1) t)).
  destruct (ask n _) as [bs t2]. cbn in IH |- *. unfold int_sub in IH.
  rewrite wrap_id in IH by lia. rewrite IH by (done || lia).
  f_equal. apply Z.ltb_ge. lia.
Qed.

Lemma ask_app n m t : (ask (n + m) t).1 = (ask n t).1 ++ (ask m (ask n t).2).1.
Proof.
  revert t. induction n as [|n IH]; intros t; [done|]. cbn [ask Nat.add].
  destruct (isThreadStillBlockedInMonitor t) as [b t1].
  specialize (IH t1). destruct (ask (n + m) t1), (ask n t1). cbn in *. by rewrite IH.
Qed.

(** A thread flagged as possibly resuming from a monitor is reported as
    still active for exactly the next ten questions of the forward-leap
    heuristic and as blocked from then on, so the leap it holds up is held up
    a bounded number of times. *)
Theorem monitor_patience n t :
  Z.of_nat n < 2 ^ 31 ->
  (ask n (setTimeoutFlagToDenotePossiblyResumingThread t)).1
    = replicate (Nat.min n 10) true ++ replicate (n - 10) false.
Proof.
  intros Hn. destruct (Nat.le_ge_cases n 10) as [Hle|Hge].
  - rewrite Nat.min_l, (proj2 (Nat.sub_0_le n 10)), app_nil_r by done.
    by apply (ask_blocked n _ 10).
  - rewrite Nat.min_r by done. replace n with (10 + (n - 10))%nat at 1 by lia.
    rewrite ask_app.
    destruct (ask_blocked 10 (setTimeoutFlagToDenotePossiblyResumingThread t) 10) as (->&Ht&Hb);
      [done..|]. f_equal. apply ask_exhausted; lia.
Qed.

Lemma monitor_patience_witness :
  (ask 12 (setTimeoutFlagToDenotePossiblyResumingThread (new_Timers 0))).1
    = replicate 10 true ++ replicate 2 false.
Proof. apply (monitor_patience 12). reflexivity. Defined.

End Timers.
