(* ===== verification/VirtualTimeline.v ===== *)
(** * Virtual timelines

    The clocks of the simulated host, src/src/vex/timer/VirtualTimeline.h and
    VirtualTimeline.cpp: the timeline of a single core, the timelines of
    several cores (plain, and with cores that can be disabled).  [Controllers]
    has the controllers of the same sources.  The mutex of a multicore timeline
    is part of its state, because one method calls another that locks it again. *)
From S2P Require Import Prelude CxxFloat Timers.

(** ** VirtualTimeline *)
Module VirtualTimeline.

Record VirtualTimeline := mkTimeline { globalVirtualTime : Z; unknownParallelTime : Z }.

Definition reset (tl : VirtualTimeline) : VirtualTimeline := mkTimeline 0 0.

Definition getGlobalTime (tl : VirtualTimeline) : Z := tl.(globalVirtualTime).

Definition leapForwardTo (forwardTime : Z) (tl : VirtualTimeline) : VirtualTimeline :=
  if tl.(globalVirtualTime) <? forwardTime +ll tl.(unknownParallelTime)
  then mkTimeline (forwardTime +ll tl.(unknownParallelTime)) 0
  else mkTimeline tl.(globalVirtualTime) 0.

Definition addTimeOfUnknownRealTimeDurationAndSynchronize (forwardTime : Z) (tl : VirtualTimeline) :=
  mkTimeline (tl.(globalVirtualTime) +ll forwardTime) tl.(unknownParallelTime).

Definition addTimeOfThreadExecutingAtUnknownTime (forwardTime : Z) (tl : VirtualTimeline) :=
  mkTimeline (tl.(globalVirtualTime) +ll forwardTime) (tl.(unknownParallelTime) +ll forwardTime).

(** *** Runs *)
Inductive op := Leap (forwardTime : Z) | Sync (duration : Z) | Unknown (duration : Z).

Definition step (tl : VirtualTimeline) (o : op) : VirtualTimeline :=
  match o with
  | Leap f => leapForwardTo f tl
  | Sync d => addTimeOfUnknownRealTimeDurationAndSynchronize d tl
  | Unknown d => addTimeOfThreadExecutingAtUnknownTime d tl
  end.

Definition duration (o : op) : Z := match o with Leap _ => 0 | Sync d | Unknown d => d end.
Definition legal (o : op) : Prop :=
  match o with Leap f => f <= 2 ^ 60 /\ - 2 ^ 60 <= f | Sync d | Unknown d => 0 <= d end.

Definition clock_ok (budget : Z) (tl : VirtualTimeline) : Prop :=
  0 <= tl.(unknownParallelTime) <= budget /\ - 2 ^ 60 <= tl.(globalVirtualTime) <= 2 ^ 60 + budget.

Lemma step_clock_ok budget tl o :
  legal o -> clock_ok budget tl -> budget + duration o <= 2 ^ 61 ->
  clock_ok (budget + duration o) (step tl o) /\
  tl.(globalVirtualTime) <= (step tl o).(globalVirtualTime).
Proof.
  destruct tl as [g u]. unfold clock_ok. cbn. intros Hl Hok Hb.
  destruct o as [f|d|d]; cbn in *.
  - unfold leapForwardTo. cbn. ll_exact. case_bool; cbn; lia.
  - ll_exact. lia.
  - ll_exact. lia.
Qed.

(** C18. Over any run of the single timeline whose durations are not negative
    and add up to less than 2^61 ns, global virtual time never decreases, at
    no step, and never overflows. *)
Theorem global_time_monotone tl ops1 ops2 :
  Forall legal (ops1 ++ ops2) -> clock_ok 0 tl -> sum_of duration (ops1 ++ ops2) <= 2 ^ 61 ->
  (foldl step tl ops1).(globalVirtualTime)
    <= (foldl step tl (ops1 ++ ops2)).(globalVirtualTime) <= 2 ^ 60 + 2 ^ 61.
Proof.
  intros Hl Hok Hsum.
  assert (forall ops tl b, Forall legal ops -> clock_ok b tl -> b + sum_of duration ops <= 2 ^ 61 ->
    clock_ok (b + sum_of duration ops) (foldl step tl ops) /\
    tl.(globalVirtualTime) <= (foldl step tl ops).(globalVirtualTime)) as Hrun.
  { clear. induction ops as [|o ops IH]; intros tl b Hl Hok Hb; cbn in *.
    { rewrite Z.add_0_r. split; [done|lia]. }
    inversion_clear Hl.
    assert (0 <= sum_of duration ops).
    { apply sum_of_nonneg. intros x Hx. eapply Forall_forall in Hx; [|done].
      destruct x; cbn in *; lia. }
    unfold sum_of in *. destruct (step_clock_ok b tl o) as [Hok' Hmono]; [done|done|lia|].
    destruct (IH (step tl o) (b + duration o)) as [? ?]; [done|done|lia|].
    rewrite Z.add_assoc. split; [done|lia]. }
  rewrite foldl_app. rewrite sum_of_app in Hsum. apply Forall_app in Hl as [Hl1 Hl2].
  assert (forall ops, Forall legal ops -> 0 <= sum_of duration ops) as Hnn.
  { intros ops Hops. apply sum_of_nonneg. intros x Hx. eapply Forall_forall in Hx; [|done].
    destruct x; cbn in *; lia. }
  pose proof (Hnn _ Hl1). pose proof (Hnn _ Hl2).
  destruct (Hrun ops1 tl 0) as [Hok1 _]; [done|done|lia|].
  destruct (Hrun ops2 _ _ Hl2 Hok1) as [[_ Hub] ?]; [lia|]. lia.
Qed.

Lemma global_time_monotone_witness :
  globalVirtualTime (foldl step (mkTimeline 0 0) [Unknown 5; Leap 3])
  <= globalVirtualTime (foldl step (mkTimeline 0 0) [Unknown 5; Leap 3; Sync 2]) <= 2 ^ 60 + 2 ^ 61.
Proof.
  apply (global_time_monotone (mkTimeline 0 0) [Unknown 5; Leap 3] [Sync 2]).
  - repeat constructor; simpl; lia.
  - unfold clock_ok. simpl. lia.
  - vm_compute. congruence.
Defined.

Lemma leapForwardTo_reaches f tl :
  0 <= tl.(unknownParallelTime) -> in_ll (f + tl.(unknownParallelTime)) ->
  f <= (leapForwardTo f tl).(globalVirtualTime) /\
  tl.(globalVirtualTime) <= (leapForwardTo f tl).(globalVirtualTime).
Proof. intros. unfold leapForwardTo, ll_add. rewrite ll_id by done. case_bool; cbn; lia. Qed.

End VirtualTimeline.

(** ** MulticoreVirtualTimeline and DisablingMulticoreVirtualTimeline

    One record for both classes, with the dynamic type as a tag: the five
    methods the second class overrides dispatch on it. *)
Module Multicore.

Inductive class := Plain | Disabling.

Record Multicore := mkMulticore {
  kind : class;
  globalVirtualTime : Z;
  localCoreVirtualTimes : list Z;
  localCoreActive : list bool;
  processors : nat;
  mutexHeld : bool;
}.

Definition set_globalVirtualTime (v : Z) (m : Multicore) :=
  mkMulticore m.(kind) v m.(localCoreVirtualTimes) m.(localCoreActive) m.(processors) m.(mutexHeld).
Definition set_localCoreVirtualTimes (v : list Z) (m : Multicore) :=
  mkMulticore m.(kind) m.(globalVirtualTime) v m.(localCoreActive) m.(processors) m.(mutexHeld).
Definition set_localCoreActive (v : list bool) (m : Multicore) :=
  mkMulticore m.(kind) m.(globalVirtualTime) m.(localCoreVirtualTimes) v m.(processors) m.(mutexHeld).
Definition set_mutexHeld (v : bool) (m : Multicore) :=
  mkMulticore m.(kind) m.(globalVirtualTime) m.(localCoreVirtualTimes) m.(localCoreActive) m.(processors) v.

Definition new_Multicore (k : class) (schedulers : nat) : Multicore :=
  mkMulticore k 0 (replicate schedulers 0) (replicate schedulers false) schedulers false.

(** [pthread_mutex_lock] on a default mutex: locking it twice never returns. *)
Definition lock (m : Multicore) : res Multicore :=
  if m.(mutexHeld) then Err SelfDeadlock else Ok (set_mutexHeld true m).
Definition unlock (m : Multicore) : Multicore := set_mutexHeld false m.

Definition local (m : Multicore) (id : nat) : Z := nthd m.(localCoreVirtualTimes) id.
Definition active (m : Multicore) (id : nat) : bool := nthd m.(localCoreActive) id.
Definition set_local (id : nat) (v : Z) (m : Multicore) : Multicore :=
  set_localCoreVirtualTimes (<[id:=v]> m.(localCoreVirtualTimes)) m.

Definition reset (m : Multicore) : res Multicore :=
  m ← lock m;
  Ok (unlock (mkMulticore m.(kind) 0 (replicate m.(processors) 0)
    (match m.(kind) with Plain => m.(localCoreActive) | Disabling => replicate m.(processors) false end)
    m.(processors) m.(mutexHeld))).

(** The loop of the disabling class over the active cores. *)
Fixpoint min_active (min : Z) (times : list Z) (actives : list bool) : Z :=
  match times, actives with
  | t :: times, a :: actives => min_active (if a && (t <? min) then t else min) times actives
  | _, _ => min
  end.

Definition updateGlobalTimeTo (time : Z) (m : Multicore) : Multicore :=
  match m.(kind) with
  | Plain => if m.(globalVirtualTime) <? time then set_globalVirtualTime time m else m
  | Disabling =>
    let min := min_active LLONG_MAX m.(localCoreVirtualTimes) m.(localCoreActive) in
    if min =? LLONG_MAX then m else set_globalVirtualTime min m
  end.

Definition leapForwardTo (time : Z) (id : nat) (m : Multicore) : res Multicore :=
  m ← lock m;
  let m := if local m id <? time then set_local id time m else m in
  Ok (unlock (updateGlobalTimeTo (local m id) m)).

Fixpoint max_time (max : Z) (times : list Z) : Z :=
  match times with
  | [] => max
  | t :: times => max_time (if max <? t then t else max) times
  end.

Definition addTimeOfUnknownRealTimeDurationAndSynchronize (forwardTime : Z) (m : Multicore)
    : res Multicore :=
  m ← lock m;
  let max := max_time (local m 0) (drop 1 m.(localCoreVirtualTimes)) +ll forwardTime in
  let m := set_localCoreVirtualTimes (replicate m.(processors) max) m in
  Ok (unlock (updateGlobalTimeTo max m)).

(** The first core whose time is least: minimum, its index, the next index. *)
Fixpoint min_core (min : Z) (id next : nat) (times : list Z) : nat :=
  match times with
  | [] => id
  | t :: times => if t <? min then min_core t next (S next) times else min_core min id (S next) times
  end.

Definition addTimeOfThreadExecutingAtUnknownTime (forwardTime : Z) (m : Multicore) : res Multicore :=
  m ← lock m;
  let id := min_core (local m 0) 0 1 (drop 1 m.(localCoreVirtualTimes)) in
  let m := set_local id (local m id +ll forwardTime) m in
  Ok (unlock (updateGlobalTimeTo (local m id) m)).

(** The override of the disabling class locks the mutex itself. *)
Definition disableLocalTimeline (id : nat) (m : Multicore) : res (Multicore * bool) :=
  match m.(kind) with
  | Plain => Ok (m, false)
  | Disabling =>
    m ← lock m;
    let m := set_localCoreActive (<[id:=false]> m.(localCoreActive)) m in
    Ok (unlock m, negb (existsb (fun a => a) m.(localCoreActive)))
  end.

Definition shouldBlockCoreProgress (schedulerTimeslot : Z) (id : nat) (m : Multicore)
    : res (Multicore * bool) :=
  m ← lock m;
  if schedulerTimeslot <? local m id -ll m.(globalVirtualTime) then
    '(m, areAllCoresDisabled) ← disableLocalTimeline id m;
    Ok (unlock m, negb areAllCoresDisabled)
  else Ok (unlock m, false).

Definition getLocalTimelineActivationTime (threadTime : Z) (id : nat) (m : Multicore)
    : res (Multicore * Z) :=
  m ← lock m;
  let m := match m.(kind) with
           | Plain => m
           | Disabling => set_localCoreActive (<[id:=true]> m.(localCoreActive)) m
           end in
  let m := if local m id <? threadTime then set_local id threadTime m else m in
  let m := unlock (updateGlobalTimeTo threadTime m) in
  Ok (m, local m id).

Definition getUpdatedGlobalTime (m : Multicore) : res (Multicore * Z) :=
  match m.(kind) with
  | Plain => Ok (m, m.(globalVirtualTime))
  | Disabling =>
    m ← lock m;
    let min := min_active LLONG_MAX m.(localCoreVirtualTimes) m.(localCoreActive) in
    let m := unlock (if min =? LLONG_MAX then m else set_globalVirtualTime min m) in
    Ok (m, m.(globalVirtualTime))
  end.

(** *** Runs of a timeline *)
Inductive op :=
| Leap (time : Z) (id : nat) | Sync (d : Z) | Unknown (d : Z)
| Activate (time : Z) (id : nat) | Disable (id : nat) | Block (slot : Z) (id : nat) | Reset.

Definition exec (o : op) (m : Multicore) : res Multicore :=
  match o with
  | Leap t i => leapForwardTo t i m
  | Sync d => addTimeOfUnknownRealTimeDurationAndSynchronize d m
  | Unknown d => addTimeOfThreadExecutingAtUnknownTime d m
  | Activate t i => fst <$> getLocalTimelineActivationTime t i m
  | Disable i => fst <$> disableLocalTimeline i m
  | Block s i => fst <$> shouldBlockCoreProgress s i m
  | Reset => reset m
  end.

Definition op_in (n : nat) (o : op) : Prop :=
  match o with Leap _ i | Activate _ i | Disable i | Block _ i => (i < n)%nat | _ => True end.

Fixpoint run (ops : list op) (m : Multicore) : res Multicore :=
  match ops with [] => Ok m | o :: ops => m ← exec o m; run ops m end.

(** *** Shape *)
Record shaped (m : Multicore) : Prop := {
  shaped_cores : (0 < m.(processors))%nat;
  shaped_times : length m.(localCoreVirtualTimes) = m.(processors);
  shaped_active : length m.(localCoreActive) = m.(processors);
}.

Lemma min_core_bound times min id next n :
  (id < n)%nat -> (next + length times <= n)%nat -> (min_core min id next times < n)%nat.
Proof.
  revert min id next. induction times as [|t times IH]; intros min id next Hid Hn; cbn in *; [done|].
  case_match; apply IH; lia.
Qed.

Lemma min_core_lt m : shaped m ->
  (min_core (local m 0) 0 1 (drop 1 m.(localCoreVirtualTimes)) < m.(processors))%nat.
Proof. intros [Hp Ht _]. apply min_core_bound; [done|]. rewrite length_drop. lia. Qed.

Lemma local_set_local id v m i : (id < length m.(localCoreVirtualTimes))%nat ->
  local (set_local id v m) i = if decide (id = i) then v else local m i.
Proof. intros. unfold local, set_local. cbn. by apply nthd_insert. Qed.

Lemma shaped_set_local id v m : shaped m -> shaped (set_local id v m).
Proof. intros []. split; cbn; rewrite ?length_insert; done. Qed.

Lemma shaped_set_active id v m : shaped m ->
  shaped (set_localCoreActive (<[id:=v]> m.(localCoreActive)) m).
Proof. intros []. split; cbn; rewrite ?length_insert; done. Qed.

Lemma shaped_mutex b m : shaped m -> shaped (set_mutexHeld b m).
Proof. intros []. by split. Qed.

Lemma shaped_update time m : shaped m -> shaped (updateGlobalTimeTo time m).
Proof. intros []. unfold updateGlobalTimeTo. split; case_bool; done. Qed.

Lemma lock_free m : m.(mutexHeld) = false -> lock m = Ok (set_mutexHeld true m).
Proof. intros H. unfold lock. by rewrite H. Qed.

#[local] Hint Resolve shaped_set_local shaped_set_active shaped_mutex shaped_update : vex.

Lemma nthd_replicate n (z : Z) i : (i < n)%nat -> nthd (replicate n z) i = z.
Proof. intros. unfold nthd. by rewrite lookup_replicate_2. Qed.

Lemma local_update time m i : local (updateGlobalTimeTo time m) i = local m i.
Proof. unfold updateGlobalTimeTo. by case_bool. Qed.

Lemma processors_update time m : (updateGlobalTimeTo time m).(processors) = m.(processors).
Proof. unfold updateGlobalTimeTo. by case_bool. Qed.

(** The timeline after the core [id] was moved up to [time]. *)
Record core_at (id : nat) (time : Z) (m m' : Multicore) : Prop := {
  ca_shaped : shaped m';
  ca_free : m'.(mutexHeld) = false;
  ca_n : m'.(processors) = m.(processors);
  ca_id : local m' id = Z.max (local m id) time;
  ca_other : forall i, i <> id -> local m' i = local m i;
}.

Lemma raise_core_at id time gtime m0 m :
  shaped m -> (id < m.(processors))%nat ->
  m.(localCoreVirtualTimes) = m0.(localCoreVirtualTimes) -> m.(processors) = m0.(processors) ->
  core_at id time m0 (unlock (updateGlobalTimeTo gtime
    (if local m id <? time then set_local id time m else m))).
Proof.
  intros Hs Hid Ht Hn. pose proof Hs as [_ Hl _].
  assert (forall i, local m i = local m0 i) as He by (intros; unfold local; by rewrite Ht).
  split.
  - apply shaped_mutex, shaped_update. case_match; auto with vex.
  - done.
  - cbn. rewrite processors_update. by case_match.
  - change (local (unlock ?x) id) with (local x id). rewrite local_update.
    destruct (Z.ltb_spec (local m id) time).
    + rewrite local_set_local, decide_True, <- He by lia || done. lia.
    + rewrite <- He. lia.
  - intros i Hi. change (local (unlock ?x) i) with (local x i). rewrite local_update.
    case_match; [rewrite local_set_local, decide_False by lia|]; auto.
Qed.

Lemma leapForwardTo_core_at time id m :
  shaped m -> m.(mutexHeld) = false -> (id < m.(processors))%nat ->
  exists m', leapForwardTo time id m = Ok m' /\ core_at id time m m'.
Proof.
  intros Hs Hf Hid. unfold leapForwardTo. rewrite lock_free by done. cbn.
  eexists; split; [reflexivity|]. apply (raise_core_at id time _ m (set_mutexHeld true m)); auto with vex.
Qed.

Lemma activation_core_at time id m :
  shaped m -> m.(mutexHeld) = false -> (id < m.(processors))%nat ->
  exists m', getLocalTimelineActivationTime time id m = Ok (m', Z.max (local m id) time) /\
    core_at id time m m'.
Proof.
  intros Hs Hf Hid. unfold getLocalTimelineActivationTime. rewrite lock_free by done. cbn -[Z.max].
  match goal with |- context [unlock (updateGlobalTimeTo time (if local ?x id <? time then _ else _))] =>
    set (m1 := x) end.
  assert (core_at id time m (unlock (updateGlobalTimeTo time
    (if local m1 id <? time then set_local id time m1 else m1)))) as Hc.
  { apply raise_core_at; subst m1; case_match; auto with vex.
    apply (shaped_set_active id true (set_mutexHeld true m)); auto with vex. }
  eexists; split; [|exact Hc]. by rewrite (ca_id _ _ _ _ Hc).
Qed.

(** *** The plain class: no core is ahead of the global time *)
Record plain_inv (n : nat) (m : Multicore) : Prop := {
  pi_kind : m.(kind) = Plain;
  pi_n : m.(processors) = n;
  pi_shape : shaped m;
  pi_free : m.(mutexHeld) = false;
  pi_behind : forall i, (i < n)%nat -> local m i <= m.(globalVirtualTime);
}.

Lemma new_plain_inv n : (0 < n)%nat -> plain_inv n (new_Multicore Plain n).
Proof.
  intros Hn. split; try done; [split; cbn; rewrite ?length_replicate; done|].
  intros i Hi. unfold local. cbn. by rewrite nthd_replicate.
Qed.

(** Raising the global time to [time] restores the invariant where [time]
    bounds the cores that passed the global time. *)
Lemma plain_update n m time :
  shaped m -> m.(kind) = Plain -> m.(processors) = n ->
  (forall i, (i < n)%nat -> local m i <= Z.max m.(globalVirtualTime) time) ->
  plain_inv n (unlock (updateGlobalTimeTo time m)).
Proof.
  intros Hs Hk Hn Hl. unfold updateGlobalTimeTo. rewrite Hk.
  destruct (Z.ltb_spec m.(globalVirtualTime) time); (split; try done; [destruct Hs; by split|]);
    intros i Hi; specialize (Hl i Hi); unfold local in *; cbn in *; lia.
Qed.

Lemma plain_set_local n m id v : plain_inv n m -> (id < n)%nat ->
  plain_inv n (unlock (updateGlobalTimeTo (local (set_local id v (set_mutexHeld true m)) id)
                         (set_local id v (set_mutexHeld true m)))).
Proof.
  intros [Hk Hn Hs Hf Hb] Hid. apply plain_update; cbn; auto with vex.
  intros i Hi. pose proof (Hb i Hi) as Hbi. destruct Hs as [_ Ht _].
  unfold local, set_local in *. cbn. rewrite !nthd_insert by lia. repeat case_decide; lia.
Qed.

Lemma plain_step n m o : plain_inv n m -> op_in n o ->
  (forall s i, o = Block s i -> 0 <= s /\ in_ll (local m i - m.(globalVirtualTime))) ->
  exists m', exec o m = Ok m' /\ plain_inv n m'.
Proof.
  intros Hinv Hin Hblock. pose proof Hinv as [Hk Hn Hs Hf Hb].
  destruct o as [t i|d|d|t i|i|s i|]; cbn [exec op_in] in *.
  - unfold leapForwardTo. rewrite lock_free by done. cbn.
    eexists; split; [reflexivity|]. case_match; [by apply plain_set_local|].
    apply plain_update; auto with vex. intros j Hj. pose proof (Hb j Hj). unfold local in *. cbn in *. lia.
  - unfold addTimeOfUnknownRealTimeDurationAndSynchronize. rewrite lock_free by done. cbn.
    eexists; split; [reflexivity|]. apply plain_update; cbn; auto.
    + destruct Hs. split; cbn; rewrite ?length_replicate; done.
    + intros j Hj. unfold local at 1. cbn. rewrite nthd_replicate by lia. lia.
  - unfold addTimeOfThreadExecutingAtUnknownTime. rewrite lock_free by done. cbn.
    eexists; split; [reflexivity|]. apply (plain_set_local n m); [done|]. rewrite <- Hn. by apply (min_core_lt m).
  - unfold getLocalTimelineActivationTime. rewrite lock_free by done. cbn. rewrite Hk. cbn.
    eexists; split; [reflexivity|]. case_match.
    + destruct Hs as [? Ht ?]. apply plain_update; cbn; auto with vex;
        [split; cbn; rewrite ?length_insert; done|].
      intros j Hj. rewrite local_set_local by (cbn; lia). pose proof (Hb j Hj).
      unfold local in *. cbn in *. case_decide; lia.
    + apply plain_update; auto with vex. intros j Hj. pose proof (Hb j Hj). unfold local in *. cbn in *. lia.
  - unfold disableLocalTimeline. rewrite Hk. by exists m.
  - destruct (Hblock s i eq_refl) as [Hs0 Hr]. pose proof (Hb i Hin).
    unfold shouldBlockCoreProgress. rewrite lock_free by done. cbn. unfold ll_sub, local in *. cbn.
    rewrite ll_id by done. rewrite (proj2 (Z.ltb_ge _ _)) by lia. cbn.
    eexists; split; [reflexivity|]. by destruct m; cbn in *; subst.
  - unfold reset. rewrite lock_free by done. cbn. rewrite Hk. eexists; split; [reflexivity|].
    destruct Hs. split; cbn; auto; [split; cbn; rewrite ?length_replicate; done|].
    intros j Hj. unfold local. cbn. by rewrite nthd_replicate by lia.
Qed.

(** On the plain multicore timeline, whatever run of operations on its
    cores it goes through, no call blocks on the timeline's mutex, every core
    stays at or behind the global time, and a query whether a core should be
    blocked is always answered no. *)
Theorem plain_never_blocks n ops :
  (0 < n)%nat -> Forall (op_in n) ops -> Forall (fun o => forall s i, o <> Block s i) ops ->
  exists m : Multicore, run ops (new_Multicore Plain n) = Ok m /\
    (forall i, (i < n)%nat -> local m i <= m.(globalVirtualTime)) /\
    (forall slot i, (i < n)%nat -> 0 <= slot -> in_ll (local m i - m.(globalVirtualTime)) ->
       shouldBlockCoreProgress slot i m = Ok (m, false)).
Proof.
  intros Hn Hin Hnb.
  assert (forall ops m, Forall (op_in n) ops -> Forall (fun o => forall s i, o <> Block s i) ops ->
    plain_inv n m -> exists m', run ops m = Ok m' /\ plain_inv n m') as Hrun.
  { clear. induction ops as [|o ops IH]; intros m Hin Hnb Hi; cbn; [by exists m|].
    inversion_clear Hin. inversion_clear Hnb.
    destruct (plain_step n m o) as (m1&->&Hi1); [done|done|by intros s i ->; edestruct H1|].
    by apply IH. }
  destruct (Hrun ops _ Hin Hnb (new_plain_inv n Hn)) as (m'&Hm'&Hi).
  exists m'. split_and!; [done|apply Hi|]. intros slot i Hi' Hs Hr.
  pose proof (pi_behind _ _ Hi i Hi'). destruct Hi as [? ? ? Hf _].
  unfold shouldBlockCoreProgress. rewrite lock_free by done. cbn. unfold ll_sub, local in *. cbn.
  rewrite ll_id by done. rewrite (proj2 (Z.ltb_ge _ _)) by lia. cbn. by destruct m'; cbn in *; subst.
Qed.

Lemma plain_never_blocks_witness :
  exists m, run [Leap 5 0; Unknown 7; Sync 2; Leap 40 1] (new_Multicore Plain 2) = Ok m /\
    (forall i, (i < 2)%nat -> local m i <= m.(globalVirtualTime)) /\
    (forall slot i, (i < 2)%nat -> 0 <= slot -> in_ll (local m i - m.(globalVirtualTime)) ->
       shouldBlockCoreProgress slot i m = Ok (m, false)).
Proof.
  apply (plain_never_blocks 2 [Leap 5 0; Unknown 7; Sync 2; Leap 40 1]); [lia|..];
    repeat constructor; simpl; try lia; congruence.
Defined.

(** *** The disabling class: the global time is the slowest active core *)

(** On the disabling timeline, a core that is further ahead than the
    timeslot makes [shouldBlockCoreProgress] lock the mutex it already holds:
    the scheduler of that core never returns.  For any other core the call
    answers no and changes nothing. *)
Theorem disabling_block_deadlocks slot id m :
  m.(kind) = Disabling -> m.(mutexHeld) = false ->
  shouldBlockCoreProgress slot id m =
    if slot <? local m id -ll m.(globalVirtualTime) then Err SelfDeadlock else Ok (m, false).
Proof.
  intros Hk Hf. unfold shouldBlockCoreProgress. rewrite lock_free by done. cbn.
  change (local (set_mutexHeld true m) id) with (local m id). case_match.
  - unfold disableLocalTimeline. cbn. by rewrite Hk.
  - by destruct m; cbn in *; subst.
Qed.

Lemma disabling_block_deadlocks_witness :
  shouldBlockCoreProgress 10 1 (mkMulticore Disabling 0 [0; 11] [true; true] 2 false)
    = Err SelfDeadlock.
Proof. apply (disabling_block_deadlocks 10 1 (mkMulticore Disabling 0 [0; 11] [true; true] 2 false)); done. Defined.

Lemma min_active_spec times actives min :
  length times = length actives ->
  min_active min times actives <= min /\
  (forall i, (i < length times)%nat -> nthd actives i = true -> min_active min times actives <= nthd times i) /\
  (min_active min times actives = min \/
   exists i, (i < length times)%nat /\ nthd actives i = true /\ min_active min times actives = nthd times i).
Proof.
  revert actives min. induction times as [|t times IH]; intros [|a actives] min Hl; try done; cbn in *.
  { split_and!; [lia| |by left]. intros; lia. }
  specialize (IH actives (if a && (t <? min) then t else min) ltac:(lia)).
  destruct IH as (H1&H2&H3). split_and!.
  - destruct a; cbn in *; [|lia]. case_bool; lia.
  - intros [|i] Hi Ha; cbn in *.
    + unfold nthd in Ha; cbn in Ha; subst a. cbn in *. change (nthd (t :: times) 0) with t.
      case_bool; lia.
    + apply (H2 i ltac:(lia) Ha).
  - destruct H3 as [H3|(i&Hi&Ha&H3)].
    + destruct a; cbn in *; [|by left]. destruct (Z.ltb_spec t min); [|by left].
      right. exists 0%nat. split_and!; [lia|done|done].
    + right. exists (S i). split_and!; [lia|done|done].
Qed.

(** After a core of the disabling timeline leaps forward or is activated,
    and if some active core is below [LLONG_MAX], the global time is the
    least time of the active cores: one of them has it, none is below it. *)
Theorem disabling_global_is_slowest_active o m i0 :
  m.(kind) = Disabling -> shaped m -> m.(mutexHeld) = false -> op_in m.(processors) o ->
  match o with Leap _ _ | Activate _ _ => True | _ => False end ->
  exists m', exec o m = Ok m' /\ (
  (i0 < m'.(processors))%nat -> active m' i0 = true -> local m' i0 < LLONG_MAX ->
  (exists i, (i < m'.(processors))%nat /\ active m' i = true /\ m'.(globalVirtualTime) = local m' i) /\
  (forall i, (i < m'.(processors))%nat -> active m' i = true -> m'.(globalVirtualTime) <= local m' i)).
Proof.
  intros Hk Hs Hf Hin Ho.
  assert (forall time m, m.(kind) = Disabling -> shaped m ->
    let m' := unlock (updateGlobalTimeTo time m) in
    (i0 < m'.(processors))%nat -> active m' i0 = true -> local m' i0 < LLONG_MAX ->
    (exists i, (i < m'.(processors))%nat /\ active m' i = true /\ m'.(globalVirtualTime) = local m' i) /\
    (forall i, (i < m'.(processors))%nat -> active m' i = true -> m'.(globalVirtualTime) <= local m' i))
    as Hupd.
  { clear. intros time m Hk [_ Ht Ha] m'. subst m'. unfold updateGlobalTimeTo. rewrite Hk.
    destruct (min_active_spec m.(localCoreVirtualTimes) m.(localCoreActive) LLONG_MAX) as (_&Hle&Hex);
      [congruence|]. rewrite Ht in *.
    destruct (Z.eqb_spec (min_active LLONG_MAX m.(localCoreVirtualTimes) m.(localCoreActive)) LLONG_MAX)
      as [He|He]; cbn; unfold local, active; cbn; intros Hi Hact Hl.
    - specialize (Hle _ Hi Hact). lia.
    - split; [|done]. by destruct Hex. }
  destruct o as [t i| | |t i| | |]; try done; cbn [exec op_in] in *.
  - unfold leapForwardTo. rewrite lock_free by done. cbn. eexists; split; [reflexivity|].
    case_match; apply Hupd; cbn; auto with vex.
  - unfold getLocalTimelineActivationTime. rewrite lock_free by done. cbn. rewrite Hk. cbn.
    eexists; split; [reflexivity|].
    case_match; apply Hupd; cbn; auto with vex; destruct Hs; split; cbn; rewrite ?length_insert; done.
Qed.

Lemma disabling_global_is_slowest_active_witness :
  exists m', exec (Activate 7 1) (mkMulticore Disabling 0 [9; 2] [true; false] 2 false) = Ok m' /\ (
  (1 < m'.(processors))%nat -> active m' 1 = true -> local m' 1 < LLONG_MAX ->
  (exists i, (i < m'.(processors))%nat /\ active m' i = true /\ m'.(globalVirtualTime) = local m' i) /\
  (forall i, (i < m'.(processors))%nat -> active m' i = true -> m'.(globalVirtualTime) <= local m' i)).
Proof.
  apply (disabling_global_is_slowest_active (Activate 7 1) (mkMulticore Disabling 0 [9; 2] [true; false] 2 false) 1);
    try done; [split; cbn; lia|cbn; lia].
Defined.

End Multicore.
