(* ===== verification/Controllers.v ===== *)
(** * Timeline controllers

    The interface through which schedulers commit the progress of a thread to
    the virtual timeline and read it back when a thread is resumed
    (VirtualTimelineController of src/src/vex/timer/VirtualTimeline.h), and
    its implementations in VirtualTimeline.cpp: one timeline, the passive
    manager's timeline, several timelines, and the decorator that logs every
    commit.  A controller acts on the timers of the thread state it is given
    and on its timeline. *)
From S2P Require Import Prelude CxxFloat Timers VirtualTimeline.
Import Timers.

Abbreviation Timeline := VirtualTimeline.VirtualTimeline.
Abbreviation Cores := Multicore.Multicore.

Module Controllers.

(** ** Snapshots *)
Record VirtualTimeSnapshot := mkSnapshot {
  globalTime : Z; localTime : Z; localTimelineId : nat }.

Definition snapshot_of_global (g : Z) : VirtualTimeSnapshot := mkSnapshot g g 0.

(** [operator-=]: snapshots of different cores cannot be subtracted. *)
Definition snapshot_sub (a b : VirtualTimeSnapshot) : res VirtualTimeSnapshot :=
  if decide (a.(localTimelineId) = b.(localTimelineId))
  then Ok (mkSnapshot (a.(globalTime) -ll b.(globalTime)) (a.(localTime) -ll b.(localTime))
             a.(localTimelineId))
  else Err AssertFailed.

(** ** The interface

    [modelTimedWaiting] is [state->isModelTimedWaiting()] and [realNow] the
    reading of the real clock, where the implementation takes one. *)
Class VirtualTimelineController (T : Type) := {
  commitCpuTimeProgress : Timers -> T -> res (Timers * T);
  commitIoTimeProgress : Z -> Timers -> T -> res (Timers * T);
  commitTimedWaitingProgress : Timers -> T -> res (Timers * T);
  commitNativeWaitingProgress : Timers -> T -> res (Timers * T);
  commitModelSimulationProgress : bool -> Timers -> T -> res (Timers * T);
  commitTimedOutIoProgress : Timers -> T -> res (Timers * T);
  commitBackgroundLoadExecutionTime : Z -> T -> res T;
  updateResumingSuspendedThreadTimestamp : Timers -> T -> res (Timers * T);
  updateResumingSuspendedThreadResumedLastTimestamp : Z -> Timers -> T -> res (Timers * T);
  updateTimedOutWaitingThreadTimestamp : Timers -> T -> res (Timers * T);
  updateInterruptedWaitingThreadTimestamp : Z -> Timers -> T -> res (Timers * T);
  updateBlockedThreadTimestamp : Timers -> T -> res (Timers * T);
  getHowFarAheadInVirtualTimeTheThreadIs : Timers -> T -> Z;
  shouldBlockCoreProgress : Z -> T -> res (bool * T);
  disableCore : T -> res (bool * T);
  getGlobalTime : T -> Z;
  getCurrentTimeSnapshot : T -> VirtualTimeSnapshot;
}.

(** ** SingleVirtualTimelineController *)
Module Single.
Import VirtualTimeline.

Definition commitCpuTimeProgress (t : Timers) (tl : Timeline) : res (Timers * Timeline) :=
  Ok (t, leapForwardTo (getCurrentVirtualTimestampOfRunningThread t) tl).

Definition commitIoTimeProgress (actualIoDuration : Z) (t : Timers) (tl : Timeline)
    : res (Timers * Timeline) :=
  let t := updateIoWaitingTimeFrom tl.(globalVirtualTime) actualIoDuration t in
  Ok (t, leapForwardTo t.(estimatedRealTime) tl).

Definition commitTimedWaitingProgress (t : Timers) (tl : Timeline) : res (Timers * Timeline) :=
  let t := updateWaitingTimeFrom tl.(globalVirtualTime) t in
  Ok (t, leapForwardTo t.(estimatedRealTime) tl).

Definition commitNativeWaitingProgress (t : Timers) (tl : Timeline) : res (Timers * Timeline) :=
  Ok (t, addTimeOfThreadExecutingAtUnknownTime t.(localTimeSinceLastResume) tl).

Definition commitBackgroundLoadExecutionTime (d : Z) (tl : Timeline) : res Timeline :=
  Ok (addTimeOfUnknownRealTimeDurationAndSynchronize d tl).

Definition commitModelSimulationProgress (modelTimedWaiting : bool) (t : Timers) (tl : Timeline)
    : res (Timers * Timeline) :=
  Ok (t, if modelTimedWaiting then tl
         else leapForwardTo (getCurrentVirtualTimestampOfRunningThread t) tl).

(** The call is announced as impossible: [assert(false)]. *)
Definition commitTimedOutIoProgress (t : Timers) (tl : Timeline) : res (Timers * Timeline) :=
  Err AssertFailed.

Definition updateResumingSuspendedThreadTimestamp (t : Timers) (tl : Timeline)
    : res (Timers * Timeline) :=
  Ok (Timers.leapForwardTo tl.(globalVirtualTime) t, tl).

Definition updateResumingSuspendedThreadResumedLastTimestamp (realNow : Z) (t : Timers) (tl : Timeline)
    : res (Timers * Timeline) :=
  Ok (updateTimesAfterResuming realNow tl.(globalVirtualTime) t, tl).

Definition updateTimedOutWaitingThreadTimestamp (t : Timers) (tl : Timeline)
    : res (Timers * Timeline) :=
  Ok (Timers.leapForwardTo tl.(globalVirtualTime) t, tl).

Definition updateInterruptedWaitingThreadTimestamp (interruptTime : Z) (t : Timers) (tl : Timeline)
    : res (Timers * Timeline) :=
  Ok (if (interruptTime =? 0) && negb t.(dontUpdateToGlobalTime)
      then setEstimatedRealTime tl.(globalVirtualTime) t
      else setEstimatedRealTime interruptTime t, tl).

Definition updateBlockedThreadTimestamp (t : Timers) (tl : Timeline) : res (Timers * Timeline) :=
  let currentGlobalTime := tl.(globalVirtualTime) in
  let t := set_resumedLastAt currentGlobalTime (Timers.leapForwardTo currentGlobalTime t) in
  Ok ((getAndResetLocalTime t).2, tl).

Definition getHowFarAheadInVirtualTimeTheThreadIs (t : Timers) (tl : Timeline) : Z :=
  t.(estimatedRealTime) -ll tl.(globalVirtualTime).

End Single.

#[export] Instance SingleVirtualTimelineController : VirtualTimelineController Timeline := {
  commitCpuTimeProgress := Single.commitCpuTimeProgress;
  commitIoTimeProgress := Single.commitIoTimeProgress;
  commitTimedWaitingProgress := Single.commitTimedWaitingProgress;
  commitNativeWaitingProgress := Single.commitNativeWaitingProgress;
  commitModelSimulationProgress := Single.commitModelSimulationProgress;
  commitTimedOutIoProgress := Single.commitTimedOutIoProgress;
  commitBackgroundLoadExecutionTime := Single.commitBackgroundLoadExecutionTime;
  updateResumingSuspendedThreadTimestamp := Single.updateResumingSuspendedThreadTimestamp;
  updateResumingSuspendedThreadResumedLastTimestamp :=
    Single.updateResumingSuspendedThreadResumedLastTimestamp;
  updateTimedOutWaitingThreadTimestamp := Single.updateTimedOutWaitingThreadTimestamp;
  updateInterruptedWaitingThreadTimestamp := Single.updateInterruptedWaitingThreadTimestamp;
  updateBlockedThreadTimestamp := Single.updateBlockedThreadTimestamp;
  getHowFarAheadInVirtualTimeTheThreadIs := Single.getHowFarAheadInVirtualTimeTheThreadIs;
  shouldBlockCoreProgress _ tl := Ok (true, tl);
  disableCore tl := Ok (false, tl);
  getGlobalTime := VirtualTimeline.getGlobalTime;
  getCurrentTimeSnapshot tl := snapshot_of_global (VirtualTimeline.getGlobalTime tl);
}.

(** ** PassiveVirtualTimelineController

    The timeline of a passive manager; every method but two is inherited. *)
Record PassiveTimeline := mkPassive { passive_timeline : Timeline }.

Definition lift_passive {A} (f : Timeline -> res (A * Timeline)) (p : PassiveTimeline)
    : res (A * PassiveTimeline) :=
  '(a, tl) ← f p.(passive_timeline); Ok (a, mkPassive tl).

Module Passive.
Import VirtualTimeline.

Definition synchronize (t : Timers) (tl : Timeline) : res (Timers * Timeline) :=
  let '(local, t) := getAndResetLocalTime t in
  let tl := addTimeOfUnknownRealTimeDurationAndSynchronize local tl in
  Ok (setEstimatedRealTime tl.(globalVirtualTime) t, tl).

Definition commitCpuTimeProgress (t : Timers) (tl : Timeline) : res (Timers * Timeline) :=
  synchronize t tl.

Definition commitIoTimeProgress (actualIoDuration : Z) (t : Timers) (tl : Timeline)
    : res (Timers * Timeline) :=
  synchronize (updateIoWaitingTimeFrom tl.(globalVirtualTime) actualIoDuration t) tl.

End Passive.

#[export] Instance PassiveVirtualTimelineController : VirtualTimelineController PassiveTimeline := {
  commitCpuTimeProgress t := lift_passive (Passive.commitCpuTimeProgress t);
  commitIoTimeProgress d t := lift_passive (Passive.commitIoTimeProgress d t);
  commitTimedWaitingProgress t := lift_passive (Single.commitTimedWaitingProgress t);
  commitNativeWaitingProgress t := lift_passive (Single.commitNativeWaitingProgress t);
  commitModelSimulationProgress b t := lift_passive (Single.commitModelSimulationProgress b t);
  commitTimedOutIoProgress t := lift_passive (Single.commitTimedOutIoProgress t);
  commitBackgroundLoadExecutionTime d p :=
    mkPassive <$> Single.commitBackgroundLoadExecutionTime d p.(passive_timeline);
  updateResumingSuspendedThreadTimestamp t :=
    lift_passive (Single.updateResumingSuspendedThreadTimestamp t);
  updateResumingSuspendedThreadResumedLastTimestamp now t :=
    lift_passive (Single.updateResumingSuspendedThreadResumedLastTimestamp now t);
  updateTimedOutWaitingThreadTimestamp t :=
    lift_passive (Single.updateTimedOutWaitingThreadTimestamp t);
  updateInterruptedWaitingThreadTimestamp i t :=
    lift_passive (Single.updateInterruptedWaitingThreadTimestamp i t);
  updateBlockedThreadTimestamp t := lift_passive (Single.updateBlockedThreadTimestamp t);
  getHowFarAheadInVirtualTimeTheThreadIs t p :=
    Single.getHowFarAheadInVirtualTimeTheThreadIs t p.(passive_timeline);
  shouldBlockCoreProgress _ p := Ok (true, p);
  disableCore p := Ok (false, p);
  getGlobalTime p := VirtualTimeline.getGlobalTime p.(passive_timeline);
  getCurrentTimeSnapshot p := snapshot_of_global (VirtualTimeline.getGlobalTime p.(passive_timeline));
}.

(** ** MultipleVirtualTimelinesController

    The controller of one core: the shared timeline and the core's number. *)
Record Core := mkCore { core_id : nat; multipleTimelines : Cores }.

Module Multiple.
Import Multicore.

Section core.
Variable id : nat.

Definition commitCpuTimeProgress (t : Timers) (m : Cores) : res (Timers * Cores) :=
  m ← leapForwardTo (getCurrentVirtualTimestampOfRunningThread t) id m; Ok (t, m).

Definition commitIoTimeProgress (actualIoDuration : Z) (t : Timers) (m : Cores) : res (Timers * Cores) :=
  let t := updateIoWaitingTimeFrom (local m id) actualIoDuration t in
  m ← leapForwardTo t.(estimatedRealTime) id m; Ok (t, m).

Definition commitTimedWaitingProgress (t : Timers) (m : Cores) : res (Timers * Cores) :=
  let t := updateWaitingTimeFrom (local m id) t in
  m ← leapForwardTo t.(estimatedRealTime) id m; Ok (t, m).

Definition commitNativeWaitingProgress (t : Timers) (m : Cores) : res (Timers * Cores) :=
  m ← addTimeOfThreadExecutingAtUnknownTime t.(localTimeSinceLastResume) m; Ok (t, m).

Definition commitBackgroundLoadExecutionTime (d : Z) (m : Cores) : res Cores :=
  addTimeOfThreadExecutingAtUnknownTime d m.

Definition commitModelSimulationProgress (modelTimedWaiting : bool) (t : Timers) (m : Cores)
    : res (Timers * Cores) :=
  if modelTimedWaiting then Ok (t, m)
  else
    m ← leapForwardTo t.(estimatedRealTime) id m;
    Ok (Timers.leapForwardTo (local m id) t, m).

Definition commitTimedOutIoProgress (t : Timers) (m : Cores) : res (Timers * Cores) :=
  Err AssertFailed.

Definition updateResumingSuspendedThreadTimestamp (t : Timers) (m : Cores) : res (Timers * Cores) :=
  let currentLocalTimelineTime := local m id in
  let t := Timers.leapForwardTo currentLocalTimelineTime t in
  if currentLocalTimelineTime =? t.(estimatedRealTime) then Ok (t, m)
  else m ← leapForwardTo t.(estimatedRealTime) id m; Ok (t, m).

Definition updateResumingSuspendedThreadResumedLastTimestamp (realNow : Z) (t : Timers) (m : Cores)
    : res (Timers * Cores) :=
  '(m, activationTime) ← getLocalTimelineActivationTime t.(estimatedRealTime) id m;
  Ok (updateTimesAfterResuming realNow activationTime (Timers.leapForwardTo activationTime t), m).

Definition updateInterruptedWaitingThreadTimestamp (interruptTime : Z) (t : Timers) (m : Cores)
    : res (Timers * Cores) :=
  Ok (if (interruptTime =? 0) && negb t.(dontUpdateToGlobalTime)
      then setEstimatedRealTime (local m id) t
      else setEstimatedRealTime interruptTime t, m).

Definition updateTimedOutWaitingThreadTimestamp (t : Timers) (m : Cores) : res (Timers * Cores) :=
  Ok (Timers.leapForwardTo (local m id) t, m).

Definition updateBlockedThreadTimestamp (t : Timers) (m : Cores) : res (Timers * Cores) :=
  '(m, currentGlobalTime) ← getUpdatedGlobalTime m;
  let t := set_resumedLastAt currentGlobalTime (Timers.leapForwardTo currentGlobalTime t) in
  Ok ((getAndResetLocalTime t).2, m).

End core.
End Multiple.

Definition lift_core {A} (f : nat -> Cores -> res (A * Cores)) (c : Core) : res (A * Core) :=
  '(a, m) ← f c.(core_id) c.(multipleTimelines); Ok (a, mkCore c.(core_id) m).

Definition swap {A B} (p : A * B) : B * A := (p.2, p.1).

#[export] Instance MultipleVirtualTimelinesController : VirtualTimelineController Core := {
  commitCpuTimeProgress t := lift_core (fun id => Multiple.commitCpuTimeProgress id t);
  commitIoTimeProgress d t := lift_core (fun id => Multiple.commitIoTimeProgress id d t);
  commitTimedWaitingProgress t := lift_core (fun id => Multiple.commitTimedWaitingProgress id t);
  commitNativeWaitingProgress t := lift_core (fun _ => Multiple.commitNativeWaitingProgress t);
  commitModelSimulationProgress b t :=
    lift_core (fun id => Multiple.commitModelSimulationProgress id b t);
  commitTimedOutIoProgress t := lift_core (fun _ => Multiple.commitTimedOutIoProgress t);
  commitBackgroundLoadExecutionTime d c :=
    mkCore c.(core_id) <$> Multiple.commitBackgroundLoadExecutionTime d c.(multipleTimelines);
  updateResumingSuspendedThreadTimestamp t :=
    lift_core (fun id => Multiple.updateResumingSuspendedThreadTimestamp id t);
  updateResumingSuspendedThreadResumedLastTimestamp now t :=
    lift_core (fun id => Multiple.updateResumingSuspendedThreadResumedLastTimestamp id now t);
  updateTimedOutWaitingThreadTimestamp t :=
    lift_core (fun id => Multiple.updateTimedOutWaitingThreadTimestamp id t);
  updateInterruptedWaitingThreadTimestamp i t :=
    lift_core (fun id => Multiple.updateInterruptedWaitingThreadTimestamp id i t);
  updateBlockedThreadTimestamp t := lift_core (fun _ => Multiple.updateBlockedThreadTimestamp t);
  getHowFarAheadInVirtualTimeTheThreadIs t c :=
    t.(estimatedRealTime) -ll c.(multipleTimelines).(Multicore.globalVirtualTime);
  shouldBlockCoreProgress slot :=
    lift_core (fun id m => swap <$> Multicore.shouldBlockCoreProgress slot id m);
  disableCore := lift_core (fun id m => swap <$> Multicore.disableLocalTimeline id m);
  getGlobalTime c := Multicore.local c.(multipleTimelines) c.(core_id);
  getCurrentTimeSnapshot c :=
    mkSnapshot c.(multipleTimelines).(Multicore.globalVirtualTime)
      (Multicore.local c.(multipleTimelines) c.(core_id)) c.(core_id);
}.

(** ** StatisticsEnabledVirtualTimelineController

    A decorator: it takes a snapshot before and after each commit and hands
    both to the time logger; the log is kept here as the list of what the
    logger was told, the latest first. *)
Inductive commit_kind := CpuTime | IoTime | TimedWaitingTime | NativeWaitingTime
  | BackgroundLoadExecutionTime | ModelSimulationTime | TimedOutIoTime.

Record Logged (T : Type) := mkLogged {
  controller : T;
  timeLogging : list (commit_kind * VirtualTimeSnapshot * VirtualTimeSnapshot) }.
Arguments mkLogged {T}.
Arguments controller {T}.
Arguments timeLogging {T}.

Section statistics.
Context {T : Type} `{VirtualTimelineController T}.

Definition log_commit (k : commit_kind) {A} (f : T -> res (A * T)) (c : Logged T)
    : res (A * Logged T) :=
  let before := getCurrentTimeSnapshot c.(controller) in
  '(a, tl) ← f c.(controller);
  let after := getCurrentTimeSnapshot tl in
  Ok (a, mkLogged tl ((k, before, after) :: c.(timeLogging))).

Definition forward {A} (f : T -> res (A * T)) (c : Logged T) : res (A * Logged T) :=
  '(a, tl) ← f c.(controller); Ok (a, mkLogged tl c.(timeLogging)).

#[export] Instance StatisticsEnabledVirtualTimelineController
    : VirtualTimelineController (Logged T) := {
  commitCpuTimeProgress t := log_commit CpuTime (commitCpuTimeProgress t);
  commitIoTimeProgress d t := log_commit IoTime (commitIoTimeProgress d t);
  commitTimedWaitingProgress t := log_commit TimedWaitingTime (commitTimedWaitingProgress t);
  commitNativeWaitingProgress t := log_commit NativeWaitingTime (commitNativeWaitingProgress t);
  commitModelSimulationProgress b t :=
    log_commit ModelSimulationTime (commitModelSimulationProgress b t);
  commitTimedOutIoProgress t := log_commit TimedOutIoTime (commitTimedOutIoProgress t);
  commitBackgroundLoadExecutionTime d c :=
    snd <$> log_commit BackgroundLoadExecutionTime
      (fun tl => pair tt <$> commitBackgroundLoadExecutionTime d tl) c;
  updateResumingSuspendedThreadTimestamp t := forward (updateResumingSuspendedThreadTimestamp t);
  updateResumingSuspendedThreadResumedLastTimestamp now t :=
    forward (updateResumingSuspendedThreadResumedLastTimestamp now t);
  updateTimedOutWaitingThreadTimestamp t := forward (updateTimedOutWaitingThreadTimestamp t);
  updateInterruptedWaitingThreadTimestamp i t :=
    forward (updateInterruptedWaitingThreadTimestamp i t);
  updateBlockedThreadTimestamp t := forward (updateBlockedThreadTimestamp t);
  getHowFarAheadInVirtualTimeTheThreadIs t c :=
    getHowFarAheadInVirtualTimeTheThreadIs t c.(controller);
  shouldBlockCoreProgress slot := forward (shouldBlockCoreProgress slot);
  disableCore := forward disableCore;
  getGlobalTime c := getGlobalTime c.(controller);
  getCurrentTimeSnapshot c := getCurrentTimeSnapshot c.(controller);
}.
End statistics.

(** ** Laws

    What the scheduler relies on: no timeline changes the timeout of a thread
    that it interrupts. *)
Class ControllerLaws (T : Type) `{VirtualTimelineController T} : Prop := {
  commitTimedWaiting_timeout t tl t' tl' :
    commitTimedWaitingProgress t tl = Ok (t', tl') -> t'.(timeout) = t.(timeout);
  updateInterrupted_timeout at_ t tl t' tl' :
    updateInterruptedWaitingThreadTimestamp at_ t tl = Ok (t', tl') -> t'.(timeout) = t.(timeout);
  updateInterrupted_time at_ t tl t' tl' : at_ <> 0 ->
    updateInterruptedWaitingThreadTimestamp at_ t tl = Ok (t', tl') -> t' = setEstimatedRealTime at_ t;
}.

(** A controller whose updates for a running or suspended thread return. *)
Class TotalController (T : Type) `{VirtualTimelineController T} : Prop := {
  commitCpu_total t tl : exists r, commitCpuTimeProgress t tl = Ok r;
  commitNative_total t tl : exists r, commitNativeWaitingProgress t tl = Ok r;
  updateResuming_total t tl : exists r, updateResumingSuspendedThreadTimestamp t tl = Ok r;
  updateInterrupted_total at_ t tl : exists r, updateInterruptedWaitingThreadTimestamp at_ t tl = Ok r;
}.

#[export] Instance single_total : TotalController Timeline.
Proof. split; by eexists. Qed.
#[export] Instance passive_total : TotalController PassiveTimeline.
Proof. split; by eexists. Qed.

Lemma updateWaitingTimeFrom_timeout from t : (updateWaitingTimeFrom from t).(timeout) = t.(timeout).
Proof. unfold updateWaitingTimeFrom. by case_match. Qed.

#[export] Instance single_laws : ControllerLaws Timeline.
Proof.
  split.
  - intros t tl t' tl' [= <- _]. apply updateWaitingTimeFrom_timeout.
  - intros at_ t tl t' tl' [= <- _]. by case_match.
  - intros at_ t tl t' tl' Ht%Z.eqb_neq [= <- _]. by rewrite Ht.
Qed.

#[export] Instance passive_laws : ControllerLaws PassiveTimeline.
Proof.
  split; try intros * ([? ?]&Hc&[= <- <-])%bind_ok.
  - by eapply (commitTimedWaiting_timeout (T := Timeline)).
  - by eapply (updateInterrupted_timeout (T := Timeline)).
  - intros * Ht ([? ?]&Hc&[= <- <-])%bind_ok. by eapply (updateInterrupted_time (T := Timeline)).
Qed.

#[export] Instance multiple_laws : ControllerLaws Core.
Proof.
  split; try intros * ([? ?]&Hc&[= <- <-])%bind_ok.
  - apply bind_ok in Hc as (?&_&[= <- _]). apply updateWaitingTimeFrom_timeout.
  - injection Hc as <- _. by case_match.
  - intros * Ht%Z.eqb_neq ([? ?]&[= <- _]&[= <- <-])%bind_ok. by rewrite Ht.
Qed.

#[export] Instance statistics_laws {T} `{ControllerLaws T} : ControllerLaws (Logged T).
Proof.
  split; try intros * ([? ?]&Hc&[= <- <-])%bind_ok.
  - by eapply (commitTimedWaiting_timeout (T := T)).
  - by eapply (updateInterrupted_timeout (T := T)).
  - intros * Ht ([? ?]&Hc&[= <- <-])%bind_ok. by eapply (updateInterrupted_time (T := T)).
Qed.

(** A controller that leaves the timers of a running thread alone when it
    commits its progress, and does no more to those of a thread that is made
    running than to move it up to the time of the timeline. *)
Class RunningTimers (T : Type) `{VirtualTimelineController T} : Prop := {
  commitCpu_timers t tl t' tl' : commitCpuTimeProgress t tl = Ok (t', tl') -> t' = t;
  commitNative_timers t tl t' tl' : commitNativeWaitingProgress t tl = Ok (t', tl') -> t' = t;
  updateResuming_timers t tl t' tl' : updateResumingSuspendedThreadTimestamp t tl = Ok (t', tl') ->
    exists now, t' = Timers.leapForwardTo now t;
}.

#[export] Instance single_running_timers : RunningTimers Timeline.
Proof. split; intros * [= <- _]; [done..|by eexists]. Qed.

#[export] Instance multiple_running_timers : RunningTimers Core.
Proof.
  split; intros * ([? ?]&Hc&[= <- <-])%bind_ok; [by apply bind_ok in Hc as (?&_&[= <- _])..|].
  unfold Multiple.updateResumingSuspendedThreadTimestamp in Hc. case_match; [injection Hc as <- _|apply bind_ok in Hc as (?&_&[= <- _])];
    by eexists.
Qed.

#[export] Instance statistics_running_timers {T} `{RunningTimers T} : RunningTimers (Logged T).
Proof.
  split; intros * ([? ?]&Hc&[= <- <-])%bind_ok.
  - by eapply (commitCpu_timers (T := T)).
  - by eapply (commitNative_timers (T := T)).
  - by eapply (updateResuming_timers (T := T)).
Qed.

(** ** Calls through the interface *)
Inductive call :=
| CommitCpu | CommitIo (d : Z) | CommitWait | CommitNative | CommitModel (timedWaiting : bool)
| CommitTimedOutIo | CommitBackground (d : Z)
| Resume | ResumedLast (realNow : Z) | TimedOut | Interrupted (at_ : Z) | Blocked
| ShouldBlock (slot : Z) | DisableCore.

Definition is_commit (c : call) : bool :=
  match c with
  | CommitCpu | CommitIo _ | CommitWait | CommitNative | CommitModel _ | CommitTimedOutIo
  | CommitBackground _ => true
  | _ => false
  end.

Section calls.
Context {T : Type} `{VirtualTimelineController T}.

Definition perform (c : call) (t : Timers) (tl : T) : res (Timers * T) :=
  match c with
  | CommitCpu => commitCpuTimeProgress t tl
  | CommitIo d => commitIoTimeProgress d t tl
  | CommitWait => commitTimedWaitingProgress t tl
  | CommitNative => commitNativeWaitingProgress t tl
  | CommitModel b => commitModelSimulationProgress b t tl
  | CommitTimedOutIo => commitTimedOutIoProgress t tl
  | CommitBackground d => pair t <$> commitBackgroundLoadExecutionTime d tl
  | Resume => updateResumingSuspendedThreadTimestamp t tl
  | ResumedLast now => updateResumingSuspendedThreadResumedLastTimestamp now t tl
  | TimedOut => updateTimedOutWaitingThreadTimestamp t tl
  | Interrupted i => updateInterruptedWaitingThreadTimestamp i t tl
  | Blocked => updateBlockedThreadTimestamp t tl
  | ShouldBlock slot => '(_, tl) ← shouldBlockCoreProgress slot tl; Ok (t, tl)
  | DisableCore => '(_, tl) ← disableCore tl; Ok (t, tl)
  end.

Fixpoint perform_all (cs : list call) (t : Timers) (tl : T) : res (Timers * T) :=
  match cs with
  | [] => Ok (t, tl)
  | c :: cs => '(t, tl) ← perform c t tl; perform_all cs t tl
  end.

(** The two calls that resume a suspended thread (ThreadManager.cpp:1849-1858). *)
Definition resume (realNow : Z) (t : Timers) (tl : T) : res (Timers * T) :=
  perform_all [Resume; ResumedLast realNow] t tl.
End calls.

(** *** The decorator does not interfere *)
Section transparency.
Context {T : Type} `{VirtualTimelineController T}.

Definition strip (p : Timers * Logged T) : Timers * T := (p.1, p.2.(controller)).

(** The log from [s] to [s'], the latest entry first, leaves no gap. *)
Fixpoint gapless (s s' : VirtualTimeSnapshot)
    (log : list (commit_kind * VirtualTimeSnapshot * VirtualTimeSnapshot)) : Prop :=
  match log with
  | [] => s = s'
  | (_, before, after) :: log => after = s' /\ gapless s before log
  end.

Lemma perform_logged c t tl log :
  match perform c t (mkLogged tl log) with
  | Ok (t', l') =>
    perform c t tl = Ok (t', l'.(controller)) /\
    l'.(timeLogging) =
      if is_commit c
      then (match c with
            | CommitCpu => CpuTime | CommitIo _ => IoTime | CommitWait => TimedWaitingTime
            | CommitNative => NativeWaitingTime | CommitModel _ => ModelSimulationTime
            | CommitTimedOutIo => TimedOutIoTime | _ => BackgroundLoadExecutionTime end,
            getCurrentTimeSnapshot tl, getCurrentTimeSnapshot l'.(controller)) :: log
      else log
  | Err e => perform c t tl = Err e
  end.
Proof.
  destruct c; cbn; unfold log_commit, forward; res_cases; done.
Qed.
End transparency.

(** Wrapping any controller in the statistics decorator changes nothing
    the schedulers can observe: every sequence of calls ends with the same
    fault or with the same timers and timeline.  A sequence of commits is
    logged completely: one entry per commit, each starting at the snapshot
    where the one before ended. *)
Theorem statistics_transparent {T} `{VirtualTimelineController T} cs t (tl : T) :
  strip <$> perform_all cs t (mkLogged tl []) = perform_all cs t tl /\
  (forallb is_commit cs ->
   forall t' l', perform_all cs t (mkLogged tl []) = Ok (t', l') ->
     gapless (getCurrentTimeSnapshot tl) (getCurrentTimeSnapshot l'.(controller)) l'.(timeLogging) /\
     length l'.(timeLogging) = length cs).
Proof.
  assert (forall log t tl, strip <$> perform_all cs t (mkLogged tl log) = perform_all cs t tl) as Hs.
  { induction cs as [|c cs IH]; intros log t1 tl1; [done|]. cbn [perform_all].
    pose proof (perform_logged c t1 tl1 log) as Hc.
    destruct (perform c t1 (mkLogged tl1 log)) as [[t2 [tl2 log2]]|e]; cbn in *.
    - destruct Hc as [-> _]. cbn. apply IH.
    - by rewrite Hc. }
  split; [apply Hs|]. clear Hs. intros Hc t' l'.
  assert (forall s0 log t tl, gapless s0 (getCurrentTimeSnapshot tl) log ->
    perform_all cs t (mkLogged tl log) = Ok (t', l') ->
    gapless s0 (getCurrentTimeSnapshot l'.(controller)) l'.(timeLogging) /\
    length l'.(timeLogging) = (length cs + length log)%nat) as Hg.
  { induction cs as [|c cs IH]; intros s0 log t1 tl1 Hg Hp; cbn in Hp; [by simplify_eq|].
    apply andb_prop_elim in Hc as [Hc Hcs].
    pose proof (perform_logged c t1 tl1 log) as Hl.
    destruct (perform c t1 (mkLogged tl1 log)) as [[t2 [tl2 log2]]|e]; cbn in *; [|done].
    destruct Hl as [_ Hl]. rewrite (Is_true_true_1 _ Hc) in Hl. subst log2.
    apply (IH Hcs s0) in Hp as [Hp Hn]; [|done]. split; [done|]. cbn in Hn. lia. }
  intros Hp. apply (Hg (getCurrentTimeSnapshot tl)) in Hp as [? Hn]; [|done].
  split; [done|]. cbn in Hn. lia.
Qed.

(** *** Resuming a suspended thread *)

(** Resuming a suspended thread on its core: the call goes through, the
    thread's clock moves forward only, to the time of the core, no other core
    moves, and the timestamp the thread will report next is its clock. *)
Theorem multiple_resume_in_sync realNow t (c : Core) :
  let m := c.(multipleTimelines) in
  Multicore.shaped m -> m.(Multicore.mutexHeld) = false -> (c.(core_id) < m.(Multicore.processors))%nat ->
  in_ll t.(estimatedRealTime) -> in_ll (Multicore.local m c.(core_id)) ->
  exists t' c', resume realNow t c = Ok (t', c') /\
    timestamp_in_sync t' /\
    t'.(estimatedRealTime) = Z.max t.(estimatedRealTime) (Multicore.local m c.(core_id)) /\
    getGlobalTime c' = t'.(estimatedRealTime) /\
    c'.(multipleTimelines).(Multicore.mutexHeld) = false /\
    (forall i, i <> c.(core_id) -> Multicore.local c'.(multipleTimelines) i = Multicore.local m i).
Proof.
  intros m Hs Hf Hid He Hl. destruct c as [id m1]. cbn in m, Hid. subst m.
  unfold resume. cbn [perform_all perform]. cbn. unfold lift_core. cbn [core_id multipleTimelines].
  change (in_ll (Multicore.local m1 id)) in Hl. set (l := Multicore.local m1 id) in *.
  assert (exists m2, Multiple.updateResumingSuspendedThreadTimestamp id t m1
            = Ok (Timers.leapForwardTo l t, m2) /\
          Multicore.core_at id (Z.max l t.(estimatedRealTime)) m1 m2) as (m2&->&Hc2).
  { unfold Multiple.updateResumingSuspendedThreadTimestamp. fold l.
    assert ((Timers.leapForwardTo l t).(estimatedRealTime) = Z.max l t.(estimatedRealTime)) as ->
      by (unfold Timers.leapForwardTo; case_bool; cbn; lia).
    destruct (Z.eqb_spec l (Z.max l t.(estimatedRealTime))) as [Heq|].
    - exists m1. split; [done|]. split; auto. fold l. lia.
    - destruct (Multicore.leapForwardTo_core_at (Z.max l t.(estimatedRealTime)) id m1) as (m2&->&?);
        [done..|]. by exists m2. }
  cbn. unfold Multiple.updateResumingSuspendedThreadResumedLastTimestamp.
  destruct Hc2 as [Hs2 Hf2 Hn2 Hid2 Ho2].
  set (e := (Timers.leapForwardTo l t).(estimatedRealTime)).
  assert (e = Z.max l t.(estimatedRealTime)) as He'
    by (subst e; unfold Timers.leapForwardTo; case_bool; cbn; lia).
  destruct (Multicore.activation_core_at e id m2) as (m3&->&[Hs3 Hf3 Hn3 Hid3 Ho3]); [done|done|lia|].
  cbn. eexists _, _. split; [reflexivity|]. cbn.
  set (act := Z.max (Multicore.local m2 id) e). assert (act = e) as Hact by (subst act; lia).
  rewrite Hact. clear act Hact.
  assert (Timers.leapForwardTo e (Timers.leapForwardTo l t) = Timers.leapForwardTo l t) as ->.
  { unfold Timers.leapForwardTo at 1. fold e. by rewrite Z.ltb_irrefl. }
  split_and!; cbn; [| fold e; lia | fold e; lia | done |].
  - unfold timestamp_in_sync, getCurrentVirtualTimestampOfRunningThread. cbn. fold e.
    assert (in_ll e) by (rewrite He'; ll_range). clearbody e.
    unfold ll_add. rewrite Z.add_0_r. destruct (dontUpdateToGlobalTime _); by apply ll_id.
  - intros i Hi. by rewrite Ho3, Ho2.
Qed.

Lemma multiple_resume_in_sync_witness :
  let m := Multicore.new_Multicore Multicore.Disabling 2 in
  exists t' c', resume 5 (setEstimatedRealTime 9 (new_Timers 0)) (mkCore 1 m) = Ok (t', c') /\
    timestamp_in_sync t' /\ t'.(estimatedRealTime) = Z.max 9 (Multicore.local m 1) /\
    getGlobalTime c' = t'.(estimatedRealTime) /\
    c'.(multipleTimelines).(Multicore.mutexHeld) = false /\
    (forall i, i <> 1%nat -> Multicore.local c'.(multipleTimelines) i = Multicore.local m i).
Proof.
  apply (multiple_resume_in_sync 5 (setEstimatedRealTime 9 (new_Timers 0))
           (mkCore 1 (Multicore.new_Multicore Multicore.Disabling 2)));
    [split; cbn; lia|done|cbn; lia|vm_compute; split; congruence..].
Defined.

(** Resuming a suspended thread on the single timeline: the timeline
    stays, the clock of the thread moves forward only, and the timestamp it
    will report next is its clock exactly when it was not ahead of the
    timeline (or is marked not to be synchronised); a thread ahead of the
    timeline reports the global time instead, so its next commit falls short
    of its own clock by its lead. *)
Theorem single_resume_in_sync_iff realNow t (tl : Timeline) :
  in_ll t.(estimatedRealTime) -> in_ll tl.(VirtualTimeline.globalVirtualTime) ->
  exists t', resume realNow t tl = Ok (t', tl) /\
    t'.(estimatedRealTime) = Z.max t.(estimatedRealTime) (getGlobalTime tl) /\
    getCurrentVirtualTimestampOfRunningThread t' =
      (if t.(dontUpdateToGlobalTime) then t'.(estimatedRealTime) else getGlobalTime tl) /\
    (timestamp_in_sync t' <-> t.(dontUpdateToGlobalTime) = true \/ t.(estimatedRealTime) <= getGlobalTime tl).
Proof.
  intros He Hg. eexists. split; [reflexivity|].
  change (getGlobalTime tl) with tl.(VirtualTimeline.globalVirtualTime).
  set (g := tl.(VirtualTimeline.globalVirtualTime)) in *.
  unfold timestamp_in_sync, getCurrentVirtualTimestampOfRunningThread. cbn. unfold ll_add.
  rewrite Z.add_0_r. fold g.
  assert ((Timers.leapForwardTo g t).(dontUpdateToGlobalTime) = t.(dontUpdateToGlobalTime)) as ->
    by (unfold Timers.leapForwardTo; by case_bool).
  assert ((Timers.leapForwardTo g t).(estimatedRealTime) = Z.max t.(estimatedRealTime) g) as ->
    by (unfold Timers.leapForwardTo; case_bool; cbn; lia).
  split; [done|]. destruct (dontUpdateToGlobalTime t); rewrite ll_id by ll_range.
  - split; [done|]. split; [by left|done].
  - split; [done|]. split; [right; lia|intros [?|?]; [done|lia]].
Qed.

Lemma single_resume_in_sync_iff_witness :
  exists t', resume 0 (setEstimatedRealTime 9 (new_Timers 0)) (VirtualTimeline.mkTimeline 4 0)
      = Ok (t', VirtualTimeline.mkTimeline 4 0) /\
    t'.(estimatedRealTime) = Z.max 9 4 /\
    getCurrentVirtualTimestampOfRunningThread t' = 4 /\
    (timestamp_in_sync t' <-> false = true \/ 9 <= 4).
Proof.
  apply (single_resume_in_sync_iff 0 (setEstimatedRealTime 9 (new_Timers 0))
           (VirtualTimeline.mkTimeline 4 0)); vm_compute; split; congruence.
Defined.

(** An interrupt of unknown time (0) takes a waiting thread to the
    current time of its timeline, unless the thread is marked not to be
    synchronised: then its clock is set to 0, whatever it was before.  Any
    other interrupt sets the clock to the time given.  Both controllers of a
    scheduler agree on this. *)
Theorem interrupted_clock at_ t (tl : Timeline) (c : Core) :
  (exists t', perform (Interrupted at_) t tl = Ok (t', tl) /\
     t'.(estimatedRealTime) =
       if decide (at_ = 0 /\ t.(dontUpdateToGlobalTime) = false) then getGlobalTime tl else at_) /\
  (exists t', perform (Interrupted at_) t c = Ok (t', c) /\
     t'.(estimatedRealTime) =
       if decide (at_ = 0 /\ t.(dontUpdateToGlobalTime) = false) then getGlobalTime c else at_).
Proof.
  split; eexists; (split; [destruct c; reflexivity|]); cbn;
    destruct (Z.eqb_spec at_ 0), (dontUpdateToGlobalTime t); cbn; case_decide; naive_solver.
Qed.

End Controllers.
