(* ===== verification/TimeLogger.v ===== *)
(** * The profile of virtual time

    src/src/vex/timer/TimeLogger: what virtual time was spent on, in total
    (TotalTime) and per thread (PerThreadTime), as the decorator
    StatisticsEnabledVirtualTimelineController of [Controllers] reports it, and
    the order in which the samples of single commits are listed
    (SamplesPerThreadAnalysis).  The counters and maps of the classes are
    named by what they count; output is left out, and so are names of threads. *)
From stdpp Require Import functions.
From S2P Require Import Prelude CxxFloat Timers VirtualTimeline Controllers.
Import Timers Controllers.

Module TimeLogger.

(** What a counter counts: the [commit_kind]s that are reported, and waiting
    times, for which there is a method that nobody calls. *)
Inductive counter := Commit (k : commit_kind) | Waiting.

#[export] Instance commit_kind_eq_dec : EqDecision commit_kind.
Proof. solve_decision. Defined.
#[export] Instance counter_eq_dec : EqDecision counter.
Proof. solve_decision. Defined.

Definition counters : list counter :=
  Waiting :: (Commit <$> [CpuTime; IoTime; TimedWaitingTime; NativeWaitingTime; BackgroundLoadExecutionTime; ModelSimulationTime; TimedOutIoTime]).

(** The first and the last time of a thread that the logger knows. *)
Record ThreadTimeInfo := mkThreadTimeInfo { startERT : Z; lastERT : Z }.

(** A PerThreadTime is a TotalTime, whose counters are [totals]. *)
Record PerThreadTime := mkPerThreadTime {
  totals : counter -> Z;
  times : counter -> gmap Z Z;
  threadMapping : gmap Z ThreadTimeInfo;
}.

Definition new_PerThreadTime : PerThreadTime := mkPerThreadTime (fun _ => 0) (fun _ => ∅) ∅.

(** The thread that a time is logged for, none for background load. *)
Abbreviation logged_thread := (option (Z * Timers)).

Definition threadId (state : logged_thread) : Z := match state with Some (id, _) => id | None => -1 end.

Definition new_ThreadTimeInfo (state : logged_thread) : ThreadTimeInfo :=
  mkThreadTimeInfo (match state with Some (_, t) => t.(Timers.resumedLastAt) | None => 0 end) 0.

Definition setLatestUpdatingTime (time : Z) (i : ThreadTimeInfo) : ThreadTimeInfo := mkThreadTimeInfo i.(startERT) time.
Definition getERTfromBeginningToEnd (i : ThreadTimeInfo) : Z := i.(lastERT) -ll i.(startERT).

Definition increaseTimeCounter (c : Z) (before after : VirtualTimeSnapshot) : Z :=
  c +ll (after.(globalTime) -ll before.(globalTime)).

(** A thread that one of the maps does not have is entered there anew. *)
Definition getTimelineOfThread (k : counter) (state : logged_thread) (p : PerThreadTime) : PerThreadTime :=
  let id := threadId state in
  match p.(times) k !! id with
  | Some _ => p
  | None => mkPerThreadTime p.(totals) (<[k := <[id := 0]> (p.(times) k)]> p.(times)) (<[id := new_ThreadTimeInfo state]> p.(threadMapping))
  end.

Definition log (k : counter) (state : logged_thread) (before after : VirtualTimeSnapshot) (p : PerThreadTime) : PerThreadTime :=
  let id := threadId state in
  let p := mkPerThreadTime (<[k := increaseTimeCounter (p.(totals) k) before after]> p.(totals)) p.(times) p.(threadMapping) in
  let p := getTimelineOfThread k state p in
  mkPerThreadTime p.(totals)
    (<[k := alter (fun c => increaseTimeCounter c before after) id (p.(times) k)]> p.(times))
    (alter (setLatestUpdatingTime after.(globalTime)) id p.(threadMapping)).

(** [logCpuTime] and its like; background load is logged for no thread. *)
Definition log_commit (k : commit_kind) (state : Z * Timers) (before after : VirtualTimeSnapshot) : PerThreadTime -> PerThreadTime :=
  log (Commit k) (match k with BackgroundLoadExecutionTime => None | _ => Some state end) before after.

Definition getValue (k : counter) (id : Z) (p : PerThreadTime) : Z := default 0 (p.(times) k !! id).

(** The total of a row of [printStats]. *)
Definition threadTotal (id : Z) (p : PerThreadTime) : Z :=
  foldl (fun acc k => acc +ll getValue (Commit k) id p) 0 [CpuTime; NativeWaitingTime; IoTime] +ll getValue Waiting id p
    +ll getValue (Commit TimedWaitingTime) id p +ll getValue (Commit TimedOutIoTime) id p +ll getValue (Commit ModelSimulationTime) id p.

(** ** The decorator with its logger *)
Section profiled.
Context {T : Type} `{VirtualTimelineController T}.

Record Profiled := mkProfiled { timeline : T; profile : PerThreadTime }.

Definition commit (c : call) (id : Z) (t : Timers) (s : Profiled) : res (Timers * Profiled) :=
  '(t, l) ← perform c t (mkLogged s.(timeline) []);
  Ok (t, mkProfiled l.(controller) (foldr (fun '(k, before, after) => log_commit k (id, t) before after) s.(profile) l.(timeLogging))).

(** Commits of any threads; the first arguments are the calls with the thread
    that makes them and its timers. *)
Fixpoint commits (cs : list (call * Z * Timers)) (s : Profiled) : res Profiled :=
  match cs with
  | [] => Ok s
  | (c, id, t) :: cs => '(_, s) ← commit c id t s; commits cs s
  end.
End profiled.
Arguments Profiled : clear implicits.
Arguments mkProfiled {T}.

(** ** Samples *)
Record ThreadTimeSample := mkSample {
  resumedLastAt : Z;
  localTimeSinceLastResume : Z;
  estimatedRealTime : Z;
  gvtBefore : Z;
  gvtAfter : Z;
}.

(** The sample of background load leaves its first three fields alone, which
    hold what the memory held: [garbage]. *)
Definition new_ThreadTimeSample (garbage : Z * Z * Z) (state : option Timers) (before after : VirtualTimeSnapshot) : ThreadTimeSample :=
  match state with
  | Some t => mkSample t.(Timers.resumedLastAt) t.(Timers.localTimeSinceLastResume) t.(Timers.estimatedRealTime) before.(globalTime) after.(globalTime)
  | None => mkSample garbage.1.1 garbage.1.2 garbage.2 before.(globalTime) after.(globalTime)
  end.

Definition compareTo (x second : ThreadTimeSample) : bool :=
  if second.(gvtBefore) <? x.(gvtBefore) then true
  else if x.(gvtBefore) =? second.(gvtBefore) then
    if x.(gvtAfter) <? second.(gvtAfter) then true
    else if x.(gvtAfter) =? second.(gvtAfter) then x.(resumedLastAt) <? second.(resumedLastAt) else false
  else false.

Definition compare_ThreadTimeSamples (lhs rhs : ThreadTimeSample) : bool := compareTo rhs lhs.

(** The order is the strict weak one that std::sort asks for, whatever the
    memory held: earlier starts first, of these the longer sample, of these the
    thread that was resumed later. *)
Lemma compare_precedes x y : compare_ThreadTimeSamples x y = true <->
  x.(gvtBefore) < y.(gvtBefore) \/ x.(gvtBefore) = y.(gvtBefore) /\
    (y.(gvtAfter) < x.(gvtAfter) \/ y.(gvtAfter) = x.(gvtAfter) /\ y.(resumedLastAt) < x.(resumedLastAt)).
Proof. unfold compare_ThreadTimeSamples, compareTo. case_bool; split; intros; try done; lia. Qed.

Lemma samples_strict_weak_order x y z :
  compare_ThreadTimeSamples x x = false /\
  (compare_ThreadTimeSamples x y = true -> compare_ThreadTimeSamples y z = true -> compare_ThreadTimeSamples x z = true) /\
  (compare_ThreadTimeSamples x z = true -> compare_ThreadTimeSamples x y = true \/ compare_ThreadTimeSamples y z = true).
Proof. rewrite <- not_true_iff_false, !compare_precedes. lia. Qed.

(** ** What the profile says *)
Definition sum_times (m : gmap Z Z) : Z := map_fold (fun _ x acc => x + acc) 0 m.

Lemma sum_times_insert m id x : m !! id = None -> sum_times (<[id := x]> m) = x + sum_times m.
Proof. intros Hid. apply (map_fold_insert_L (fun _ x acc => x + acc) 0 id x m); [lia|done]. Qed.

Lemma sum_times_alter m id f x : m !! id = Some x -> sum_times (alter f id m) = sum_times m - x + f x.
Proof.
  intros Hid. rewrite <- (insert_delete_id m id x Hid) at 1 2. rewrite alter_insert_eq.
  rewrite !sum_times_insert by apply lookup_delete_eq. lia.
Qed.

(** Every counter is the sum of those of the threads. *)
Definition shared_out (p : PerThreadTime) : Prop := forall k, p.(totals) k = ll (sum_times (p.(times) k)).

Lemma increase_ll c b a : increaseTimeCounter c b a = ll (c + (a.(globalTime) -ll b.(globalTime))).
Proof. done. Qed.

Lemma getTimeline_shared k st p : shared_out p -> shared_out (getTimelineOfThread k st p) /\ (getTimelineOfThread k st p).(totals) = p.(totals) /\
  is_Some ((getTimelineOfThread k st p).(times) k !! threadId st).
Proof.
  intros Hp. unfold getTimelineOfThread. destruct (times p k !! threadId st) as [x|] eqn:E; [split_and!; [done|done|by exists x]|].
  split_and!; [|done|cbn; rewrite fn_lookup_insert, lookup_insert_eq; by eexists].
  intros j. cbn. rewrite (Hp j). destruct (decide (j = k)) as [->|]; [|by rewrite fn_lookup_insert_ne].
  by rewrite fn_lookup_insert, sum_times_insert.
Qed.

Lemma log_totals k st b a p : (log k st b a p).(totals) = <[k := increaseTimeCounter (p.(totals) k) b a]> p.(totals).
Proof. unfold log, getTimelineOfThread. cbn. by case_match. Qed.

Lemma log_shared k st b a p : shared_out p -> shared_out (log k st b a p).
Proof.
  intros Hp j. rewrite log_totals. destruct (getTimeline_shared k st p Hp) as (Hs & Ht & [x Hx]).
  set (p1 := mkPerThreadTime (<[k := increaseTimeCounter (p.(totals) k) b a]> p.(totals)) p.(times) p.(threadMapping)).
  assert ((getTimelineOfThread k st p1).(times) = (getTimelineOfThread k st p).(times)) as Htimes by (unfold getTimelineOfThread; cbn; by case_match).
  unfold log. cbn [times]. fold p1. rewrite Htimes. destruct (decide (j = k)) as [->|].
  - rewrite !fn_lookup_insert, (sum_times_alter _ _ _ _ Hx), !increase_ll. rewrite ll_ll_add. rewrite (Hp k), ll_add_ll.
    rewrite <- (ll_add_ll (sum_times _)), <- (Hp k), <- Ht, (Hs k), ll_add_ll. f_equal. lia.
  - rewrite !fn_lookup_insert_ne by done. rewrite <- (Hs j), Ht. done.
Qed.

(** The first time that a thread is logged in a category it starts anew, whatever
    is known of it: its row counts the time since then. *)
Lemma new_category_restarts k id t b a p : p.(times) k !! id = None ->
  getERTfromBeginningToEnd <$> (log k (Some (id, t)) b a p).(threadMapping) !! id = Some (a.(globalTime) -ll t.(Timers.resumedLastAt)).
Proof.
  intros Hid. unfold log, getTimelineOfThread. cbn [threadId times]. rewrite Hid. cbn [threadMapping].
  by rewrite lookup_alter_eq, lookup_insert_eq.
Qed.

(** The total of a row has the seven categories of a thread. *)
Lemma threadTotal_sum id p : threadTotal id p = ll (sum_of (fun k => getValue k id p)
  (Waiting :: (Commit <$> [CpuTime; IoTime; TimedWaitingTime; NativeWaitingTime; ModelSimulationTime; TimedOutIoTime]))).
Proof. unfold threadTotal. cbn [foldl]. unfold ll_add, sum_of. cbn [foldr fmap list_fmap]. ll_ring. Qed.

(** Everything that was counted. *)
Definition grand_total (p : PerThreadTime) : Z := ll (foldr Z.add 0 (p.(totals) <$> counters)).

Lemma sum_insert (f : counter -> Z) k x l : NoDup l -> k ∈ l -> foldr Z.add 0 (<[k := x]> f <$> l) = foldr Z.add 0 (f <$> l) - f k + x.
Proof.
  induction l as [|j l IH]; intros Hn Hk; [by apply not_elem_of_nil in Hk|]. apply NoDup_cons in Hn as [Hj Hn]. cbn.
  apply elem_of_cons in Hk as [<-|Hk].
  - rewrite fn_lookup_insert. replace (<[k:=x]> f <$> l) with (f <$> l); [lia|]. apply list_fmap_ext. intros i y Hy%list_elem_of_lookup_2.
    symmetry. apply fn_lookup_insert_ne. by intros ->.
  - rewrite fn_lookup_insert_ne by (by intros ->). rewrite IH by done. lia.
Qed.

Lemma counters_all k : k ∈ counters.
Proof. destruct k as [[]|]; unfold counters; cbn; set_solver. Qed.

Lemma log_grand_total k st b a p : grand_total (log k st b a p) = grand_total p +ll (a.(globalTime) -ll b.(globalTime)).
Proof.
  unfold grand_total. rewrite log_totals, sum_insert; [|by apply (bool_decide_unpack _); vm_compute|apply counters_all].
  rewrite increase_ll, ll_ll_add. unfold ll_add. rewrite ll_add_ll. f_equal. lia.
Qed.

Section complete.
Context {T : Type} `{VirtualTimelineController T}.

Definition virtual_time (tl : T) : Z := (getCurrentTimeSnapshot tl).(globalTime).

Lemma commit_profiled c id t (s : Profiled T) t' s' : is_commit c -> commit c id t s = Ok (t', s') ->
  (shared_out s.(profile) -> shared_out s'.(profile)) /\
  grand_total s'.(profile) = grand_total s.(profile) +ll (virtual_time s'.(timeline) -ll virtual_time s.(timeline)).
Proof.
  intros Hc. unfold commit. pose proof (perform_logged c t s.(timeline) []) as Hl.
  destruct (perform c t (mkLogged (timeline s) [])) as [[t1 l]|]; [|done]. destruct Hl as [_ Hl]. rewrite (Is_true_true_1 _ Hc) in Hl.
  cbn [mbind res_bind]. rewrite Hl. intros [= <- <-]. cbn. split; [apply log_shared|apply log_grand_total].
Qed.

(** C19. The profile is complete: after any commits of any threads each counter
    is the sum of those of the threads, and together the counters are the
    virtual time that has passed. *)
Theorem profile_is_complete cs (tl : T) s' : forallb (fun c => is_commit c.1.1) cs -> commits cs (mkProfiled tl new_PerThreadTime) = Ok s' ->
  (forall k, s'.(profile).(totals) k = ll (sum_times (s'.(profile).(times) k))) /\
  grand_total s'.(profile) = virtual_time s'.(timeline) -ll virtual_time tl.
Proof.
  intros Hc Hs'.
  assert (forall (s : Profiled T), shared_out s.(profile) -> grand_total s.(profile) = virtual_time s.(timeline) -ll virtual_time tl ->
    commits cs s = Ok s' -> shared_out s'.(profile) /\ grand_total s'.(profile) = virtual_time s'.(timeline) -ll virtual_time tl) as Hall.
  { clear Hs'. induction cs as [|[[c id] t] cs IH]; intros s Hs Hg; cbn [commits]; [by intros [= ->]|].
    apply andb_prop_elim in Hc as [Hc Hcs]. destruct (commit c id t s) as [[t1 s1]|] eqn:E; [|done]. cbn [mbind res_bind].
    destruct (commit_profiled _ _ _ _ _ _ Hc E) as [H1 H2]. apply (IH Hcs); [by apply H1|]. rewrite H2, Hg.
    unfold ll_add, ll_sub. rewrite ll_add_ll, ll_ll_add. f_equal. lia. }
  apply (Hall (mkProfiled tl new_PerThreadTime)); [done| |done]. unfold ll_sub. by rewrite Z.sub_diag.
Qed.
End complete.

(** ** Two threads on a core *)
#[local] Existing Instances Controllers.SingleVirtualTimelineController.

Definition on_cpu (ert : Z) : Timers := Timers.setEstimatedRealTime ert (new_Timers 0).

Definition three_commits : list (call * Z * Timers) :=
  [(CommitCpu, 1, on_cpu 40); (CommitIo 30, 2, on_cpu 60); (CommitCpu, 2, on_cpu 100)].
Definition at_zero : Timeline := VirtualTimeline.mkTimeline 0 0.
Definition three_result : Profiled Timeline :=
  match commits three_commits (mkProfiled at_zero new_PerThreadTime) with Ok s => s | Err _ => mkProfiled at_zero new_PerThreadTime end.

Lemma profile_is_complete_witness :
  (forall k, three_result.(profile).(totals) k = ll (sum_times (three_result.(profile).(times) k))) /\
  grand_total three_result.(profile) = virtual_time three_result.(timeline) -ll virtual_time at_zero.
Proof.
  apply (profile_is_complete three_commits at_zero three_result); [by vm_compute|].
  unfold three_result. assert (match commits three_commits (mkProfiled at_zero new_PerThreadTime) with Ok _ => true | Err _ => false end = true) as E by by vm_compute.
  by destruct (commits three_commits (mkProfiled at_zero new_PerThreadTime)).
Defined.

End TimeLogger.
