(* ===== verification/Statistics.v ===== *)
(** * State codes and the accounting of state transitions

    The codes of Constants.h, the per-thread counters of
    src/src/vex/threads/Statistics.h and Statistics.cpp, and their aggregate
    over all threads in AggregateStateCounters.cpp. *)
From S2P Require Import Prelude.

Module VexThreadStates.

Inductive Code :=
| UNKNOWN_STATE | RUNNING | WAITING | SUSPENDED | LEARNING_IO | IN_IO | TIMED_WAITING
| IN_NATIVE | IN_MODEL | REGISTERING | SUSPENDED_SELF | NATIVE_WAITING | IN_IO_STALE
| NATIVE_IO_WAITING | IN_IO_INVALIDATION | RECOVERED_AFTER_FAILED_IO | AWAKING_FROM_WAITING
| WAITING_INTERNAL_SOCKET_READ | VEX_ZOMBIE | CUSTOM1 | CUSTOM2 | CUSTOM3 | IN_MODEL_WAITING
| AFTER_MODEL_SIM_WAITING_FOR_REAL_CODE | IN_SYSTEM_CALL.

#[export] Instance Code_eq_dec : EqDecision Code.
Proof. solve_decision. Defined.

(** The values of the enumeration. *)
Definition code (c : Code) : nat :=
  match c with
  | UNKNOWN_STATE => 0 | RUNNING => 1 | WAITING => 2 | SUSPENDED => 3 | LEARNING_IO => 4
  | IN_IO => 5 | TIMED_WAITING => 6 | IN_NATIVE => 7 | IN_MODEL => 8 | REGISTERING => 9
  | SUSPENDED_SELF => 10 | NATIVE_WAITING => 11 | IN_IO_STALE => 12 | NATIVE_IO_WAITING => 13
  | IN_IO_INVALIDATION => 14 | RECOVERED_AFTER_FAILED_IO => 15 | AWAKING_FROM_WAITING => 16
  | WAITING_INTERNAL_SOCKET_READ => 17 | VEX_ZOMBIE => 18 | CUSTOM1 => 19 | CUSTOM2 => 20
  | CUSTOM3 => 21 | IN_MODEL_WAITING => 22 | AFTER_MODEL_SIM_WAITING_FOR_REAL_CODE => 23
  | IN_SYSTEM_CALL => 24
  end.

End VexThreadStates.
Export VexThreadStates.

Definition POSSIBLE_THREADSTATES : nat := 25.

Lemma code_lt c : (code c < POSSIBLE_THREADSTATES)%nat.
Proof. unfold POSSIBLE_THREADSTATES. destruct c; cbn; lia. Qed.

Lemma code_inj c d : code c = code d -> c = d.
Proof. by destruct c, d. Qed.

(** ** Statistics *)
Module Statistics.

Record Statistics := mkStatistics {
  totalTimePerState : list Z;
  invocationPoints : Z;
  stateTransitions : list (list Z);
}.

Definition new_Statistics : Statistics :=
  mkStatistics (replicate POSSIBLE_THREADSTATES 0) 0
    (replicate POSSIBLE_THREADSTATES (replicate POSSIBLE_THREADSTATES 0)).

Definition clearTransitionCounters (s : Statistics) : Statistics :=
  mkStatistics (replicate POSSIBLE_THREADSTATES 0) s.(invocationPoints)
    (replicate POSSIBLE_THREADSTATES (replicate POSSIBLE_THREADSTATES 0)).

Definition cell (m : list (list Z)) (i j : nat) : Z := nthd (nthd m i) j.
Definition set_cell (m : list (list Z)) (i j : nat) (v : Z) : list (list Z) :=
  <[i := <[j := v]> (nthd m i)]> m.

Definition logTransition (currentState nextState : nat) (s : Statistics) : Statistics :=
  mkStatistics s.(totalTimePerState) s.(invocationPoints)
    (set_cell s.(stateTransitions) currentState nextState
       (uint_add (cell s.(stateTransitions) currentState nextState) 1)).

Definition logTimedTransition (currentState nextState : nat) (durationOfLastState : Z)
    (s : Statistics) : Statistics :=
  logTransition currentState nextState
    (mkStatistics
       (<[currentState := nthd s.(totalTimePerState) currentState +ll durationOfLastState]>
          s.(totalTimePerState))
       s.(invocationPoints) s.(stateTransitions)).

Definition setInvocationPoints (points : Z) (s : Statistics) : Statistics :=
  mkStatistics s.(totalTimePerState) points s.(stateTransitions).
Definition addInvocationPoints (s : Statistics) : Statistics :=
  setInvocationPoints (ulong_add s.(invocationPoints) 1) s.

Record shaped (s : Statistics) : Prop := {
  shaped_times : length s.(totalTimePerState) = POSSIBLE_THREADSTATES;
  shaped_rows : length s.(stateTransitions) = POSSIBLE_THREADSTATES;
  shaped_cols : forall i, (i < POSSIBLE_THREADSTATES)%nat ->
    length (nthd s.(stateTransitions) i) = POSSIBLE_THREADSTATES;
}.

Lemma shaped_clear s : shaped (clearTransitionCounters s).
Proof.
  split; [reflexivity..|]. intros i Hi. cbn -[replicate]. unfold nthd.
  by rewrite lookup_replicate_2.
Qed.

Lemma shaped_new : shaped new_Statistics.
Proof. apply (shaped_clear new_Statistics). Qed.

Lemma cell_set_cell m i j i' j' v :
  (i < length m)%nat -> (j < length (nthd m i))%nat ->
  cell (set_cell m i j v) i' j' =
    if decide (i = i' /\ j = j') then v else cell m i' j'.
Proof.
  intros Hi Hj. unfold cell, set_cell. rewrite nthd_insert by done.
  destruct (decide (i = i')) as [->|].
  - rewrite nthd_insert by done. repeat case_decide; tauto.
  - rewrite decide_False by tauto. done.
Qed.

Lemma shaped_log i j d s : (i < POSSIBLE_THREADSTATES)%nat -> (j < POSSIBLE_THREADSTATES)%nat ->
  shaped s -> shaped (logTimedTransition i j d s).
Proof.
  intros Hi Hj [Ht Hr Hc]. split; cbn; unfold set_cell; rewrite ?length_insert; [done..|].
  intros k Hk. rewrite nthd_insert by lia. case_decide; subst; auto.
  rewrite length_insert. auto.
Qed.

Lemma shaped_log_only i j s : (i < POSSIBLE_THREADSTATES)%nat -> (j < POSSIBLE_THREADSTATES)%nat ->
  shaped s -> shaped (logTransition i j s).
Proof.
  intros Hi Hj [Ht Hr Hc]. split; cbn; unfold set_cell; rewrite ?length_insert; [done..|].
  intros k Hk. rewrite nthd_insert by lia. case_decide; subst; auto.
  rewrite length_insert. auto.
Qed.

(** *** Transitions out of and into a state *)
Definition out_of (m : list (list Z)) (i : nat) : Z := sum_of id (nthd m i).
Definition into (m : list (list Z)) (j : nat) : Z := sum_of (fun row => nthd row j) m.

Lemma sum_of_insert_nthd (l : list Z) i v : (i < length l)%nat ->
  sum_of id (<[i:=v]> l) = sum_of id l - nthd l i + v.
Proof. intros Hi. by rewrite (sum_of_insert id l i (nthd l i) v) by (by apply nthd_lookup). Qed.

Lemma out_of_set_cell m i j v k :
  (i < length m)%nat -> (j < length (nthd m i))%nat ->
  out_of (set_cell m i j v) k = out_of m k + if decide (i = k) then v - cell m i j else 0.
Proof.
  intros Hi Hj. unfold out_of, set_cell. rewrite nthd_insert by done. case_decide; subst; [|lia].
  rewrite sum_of_insert_nthd by done. unfold cell. lia.
Qed.

Lemma into_set_cell m i j v k :
  (i < length m)%nat -> (j < length (nthd m i))%nat ->
  into (set_cell m i j v) k = into m k + if decide (j = k) then v - cell m i j else 0.
Proof.
  intros Hi Hj. unfold into, set_cell.
  rewrite (sum_of_insert _ m i (nthd m i)) by (by apply nthd_lookup).
  rewrite nthd_insert by done. unfold cell. case_decide; subst; lia.
Qed.

(** What one timed transition does to the counters, in the counters' width. *)
Lemma log_time_total i j d s : shaped s -> (i < POSSIBLE_THREADSTATES)%nat ->
  exists q, sum_of id (logTimedTransition i j d s).(totalTimePerState)
    = sum_of id s.(totalTimePerState) + d + q * 2 ^ 64.
Proof.
  intros [Ht _ _] Hi. unfold logTimedTransition, logTransition. cbn [totalTimePerState]. rewrite sum_of_insert_nthd by lia. unfold ll_add.
  match goal with |- context [ll ?x] => destruct (ll_spec x) as [q ->] end. exists q. lia.
Qed.

Lemma log_only_flow i j s k : shaped s -> (i < POSSIBLE_THREADSTATES)%nat -> (j < POSSIBLE_THREADSTATES)%nat ->
  let m := s.(stateTransitions) in let m' := (logTransition i j s).(stateTransitions) in
  exists q, out_of m' k - into m' k =
    out_of m k - into m k + (if decide (i = k) then 1 else 0) - (if decide (j = k) then 1 else 0)
    + q * 2 ^ 32.
Proof.
  intros [_ Hr Hc] Hi Hj m m'. subst m m'. unfold logTransition. cbn [stateTransitions].
  rewrite out_of_set_cell, into_set_cell by (rewrite ?Hc; lia).
  destruct (uwrap_spec 32 (cell (stateTransitions s) i j + 1)) as [q Hq]; [lia|].
  unfold uint_add. rewrite Hq.
  exists ((if decide (i = k) then q else 0) - (if decide (j = k) then q else 0)).
  repeat case_decide; lia.
Qed.

Lemma log_flow i j d s k : shaped s -> (i < POSSIBLE_THREADSTATES)%nat -> (j < POSSIBLE_THREADSTATES)%nat ->
  let m := s.(stateTransitions) in let m' := (logTimedTransition i j d s).(stateTransitions) in
  exists q, out_of m' k - into m' k =
    out_of m k - into m k + (if decide (i = k) then 1 else 0) - (if decide (j = k) then 1 else 0)
    + q * 2 ^ 32.
Proof.
  intros [Ht Hr Hc] Hi Hj. unfold logTimedTransition. match goal with |- context [logTransition i j ?x] => set (s1 := x) end.
  apply (log_only_flow i j s1 k); [|done..]. split; [cbn; by rewrite length_insert|done..].
Qed.

End Statistics.

(** ** AggregateStateCounters *)
Module AggregateStateCounters.
Import Statistics.

Record AggregateStateCounters := mkAggregate {
  totalInvocationPoints : Z;
  aggregateStateTransitions : list (list Z);
  aggregateTotalTimePerState : list Z;
}.

Definition new_AggregateStateCounters : AggregateStateCounters :=
  mkAggregate 0 (replicate POSSIBLE_THREADSTATES (replicate POSSIBLE_THREADSTATES 0))
    (replicate POSSIBLE_THREADSTATES 0).

Definition addTransitionsOf (s : Statistics) (a : AggregateStateCounters) : AggregateStateCounters :=
  mkAggregate (ulong_add a.(totalInvocationPoints) s.(invocationPoints))
    (zip_with (zip_with uint_add) a.(aggregateStateTransitions) s.(stateTransitions))
    (zip_with ll_add a.(aggregateTotalTimePerState) s.(totalTimePerState)).

(** [clear] leaves the total of the invocation points alone. *)
Definition clear (a : AggregateStateCounters) : AggregateStateCounters :=
  mkAggregate a.(totalInvocationPoints)
    (replicate POSSIBLE_THREADSTATES (replicate POSSIBLE_THREADSTATES 0))
    (replicate POSSIBLE_THREADSTATES 0).

(** The occurrences of a state that [printTransitionMapAndGraph] reports: the
    transitions into it. *)
Definition totalOccurencesPerState (a : AggregateStateCounters) (i : nat) : Z :=
  foldl (fun n j => int_add n (cell a.(aggregateStateTransitions) j i)) 0
    (seq 0 POSSIBLE_THREADSTATES).

(** The total of the times of all states starts at 1, so that the percentages
    can be taken. *)
Definition totalTimeInAllStates (a : AggregateStateCounters) : Z :=
  foldl (fun n i => n +ll nthd a.(aggregateTotalTimePerState) i) 1 (seq 0 POSSIBLE_THREADSTATES).

Record shaped (a : AggregateStateCounters) : Prop := {
  ashaped_times : length a.(aggregateTotalTimePerState) = POSSIBLE_THREADSTATES;
  ashaped_rows : length a.(aggregateStateTransitions) = POSSIBLE_THREADSTATES;
  ashaped_cols : forall i, (i < POSSIBLE_THREADSTATES)%nat ->
    length (nthd a.(aggregateStateTransitions) i) = POSSIBLE_THREADSTATES;
}.

Lemma nthd_zip_with {A B C} `{Inhabited A, Inhabited B, Inhabited C} (f : A -> B -> C) l k i :
  (i < length l)%nat -> (i < length k)%nat -> nthd (zip_with f l k) i = f (nthd l i) (nthd k i).
Proof.
  intros Hl Hk. unfold nthd at 1. rewrite lookup_zip_with.
  by rewrite (nthd_lookup l), (nthd_lookup k).
Qed.

Lemma shaped_add s a : Statistics.shaped s -> shaped a -> shaped (addTransitionsOf s a).
Proof.
  intros [Hst Hsr Hsc] [Hat Har Hac]. split; cbn; rewrite ?length_zip_with; [lia..|].
  intros i Hi. rewrite nthd_zip_with by lia. rewrite length_zip_with, Hsc, Hac by done. lia.
Qed.

Lemma aggregate_shaped_new : shaped new_AggregateStateCounters.
Proof.
  split; [reflexivity..|]. intros i Hi. cbn -[replicate]. unfold nthd.
  by rewrite lookup_replicate_2.
Qed.

Lemma cell_add s a i j : Statistics.shaped s -> shaped a ->
  (i < POSSIBLE_THREADSTATES)%nat -> (j < POSSIBLE_THREADSTATES)%nat ->
  cell (addTransitionsOf s a).(aggregateStateTransitions) i j =
    uint_add (cell a.(aggregateStateTransitions) i j) (cell s.(stateTransitions) i j).
Proof.
  intros [Hst Hsr Hsc] [Hat Har Hac] Hi Hj. unfold cell. cbn.
  rewrite nthd_zip_with by lia. by rewrite nthd_zip_with by (rewrite ?Hac, ?Hsc; lia).
Qed.

Lemma shaped_sum ss a : Forall Statistics.shaped ss -> shaped a ->
  shaped (foldl (fun a s => addTransitionsOf s a) a ss).
Proof. intros Hss. revert a. induction Hss; intros a Ha; cbn; auto using shaped_add. Qed.

(** The aggregate of the counters of any number of threads is their sum:
    after the threads' counters are added, in any order, every transition
    counter, every time and the invocation points are the sum over the
    threads, taken in the width of the counter. *)
Theorem aggregate_is_sum (ss : list Statistics) i j :
  Forall Statistics.shaped ss -> (i < POSSIBLE_THREADSTATES)%nat -> (j < POSSIBLE_THREADSTATES)%nat ->
  let a := foldl (fun a s => addTransitionsOf s a) new_AggregateStateCounters ss in
  cell a.(aggregateStateTransitions) i j
    = uwrap 32 (sum_of (fun s => cell s.(stateTransitions) i j) ss) /\
  nthd a.(aggregateTotalTimePerState) i
    = ll (sum_of (fun s => nthd s.(totalTimePerState) i) ss) /\
  a.(totalInvocationPoints) = uwrap 64 (sum_of invocationPoints ss).
Proof.
  intros Hss Hi Hj. cbn zeta. induction ss as [|s ss IH] using rev_ind.
  { cbn -[replicate]. unfold cell, nthd. rewrite !lookup_replicate_2 by done.
    cbn [default from_option id]. rewrite lookup_replicate_2 by done. split_and!; reflexivity. }
  apply Forall_app in Hss as [Hss Hs]. rewrite Forall_singleton in Hs.
  specialize (IH Hss) as (H1&H2&H3). rewrite foldl_app. cbn [foldl].
  set (a := foldl _ _ ss) in *.
  assert (shaped a) as Ha.
  { apply shaped_sum; [done|apply aggregate_shaped_new]. }
  rewrite !sum_of_app. split_and!.
  - rewrite cell_add; [|done..]. rewrite H1. unfold uint_add, uwrap, sum_of. cbn.
    rewrite Zplus_mod_idemp_l. f_equal. lia.
  - destruct Ha as [Ha _ _], Hs as [Hs _ _]. cbn. rewrite nthd_zip_with, H2 by lia.
    unfold ll_add, ll, sum_of. rewrite wrap_add_l. f_equal. cbn. lia.
  - cbn. rewrite H3. unfold ulong_add, uwrap, sum_of. rewrite Zplus_mod_idemp_l. f_equal. cbn. lia.
Qed.

Lemma aggregate_is_sum_witness :
  let s := logTimedTransition 1 2 5 new_Statistics in
  let a := foldl (fun a s => addTransitionsOf s a) new_AggregateStateCounters [s; s] in
  cell a.(aggregateStateTransitions) 1 2 = uwrap 32 2 /\
  nthd a.(aggregateTotalTimePerState) 1 = ll 10 /\ a.(totalInvocationPoints) = uwrap 64 0.
Proof.
  apply (aggregate_is_sum [logTimedTransition 1 2 5 new_Statistics; logTimedTransition 1 2 5 new_Statistics] 1 2);
    [|unfold POSSIBLE_THREADSTATES; lia..].
  repeat constructor; apply shaped_log; unfold POSSIBLE_THREADSTATES; try lia; apply Statistics.shaped_new.
Defined.

End AggregateStateCounters.
