(* ===== verification/ThreadParts.v ===== *)
(** * The parts of a thread's state

    The I/O, model-simulation and scheduling parts of a thread state:
    src/src/vex/threads/IoHandler.h and .cpp, ModelHandler.h and .cpp,
    Scheduling.h and .cpp.  The condition variables with which a scheduler and
    a thread wait for each other appear through the flags that they guard. *)
From S2P Require Import Prelude.

(** ** IoHandler *)
Module IoHandler.

Record IoHandler := mkIoHandler {
  timesIoPredictionWasAddedToEstimatedTime : Z;
  stackDepth : Z;
  ioInvocationPointHashValue : Z;
  ioFinishedBeforeLogging : bool;
  lastIoPrediction : Z;
  stackTraceHash : Z;
  possiblyBlockingIo : bool;
  ignoringIo : bool;
  recognizingIoAsCached : bool;
  ioCpuTime : Z;
  lastIoPredictionMethod : option nat;
}.

Definition set_timesIoPredictionWasAddedToEstimatedTime (v : Z) (r : IoHandler) : IoHandler :=
  mkIoHandler v (r.(stackDepth)) (r.(ioInvocationPointHashValue)) (r.(ioFinishedBeforeLogging))
  (r.(lastIoPrediction)) (r.(stackTraceHash)) (r.(possiblyBlockingIo)) (r.(ignoringIo))
  (r.(recognizingIoAsCached)) (r.(ioCpuTime)) (r.(lastIoPredictionMethod)).
Definition set_stackDepth (v : Z) (r : IoHandler) : IoHandler := mkIoHandler
  (r.(timesIoPredictionWasAddedToEstimatedTime)) v (r.(ioInvocationPointHashValue))
  (r.(ioFinishedBeforeLogging)) (r.(lastIoPrediction)) (r.(stackTraceHash))
  (r.(possiblyBlockingIo)) (r.(ignoringIo)) (r.(recognizingIoAsCached)) (r.(ioCpuTime))
  (r.(lastIoPredictionMethod)).
Definition set_ioInvocationPointHashValue (v : Z) (r : IoHandler) : IoHandler := mkIoHandler
  (r.(timesIoPredictionWasAddedToEstimatedTime)) (r.(stackDepth)) v (r.(ioFinishedBeforeLogging))
  (r.(lastIoPrediction)) (r.(stackTraceHash)) (r.(possiblyBlockingIo)) (r.(ignoringIo))
  (r.(recognizingIoAsCached)) (r.(ioCpuTime)) (r.(lastIoPredictionMethod)).
Definition set_ioFinishedBeforeLogging (v : bool) (r : IoHandler) : IoHandler := mkIoHandler
  (r.(timesIoPredictionWasAddedToEstimatedTime)) (r.(stackDepth)) (r.(ioInvocationPointHashValue))
  v (r.(lastIoPrediction)) (r.(stackTraceHash)) (r.(possiblyBlockingIo)) (r.(ignoringIo))
  (r.(recognizingIoAsCached)) (r.(ioCpuTime)) (r.(lastIoPredictionMethod)).
Definition set_lastIoPrediction (v : Z) (r : IoHandler) : IoHandler := mkIoHandler
  (r.(timesIoPredictionWasAddedToEstimatedTime)) (r.(stackDepth)) (r.(ioInvocationPointHashValue))
  (r.(ioFinishedBeforeLogging)) v (r.(stackTraceHash)) (r.(possiblyBlockingIo)) (r.(ignoringIo))
  (r.(recognizingIoAsCached)) (r.(ioCpuTime)) (r.(lastIoPredictionMethod)).
Definition set_stackTraceHash (v : Z) (r : IoHandler) : IoHandler := mkIoHandler
  (r.(timesIoPredictionWasAddedToEstimatedTime)) (r.(stackDepth)) (r.(ioInvocationPointHashValue))
  (r.(ioFinishedBeforeLogging)) (r.(lastIoPrediction)) v (r.(possiblyBlockingIo)) (r.(ignoringIo))
  (r.(recognizingIoAsCached)) (r.(ioCpuTime)) (r.(lastIoPredictionMethod)).
Definition set_possiblyBlockingIo (v : bool) (r : IoHandler) : IoHandler := mkIoHandler
  (r.(timesIoPredictionWasAddedToEstimatedTime)) (r.(stackDepth)) (r.(ioInvocationPointHashValue))
  (r.(ioFinishedBeforeLogging)) (r.(lastIoPrediction)) (r.(stackTraceHash)) v (r.(ignoringIo))
  (r.(recognizingIoAsCached)) (r.(ioCpuTime)) (r.(lastIoPredictionMethod)).
Definition set_ignoringIo (v : bool) (r : IoHandler) : IoHandler := mkIoHandler
  (r.(timesIoPredictionWasAddedToEstimatedTime)) (r.(stackDepth)) (r.(ioInvocationPointHashValue))
  (r.(ioFinishedBeforeLogging)) (r.(lastIoPrediction)) (r.(stackTraceHash))
  (r.(possiblyBlockingIo)) v (r.(recognizingIoAsCached)) (r.(ioCpuTime))
  (r.(lastIoPredictionMethod)).
Definition set_recognizingIoAsCached (v : bool) (r : IoHandler) : IoHandler := mkIoHandler
  (r.(timesIoPredictionWasAddedToEstimatedTime)) (r.(stackDepth)) (r.(ioInvocationPointHashValue))
  (r.(ioFinishedBeforeLogging)) (r.(lastIoPrediction)) (r.(stackTraceHash))
  (r.(possiblyBlockingIo)) (r.(ignoringIo)) v (r.(ioCpuTime)) (r.(lastIoPredictionMethod)).
Definition set_ioCpuTime (v : Z) (r : IoHandler) : IoHandler := mkIoHandler
  (r.(timesIoPredictionWasAddedToEstimatedTime)) (r.(stackDepth)) (r.(ioInvocationPointHashValue))
  (r.(ioFinishedBeforeLogging)) (r.(lastIoPrediction)) (r.(stackTraceHash))
  (r.(possiblyBlockingIo)) (r.(ignoringIo)) (r.(recognizingIoAsCached)) v
  (r.(lastIoPredictionMethod)).
Definition set_lastIoPredictionMethod (v : option nat) (r : IoHandler) : IoHandler := mkIoHandler
  (r.(timesIoPredictionWasAddedToEstimatedTime)) (r.(stackDepth)) (r.(ioInvocationPointHashValue))
  (r.(ioFinishedBeforeLogging)) (r.(lastIoPrediction)) (r.(stackTraceHash))
  (r.(possiblyBlockingIo)) (r.(ignoringIo)) (r.(recognizingIoAsCached)) (r.(ioCpuTime)) v.

(** The fields the constructor leaves alone are taken as zero. *)
Definition new_IoHandler : IoHandler := mkIoHandler 1 0 0 false 0 0 false false false 0 None.

Definition invalidIoInvocationPoint (invocationPointHashValue : Z) (h : IoHandler) : bool :=
  (h.(stackDepth) =? 0) && negb (invocationPointHashValue =? 1).
Definition invalidOwnIoInvocationPoint (h : IoHandler) : bool :=
  invalidIoInvocationPoint h.(ioInvocationPointHashValue) h.

Definition addPredictionToEstimatedRealTime (h : IoHandler) : IoHandler :=
  set_timesIoPredictionWasAddedToEstimatedTime 1 h.

Definition ignoreNextIo (h : IoHandler) := set_ignoringIo true h.
Definition recognizedCallAsCached (h : IoHandler) := set_recognizingIoAsCached true h.
Definition resetIoStateFlags (h : IoHandler) :=
  set_ignoringIo false (set_recognizingIoAsCached false h).

Definition enteringMethod (methodId : Z) (h : IoHandler) : IoHandler :=
  set_stackTraceHash (int_add h.(stackTraceHash) methodId)
    (set_stackDepth (uint_add h.(stackDepth) 1) h).
Definition exitingMethod (methodId : Z) (h : IoHandler) : IoHandler :=
  set_stackTraceHash (int_sub h.(stackTraceHash) methodId)
    (set_stackDepth (uint_sub h.(stackDepth) 1) h).

Definition setIoPredictionInfo (m : option nat) (prediction : Z) (h : IoHandler) : IoHandler :=
  set_lastIoPrediction prediction (set_lastIoPredictionMethod m h).

Definition notifyAboutPossiblyBlockingIo (b : bool) (h : IoHandler) := set_possiblyBlockingIo b h.

(** [unsigned long] times [long long]: the product is taken modulo 2^64 and
    read back as a [long long]. *)
Definition extendPredictionPeriod (h : IoHandler) : Z * IoHandler :=
  let times := uwrap 64 (h.(timesIoPredictionWasAddedToEstimatedTime) * 2) in
  (ll (times * h.(lastIoPrediction)), set_timesIoPredictionWasAddedToEstimatedTime times h).

Definition getTotalTimePredicted (h : IoHandler) : Z :=
  ll (uwrap 64 (2 * h.(timesIoPredictionWasAddedToEstimatedTime) - 1) * h.(lastIoPrediction)).

End IoHandler.

(** ** ModelHandler

    What entering a node of the queueing network does is the node's code; it
    is the argument [enter] of the simulation loop in ThreadState.v. *)
Module ModelHandler.

Record ModelHandler := mkModelHandler {
  currentNode : option nat;
  modelCustomer : option nat;
  remainingLocalResourceConsumption : Z;
}.

Definition new_ModelHandler : ModelHandler := mkModelHandler None None 0.

Definition setCurrentNode (n : option nat) (h : ModelHandler) : ModelHandler :=
  mkModelHandler n h.(modelCustomer) h.(remainingLocalResourceConsumption).
Definition setCustomer (c : option nat) (h : ModelHandler) : ModelHandler :=
  mkModelHandler h.(currentNode) c h.(remainingLocalResourceConsumption).
Definition initiateLocalResourceConsumption (totalTime : Z) (h : ModelHandler) : ModelHandler :=
  mkModelHandler h.(currentNode) h.(modelCustomer) totalTime.

(** The time simulated, 0 when no local consumption is pending. *)
Definition simulateLocalServiceTime (remainingTimeslotTime : Z) (h : ModelHandler)
    : Z * ModelHandler :=
  let r := h.(remainingLocalResourceConsumption) in
  if r =? 0 then (0, h)
  else if r <=? remainingTimeslotTime then (r, initiateLocalResourceConsumption 0 h)
  else (remainingTimeslotTime,
        initiateLocalResourceConsumption (r -ll remainingTimeslotTime) h).

End ModelHandler.

(** ** Scheduling *)
Module Scheduling.

Inductive suspend_flag := CLEAR_SUSPENDFLAG | TO_BE_SUSPENDED | TO_KEEP_ON_RUNNING
  | TO_BE_DISREGARDED | RESUMING_SUSPENDFLAG.

#[export] Instance suspend_flag_eq_dec : EqDecision suspend_flag.
Proof. solve_decision. Defined.

Definition MAXIMUM_CONSECUTIVE_TIMESLICES_AS_NATIVE_WAITING : Z := 5.

(** The two managers are named by their identifiers. *)
Record Scheduling := mkScheduling {
  localManagerId : nat;
  threadCurrentlyControllingManager : option nat;
  previouslyControllingManager : option nat;
  forceSuspend : bool;
  inVex : bool;
  awakeningFromJoin : bool;
  suspendFlag : suspend_flag;
  vtfInvocationsSinceLastResume : Z;
  waitingInNativeVTFcode : Z;
  awaken : bool;
  simulatingModel : bool;
  currentlyPolledForWhetherItIsNativeWaiting : bool;
  consecutiveTimeslots : Z;
  consecutiveTimesFoundNativeWaiting : Z;
  doNotSuspendUntil : Z;
}.

Definition set_localManagerId (v : nat) (r : Scheduling) : Scheduling := mkScheduling v
  (r.(threadCurrentlyControllingManager)) (r.(previouslyControllingManager)) (r.(forceSuspend))
  (r.(inVex)) (r.(awakeningFromJoin)) (r.(suspendFlag)) (r.(vtfInvocationsSinceLastResume))
  (r.(waitingInNativeVTFcode)) (r.(awaken)) (r.(simulatingModel))
  (r.(currentlyPolledForWhetherItIsNativeWaiting)) (r.(consecutiveTimeslots))
  (r.(consecutiveTimesFoundNativeWaiting)) (r.(doNotSuspendUntil)).
Definition set_threadCurrentlyControllingManager (v : option nat) (r : Scheduling) : Scheduling :=
  mkScheduling (r.(localManagerId)) v (r.(previouslyControllingManager)) (r.(forceSuspend))
  (r.(inVex)) (r.(awakeningFromJoin)) (r.(suspendFlag)) (r.(vtfInvocationsSinceLastResume))
  (r.(waitingInNativeVTFcode)) (r.(awaken)) (r.(simulatingModel))
  (r.(currentlyPolledForWhetherItIsNativeWaiting)) (r.(consecutiveTimeslots))
  (r.(consecutiveTimesFoundNativeWaiting)) (r.(doNotSuspendUntil)).
Definition set_previouslyControllingManager (v : option nat) (r : Scheduling) : Scheduling :=
  mkScheduling (r.(localManagerId)) (r.(threadCurrentlyControllingManager)) v (r.(forceSuspend))
  (r.(inVex)) (r.(awakeningFromJoin)) (r.(suspendFlag)) (r.(vtfInvocationsSinceLastResume))
  (r.(waitingInNativeVTFcode)) (r.(awaken)) (r.(simulatingModel))
  (r.(currentlyPolledForWhetherItIsNativeWaiting)) (r.(consecutiveTimeslots))
  (r.(consecutiveTimesFoundNativeWaiting)) (r.(doNotSuspendUntil)).
Definition set_forceSuspend (v : bool) (r : Scheduling) : Scheduling := mkScheduling
  (r.(localManagerId)) (r.(threadCurrentlyControllingManager)) (r.(previouslyControllingManager))
  v (r.(inVex)) (r.(awakeningFromJoin)) (r.(suspendFlag)) (r.(vtfInvocationsSinceLastResume))
  (r.(waitingInNativeVTFcode)) (r.(awaken)) (r.(simulatingModel))
  (r.(currentlyPolledForWhetherItIsNativeWaiting)) (r.(consecutiveTimeslots))
  (r.(consecutiveTimesFoundNativeWaiting)) (r.(doNotSuspendUntil)).
Definition set_inVex (v : bool) (r : Scheduling) : Scheduling := mkScheduling (r.(localManagerId))
  (r.(threadCurrentlyControllingManager)) (r.(previouslyControllingManager)) (r.(forceSuspend)) v
  (r.(awakeningFromJoin)) (r.(suspendFlag)) (r.(vtfInvocationsSinceLastResume))
  (r.(waitingInNativeVTFcode)) (r.(awaken)) (r.(simulatingModel))
  (r.(currentlyPolledForWhetherItIsNativeWaiting)) (r.(consecutiveTimeslots))
  (r.(consecutiveTimesFoundNativeWaiting)) (r.(doNotSuspendUntil)).
Definition set_awakeningFromJoin (v : bool) (r : Scheduling) : Scheduling := mkScheduling
  (r.(localManagerId)) (r.(threadCurrentlyControllingManager)) (r.(previouslyControllingManager))
  (r.(forceSuspend)) (r.(inVex)) v (r.(suspendFlag)) (r.(vtfInvocationsSinceLastResume))
  (r.(waitingInNativeVTFcode)) (r.(awaken)) (r.(simulatingModel))
  (r.(currentlyPolledForWhetherItIsNativeWaiting)) (r.(consecutiveTimeslots))
  (r.(consecutiveTimesFoundNativeWaiting)) (r.(doNotSuspendUntil)).
Definition set_suspendFlag (v : suspend_flag) (r : Scheduling) : Scheduling := mkScheduling
  (r.(localManagerId)) (r.(threadCurrentlyControllingManager)) (r.(previouslyControllingManager))
  (r.(forceSuspend)) (r.(inVex)) (r.(awakeningFromJoin)) v (r.(vtfInvocationsSinceLastResume))
  (r.(waitingInNativeVTFcode)) (r.(awaken)) (r.(simulatingModel))
  (r.(currentlyPolledForWhetherItIsNativeWaiting)) (r.(consecutiveTimeslots))
  (r.(consecutiveTimesFoundNativeWaiting)) (r.(doNotSuspendUntil)).
Definition set_vtfInvocationsSinceLastResume (v : Z) (r : Scheduling) : Scheduling := mkScheduling
  (r.(localManagerId)) (r.(threadCurrentlyControllingManager)) (r.(previouslyControllingManager))
  (r.(forceSuspend)) (r.(inVex)) (r.(awakeningFromJoin)) (r.(suspendFlag)) v
  (r.(waitingInNativeVTFcode)) (r.(awaken)) (r.(simulatingModel))
  (r.(currentlyPolledForWhetherItIsNativeWaiting)) (r.(consecutiveTimeslots))
  (r.(consecutiveTimesFoundNativeWaiting)) (r.(doNotSuspendUntil)).
Definition set_waitingInNativeVTFcode (v : Z) (r : Scheduling) : Scheduling := mkScheduling
  (r.(localManagerId)) (r.(threadCurrentlyControllingManager)) (r.(previouslyControllingManager))
  (r.(forceSuspend)) (r.(inVex)) (r.(awakeningFromJoin)) (r.(suspendFlag))
  (r.(vtfInvocationsSinceLastResume)) v (r.(awaken)) (r.(simulatingModel))
  (r.(currentlyPolledForWhetherItIsNativeWaiting)) (r.(consecutiveTimeslots))
  (r.(consecutiveTimesFoundNativeWaiting)) (r.(doNotSuspendUntil)).
Definition set_awaken (v : bool) (r : Scheduling) : Scheduling := mkScheduling
  (r.(localManagerId)) (r.(threadCurrentlyControllingManager)) (r.(previouslyControllingManager))
  (r.(forceSuspend)) (r.(inVex)) (r.(awakeningFromJoin)) (r.(suspendFlag))
  (r.(vtfInvocationsSinceLastResume)) (r.(waitingInNativeVTFcode)) v (r.(simulatingModel))
  (r.(currentlyPolledForWhetherItIsNativeWaiting)) (r.(consecutiveTimeslots))
  (r.(consecutiveTimesFoundNativeWaiting)) (r.(doNotSuspendUntil)).
Definition set_simulatingModel (v : bool) (r : Scheduling) : Scheduling := mkScheduling
  (r.(localManagerId)) (r.(threadCurrentlyControllingManager)) (r.(previouslyControllingManager))
  (r.(forceSuspend)) (r.(inVex)) (r.(awakeningFromJoin)) (r.(suspendFlag))
  (r.(vtfInvocationsSinceLastResume)) (r.(waitingInNativeVTFcode)) (r.(awaken)) v
  (r.(currentlyPolledForWhetherItIsNativeWaiting)) (r.(consecutiveTimeslots))
  (r.(consecutiveTimesFoundNativeWaiting)) (r.(doNotSuspendUntil)).
Definition set_currentlyPolledForWhetherItIsNativeWaiting (v : bool) (r : Scheduling) : Scheduling
  := mkScheduling (r.(localManagerId)) (r.(threadCurrentlyControllingManager))
  (r.(previouslyControllingManager)) (r.(forceSuspend)) (r.(inVex)) (r.(awakeningFromJoin))
  (r.(suspendFlag)) (r.(vtfInvocationsSinceLastResume)) (r.(waitingInNativeVTFcode)) (r.(awaken))
  (r.(simulatingModel)) v (r.(consecutiveTimeslots)) (r.(consecutiveTimesFoundNativeWaiting))
  (r.(doNotSuspendUntil)).
Definition set_consecutiveTimeslots (v : Z) (r : Scheduling) : Scheduling := mkScheduling
  (r.(localManagerId)) (r.(threadCurrentlyControllingManager)) (r.(previouslyControllingManager))
  (r.(forceSuspend)) (r.(inVex)) (r.(awakeningFromJoin)) (r.(suspendFlag))
  (r.(vtfInvocationsSinceLastResume)) (r.(waitingInNativeVTFcode)) (r.(awaken))
  (r.(simulatingModel)) (r.(currentlyPolledForWhetherItIsNativeWaiting)) v
  (r.(consecutiveTimesFoundNativeWaiting)) (r.(doNotSuspendUntil)).
Definition set_consecutiveTimesFoundNativeWaiting (v : Z) (r : Scheduling) : Scheduling :=
  mkScheduling (r.(localManagerId)) (r.(threadCurrentlyControllingManager))
  (r.(previouslyControllingManager)) (r.(forceSuspend)) (r.(inVex)) (r.(awakeningFromJoin))
  (r.(suspendFlag)) (r.(vtfInvocationsSinceLastResume)) (r.(waitingInNativeVTFcode)) (r.(awaken))
  (r.(simulatingModel)) (r.(currentlyPolledForWhetherItIsNativeWaiting))
  (r.(consecutiveTimeslots)) v (r.(doNotSuspendUntil)).
Definition set_doNotSuspendUntil (v : Z) (r : Scheduling) : Scheduling := mkScheduling
  (r.(localManagerId)) (r.(threadCurrentlyControllingManager)) (r.(previouslyControllingManager))
  (r.(forceSuspend)) (r.(inVex)) (r.(awakeningFromJoin)) (r.(suspendFlag))
  (r.(vtfInvocationsSinceLastResume)) (r.(waitingInNativeVTFcode)) (r.(awaken))
  (r.(simulatingModel)) (r.(currentlyPolledForWhetherItIsNativeWaiting))
  (r.(consecutiveTimeslots)) (r.(consecutiveTimesFoundNativeWaiting)) v.

(** A new thread is always suspended first: [forceSuspend]. *)
Definition new_Scheduling : Scheduling :=
  mkScheduling 0 None None true false false CLEAR_SUSPENDFLAG 0 0 false false false 0 0 0.

Definition lockShareResourceAccessKey (s : Scheduling) : Scheduling :=
  set_waitingInNativeVTFcode (int_add s.(waitingInNativeVTFcode) 1) s.

Definition flagThreadBeingCurrentlyPolledForNativeWaiting (s : Scheduling) :=
  set_currentlyPolledForWhetherItIsNativeWaiting true s.
Definition clearThreadBeingCurrentlyPolledForNativeWaiting (s : Scheduling) :=
  set_currentlyPolledForWhetherItIsNativeWaiting false s.

Definition exitingVex (s : Scheduling) := set_inVex false s.
Definition setAwaken (b : bool) (s : Scheduling) := set_awaken b s.
Definition setAwakeningFromJoin (b : bool) (s : Scheduling) := set_awakeningFromJoin b s.
Definition increaseVtfInvocationsSinceLastResume (s : Scheduling) :=
  set_vtfInvocationsSinceLastResume (s.(vtfInvocationsSinceLastResume) +ll 1) s.

Definition onThreadResumeByManager (controllingManagerId : nat) (s : Scheduling) : Scheduling :=
  set_consecutiveTimeslots 0
    (set_localManagerId controllingManagerId
      (set_vtfInvocationsSinceLastResume 0 (set_awaken true s))).

Definition setThreadCurrentlyControllingManager (m : option nat) (s : Scheduling) :=
  set_threadCurrentlyControllingManager m s.

Definition releaseThreadFromItsControllingManager (s : Scheduling) : Scheduling :=
  set_consecutiveTimesFoundNativeWaiting MAXIMUM_CONSECUTIVE_TIMESLICES_AS_NATIVE_WAITING
    (set_threadCurrentlyControllingManager None
      (set_previouslyControllingManager s.(threadCurrentlyControllingManager)
        (set_waitingInNativeVTFcode 0 s))).

Definition startSchedulerControlledModelSimulation (s : Scheduling) := set_simulatingModel true s.
Definition locklessNotifyModelSimulationEnd (s : Scheduling) := set_simulatingModel false s.
Definition notifyModelSimulationEnd (s : Scheduling) := set_simulatingModel false s.

Definition getAndResetForcedSuspendFlag (s : Scheduling) : bool * Scheduling :=
  (s.(forceSuspend), set_forceSuspend false s).
Definition forceThreadSuspend (s : Scheduling) := set_forceSuspend true s.

Definition isSuspendingAllowed (realNow : Z) (s : Scheduling) : bool :=
  s.(doNotSuspendUntil) <? realNow.
Definition haltSuspendForAwhile (realNow : Z) (s : Scheduling) : Scheduling :=
  set_doNotSuspendUntil (realNow +ll 3000000) s.

Definition notifySchedulerForIntention (i : suspend_flag) (s : Scheduling) := set_suspendFlag i s.

(** The scheduler waits while there is no intention, and takes it. *)
Definition getSuspendingThreadIntention (s : Scheduling) : option (suspend_flag * Scheduling) :=
  match s.(suspendFlag) with
  | CLEAR_SUSPENDFLAG => None
  | i => Some (i, set_suspendFlag CLEAR_SUSPENDFLAG s)
  end.

End Scheduling.
