(* ===== verification/ThreadState.v ===== *)
(** * The state of a thread

    VexThreadState, src/src/vex/threads/ThreadState.h and ThreadState.cpp: the
    state code and its predicates, the changes of state with their
    accounting, parking, the correction of an I/O prediction, the simulation
    of a queueing-network model within a timeslice, and the parsing of the
    operating system's view of the thread.  The locks of a thread are not part
    of its record: every operation below runs while its caller holds them. *)
From Stdlib Require Import String Ascii.
From S2P Require Import Prelude CxxFloat Timers Statistics ThreadParts.
Import Timers.

Module VexThreadState.

(** The thread owns its timers, handlers and counters. *)
Record VexThreadState := mkThreadState {
  currentState : Code;
  previousState : Code;
  timedWaitingObjectId : Z;
  timedOut : bool;
  waitingInRealTime : bool;
  alreadyUnparked : bool;
  parked : bool;
  afterInterruptedTimedParking : bool;
  inVex : bool;
  jthreadId : Z;
  timers : Timers;
  ioHandler : IoHandler.IoHandler;
  modelHandler : ModelHandler.ModelHandler;
  scheduling : Scheduling.Scheduling;
  stats : Statistics.Statistics;
}.

Definition set_currentState (v : Code) (r : VexThreadState) : VexThreadState := mkThreadState v
  (r.(previousState)) (r.(timedWaitingObjectId)) (r.(timedOut)) (r.(waitingInRealTime))
  (r.(alreadyUnparked)) (r.(parked)) (r.(afterInterruptedTimedParking)) (r.(inVex))
  (r.(jthreadId)) (r.(timers)) (r.(ioHandler)) (r.(modelHandler)) (r.(scheduling)) (r.(stats)).
Definition set_previousState (v : Code) (r : VexThreadState) : VexThreadState := mkThreadState
  (r.(currentState)) v (r.(timedWaitingObjectId)) (r.(timedOut)) (r.(waitingInRealTime))
  (r.(alreadyUnparked)) (r.(parked)) (r.(afterInterruptedTimedParking)) (r.(inVex))
  (r.(jthreadId)) (r.(timers)) (r.(ioHandler)) (r.(modelHandler)) (r.(scheduling)) (r.(stats)).
Definition set_timedWaitingObjectId (v : Z) (r : VexThreadState) : VexThreadState := mkThreadState
  (r.(currentState)) (r.(previousState)) v (r.(timedOut)) (r.(waitingInRealTime))
  (r.(alreadyUnparked)) (r.(parked)) (r.(afterInterruptedTimedParking)) (r.(inVex))
  (r.(jthreadId)) (r.(timers)) (r.(ioHandler)) (r.(modelHandler)) (r.(scheduling)) (r.(stats)).
Definition set_timedOut (v : bool) (r : VexThreadState) : VexThreadState := mkThreadState
  (r.(currentState)) (r.(previousState)) (r.(timedWaitingObjectId)) v (r.(waitingInRealTime))
  (r.(alreadyUnparked)) (r.(parked)) (r.(afterInterruptedTimedParking)) (r.(inVex))
  (r.(jthreadId)) (r.(timers)) (r.(ioHandler)) (r.(modelHandler)) (r.(scheduling)) (r.(stats)).
Definition set_waitingInRealTime (v : bool) (r : VexThreadState) : VexThreadState := mkThreadState
  (r.(currentState)) (r.(previousState)) (r.(timedWaitingObjectId)) (r.(timedOut)) v
  (r.(alreadyUnparked)) (r.(parked)) (r.(afterInterruptedTimedParking)) (r.(inVex))
  (r.(jthreadId)) (r.(timers)) (r.(ioHandler)) (r.(modelHandler)) (r.(scheduling)) (r.(stats)).
Definition set_alreadyUnparked (v : bool) (r : VexThreadState) : VexThreadState := mkThreadState
  (r.(currentState)) (r.(previousState)) (r.(timedWaitingObjectId)) (r.(timedOut))
  (r.(waitingInRealTime)) v (r.(parked)) (r.(afterInterruptedTimedParking)) (r.(inVex))
  (r.(jthreadId)) (r.(timers)) (r.(ioHandler)) (r.(modelHandler)) (r.(scheduling)) (r.(stats)).
Definition set_parked (v : bool) (r : VexThreadState) : VexThreadState := mkThreadState
  (r.(currentState)) (r.(previousState)) (r.(timedWaitingObjectId)) (r.(timedOut))
  (r.(waitingInRealTime)) (r.(alreadyUnparked)) v (r.(afterInterruptedTimedParking)) (r.(inVex))
  (r.(jthreadId)) (r.(timers)) (r.(ioHandler)) (r.(modelHandler)) (r.(scheduling)) (r.(stats)).
Definition set_afterInterruptedTimedParking (v : bool) (r : VexThreadState) : VexThreadState :=
  mkThreadState (r.(currentState)) (r.(previousState)) (r.(timedWaitingObjectId)) (r.(timedOut))
  (r.(waitingInRealTime)) (r.(alreadyUnparked)) (r.(parked)) v (r.(inVex)) (r.(jthreadId))
  (r.(timers)) (r.(ioHandler)) (r.(modelHandler)) (r.(scheduling)) (r.(stats)).
Definition set_inVex (v : bool) (r : VexThreadState) : VexThreadState := mkThreadState
  (r.(currentState)) (r.(previousState)) (r.(timedWaitingObjectId)) (r.(timedOut))
  (r.(waitingInRealTime)) (r.(alreadyUnparked)) (r.(parked)) (r.(afterInterruptedTimedParking)) v
  (r.(jthreadId)) (r.(timers)) (r.(ioHandler)) (r.(modelHandler)) (r.(scheduling)) (r.(stats)).
Definition set_jthreadId (v : Z) (r : VexThreadState) : VexThreadState := mkThreadState
  (r.(currentState)) (r.(previousState)) (r.(timedWaitingObjectId)) (r.(timedOut))
  (r.(waitingInRealTime)) (r.(alreadyUnparked)) (r.(parked)) (r.(afterInterruptedTimedParking))
  (r.(inVex)) v (r.(timers)) (r.(ioHandler)) (r.(modelHandler)) (r.(scheduling)) (r.(stats)).
Definition set_timers (v : Timers) (r : VexThreadState) : VexThreadState := mkThreadState
  (r.(currentState)) (r.(previousState)) (r.(timedWaitingObjectId)) (r.(timedOut))
  (r.(waitingInRealTime)) (r.(alreadyUnparked)) (r.(parked)) (r.(afterInterruptedTimedParking))
  (r.(inVex)) (r.(jthreadId)) v (r.(ioHandler)) (r.(modelHandler)) (r.(scheduling)) (r.(stats)).
Definition set_ioHandler (v : IoHandler.IoHandler) (r : VexThreadState) : VexThreadState :=
  mkThreadState (r.(currentState)) (r.(previousState)) (r.(timedWaitingObjectId)) (r.(timedOut))
  (r.(waitingInRealTime)) (r.(alreadyUnparked)) (r.(parked)) (r.(afterInterruptedTimedParking))
  (r.(inVex)) (r.(jthreadId)) (r.(timers)) v (r.(modelHandler)) (r.(scheduling)) (r.(stats)).
Definition set_modelHandler (v : ModelHandler.ModelHandler) (r : VexThreadState) : VexThreadState
  := mkThreadState (r.(currentState)) (r.(previousState)) (r.(timedWaitingObjectId))
  (r.(timedOut)) (r.(waitingInRealTime)) (r.(alreadyUnparked)) (r.(parked))
  (r.(afterInterruptedTimedParking)) (r.(inVex)) (r.(jthreadId)) (r.(timers)) (r.(ioHandler)) v
  (r.(scheduling)) (r.(stats)).
Definition set_scheduling (v : Scheduling.Scheduling) (r : VexThreadState) : VexThreadState :=
  mkThreadState (r.(currentState)) (r.(previousState)) (r.(timedWaitingObjectId)) (r.(timedOut))
  (r.(waitingInRealTime)) (r.(alreadyUnparked)) (r.(parked)) (r.(afterInterruptedTimedParking))
  (r.(inVex)) (r.(jthreadId)) (r.(timers)) (r.(ioHandler)) (r.(modelHandler)) v (r.(stats)).
Definition set_stats (v : Statistics.Statistics) (r : VexThreadState) : VexThreadState :=
  mkThreadState (r.(currentState)) (r.(previousState)) (r.(timedWaitingObjectId)) (r.(timedOut))
  (r.(waitingInRealTime)) (r.(alreadyUnparked)) (r.(parked)) (r.(afterInterruptedTimedParking))
  (r.(inVex)) (r.(jthreadId)) (r.(timers)) (r.(ioHandler)) (r.(modelHandler)) (r.(scheduling)) v.

Definition upd_timers (f : Timers -> Timers) (s : VexThreadState) := set_timers (f s.(timers)) s.
Definition upd_io (f : IoHandler.IoHandler -> IoHandler.IoHandler) (s : VexThreadState) :=
  set_ioHandler (f s.(ioHandler)) s.
Definition upd_model (f : ModelHandler.ModelHandler -> ModelHandler.ModelHandler) (s : VexThreadState) :=
  set_modelHandler (f s.(modelHandler)) s.
Definition upd_sched (f : Scheduling.Scheduling -> Scheduling.Scheduling) (s : VexThreadState) :=
  set_scheduling (f s.(scheduling)) s.
Definition upd_stats (f : Statistics.Statistics -> Statistics.Statistics) (s : VexThreadState) :=
  set_stats (f s.(stats)) s.

Definition getEstimatedRealTime (s : VexThreadState) : Z := s.(timers).(estimatedRealTime).
Definition getTimeout (s : VexThreadState) : Z := s.(timers).(timeout).

(** [init]; the identifier is what both constructors then set. *)
Definition new_VexThreadState (realNow threadId : Z) : VexThreadState :=
  mkThreadState REGISTERING UNKNOWN_STATE 0 true false false false false false threadId
    (new_Timers realNow) IoHandler.new_IoHandler ModelHandler.new_ModelHandler
    Scheduling.new_Scheduling Statistics.new_Statistics.

(** ** Predicates on the state code *)
Section predicates.
Implicit Type s : VexThreadState.

Definition in_state (c : Code) s : bool := bool_decide (s.(currentState) = c).

Definition isRegistering s : bool := in_state REGISTERING s.
Definition isSuspended s : bool := in_state SUSPENDED s.
Definition inIo s : bool := in_state IN_IO s || in_state LEARNING_IO s.
Definition inIoLearningPhase s : bool := in_state LEARNING_IO s.
Definition inIoPredictionPhase s : bool := in_state IN_IO s.
Definition isInAnyIo s : bool := inIoLearningPhase s || inIoPredictionPhase s.
Definition isNativeWaiting s : bool := in_state NATIVE_WAITING s.
Definition isDead s : bool := in_state VEX_ZOMBIE s.
Definition isRunning s : bool := in_state RUNNING s || in_state IN_SYSTEM_CALL s.
Definition isInSystemCall s : bool := in_state IN_SYSTEM_CALL s.
Definition isWaitingRealCodeToCompleteAfterModelSimulation s : bool :=
  in_state AFTER_MODEL_SIM_WAITING_FOR_REAL_CODE s.
Definition isSimulatingModel s : bool := in_state IN_MODEL s || in_state IN_MODEL_WAITING s.
Definition isActiveInModel s : bool := in_state IN_MODEL s.
Definition isWaiting s : bool := in_state WAITING s.
Definition isTimedWaiting s : bool := in_state WAITING s && (0 <? getTimeout s).
Definition isModelTimedWaiting s : bool := in_state IN_MODEL s && (0 <? getTimeout s).

Definition isSomewhereInVex s : bool := s.(inVex) && negb (isWaiting s).
Definition wasAwaken s : bool := s.(scheduling).(Scheduling.awaken).
Definition isAwakeningAfterJoin s : bool := s.(scheduling).(Scheduling.awakeningFromJoin).
Definition isNotAterInterruptedTimedParking s : bool := negb s.(afterInterruptedTimedParking).

Definition isDefinitelyActiveInIo s : bool :=
  isInAnyIo s && negb s.(ioHandler).(IoHandler.possiblyBlockingIo).
Definition isInPossiblyBlockingIo s : bool :=
  isInAnyIo s && s.(ioHandler).(IoHandler.possiblyBlockingIo).

Definition isDefinitelyActive s : bool :=
  isDefinitelyActiveInIo s || isRegistering s || isSuspended s || isRunning s || wasAwaken s ||
  isAwakeningAfterJoin s || isSomewhereInVex s.

(** Asking consumes one chance of a thread that waits in a monitor. *)
Definition maybeActive s : bool * VexThreadState :=
  if in_state WAITING s then
    let '(blocked, t) := isThreadStillBlockedInMonitor s.(timers) in
    (blocked || (isActiveInModel s && (getTimeout s =? -1)), set_timers t s)
  else (isActiveInModel s && (getTimeout s =? -1), s).

Definition isInTransitionFromOneStateToTheNextBeforeVexKnowsAboutIt s : bool :=
  isAwakeningAfterJoin s || isRegistering s || wasAwaken s ||
  isWaitingRealCodeToCompleteAfterModelSimulation s.

Definition isActiveInIo (realNow : Z) s : bool :=
  if isInAnyIo s
  then negb (s.(ioHandler).(IoHandler.possiblyBlockingIo) &&
             maximumPossibleIoTimeExpired realNow s.(timers))
  else false.

(** The letter of the operating system's state of the thread, from the lines
    of its status file: [line.at(7)] of the first line that starts with
    "State:", and 'Z' when the line is too short or there is none. *)
Fixpoint getSystemThreadState (status : list string) : ascii :=
  match status with
  | [] => "Z"%char
  | line :: status =>
    if decide (substring 0 6 line = "State:"%string)
    then default "Z"%char (String.get 7 line)
    else getSystemThreadState status
  end.

Definition isThreadSystemStateBlocked (systemState : ascii) : bool :=
  bool_decide (systemState = "S"%char \/ systemState = "D"%char \/ systemState = "T"%char).
Definition isThreadSystemStateRunning (systemState : ascii) : bool :=
  bool_decide (systemState = "R"%char).

End predicates.

(** ** Changes of state *)
Section changes.
Implicit Type s : VexThreadState.

Definition setRegistering s : VexThreadState :=
  set_currentState REGISTERING (upd_timers (fun t => set_lastTimePerStateERT t.(estimatedRealTime) t) s).

Definition setNewState (newState : Code) s : VexThreadState :=
  let s := set_previousState s.(currentState) s in
  let s := upd_stats (Statistics.logTimedTransition (code s.(currentState)) (code newState)
                        (getEstimatedRealTime s -ll s.(timers).(lastTimePerStateERT))) s in
  let s := upd_timers (fun t => set_lastTimePerStateERT t.(estimatedRealTime) t) s in
  set_currentState newState s.

Definition setAwaken (b : bool) s := upd_sched (Scheduling.setAwaken b) s.

Definition setSuspended s := setAwaken false (setNewState SUSPENDED s).
Definition setWaiting s :=
  setNewState WAITING (set_afterInterruptedTimedParking false (set_timedOut true s)).
Definition setNativeWaiting s :=
  upd_sched Scheduling.releaseThreadFromItsControllingManager (setNewState NATIVE_WAITING s).
Definition setTimedWaiting (gsf : float) (_timeout : Z) s :=
  upd_timers (updateTimesBeforeWaitingWithTimeout gsf _timeout)
    (setAwaken false
      (set_afterInterruptedTimedParking false (set_timedOut true (setNewState WAITING s)))).
Definition setRunning s := setNewState RUNNING s.
Definition setLearningIo s := setNewState LEARNING_IO s.
Definition setInIo s := setNewState IN_IO s.
Definition setInSystemCall s := setNewState IN_SYSTEM_CALL s.
Definition waitForRealCodeToComplete s :=
  upd_timers setBlockingTimeToLastResumedTime (setNewState AFTER_MODEL_SIM_WAITING_FOR_REAL_CODE s).
Definition setInModelSimulation s := setNewState IN_MODEL s.
Definition setInModelWaiting s := setNewState IN_MODEL_WAITING s.
Definition setDead s := setNewState VEX_ZOMBIE s.
Definition setJoinWaitCompleted s := setNewState AWAKING_FROM_WAITING s.

(** These only count a transition; the state stays. *)
Definition log_only (c : Code) s :=
  upd_stats (Statistics.logTransition (code s.(currentState)) (code c)) s.
Definition setInIoStale s := log_only IN_IO_STALE s.
Definition setInIoInvalidation s := log_only IN_IO_INVALIDATION s.
Definition setRecoveredAfterFailedIO s := log_only RECOVERED_AFTER_FAILED_IO s.
Definition setCustom1 s := log_only CUSTOM1 s.
Definition setCustom2 s := log_only CUSTOM2 s.
Definition setCustom3 s := log_only CUSTOM3 s.

Definition setTimedOut (b : bool) s := set_timedOut b s.
Definition setTimeout (v : Z) s := upd_timers (Timers.setTimeout v) s.
Definition setWaitingObjectId (id : Z) s := if 0 <? id then set_timedWaitingObjectId id s else s.
Definition setThreadCurrentlyControllingManager (m : option nat) s :=
  upd_sched (Scheduling.setThreadCurrentlyControllingManager m) s.
Definition getThreadCurrentlyControllingManager s : option nat :=
  s.(scheduling).(Scheduling.threadCurrentlyControllingManager).

Definition setIoAndCheckIfOperationShouldBlockSimulationProgress (learning : bool) s
    : bool * VexThreadState :=
  if learning then
    let s := setLearningIo s in
    if getTimeout s =? -1 then (false, s) else (true, upd_timers (leapForwardBy (getTimeout s)) s)
  else (true, setInIo s).

(** ** Parking *)
Definition getAndSetUnparkedState s : bool * VexThreadState :=
  if s.(alreadyUnparked) then (true, set_parked false (set_alreadyUnparked false s))
  else (false, set_timedWaitingObjectId 0 (set_parked true s)).

Definition getAndSetParkedState s : bool * VexThreadState :=
  if s.(parked) then (true, set_parked false (set_alreadyUnparked false s))
  else (false, set_alreadyUnparked true s).

(** The entry of the object registry that an interrupt erases. *)
Definition eraseWaitingObjectIdFromRegistry (registry : bool) s : option (Z * Z) :=
  if negb (s.(timedWaitingObjectId) =? 0) && registry
  then Some (s.(timedWaitingObjectId), s.(jthreadId)) else None.

Definition beforeThreadInterruptAt s : VexThreadState :=
  let s :=
    if s.(parked) then
      set_parked false (if 0 <? getTimeout s then set_afterInterruptedTimedParking true s else s)
    else s in
  let s := if getTimeout s <? 0
           then upd_timers setTimeoutFlagToDenotePossiblyResumingThread s else s in
  setTimedOut false (setSuspended s).

(** ** I/O predictions *)
Definition addPredictionToEstimatedRealTime s : VexThreadState :=
  upd_io IoHandler.addPredictionToEstimatedRealTime
    (upd_timers (addElapsedTime s.(ioHandler).(IoHandler.lastIoPrediction)) s).

Definition invalidateIoPrediction s : VexThreadState :=
  let '(extension, io) := IoHandler.extendPredictionPeriod s.(ioHandler) in
  setInIoInvalidation (upd_timers (leapForwardBy extension) (set_ioHandler io s)).

Definition updateEstimatedRealTimeAfterIoPrediction (actualIoDuration : Z) s : VexThreadState :=
  upd_timers (leapForwardBy (actualIoDuration -ll IoHandler.getTotalTimePredicted s.(ioHandler))) s.

Definition getPredictionError (currentRealTime : Z) s : Z :=
  (currentRealTime -ll s.(timers).(lastRealTime)) -ll IoHandler.getTotalTimePredicted s.(ioHandler).
Definition isIoPredictionStillValid (currentRealTime : Z) s : bool :=
  negb (0 <? getPredictionError currentRealTime s).

(** ** Simulating a model *)
Definition startModelTimedWaiting (gsf : float) (duration : Z) s :=
  upd_timers (updateTimesBeforeWaitingWithTimeout gsf duration) s.

(** Entering the current node of the network: whether the customer left the
    network, and the thread after it. *)
Variable enter : VexThreadState -> bool * VexThreadState.
Variable gsf : float.

(** One turn of the loop of [resumeModelSimulation]. *)
Definition model_turn (totalExecutionTime : Z) s : bool * Z * VexThreadState :=
  let initialThreadErt := getEstimatedRealTime s in
  let '(localTimeServiced, h) :=
    ModelHandler.simulateLocalServiceTime totalExecutionTime s.(modelHandler) in
  let '(finished, s) :=
    if negb (localTimeServiced =? 0)
    then (false, upd_timers (addLocalTime gsf localTimeServiced) (set_modelHandler h s))
    else enter s in
  (finished, totalExecutionTime -ll (getEstimatedRealTime s -ll initialThreadErt), s).

(** Each turn takes one unit of fuel. *)
Fixpoint resumeModelSimulation (fuel : nat) (totalExecutionTime : Z) s
    : option (bool * Z * VexThreadState) :=
  match fuel with
  | O => None
  | S fuel =>
    let '(finished, total, s) := model_turn totalExecutionTime s in
    if negb finished && isActiveInModel s && (getTimeout s <=? 0) && (0 <? total)
    then resumeModelSimulation fuel total s
    else Some (finished, total, s)
  end.

End changes.

(** ** Accounting of states

    The codes that are only logged: the state stays as it is. *)
Definition remarks : list Code :=
  [IN_IO_STALE; IN_IO_INVALIDATION; RECOVERED_AFTER_FAILED_IO; CUSTOM1; CUSTOM2; CUSTOM3].

(** A step of a thread, with what it remarks: the state it is in, and a code.
    It changes its state, it remarks something, or it leaves the state code,
    the counters and the time of the last change alone (clocks, parking, I/O,
    scheduling, invocation points). *)
Inductive tstep : VexThreadState -> list (Code * Code) -> VexThreadState -> Prop :=
| ts_new c s : tstep s [] (setNewState c s)
| ts_remark c s : c ∈ remarks -> tstep s [(s.(currentState), c)] (log_only c s)
| ts_quiet s s' :
    s'.(currentState) = s.(currentState) ->
    s'.(stats).(Statistics.totalTimePerState) = s.(stats).(Statistics.totalTimePerState) ->
    s'.(stats).(Statistics.stateTransitions) = s.(stats).(Statistics.stateTransitions) ->
    s'.(timers).(lastTimePerStateERT) = s.(timers).(lastTimePerStateERT) -> tstep s [] s'.

Inductive tsteps : VexThreadState -> list (Code * Code) -> VexThreadState -> Prop :=
| tsteps_refl s : tsteps s [] s
| tsteps_l s l s1 l1 s' : tstep s l s1 -> tsteps s1 l1 s' -> tsteps s (l ++ l1) s'.

Definition here (k : nat) (c : Code) : Z := if decide (code c = k) then 1 else 0.

(** What remarks add to the transitions out of a state and into it. *)
Definition remarked (k : nat) (l : list (Code * Code)) : Z := sum_of (fun r => here k r.1 - here k r.2) l.

(** A state whose code is no remark is left once more by every remark that is
    made in it. *)
Lemma remarked_in c s l s' : tsteps s l s' -> c ∉ remarks ->
  remarked (code c) l = Z.of_nat (length (filter (fun r => r.1 = c) l)).
Proof.
  intros Hs Hc. assert (forall r, r ∈ l -> r.2 ∈ remarks) as Hl.
  { induction Hs as [|s l s1 l1 s' H1 _ IH]; [by intros r ?%not_elem_of_nil|].
    intros r [Hr|Hr]%elem_of_app; [|auto]. destruct H1; try by apply not_elem_of_nil in Hr.
    by apply list_elem_of_singleton in Hr as ->. }
  clear Hs. induction l as [|r l IH]; [done|].
  change (remarked (code c) (r :: l)) with (here (code c) r.1 - here (code c) r.2 + remarked (code c) l).
  rewrite IH by (intros; apply Hl; by right). assert (r.2 ∈ remarks) as Hr by (apply Hl; by left).
  unfold here. rewrite (decide_False (P := code r.2 = _)) by (intros ?%code_inj; congruence).
  rewrite filter_cons. destruct (decide (r.1 = c)) as [->|Hne]; [rewrite decide_True by done; cbn [length]; lia|].
  rewrite decide_False by (by intros ?%code_inj). lia.
Qed.

(** C17. Over any run of a thread from its registration on, as long as the
    counters are not reset, they account for everything: the
    times of all states add up to the virtual time that passed between the
    first and the last change of state, and every state is left as often as
    it is entered, but for the state at the start and the state at the end,
    and for the remarks: each counts as a transition out of the state in which it is
    made and into its code, though the state does not change.
    The equations are those of the counters' widths (64-bit times, 32-bit
    transition counters). *)
Theorem state_accounting s l s' k :
  tsteps s l s' -> Statistics.shaped s.(stats) ->
  ll (sum_of id s'.(stats).(Statistics.totalTimePerState)) =
    ll (sum_of id s.(stats).(Statistics.totalTimePerState)
        + s'.(timers).(lastTimePerStateERT) - s.(timers).(lastTimePerStateERT)) /\
  let m := s.(stats).(Statistics.stateTransitions) in
  let m' := s'.(stats).(Statistics.stateTransitions) in
  uwrap 32 (Statistics.out_of m' k - Statistics.into m' k) =
    uwrap 32 (Statistics.out_of m k - Statistics.into m k
              + here k s.(currentState) - here k s'.(currentState) + remarked k l).
Proof.
  intros Hsteps Hs. cbn zeta.
  assert ((exists q, sum_of id s'.(stats).(Statistics.totalTimePerState) =
      sum_of id s.(stats).(Statistics.totalTimePerState)
        + s'.(timers).(lastTimePerStateERT) - s.(timers).(lastTimePerStateERT) + q * 2 ^ 64) /\
    exists q, Statistics.out_of s'.(stats).(Statistics.stateTransitions) k
        - Statistics.into s'.(stats).(Statistics.stateTransitions) k =
      Statistics.out_of s.(stats).(Statistics.stateTransitions) k
        - Statistics.into s.(stats).(Statistics.stateTransitions) k
        + here k s.(currentState) - here k s'.(currentState) + remarked k l + q * 2 ^ 32) as [[q1 H1] [q2 H2]].
  2: { split; [apply (ll_eq _ _ q1)|apply (uwrap_eq _ _ _ q2)]; lia. }
  induction Hsteps as [s|s l s1 l1 s' Hstep _ IH]; [split; exists 0; unfold remarked; cbn; lia|].
  assert (remarked k (l ++ l1) = remarked k l + remarked k l1) as -> by apply sum_of_app.
  destruct Hstep as [c s|c s Hc|s s1 Hc Ht Hst Hl].
  - destruct IH as [[q1 H1] [q2 H2]].
    { apply Statistics.shaped_log; [apply code_lt..|done]. }
    set (d := getEstimatedRealTime s -ll s.(timers).(lastTimePerStateERT)).
    destruct (Statistics.log_time_total (code s.(currentState)) (code c) d s.(stats)) as [q3 H3];
      [done|apply code_lt|].
    destruct (Statistics.log_flow (code s.(currentState)) (code c) d s.(stats) k) as [q4 H4];
      [done|apply code_lt..|].
    change (stats (setNewState c s)) with (Statistics.logTimedTransition (code s.(currentState)) (code c) d s.(stats)) in *.
    change (lastTimePerStateERT (timers (setNewState c s))) with (getEstimatedRealTime s) in *.
    change (currentState (setNewState c s)) with c in *.
    destruct (ll_spec (getEstimatedRealTime s - s.(timers).(lastTimePerStateERT))) as [q5 H5].
    assert (d = getEstimatedRealTime s - lastTimePerStateERT (timers s) + q5 * 2 ^ 64) as Hd by done.
    split; [exists (q1 + q3 + q5)|exists (q2 + q4)]; unfold remarked, here in *; cbn [sum_of map fold_right]; lia.
  - destruct IH as [[q1 H1] [q2 H2]].
    { apply Statistics.shaped_log_only; [apply code_lt..|done]. }
    destruct (Statistics.log_only_flow (code s.(currentState)) (code c) s.(stats) k) as [q4 H4]; [done|apply code_lt..|].
    change (stats (log_only c s)) with (Statistics.logTransition (code s.(currentState)) (code c) s.(stats)) in *.
    change (timers (log_only c s)) with (timers s) in *. change (currentState (log_only c s)) with (currentState s) in *.
    split; [exists q1; exact H1|exists (q2 + q4)].
    assert (remarked k [(currentState s, c)] = here k (currentState s) - here k c) as -> by (unfold remarked, sum_of; cbn; lia).
    unfold here in *. lia.
  - rewrite Hc, Ht, Hst, Hl in IH. destruct IH as [H1 [q2 H2]]; [|split; [exact H1|exists q2; exact H2]].
    destruct Hs as [? ? ?]. split; [by rewrite Ht|by rewrite Hst|by rewrite Hst].
Qed.

Lemma wait_after_remark s :
  tsteps s ([] ++ [(RUNNING, CUSTOM2)] ++ [] ++ [] ++ []) (setWaiting (setCustom2 (setRunning s))).
Proof.
  apply (tsteps_l s [] (setRunning s)); [apply ts_new|].
  apply (tsteps_l (setRunning s) [(RUNNING, CUSTOM2)] (setCustom2 (setRunning s))); [apply ts_remark; set_solver|].
  generalize (setCustom2 (setRunning s)) as s1. clear s. intros s1.
  apply (tsteps_l s1 [] (set_afterInterruptedTimedParking false (set_timedOut true s1))); [by apply ts_quiet|].
  eapply (tsteps_l _ [] (setWaiting s1)); [apply ts_new|apply tsteps_refl].
Qed.

Lemma state_accounting_witness :
  let s := new_VexThreadState 0 7 in
  let s' := setWaiting (setCustom2 (setRunning s)) in
  ll (sum_of id s'.(stats).(Statistics.totalTimePerState)) = ll (0 + 0 - 0) /\
  uwrap 32 (Statistics.out_of s'.(stats).(Statistics.stateTransitions) (code RUNNING)
            - Statistics.into s'.(stats).(Statistics.stateTransitions) (code RUNNING)) = 1.
Proof.
  apply (state_accounting (new_VexThreadState 0 7) ([] ++ [(RUNNING, CUSTOM2)] ++ [] ++ [] ++ [])
    (setWaiting (setCustom2 (setRunning (new_VexThreadState 0 7)))) (code RUNNING)).
  - apply wait_after_remark.
  - apply Statistics.shaped_new.
Defined.

(** ** Correcting an I/O prediction *)

Lemma invalidate_ert s :
  (invalidateIoPrediction s).(ioHandler) = (IoHandler.extendPredictionPeriod s.(ioHandler)).2 /\
  getEstimatedRealTime (invalidateIoPrediction s) =
    getEstimatedRealTime s +ll (IoHandler.extendPredictionPeriod s.(ioHandler)).1.
Proof. done. Qed.

(** After [k] extensions of a prediction [p], the prediction was charged
    (2^(k+1) - 1) times. *)
Lemma invalidate_iter k s0 s :
  let p := s0.(ioHandler).(IoHandler.lastIoPrediction) in
  s = Nat.iter k invalidateIoPrediction (addPredictionToEstimatedRealTime s0) ->
  s.(ioHandler).(IoHandler.lastIoPrediction) = p /\
  (exists q, s.(ioHandler).(IoHandler.timesIoPredictionWasAddedToEstimatedTime)
     = 2 ^ Z.of_nat k + q * 2 ^ 64) /\
  (exists q, getEstimatedRealTime s
     = getEstimatedRealTime s0 + (2 ^ (Z.of_nat k + 1) - 1) * p + q * 2 ^ 64).
Proof.
  intros p. revert s. induction k as [|k IH]; intros s ->.
  { split_and!; [done|by exists 0|]. cbn -[ll_add]. unfold getEstimatedRealTime, ll_add. cbn.
    fold p. destruct (ll_spec (s0.(timers).(estimatedRealTime) + p)) as [q ->]. exists q. lia. }
  rewrite !Nat.iter_succ. set (s := Nat.iter k _ _) in *.
  destruct (IH s eq_refl) as (Hp&[q1 Hq1]&[q2 Hq2]). clear IH. clearbody s.
  destruct (invalidate_ert s) as [-> ->]. cbn [IoHandler.extendPredictionPeriod fst snd].
  rewrite Hp, Hq1, Hq2. cbn -[Z.pow Z.of_nat].
  destruct (uwrap_spec 64 ((2 ^ Z.of_nat k + q1 * 2 ^ 64) * 2)) as [q3 ->]; [lia|].
  assert (2 ^ (Z.of_nat (S k) + 1) = 4 * 2 ^ Z.of_nat k) as ->
    by (rewrite Nat2Z.inj_succ, <- Z.add_1_r, !Z.pow_add_r by lia; lia).
  assert (2 ^ Z.of_nat (S k) = 2 * 2 ^ Z.of_nat k) as ->
    by (rewrite Nat2Z.inj_succ, Z.pow_succ_r by lia; lia).
  assert (2 ^ (Z.of_nat k + 1) = 2 * 2 ^ Z.of_nat k) as -> by (rewrite Z.pow_add_r by lia; lia).
  split_and!; [done|exists (2 * q1 + q3); lia|].
  match goal with |- context [ll ?x] => destruct (ll_spec x) as [q4 ->] end.
  unfold ll_add. match goal with |- context [ll ?x] => destruct (ll_spec x) as [q5 ->] end.
  exists (q2 + (2 * q1 + q3) * p + q4 + q5). set (x := 2 ^ Z.of_nat k). lia.
Qed.

(** However many times an I/O prediction was extended while the operation
    went on, the correction on its completion leaves the thread exactly at the
    time it started the operation plus the time the operation really took;
    this holds in 64-bit arithmetic, wrap-around included. *)
Theorem io_prediction_corrected k actualIoDuration s :
  getEstimatedRealTime (updateEstimatedRealTimeAfterIoPrediction actualIoDuration
    (Nat.iter k invalidateIoPrediction (addPredictionToEstimatedRealTime s)))
  = getEstimatedRealTime s +ll actualIoDuration.
Proof.
  destruct (invalidate_iter k s _ eq_refl) as (Hp&[q1 Hq1]&[q2 Hq2]).
  set (s' := Nat.iter k _ _) in *. clearbody s'.
  unfold updateEstimatedRealTimeAfterIoPrediction, IoHandler.getTotalTimePredicted.
  change (getEstimatedRealTime (upd_timers ?f s')) with (f (timers s')).(estimatedRealTime).
  cbn -[Z.pow]. change (s'.(timers).(estimatedRealTime)) with (getEstimatedRealTime s').
  rewrite Hp, Hq1, Hq2. unfold ll_add, ll_sub.
  rewrite Z.pow_add_r by lia. set (x := 2 ^ Z.of_nat k). set (p := IoHandler.lastIoPrediction _).
  destruct (uwrap_spec 64 (2 * (x + q1 * 2 ^ 64) - 1)) as [q3 ->]; [lia|].
  match goal with |- context [ll (?u * p)] => destruct (ll_spec (u * p)) as [q4 ->] end.
  match goal with |- context [ll (actualIoDuration - ?u)] =>
    destruct (ll_spec (actualIoDuration - u)) as [q5 ->] end.
  apply (ll_eq _ _ (q2 - (2 * q1 + q3) * p - q4 + q5)). lia.
Qed.

(** ** Parking is a binary permit

    The specification: [java.util.concurrent.locks.LockSupport].  A thread is
    idle, has a permit, or is parked. *)
Module Permit.
Inductive permit := Idle | Available | Parked.
Inductive op := Park | Unpark | Interrupt.

(** The answers: whether a park goes on without blocking, whether an unpark
    found the thread parked. *)
Definition step (o : op) (p : permit) : bool * permit :=
  match o, p with
  | Park, Available => (true, Idle)
  | Park, _ => (false, Parked)
  | Unpark, Parked => (true, Idle)
  | Unpark, _ => (false, Available)
  | Interrupt, Parked => (false, Idle)
  | Interrupt, p => (false, p)
  end.

Fixpoint run (os : list op) (p : permit) : list bool :=
  match os with [] => [] | o :: os => let '(b, p) := step o p in b :: run os p end.
End Permit.

Definition park_op (o : Permit.op) (s : VexThreadState) : bool * VexThreadState :=
  match o with
  | Permit.Park => getAndSetUnparkedState s
  | Permit.Unpark => getAndSetParkedState s
  | Permit.Interrupt => (false, beforeThreadInterruptAt s)
  end.

Fixpoint park_run (os : list Permit.op) (s : VexThreadState) : list bool :=
  match os with [] => [] | o :: os => let '(b, s) := park_op o s in b :: park_run os s end.

Definition permit_of (s : VexThreadState) : Permit.permit :=
  if s.(parked) then Permit.Parked else if s.(alreadyUnparked) then Permit.Available else Permit.Idle.

(** C40. Parking implements a binary permit: for every sequence of parks,
    unparks and interrupts, a park goes on without blocking exactly when an
    unpark came first, permits do not add up, and an unpark reports a parked
    thread exactly when there is one. *)
Theorem parking_refines_permit realNow threadId os :
  park_run os (new_VexThreadState realNow threadId) = Permit.run os Permit.Idle.
Proof.
  assert (forall os s, (s.(parked) && s.(alreadyUnparked)) = false ->
    park_run os s = Permit.run os (permit_of s)) as H.
  { clear. induction os as [|o os IH]; intros s Hs; [done|].
    assert ((park_op o s).1 = (Permit.step o (permit_of s)).1 /\
            permit_of (park_op o s).2 = (Permit.step o (permit_of s)).2 /\
            ((park_op o s).2.(parked) && (park_op o s).2.(alreadyUnparked)) = false) as (H1&H2&H3).
    { unfold permit_of. destruct s; destruct o; cbn in *;
        unfold getAndSetUnparkedState, getAndSetParkedState, beforeThreadInterruptAt, getTimeout;
        cbn; repeat (match goal with b : bool |- _ => destruct b end; try done);
        cbn; repeat (case_match; cbn in * ); done. }
    cbn [park_run Permit.run]. destruct (park_op o s) as [b s'], (Permit.step o _) as [b' p'].
    cbn in *. subst. f_equal. by apply IH. }
  by apply (H os (new_VexThreadState realNow threadId)).
Qed.

(** ** The simulation of a model ends within its timeslice *)

(** What the nodes of a network do to a thread that enters them, as far as the
    loop relies on it: no time passes on entry; the customer leaves the
    network, or the thread stops being active in it or waits with a timeout,
    or it is given local work. *)
Definition node_contract (enter : VexThreadState -> bool * VexThreadState) : Prop :=
  forall s, let '(finished, s') := enter s in
    getEstimatedRealTime s' = getEstimatedRealTime s /\
    s'.(timers).(virtualTimeSpeedup) = s.(timers).(virtualTimeSpeedup) /\
    0 <= s'.(modelHandler).(ModelHandler.remainingLocalResourceConsumption) /\
    (finished = true \/ isActiveInModel s' = false \/ 0 < getTimeout s' \/
     0 < s'.(modelHandler).(ModelHandler.remainingLocalResourceConsumption)).

Record model_pre (total : Z) (s : VexThreadState) : Prop := {
  mp_speed : s.(timers).(virtualTimeSpeedup) = f32_one;
  mp_remaining : 0 <= s.(modelHandler).(ModelHandler.remainingLocalResourceConsumption);
  mp_total : 0 < total < 2 ^ 24;
  mp_ert : in_ll (getEstimatedRealTime s);
  mp_end : in_ll (getEstimatedRealTime s + total);
}.

(** The turns left: two for every nanosecond, one less when local work waits. *)
Definition turns (total : Z) (s : VexThreadState) : nat :=
  (2 * Z.to_nat total +
   if decide (0 < s.(modelHandler).(ModelHandler.remainingLocalResourceConsumption))%Z then 0 else 1)%nat.

Lemma model_turn_spec enter total s : node_contract enter -> model_pre total s ->
  exists finished total' s', model_turn enter f32_one total s = (finished, total', s') /\
    0 <= total' <= total /\
    getEstimatedRealTime s' = getEstimatedRealTime s + (total - total') /\
    (finished = false -> isActiveInModel s' = true -> getTimeout s' <= 0 -> 0 < total' ->
     model_pre total' s' /\ (turns total' s' < turns total s)%nat).
Proof.
  intros Henter [Hsp Hrem Htot He Hend]. unfold model_turn, ModelHandler.simulateLocalServiceTime.
  set (r := ModelHandler.remainingLocalResourceConsumption _) in *.
  destruct (Z.eqb_spec r 0) as [Hr0|Hr0].
  - cbn [Z.eqb negb]. specialize (Henter s). destruct (enter s) as [finished s'].
    destruct Henter as (He'&Hsp'&Hrem'&Hcase).
    exists finished, total, s'. split_and!; [|lia|lia|lia|].
    { rewrite He'. unfold ll_sub. rewrite Z.sub_diag. repeat f_equal.
      change (ll 0) with 0. rewrite Z.sub_0_r. apply ll_id. ll_range. }
    intros -> Hact Hto _. split; [split; rewrite ?He', ?Hsp'; done|].
    destruct Hcase as [?|[?|[?|Hr']]]; [done|congruence|lia|].
    unfold turns. fold r. rewrite (decide_True (P := 0 < _)) by done.
    rewrite decide_False by lia. lia.
  - assert (0 < r) as Hr by lia. assert (turns total s = 2 * Z.to_nat total)%nat as Hts
      by (unfold turns; fold r; rewrite decide_True by done; lia).
    assert (forall d h, 0 < d <= total -> 
      getEstimatedRealTime (upd_timers (addLocalTime f32_one d) (set_modelHandler h s))
        = getEstimatedRealTime s + d) as Hadd.
    { intros d h Hd. unfold getEstimatedRealTime in *. cbn.
      assert (scale2 d f32_one f32_one = d) as Hsc by (apply scale_one; lia).
      rewrite Hsp, Hsc. apply ll_id. ll_range. }
    set (d := if r <=? total then r else total).
    assert (0 < d <= total) as Hd by (subst d; case_bool; lia).
    set (h := if r <=? total then ModelHandler.initiateLocalResourceConsumption 0 s.(modelHandler)
              else ModelHandler.initiateLocalResourceConsumption (r -ll total) s.(modelHandler)).
    assert ((if r <=? total then (r, ModelHandler.initiateLocalResourceConsumption 0 s.(modelHandler))
             else (total, ModelHandler.initiateLocalResourceConsumption (r -ll total) s.(modelHandler)))
            = (d, h)) as -> by (subst d h; by case_match).
    destruct (Z.eqb_spec d 0); [lia|]. cbn [negb].
    eexists _, (total - d), _. split; [|split; [lia|]].
    { do 2 f_equal. rewrite Hadd by done. unfold ll_sub.
      rewrite Z.add_simpl_l, (ll_id d), ll_id by ll_range. done. }
    rewrite Hadd by done. split; [lia|]. intros _ _ _ Hpos.
    split; [split; rewrite ?Hadd by done; cbn; try done; try lia; try ll_range|].
    + subst h. destruct (Z.leb_spec r total); cbn; [done|]. subst d. case_bool; lia.
    + rewrite Hts. unfold turns. case_decide; lia.
Qed.

(** With unit time factors and a timeslice below 2^24 ns, simulating a
    model ends (as many turns as twice the timeslice, plus two, are enough),
    never overruns the timeslice, and charges the thread's clock for exactly
    the time it took from the timeslice; it ends because the customer left
    the network, because the thread is no longer active in it or waits, or
    because the timeslice is used up. *)
Theorem model_simulation_ends enter total s :
  node_contract enter -> model_pre total s ->
  exists finished total' s',
    resumeModelSimulation enter f32_one (2 * Z.to_nat total + 2) total s = Some (finished, total', s') /\
    0 <= total' <= total /\
    getEstimatedRealTime s' = getEstimatedRealTime s + (total - total') /\
    (finished = true \/ isActiveInModel s' = false \/ 0 < getTimeout s' \/ total' = 0).
Proof.
  intros Henter Hpre.
  assert (forall fuel total s, (turns total s < fuel)%nat -> model_pre total s ->
    exists finished total' s',
    resumeModelSimulation enter f32_one fuel total s = Some (finished, total', s') /\
    0 <= total' <= total /\
    getEstimatedRealTime s' = getEstimatedRealTime s + (total - total') /\
    (finished = true \/ isActiveInModel s' = false \/ 0 < getTimeout s' \/ total' = 0)) as H.
  2: { apply H; [unfold turns; case_decide; lia|done]. }
  clear - Henter. induction fuel as [|fuel IH]; intros total s Hf Hpre; [lia|].
  cbn [resumeModelSimulation].
  destruct (model_turn_spec enter total s Henter Hpre) as (finished&total1&s1&->&Ht1&He1&Hnext).
  destruct finished; cbn [negb andb]; [eexists _, _, _; split_and!; [done|lia|lia|done|by left]|].
  destruct (isActiveInModel s1) eqn:Ha; cbn [andb];
    [|eexists _, _, _; split_and!; [done|lia|lia|done|by right; left]].
  destruct (Z.leb_spec (getTimeout s1) 0) as [Hto|Hto]; cbn [andb];
    [|eexists _, _, _; split_and!; [done|lia|lia|done|by right; right; left]].
  destruct (Z.ltb_spec 0 total1);
    [|eexists _, _, _; split_and!; [done|lia|lia|done|right; right; right; lia]].
  destruct (Hnext eq_refl eq_refl Hto ltac:(done)) as [Hpre1 Hturns].
  destruct (IH total1 s1 ltac:(lia) Hpre1) as (f&t2&s2&->&Ht2&He2&Hcase).
  exists f, t2, s2. split_and!; [done|lia|lia|lia|done].
Qed.

(** A network with one local node: every entry gives 300 ns of work. *)
Definition local_node (s : VexThreadState) : bool * VexThreadState :=
  (false, upd_model (ModelHandler.initiateLocalResourceConsumption 300) s).

Lemma model_simulation_ends_witness :
  exists finished total' s',
    resumeModelSimulation local_node f32_one (2 * Z.to_nat 1000 + 2) 1000
      (setInModelSimulation (new_VexThreadState 0 1)) = Some (finished, total', s') /\
    0 <= total' <= 1000 /\
    getEstimatedRealTime s' = 0 + (1000 - total') /\
    (finished = true \/ isActiveInModel s' = false \/ 0 < getTimeout s' \/ total' = 0).
Proof.
  apply (model_simulation_ends local_node 1000 (setInModelSimulation (new_VexThreadState 0 1))).
  - intros s. cbn. split_and!; [done|done|lia|]. right. right. right. lia.
  - split; [done|cbn; lia|lia|cbn; ll_range|cbn; ll_range].
Defined.

End VexThreadState.
