(* ===== verification/ThreadQueue.v ===== *)
(** * The queue of runnable threads

    src/src/vex/ds/ThreadQueue.h and ThreadQueue.cpp: an AdaptiblePQueue of
    pointers to thread states, ordered by their estimated real time.  The
    threads live in a store; an operation takes the store it runs in, because
    the times behind the pointers change while the pointers are queued. *)
From S2P Require Import Prelude Heap AdaptiblePQueue CxxFloat Timers Statistics ThreadParts ThreadState.
Import VexThreadState.

Abbreviation thread := VexThreadState.VexThreadState.
Abbreviation store := (gmap nat thread).

#[export] Instance thread_inhabited : Inhabited thread := populate (new_VexThreadState 0 0).

(** The time a queued pointer is ordered by: [threadStatePtr_compare]. *)
Definition ert (th : store) (t : nat) : Z := getEstimatedRealTime (th !!! t).

(** Changing one thread. *)
Definition update_thread (t : nat) (f : thread -> thread) (th : store) : store :=
  <[t := f (th !!! t)]> th.

Lemma lookup_update_thread t f th t' :
  update_thread t f th !!! t' = if decide (t = t') then f (th !!! t) else th !!! t'.
Proof.
  unfold update_thread. case_decide; subst; [apply lookup_total_insert_eq|].
  by apply lookup_total_insert_ne.
Qed.

Lemma ert_update_thread t f th t' :
  ert (update_thread t f th) t' =
    if decide (t = t') then getEstimatedRealTime (f (th !!! t)) else ert th t'.
Proof. unfold ert. rewrite lookup_update_thread. by case_decide. Qed.

Lemma is_heap_ext {A} `{Inhabited A} (key key' : A -> Z) l :
  (forall x, x ∈ l -> key x = key' x) -> is_heap key l -> is_heap key' l.
Proof.
  intros He Hh i Hi. assert (parent i < length l)%nat.
  { unfold parent. pose proof (Nat.Div0.div_le_mono (i - 1) (i - 1) 2 ltac:(done)).
    pose proof (Nat.Div0.div_le_upper_bound (i - 1) 2 (i - 1) ltac:(lia)). lia. }
  rewrite <- !He by (apply nthd_elem_of; lia). by apply Hh.
Qed.

Module ThreadQueue.
Section queue.
Context `{HO : StdHeapOps}.

Definition empty (q : list nat) : bool := AdaptiblePQueue.empty q.
Definition size (q : list nat) : nat := AdaptiblePQueue.size q.
Definition find (q : list nat) (t : nat) : bool := AdaptiblePQueue.find q t.
Definition top (q : list nat) : option nat := AdaptiblePQueue.top q.

Definition hasUnitScalingFactor (s : thread) : bool :=
  f_eqb s.(timers).(Timers.virtualTimeSpeedup) f32_one.

(** Pushing a thread that is already queued is an assertion failure, except
    for a thread whose time is scaled. *)
Definition push (th : store) (q : list nat) (t : nat) : res (list nat) :=
  guard_assert (negb (hasUnitScalingFactor (th !!! t)) || negb (find q t)) ;;
  let q := AdaptiblePQueue.push (ert th) q t in
  guard_assert (negb (hasUnitScalingFactor (th !!! t)) || find q t) ;;
  Ok q.

Definition getNext (th : store) (q : list nat) : option nat * list nat :=
  match top q with
  | None => (None, q)
  | Some t => (Some t, AdaptiblePQueue.pop (ert th) q)
  end.

(** What the next thread at the top means for the manager that asks: nothing
    to schedule, a thread that stays queued, or one that leaves the queue. *)
Definition next_at_top (th : store) (q : list nat) (requestingManager t : nat)
    : option nat * list nat :=
  let s := th !!! t in
  if isRunning s then (None, q)
  else if inIoPredictionPhase s then (Some t, q)
  else if isWaitingRealCodeToCompleteAfterModelSimulation s then
    if decide (getThreadCurrentlyControllingManager s = Some requestingManager)
    then (Some t, q) else (None, q)
  else (Some t, AdaptiblePQueue.pop (ert th) q).

Definition getNextIfEqualsElseReturnTop (th : store) (q : list nat) (lockedState requestingManager : nat)
    : option nat * list nat :=
  match top q with
  | None => (None, q)
  | Some t => if decide (t = lockedState) then next_at_top th q requestingManager t else (Some t, q)
  end.

Definition getNextOf (th : store) (q : list nat) (requestingManager : nat) : option nat * list nat :=
  match top q with
  | None => (None, q)
  | Some t => next_at_top th q requestingManager t
  end.

(** The iterator: from the entry of [t] on, past the threads that simulate a
    model, to an entry or to the end. *)
Fixpoint entries_after (q : list nat) (t : nat) : option (list nat) :=
  match q with
  | [] => None
  | x :: q => if decide (x = t) then Some q else entries_after q t
  end.

Fixpoint skip_simulating (th : store) (q : list nat) : option nat :=
  match q with
  | [] => None
  | x :: q =>
    if isSimulatingModel (th !!! x) || isWaitingRealCodeToCompleteAfterModelSimulation (th !!! x)
    then skip_simulating th q else Some x
  end.

Definition setThreadToNextBiggestErt (th : store) (q : list nat) (t : nat) : store * list nat :=
  match entries_after q t with
  | None => (th, q)
  | Some rest =>
    let next := default (default t (last q)) (skip_simulating th rest) in
    let th := update_thread t (upd_timers (Timers.leapTo (ert th next +ll 1))) th in
    (th, AdaptiblePQueue.update (ert th) q)
  end.

Definition isNextRunnableThreadBefore (th : store) (q : list nat) (timestamp : Z) : bool :=
  match top q with None => false | Some t => ert th t <? timestamp end.

Definition update (th : store) (q : list nat) : list nat := AdaptiblePQueue.update (ert th) q.
Definition erase (th : store) (q : list nat) (t : nat) : list nat :=
  AdaptiblePQueue.erase (ert th) q t.

Definition highest_step (th : store) (h : Z) (t : nat) : Z :=
  if (h <? ert th t) && (isSuspended (th !!! t) || isNativeWaiting (th !!! t)) then ert th t else h.
Definition getHighestRunnableTime (th : store) (q : list nat) (askingThread : nat) : Z :=
  foldl (highest_step th) (ert th askingThread) q.

(** The recursion removes an entry per level: the length of the queue is
    enough fuel. *)
Fixpoint recursivelyUpdatePendingIoRequests (fuel : nat) (th : store) (q : list nat) (state : nat)
    (currentRealTime : Z) : store * list nat :=
  let '(th, q) :=
    match fuel, top q with
    | S fuel, Some nextThread =>
      if inIoPredictionPhase (th !!! nextThread) &&
         negb (isIoPredictionStillValid currentRealTime (th !!! nextThread))
      then
        let '(th, q) := recursivelyUpdatePendingIoRequests fuel th
                          (AdaptiblePQueue.pop (ert th) q) nextThread currentRealTime in
        (th, AdaptiblePQueue.push (ert th) q nextThread)
      else (th, q)
    | _, _ => (th, q)
    end in
  (update_thread state invalidateIoPrediction th, q).

Definition invalidateExpiredIoPredictions (th : store) (q : list nat) (currentRealTime : Z)
    : store * list nat :=
  match top q with
  | None => (th, q)
  | Some state =>
    let q' := AdaptiblePQueue.pop (ert th) q in
    let '(th, q') := recursivelyUpdatePendingIoRequests (length q') th q' state currentRealTime in
    (th, AdaptiblePQueue.push (ert th) q' state)
  end.

(** ** Invariant: the container is a heap of distinct threads *)
Record wf (th : store) (q : list nat) : Prop := {
  wf_heap : is_heap (ert th) q;
  wf_nodup : NoDup q;
}.

Context `{HH : !StdHeap HO}.

Lemma wf_push th q t : wf th q -> t ∉ q -> wf th (AdaptiblePQueue.push (ert th) q t).
Proof.
  intros [Hh Hn] Ht. split; [by apply AdaptiblePQueue.push_heap_order|].
  rewrite (AdaptiblePQueue.push_perm (ert th)). by constructor.
Qed.

Lemma wf_pop th t q : wf th (t :: q) ->
  wf th (AdaptiblePQueue.pop (ert th) (t :: q)) /\ AdaptiblePQueue.pop (ert th) (t :: q) ≡ₚ q /\ t ∉ q.
Proof.
  intros [Hh Hn]. pose proof (AdaptiblePQueue.pop_tail_perm (ert th) t q) as Hp.
  apply NoDup_cons in Hn as [Ht Hn]. split_and!; [|done|done].
  split; [by apply AdaptiblePQueue.pop_heap_order|by rewrite Hp].
Qed.

Lemma wf_ext th th' q : (forall t, t ∈ q -> ert th' t = ert th t) -> wf th q -> wf th' q.
Proof. intros He [Hh Hn]. split; [|done]. eapply is_heap_ext; [|done]. intros. by rewrite He. Qed.

Lemma wf_update th q : NoDup q -> wf th (AdaptiblePQueue.update (ert th) q).
Proof.
  intros. split; [by apply AdaptiblePQueue.update_heap_order|].
  by rewrite (AdaptiblePQueue.update_perm (ert th) q).
Qed.

Lemma top_least th q t : wf th q -> top q = Some t -> t ∈ q /\ forall t', t' ∈ q -> ert th t <= ert th t'.
Proof.
  intros [Hh _] Ht. split; [by apply AdaptiblePQueue.top_elem|].
  intros t' Ht'. by eapply AdaptiblePQueue.top_min.
Qed.

Definition expired (now : Z) (s : thread) : bool :=
  inIoPredictionPhase s && negb (isIoPredictionStillValid now s).

(** The threads [inv], and no others, had their prediction extended. *)
Definition extended (inv : list nat) (th th' : store) : Prop :=
  forall t, th' !!! t = if decide (t ∈ inv) then invalidateIoPrediction (th !!! t) else th !!! t.

Record invalidated (now : Z) (th : store) (q inv rest : list nat) : Prop := {
  inv_split : q ≡ₚ inv ++ rest;
  inv_expired : forall x, x ∈ inv -> expired now (th !!! x) = true;
  inv_first : forall x y, x ∈ inv -> y ∈ rest -> ert th x <= ert th y;
  inv_stop : rest = [] \/ exists y, y ∈ rest /\ (forall z, z ∈ rest -> ert th y <= ert th z) /\
               expired now (th !!! y) = false;
}.

Lemma invalidated_nil now th : invalidated now th [] [] [].
Proof. split; [done|by intros ? ?%not_elem_of_nil|by intros ? ? ?%not_elem_of_nil|by left]. Qed.

Lemma wf_update_thread th q t f : wf th q -> t ∉ q -> wf (update_thread t f th) q.
Proof.
  intros Hwf Ht. eapply wf_ext; [|done]. intros t' Ht'. rewrite ert_update_thread.
  rewrite decide_False; [done|]. by intros ->.
Qed.

Lemma recursivelyUpdate_spec fuel th q state now :
  wf th q -> state ∉ q -> (length q <= fuel)%nat ->
  exists inv rest, invalidated now th q inv rest /\
    let '(th', q') := recursivelyUpdatePendingIoRequests fuel th q state now in
    wf th' q' /\ q' ≡ₚ q /\ extended (state :: inv) th th'.
Proof.
  revert th q state. induction fuel as [|fuel IH]; intros th q state Hwf Hst Hf.
  { destruct q; [|cbn in *; lia]. exists [], []. split; [apply invalidated_nil|]. cbn.
    split_and!; [by apply wf_update_thread|done|]. intros t. rewrite lookup_update_thread.
    repeat case_decide; set_solver. }
  cbn [recursivelyUpdatePendingIoRequests]. destruct q as [|next q].
  { exists [], []. split; [apply invalidated_nil|]. cbn.
    split_and!; [by apply wf_update_thread|done|]. intros t. rewrite lookup_update_thread.
    repeat case_decide; set_solver. }
  cbn [top AdaptiblePQueue.top head]. change (_ && _) with (expired now (th !!! next)).
  destruct (top_least th (next :: q) next Hwf eq_refl) as [_ Hmin].
  destruct (expired now (th !!! next)) eqn:He.
  - destruct (wf_pop th next q Hwf) as (Hwf1&Hp&Hnext).
    destruct (IH th (AdaptiblePQueue.pop (ert th) (next :: q)) next Hwf1) as (inv&rest&Hinv&Hrec);
      [by rewrite Hp|rewrite Hp; cbn in Hf; lia|].
    destruct (recursivelyUpdatePendingIoRequests _ _ _ _ _) as [th1 q1].
    destruct Hrec as (Hwf2&Hp1&Hext). destruct Hinv as [Hs1 Hs2 Hs3 Hs4].
    assert (forall x, x ∈ inv ++ rest <-> x ∈ q) as Hin by (intros; by rewrite <- Hs1, Hp).
    exists (next :: inv), rest. split.
    { split; [cbn; by rewrite <- Hs1, Hp| | |done].
      - intros x [->|Hx]%elem_of_cons; auto.
      - intros x y [->|Hx]%elem_of_cons Hy; [|auto]. apply Hmin. right. apply Hin. set_solver. }
    assert (next ∉ q1) by (by rewrite Hp1, Hp).
    assert (AdaptiblePQueue.push (ert th1) q1 next ≡ₚ next :: q) as Hp2
      by (by rewrite (AdaptiblePQueue.push_perm (ert th1)), Hp1, Hp).
    split_and!; [|done|].
    + apply wf_update_thread; [by apply wf_push|]. by rewrite Hp2.
    + intros t. rewrite lookup_update_thread, !Hext.
      assert (state ∉ next :: inv) as Hsn.
      { intros [->|Hx]%elem_of_cons; [set_solver|]. apply Hst. right. apply Hin. set_solver. }
      destruct (decide (state = t)) as [->|].
      * rewrite decide_False, decide_True by set_solver. done.
      * destruct (decide (t ∈ next :: inv)); [rewrite decide_True by set_solver|rewrite decide_False by set_solver]; done.
  - exists [], (next :: q). split.
    { split; [done|by intros ? ?%not_elem_of_nil|by intros ? ? ?%not_elem_of_nil|].
      right. exists next. split_and!; [left|done|done]. }
    split_and!; [by apply wf_update_thread|done|]. intros t. rewrite lookup_update_thread.
    repeat case_decide; set_solver.
Qed.

Lemma invalidateExpired_keeps th q now : wf th q ->
  wf (invalidateExpiredIoPredictions th q now).1 (invalidateExpiredIoPredictions th q now).2 /\
  (invalidateExpiredIoPredictions th q now).2 ≡ₚ q /\
  forall x, x ∉ q -> (invalidateExpiredIoPredictions th q now).1 !!! x = th !!! x.
Proof.
  intros Hwf. unfold invalidateExpiredIoPredictions. destruct q as [|state q]; [done|].
  destruct (wf_pop th state q Hwf) as (Hwf1&Hp&Hst). cbn [top AdaptiblePQueue.top head].
  destruct (recursivelyUpdate_spec (length (AdaptiblePQueue.pop (ert th) (state :: q))) th
    (AdaptiblePQueue.pop (ert th) (state :: q)) state now) as (inv&rest&Hinv&Hrec); [done|by rewrite Hp|done|].
  destruct (recursivelyUpdatePendingIoRequests _ _ _ _ _) as [th' q']. destruct Hrec as (Hwf2&Hp2&Hext).
  assert (AdaptiblePQueue.push (ert th') q' state ≡ₚ state :: q) as Hq
    by (by rewrite (AdaptiblePQueue.push_perm (ert th')), Hp2, Hp).
  split_and!; [|done|].
  - apply wf_push; [done|]. by rewrite Hp2, Hp.
  - intros x Hx. cbn. rewrite Hext, decide_False; [done|]. intros [->|Hi]%elem_of_cons; [set_solver|].
    apply Hx. right. rewrite <- Hp, (inv_split _ _ _ _ _ Hinv). set_solver.
Qed.

(** When the prediction at the front of the queue expired, it is extended
    together with exactly those that expired too and come before the first
    thread of another kind in virtual time; nobody else is touched, no thread
    is lost or duplicated, and the queue is in order for the new times. *)
Theorem invalidateExpired_spec th q now state :
  wf th q -> top q = Some state ->
  exists q0 inv rest, q ≡ₚ state :: q0 /\ invalidated now th q0 inv rest /\
    let '(th', q') := invalidateExpiredIoPredictions th q now in
    wf th' q' /\ q' ≡ₚ q /\ extended (state :: inv) th th'.
Proof.
  intros Hwf Ht. destruct q as [|x q]; [done|]. injection Ht as ->.
  destruct (wf_pop th state q Hwf) as (Hwf1&Hp&Hst).
  exists (AdaptiblePQueue.pop (ert th) (state :: q)).
  unfold invalidateExpiredIoPredictions. cbn [top AdaptiblePQueue.top head].
  destruct (recursivelyUpdate_spec (length (AdaptiblePQueue.pop (ert th) (state :: q))) th
    (AdaptiblePQueue.pop (ert th) (state :: q)) state now) as (inv&rest&Hinv&Hrec); [done|by rewrite Hp|done|].
  exists inv, rest. split_and!; [by rewrite Hp|done|].
  destruct (recursivelyUpdatePendingIoRequests _ _ _ _ _) as [th' q'].
  destruct Hrec as (Hwf2&Hp2&Hext). split_and!; [|by rewrite (AdaptiblePQueue.push_perm (ert th')), Hp2, Hp|done].
  apply wf_push; [done|]. by rewrite Hp2, Hp.
Qed.

(** *** Choosing the next thread *)

(** Before the scheduler acts on a thread it locked, it asks the queue
    again.  Another thread in front is reported and stays queued.  The same
    thread leaves the queue exactly when it is to be resumed, interrupted or
    simulated: it stays queued while its I/O or the real code after its model
    simulation goes on, and nothing is to be done for one that runs, or that
    another manager controls.  The thread reported has the least time. *)
Theorem getNextIfEqualsElseReturnTop_spec th q locked manager :
  wf th q ->
  let '(r, q') := getNextIfEqualsElseReturnTop th q locked manager in
  wf th q' /\
  (forall t, r = Some t -> t ∈ q /\ (forall t', t' ∈ q -> ert th t <= ert th t')) /\
  (r <> Some locked -> q' = q) /\
  (r = Some locked ->
     (inIoPredictionPhase (th !!! locked) = true /\ q' = q) \/
     (isWaitingRealCodeToCompleteAfterModelSimulation (th !!! locked) = true /\
      getThreadCurrentlyControllingManager (th !!! locked) = Some manager /\ q' = q) \/
     (isRunning (th !!! locked) = false /\ inIoPredictionPhase (th !!! locked) = false /\
      isWaitingRealCodeToCompleteAfterModelSimulation (th !!! locked) = false /\
      q ≡ₚ locked :: q' /\ locked ∉ q')) /\
  (r = None -> q = [] \/ head q = Some locked /\
     (isRunning (th !!! locked) = true \/
      isWaitingRealCodeToCompleteAfterModelSimulation (th !!! locked) = true)).
Proof.
  intros Hwf. unfold getNextIfEqualsElseReturnTop.
  destruct (top q) as [t|] eqn:Ht; [|destruct q; [|done]; split_and!; naive_solver].
  pose proof (top_least th q t Hwf Ht) as Hleast.
  destruct q as [|t0 q]; [done|]. injection Ht as ->.
  destruct (decide (t = locked)) as [->|Hne]; [|split_and!; naive_solver].
  destruct (wf_pop th locked q Hwf) as (Hwf1&Hp&Hnin).
  unfold next_at_top.
  destruct (isRunning _) eqn:Hr; [split_and!; naive_solver|].
  destruct (inIoPredictionPhase _) eqn:Hio; [split_and!; naive_solver|].
  destruct (isWaitingRealCodeToCompleteAfterModelSimulation _) eqn:Hm.
  - case_decide; split_and!; naive_solver.
  - split_and!; [done|naive_solver|done| |done]. intros _. right. right.
    split_and!; [done..|by rewrite Hp|by rewrite Hp].
Qed.

(** *** Moving a thread back *)
Lemma entries_after_spec q t rest : entries_after q t = Some rest -> exists pre, q = pre ++ t :: rest.
Proof.
  induction q as [|x q IH]; [done|]. cbn. case_decide as Hd; [|intros H].
  - intros [= ->]. exists []. by subst.
  - destruct (IH H) as [pre ->]. by exists (x :: pre).
Qed.

Lemma entries_after_elem q t : t ∈ q -> exists rest, entries_after q t = Some rest.
Proof.
  induction q as [|x q IH]; [by intros ?%not_elem_of_nil|]. cbn. case_decide; [by eexists|].
  intros [->|?]%elem_of_cons; [done|auto].
Qed.

Lemma skip_simulating_elem th rest t : skip_simulating th rest = Some t -> t ∈ rest.
Proof.
  induction rest as [|x rest IH]; [done|]. cbn. case_match; [|intros [= ->]; left].
  intros. right. auto.
Qed.

(** Moving a polled thread back: its clock never moves backwards, and if
    it is queued it passes the clock of some queued thread; every other thread
    keeps its clock, the same threads stay queued and the queue is in order
    for the new time. *)
Theorem setThreadToNextBiggestErt_spec th q t :
  wf th q -> (forall t', t' ∈ q -> in_ll (ert th t' + 1)) ->
  let '(th', q') := setThreadToNextBiggestErt th q t in
  wf th' q' /\ q' ≡ₚ q /\
  ert th t <= ert th' t /\ (forall t', t' <> t -> th' !!! t' = th !!! t') /\
  (t ∈ q -> exists next, next ∈ q /\ ert th next < ert th' t).
Proof.
  intros Hwf Hr. unfold setThreadToNextBiggestErt.
  destruct (entries_after q t) as [rest|] eqn:He.
  2: { split_and!; [done|done|done|done|]. intros [? ?]%entries_after_elem. congruence. }
  destruct (entries_after_spec _ _ _ He) as [pre Hq].
  set (next := default _ _).
  assert (next ∈ q) as Hnext.
  { subst next. destruct (skip_simulating th rest) eqn:Hs; cbn.
    - apply skip_simulating_elem in Hs. rewrite Hq. set_solver.
    - destruct (last q) eqn:Hl; cbn; [by apply last_Some_elem_of|]. rewrite Hq. set_solver. }
  clearbody next. split_and!.
  - apply wf_update, Hwf.
  - by rewrite (AdaptiblePQueue.update_perm _ q).
  - rewrite ert_update_thread, decide_True by done. unfold ert, getEstimatedRealTime, Timers.leapTo.
    cbn. case_bool; cbn; lia.
  - intros t' Hne. by rewrite lookup_update_thread, decide_False by done.
  - intros _. exists next. split; [done|].
    rewrite ert_update_thread, decide_True by done. specialize (Hr _ Hnext).
    unfold ert, getEstimatedRealTime, Timers.leapTo, ll_add in *. cbn. rewrite ll_id by done.
    case_bool; cbn; lia.
Qed.

(** *** Yielding *)
Lemma highest_fold th q h :
  let r := foldl (highest_step th) h q in
  h <= r /\
  (forall t, t ∈ q -> isSuspended (th !!! t) || isNativeWaiting (th !!! t) = true -> ert th t <= r) /\
  (r = h \/ exists t, t ∈ q /\ ert th t = r).
Proof.
  revert h. induction q as [|x q IH]; intros h; cbn.
  { split_and!; [lia|by intros ? ?%not_elem_of_nil|by left]. }
  destruct (IH (highest_step th h x)) as (H1&H2&H3). unfold highest_step in *.
  destruct (isSuspended _ || isNativeWaiting _) eqn:Hc; cbn in *.
  - rewrite andb_true_r in *. split_and!.
    + case_bool; lia.
    + intros t [->|Ht]%elem_of_cons Hs; [|auto]. case_bool; lia.
    + destruct H3 as [H3|(t&Ht&H3)]; [|right; exists t; split; [by right|done]].
      case_bool; [right; exists x; split; [left|lia]|by left].
  - rewrite andb_false_r in *. split_and!; [done| |].
    + intros t [->|Ht]%elem_of_cons Hs; [congruence|auto].
    + destruct H3 as [H3|(t&Ht&H3)]; [by left|]. right; exists t; split; [by right|done].
Qed.

(** A thread that yields leaps one nanosecond past the highest runnable
    time: its clock never moves backwards, it comes after every suspended or
    native-waiting thread of the queue, and not later than needed. *)
Theorem yield_goes_last th q t :
  in_ll (getHighestRunnableTime th q t + 1) ->
  let th' := update_thread t (upd_timers (Timers.leapTo (getHighestRunnableTime th q t +ll 1))) th in
  ert th t < ert th' t /\
  (forall t', t' ∈ q -> t' <> t -> isSuspended (th !!! t') || isNativeWaiting (th !!! t') = true ->
     ert th' t' < ert th' t) /\
  (ert th' t = ert th t + 1 \/ exists t', t' ∈ q /\ ert th' t = ert th t' + 1).
Proof.
  intros Hr th'. unfold getHighestRunnableTime in *.
  destruct (highest_fold th q (ert th t)) as (H1&H2&H3).
  set (h := foldl _ _ _) in *.
  assert (ert th' t = h + 1) as Ht.
  { subst th'. rewrite ert_update_thread, decide_True by done.
    unfold getEstimatedRealTime, Timers.leapTo, ll_add. cbn. rewrite ll_id by done.
    change (Timers.estimatedRealTime (timers (th !!! t))) with (ert th t). case_bool; cbn; [done|lia]. }
  rewrite Ht. split_and!; [lia| |].
  - intros t' Hin Hne Hs. subst th'. rewrite ert_update_thread, decide_False by done.
    specialize (H2 t' Hin Hs). lia.
  - destruct H3 as [->|(t'&?&<-)]; [by left|]. right. by exists t'.
Qed.

End queue.

(** Witnesses, with the algorithms of libstdc++: two threads in an I/O
    prediction, the second of which runs until 500. *)
Definition io_thread (ert prediction : Z) : thread :=
  upd_io (IoHandler.setIoPredictionInfo None prediction)
    (setInIo (upd_timers (Timers.setEstimatedRealTime ert) (new_VexThreadState 0 0))).
Definition two_threads : store := {[ 1%nat := io_thread 10 5; 2%nat := io_thread 20 500 ]}.

Lemma two_threads_wf : wf two_threads [1; 2]%nat.
Proof.
  split; [|apply NoDup_cons; split; [set_solver|apply NoDup_singleton]].
  intros i Hi. cbn in Hi. assert (i = 1)%nat as -> by lia. vm_compute. congruence.
Qed.

Lemma invalidateExpired_spec_witness :
  exists q0 inv rest, [1; 2]%nat ≡ₚ 1%nat :: q0 /\ invalidated 100 two_threads q0 inv rest /\
    let '(th', q') := invalidateExpiredIoPredictions two_threads [1; 2]%nat 100 in
    wf th' q' /\ q' ≡ₚ [1; 2]%nat /\ extended (1%nat :: inv) two_threads th'.
Proof. apply (invalidateExpired_spec two_threads [1; 2]%nat 100 1); [apply two_threads_wf|done]. Defined.

Lemma getNextIfEqualsElseReturnTop_spec_witness :
  let '(r, q') := getNextIfEqualsElseReturnTop two_threads [1; 2]%nat 1 0 in
  wf two_threads q' /\ (r = Some 1%nat -> q' = [1; 2]%nat).
Proof.
  pose proof (getNextIfEqualsElseReturnTop_spec two_threads [1; 2]%nat 1 0 two_threads_wf) as H.
  destruct (getNextIfEqualsElseReturnTop _ _ _ _) as [r q']. destruct H as (Hwf&_&_&Hs&_).
  split; [exact Hwf|]. intros Hr. destruct (Hs Hr) as [[_ Hq]|[(Hm&_)|(_&Hio&_)]];
    [exact Hq|vm_compute in Hm; discriminate Hm|vm_compute in Hio; discriminate Hio].
Defined.

Lemma setThreadToNextBiggestErt_spec_witness :
  let '(th', q') := setThreadToNextBiggestErt two_threads [1; 2]%nat 1 in
  wf th' q' /\ q' ≡ₚ [1; 2]%nat /\
  ert two_threads 1 <= ert th' 1 /\ (forall t', t' <> 1%nat -> th' !!! t' = two_threads !!! t') /\
  (1%nat ∈ [1; 2]%nat -> exists next, next ∈ [1; 2]%nat /\ ert two_threads next < ert th' 1).
Proof.
  apply (setThreadToNextBiggestErt_spec two_threads [1; 2]%nat 1 two_threads_wf).
  intros t' Ht'. assert (t' = 1%nat \/ t' = 2%nat) as [->| ->] by set_solver; vm_compute; split; congruence.
Defined.

Lemma yield_goes_last_witness :
  let th' := update_thread 1 (upd_timers (Timers.leapTo
    (getHighestRunnableTime two_threads [1; 2]%nat 1 +ll 1))) two_threads in
  ert two_threads 1 < ert th' 1.
Proof.
  refine (proj1 (yield_goes_last two_threads [1; 2]%nat 1 _)). vm_compute. split; congruence.
Defined.

End ThreadQueue.
