(* ===== verification/Registries.v ===== *)
(** * The lock registries and the object registry

    src/src/vex/registries/LockRegistry.h and LockRegistry.cpp: which monitors
    are locked and who waits for them, in a plain and in a reentrant variant;
    ObjectRegistry.h and ObjectRegistry.cpp: the threads that wait on an
    object.  Threads are named by their identifiers.  Every operation holds
    the registry's mutex from beginning to end and is one step. *)
From S2P Require Import Prelude.

(** The last element of a vector and the vector without it: [*--end()] and
    [pop_back()]. *)
Definition pop_back {A} (l : list A) : option (A * list A) :=
  match reverse l with [] => None | x :: l' => Some (x, reverse l') end.

Lemma pop_back_app {A} (l : list A) x : pop_back (l ++ [x]) = Some (x, l).
Proof. unfold pop_back. by rewrite reverse_snoc, reverse_involutive. Qed.

Lemma pop_back_nil {A} (l : list A) : pop_back l = None -> l = [].
Proof.
  unfold pop_back. destruct (reverse l) eqn:He; [|done]. intros _.
  by rewrite <- (reverse_involutive l), He.
Qed.

Lemma pop_back_Some {A} (l l' : list A) x : pop_back l = Some (x, l') -> l = l' ++ [x].
Proof.
  unfold pop_back. destruct (reverse l) eqn:He; [done|]. intros [= -> <-].
  by rewrite <- (reverse_involutive l), He, reverse_cons.
Qed.

(** ** LockRegistry *)
Module LockRegistry.

Record LockRegistryInfo := mkInfo { threadsContendedOnLock : list nat; monitorLocked : bool }.

Definition new_LockRegistryInfo : LockRegistryInfo := mkInfo [] true.
Definition enterMonitor (i : LockRegistryInfo) := mkInfo i.(threadsContendedOnLock) true.
Definition releaseMonitor (i : LockRegistryInfo) := mkInfo i.(threadsContendedOnLock) false.
Definition isMonitorFree (i : LockRegistryInfo) : bool := negb i.(monitorLocked).
Definition blockOnMonitor (state : nat) (i : LockRegistryInfo) :=
  mkInfo (i.(threadsContendedOnLock) ++ [state]) i.(monitorLocked).

Abbreviation registry := (gmap Z LockRegistryInfo).

Definition tryAcquiringLock (state : nat) (lockId : Z) (r : registry) : bool * registry :=
  match r !! lockId with
  | Some i =>
    if isMonitorFree i then (true, <[lockId := enterMonitor i]> r)
    else (false, <[lockId := blockOnMonitor state i]> r)
  | None => (true, <[lockId := new_LockRegistryInfo]> r)
  end.

(** A thread that waits becomes the owner: the monitor stays locked. *)
Definition releaseAndGetNext (lockId : Z) (r : registry) : option nat * registry :=
  match r !! lockId with
  | Some i =>
    match pop_back i.(threadsContendedOnLock) with
    | None => (None, <[lockId := releaseMonitor i]> r)
    | Some (state, l) => (Some state, <[lockId := mkInfo l i.(monitorLocked)]> r)
    end
  | None => (None, r)
  end.

End LockRegistry.

(** ** ReentrantLockRegistry *)
Module ReentrantLockRegistry.

Record ReentrantLockRegistryInfo := mkInfo {
  threadsContendedOnLock : list nat; monitorLocked : bool; owner : option nat; counter : Z }.

Definition new_ReentrantLockRegistryInfo (state : nat) := mkInfo [] true (Some state) 1.
Definition enterMonitor (state : nat) (i : ReentrantLockRegistryInfo) :=
  mkInfo i.(threadsContendedOnLock) true (Some state) (int_add i.(counter) 1).
Definition releaseMonitor (i : ReentrantLockRegistryInfo) : bool * ReentrantLockRegistryInfo :=
  let c := int_sub i.(counter) 1 in
  if c =? 0 then (true, mkInfo i.(threadsContendedOnLock) false None c)
  else (false, mkInfo i.(threadsContendedOnLock) i.(monitorLocked) i.(owner) c).
Definition setNextOwner (state : nat) (i : ReentrantLockRegistryInfo) :=
  mkInfo i.(threadsContendedOnLock) i.(monitorLocked) (Some state) 1.
Definition isCurrentOwnerThread (state : nat) (i : ReentrantLockRegistryInfo) : bool :=
  bool_decide (i.(owner) = Some state).
Definition isMonitorFree (i : ReentrantLockRegistryInfo) : bool := negb i.(monitorLocked).
Definition blockOnMonitor (state : nat) (i : ReentrantLockRegistryInfo) :=
  mkInfo (i.(threadsContendedOnLock) ++ [state]) i.(monitorLocked) i.(owner) i.(counter).

Abbreviation registry := (gmap Z ReentrantLockRegistryInfo).

Definition tryAcquiringLock (state : nat) (lockId : Z) (r : registry) : bool * registry :=
  match r !! lockId with
  | Some i =>
    if isMonitorFree i || isCurrentOwnerThread state i
    then (true, <[lockId := enterMonitor state i]> r)
    else (false, <[lockId := blockOnMonitor state i]> r)
  | None => (true, <[lockId := new_ReentrantLockRegistryInfo state]> r)
  end.

Definition releaseAndGetNext (lockId : Z) (r : registry) : res (option nat * registry) :=
  match r !! lockId with
  | Some i =>
    let '(released, i) := releaseMonitor i in
    match pop_back i.(threadsContendedOnLock) with
    | Some (state, l) =>
      if released
      then Ok (Some state, <[lockId := setNextOwner state
                               (mkInfo l i.(monitorLocked) i.(owner) i.(counter))]> r)
      else Ok (None, <[lockId := i]> r)
    | None => Ok (None, <[lockId := i]> r)
    end
  | None => Err AssertFailed
  end.

End ReentrantLockRegistry.

(** ** Clients of a monitor

    The threads that were told they own the monitor, once per grant: a thread
    that acquires it, and a thread a release names as the next owner.  Only a
    thread that owns the monitor releases it. *)
Module Clients.

Inductive op := Acquire (t : nat) | Release (t : nat).

Fixpoint remove_one (t : nat) (l : list nat) : list nat :=
  match l with [] => [] | x :: l => if decide (x = t) then l else x :: remove_one t l end.

Definition add_next (next : option nat) (holds : list nat) : list nat :=
  match next with Some t => t :: holds | None => holds end.

Section plain.
Import LockRegistry.
Variable id : Z.

Definition step (o : op) (s : registry * list nat) : registry * list nat :=
  let '(r, holds) := s in
  match o with
  | Acquire t => let '(granted, r) := tryAcquiringLock t id r in
                 (r, if granted : bool then t :: holds else holds)
  | Release t =>
    if decide (t ∈ holds) then
      let '(next, r) := releaseAndGetNext id r in (r, add_next next (remove_one t holds))
    else s
  end.

Definition run (os : list op) : registry * list nat := foldl (fun s o => step o s) (∅, []) os.

Definition waiting (r : registry) : list nat :=
  match r !! id with Some i => i.(threadsContendedOnLock) | None => [] end.

Definition inv (s : registry * list nat) : Prop :=
  match s.1 !! id with
  | None => s.2 = []
  | Some i => if i.(monitorLocked) then exists t, s.2 = [t]
              else s.2 = [] /\ i.(threadsContendedOnLock) = []
  end.

Lemma step_inv o s : inv s -> inv (step o s).
Proof.
  destruct s as [r holds]. unfold inv. cbn. intros Hinv. destruct o as [t|t]; cbn.
  - unfold tryAcquiringLock. destruct (r !! id) as [i|]; cbn.
    + unfold isMonitorFree. destruct (monitorLocked i) eqn:Hm; cbn;
        rewrite lookup_insert_eq; cbn; [by rewrite Hm|]. destruct Hinv as [-> ?]. by eexists.
    + rewrite lookup_insert_eq. cbn. subst. by eexists.
  - case_decide as Ht; [|done]. unfold releaseAndGetNext.
    destruct (r !! id) as [i|]; cbn; [|subst; by apply not_elem_of_nil in Ht].
    destruct (monitorLocked i) eqn:Hm; [|destruct Hinv; subst; by apply not_elem_of_nil in Ht].
    destruct Hinv as [t' ->]. apply list_elem_of_singleton in Ht as <-.
    destruct (pop_back _) as [[next l]|] eqn:Hp; cbn; rewrite lookup_insert_eq; cbn;
      rewrite decide_True by done.
    + by eexists.
    + split; [done|]. by apply pop_back_nil.
Qed.

End plain.

(** The plain lock registry is a correct monitor: after any sequence of
    acquisitions and releases by owners, at most one thread owns the monitor,
    and when nobody owns it nobody waits for it. *)
Theorem plain_mutual_exclusion id os :
  let '(r, holds) := run id os in
  (length holds <= 1)%nat /\ (holds = [] -> waiting id r = []).
Proof.
  assert (inv id (run id os)) as Hinv.
  { unfold run. assert (forall s, inv id s -> inv id (foldl (fun s o => step id o s) s os)) as H.
    { induction os as [|o os IH]; intros s Hs; cbn; [done|]. by apply IH, step_inv. }
    apply H. unfold inv. cbn [fst snd]. by rewrite lookup_empty. }
  destruct (run id os) as [r holds]. unfold inv, waiting in *. cbn in Hinv.
  destruct (r !! id) as [i|]; [|subst; split; [cbn; lia|done]]. destruct (LockRegistry.monitorLocked i).
  - destruct Hinv as [t ->]. split; [cbn; lia|done].
  - destruct Hinv as [-> ?]. split; [cbn; lia|done].
Qed.

Section reentrant.
Import ReentrantLockRegistry.
Variable id : Z.

(** The answer to an acquisition is kept: [true] when it was granted. *)
Definition rstep (o : op) (s : registry * list nat) : res (bool * (registry * list nat)) :=
  let '(r, holds) := s in
  match o with
  | Acquire t => let '(granted, r) := tryAcquiringLock t id r in
                 Ok (granted, (r, if granted : bool then t :: holds else holds))
  | Release t =>
    if decide (t ∈ holds) then
      '(next, r) ← releaseAndGetNext id r;
      Ok (true, (r, add_next next (remove_one t holds)))
    else Ok (true, s)
  end.

Fixpoint rrun (os : list op) (s : registry * list nat) : res (bool * (registry * list nat)) :=
  match os with
  | [] => Ok (true, s)
  | o :: os => '(granted, s) ← rstep o s; '(granted', s) ← rrun os s; Ok (granted && granted', s)
  end.

Definition rinv (s : registry * list nat) : Prop :=
  match s.1 !! id with
  | None => s.2 = []
  | Some i =>
    i.(threadsContendedOnLock) = [] /\ i.(counter) = Z.of_nat (length s.2) /\
    if i.(monitorLocked) then exists t, i.(owner) = Some t /\ s.2 <> [] /\ Forall (eq t) s.2
    else s.2 = []
  end.

Lemma Forall_eq_remove t l : Forall (eq t) l -> t ∈ l -> remove_one t l = tail l.
Proof. intros Hl. destruct Hl as [|x l <- _]; [by intros ?%not_elem_of_nil|]. cbn. by rewrite decide_True. Qed.

Lemma rstep_rinv o s s' :
  rinv s -> Z.of_nat (length s.2) < 2 ^ 31 - 1 -> rstep o s = Ok (true, s') -> rinv s'.
Proof.
  destruct s as [r holds]. unfold rinv. cbn. intros Hinv Hlen Hs. destruct o as [t|t]; cbn in Hs.
  - unfold tryAcquiringLock in Hs. destruct (r !! id) as [i|]; cbn in *.
    + destruct Hinv as (Hw&Hc&Hm). destruct (isMonitorFree i || _) eqn:Hg; [|by simplify_eq].
      injection Hs as <-. cbn. rewrite lookup_insert_eq. cbn. rewrite Hc.
      split_and!; [done|unfold int_add; rewrite wrap_id by lia; lia|].
      exists t. split_and!; [done|done|]. constructor; [done|].
      unfold isMonitorFree, isCurrentOwnerThread in Hg. destruct (monitorLocked i); cbn in *; [|by subst].
      apply bool_decide_eq_true in Hg. destruct Hm as (t'&?&_&?). by simplify_eq.
    + injection Hs as <-. cbn. rewrite lookup_insert_eq. cbn. subst.
      split_and!; [done|done|]. exists t. split_and!; [done|done|by constructor].
  - case_decide as Ht; [|by simplify_eq]. unfold releaseAndGetNext in Hs.
    destruct (r !! id) as [i|]; cbn in *; [|done].
    destruct Hinv as (Hw&Hc&Hm). unfold releaseMonitor in Hs. rewrite Hc in Hs.
    destruct (monitorLocked i) eqn:Hml; [|subst; by apply not_elem_of_nil in Ht].
    destruct Hm as (t'&Ho&Hne&Hall). destruct holds as [|x holds]; [done|].
    pose proof (Forall_inv Hall) as <-. pose proof (Forall_inv_tail Hall) as Htl.
    assert (t = t') as -> by (by eapply Forall_forall in Hall).
    rewrite (Forall_eq_remove t' (t' :: holds)) in Hs by done. cbn [length tail] in Hs, Hlen.
    unfold int_sub in Hs. rewrite wrap_id in Hs by lia.
    destruct (Z.eqb_spec (Z.of_nat (S (length holds)) - 1) 0); cbn in Hs; rewrite Hw in Hs; cbn in Hs;
      injection Hs as <-; cbn; rewrite lookup_insert_eq; cbn.
    + destruct holds; [|cbn in *; lia]. split_and!; [done|lia|done].
    + split_and!; [done|lia|]. exists t'. split_and!; [done| |done].
      intros ->. cbn in *. lia.
Qed.

End reentrant.

(** The reentrant lock registry is a correct reentrant monitor as long as
    nobody has to wait: over any sequence of granted acquisitions and
    releases, all grants belong to one thread, the owner the registry records,
    and the registry's counter is the depth of its recursion. *)
Theorem reentrant_without_contention id os s :
  rrun id os (∅, []) = Ok (true, s) -> Z.of_nat (length os) < 2 ^ 31 - 1 ->
  match s.1 !! id with
  | None => s.2 = []
  | Some i => i.(ReentrantLockRegistry.counter) = Z.of_nat (length s.2) /\
      forall t, t ∈ s.2 -> i.(ReentrantLockRegistry.owner) = Some t
  end.
Proof.
  intros Hrun Hlen.
  assert (forall os s0 b s, rrun id os s0 = Ok (b, s) -> b = true -> rinv id s0 ->
    Z.of_nat (length s0.2) + Z.of_nat (length os) < 2 ^ 31 - 1 -> rinv id s) as H.
  { clear. induction os as [|o os IH]; intros s0 b s Hrun Hb Hi Hlen; cbn in Hrun; [by simplify_eq|].
    destruct (rstep id o s0) as [[g s1]|] eqn:Hstep; cbn in Hrun; [|done].
    destruct (rrun id os s1) as [[g' s2]|] eqn:Hrest; cbn in Hrun; [|done].
    injection Hrun as <- <-. apply andb_true_iff in Hb as [-> ->]. eapply IH; [done|done| |].
    - eapply rstep_rinv; [done| |done]. cbn in Hlen. lia.
    - assert (length s1.2 <= S (length s0.2))%nat; [|cbn in Hlen; lia]. clear - Hstep Hi.
      destruct s0 as [r holds], o as [t|t]; cbn in Hstep.
      + destruct (ReentrantLockRegistry.tryAcquiringLock _ _ _) as [[] ?]; by simplify_eq/=.
      + case_decide as Ht; [|simplify_eq/=; lia].
        destruct (ReentrantLockRegistry.releaseAndGetNext id r) as [[next r']|] eqn:Hr; cbn in Hstep; [|done].
        simplify_eq/=. assert (forall l, length (remove_one t l) <= length l)%nat as Hrm.
        { induction l; cbn; [done|]. case_decide; cbn; lia. }
        specialize (Hrm holds). destruct next; cbn; lia. }
  pose proof (H os _ _ _ Hrun eq_refl eq_refl ltac:(cbn; lia)) as Hinv.
  unfold rinv in Hinv. destruct (s.1 !! id) as [i|]; [|done]. destruct Hinv as (_&Hc&Hm).
  split; [done|]. intros t Ht. destruct (ReentrantLockRegistry.monitorLocked i).
  - destruct Hm as (t'&->&_&Hall). eapply Forall_forall in Hall; [|done]. by subst.
  - rewrite Hm in Ht. by apply not_elem_of_nil in Ht.
Qed.

Lemma reentrant_without_contention_witness :
  match rrun 7 [Acquire 1; Acquire 1; Release 1] (∅, []) with
  | Ok (_, s) => match s.1 !! 7 with
    | None => s.2 = []
    | Some i => i.(ReentrantLockRegistry.counter) = Z.of_nat (length s.2) /\
        forall t, t ∈ s.2 -> i.(ReentrantLockRegistry.owner) = Some t
    end
  | Err _ => False
  end.
Proof.
  destruct (rrun 7 [Acquire 1; Acquire 1; Release 1] (∅, [])) as [[b s]|e] eqn:He;
    [|vm_compute in He; discriminate He].
  apply (reentrant_without_contention 7 [Acquire 1; Acquire 1; Release 1] s).
  - rewrite He. assert (b = true) as -> by (vm_compute in He; congruence). reflexivity.
  - cbn. lia.
Defined.

(** Under contention the reentrant lock registry does not exclude: the
    release that hands the monitor to a waiting thread leaves it marked free,
    and a third thread acquires it while the new owner holds it. *)
Theorem reentrant_monitor_can_be_stolen :
  exists id os s, rrun id os (∅, []) = Ok (false, s) /\ 2%nat ∈ s.2 /\ 3%nat ∈ s.2.
Proof.
  exists 0, [Acquire 1; Acquire 2; Release 1; Acquire 3]. eexists. split.
  - vm_compute. reflexivity.
  - cbn. split; set_solver.
Qed.

End Clients.

(** ** ObjectRegistry *)
Module ObjectRegistry.

Record ObjectRegistryInfo := mkInfo { threadsWaiting : list Z; monitorFree : bool }.

Definition new_ObjectRegistryInfo : ObjectRegistryInfo := mkInfo [] true.
Definition enterMonitor (i : ObjectRegistryInfo) := mkInfo i.(threadsWaiting) false.
Definition releaseMonitor (i : ObjectRegistryInfo) := mkInfo i.(threadsWaiting) true.
Definition isMonitorFree (i : ObjectRegistryInfo) : bool := i.(monitorFree).

(** The registry is an unordered_map<int, ...>: a caller's [long] identifier is
    narrowed to [int] when it is bound to the parameter [const int &objectId]. *)
Abbreviation registry := (gmap Z ObjectRegistryInfo).

Definition narrow (objectId : Z) : Z := wrap 32 objectId.

(** 0 stands for "no thread". *)
Definition findNext (objectId : Z) (r : registry) : Z :=
  match r !! narrow objectId with
  | Some i => default 0 (fst <$> pop_back i.(threadsWaiting))
  | None => 0
  end.

Definition getNext (objectId : Z) (r : registry) : Z * registry :=
  match r !! narrow objectId with
  | Some i =>
    match pop_back i.(threadsWaiting) with
    | Some (value, l) => (value, <[narrow objectId := mkInfo l i.(monitorFree)]> r)
    | None => (0, r)
    end
  | None => (0, r)
  end.

Fixpoint erase_first (threadId : Z) (l : list Z) : list Z :=
  match l with
  | [] => []
  | x :: l => if threadId =? x then l else x :: erase_first threadId l
  end.

Definition erase (objectId threadId : Z) (r : registry) : registry :=
  match r !! narrow objectId with
  | Some i => <[narrow objectId := mkInfo (erase_first threadId i.(threadsWaiting)) i.(monitorFree)]> r
  | None => r
  end.

Definition insert (objectId threadId : Z) (r : registry) : registry :=
  let i := default new_ObjectRegistryInfo (r !! narrow objectId) in
  <[narrow objectId := releaseMonitor (mkInfo (i.(threadsWaiting) ++ [threadId]) i.(monitorFree))]> r.

Definition empty (objectId : Z) (r : registry) : bool :=
  match r !! narrow objectId with
  | Some i => bool_decide (i.(threadsWaiting) = [])
  | None => true
  end.

Definition getObjectRegistryInfo (objectId : Z) (r : registry) : ObjectRegistryInfo * registry :=
  match r !! narrow objectId with
  | Some i => (i, r)
  | None => (new_ObjectRegistryInfo, <[narrow objectId := new_ObjectRegistryInfo]> r)
  end.

Definition isObjectFree (objectId : Z) (r : registry) : bool * registry :=
  let '(i, r) := getObjectRegistryInfo objectId r in (isMonitorFree i, r).

(** The abstract view of the registry: the waiting threads of an object. *)
Definition waiting (r : registry) (objectId : Z) : list Z :=
  match r !! narrow objectId with Some i => i.(threadsWaiting) | None => [] end.

(** Which threads wait for which object, as a function. *)
Lemma waiting_insert r o t o' :
  waiting (insert o t r) o' = waiting r o' ++ if decide (narrow o = narrow o') then [t] else [].
Proof.
  unfold waiting, insert. destruct (decide (narrow o = narrow o')) as [E|].
  - rewrite E, lookup_insert_eq. cbn. by destruct (r !! narrow o').
  - rewrite lookup_insert_ne, app_nil_r by done. done.
Qed.

Lemma waiting_erase r o t o' :
  waiting (erase o t r) o' = if decide (narrow o = narrow o') then erase_first t (waiting r o') else waiting r o'.
Proof.
  unfold waiting, erase. destruct (r !! narrow o) as [i|] eqn:Hi.
  - case_decide as E; [by rewrite <- E, lookup_insert_eq, Hi|by rewrite lookup_insert_ne].
  - case_decide as E; [|done]. by rewrite <- E, Hi.
Qed.

(** [findNext] shows the thread that registered last, and takes nobody off. *)
Lemma findNext_last r o before t : waiting r o = before ++ [t] -> findNext o r = t.
Proof.
  unfold waiting, findNext. destruct (r !! narrow o) as [i|]; [|by intros ?%app_cons_not_nil].
  intros ->. by rewrite pop_back_app.
Qed.

Lemma getNext_spec r o :
  match pop_back (waiting r o) with
  | None => getNext o r = (0, r)
  | Some (t, l) => exists r', getNext o r = (t, r') /\
      forall o', waiting r' o' = if decide (narrow o = narrow o') then l else waiting r o'
  end.
Proof.
  unfold getNext, waiting. destruct (r !! narrow o) as [i|]; [|done].
  destruct (pop_back _) as [[t l]|]; [|done].
  eexists. split; [done|]. intros o'. case_decide as E; [by rewrite <- E, lookup_insert_eq|].
  by rewrite lookup_insert_ne.
Qed.

(** Two objects whose identifiers agree in their low 32 bits are one to the
    registry: notifying the one wakes the threads that wait for the other. *)
Theorem colliding_objects r o t :
  fst (getNext (o + 2 ^ 32) (insert o t r)) = t.
Proof.
  assert (narrow (o + 2 ^ 32) = narrow o) as E.
  { unfold narrow, wrap. f_equal. replace (o + 2 ^ 32 + 2 ^ (32 - 1)) with (o + 2 ^ (32 - 1) + 1 * 2 ^ 32) by lia.
    apply Z_mod_plus_full. }
  pose proof (getNext_spec (insert o t r) (o + 2 ^ 32)) as Hn.
  rewrite waiting_insert, decide_True, pop_back_app in Hn by done. destruct Hn as (r' & -> & _). done.
Qed.

(** The threads a number of notifications of an object wakes. *)
Fixpoint notify (n : nat) (o : Z) (r : registry) : list Z * registry :=
  match n with
  | O => ([], r)
  | S n => let '(t, r) := getNext o r in let '(ts, r) := notify n o r in (t :: ts, r)
  end.

Lemma erase_first_other t l : t ∉ l -> erase_first t l = l.
Proof.
  induction l as [|x l IH]; [done|]. intros [Hx Hl]%not_elem_of_cons. cbn.
  destruct (Z.eqb_spec t x); [congruence|]. by rewrite IH.
Qed.

Lemma erase_first_once t l k : t ∉ l -> erase_first t (l ++ t :: k) = l ++ k.
Proof.
  induction l as [|x l IH]; cbn; [by rewrite Z.eqb_refl|]. intros [Hx Hl]%not_elem_of_cons.
  destruct (Z.eqb_spec t x); [congruence|]. by rewrite IH.
Qed.

(** The threads that wait for an object are notified last come, first
    served: after a thread that waited is erased (its wait timed out or was
    interrupted), notifying the object as often as threads remain wakes each
    of them exactly once, the erased one never, and the next notification
    wakes nobody.  No other object is affected, but for those whose identifier
    has the same low 32 bits, which share the list. *)
Theorem notify_wakes_each_once r o before t after :
  waiting r o = before ++ t :: after -> t ∉ before ->
  let left_ := before ++ after in
  exists r', notify (S (length left_)) o (erase o t r) = (reverse left_ ++ [0], r') /\
    waiting r' o = [] /\ forall o', narrow o' <> narrow o -> waiting r' o' = waiting r o'.
Proof.
  intros Hw Ht left_.
  assert (forall l r, waiting r o = l -> exists r', notify (S (length l)) o r = (reverse l ++ [0], r') /\
    waiting r' o = [] /\ forall o', narrow o' <> narrow o -> waiting r' o' = waiting r o') as H.
  { clear. induction l as [|x l IH] using rev_ind; intros r Hr.
    - pose proof (getNext_spec r o) as Hn. rewrite Hr in Hn. cbn in Hn. exists r.
      cbn. rewrite Hn. split_and!; done.
    - pose proof (getNext_spec r o) as Hn. rewrite Hr, pop_back_app in Hn.
      destruct Hn as (r1&Hn&Hr1). rewrite length_app, Nat.add_1_r.
      cbn [notify]. rewrite Hn. destruct (IH r1) as (r2&Hr2&Hw2&Ho2).
      { by rewrite Hr1, decide_True. }
      exists r2. cbn [notify] in Hr2 |- *. rewrite Hr2. rewrite reverse_snoc. split_and!; [done|done|].
      intros o' Ho'. rewrite Ho2, Hr1, decide_False by done. done. }
  destruct (H left_ (erase o t r)) as (r'&?&?&Ho).
  - rewrite waiting_erase, decide_True, Hw by done. by apply erase_first_once.
  - exists r'. split_and!; [done|done|]. intros o' Ho'. rewrite Ho, waiting_erase, decide_False by done. done.
Qed.

Lemma notify_wakes_each_once_witness :
  exists r', notify 3 5 (erase 5 11 (insert 5 12 (insert 5 11 (insert 5 10 ∅)))) = ([12; 10; 0], r') /\
    waiting r' 5 = [] /\ forall o', narrow o' <> narrow 5 ->
      waiting r' o' = waiting (insert 5 12 (insert 5 11 (insert 5 10 ∅))) o'.
Proof.
  apply (notify_wakes_each_once (insert 5 12 (insert 5 11 (insert 5 10 ∅))) 5 [10] 11 [12]);
    [reflexivity|set_solver].
Defined.

End ObjectRegistry.
