(* ===== verification/ThreadRegistry.v ===== *)
(** * The registry of threads

    src/src/vex/registries/ThreadRegistry.h and ThreadRegistry.cpp: which
    threads VEX controls, which are being spawned and with which time they
    start, joining, and the questions the scheduler asks before it lets
    virtual time leap forward.  The class NwPollingThreadRegistry, which also
    queues the native-waiting threads, is the same record with a queue.

    The iteration order of the [unordered_map] is the order of the list
    [threadStateIndex]; the answers that depend on it are shown to. *)
From Stdlib Require Import Ascii.
From S2P Require Import Prelude Heap AdaptiblePQueue CxxFloat Timers Statistics ThreadParts.
From S2P Require Import ThreadState ThreadQueue.
Import VexThreadState.

Module ThreadRegistry.

Inductive alive := AT_LEAST_ONE_ALIVE | MAYBE_ONE_ALIVE | NONE_ALIVE.

#[export] Instance alive_eq_dec : EqDecision alive.
Proof. solve_decision. Defined.

(** [waitingToJoin] holds, for a thread, the parent that waits for its end
    (the pointer [parentThreadWaitingYouToJoin] of the thread state). *)
Record ThreadRegistry := mkRegistry {
  threadStateIndex : list (Z * nat);
  parentThreadIdsToTheirERTs : gmap Z Z;
  threadsBeingSpawned : Z;
  mainThreadState : option nat;
  mainDefined : bool;
  forwardLeapsAllowed : bool;
  totalThreadsControlled : Z;
  processors : Z;
  waitingToJoin : gmap nat nat;
  nativeWaitingThreadsPQueue : option (list nat);
}.

Definition new_ThreadRegistry (processors : Z) (polling : bool) : ThreadRegistry :=
  mkRegistry [] ∅ 0 None false true 0 processors ∅ (if polling then Some [] else None).

Definition set_index (v : list (Z * nat)) (r : ThreadRegistry) : ThreadRegistry :=
  mkRegistry v r.(parentThreadIdsToTheirERTs) r.(threadsBeingSpawned) r.(mainThreadState) r.(mainDefined)
    r.(forwardLeapsAllowed) r.(totalThreadsControlled) r.(processors) r.(waitingToJoin)
    r.(nativeWaitingThreadsPQueue).
Definition set_parents (v : gmap Z Z) (r : ThreadRegistry) : ThreadRegistry :=
  mkRegistry r.(threadStateIndex) v r.(threadsBeingSpawned) r.(mainThreadState) r.(mainDefined)
    r.(forwardLeapsAllowed) r.(totalThreadsControlled) r.(processors) r.(waitingToJoin)
    r.(nativeWaitingThreadsPQueue).
Definition set_spawned (v : Z) (r : ThreadRegistry) : ThreadRegistry :=
  mkRegistry r.(threadStateIndex) r.(parentThreadIdsToTheirERTs) v r.(mainThreadState) r.(mainDefined)
    r.(forwardLeapsAllowed) r.(totalThreadsControlled) r.(processors) r.(waitingToJoin)
    r.(nativeWaitingThreadsPQueue).
Definition set_main (m : option nat) (d : bool) (r : ThreadRegistry) : ThreadRegistry :=
  mkRegistry r.(threadStateIndex) r.(parentThreadIdsToTheirERTs) r.(threadsBeingSpawned) m d
    r.(forwardLeapsAllowed) r.(totalThreadsControlled) r.(processors) r.(waitingToJoin)
    r.(nativeWaitingThreadsPQueue).
Definition set_leaps (v : bool) (r : ThreadRegistry) : ThreadRegistry :=
  mkRegistry r.(threadStateIndex) r.(parentThreadIdsToTheirERTs) r.(threadsBeingSpawned)
    r.(mainThreadState) r.(mainDefined) v r.(totalThreadsControlled) r.(processors) r.(waitingToJoin)
    r.(nativeWaitingThreadsPQueue).
Definition set_total (v : Z) (r : ThreadRegistry) : ThreadRegistry :=
  mkRegistry r.(threadStateIndex) r.(parentThreadIdsToTheirERTs) r.(threadsBeingSpawned)
    r.(mainThreadState) r.(mainDefined) r.(forwardLeapsAllowed) v r.(processors) r.(waitingToJoin)
    r.(nativeWaitingThreadsPQueue).
Definition set_joins (v : gmap nat nat) (r : ThreadRegistry) : ThreadRegistry :=
  mkRegistry r.(threadStateIndex) r.(parentThreadIdsToTheirERTs) r.(threadsBeingSpawned)
    r.(mainThreadState) r.(mainDefined) r.(forwardLeapsAllowed) r.(totalThreadsControlled) r.(processors)
    v r.(nativeWaitingThreadsPQueue).
Definition set_nw (v : option (list nat)) (r : ThreadRegistry) : ThreadRegistry :=
  mkRegistry r.(threadStateIndex) r.(parentThreadIdsToTheirERTs) r.(threadsBeingSpawned)
    r.(mainThreadState) r.(mainDefined) r.(forwardLeapsAllowed) r.(totalThreadsControlled) r.(processors)
    r.(waitingToJoin) v.

(** ** Threads come and go *)

(** [threadStateIndex[id] = state]. *)
Fixpoint assign (id : Z) (t : nat) (l : list (Z * nat)) : list (Z * nat) :=
  match l with
  | [] => [(id, t)]
  | (id', t') :: l => if id =? id' then (id, t) :: l else (id', t') :: assign id t l
  end.

Fixpoint find_id (id : Z) (l : list (Z * nat)) : option nat :=
  match l with
  | [] => None
  | (id', t) :: l => if id =? id' then Some t else find_id id l
  end.

Definition getCurrentThreadState (threadId : Z) (r : ThreadRegistry) : option nat :=
  find_id threadId r.(threadStateIndex).
Definition isEmpty (r : ThreadRegistry) : bool := bool_decide (r.(threadStateIndex) = []).

Definition decrease_spawned (r : ThreadRegistry) : ThreadRegistry :=
  if r.(threadsBeingSpawned) =? 0 then r else set_spawned (int_sub r.(threadsBeingSpawned) 1) r.

(** [main] tells whether the thread's name is "main". *)
Definition add (main : bool) (t : nat) (th : store) (r : ThreadRegistry) : store * ThreadRegistry :=
  let id := (th !!! t).(jthreadId) in
  let '(th, r) :=
    match r.(parentThreadIdsToTheirERTs) !! id with
    | Some parentErt =>
      (update_thread t (upd_timers (Timers.setEstimatedRealTime parentErt)) th,
       set_parents (delete id r.(parentThreadIdsToTheirERTs)) r)
    | None => (th, r)
    end in
  let r := set_index (assign id t r.(threadStateIndex)) r in
  let r := if main then set_main (Some t) true r else r in
  (th, decrease_spawned (set_total (uint_add r.(totalThreadsControlled) 1) r)).

(** [notifyParentWaitingForYouToJoin] *)
Definition notifyParentWaitingToJoin (t : nat) (th : store) (r : ThreadRegistry) : store :=
  match r.(waitingToJoin) !! t with
  | Some parent => update_thread parent (upd_sched (Scheduling.setAwakeningFromJoin true)) th
  | None => th
  end.

Section queue.
Context `{HO : StdHeapOps}.

Definition erase_id (id : Z) (l : list (Z * nat)) : list (Z * nat) :=
  filter (fun p => p.1 <> id) l.

Definition remove (t : nat) (th : store) (r : ThreadRegistry) : store * ThreadRegistry :=
  let th := notifyParentWaitingToJoin t th r in
  let r := set_index (erase_id (th !!! t).(jthreadId) r.(threadStateIndex)) r in
  let r := set_nw ((fun q => AdaptiblePQueue.eraseAll (ert th) q t) <$> r.(nativeWaitingThreadsPQueue)) r in
  (th, if decide (r.(mainThreadState) = Some t) then set_main None r.(mainDefined) r else r).

Definition setNativeWaiting (t : nat) (th : store) (r : ThreadRegistry) : store * ThreadRegistry :=
  match r.(nativeWaitingThreadsPQueue) with
  | Some q =>
    let th := update_thread t (upd_sched Scheduling.clearThreadBeingCurrentlyPolledForNativeWaiting) th in
    (th, set_nw (Some (AdaptiblePQueue.push (ert th) q t)) r)
  | None => (th, r)
  end.

Definition unsetNativeWaiting (t : nat) (th : store) (r : ThreadRegistry) : ThreadRegistry :=
  match r.(nativeWaitingThreadsPQueue) with
  | Some q => set_nw (Some (AdaptiblePQueue.erase (ert th) q t)) r
  | None => r
  end.

(** The thread that is sent a signal, if one is. *)
Definition pollNativeWaitingThreads (th : store) (r : ThreadRegistry) : option nat * store :=
  match r.(nativeWaitingThreadsPQueue) with
  | Some q =>
    match AdaptiblePQueue.top q with
    | Some t =>
      if (th !!! t).(scheduling).(Scheduling.currentlyPolledForWhetherItIsNativeWaiting) then (None, th)
      else (Some t, update_thread t
              (upd_sched Scheduling.flagThreadBeingCurrentlyPolledForNativeWaiting) th)
    | None => (None, th)
    end
  | None => (None, th)
  end.
End queue.

(** ** Spawning and joining *)

Definition newThreadBeingSpawned (r : ThreadRegistry) : ThreadRegistry :=
  set_spawned (int_add r.(threadsBeingSpawned) 1) r.

Definition newThreadBeingSpawnedBy (parentThreadId newThreadId : Z) (th : store) (r : ThreadRegistry)
    : res ThreadRegistry :=
  match find_id parentThreadId r.(threadStateIndex) with
  | Some p => Ok (newThreadBeingSpawned
      (set_parents (<[newThreadId := ert th p]> r.(parentThreadIdsToTheirERTs)) r))
  | None =>
    if parentThreadId =? 0
    then Ok (newThreadBeingSpawned (set_parents (<[newThreadId := 0]> r.(parentThreadIdsToTheirERTs)) r))
    else Err AssertFailed
  end.

Definition newThreadStarted (r : ThreadRegistry) : ThreadRegistry := decrease_spawned r.

Definition hasThreadParentRegisteredThisThread (id : Z) (r : ThreadRegistry) : bool :=
  bool_decide (is_Some (r.(parentThreadIdsToTheirERTs) !! id)).
Definition getThreadsBeingSpawned (r : ThreadRegistry) : Z := r.(threadsBeingSpawned).
Definition atLeastOneThreadBeingSpawned (r : ThreadRegistry) : bool := negb (r.(threadsBeingSpawned) =? 0).
Definition noProcessThreadsLeft (r : ThreadRegistry) : bool :=
  (r.(threadsBeingSpawned) =? 0) && bool_decide (r.(mainThreadState) = None) && isEmpty r.
Definition isMainStillAlive (r : ThreadRegistry) : bool :=
  negb r.(mainDefined) || bool_decide (r.(mainThreadState) <> None).
Definition forbidForwardLeaps (r : ThreadRegistry) : ThreadRegistry := set_leaps false r.
Definition allowForwardLeaps (r : ThreadRegistry) : ThreadRegistry := set_leaps true r.

(** [None]: a thread is being spawned, the caller tries again. *)
Definition coordinateJoiningThreads (t : nat) (joiningThreadId : Z) (th : store) (r : ThreadRegistry)
    : bool * store * ThreadRegistry :=
  if 0 <? r.(threadsBeingSpawned) then (false, th, r)
  else
    match find_id joiningThreadId r.(threadStateIndex) with
    | Some other =>
      if isDead (th !!! other)
      then (true, update_thread t (upd_sched (Scheduling.setAwakeningFromJoin true)) th, r)
      else (true, th, set_joins (<[other := t]> r.(waitingToJoin)) r)
    | None => (true, update_thread t (upd_sched (Scheduling.setAwakeningFromJoin true)) th, r)
    end.

(** ** Questions before a leap forward *)
Section questions.
Variable th : store.

(** The thread at an entry of the index. *)
Definition at_entry (p : Z * nat) : thread := th !!! p.2.

Definition existsThreadThatIsSuspendedOnHigherErtThanTimeoutAndMightUnblockNativeWaitingThread
    (state : nat) (r : ThreadRegistry) : bool :=
  existsb (fun p => isSuspended (at_entry p) && (ert th state <=? getEstimatedRealTime (at_entry p)))
    r.(threadStateIndex).

(** [systemState] is the operating system's state letter of a thread. *)
Definition areAllNativeWaitingThreadsBlockedAccordingToSystemState (systemState : nat -> ascii)
    (state : nat) (r : ThreadRegistry) : bool :=
  if r.(forwardLeapsAllowed) then
    forallb (fun p =>
      negb ((getEstimatedRealTime (at_entry p) <? ert th state) &&
            (isNativeWaiting (at_entry p) || isInAnyIo (at_entry p)) &&
            negb (isThreadSystemStateBlocked (systemState p.2)))) r.(threadStateIndex)
  else false.

Definition getSummedErtOfAllThreads (r : ThreadRegistry) : Z :=
  foldl (fun total p =>
    let s := at_entry p in
    total +ll (((getEstimatedRealTime s +ll s.(timers).(Timers.localTimeSinceLastResume))
               +ll Z.of_nat (code s.(currentState))) +ll s.(ioHandler).(IoHandler.ioCpuTime)))
    0 r.(threadStateIndex).

(** The loop over the other threads, up to the first that gives an answer. *)
Fixpoint scan (mightUnblock : bool) (ertOfState remainingTime : Z) (l : list (Z * nat)) : alive :=
  match l with
  | [] => NONE_ALIVE
  | p :: l =>
    let s := at_entry p in
    if getEstimatedRealTime s <? ertOfState then
      if isDefinitelyActive s then AT_LEAST_ONE_ALIVE
      else if isNativeWaiting s then if mightUnblock then MAYBE_ONE_ALIVE else AT_LEAST_ONE_ALIVE
      else if (ertOfState -ll getEstimatedRealTime s) <? (remainingTime *ll 2) then MAYBE_ONE_ALIVE
      else scan mightUnblock ertOfState remainingTime l
    else scan mightUnblock ertOfState remainingTime l
  end.

Definition areAnyOtherThreadsActiveInFormerTime (state : nat) (remainingTime : Z) (r : ThreadRegistry)
    : alive :=
  if 0 <? r.(threadsBeingSpawned) then AT_LEAST_ONE_ALIVE
  else if negb r.(forwardLeapsAllowed) then AT_LEAST_ONE_ALIVE
  else scan
    (existsThreadThatIsSuspendedOnHigherErtThanTimeoutAndMightUnblockNativeWaitingThread state r)
    (ert th state) remainingTime r.(threadStateIndex).

Definition getRunningThreadsCount (r : ThreadRegistry) : Z :=
  foldl (fun n p => if isRunning (at_entry p) then int_add n 1 else n) 0 r.(threadStateIndex).

Definition getStatesSnapshot (r : ThreadRegistry) : list Z :=
  foldl (fun counts p =>
    let c := code (at_entry p).(currentState) in <[c := int_add (nthd counts c) 1]> counts)
    (replicate POSSIBLE_THREADSTATES 0) r.(threadStateIndex).

(** Which threads [sanityTest] expects in the queue. *)
Definition counted_in_queue (ioMethodInQueue : bool) (s : thread) : bool :=
  negb (in_state REGISTERING s) && negb (in_state VEX_ZOMBIE s) &&
  if ioMethodInQueue
  then negb ((in_state LEARNING_IO s && (getTimeout s =? -1)) || in_state NATIVE_WAITING s
             || isRunning s || wasAwaken s || (in_state WAITING s && (getTimeout s <=? 0)))
  else (in_state SUSPENDED s && negb (wasAwaken s)) || (in_state WAITING s && (0 <? getTimeout s)).

Definition sanityTest (runnableThreadSize : Z) (ioMethodInQueue : bool) (r : ThreadRegistry) : bool :=
  let countThreadListSize :=
    foldl (fun n p => if counted_in_queue ioMethodInQueue (at_entry p) then int_add n 1 else n) 0
      r.(threadStateIndex) in
  let countRunningThreads :=
    foldl (fun n p => if in_state RUNNING (at_entry p) then int_add n 1 else n) 0 r.(threadStateIndex) in
  if isEmpty r then true
  else if int_add r.(processors) 1 <? Z.abs (int_sub runnableThreadSize countThreadListSize) then false
  else negb (int_add r.(processors) 1 <? countRunningThreads).

Definition leapForbiddingRulesApply (systemState : nat -> ascii) (state : nat) (r : ThreadRegistry) : bool :=
  (0 <? r.(threadsBeingSpawned)) ||
  existsb (fun p =>
    let s := at_entry p in
    (getEstimatedRealTime s <=? ert th state) &&
    (isDefinitelyActiveInIo s
     || (isRegistering s || wasAwaken s || isWaitingRealCodeToCompleteAfterModelSimulation s
         || isRunning s
         || (isNativeWaiting s && negb (s.(scheduling).(Scheduling.waitingInNativeVTFcode) =? 0))
         || isAwakeningAfterJoin s)
     || isNativeWaiting s)) r.(threadStateIndex) ||
  existsb (fun p =>
    let s := at_entry p in
    (getEstimatedRealTime s <=? ert th state) &&
    (in_state WAITING s || isNativeWaiting s || isInPossiblyBlockingIo s) &&
    negb (isThreadSystemStateBlocked (systemState p.2))) r.(threadStateIndex).
End questions.

(** ** When nobody else is alive *)

(** A thread that holds a leap of [remainingTime] to the time [e] up. *)
Definition holds_up (e remainingTime : Z) (s : thread) : bool :=
  (getEstimatedRealTime s <? e) &&
  (isDefinitelyActive s || isNativeWaiting s
   || ((e -ll getEstimatedRealTime s) <? (remainingTime *ll 2))).

Lemma scan_none th m e rem l :
  scan th m e rem l = NONE_ALIVE <-> Forall (fun p => holds_up e rem (at_entry th p) = false) l.
Proof.
  unfold holds_up. induction l as [|p l IH]; cbn; [split; [constructor|done]|].
  rewrite Forall_cons, <- IH.
  destruct (_ <? e); cbn; [|tauto]. destruct (isDefinitelyActive _); cbn; [split; [done|by intros [? _]]|].
  destruct (isNativeWaiting _); cbn; [destruct m; (split; [done|by intros [? _]])|].
  destruct (_ <? rem *ll 2); [split; [done|by intros [? _]]|tauto].
Qed.

(** The registry reports that no other thread is alive exactly when no
    thread is being spawned, leaps are allowed, and no registered thread of an
    earlier time is active, waits in native code, or is closer in time than
    twice the leap.  In particular this answer does not depend on the order in
    which the registry happens to iterate. *)
Theorem nobody_alive_iff th state rem r index :
  index ≡ₚ r.(threadStateIndex) ->
  areAnyOtherThreadsActiveInFormerTime th state rem (set_index index r) = NONE_ALIVE <->
  r.(threadsBeingSpawned) <= 0 /\ r.(forwardLeapsAllowed) = true /\
  forall id t, (id, t) ∈ r.(threadStateIndex) -> holds_up (ert th state) rem (th !!! t) = false.
Proof.
  intros Hp. unfold areAnyOtherThreadsActiveInFormerTime. cbn [threadsBeingSpawned forwardLeapsAllowed set_index].
  destruct (Z.ltb_spec 0 r.(threadsBeingSpawned)); [split; [done|lia]|].
  destruct r.(forwardLeapsAllowed); cbn [negb]; [|split; [done|naive_solver]].
  rewrite scan_none. cbn [threadStateIndex set_index]. rewrite Hp, Forall_forall. split.
  - intros Hf. split_and!; [done|done|]. intros id t Hin. apply (Hf _ Hin).
  - intros (_&_&Hf) [id t] Hin. by apply (Hf id t).
Qed.

Lemma nobody_alive_iff_witness :
  areAnyOtherThreadsActiveInFormerTime ∅ 1 5 (set_index [] (new_ThreadRegistry 2 false)) = NONE_ALIVE <->
  0 <= 0 /\ true = true /\
  forall id t, (id, t) ∈ @nil (Z * nat) -> holds_up (ert ∅ 1) 5 ((∅ : store) !!! t) = false.
Proof. apply (nobody_alive_iff ∅ 1 5 (new_ThreadRegistry 2 false) []). reflexivity. Defined.

(** The other two answers depend on the iteration order: with a blocked
    thread close behind and a running one, the same registry answers "maybe"
    or "at least one" depending on which of them is found first, and only the
    "maybe" lets the scheduler leap. *)
Theorem alive_answer_depends_on_order :
  exists th state rem l1 l2, l1 ≡ₚ l2 /\
    areAnyOtherThreadsActiveInFormerTime th state rem (set_index l1 (new_ThreadRegistry 2 false))
      = MAYBE_ONE_ALIVE /\
    areAnyOtherThreadsActiveInFormerTime th state rem (set_index l2 (new_ThreadRegistry 2 false))
      = AT_LEAST_ONE_ALIVE.
Proof.
  set (at_time e c := upd_timers (Timers.setEstimatedRealTime e)
                        (setNewState c (new_VexThreadState 0 0))).
  exists {[ 1%nat := at_time 100 WAITING; 2%nat := at_time 95 WAITING; 3%nat := at_time 5 RUNNING ]},
    1%nat, 100, [(2, 2%nat); (3, 3%nat)], [(3, 3%nat); (2, 2%nat)].
  split; [apply Permutation_swap|]. split; vm_compute; reflexivity.
Qed.

(** ** A spawned thread starts at its parent's time *)
Lemma find_id_assign id t l id' :
  find_id id' (assign id t l) = if id' =? id then Some t else find_id id' l.
Proof.
  induction l as [|[k t'] l IH]; cbn; [done|].
  destruct (Z.eqb_spec id k) as [->|]; cbn; [by destruct (id' =? k)|]. rewrite IH.
  destruct (Z.eqb_spec id' k), (Z.eqb_spec id' id); subst; done.
Qed.

(** From the announcement of a new thread by its parent to its
    registration, whatever happens to the clocks of other threads in between:
    the new thread is registered under its identifier, starts at the time its
    parent had when it spawned it, its announcement is used up, and the number
    of threads being spawned is what it was. *)
Theorem spawned_thread_inherits_time parentId p main t th th' r r' :
  find_id parentId r.(threadStateIndex) = Some p ->
  0 <= r.(threadsBeingSpawned) < 2 ^ 31 - 1 ->
  newThreadBeingSpawnedBy parentId (th' !!! t).(jthreadId) th r = Ok r' ->
  let '(th2, r2) := add main t th' r' in
  let id := (th' !!! t).(jthreadId) in
  getCurrentThreadState id r2 = Some t /\
  ert th2 t = ert th p /\ (forall t', t' <> t -> th2 !!! t' = th' !!! t') /\
  hasThreadParentRegisteredThisThread id r2 = false /\
  r2.(threadsBeingSpawned) = r.(threadsBeingSpawned).
Proof.
  intros Hp Hs Hr'. set (id := (th' !!! t).(jthreadId)) in *.
  unfold newThreadBeingSpawnedBy in Hr'. rewrite Hp in Hr'. injection Hr' as <-.
  unfold add. fold id.
  cbn [newThreadBeingSpawned set_spawned set_parents parentThreadIdsToTheirERTs].
  rewrite lookup_insert_eq.
  match goal with |- context [decrease_spawned ?x] => set (rx := x) end.
  assert (rx.(threadsBeingSpawned) = r.(threadsBeingSpawned) + 1) as Hn.
  { subst rx. destruct main; cbn; unfold int_add; rewrite wrap_id; lia. }
  assert (decrease_spawned rx = set_spawned r.(threadsBeingSpawned) rx) as ->.
  { unfold decrease_spawned. rewrite Hn. destruct (Z.eqb_spec (r.(threadsBeingSpawned) + 1) 0); [lia|].
    f_equal. unfold int_sub. rewrite wrap_id; lia. }
  split_and!.
  - unfold getCurrentThreadState. subst rx. destruct main; cbn; rewrite find_id_assign, Z.eqb_refl; done.
  - rewrite ert_update_thread, decide_True by done. done.
  - intros t' Ht'. by rewrite lookup_update_thread, decide_False.
  - unfold hasThreadParentRegisteredThisThread. apply bool_decide_eq_false.
    subst rx. destruct main; cbn; rewrite lookup_delete_eq; by intros [].
  - subst rx. by destruct main.
Qed.

Definition two : store :=
  {[ 1%nat := upd_timers (Timers.setEstimatedRealTime 50) (new_VexThreadState 0 10);
     2%nat := new_VexThreadState 0 20 ]}.

Lemma spawned_thread_inherits_time_witness :
  exists r', newThreadBeingSpawnedBy 10 20 two (set_index [(10, 1%nat)] (new_ThreadRegistry 2 false)) = Ok r' /\
  let '(th2, r2) := add false 2 two r' in
  getCurrentThreadState 20 r2 = Some 2%nat /\ ert th2 2 = ert two 1.
Proof.
  eexists. split; [reflexivity|].
  pose proof (spawned_thread_inherits_time 10 1 false 2 two two
    (set_index [(10, 1%nat)] (new_ThreadRegistry 2 false)) _ eq_refl ltac:(cbn; lia) eq_refl) as H.
  destruct (add _ _ _ _) as [th2 r2]. destruct H as (H1&H2&_). split; [exact H1|exact H2].
Defined.

(** ** Joining *)

(** A thread that joins another is flagged as awakening exactly when the
    other has ended: at once if it is not registered or dead, and otherwise
    not before the other is removed from the registry, which flags it. *)
Theorem join_is_flagged `{HO : StdHeapOps} joiner joinedId th r th1 r1 :
  coordinateJoiningThreads joiner joinedId th r = (true, th1, r1) ->
  match getCurrentThreadState joinedId r with
  | Some other =>
    if isDead (th !!! other) then isAwakeningAfterJoin (th1 !!! joiner) = true
    else th1 = th /\ forall th2, isAwakeningAfterJoin ((remove other th2 r1).1 !!! joiner) = true
  | None => isAwakeningAfterJoin (th1 !!! joiner) = true
  end.
Proof.
  unfold coordinateJoiningThreads, getCurrentThreadState. case_match; [done|].
  assert (forall t th, isAwakeningAfterJoin
    (update_thread t (upd_sched (Scheduling.setAwakeningFromJoin true)) th !!! t) = true) as Hflag.
  { intros. by rewrite lookup_update_thread, decide_True. }
  destruct (find_id _ _) as [other|]; [|intros [= <- <-]; apply Hflag].
  destruct (isDead _); [intros [= <- <-]; apply Hflag|].
  intros [= <- <-]. split; [done|]. intros th2. unfold remove, notifyParentWaitingToJoin. cbn.
  rewrite lookup_insert_eq. apply Hflag.
Qed.

Lemma join_is_flagged_witness :
  let '(ok, th1, r1) := coordinateJoiningThreads 2 10 two (set_index [(10, 1%nat)] (new_ThreadRegistry 2 false)) in
  ok = true /\ th1 = two /\ forall th2, isAwakeningAfterJoin ((remove 1 th2 r1).1 !!! 2%nat) = true.
Proof.
  split; [reflexivity|].
  set (r0 := set_index [(10, 1%nat)] (new_ThreadRegistry 2 false)).
  pose proof (join_is_flagged 2 10 two r0 two (set_joins (<[1%nat := 2%nat]> r0.(waitingToJoin)) r0) eq_refl)
    as H.
  change (getCurrentThreadState 10 r0) with (Some 1%nat) in H. cbv iota in H.
  assert (isDead (two !!! 1%nat) = false) as Hd by reflexivity. rewrite Hd in H. exact H.
Defined.

End ThreadRegistry.
