(* ===== verification/ThreadManager.v ===== *)
(** * The thread manager

    The scheduler of one core, src/src/vex/scheduler/ThreadManager.h and
    ThreadManager.cpp, over the threads, the queue, the registries and the
    timeline it shares with the threads it controls.

    A thread calls its manager to suspend itself, to wait or to end; the
    scheduler thread chooses the next thread and resumes it.  A call of a
    thread that blocks stops the thread where it waits for its condition
    variable: it returns [BlockedAt] with what is left to do, which
    [resume_frames] carries out when the scheduler has resumed the thread.
    Readings of the host ([cpuNow], [realNow]), the answer of a signalled
    thread and the operating system's states are arguments.  Logging and
    visualisation are left out. *)
From Stdlib Require Import Ascii.
From S2P Require Import Prelude Heap AdaptiblePQueue CxxFloat Timers Controllers Statistics.
From S2P Require Import ThreadParts ThreadState ThreadQueue Registries ThreadRegistry.
Import VexThreadState.

Module ThreadManager.

Definition SUSPEND_OPT_DONT_UPDATE_THREAD_TIME : Z := 1.
Definition SUSPEND_OPT_FORCE_SUSPEND : Z := 2.
Definition SUSPEND_OPT_THREAD_ALREADY_IN_LIST : Z := 4.
Definition SUSPEND_OPT_DONT_WAKE_UP_SCHEDULER : Z := 8.

Definition has_option (options opt : Z) : bool := negb (Z.land options opt =? 0).

(** The literals 0.75 and 1.2: the nearest doubles. *)
Definition f64_0_75 : float := SFdiv 53 1024 (ll_to_f64 3) (ll_to_f64 4).
Definition f64_1_2 : float := SFdiv 53 1024 (ll_to_f64 12) (ll_to_f64 10).

(** ** The state a manager works on

    The last three members are those of [StrictParallelThreadManager]; the base
    class leaves them at zero. *)
Section manager.
Variable T : Type.

Record World := mkWorld {
  threads : store;
  queue : list nat;
  registry : ThreadRegistry.ThreadRegistry;
  objects : ObjectRegistry.registry;
  timeline : T;
  runningThread : option nat;
  schedulerTimeslot : Z;
  defaultSchedulerTimeslot : Z;
  numberOfNativeWaitingThreads : Z;
  schedulerWaitingForTimeslotExpiry : bool;
  forceMinimumTimeslotSelection : bool;
  decreaseSchedulerSleepingTimeBy : Z;
  timedOutsSucceeded : Z;
  timedOutsFailed : Z;
  timesYielding : Z;
  timesOfMinimumTimeslotForcing : Z;
  posixSignalsSent : Z;
  lastGlobalVirtualTime : Z;
  lastTotalThreadERT : Z;
  pendingNotifications : Z;
  lastResumed : option nat;
  lastSuspended : option nat;
  currentTimeScalingFactor : float;
  timeWaitingFactorChanged : bool;
  freeze : Z;
  synchronizationWaits : Z;
  normalContinuations : Z;
  blockedByErt : Z;
}.

Definition set_threads (v : store) (r : World) : World := mkWorld v (r.(queue)) (r.(registry))
  (r.(objects)) (r.(timeline)) (r.(runningThread)) (r.(schedulerTimeslot))
  (r.(defaultSchedulerTimeslot)) (r.(numberOfNativeWaitingThreads))
  (r.(schedulerWaitingForTimeslotExpiry)) (r.(forceMinimumTimeslotSelection))
  (r.(decreaseSchedulerSleepingTimeBy)) (r.(timedOutsSucceeded)) (r.(timedOutsFailed))
  (r.(timesYielding)) (r.(timesOfMinimumTimeslotForcing)) (r.(posixSignalsSent))
  (r.(lastGlobalVirtualTime)) (r.(lastTotalThreadERT)) (r.(pendingNotifications))
  (r.(lastResumed)) (r.(lastSuspended)) (r.(currentTimeScalingFactor))
  (r.(timeWaitingFactorChanged)) (r.(freeze))
  (r.(synchronizationWaits)) (r.(normalContinuations)) (r.(blockedByErt)).
Definition set_queue (v : list nat) (r : World) : World := mkWorld (r.(threads)) v (r.(registry))
  (r.(objects)) (r.(timeline)) (r.(runningThread)) (r.(schedulerTimeslot))
  (r.(defaultSchedulerTimeslot)) (r.(numberOfNativeWaitingThreads))
  (r.(schedulerWaitingForTimeslotExpiry)) (r.(forceMinimumTimeslotSelection))
  (r.(decreaseSchedulerSleepingTimeBy)) (r.(timedOutsSucceeded)) (r.(timedOutsFailed))
  (r.(timesYielding)) (r.(timesOfMinimumTimeslotForcing)) (r.(posixSignalsSent))
  (r.(lastGlobalVirtualTime)) (r.(lastTotalThreadERT)) (r.(pendingNotifications))
  (r.(lastResumed)) (r.(lastSuspended)) (r.(currentTimeScalingFactor))
  (r.(timeWaitingFactorChanged)) (r.(freeze))
  (r.(synchronizationWaits)) (r.(normalContinuations)) (r.(blockedByErt)).
Definition set_registry (v : ThreadRegistry.ThreadRegistry) (r : World) : World := mkWorld
  (r.(threads)) (r.(queue)) v (r.(objects)) (r.(timeline)) (r.(runningThread))
  (r.(schedulerTimeslot)) (r.(defaultSchedulerTimeslot)) (r.(numberOfNativeWaitingThreads))
  (r.(schedulerWaitingForTimeslotExpiry)) (r.(forceMinimumTimeslotSelection))
  (r.(decreaseSchedulerSleepingTimeBy)) (r.(timedOutsSucceeded)) (r.(timedOutsFailed))
  (r.(timesYielding)) (r.(timesOfMinimumTimeslotForcing)) (r.(posixSignalsSent))
  (r.(lastGlobalVirtualTime)) (r.(lastTotalThreadERT)) (r.(pendingNotifications))
  (r.(lastResumed)) (r.(lastSuspended)) (r.(currentTimeScalingFactor))
  (r.(timeWaitingFactorChanged)) (r.(freeze))
  (r.(synchronizationWaits)) (r.(normalContinuations)) (r.(blockedByErt)).
Definition set_objects (v : ObjectRegistry.registry) (r : World) : World := mkWorld (r.(threads))
  (r.(queue)) (r.(registry)) v (r.(timeline)) (r.(runningThread)) (r.(schedulerTimeslot))
  (r.(defaultSchedulerTimeslot)) (r.(numberOfNativeWaitingThreads))
  (r.(schedulerWaitingForTimeslotExpiry)) (r.(forceMinimumTimeslotSelection))
  (r.(decreaseSchedulerSleepingTimeBy)) (r.(timedOutsSucceeded)) (r.(timedOutsFailed))
  (r.(timesYielding)) (r.(timesOfMinimumTimeslotForcing)) (r.(posixSignalsSent))
  (r.(lastGlobalVirtualTime)) (r.(lastTotalThreadERT)) (r.(pendingNotifications))
  (r.(lastResumed)) (r.(lastSuspended)) (r.(currentTimeScalingFactor))
  (r.(timeWaitingFactorChanged)) (r.(freeze))
  (r.(synchronizationWaits)) (r.(normalContinuations)) (r.(blockedByErt)).
Definition set_timeline (v : T) (r : World) : World := mkWorld (r.(threads)) (r.(queue))
  (r.(registry)) (r.(objects)) v (r.(runningThread)) (r.(schedulerTimeslot))
  (r.(defaultSchedulerTimeslot)) (r.(numberOfNativeWaitingThreads))
  (r.(schedulerWaitingForTimeslotExpiry)) (r.(forceMinimumTimeslotSelection))
  (r.(decreaseSchedulerSleepingTimeBy)) (r.(timedOutsSucceeded)) (r.(timedOutsFailed))
  (r.(timesYielding)) (r.(timesOfMinimumTimeslotForcing)) (r.(posixSignalsSent))
  (r.(lastGlobalVirtualTime)) (r.(lastTotalThreadERT)) (r.(pendingNotifications))
  (r.(lastResumed)) (r.(lastSuspended)) (r.(currentTimeScalingFactor))
  (r.(timeWaitingFactorChanged)) (r.(freeze))
  (r.(synchronizationWaits)) (r.(normalContinuations)) (r.(blockedByErt)).
Definition set_runningThread (v : option nat) (r : World) : World := mkWorld (r.(threads))
  (r.(queue)) (r.(registry)) (r.(objects)) (r.(timeline)) v (r.(schedulerTimeslot))
  (r.(defaultSchedulerTimeslot)) (r.(numberOfNativeWaitingThreads))
  (r.(schedulerWaitingForTimeslotExpiry)) (r.(forceMinimumTimeslotSelection))
  (r.(decreaseSchedulerSleepingTimeBy)) (r.(timedOutsSucceeded)) (r.(timedOutsFailed))
  (r.(timesYielding)) (r.(timesOfMinimumTimeslotForcing)) (r.(posixSignalsSent))
  (r.(lastGlobalVirtualTime)) (r.(lastTotalThreadERT)) (r.(pendingNotifications))
  (r.(lastResumed)) (r.(lastSuspended)) (r.(currentTimeScalingFactor))
  (r.(timeWaitingFactorChanged)) (r.(freeze))
  (r.(synchronizationWaits)) (r.(normalContinuations)) (r.(blockedByErt)).
Definition set_schedulerTimeslot (v : Z) (r : World) : World := mkWorld (r.(threads)) (r.(queue))
  (r.(registry)) (r.(objects)) (r.(timeline)) (r.(runningThread)) v (r.(defaultSchedulerTimeslot))
  (r.(numberOfNativeWaitingThreads)) (r.(schedulerWaitingForTimeslotExpiry))
  (r.(forceMinimumTimeslotSelection)) (r.(decreaseSchedulerSleepingTimeBy))
  (r.(timedOutsSucceeded)) (r.(timedOutsFailed)) (r.(timesYielding))
  (r.(timesOfMinimumTimeslotForcing)) (r.(posixSignalsSent)) (r.(lastGlobalVirtualTime))
  (r.(lastTotalThreadERT)) (r.(pendingNotifications)) (r.(lastResumed)) (r.(lastSuspended))
  (r.(currentTimeScalingFactor)) (r.(timeWaitingFactorChanged)) (r.(freeze))
  (r.(synchronizationWaits)) (r.(normalContinuations)) (r.(blockedByErt)).
Definition set_defaultSchedulerTimeslot (v : Z) (r : World) : World := mkWorld (r.(threads))
  (r.(queue)) (r.(registry)) (r.(objects)) (r.(timeline)) (r.(runningThread))
  (r.(schedulerTimeslot)) v (r.(numberOfNativeWaitingThreads))
  (r.(schedulerWaitingForTimeslotExpiry)) (r.(forceMinimumTimeslotSelection))
  (r.(decreaseSchedulerSleepingTimeBy)) (r.(timedOutsSucceeded)) (r.(timedOutsFailed))
  (r.(timesYielding)) (r.(timesOfMinimumTimeslotForcing)) (r.(posixSignalsSent))
  (r.(lastGlobalVirtualTime)) (r.(lastTotalThreadERT)) (r.(pendingNotifications))
  (r.(lastResumed)) (r.(lastSuspended)) (r.(currentTimeScalingFactor))
  (r.(timeWaitingFactorChanged)) (r.(freeze))
  (r.(synchronizationWaits)) (r.(normalContinuations)) (r.(blockedByErt)).
Definition set_numberOfNativeWaitingThreads (v : Z) (r : World) : World := mkWorld (r.(threads))
  (r.(queue)) (r.(registry)) (r.(objects)) (r.(timeline)) (r.(runningThread))
  (r.(schedulerTimeslot)) (r.(defaultSchedulerTimeslot)) v (r.(schedulerWaitingForTimeslotExpiry))
  (r.(forceMinimumTimeslotSelection)) (r.(decreaseSchedulerSleepingTimeBy))
  (r.(timedOutsSucceeded)) (r.(timedOutsFailed)) (r.(timesYielding))
  (r.(timesOfMinimumTimeslotForcing)) (r.(posixSignalsSent)) (r.(lastGlobalVirtualTime))
  (r.(lastTotalThreadERT)) (r.(pendingNotifications)) (r.(lastResumed)) (r.(lastSuspended))
  (r.(currentTimeScalingFactor)) (r.(timeWaitingFactorChanged)) (r.(freeze))
  (r.(synchronizationWaits)) (r.(normalContinuations)) (r.(blockedByErt)).
Definition set_schedulerWaitingForTimeslotExpiry (v : bool) (r : World) : World := mkWorld
  (r.(threads)) (r.(queue)) (r.(registry)) (r.(objects)) (r.(timeline)) (r.(runningThread))
  (r.(schedulerTimeslot)) (r.(defaultSchedulerTimeslot)) (r.(numberOfNativeWaitingThreads)) v
  (r.(forceMinimumTimeslotSelection)) (r.(decreaseSchedulerSleepingTimeBy))
  (r.(timedOutsSucceeded)) (r.(timedOutsFailed)) (r.(timesYielding))
  (r.(timesOfMinimumTimeslotForcing)) (r.(posixSignalsSent)) (r.(lastGlobalVirtualTime))
  (r.(lastTotalThreadERT)) (r.(pendingNotifications)) (r.(lastResumed)) (r.(lastSuspended))
  (r.(currentTimeScalingFactor)) (r.(timeWaitingFactorChanged)) (r.(freeze))
  (r.(synchronizationWaits)) (r.(normalContinuations)) (r.(blockedByErt)).
Definition set_forceMinimumTimeslotSelection (v : bool) (r : World) : World := mkWorld
  (r.(threads)) (r.(queue)) (r.(registry)) (r.(objects)) (r.(timeline)) (r.(runningThread))
  (r.(schedulerTimeslot)) (r.(defaultSchedulerTimeslot)) (r.(numberOfNativeWaitingThreads))
  (r.(schedulerWaitingForTimeslotExpiry)) v (r.(decreaseSchedulerSleepingTimeBy))
  (r.(timedOutsSucceeded)) (r.(timedOutsFailed)) (r.(timesYielding))
  (r.(timesOfMinimumTimeslotForcing)) (r.(posixSignalsSent)) (r.(lastGlobalVirtualTime))
  (r.(lastTotalThreadERT)) (r.(pendingNotifications)) (r.(lastResumed)) (r.(lastSuspended))
  (r.(currentTimeScalingFactor)) (r.(timeWaitingFactorChanged)) (r.(freeze))
  (r.(synchronizationWaits)) (r.(normalContinuations)) (r.(blockedByErt)).
Definition set_decreaseSchedulerSleepingTimeBy (v : Z) (r : World) : World := mkWorld
  (r.(threads)) (r.(queue)) (r.(registry)) (r.(objects)) (r.(timeline)) (r.(runningThread))
  (r.(schedulerTimeslot)) (r.(defaultSchedulerTimeslot)) (r.(numberOfNativeWaitingThreads))
  (r.(schedulerWaitingForTimeslotExpiry)) (r.(forceMinimumTimeslotSelection)) v
  (r.(timedOutsSucceeded)) (r.(timedOutsFailed)) (r.(timesYielding))
  (r.(timesOfMinimumTimeslotForcing)) (r.(posixSignalsSent)) (r.(lastGlobalVirtualTime))
  (r.(lastTotalThreadERT)) (r.(pendingNotifications)) (r.(lastResumed)) (r.(lastSuspended))
  (r.(currentTimeScalingFactor)) (r.(timeWaitingFactorChanged)) (r.(freeze))
  (r.(synchronizationWaits)) (r.(normalContinuations)) (r.(blockedByErt)).
Definition set_timedOutsSucceeded (v : Z) (r : World) : World := mkWorld (r.(threads)) (r.(queue))
  (r.(registry)) (r.(objects)) (r.(timeline)) (r.(runningThread)) (r.(schedulerTimeslot))
  (r.(defaultSchedulerTimeslot)) (r.(numberOfNativeWaitingThreads))
  (r.(schedulerWaitingForTimeslotExpiry)) (r.(forceMinimumTimeslotSelection))
  (r.(decreaseSchedulerSleepingTimeBy)) v (r.(timedOutsFailed)) (r.(timesYielding))
  (r.(timesOfMinimumTimeslotForcing)) (r.(posixSignalsSent)) (r.(lastGlobalVirtualTime))
  (r.(lastTotalThreadERT)) (r.(pendingNotifications)) (r.(lastResumed)) (r.(lastSuspended))
  (r.(currentTimeScalingFactor)) (r.(timeWaitingFactorChanged)) (r.(freeze))
  (r.(synchronizationWaits)) (r.(normalContinuations)) (r.(blockedByErt)).
Definition set_timedOutsFailed (v : Z) (r : World) : World := mkWorld (r.(threads)) (r.(queue))
  (r.(registry)) (r.(objects)) (r.(timeline)) (r.(runningThread)) (r.(schedulerTimeslot))
  (r.(defaultSchedulerTimeslot)) (r.(numberOfNativeWaitingThreads))
  (r.(schedulerWaitingForTimeslotExpiry)) (r.(forceMinimumTimeslotSelection))
  (r.(decreaseSchedulerSleepingTimeBy)) (r.(timedOutsSucceeded)) v (r.(timesYielding))
  (r.(timesOfMinimumTimeslotForcing)) (r.(posixSignalsSent)) (r.(lastGlobalVirtualTime))
  (r.(lastTotalThreadERT)) (r.(pendingNotifications)) (r.(lastResumed)) (r.(lastSuspended))
  (r.(currentTimeScalingFactor)) (r.(timeWaitingFactorChanged)) (r.(freeze))
  (r.(synchronizationWaits)) (r.(normalContinuations)) (r.(blockedByErt)).
Definition set_timesYielding (v : Z) (r : World) : World := mkWorld (r.(threads)) (r.(queue))
  (r.(registry)) (r.(objects)) (r.(timeline)) (r.(runningThread)) (r.(schedulerTimeslot))
  (r.(defaultSchedulerTimeslot)) (r.(numberOfNativeWaitingThreads))
  (r.(schedulerWaitingForTimeslotExpiry)) (r.(forceMinimumTimeslotSelection))
  (r.(decreaseSchedulerSleepingTimeBy)) (r.(timedOutsSucceeded)) (r.(timedOutsFailed)) v
  (r.(timesOfMinimumTimeslotForcing)) (r.(posixSignalsSent)) (r.(lastGlobalVirtualTime))
  (r.(lastTotalThreadERT)) (r.(pendingNotifications)) (r.(lastResumed)) (r.(lastSuspended))
  (r.(currentTimeScalingFactor)) (r.(timeWaitingFactorChanged)) (r.(freeze))
  (r.(synchronizationWaits)) (r.(normalContinuations)) (r.(blockedByErt)).
Definition set_timesOfMinimumTimeslotForcing (v : Z) (r : World) : World := mkWorld (r.(threads))
  (r.(queue)) (r.(registry)) (r.(objects)) (r.(timeline)) (r.(runningThread))
  (r.(schedulerTimeslot)) (r.(defaultSchedulerTimeslot)) (r.(numberOfNativeWaitingThreads))
  (r.(schedulerWaitingForTimeslotExpiry)) (r.(forceMinimumTimeslotSelection))
  (r.(decreaseSchedulerSleepingTimeBy)) (r.(timedOutsSucceeded)) (r.(timedOutsFailed))
  (r.(timesYielding)) v (r.(posixSignalsSent)) (r.(lastGlobalVirtualTime))
  (r.(lastTotalThreadERT)) (r.(pendingNotifications)) (r.(lastResumed)) (r.(lastSuspended))
  (r.(currentTimeScalingFactor)) (r.(timeWaitingFactorChanged)) (r.(freeze))
  (r.(synchronizationWaits)) (r.(normalContinuations)) (r.(blockedByErt)).
Definition set_posixSignalsSent (v : Z) (r : World) : World := mkWorld (r.(threads)) (r.(queue))
  (r.(registry)) (r.(objects)) (r.(timeline)) (r.(runningThread)) (r.(schedulerTimeslot))
  (r.(defaultSchedulerTimeslot)) (r.(numberOfNativeWaitingThreads))
  (r.(schedulerWaitingForTimeslotExpiry)) (r.(forceMinimumTimeslotSelection))
  (r.(decreaseSchedulerSleepingTimeBy)) (r.(timedOutsSucceeded)) (r.(timedOutsFailed))
  (r.(timesYielding)) (r.(timesOfMinimumTimeslotForcing)) v (r.(lastGlobalVirtualTime))
  (r.(lastTotalThreadERT)) (r.(pendingNotifications)) (r.(lastResumed)) (r.(lastSuspended))
  (r.(currentTimeScalingFactor)) (r.(timeWaitingFactorChanged)) (r.(freeze))
  (r.(synchronizationWaits)) (r.(normalContinuations)) (r.(blockedByErt)).
Definition set_lastGlobalVirtualTime (v : Z) (r : World) : World := mkWorld (r.(threads))
  (r.(queue)) (r.(registry)) (r.(objects)) (r.(timeline)) (r.(runningThread))
  (r.(schedulerTimeslot)) (r.(defaultSchedulerTimeslot)) (r.(numberOfNativeWaitingThreads))
  (r.(schedulerWaitingForTimeslotExpiry)) (r.(forceMinimumTimeslotSelection))
  (r.(decreaseSchedulerSleepingTimeBy)) (r.(timedOutsSucceeded)) (r.(timedOutsFailed))
  (r.(timesYielding)) (r.(timesOfMinimumTimeslotForcing)) (r.(posixSignalsSent)) v
  (r.(lastTotalThreadERT)) (r.(pendingNotifications)) (r.(lastResumed)) (r.(lastSuspended))
  (r.(currentTimeScalingFactor)) (r.(timeWaitingFactorChanged)) (r.(freeze))
  (r.(synchronizationWaits)) (r.(normalContinuations)) (r.(blockedByErt)).
Definition set_lastTotalThreadERT (v : Z) (r : World) : World := mkWorld (r.(threads)) (r.(queue))
  (r.(registry)) (r.(objects)) (r.(timeline)) (r.(runningThread)) (r.(schedulerTimeslot))
  (r.(defaultSchedulerTimeslot)) (r.(numberOfNativeWaitingThreads))
  (r.(schedulerWaitingForTimeslotExpiry)) (r.(forceMinimumTimeslotSelection))
  (r.(decreaseSchedulerSleepingTimeBy)) (r.(timedOutsSucceeded)) (r.(timedOutsFailed))
  (r.(timesYielding)) (r.(timesOfMinimumTimeslotForcing)) (r.(posixSignalsSent))
  (r.(lastGlobalVirtualTime)) v (r.(pendingNotifications)) (r.(lastResumed)) (r.(lastSuspended))
  (r.(currentTimeScalingFactor)) (r.(timeWaitingFactorChanged)) (r.(freeze))
  (r.(synchronizationWaits)) (r.(normalContinuations)) (r.(blockedByErt)).
Definition set_pendingNotifications (v : Z) (r : World) : World := mkWorld (r.(threads))
  (r.(queue)) (r.(registry)) (r.(objects)) (r.(timeline)) (r.(runningThread))
  (r.(schedulerTimeslot)) (r.(defaultSchedulerTimeslot)) (r.(numberOfNativeWaitingThreads))
  (r.(schedulerWaitingForTimeslotExpiry)) (r.(forceMinimumTimeslotSelection))
  (r.(decreaseSchedulerSleepingTimeBy)) (r.(timedOutsSucceeded)) (r.(timedOutsFailed))
  (r.(timesYielding)) (r.(timesOfMinimumTimeslotForcing)) (r.(posixSignalsSent))
  (r.(lastGlobalVirtualTime)) (r.(lastTotalThreadERT)) v (r.(lastResumed)) (r.(lastSuspended))
  (r.(currentTimeScalingFactor)) (r.(timeWaitingFactorChanged)) (r.(freeze))
  (r.(synchronizationWaits)) (r.(normalContinuations)) (r.(blockedByErt)).
Definition set_lastResumed (v : option nat) (r : World) : World := mkWorld (r.(threads))
  (r.(queue)) (r.(registry)) (r.(objects)) (r.(timeline)) (r.(runningThread))
  (r.(schedulerTimeslot)) (r.(defaultSchedulerTimeslot)) (r.(numberOfNativeWaitingThreads))
  (r.(schedulerWaitingForTimeslotExpiry)) (r.(forceMinimumTimeslotSelection))
  (r.(decreaseSchedulerSleepingTimeBy)) (r.(timedOutsSucceeded)) (r.(timedOutsFailed))
  (r.(timesYielding)) (r.(timesOfMinimumTimeslotForcing)) (r.(posixSignalsSent))
  (r.(lastGlobalVirtualTime)) (r.(lastTotalThreadERT)) (r.(pendingNotifications)) v
  (r.(lastSuspended)) (r.(currentTimeScalingFactor)) (r.(timeWaitingFactorChanged)) (r.(freeze))
  (r.(synchronizationWaits)) (r.(normalContinuations)) (r.(blockedByErt)).
Definition set_lastSuspended (v : option nat) (r : World) : World := mkWorld (r.(threads))
  (r.(queue)) (r.(registry)) (r.(objects)) (r.(timeline)) (r.(runningThread))
  (r.(schedulerTimeslot)) (r.(defaultSchedulerTimeslot)) (r.(numberOfNativeWaitingThreads))
  (r.(schedulerWaitingForTimeslotExpiry)) (r.(forceMinimumTimeslotSelection))
  (r.(decreaseSchedulerSleepingTimeBy)) (r.(timedOutsSucceeded)) (r.(timedOutsFailed))
  (r.(timesYielding)) (r.(timesOfMinimumTimeslotForcing)) (r.(posixSignalsSent))
  (r.(lastGlobalVirtualTime)) (r.(lastTotalThreadERT)) (r.(pendingNotifications))
  (r.(lastResumed)) v (r.(currentTimeScalingFactor)) (r.(timeWaitingFactorChanged)) (r.(freeze))
  (r.(synchronizationWaits)) (r.(normalContinuations)) (r.(blockedByErt)).
Definition set_currentTimeScalingFactor (v : float) (r : World) : World := mkWorld (r.(threads))
  (r.(queue)) (r.(registry)) (r.(objects)) (r.(timeline)) (r.(runningThread))
  (r.(schedulerTimeslot)) (r.(defaultSchedulerTimeslot)) (r.(numberOfNativeWaitingThreads))
  (r.(schedulerWaitingForTimeslotExpiry)) (r.(forceMinimumTimeslotSelection))
  (r.(decreaseSchedulerSleepingTimeBy)) (r.(timedOutsSucceeded)) (r.(timedOutsFailed))
  (r.(timesYielding)) (r.(timesOfMinimumTimeslotForcing)) (r.(posixSignalsSent))
  (r.(lastGlobalVirtualTime)) (r.(lastTotalThreadERT)) (r.(pendingNotifications))
  (r.(lastResumed)) (r.(lastSuspended)) v (r.(timeWaitingFactorChanged)) (r.(freeze))
  (r.(synchronizationWaits)) (r.(normalContinuations)) (r.(blockedByErt)).
Definition set_timeWaitingFactorChanged (v : bool) (r : World) : World := mkWorld (r.(threads))
  (r.(queue)) (r.(registry)) (r.(objects)) (r.(timeline)) (r.(runningThread))
  (r.(schedulerTimeslot)) (r.(defaultSchedulerTimeslot)) (r.(numberOfNativeWaitingThreads))
  (r.(schedulerWaitingForTimeslotExpiry)) (r.(forceMinimumTimeslotSelection))
  (r.(decreaseSchedulerSleepingTimeBy)) (r.(timedOutsSucceeded)) (r.(timedOutsFailed))
  (r.(timesYielding)) (r.(timesOfMinimumTimeslotForcing)) (r.(posixSignalsSent))
  (r.(lastGlobalVirtualTime)) (r.(lastTotalThreadERT)) (r.(pendingNotifications))
  (r.(lastResumed)) (r.(lastSuspended)) (r.(currentTimeScalingFactor)) v (r.(freeze))
  (r.(synchronizationWaits)) (r.(normalContinuations)) (r.(blockedByErt)).
Definition set_freeze (v : Z) (r : World) : World := mkWorld (r.(threads)) (r.(queue))
  (r.(registry)) (r.(objects)) (r.(timeline)) (r.(runningThread)) (r.(schedulerTimeslot))
  (r.(defaultSchedulerTimeslot)) (r.(numberOfNativeWaitingThreads))
  (r.(schedulerWaitingForTimeslotExpiry)) (r.(forceMinimumTimeslotSelection))
  (r.(decreaseSchedulerSleepingTimeBy)) (r.(timedOutsSucceeded)) (r.(timedOutsFailed))
  (r.(timesYielding)) (r.(timesOfMinimumTimeslotForcing)) (r.(posixSignalsSent))
  (r.(lastGlobalVirtualTime)) (r.(lastTotalThreadERT)) (r.(pendingNotifications))
  (r.(lastResumed)) (r.(lastSuspended)) (r.(currentTimeScalingFactor))
  (r.(timeWaitingFactorChanged)) v
  (r.(synchronizationWaits)) (r.(normalContinuations)) (r.(blockedByErt)).
Definition set_synchronizationWaits (v : Z) (r : World) : World := mkWorld (r.(threads)) (r.(queue))
  (r.(registry)) (r.(objects)) (r.(timeline)) (r.(runningThread)) (r.(schedulerTimeslot))
  (r.(defaultSchedulerTimeslot)) (r.(numberOfNativeWaitingThreads))
  (r.(schedulerWaitingForTimeslotExpiry)) (r.(forceMinimumTimeslotSelection))
  (r.(decreaseSchedulerSleepingTimeBy)) (r.(timedOutsSucceeded)) (r.(timedOutsFailed))
  (r.(timesYielding)) (r.(timesOfMinimumTimeslotForcing)) (r.(posixSignalsSent))
  (r.(lastGlobalVirtualTime)) (r.(lastTotalThreadERT)) (r.(pendingNotifications))
  (r.(lastResumed)) (r.(lastSuspended)) (r.(currentTimeScalingFactor))
  (r.(timeWaitingFactorChanged)) (r.(freeze))
  v (r.(normalContinuations)) (r.(blockedByErt)).
Definition set_normalContinuations (v : Z) (r : World) : World := mkWorld (r.(threads)) (r.(queue))
  (r.(registry)) (r.(objects)) (r.(timeline)) (r.(runningThread)) (r.(schedulerTimeslot))
  (r.(defaultSchedulerTimeslot)) (r.(numberOfNativeWaitingThreads))
  (r.(schedulerWaitingForTimeslotExpiry)) (r.(forceMinimumTimeslotSelection))
  (r.(decreaseSchedulerSleepingTimeBy)) (r.(timedOutsSucceeded)) (r.(timedOutsFailed))
  (r.(timesYielding)) (r.(timesOfMinimumTimeslotForcing)) (r.(posixSignalsSent))
  (r.(lastGlobalVirtualTime)) (r.(lastTotalThreadERT)) (r.(pendingNotifications))
  (r.(lastResumed)) (r.(lastSuspended)) (r.(currentTimeScalingFactor))
  (r.(timeWaitingFactorChanged)) (r.(freeze))
  (r.(synchronizationWaits)) v (r.(blockedByErt)).
Definition set_blockedByErt (v : Z) (r : World) : World := mkWorld (r.(threads)) (r.(queue))
  (r.(registry)) (r.(objects)) (r.(timeline)) (r.(runningThread)) (r.(schedulerTimeslot))
  (r.(defaultSchedulerTimeslot)) (r.(numberOfNativeWaitingThreads))
  (r.(schedulerWaitingForTimeslotExpiry)) (r.(forceMinimumTimeslotSelection))
  (r.(decreaseSchedulerSleepingTimeBy)) (r.(timedOutsSucceeded)) (r.(timedOutsFailed))
  (r.(timesYielding)) (r.(timesOfMinimumTimeslotForcing)) (r.(posixSignalsSent))
  (r.(lastGlobalVirtualTime)) (r.(lastTotalThreadERT)) (r.(pendingNotifications))
  (r.(lastResumed)) (r.(lastSuspended)) (r.(currentTimeScalingFactor))
  (r.(timeWaitingFactorChanged)) (r.(freeze))
  (r.(synchronizationWaits)) (r.(normalContinuations)) v.

End manager.
Arguments threads {T}.
Arguments queue {T}.
Arguments registry {T}.
Arguments objects {T}.
Arguments timeline {T}.
Arguments runningThread {T}.
Arguments schedulerTimeslot {T}.
Arguments defaultSchedulerTimeslot {T}.
Arguments numberOfNativeWaitingThreads {T}.
Arguments schedulerWaitingForTimeslotExpiry {T}.
Arguments forceMinimumTimeslotSelection {T}.
Arguments decreaseSchedulerSleepingTimeBy {T}.
Arguments timedOutsSucceeded {T}.
Arguments timedOutsFailed {T}.
Arguments timesYielding {T}.
Arguments timesOfMinimumTimeslotForcing {T}.
Arguments posixSignalsSent {T}.
Arguments lastGlobalVirtualTime {T}.
Arguments lastTotalThreadERT {T}.
Arguments pendingNotifications {T}.
Arguments lastResumed {T}.
Arguments lastSuspended {T}.
Arguments currentTimeScalingFactor {T}.
Arguments timeWaitingFactorChanged {T}.
Arguments freeze {T}.
Arguments synchronizationWaits {T}.
Arguments normalContinuations {T}.
Arguments blockedByErt {T}.
Arguments set_threads {T}.
Arguments set_queue {T}.
Arguments set_registry {T}.
Arguments set_objects {T}.
Arguments set_timeline {T}.
Arguments set_runningThread {T}.
Arguments set_schedulerTimeslot {T}.
Arguments set_defaultSchedulerTimeslot {T}.
Arguments set_numberOfNativeWaitingThreads {T}.
Arguments set_schedulerWaitingForTimeslotExpiry {T}.
Arguments set_forceMinimumTimeslotSelection {T}.
Arguments set_decreaseSchedulerSleepingTimeBy {T}.
Arguments set_timedOutsSucceeded {T}.
Arguments set_timedOutsFailed {T}.
Arguments set_timesYielding {T}.
Arguments set_timesOfMinimumTimeslotForcing {T}.
Arguments set_posixSignalsSent {T}.
Arguments set_lastGlobalVirtualTime {T}.
Arguments set_lastTotalThreadERT {T}.
Arguments set_pendingNotifications {T}.
Arguments set_lastResumed {T}.
Arguments set_lastSuspended {T}.
Arguments set_currentTimeScalingFactor {T}.
Arguments set_timeWaitingFactorChanged {T}.
Arguments set_freeze {T}.
Arguments set_synchronizationWaits {T}.
Arguments set_normalContinuations {T}.
Arguments set_blockedByErt {T}.
Arguments mkWorld {T}.

(** ** The manager *)
Section operations.
Context `{HO : StdHeapOps}.
Context {T : Type} `{HC : Controllers.VirtualTimelineController T}.
Variable managerId : nat.
Variable gsf : float.
Variable minimizeTimeslotOnNw : bool.
Variable yieldDuration : Z.

Abbreviation W := (World T).

(** A manager over the threads, queue, registries and timeline it is given.
    [timeWaitingFactorChanged], [pendingNotifications] and [lastSuspended] are
    not initialised by the constructor: they are [changed], [pending], [last]. *)
Definition new_ThreadManager (th : store) (q : list nat) (r : ThreadRegistry.ThreadRegistry)
    (o : ObjectRegistry.registry) (tl : T) (changed : bool) (pending : Z) (last : option nat) : W :=
  mkWorld th q r o tl None 100000000 100000000 0 false false 0 0 0 0 0 0 0 0 pending None last
    f32_one changed 0 0 0 0.

Definition thread_of (t : nat) (w : W) : thread := w.(threads) !!! t.
Definition upd (t : nat) (f : thread -> thread) (w : W) : W :=
  set_threads (update_thread t f w.(threads)) w.

Lemma thread_of_upd t f w : thread_of t (upd t f w) = f (thread_of t w).
Proof. unfold thread_of, upd. cbn. rewrite lookup_update_thread. by rewrite decide_True. Qed.

(** A call of the timeline controller on a thread. *)
Definition with_timeline (f : Timers.Timers -> T -> res (Timers.Timers * T)) (t : nat) (w : W) : res W :=
  '(timers, tl) ← f (thread_of t w).(timers) w.(timeline);
  Ok (set_timeline tl (upd t (set_timers timers) w)).

Definition getCurrentGlobalTime (w : W) : Z := Controllers.getGlobalTime w.(timeline).

(** *** The scheduler's timeslot and wake-up flag *)
Definition setDefaultSchedulerTimeslot (timeslot : Z) (w : W) : W :=
  if 0 <? timeslot then set_schedulerTimeslot timeslot (set_defaultSchedulerTimeslot timeslot w) else w.
Definition minimizeSchedulerTimeslot (w : W) : W :=
  if 2000000 <? w.(defaultSchedulerTimeslot) then set_schedulerTimeslot 2000000 w else w.
Definition resetDefaultSchedulerTimeslot (w : W) : W :=
  set_schedulerTimeslot w.(defaultSchedulerTimeslot) w.
Definition setSchedulerTimeslot (timeslot : Z) (w : W) : W :=
  if 0 <? timeslot then set_schedulerTimeslot timeslot w else w.

(** The scheduler that waits is signalled; one that does not wait finds the
    flag set before its next wait and does not wait. *)
Definition unconditionalWakeup (w : W) : W :=
  if w.(schedulerWaitingForTimeslotExpiry) then w else set_schedulerWaitingForTimeslotExpiry true w.
Definition wakeup (w : W) : W :=
  if negb (ThreadQueue.empty w.(queue)) then unconditionalWakeup w else w.
Definition conditionalWakeup (t : nat) (w : W) : W :=
  if negb (ThreadQueue.empty w.(queue)) && bool_decide (ThreadQueue.top w.(queue) <> Some t)
  then unconditionalWakeup w else w.

Definition _notifySchedulerForVirtualizedTime (w : W) : W :=
  unconditionalWakeup (set_timeWaitingFactorChanged true w).
Definition notifySchedulerForVirtualizedTime (t : nat) (scalingFactor : float) (w : W) : W :=
  _notifySchedulerForVirtualizedTime
    (upd t (upd_timers (Timers.set_virtualTimeSpeedup scalingFactor)) w).

Definition setFreeze (w : W) : W := set_freeze (int_add w.(freeze) 1) w.
Definition unFreeze (w : W) : W := set_freeze (int_sub w.(freeze) 1) w.

Definition noThreadsToSchedule (w : W) : bool :=
  (ThreadQueue.empty w.(queue) && bool_decide (w.(runningThread) = None)) || negb (w.(freeze) =? 0).

(** *** The running thread *)
Definition anotherThreadAlreadySetRunning (t : nat) (w : W) : bool :=
  match w.(runningThread) with Some t' => negb (bool_decide (t' = t)) | None => false end.

Definition changeThreadStateToRunning (t : nat) (w : W) : bool * W :=
  if anotherThreadAlreadySetRunning t w then (false, w)
  else (true, upd t (fun s => setThreadCurrentlyControllingManager (Some managerId) s)
                (set_runningThread (Some t) (upd t setRunning w))).

Definition unsetCurrentThreadFromRunningThread (t : nat) (w : W) : W :=
  if decide (w.(runningThread) = Some t) then set_runningThread None w else w.

Definition unsetCurrentThreadFromRunningThreadAndWakeup (t : nat) (w : W) : W :=
  if decide (w.(runningThread) = Some t) then unconditionalWakeup (set_runningThread None w) else w.

Definition getRunningThreadScalingFactor (w : W) : float :=
  match w.(runningThread) with
  | Some t => (thread_of t w).(timers).(Timers.virtualTimeSpeedup)
  | None => w.(currentTimeScalingFactor)
  end.

(** *** The queue *)
Definition pushIntoRunnableQueue (t : nat) (w : W) : res W :=
  q ← ThreadQueue.push w.(threads) w.(queue) t; Ok (set_queue q w).
Definition updateRunnableQueue (w : W) : W :=
  set_queue (ThreadQueue.update w.(threads) w.(queue)) w.
Definition eraseFromRunnables (t : nat) (w : W) : W :=
  set_queue (ThreadQueue.erase w.(threads) w.(queue) t) w.

Definition setSuspendedAndPushToRunnables (t : nat) (w : W) : res W :=
  let w := unsetCurrentThreadFromRunningThread t w in
  let w := upd t (fun s => VexThreadState.setTimeout (-1) (setTimedOut true (VexThreadState.setSuspended s))) w in
  pushIntoRunnableQueue t w.

Definition setWaitingThread (t : nat) (w : W) : W :=
  upd t setWaiting (unsetCurrentThreadFromRunningThread t w).

Definition setTimedWaitingThread (t : nat) (w : W) : res W :=
  pushIntoRunnableQueue t (upd t setWaiting (unsetCurrentThreadFromRunningThread t w)).

Definition setIoThread (learning : bool) (t : nat) (w : W) : res W :=
  let w := unsetCurrentThreadFromRunningThread t w in
  let '(blocks, s) := setIoAndCheckIfOperationShouldBlockSimulationProgress learning (thread_of t w) in
  let w := upd t (fun _ => s) w in
  if blocks : bool then pushIntoRunnableQueue t w else Ok w.

Definition setSystemCallThread (t : nat) (w : W) : W := upd t setInSystemCall w.

Definition setNativeWaiting (t : nat) (w : W) : W :=
  let w := upd t VexThreadState.setNativeWaiting w in
  let '(th, r) := ThreadRegistry.setNativeWaiting t w.(threads) w.(registry) in
  set_registry r (set_threads th w).

(** *** The time of the current thread *)
Definition locklessUpdateTimeBy (timeDiff : Z) (t : nat) (w : W) : res W :=
  let w := upd t (upd_timers (Timers.addLocalTime gsf timeDiff)) w in
  if isNativeWaiting (thread_of t w)
  then with_timeline Controllers.commitNativeWaitingProgress t w
  else with_timeline Controllers.commitCpuTimeProgress t w.

Definition updateCurrentThreadVT (cpuNow : Z) (t : nat) (w : W) : res W :=
  let timeDiff := cpuNow -ll (thread_of t w).(timers).(Timers.lastCPUTime) in
  w ← (if 0 <? timeDiff then locklessUpdateTimeBy timeDiff t w else Ok w);
  Ok (upd t (upd_timers (Timers.set_lastCPUTime cpuNow)) w).

Definition setCurrentThreadVT (startingTime : Z) (t : nat) (w : W) : res W :=
  let timeDiff := startingTime -ll (thread_of t w).(timers).(Timers.lastCPUTime) in
  if 0 <? timeDiff then locklessUpdateTimeBy timeDiff t w else Ok w.

Definition shouldCurrentThreadSuspend (realNow : Z) (t : nat) (w : W) : bool * W :=
  let '(forced, sched) := Scheduling.getAndResetForcedSuspendFlag (thread_of t w).(scheduling) in
  let w := upd t (set_scheduling sched) w in
  let s := thread_of t w in
  if forced || bool_decide (getThreadCurrentlyControllingManager s = None)
     || anotherThreadAlreadySetRunning t w then (true, w)
  else if negb (Scheduling.isSuspendingAllowed realNow s.(scheduling)) then (false, w)
  else if f_ltb (ll_to_f64 (getEstimatedRealTime s -ll s.(timers).(Timers.resumedLastAt)))
                (f64_mul f64_0_75 (ll_to_f64 w.(schedulerTimeslot))) then (false, w)
  else (ThreadQueue.isNextRunnableThreadBefore w.(threads) w.(queue) (getEstimatedRealTime s), w).

(** *** Suspending and resuming the current thread *)

(** What is left of a call when its thread blocks. *)
Inductive frame :=
| RunAfterBlock            (* the rest of [blockCurrentThread] *)
| RunAfterTimedOut         (* the rest of a replaced wait *)
| UpdateCpuTimeClock.      (* the clock update that follows a suspension *)

Inductive outcome := Returns | BlockedAt (k : list frame).

Definition after (o : outcome) (k : list frame) : outcome :=
  match o with Returns => Returns | BlockedAt k' => BlockedAt (k' ++ k) end.

(** [onBlockedWaitingInVex] up to the wait. *)
Definition startBlocking (t : nat) (w : W) : W := upd t (VexThreadState.setAwaken false) w.

(** [setRunningThread], given what suspends the thread again when another one
    already runs. *)
Definition setRunningThread_with (suspend : nat -> Z -> W -> res (outcome * W)) (t : nat) (w : W)
    : res (outcome * W) :=
  let w := upd t (VexThreadState.setAwaken false) w in
  let '(changed, w) := changeThreadStateToRunning t w in
  if changed : bool then
    w ← with_timeline Controllers.updateResumingSuspendedThreadTimestamp t w;
    guard_assert (bool_decide (getThreadCurrentlyControllingManager (thread_of t w) <> None)) ;;
    Ok (Returns, w)
  else
    suspend t (Z.lor (Z.lor SUSPEND_OPT_FORCE_SUSPEND SUSPEND_OPT_DONT_UPDATE_THREAD_TIME)
                 (if ThreadQueue.find w.(queue) t then SUSPEND_OPT_THREAD_ALREADY_IN_LIST else 0)) w.

(** The two functions call each other; one level is fuel. *)
Fixpoint suspendCurrentThread (fuel : nat) (cpuNow realNow : Z) (t : nat) (startingTime options : Z) (w : W)
    : res (outcome * W) :=
  match fuel with
  | O => Err OutOfFuel
  | S fuel =>
    let update := negb (has_option options SUSPEND_OPT_DONT_UPDATE_THREAD_TIME) in
    w ← (if update then
           if startingTime =? 0 then updateCurrentThreadVT cpuNow t w else setCurrentThreadVT startingTime t w
         else Ok w);
    let forced := has_option options SUSPEND_OPT_FORCE_SUSPEND &&
                  (negb (ThreadQueue.empty w.(queue)) ||
                   ThreadRegistry.atLeastOneThreadBeingSpawned w.(registry)) in
    let '(suspend, w) := if forced then (true, w) else shouldCurrentThreadSuspend realNow t w in
    if suspend : bool then
      w ← (if has_option options SUSPEND_OPT_THREAD_ALREADY_IN_LIST
           then Ok (upd t VexThreadState.setSuspended (unsetCurrentThreadFromRunningThread t w))
           else setSuspendedAndPushToRunnables t w);
      let w := if has_option options SUSPEND_OPT_DONT_WAKE_UP_SCHEDULER then w else unconditionalWakeup w in
      guard_assert (negb (wasAwaken (thread_of t w))) ;;
      Ok (BlockedAt (RunAfterBlock ::
                       if update && (startingTime =? 0) then [UpdateCpuTimeClock] else []),
          startBlocking t w)
    else if decide (w.(runningThread) = Some t) then Ok (Returns, w)
    else
      let w := if has_option options SUSPEND_OPT_THREAD_ALREADY_IN_LIST then eraseFromRunnables t w else w in
      setRunningThread_with (fun t opts => suspendCurrentThread fuel cpuNow realNow t 0 opts) t w
  end.

Definition setRunningThread (cpuNow realNow : Z) (t : nat) (w : W) : res (outcome * W) :=
  setRunningThread_with (fun t opts => suspendCurrentThread 1 cpuNow realNow t 0 opts) t w.

Definition suspend (cpuNow realNow : Z) (t : nat) (startingTime options : Z) (w : W) : res (outcome * W) :=
  suspendCurrentThread 2 cpuNow realNow t startingTime options w.

(** The thread goes on after the scheduler resumed it.  It is controlled by
    the manager that resumed it, this one. *)
Definition run_frame (cpuNow realNow : Z) (f : frame) (t : nat) (w : W) : res (outcome * W) :=
  match f with
  | RunAfterBlock =>
    guard_assert (bool_decide (getThreadCurrentlyControllingManager (thread_of t w) <> None)) ;;
    setRunningThread cpuNow realNow t w
  | RunAfterTimedOut =>
    w ← with_timeline Controllers.updateTimedOutWaitingThreadTimestamp t w;
    setRunningThread cpuNow realNow t w
  | UpdateCpuTimeClock => Ok (Returns, upd t (upd_timers (Timers.updateCpuTimeClock cpuNow)) w)
  end.

Fixpoint resume_frames (cpuNow realNow : Z) (k : list frame) (t : nat) (w : W) : res (outcome * W) :=
  match k with
  | [] => Ok (Returns, w)
  | f :: k =>
    '(o, w) ← run_frame cpuNow realNow f t w;
    match o with
    | Returns => resume_frames cpuNow realNow k t w
    | BlockedAt k' => Ok (BlockedAt (k' ++ k), w)
    end
  end.

Definition suspendLooseCurrentThread (cpuNow realNow : Z) (t : nat) (startingTime : Z) (w : W)
    : res (outcome * W) :=
  w ← (if startingTime =? 0 then updateCurrentThreadVT cpuNow t w else setCurrentThreadVT startingTime t w);
  let w := set_registry (ThreadRegistry.unsetNativeWaiting t w.(threads) w.(registry)) w in
  let w :=
    if minimizeTimeslotOnNw then
      let n := int_sub w.(numberOfNativeWaitingThreads) 1 in
      if n <=? 0 then set_numberOfNativeWaitingThreads 0 (resetDefaultSchedulerTimeslot w)
      else set_numberOfNativeWaitingThreads n w
    else w in
  if negb (ThreadQueue.empty w.(queue)) then
    w ← setSuspendedAndPushToRunnables t w;
    Ok (BlockedAt [RunAfterBlock; UpdateCpuTimeClock], startBlocking t w)
  else setRunningThread cpuNow realNow t w.

Definition suspendModelSimulationFinishingThread (cpuNow realNow : Z) (t : nat) (w : W)
    : res (outcome * W) :=
  suspend cpuNow realNow t 0
    (Z.lor SUSPEND_OPT_DONT_UPDATE_THREAD_TIME
       (if isWaitingRealCodeToCompleteAfterModelSimulation (thread_of t w)
        then SUSPEND_OPT_THREAD_ALREADY_IN_LIST else 0)) w.

(** *** Events of threads *)
Definition onThreadSpawn (main : bool) (cpuNow realNow : Z) (t : nat) (w : W) : res (outcome * W) :=
  let w := upd t setRegistering (upd t (upd_timers (Timers.updateCpuTimeClock cpuNow)) w) in
  let '(th, r) := ThreadRegistry.add main t w.(threads) w.(registry) in
  let w := set_registry r (set_threads th w) in
  let w := upd t (setThreadCurrentlyControllingManager (Some managerId)) w in
  suspend cpuNow realNow t 0 SUSPEND_OPT_DONT_UPDATE_THREAD_TIME w.

Definition onThreadEnd (cpuNow : Z) (t : nat) (w : W) : res W :=
  w ← updateCurrentThreadVT cpuNow t w;
  let w := upd t setDead w in
  let '(th, r) := ThreadRegistry.remove t w.(threads) w.(registry) in
  let w := set_registry r (set_threads th w) in
  Ok (unsetCurrentThreadFromRunningThreadAndWakeup t w).

Definition onWrappedWaitingStart (startingTime : Z) (t : nat) (w : W) : res W :=
  w ← setCurrentThreadVT startingTime t w;
  let w := unsetCurrentThreadFromRunningThread t w in
  guard_assert (bool_decide (w.(runningThread) <> Some t)) ;;
  Ok (unconditionalWakeup w).

Definition onWrappedWaitingEnd (cpuNow realNow startingTime : Z) (t : nat) (w : W) : res (outcome * W) :=
  w ← with_timeline Controllers.updateBlockedThreadTimestamp t w;
  suspend cpuNow realNow t startingTime 0 w.

Definition interrupt_time (interruptionTime : Z) (w : W) : Z :=
  if interruptionTime =? 0 then getCurrentGlobalTime w else interruptionTime.

Definition eraseWaitingObject (t : nat) (w : W) : W :=
  match eraseWaitingObjectIdFromRegistry true (thread_of t w) with
  | Some (objectId, threadId) => set_objects (ObjectRegistry.erase objectId threadId w.(objects)) w
  | None => w
  end.

(** No object registry is given here. *)
Definition onWrappedWaitingInterrupt (interruptionTime : Z) (t : nat) (w : W) : res W :=
  w ← with_timeline (Controllers.updateInterruptedWaitingThreadTimestamp (interrupt_time interruptionTime w)) t w;
  Ok (upd t (fun s => setTimedOut false (setWaiting (beforeThreadInterruptAt s))) w).

Definition onWrappedTimedWaitingStart (startingTime : Z) (t : nat) (w : W) : res W :=
  w ← setCurrentThreadVT startingTime t w;
  w ← setTimedWaitingThread t w;
  Ok (unconditionalWakeup w).

Definition onWrappedTimedWaitingEnd (t : nat) (w : W) : res (outcome * W) :=
  let w := unconditionalWakeup (upd t VexThreadState.setSuspended w) in
  Ok (BlockedAt [RunAfterTimedOut], startBlocking t w).

Definition onReplacedWaiting (t : nat) (w : W) : res (outcome * W) :=
  let w := unconditionalWakeup (unsetCurrentThreadFromRunningThread t w) in
  Ok (BlockedAt [RunAfterTimedOut], startBlocking t w).

Definition onReplacedTimedWaiting (t : nat) (w : W) : res (outcome * W) :=
  w ← setTimedWaitingThread t w;
  Ok (BlockedAt [RunAfterTimedOut], startBlocking t (unconditionalWakeup w)).

Definition onWrappedTimedWaitingInterrupt (interruptionTime : Z) (t : nat) (w : W) : res W :=
  w ← with_timeline (Controllers.updateInterruptedWaitingThreadTimestamp (interrupt_time interruptionTime w)) t w;
  Ok (updateRunnableQueue w).

Definition onAnyReplacedWaitingInterrupt (interruptionTime : Z) (t : nat) (w : W) : res W :=
  w ← with_timeline (Controllers.updateInterruptedWaitingThreadTimestamp interruptionTime) t w;
  let timeout := getTimeout (thread_of t w) in
  let w := upd t beforeThreadInterruptAt (eraseWaitingObject t w) in
  if negb (timeout =? 0) && negb (timeout =? -2) then Ok (updateRunnableQueue w)
  else pushIntoRunnableQueue t w.

Definition onWrappedBackgroundLoadExecutionStart (w : W) : W :=
  set_registry (ThreadRegistry.forbidForwardLeaps w.(registry)) w.
Definition onWrappedBackgroundLoadExecutionEnd (executionDuration : Z) (w : W) : res W :=
  tl ← Controllers.commitBackgroundLoadExecutionTime executionDuration w.(timeline);
  Ok (set_registry (ThreadRegistry.allowForwardLeaps w.(registry)) (set_timeline tl w)).

Definition onThreadYield (cpuNow realNow startingTime : Z) (t : nat) (w : W) : res (outcome * W) :=
  let timeDiff := (yieldDuration +ll startingTime) -ll (thread_of t w).(timers).(Timers.lastCPUTime) in
  w ← locklessUpdateTimeBy (if 0 <? timeDiff then timeDiff else yieldDuration) t w;
  let w := set_timesYielding (uint_add w.(timesYielding) 1) w in
  let highestTimeAfterMe := ThreadQueue.getHighestRunnableTime w.(threads) w.(queue) t in
  let w := upd t (upd_timers (Timers.leapTo (highestTimeAfterMe +ll 1))) w in
  suspend cpuNow realNow t 0 (Z.lor SUSPEND_OPT_DONT_UPDATE_THREAD_TIME SUSPEND_OPT_FORCE_SUSPEND) w.

(** *** What the scheduler finds

    The real clock, the operating system's state letter of each thread,
    whether a signal is delivered, whether the key of a thread is free within
    three seconds, and the intention with which a signalled thread answers. *)
Record Host := mkHost {
  realNow : Z;
  systemState : nat -> ascii;
  delivered : bool;
  keyFree : bool;
  answer : Scheduling.suspend_flag;
}.

Definition setSuspended (t : nat) (w : W) : res W :=
  let w := set_lastSuspended w.(runningThread) w in
  let w := unsetCurrentThreadFromRunningThread t w in
  pushIntoRunnableQueue t (upd t VexThreadState.setSuspended w).

Definition onIntentionToBeDisregarded (t : nat) (w : W) : W :=
  let w := unsetCurrentThreadFromRunningThread t w in
  if minimizeTimeslotOnNw then
    let w := set_numberOfNativeWaitingThreads (int_add w.(numberOfNativeWaitingThreads) 1) w in
    if 0 <? w.(numberOfNativeWaitingThreads) then minimizeSchedulerTimeslot w else w
  else w.

Definition onIntentionToKeepOnRunning (t : nat) (w : W) : W :=
  let w := upd t (setThreadCurrentlyControllingManager (Some managerId)) (set_runningThread (Some t) w) in
  set_decreaseSchedulerSleepingTimeBy
    (w.(decreaseSchedulerSleepingTimeBy) +ll ll_div w.(schedulerTimeslot) 2) w.

(** The signalled thread answers; the scheduler takes the answer. *)
Definition getSuspendingThreadIntention (h : Host) (t : nat) (w : W) : res (Scheduling.suspend_flag * W) :=
  let s := upd_sched (Scheduling.notifySchedulerForIntention h.(answer)) (thread_of t w) in
  match Scheduling.getSuspendingThreadIntention s.(scheduling) with
  | None => Err WaitsForever
  | Some (i, sched) => Ok (i, upd t (set_scheduling sched) w)
  end.

Definition isSignalledThreadGoingToSuspend (h : Host) (t : nat) (w : W) : res (bool * W) :=
  let w := set_posixSignalsSent (ulong_add w.(posixSignalsSent) 1) w in
  '(threadsIntention, w) ← getSuspendingThreadIntention h t w;
  match threadsIntention with
  | Scheduling.TO_BE_SUSPENDED => w ← setSuspended t w; Ok (true, w)
  | Scheduling.TO_BE_DISREGARDED => Ok (true, onIntentionToBeDisregarded t w)
  | _ => Ok (false, onIntentionToKeepOnRunning t w)
  end.

Definition isSignalledThreadStillRunning (h : Host) (t : nat) (w : W) : res (bool * W) :=
  let w := set_posixSignalsSent (ulong_add w.(posixSignalsSent) 1) w in
  '(threadsIntention, w) ← getSuspendingThreadIntention h t w;
  match threadsIntention with
  | Scheduling.TO_BE_DISREGARDED => Ok (false, w)
  | _ => Ok (true, w)
  end.

Definition _suspendThread (h : Host) (t : nat) (w : W) : res (bool * W) :=
  if decide (w.(runningThread) = Some t) then
    if h.(delivered) then isSignalledThreadGoingToSuspend h t w
    else Ok (false, eraseFromRunnables t w)
  else Ok (true, w).

(** A thread that keeps its key for three seconds is left to run outside the
    control of the manager. *)
Definition suspendThread (suspend_ : Host -> nat -> W -> res (bool * W)) (h : Host) (t : nat) (w : W)
    : res (bool * W) :=
  if h.(keyFree) then suspend_ h t w
  else Ok (true, upd t VexThreadState.setNativeWaiting (unsetCurrentThreadFromRunningThread t w)).

Definition resumeThread (h : Host) (t : nat) (w : W) : res W :=
  let w := set_lastResumed (Some t) w in
  let w := upd t (upd_sched (Scheduling.onThreadResumeByManager managerId)) w in
  w ← with_timeline (Controllers.updateResumingSuspendedThreadResumedLastTimestamp h.(realNow)) t w;
  let w := upd t (setThreadCurrentlyControllingManager (Some managerId)) w in
  Ok (set_currentTimeScalingFactor (thread_of t w).(timers).(Timers.virtualTimeSpeedup) w).

(** *** Leaping forward in virtual time *)
Definition isValidToLeapInVirtualTimeTo (h : Host) (t : nat) (w : W) : bool * W :=
  let s := thread_of t w in
  let remainingTime := Controllers.getHowFarAheadInVirtualTimeTheThreadIs s.(timers) w.(timeline) in
  if s.(waitingInRealTime) then (false, w)
  else if remainingTime <? 0 then (true, w)
  else if w.(pendingNotifications) =? 0 then
    match ThreadRegistry.areAnyOtherThreadsActiveInFormerTime w.(threads) t remainingTime w.(registry) with
    | ThreadRegistry.AT_LEAST_ONE_ALIVE => (false, set_lastTotalThreadERT 0 w)
    | ThreadRegistry.NONE_ALIVE => (true, w)
    | ThreadRegistry.MAYBE_ONE_ALIVE =>
      if w.(lastTotalThreadERT) =? 0 then
        (false, set_lastGlobalVirtualTime h.(realNow)
                  (set_lastTotalThreadERT (ThreadRegistry.getSummedErtOfAllThreads w.(threads) w.(registry)) w))
      else if (h.(realNow) -ll w.(lastGlobalVirtualTime)) <? 200000000 then (false, w)
      else
        let temp := ThreadRegistry.getSummedErtOfAllThreads w.(threads) w.(registry) in
        ((temp =? w.(lastTotalThreadERT)) &&
         ThreadRegistry.areAllNativeWaitingThreadsBlockedAccordingToSystemState w.(threads)
           h.(systemState) t w.(registry),
         set_lastTotalThreadERT 0 w)
    end
  else (false, set_lastTotalThreadERT 0 w).

Definition limitNextTimeslice (w : W) : W :=
  set_decreaseSchedulerSleepingTimeBy
    (f_to_ll (f64_mul f64_0_75 (ll_to_f64 w.(schedulerTimeslot)))) w.

Definition afterModelSimulation (w : W) : W :=
  set_decreaseSchedulerSleepingTimeBy (w.(schedulerTimeslot) -ll 1000000) w.

Definition interruptTimedOutIoThread (h : Host) (t : nat) (w : W) : res W :=
  let '(valid, w) := isValidToLeapInVirtualTimeTo h t w in
  if valid : bool then
    w ← with_timeline Controllers.commitTimedOutIoProgress t w;
    Ok (upd t (setTimedOut true) w)
  else pushIntoRunnableQueue t w.

Definition handleIOPerformingThread (h : Host) (t : nat) (w : W) : res W :=
  let s := thread_of t w in
  if inIoPredictionPhase s then
    if s.(ioHandler).(IoHandler.ioFinishedBeforeLogging) then Ok w
    else if isIoPredictionStillValid h.(realNow) s then
      let w := set_forceMinimumTimeslotSelection true (upd t setInIoStale w) in
      Ok (set_timesOfMinimumTimeslotForcing (uint_add w.(timesOfMinimumTimeslotForcing) 1) w)
    else
      let '(th, q) := ThreadQueue.invalidateExpiredIoPredictions w.(threads) w.(queue) h.(realNow) in
      Ok (set_queue q (set_threads th w))
  else if ThreadQueue.hasUnitScalingFactor s then
    if getTimeout s =? -1 then Err AssertFailed else interruptTimedOutIoThread h t w
  else Ok w.

Definition pollThreadToCheckIfActuallyRunning (h : Host) (t : nat) (w : W) : res W :=
  if h.(delivered) then
    '(running, w) ← isSignalledThreadStillRunning h t w;
    if running : bool then Ok w
    else let '(th, q) := ThreadQueue.setThreadToNextBiggestErt w.(threads) w.(queue) t in
         Ok (set_queue q (set_threads th w))
  else Ok (eraseFromRunnables t w).

(** *** The scheduling pass, over the methods that a derived class replaces *)
Section virtual.
Variable resumeThread_ : Host -> nat -> W -> res W.
Variable afterModelSimulation_ : W -> W.

(** Entering the current node of a thread in a network; see [ThreadState]. *)
Variable enter : thread -> bool * thread.

Definition interruptTimedWaitingThread (h : Host) (t : nat) (w : W) : res W :=
  let '(valid, w) := isValidToLeapInVirtualTimeTo h t w in
  if valid : bool then
    w ← with_timeline Controllers.commitTimedWaitingProgress t w;
    let w := set_timedOutsSucceeded (uint_add w.(timedOutsSucceeded) 1) w in
    w ← onAnyReplacedWaitingInterrupt 0 t w;
    resumeThread_ h t (upd t (setTimedOut true) w)
  else
    let w := upd t setCustom3 w in
    pushIntoRunnableQueue t (set_timedOutsFailed (uint_add w.(timedOutsFailed) 1) w).

Definition hasResumedModelSimulationRunToCompletion (fuel t : nat) (totalExecutionTime : Z) (w : W)
    : res (bool * W) :=
  let w := upd t (VexThreadState.setAwaken false) w in
  match resumeModelSimulation enter gsf fuel totalExecutionTime (thread_of t w) with
  | None => Err OutOfFuel
  | Some (modelSimulationFinished, _, s) =>
    let w := upd t (fun _ => s) w in
    w ← with_timeline (Controllers.commitModelSimulationProgress (isModelTimedWaiting s)) t w;
    Ok (modelSimulationFinished, w)
  end.

Definition _simulateModel (fuel t : nat) (totalExecutionTime : Z) (w : W) : res W :=
  '(finished, w) ← hasResumedModelSimulationRunToCompletion fuel t totalExecutionTime w;
  if finished : bool then
    let w := upd t (upd_timers Timers.updateCpuTimeAddingSimulatedVirtualTime) w in
    w ← pushIntoRunnableQueue t (upd t waitForRealCodeToComplete w);
    Ok (upd t (upd_sched Scheduling.notifyModelSimulationEnd) w)
  else if isActiveInModel (thread_of t w) then pushIntoRunnableQueue t w else Ok w.

(** The second half of [resumeModelSimulation]. *)
Definition simulateResumed (h : Host) (fuel t : nat) (w : W) : res W :=
  let totalExecutionTime := f_to_ll (f64_mul f64_1_2 (ll_to_f64 w.(schedulerTimeslot))) in
  let w := upd t (setThreadCurrentlyControllingManager (Some managerId)) w in
  let w := upd t (upd_sched (Scheduling.onThreadResumeByManager managerId)) w in
  w ← with_timeline (Controllers.updateResumingSuspendedThreadResumedLastTimestamp h.(realNow)) t w;
  w ← _simulateModel fuel t totalExecutionTime w;
  Ok (if isActiveInModel (thread_of t w) && negb (isModelTimedWaiting (thread_of t w))
      then afterModelSimulation_ w else w).

Definition resumeModelSimulation (h : Host) (fuel t : nat) (w : W) : res W :=
  if isModelTimedWaiting (thread_of t w) then
    let '(valid, w) := isValidToLeapInVirtualTimeTo h t w in
    if valid : bool then
      w ← with_timeline Controllers.commitTimedWaitingProgress t w;
      simulateResumed h fuel t (upd t (VexThreadState.setTimeout (-1)) w)
    else pushIntoRunnableQueue t w
  else
    w ← with_timeline Controllers.updateResumingSuspendedThreadTimestamp t w;
    simulateResumed h fuel t w.

Definition setInModelSimulation (fuel t : nat) (afterModelSimulation : bool) (w : W) : res W :=
  let queued (w : W) : res W :=
    w ← pushIntoRunnableQueue t (unsetCurrentThreadFromRunningThread t w);
    Ok (unconditionalWakeup w) in
  if afterModelSimulation then
    w ← locklessUpdateTimeBy 0 t w;
    queued (upd t waitForRealCodeToComplete w)
  else
    let s := thread_of t w in
    let remainingTimeslice :=
      w.(schedulerTimeslot) -ll (getEstimatedRealTime s -ll s.(timers).(Timers.lastTimeInHandler)) in
    if (0 <? remainingTimeslice) && (getTimeout s <=? 0) then
      w ← _simulateModel fuel t remainingTimeslice (unsetCurrentThreadFromRunningThread t w);
      Ok (unconditionalWakeup w)
    else queued w.

(** What the state of the chosen thread asks for. *)
Definition dispatch (h : Host) (fuel t : nat) (w : W) : res W :=
  let s := thread_of t w in
  if isSuspended s then
    if s.(timedOut) || (negb (getTimeout s =? 0) && isNotAterInterruptedTimedParking s)
    then resumeThread_ h t w else pushIntoRunnableQueue t w
  else if inIo s then handleIOPerformingThread h t w
  else if isTimedWaiting s then interruptTimedWaitingThread h t w
  else if isSimulatingModel s then resumeModelSimulation h fuel t w
  else if isWaitingRealCodeToCompleteAfterModelSimulation s then pollThreadToCheckIfActuallyRunning h t w
  else if isRunning s then Err AssertFailed
  else Ok w.

(** [calls] bounds the calls that follow a queue that changed; [fuel] is for
    the simulation of a model. *)
Fixpoint continueThread (calls : nat) (h : Host) (fuel : nat) (state : option nat) (w : W) : res W :=
  match calls with
  | O => Err OutOfFuel
  | S calls =>
    match state with
    | None => Ok (limitNextTimeslice w)
    | Some t =>
      let w := upd t (upd_sched Scheduling.lockShareResourceAccessKey) w in
      let '(nextThreadState, q) :=
        ThreadQueue.getNextIfEqualsElseReturnTop w.(threads) w.(queue) t managerId in
      let w := set_queue q w in
      if decide (nextThreadState = Some t) then dispatch h fuel t w
      else continueThread calls h fuel nextThreadState w
    end
  end.

Definition suspendRunningResumeNext (suspend_ : Host -> nat -> W -> res (bool * W)) (h : Host)
    (fuel : nat) (w : W) : res W :=
  '(goOn, w) ← match w.(runningThread) with
               | None => Ok (true, w)
               | Some t => suspendThread suspend_ h t w
               end;
  if goOn : bool then continueThread 3 h fuel (ThreadQueue.top w.(queue)) w else Ok w.

End virtual.

(** The pass of the base class. *)
Definition schedulingPass (enter : thread -> bool * thread) (h : Host) (fuel : nat) (w : W) : res W :=
  suspendRunningResumeNext resumeThread afterModelSimulation enter _suspendThread h fuel w.

End operations.

End ThreadManager.
