(* ===== verification/SchedulingPass.v ===== *)
(** * The scheduling pass

    What [ThreadManager.suspendRunningResumeNext] and the functions below it
    (src/src/vex/scheduler/ThreadManager.cpp) guarantee: which thread a pass
    handles, when virtual time leaps, and that the queue stays a heap of
    distinct threads. *)
From Stdlib Require Import Ascii.
From S2P Require Import Prelude Heap AdaptiblePQueue CxxFloat Timers VirtualTimeline.
From S2P Require Import Controllers Statistics ThreadParts ThreadState ThreadQueue.
From S2P Require Import ThreadRegistry ThreadManager.
Import VexThreadState ThreadManager.

Module SchedulingPass.
Section pass.
Context `{HO : StdHeapOps} `{HH : !StdHeap HO}.
Context {T : Type} `{HC : Controllers.VirtualTimelineController T}.
Implicit Types w : World T.

(** The queue of a world is a heap of distinct threads. *)
Definition ordered (w : World T) : Prop := ThreadQueue.wf w.(threads) w.(queue).

(** Nobody takes the core. *)
Definition keeps_core (w w' : World T) : Prop := forall t, w'.(runningThread) = Some t -> w.(runningThread) = Some t.

#[local] Hint Extern 0 (keeps_core _ _) => intros ? Hcore; exact Hcore : core.

(** From [w] to [w'], the queue is the same, every thread but [t] too, and
    nobody takes the core. *)
Definition only (t : nat) (w w' : World T) : Prop :=
  w'.(queue) = w.(queue) /\ (forall t', t' <> t -> thread_of t' w' = thread_of t' w) /\ keeps_core w w'.

Lemma only_refl t w : only t w w.
Proof. done. Qed.

Lemma only_trans t w1 w2 w3 : only t w1 w2 -> only t w2 w3 -> only t w1 w3.
Proof.
  unfold only, keeps_core. intros (Hq1&Ht1&Hr1) (Hq2&Ht2&Hr2). split_and!; [by rewrite Hq2| |auto]. intros t' Ht'. by rewrite Ht2, Ht1.
Qed.

Lemma only_same t w w' : w'.(queue) = w.(queue) -> w'.(threads) = w.(threads) ->
  keeps_core w w' -> only t w w'.
Proof. intros Hq Ht Hr. split_and!; [done| |done]. intros. unfold thread_of. by rewrite Ht. Qed.

Lemma only_upd t f w : only t w (upd t f w).
Proof.
  split_and!; [done| |done]. intros t' Ht'. unfold thread_of, upd. cbn.
  rewrite lookup_update_thread. by rewrite decide_False.
Qed.

Lemma only_then_upd t f w w' : only t w w' -> only t w (upd t f w').
Proof. intros. eapply only_trans; [done|apply only_upd]. Qed.

Lemma only_with_timeline f t w w' : with_timeline f t w = Ok w' -> only t w w'.
Proof.
  intros ([tm tl]&_&[= <-])%bind_ok. eapply only_trans; [apply only_upd|by apply only_same].
Qed.

Lemma only_ordered t w w' : only t w w' -> t ∉ w.(queue) -> ordered w -> ordered w'.
Proof.
  intros (Hq&Ht&_) Hn Hw. unfold ordered. rewrite Hq. eapply ThreadQueue.wf_ext; [|done].
  intros t' Ht'. unfold ert. specialize (Ht t'). unfold thread_of in Ht. rewrite Ht; [done|].
  by intros ->.
Qed.

Lemma push_ordered t w w' : t ∉ w.(queue) -> ordered w -> pushIntoRunnableQueue t w = Ok w' ->
  ordered w' /\ w'.(queue) ≡ₚ t :: w.(queue) /\ w'.(threads) = w.(threads) /\ w'.(runningThread) = w.(runningThread).
Proof.
  unfold pushIntoRunnableQueue, ThreadQueue.push, guard_assert. intros Hn Hw.
  repeat case_match; cbn; try done. intros. simplify_eq/=. split_and!; [|cbn|done|done].
  - by apply ThreadQueue.wf_push.
  - by rewrite (AdaptiblePQueue.push_perm (ert w.(threads))).
Qed.

(** A step that handles [t] leaves the queue in order, does not move the
    other threads in or out of it, does not touch those that are not in it, and
    gives the core to nobody. *)
Definition left_alone (x : nat) (w w' : World T) : Prop :=
  (x ∈ w'.(queue) <-> x ∈ w.(queue)) /\ (x ∉ w.(queue) -> thread_of x w' = thread_of x w) /\ keeps_core w w'.

Definition handled (t : nat) (w w' : World T) : Prop := ordered w' /\ forall x, x <> t -> left_alone x w w'.

Lemma left_alone_refl x w : left_alone x w w.
Proof. done. Qed.

Lemma left_alone_trans x w1 w2 w3 : left_alone x w1 w2 -> left_alone x w2 w3 -> left_alone x w1 w3.
Proof.
  unfold left_alone, keeps_core. intros (Hq1&Ht1&Hr1) (Hq2&Ht2&Hr2). split_and!; [by rewrite Hq2| |auto].
  intros Hx. rewrite Ht2, Ht1; by rewrite ?Hq1.
Qed.

Lemma handled_core t w w' : handled t w w' -> keeps_core w w'.
Proof. intros [_ Hh]. apply (Hh (S t)). lia. Qed.

Lemma left_alone_only t x w w' : only t w w' -> x <> t -> left_alone x w w'.
Proof. intros (Hq&Ht&Hr) Hx. split_and!; [by rewrite Hq|auto|auto]. Qed.

Lemma left_alone_push t x w w' : t ∉ w.(queue) -> ordered w -> pushIntoRunnableQueue t w = Ok w' -> x <> t -> left_alone x w w'.
Proof.
  intros Hn Hw Hp Hx. destruct (push_ordered t w w') as (?&Hq&Ht&Hr); [done..|].
  split_and!; [rewrite Hq, elem_of_cons; naive_solver|by unfold thread_of; rewrite Ht|by intros z; rewrite Hr].
Qed.

Lemma handled_then_only t w w1 w' : handled t w w1 -> only t w1 w' -> ordered w' -> handled t w w'.
Proof. intros [_ Hh] Ho Hw. split; [done|]. intros x Hx. eapply left_alone_trans; [by apply Hh|by eapply left_alone_only]. Qed.

Lemma only_then_handled t w w1 w' : only t w w1 -> handled t w1 w' -> handled t w w'.
Proof. intros Ho [Hw Hh]. split; [done|]. intros x Hx. eapply left_alone_trans; [by eapply left_alone_only|by apply Hh]. Qed.

Lemma handled_only t w w' : t ∉ w.(queue) -> ordered w -> only t w w' -> handled t w w'.
Proof. intros ?? Ho. split; [by eapply only_ordered|]. intros x Hx. by eapply left_alone_only. Qed.

Lemma handled_push t w w1 w' : t ∉ w.(queue) -> ordered w -> only t w w1 ->
  pushIntoRunnableQueue t w1 = Ok w' -> handled t w w'.
Proof.
  intros Hn Hw Ho Hp. assert (t ∉ w1.(queue)) as Hn1 by (by rewrite (proj1 Ho)).
  assert (ordered w1) as Hw1 by (by eapply only_ordered).
  destruct (push_ordered t w1 w') as (?&_); [done..|]. split; [done|]. intros x Hx.
  eapply left_alone_trans; [by eapply left_alone_only|by eapply left_alone_push].
Qed.

Lemma ordered_same w w' : w'.(threads) = w.(threads) -> w'.(queue) = w.(queue) -> ordered w -> ordered w'.
Proof. unfold ordered. by intros -> ->. Qed.

Lemma ordered_upd t f w : (forall s, getEstimatedRealTime (f s) = getEstimatedRealTime s) ->
  ordered w -> ordered (upd t f w).
Proof.
  intros Hf Hw. eapply ThreadQueue.wf_ext; [|exact Hw]. intros t' _. cbn.
  rewrite ert_update_thread. case_decide; [|done]. subst. unfold ert. apply Hf.
Qed.

(** *** The steps of a pass *)
Context `{HL : !Controllers.ControllerLaws T}.
Variable managerId : nat.
Variable gsf : float.
Variable minimizeTimeslotOnNw : bool.
Variable enter : thread -> bool * thread.

Lemma only_unset t u w : only t w (unsetCurrentThreadFromRunningThread u w).
Proof. unfold unsetCurrentThreadFromRunningThread. by case_decide. Qed.

Lemma only_wakeup t w : only t w (unconditionalWakeup w).
Proof. unfold unconditionalWakeup. by case_match. Qed.

Lemma leap_only h t u w : only u w (isValidToLeapInVirtualTimeTo h t w).2.
Proof. unfold isValidToLeapInVirtualTimeTo. repeat case_match; done. Qed.

Lemma resume_only h t w w' : resumeThread managerId h t w = Ok w' -> only t w w'.
Proof.
  intros (w1&Hw%only_with_timeline&[= <-])%bind_ok. apply (only_trans _ _ w1).
  - eapply only_trans; [|exact Hw]. apply only_then_upd. by apply only_same.
  - eapply only_trans; [apply only_upd|by apply only_same].
Qed.

Lemma timedOutIo_handled h t w w' : t ∉ w.(queue) -> ordered w ->
  interruptTimedOutIoThread h t w = Ok w' -> handled t w w'.
Proof.
  intros Hn Hw. unfold interruptTimedOutIoThread. pose proof (leap_only h t t w) as Hl.
  destruct (isValidToLeapInVirtualTimeTo h t w) as [[] w1]; cbn in Hl.
  - intros (w2&?%only_with_timeline&[= <-])%bind_ok. apply handled_only; [done..|].
    apply only_then_upd. by eapply only_trans.
  - by apply handled_push.
Qed.

Lemma interrupted_handled t w w' : t ∉ w.(queue) -> ordered w -> 0 < getTimeout (thread_of t w) ->
  onAnyReplacedWaitingInterrupt 0 t w = Ok w' ->
  handled t w w' /\ w'.(queue) ≡ₚ w.(queue).
Proof.
  intros Hn Hw Ht. unfold onAnyReplacedWaitingInterrupt.
  intros (w1&Hf&Hi)%bind_ok. pose proof (only_with_timeline _ _ _ _ Hf) as Ho.
  apply bind_ok in Hf as ([tm tl]&Hf&[= <-]). apply Controllers.updateInterrupted_timeout in Hf.
  assert (getTimeout (thread_of t (set_timeline tl (upd t (set_timers tm) w))) = getTimeout (thread_of t w))
    as Hg by (unfold thread_of, upd; cbn; rewrite lookup_update_thread, decide_True by done; exact Hf).
  rewrite Hg in Hi. rewrite (proj2 (Z.eqb_neq _ 0)), (proj2 (Z.eqb_neq _ (-2))) in Hi by lia.
  injection Hi as <-. match goal with |- context [updateRunnableQueue ?w0] => set (w2 := w0) end.
  assert (only t w w2) as Ho2.
  { apply only_then_upd. eapply only_trans; [exact Ho|]. apply only_same; unfold eraseWaitingObject; by repeat case_match. }
  assert (queue (updateRunnableQueue w2) ≡ₚ w2.(queue)) as Hp.
  { cbn. unfold ThreadQueue.update. by rewrite (AdaptiblePQueue.update_perm (ert _)). }
  assert (queue (updateRunnableQueue w2) ≡ₚ w.(queue)) as Hq by (by rewrite Hp, (proj1 Ho2)).
  split; [|exact Hq]. split.
  - unfold ordered. cbn [queue threads set_queue]. apply ThreadQueue.wf_update. rewrite (proj1 Ho2). apply Hw.
  - intros x Hx. eapply left_alone_trans; [by eapply left_alone_only|]. split_and!; [by rewrite Hp|done|done].
Qed.

(** *** The chosen thread *)
Definition lockKey (t : nat) (w : World T) : World T := upd t (upd_sched Scheduling.lockShareResourceAccessKey) w.

Lemma set_queue_same w : set_queue w.(queue) w = w.
Proof. by destruct w. Qed.

Section virtual.
Variable resumeThread_ : Host -> nat -> World T -> res (World T).
Variable afterModelSimulation_ : World T -> World T.

(** The end of the calls of [continueThread], with the thread [u] in front. *)
Definition handleFront (h : Host) (fuel u : nat) (w : World T) : res (World T) :=
  match ThreadQueue.next_at_top w.(threads) w.(queue) managerId u with
  | (Some _, q) => dispatch managerId gsf resumeThread_ afterModelSimulation_ enter h fuel u (set_queue q w)
  | (None, q) => Ok (limitNextTimeslice (set_queue q w))
  end.

Lemma next_at_top_self th q u : (ThreadQueue.next_at_top th q managerId u).1 = Some u \/
  (ThreadQueue.next_at_top th q managerId u).1 = None.
Proof. unfold ThreadQueue.next_at_top. repeat case_match; auto. Qed.

Lemma continue_none n h fuel w :
  continueThread managerId gsf resumeThread_ afterModelSimulation_ enter (S n) h fuel None w
  = Ok (limitNextTimeslice w).
Proof. done. Qed.

Lemma continue_front n h fuel u w : ThreadQueue.top w.(queue) = Some u ->
  continueThread managerId gsf resumeThread_ afterModelSimulation_ enter (S (S n)) h fuel (Some u) w
  = handleFront h fuel u (lockKey u w).
Proof.
  intros Ht. unfold handleFront. cbn [continueThread]. unfold ThreadQueue.getNextIfEqualsElseReturnTop.
  change (queue (upd u ?f w)) with (queue w). rewrite Ht, decide_True by done. fold (lockKey u w).
  change (queue (lockKey u w)) with (queue w).
  destruct (next_at_top_self (threads (lockKey u w)) w.(queue) u) as [Hn|Hn];
    destruct (ThreadQueue.next_at_top _ _ _ _) as [r q]; cbn in Hn; subst r; [by rewrite decide_True|done].
Qed.

Lemma continue_other n h fuel t w : ThreadQueue.top w.(queue) <> Some t ->
  continueThread managerId gsf resumeThread_ afterModelSimulation_ enter (S n) h fuel (Some t) w
  = continueThread managerId gsf resumeThread_ afterModelSimulation_ enter n h fuel
      (ThreadQueue.top w.(queue)) (lockKey t w).
Proof.
  intros Ht. cbn [continueThread]. unfold ThreadQueue.getNextIfEqualsElseReturnTop.
  change (queue (upd t ?f w)) with (queue w). fold (lockKey t w).
  assert (set_queue w.(queue) (lockKey t w) = lockKey t w) as Hs by exact (set_queue_same (lockKey t w)).
  destruct (ThreadQueue.top (queue w)) as [u|]; [|by rewrite Hs].
  rewrite (decide_False (P := u = t)) by congruence. by rewrite Hs, decide_False.
Qed.

(** C10. Whatever thread the scheduler had in mind when it decided to go on, it
    ends, after at most three calls, by handling the thread in front of the
    queue, which is one with the least virtual time, the way the state of that
    thread asks for; when the queue is empty, or its front runs or belongs to
    another manager, it only shortens its next sleep. *)
Theorem handles_least_thread n h fuel t w : ordered w ->
  let continue := continueThread managerId gsf resumeThread_ afterModelSimulation_ enter (3 + n) h fuel (Some t) w in
  match ThreadQueue.top w.(queue) with
  | None => continue = Ok (limitNextTimeslice (lockKey t w))
  | Some u =>
    (forall v, v ∈ w.(queue) -> ert w.(threads) u <= ert w.(threads) v) /\
    continue = handleFront h fuel u (lockKey u (if decide (u = t) then w else lockKey t w))
  end.
Proof.
  intros Hw continue. subst continue. destruct (ThreadQueue.top w.(queue)) as [u|] eqn:Ht.
  - split; [by apply (ThreadQueue.top_least _ _ _ Hw Ht)|]. case_decide as Hd.
    + subst u. cbn [Nat.add]. by rewrite continue_front.
    + cbn [Nat.add]. rewrite continue_other, Ht by congruence. by apply continue_front.
  - cbn [Nat.add]. by rewrite continue_other, Ht, continue_none by congruence.
Qed.
End virtual.

(** *** The interface of the methods that a derived class replaces

    To resume or to suspend a thread may move that thread in or out of the
    queue and change it, but leaves the other threads and the order of the queue
    alone; what follows the simulation of a model touches neither. *)
Class KeepsOthers (resumeThread_ : Host -> nat -> World T -> res (World T))
    (afterModelSimulation_ : World T -> World T)
    (suspendThread_ : Host -> nat -> World T -> res (bool * World T)) : Prop := {
  resume_handled h t w w' : t ∉ w.(queue) -> ordered w -> resumeThread_ h t w = Ok w' -> handled t w w';
  suspend_handled h t w b w' : t ∉ w.(queue) -> ordered w -> suspendThread_ h t w = Ok (b, w') -> handled t w w';
  suspend_off h t w b w' : t ∉ w.(queue) -> w.(runningThread) = Some t -> suspendThread_ h t w = Ok (b, w') ->
    w'.(runningThread) = Some t -> t ∉ w'.(queue);
  after_same w : (afterModelSimulation_ w).(threads) = w.(threads) /\
    (afterModelSimulation_ w).(queue) = w.(queue) /\ (afterModelSimulation_ w).(runningThread) = w.(runningThread);
}.

Section methods.
Context {resumeThread_ : Host -> nat -> World T -> res (World T)} {afterModelSimulation_ : World T -> World T}
  {suspendThread_ : Host -> nat -> World T -> res (bool * World T)}.
Context `{HK : !KeepsOthers resumeThread_ afterModelSimulation_ suspendThread_}.

Lemma timedWaiting_handled h t w w' : t ∉ w.(queue) -> ordered w -> 0 < getTimeout (thread_of t w) ->
  interruptTimedWaitingThread resumeThread_ h t w = Ok w' -> handled t w w'.
Proof.
  intros Hn Hw Ht. unfold interruptTimedWaitingThread. pose proof (leap_only h t t w) as Hl.
  assert (getTimeout (thread_of t (isValidToLeapInVirtualTimeTo h t w).2) = getTimeout (thread_of t w)) as Hg
    by (unfold isValidToLeapInVirtualTimeTo; by repeat case_match).
  destruct (isValidToLeapInVirtualTimeTo h t w) as [[] w1]; cbn in Hl, Hg.
  - intros (w2&Hc&(w3&Hi&Hr)%bind_ok)%bind_ok. pose proof Hc as Hc0.
    pose proof (only_trans _ _ _ _ Hl (only_with_timeline _ _ _ _ Hc)) as Ho.
    apply bind_ok in Hc as ([tm tl]&Hc&[= Heq]). apply Controllers.commitTimedWaiting_timeout in Hc.
    apply interrupted_handled in Hi as [[Hw3 Hh3] Hq3].
    + cbn in Hq3. apply resume_handled in Hr; [|cbn; by rewrite Hq3, (proj1 Ho)|by apply ordered_upd].
      apply (only_then_handled _ _ w1); [done|]. apply (only_then_handled _ _ w2); [by eapply only_with_timeline, Hc0|].
      split; [apply Hr|]. intros x Hx. eapply left_alone_trans; [by apply Hh3|].
      eapply left_alone_trans; [by eapply left_alone_only; [apply only_upd|]|by apply Hr].
    + cbn. by rewrite (proj1 Ho).
    + apply (ordered_same w2); [done..|]. by eapply only_ordered.
    + subst w2. unfold thread_of, upd. cbn. rewrite lookup_update_thread, decide_True by done.
      unfold getTimeout, set_timers. cbn. rewrite Hc. fold (thread_of t w1). unfold getTimeout in *. lia.
  - apply handled_push; [done..|]. eapply only_trans; [done|].
    eapply only_trans; [apply only_upd|by apply only_same].
Qed.

Lemma simulate_handled fuel t total w w' : t ∉ w.(queue) -> ordered w ->
  _simulateModel gsf enter fuel t total w = Ok w' -> handled t w w'.
Proof.
  intros Hn Hw ([finished w1]&Hs&Hf)%bind_ok.
  assert (only t w w1) as Ho.
  { unfold hasResumedModelSimulationRunToCompletion in Hs. cbn zeta in Hs.
    destruct (VexThreadState.resumeModelSimulation _ _ _ _ _) as [[[? ?] ?]|]; [|done].
    apply bind_ok in Hs as (w2&?%only_with_timeline&[= _ <-]).
    eapply only_trans; [|done]. do 2 apply only_then_upd. apply only_refl. }
  destruct finished.
  - apply bind_ok in Hf as (w2&Hp&[= <-]). eapply handled_push in Hp; [|done..|].
    + eapply handled_then_only; [exact Hp|apply only_upd|by apply ordered_upd, Hp].
    + by do 2 apply only_then_upd.
  - case_match; [by eapply handled_push|]. injection Hf as <-. by apply handled_only.
Qed.

Lemma model_handled h fuel t w w' : t ∉ w.(queue) -> ordered w ->
  resumeModelSimulation managerId gsf afterModelSimulation_ enter h fuel t w = Ok w' -> handled t w w'.
Proof.
  intros Hn Hw. unfold resumeModelSimulation.
  assert (forall w1, only t w w1 -> 
    simulateResumed managerId gsf afterModelSimulation_ enter h fuel t w1 = Ok w' -> handled t w w') as Hsim.
  { intros w1 Ho (w2&Hr%only_with_timeline&(w3&Hs&[= Heq])%bind_ok)%bind_ok.
    assert (only t w w2) as Ho2 by (eapply only_trans; [|exact Hr]; by do 2 apply only_then_upd).
    apply simulate_handled in Hs; [|by rewrite (proj1 Ho2)|by eapply only_ordered].
    assert (threads w' = threads w3 /\ queue w' = queue w3 /\ runningThread w' = runningThread w3) as (Ht' & Hq' & Hr')
      by (subst w'; case_match; [apply after_same|done]).
    eapply only_then_handled; [exact Ho2|]. eapply handled_then_only; [exact Hs| |by eapply ordered_same, Hs].
    apply only_same; [done..|by intros z; rewrite Hr']. }
  case_match.
  - pose proof (leap_only h t t w) as Hl.
    destruct (isValidToLeapInVirtualTimeTo h t w) as [[] w1]; cbn in Hl; [|by apply handled_push].
    intros (w2&?%only_with_timeline&Hs)%bind_ok. eapply Hsim; [|exact Hs].
    apply only_then_upd. by eapply only_trans.
  - intros (w2&?%only_with_timeline&Hs)%bind_ok. by eapply Hsim.
Qed.

(** A thread that keeps its place while it is handled. *)
Definition keeps_place (s : thread) : bool :=
  inIoPredictionPhase s || isWaitingRealCodeToCompleteAfterModelSimulation s.

Lemma io_handled h t w w' : (t ∈ w.(queue) -> inIoPredictionPhase (thread_of t w) = true) ->
  ordered w -> handleIOPerformingThread h t w = Ok w' -> handled t w w'.
Proof.
  intros Hin Hw. unfold handleIOPerformingThread. destruct (inIoPredictionPhase _) eqn:Hio.
  - case_match; [by intros [= <-]|]. case_match.
    + intros [= <-]. assert (ordered (upd t setInIoStale w)) by (by apply ordered_upd).
      split; [done|]. intros x Hx. apply (left_alone_trans _ _ (upd t setInIoStale w)); [|done].
      by eapply left_alone_only; [apply only_upd|].
    + pose proof (ThreadQueue.invalidateExpired_keeps w.(threads) w.(queue) h.(realNow) Hw) as (Hk&Hp&Hx).
      destruct (ThreadQueue.invalidateExpiredIoPredictions _ _ _) as [th q].
      intros [= <-]. split; [exact Hk|]. intros x _. cbn in *. split_and!; [cbn; by rewrite Hp|apply Hx|done].
  - assert (t ∉ w.(queue)) by (by intros ?%Hin). case_match; [case_match; [done|]|].
    + by apply timedOutIo_handled.
    + intros [= <-]. by split.
Qed.

Lemma answer_same h t w i w' : getSuspendingThreadIntention h t w = Ok (i, w') ->
  exists sched, w' = upd t (set_scheduling sched) w.
Proof.
  unfold getSuspendingThreadIntention. destruct (Scheduling.getSuspendingThreadIntention _) as [[? sched]|]; [|done].
  intros [= _ <-]. by exists sched.
Qed.

Lemma erase_reorders t w : NoDup w.(queue) -> handled t w (eraseFromRunnables t w).
Proof.
  intros Hw. unfold eraseFromRunnables, handled, ordered. cbn.
  destruct (decide (t ∈ w.(queue))) as [Hin|Hin].
  - pose proof (AdaptiblePQueue.erase_perm (ert w.(threads)) w.(queue) t Hin) as Hp. split.
    + split; [apply (AdaptiblePQueue.erase_heap_order (ert _))|].
      assert (NoDup (t :: AdaptiblePQueue.erase (ert w.(threads)) w.(queue) t)) as Hnd
        by (rewrite Hp; apply Hw). by apply NoDup_cons in Hnd as [_ ?].
    + intros x Hx. split_and!; [|done|done]. cbn.
      assert (x ∈ w.(queue) <-> x ∈ t :: AdaptiblePQueue.erase (ert w.(threads)) w.(queue) t) as ->
        by (by rewrite Hp). rewrite elem_of_cons. unfold ThreadQueue.erase. naive_solver.
  - pose proof (AdaptiblePQueue.erase_absent_perm (ert w.(threads)) w.(queue) t Hin) as Hp. split.
    + split; [apply (AdaptiblePQueue.erase_heap_order (ert _))|].
      unfold ThreadQueue.erase. rewrite Hp. apply Hw.
    + intros x Hx. split_and!; [|done|done]. cbn. unfold ThreadQueue.erase. by rewrite Hp.
Qed.

Lemma erase_handled t w : ordered w -> handled t w (eraseFromRunnables t w).
Proof. intros Hw. apply erase_reorders, Hw. Qed.

Lemma update_reorders t w : NoDup w.(queue) -> handled t w (updateRunnableQueue w).
Proof.
  intros Hw. split; [by apply ThreadQueue.wf_update|]. intros x Hx. split_and!; [|done|done]. cbn.
  unfold ThreadQueue.update. by rewrite (AdaptiblePQueue.update_perm (ert w.(threads))).
Qed.

Lemma poll_handled h t w w' : ordered w -> pollThreadToCheckIfActuallyRunning h t w = Ok w' ->
  handled t w w'.
Proof.
  intros Hw. unfold pollThreadToCheckIfActuallyRunning. case_match; [|intros [= <-]; by apply erase_handled].
  intros ([running w1]&Hs&Hf)%bind_ok. unfold isSignalledThreadStillRunning in Hs.
  apply bind_ok in Hs as ([i w2]&[sched ->]%answer_same&Hs).
  assert (ordered w1 /\ only t w w1) as [Hw1 Ho1].
  { match type of Hs with context [upd t ?f ?w0] => assert (ordered (upd t f w0) /\ only t w (upd t f w0)) as Ho
      by (split; [by apply ordered_upd|apply only_then_upd; by apply only_same]) end.
    destruct i; injection Hs as _ <-; exact Ho. }
  apply (only_then_handled _ _ w1); [done|].
  destruct running; [injection Hf as <-; by split|].
  unfold ThreadQueue.setThreadToNextBiggestErt in Hf.
  destruct (ThreadQueue.entries_after _ _) as [rest|]; injection Hf as <-; unfold handled, ordered; cbn; [|by split].
  split; [apply ThreadQueue.wf_update; apply Hw1|]. intros x Hx. split_and!; cbn; [|intros _|done].
  - by rewrite (AdaptiblePQueue.update_perm (ert _)).
  - unfold thread_of. cbn. by rewrite lookup_update_thread, decide_False.
Qed.

Lemma dispatch_handled h fuel t w w' : ordered w ->
  (t ∈ w.(queue) -> keeps_place (thread_of t w) = true) ->
  dispatch managerId gsf resumeThread_ afterModelSimulation_ enter h fuel t w = Ok w' ->
  handled t w w'.
Proof.
  intros Hw Hk. unfold dispatch.
  assert (forall c, keeps_place (thread_of t w) = true -> c <> IN_IO ->
    c <> AFTER_MODEL_SIM_WAITING_FOR_REAL_CODE -> in_state c (thread_of t w) = false) as Hst.
  { unfold keeps_place, inIoPredictionPhase, isWaitingRealCodeToCompleteAfterModelSimulation, in_state.
    intros c [H|H]%orb_true_iff ??; apply bool_decide_eq_true in H; rewrite H; by apply bool_decide_eq_false. }
  destruct (isSuspended _) eqn:E1.
  { assert (t ∉ w.(queue)) by (intros H%Hk; apply (Hst SUSPENDED) in H; [|done..]; unfold isSuspended in *; congruence).
    case_match; [|apply handled_push; [done|done|apply only_refl]].
    by apply resume_handled. }
  destruct (inIo _) eqn:E2.
  { apply io_handled; [|done]. intros H%Hk. pose proof (Hst LEARNING_IO H ltac:(done) ltac:(done)) as Hl.
    unfold inIo in E2. rewrite Hl, orb_false_r in E2. exact E2. }
  destruct (isTimedWaiting _) eqn:E3.
  { unfold isTimedWaiting in E3. apply andb_true_iff in E3 as [E3 Ht%Z.ltb_lt].
    apply timedWaiting_handled; [|done|done]. intros H%Hk. rewrite (Hst WAITING) in E3; done. }
  destruct (isSimulatingModel _) eqn:E4.
  { apply model_handled; [|done]. intros H%Hk. unfold isSimulatingModel in E4. rewrite !Hst in E4; done. }
  destruct (isWaitingRealCodeToCompleteAfterModelSimulation _); [by apply poll_handled|].
  case_match; [done|]. intros [= <-]. by split.
Qed.


Lemma next_at_top_handled th q u : ThreadQueue.wf th q -> ThreadQueue.top q = Some u ->
  let q' := (ThreadQueue.next_at_top th q managerId u).2 in
  ThreadQueue.wf th q' /\ (forall x, x <> u -> x ∈ q' <-> x ∈ q) /\
  ((ThreadQueue.next_at_top th q managerId u).1 = Some u -> u ∈ q' -> keeps_place (th !!! u) = true).
Proof.
  intros Hw Ht. destruct q as [|u' q]; [done|]. injection Ht as ->.
  destruct (ThreadQueue.wf_pop th u q Hw) as (Hwp&Hp&Hu).
  unfold ThreadQueue.next_at_top, keeps_place.
  destruct (isRunning _); [done|]. destruct (inIoPredictionPhase _); [done|].
  destruct (isWaitingRealCodeToCompleteAfterModelSimulation _); [by case_decide|].
  cbn zeta. cbn [fst snd]. split_and!; [done| |intros _; by rewrite Hp].
  intros x Hx. rewrite Hp, elem_of_cons. naive_solver.
Qed.

Lemma handleFront_handled h fuel u w w' : ordered w -> ThreadQueue.top w.(queue) = Some u ->
  handleFront resumeThread_ afterModelSimulation_ h fuel u w = Ok w' -> handled u w w'.
Proof.
  intros Hw Ht. unfold handleFront.
  pose proof (next_at_top_handled _ _ _ Hw Ht) as (Hwq&Hq&Hk).
  destruct (next_at_top_self w.(threads) w.(queue) u) as [Hn|Hn];
    destruct (ThreadQueue.next_at_top _ _ _ _) as [r q]; cbn in Hn, Hq, Hk, Hwq; subst r.
  - intros Hd%dispatch_handled; [|done|by apply Hk]. split; [apply Hd|]. intros x Hx.
    apply (left_alone_trans _ _ (set_queue q w)); [|by apply Hd]. split_and!; [by apply Hq|done|done].
  - intros [= <-]. split; [done|]. intros x Hx. split_and!; [by apply Hq|done|done].
Qed.

(** The first half of a pass: the running thread, if any, is suspended. *)
Definition off_queue (w : World T) : Prop := forall t, w.(runningThread) = Some t -> t ∉ w.(queue).

Lemma unset_core t w : (unsetCurrentThreadFromRunningThread t w).(runningThread) <> Some t.
Proof. unfold unsetCurrentThreadFromRunningThread. by case_decide. Qed.

Lemma suspend_running h w goOn w' : ordered w -> off_queue w ->
  match w.(runningThread) with
  | None => Ok (true, w)
  | Some t => suspendThread suspendThread_ h t w
  end = Ok (goOn, w') ->
  ordered w' /\ off_queue w' /\ keeps_core w w' /\ forall x, w.(runningThread) <> Some x -> left_alone x w w'.
Proof.
  intros Hw Hr. destruct w.(runningThread) as [t|] eqn:Ht; [|intros [= _ <-]; by split_and!].
  specialize (Hr t Ht). intros Hs. assert (handled t w w' /\ off_queue w') as [Hh Ho].
  { unfold suspendThread in Hs. destruct (keyFree h).
    - assert (handled t w w') as Hh by (by eapply suspend_handled). split; [done|]. intros x Hx.
      pose proof (handled_core _ _ _ Hh x Hx) as Hxt. rewrite Ht in Hxt. injection Hxt as <-. by eapply suspend_off.
    - injection Hs as _ <-. split; [apply handled_only; [done..|]; apply only_then_upd, only_unset|].
      intros x Hx. cbn in Hx. pose proof (proj2 (proj2 (only_unset t t w)) x Hx) as Hxt. rewrite Ht in Hxt. injection Hxt as <-.
      by apply unset_core in Hx. }
  split_and!; [apply Hh|done|by eapply handled_core|]. intros x Hx. apply Hh. congruence.
Qed.

(** The second half: the thread in front is handled. *)
Lemma continue_handled n h fuel w w' : ordered w ->
  continueThread managerId gsf resumeThread_ afterModelSimulation_ enter (2 + n) h fuel
    (ThreadQueue.top w.(queue)) w = Ok w' ->
  ordered w' /\ keeps_core w w' /\ forall x, ThreadQueue.top w.(queue) <> Some x -> left_alone x w w'.
Proof.
  intros Hw Hc. destruct (ThreadQueue.top w.(queue)) as [u|] eqn:Ht.
  - cbn [Nat.add] in Hc. rewrite continue_front in Hc by done.
    apply handleFront_handled in Hc as Hh; [|by apply ordered_upd|done]. pose proof (handled_core _ _ _ Hh) as Hk.
    destruct Hh as [Hw' Hq']. split; [done|]. split; [exact Hk|]. intros x Hxu. assert (x <> u) by congruence. eapply left_alone_trans; [|by apply Hq'].
    by eapply left_alone_only; [apply only_upd|].
  - injection Hc as <-. by split_and!.
Qed.

Lemma off_queue_front w w' : ordered w -> off_queue w -> keeps_core w w' ->
  (forall x, ThreadQueue.top w.(queue) <> Some x -> left_alone x w w') -> off_queue w'.
Proof.
  intros Hw Ho Hk Hl x Hx. pose proof (Ho x (Hk x Hx)) as Hn. destruct (Hl x) as [Hq _]; [|by rewrite Hq].
  intros Ht. apply Hn. by destruct (ThreadQueue.top_least _ _ _ Hw Ht).
Qed.
End methods.

Lemma only_keep t w : w.(runningThread) = Some t -> only t w (onIntentionToKeepOnRunning managerId t w).
Proof.
  intros Hr. split_and!; [done| |by intros t'; cbn; rewrite Hr].
  intros t' Ht'. unfold onIntentionToKeepOnRunning, thread_of, upd. cbn. by rewrite lookup_update_thread, decide_False.
Qed.

Lemma signalled_handled h t w b w' : ordered w -> t ∉ w.(queue) -> w.(runningThread) = Some t ->
  isSignalledThreadGoingToSuspend managerId minimizeTimeslotOnNw h t w = Ok (b, w') -> handled t w w'.
Proof.
  intros Hw Hn Hr. unfold isSignalledThreadGoingToSuspend.
  intros ([i w1]&[sched ->]%answer_same&Hs)%bind_ok.
  match type of Hs with context [upd t ?f ?w0] => assert (only t w (upd t f w0)) as Ho
    by (apply only_then_upd; by apply only_same); set (w1 := upd t f w0) in * end.
  destruct i.
  - injection Hs as _ <-. apply handled_only; [done..|].
    eapply only_trans; [exact Ho|]. by apply only_keep.
  - apply bind_ok in Hs as (w2&Hp&[= _ <-]). eapply handled_push in Hp; [done..|].
    apply only_then_upd. eapply only_trans; [exact Ho|].
    eapply only_trans; [|apply only_unset]. by apply only_same.
  - injection Hs as _ <-. apply handled_only; [done..|].
    eapply only_trans; [exact Ho|]. by apply only_keep.
  - injection Hs as _ <-. apply handled_only; [done..|]. eapply only_trans; [exact Ho|].
    unfold onIntentionToBeDisregarded. case_match; [|apply only_unset].
    eapply only_trans; [apply only_unset|]. unfold minimizeSchedulerTimeslot. by repeat case_match.
  - injection Hs as _ <-. apply handled_only; [done..|].
    eapply only_trans; [exact Ho|]. by apply only_keep.
Qed.

Lemma suspended_handled h t w b w' : ordered w -> t ∉ w.(queue) ->
  _suspendThread managerId minimizeTimeslotOnNw h t w = Ok (b, w') -> handled t w w'.
Proof.
  intros Hw Hn. unfold _suspendThread. case_decide; [|by intros [= _ <-]].
  case_match; [by apply signalled_handled|]. intros [= _ <-]. by apply erase_handled.
Qed.

Lemma signalled_off h t w b w' : t ∉ w.(queue) -> w.(runningThread) = Some t ->
  isSignalledThreadGoingToSuspend managerId minimizeTimeslotOnNw h t w = Ok (b, w') ->
  w'.(runningThread) = Some t -> t ∉ w'.(queue).
Proof.
  intros Hn Hr. unfold isSignalledThreadGoingToSuspend.
  intros ([i w1]&[sched ->]%answer_same&Hs)%bind_ok. destruct i; try (by injection Hs as _ <-).
  - apply bind_ok in Hs as (w2&Hp&[= _ <-]). unfold setSuspended, pushIntoRunnableQueue in Hp.
    apply bind_ok in Hp as (q & _ & [= <-]). cbn. intros Hx. by apply unset_core in Hx.
  - injection Hs as _ <-. unfold onIntentionToBeDisregarded, minimizeSchedulerTimeslot.
    intros Hx. repeat case_match; cbn in Hx; by apply unset_core in Hx.
Qed.

Lemma suspended_off h t w b w' : t ∉ w.(queue) -> w.(runningThread) = Some t ->
  _suspendThread managerId minimizeTimeslotOnNw h t w = Ok (b, w') -> w'.(runningThread) = Some t -> t ∉ w'.(queue).
Proof.
  intros Hn Hr. unfold _suspendThread. case_decide; [|by intros [= _ <-]].
  case_match; [by apply signalled_off|]. intros [= _ <-] _. cbn. unfold ThreadQueue.erase.
  by rewrite (AdaptiblePQueue.erase_absent_perm (ert w.(threads)) w.(queue) t Hn).
Qed.

#[export] Instance base_keeps_others : KeepsOthers (resumeThread managerId) afterModelSimulation
  (_suspendThread managerId minimizeTimeslotOnNw).
Proof.
  split.
  - intros h t w w' Hn Hw ?%resume_only. by apply handled_only.
  - intros h t w b w' Hn Hw. by apply suspended_handled.
  - intros h t w b w'. apply suspended_off.
  - done.
Qed.

(** A thread that neither runs nor is in the queue. *)
Lemma pass_leaves_alone h fuel x w w' : ordered w -> off_queue w ->
  schedulingPass managerId gsf minimizeTimeslotOnNw enter h fuel w = Ok w' ->
  w.(runningThread) <> Some x -> x ∉ w.(queue) -> left_alone x w w'.
Proof.
  intros Hw Hr Hp Hx Hn. unfold schedulingPass, suspendRunningResumeNext in Hp.
  apply bind_ok in Hp as ([goOn w1]&Hs&Hc). eapply suspend_running in Hs as (Hw1&_&_&Hq1); [|done..].
  specialize (Hq1 x Hx). destruct goOn; [|by injection Hc as <-].
  apply (continue_handled 1) in Hc as (Hw'&_&Hu); [|done]. eapply left_alone_trans; [exact Hq1|]. apply Hu.
  intros Ht. apply Hn, Hq1. destruct (ThreadQueue.top_least _ _ _ Hw1 Ht). done.
Qed.

Lemma pass_invariant h fuel w w' : ordered w -> off_queue w ->
  schedulingPass managerId gsf minimizeTimeslotOnNw enter h fuel w = Ok w' -> ordered w' /\ off_queue w'.
Proof.
  intros Hw Hr. unfold schedulingPass, suspendRunningResumeNext.
  intros ([goOn w1]&Hs&Hc)%bind_ok. eapply suspend_running in Hs as (Hw1&Ho1&_); [|done..].
  destruct goOn; [|by injection Hc as <-].
  apply (continue_handled 1) in Hc as (Hw'&Hk&Hu); [|done]. split; [done|by eapply off_queue_front].
Qed.


(** ** Leaps in virtual time *)

(** Nobody registered can still act before the time of [t]. *)
Definition nobodyHoldsUp (t : nat) (remaining : Z) (w : World T) : Prop :=
  forall id u, (id, u) ∈ w.(registry).(ThreadRegistry.threadStateIndex) ->
    ThreadRegistry.holds_up (ert w.(threads) t) remaining (thread_of u w) = false.

(** The registry is not sure, but since the last such answer 200 ms of real
    time passed in which no thread made progress, and those that wait in native
    code are blocked for the operating system. *)
Definition standsStill (h : Host) (t : nat) (remaining : Z) (w : World T) : Prop :=
  ThreadRegistry.areAnyOtherThreadsActiveInFormerTime w.(threads) t remaining w.(registry)
    = ThreadRegistry.MAYBE_ONE_ALIVE /\
  w.(lastTotalThreadERT) <> 0 /\
  200000000 <= h.(realNow) -ll w.(lastGlobalVirtualTime) /\
  ThreadRegistry.getSummedErtOfAllThreads w.(threads) w.(registry) = w.(lastTotalThreadERT) /\
  ThreadRegistry.areAllNativeWaitingThreadsBlockedAccordingToSystemState w.(threads) h.(systemState) t
    w.(registry) = true.

(** C11. Virtual time leaps to the time of a thread exactly when that thread
    does not wait in real time and either its time has been reached already,
    or no notification is pending, no thread is being spawned and no background
    load runs, and nobody registered can act before (or the registry is not
    sure, and everything has stood still for 200 ms).  Asking changes nothing
    but the two values that remember the last unsure answer. *)
Theorem leap_iff h t w :
  let remaining := Controllers.getHowFarAheadInVirtualTimeTheThreadIs (thread_of t w).(timers) w.(timeline) in
  let '(leaps, w') := isValidToLeapInVirtualTimeTo h t w in
  (leaps = true <->
   (thread_of t w).(waitingInRealTime) = false /\
   (remaining < 0 \/
    w.(pendingNotifications) = 0 /\ w.(registry).(ThreadRegistry.threadsBeingSpawned) <= 0 /\
    w.(registry).(ThreadRegistry.forwardLeapsAllowed) = true /\
    (nobodyHoldsUp t remaining w \/ standsStill h t remaining w))) /\
  set_lastTotalThreadERT 0 (set_lastGlobalVirtualTime 0 w')
    = set_lastTotalThreadERT 0 (set_lastGlobalVirtualTime 0 w).
Proof.
  cbn zeta. unfold isValidToLeapInVirtualTimeTo, standsStill.
  set (remaining := Controllers.getHowFarAheadInVirtualTimeTheThreadIs _ _).
  destruct (waitingInRealTime _); [split; [naive_solver|done]|].
  destruct (Z.ltb_spec remaining 0) as [Hn|Hn]; [split; [naive_solver|done]|].
  destruct (Z.eqb_spec w.(pendingNotifications) 0) as [Hp|Hp]; [|split; [naive_solver lia|done]].
  assert (ThreadRegistry.areAnyOtherThreadsActiveInFormerTime w.(threads) t remaining w.(registry)
            = ThreadRegistry.NONE_ALIVE <->
          w.(registry).(ThreadRegistry.threadsBeingSpawned) <= 0 /\
          w.(registry).(ThreadRegistry.forwardLeapsAllowed) = true /\ nobodyHoldsUp t remaining w) as Hnone.
  { unfold ThreadRegistry.areAnyOtherThreadsActiveInFormerTime, nobodyHoldsUp.
    destruct (Z.ltb_spec 0 w.(registry).(ThreadRegistry.threadsBeingSpawned)); [split; [done|lia]|].
    destruct w.(registry).(ThreadRegistry.forwardLeapsAllowed); cbn [negb]; [|split; [done|naive_solver]].
    rewrite ThreadRegistry.scan_none, Forall_forall. split.
    - intros Hf. split_and!; [done|done|]. intros id u Hin. apply (Hf _ Hin).
    - intros (_&_&Hf) [id u] Hin. by apply (Hf id u). }
  assert (ThreadRegistry.areAnyOtherThreadsActiveInFormerTime w.(threads) t remaining w.(registry)
            <> ThreadRegistry.AT_LEAST_ONE_ALIVE ->
          w.(registry).(ThreadRegistry.threadsBeingSpawned) <= 0 /\
          w.(registry).(ThreadRegistry.forwardLeapsAllowed) = true) as Hmaybe.
  { unfold ThreadRegistry.areAnyOtherThreadsActiveInFormerTime.
    destruct (Z.ltb_spec 0 w.(registry).(ThreadRegistry.threadsBeingSpawned)); [done|].
    by destruct w.(registry).(ThreadRegistry.forwardLeapsAllowed). }
  destruct (ThreadRegistry.areAnyOtherThreadsActiveInFormerTime _ _ _ _).
  - split; [|done]. split; [done|]. intros (_&[?|(_&Hs&Hf&[Hh|Hh])]); [lia| |naive_solver].
    discriminate (proj2 Hnone (conj Hs (conj Hf Hh))).
  - destruct (Hmaybe ltac:(done)) as [Hs Hf].
    assert (~ nobodyHoldsUp t remaining w) as Hno by (intros Hh; discriminate (proj2 Hnone (conj Hs (conj Hf Hh)))).
    destruct (Z.eqb_spec w.(lastTotalThreadERT) 0); [split; [naive_solver lia|done]|].
    destruct (Z.ltb_spec (h.(realNow) -ll w.(lastGlobalVirtualTime)) 200000000); [split; [naive_solver lia|done]|].
    split; [|done]. rewrite andb_true_iff, Z.eqb_eq. naive_solver lia.
  - split; [|done]. destruct (proj1 Hnone eq_refl) as (?&?&?). naive_solver.
Qed.
End pass.
#[export] Hint Extern 0 (keeps_core _ _) => intros ? Hcore; exact Hcore : core.

(** ** Witnesses: the two threads of [ThreadQueue] in the hands of one manager *)
#[local] Existing Instances Controllers.SingleVirtualTimelineController Controllers.single_laws.

Definition two_world (suspended : bool) : World VirtualTimeline.VirtualTimeline.VirtualTimeline :=
  new_ThreadManager
    (if suspended then update_thread 1 VexThreadState.setSuspended ThreadQueue.two_threads
     else ThreadQueue.two_threads)
    [1; 2]%nat (ThreadRegistry.new_ThreadRegistry 2 false) ∅ (VirtualTimeline.VirtualTimeline.mkTimeline 0 0) false 0 None.

Definition two_host : Host := mkHost 100 (fun _ => "S"%char) true true Scheduling.TO_BE_SUSPENDED.
Definition no_node (s : thread) : bool * thread := (true, s).

Lemma two_world_ordered b : ordered (two_world b).
Proof.
  destruct b; [|exact ThreadQueue.two_threads_wf].
  eapply ThreadQueue.wf_ext; [|exact ThreadQueue.two_threads_wf]. intros t _. cbn.
  rewrite ert_update_thread. by case_decide; subst.
Qed.

Lemma handles_least_thread_witness :
  (forall v, v ∈ [1; 2]%nat -> ert ThreadQueue.two_threads 1 <= ert ThreadQueue.two_threads v) /\
  continueThread 0 f32_one (resumeThread 0) afterModelSimulation no_node 3 two_host 0 (Some 2%nat)
    (two_world false)
  = handleFront 0 f32_one no_node (resumeThread 0) afterModelSimulation two_host 0 1
      (lockKey 1 (lockKey 2 (two_world false))).
Proof.
  exact (handles_least_thread 0 f32_one no_node (resumeThread 0) afterModelSimulation 0 two_host 0 2
    (two_world false) (two_world_ordered false)).
Defined.


End SchedulingPass.
