(* ===== verification/ControllerWait.v ===== *)
(** * The wait of the scheduler

    [ThreadManager::doControllerWait] (src/src/vex/scheduler/ThreadManager.cpp):
    how long the scheduler sleeps between two passes, the deadline it gives to
    the operating system, and the flag through which threads wake it up.  What the
    clock says at each round, and what the threads do until the round ends,
    are arguments; [running] does not change during a call.  The counters of
    timeslots, which are only kept on demand, and the copy of the clock that
    bounds the next [suspendThread] are left out. *)
From S2P Require Import Prelude Heap AdaptiblePQueue CxxFloat Timers Controllers Statistics.
From S2P Require Import ThreadParts ThreadState ThreadQueue ThreadRegistry ThreadManager.
Import VexThreadState ThreadManager.

Module ControllerWait.

(** ** Times of the operating system *)
Definition billion : Z := 1000000000.

Record timespec := mkTimespec { tv_sec : Z; tv_nsec : Z }.

(** The [while] loop that carries nanoseconds over to seconds. *)
Fixpoint carry (fuel : nat) (ts : timespec) : timespec :=
  match fuel with
  | O => ts
  | S fuel =>
    if billion <? ts.(tv_nsec)
    then carry fuel (mkTimespec (ts.(tv_sec) +ll 1) (ts.(tv_nsec) -ll billion))
    else ts
  end.

Definition deadline (start : timespec) (remaining : Z) : timespec :=
  let nsec := start.(tv_nsec) +ll remaining in
  carry (Z.to_nat (nsec / billion)) (mkTimespec start.(tv_sec) nsec).

(** The difference of two [timeval]s, each the microseconds of a clock
    reading, in nanoseconds. *)
Definition elapsed (before now : timespec) : Z :=
  let usec (ts : timespec) := Z.quot ts.(tv_nsec) 1000 in
  let sec := now.(tv_sec) -ll before.(tv_sec) in
  let diff := usec now -ll usec before in
  let '(sec, diff) := if diff <? 0 then (sec -ll 1, diff +ll 1000000) else (sec, diff) in
  (billion *ll sec) +ll (1000 *ll diff).

(** ** Rounds *)
Section wait.
Context `{HO : StdHeapOps} {T : Type}.
Implicit Types w : World T.

(** The local variables of the function. *)
Record Wait := mkWait {
  totalRemainingWaitingTime : Z;
  nsecAlreadyWaited : Z;
  timeWaitingFactor : float;
  previousTimeWaitingFactor : float;
  alreadyWaited : bool;
  tp : timespec;
}.

(** What the host and the threads do in a round. *)
Record Round := mkRound { clock : timespec; others : World T -> World T }.

(** The start of the outer loop; what was waited before is not reset. *)
Definition newTimeslot (st : Wait) w : res (Wait * World T) :=
  guard_assert (0 <? w.(schedulerTimeslot)) ;;
  Ok (mkWait w.(schedulerTimeslot) st.(nsecAlreadyWaited) st.(timeWaitingFactor)
        st.(previousTimeWaitingFactor) false st.(tp),
      set_forceMinimumTimeslotSelection false w).

Definition remainingTime (total nsec : Z) (previous factor : float) : Z :=
  f_to_ll (SFdiv 53 1024 (f32_mul (ll_to_f32 (total -ll nsec)) previous) factor).

(** The inner loop up to the test of the remaining time. *)
Definition plan (now : timespec) (st : Wait) w : res (Wait * World T) :=
  let '(nsec, previous) :=
    if st.(alreadyWaited) then (f_to_ll (ll_to_f64 (elapsed st.(tp) now)), st.(timeWaitingFactor))
    else (st.(nsecAlreadyWaited), st.(previousTimeWaitingFactor)) in
  let factor := getRunningThreadScalingFactor w in
  guard_assert (f_ltb (S754_zero false) factor) ;;
  let nsec := nsec +ll w.(decreaseSchedulerSleepingTimeBy) in
  let w := set_timeWaitingFactorChanged false (set_decreaseSchedulerSleepingTimeBy 0 w) in
  let total := if w.(forceMinimumTimeslotSelection) then 1000000
               else remainingTime st.(totalRemainingWaitingTime) nsec previous factor in
  Ok (mkWait total nsec factor previous true st.(tp), w).

Inductive action := Sleeps (until : timespec) | DoesNotSleep | ReturnsAtOnce.

Definition enterWait (running : bool) (now : timespec) (st : Wait) w : action * Wait * World T :=
  if 0 <? st.(totalRemainingWaitingTime) then
    let st' := mkWait st.(totalRemainingWaitingTime) st.(nsecAlreadyWaited) st.(timeWaitingFactor)
                 st.(previousTimeWaitingFactor) st.(alreadyWaited) now in
    if running && negb w.(schedulerWaitingForTimeslotExpiry)
    then (Sleeps (deadline now st.(totalRemainingWaitingTime)), st', set_schedulerWaitingForTimeslotExpiry true w)
    else (ReturnsAtOnce, st', set_schedulerWaitingForTimeslotExpiry false w)
  else (DoesNotSleep, st, w).

(** [noThreads] is virtual.  The result lists the deadlines of the sleeps. *)
Fixpoint rounds (running : bool) (noThreads : World T -> res (bool * World T)) (es : list Round)
    (st : Wait) w : res (list timespec * World T) :=
  match es with
  | [] => Err OutOfFuel
  | e :: es =>
    '(st, w) ← plan e.(clock) st w;
    let '(act, st, w) := enterWait running e.(clock) st w in
    let next w :=
      if w.(timeWaitingFactorChanged) then rounds running noThreads es st w
      else
        '(idle, w) ← noThreads w;
        if idle : bool then '(st, w) ← newTimeslot st w; rounds running noThreads es st w
        else Ok ([], w) in
    match act with
    | ReturnsAtOnce => Ok ([], w)
    | DoesNotSleep => next (e.(others) w)
    | Sleeps until =>
      '(sleeps, w) ← next (set_schedulerWaitingForTimeslotExpiry false (e.(others) w));
      Ok (until :: sleeps, w)
    end
  end.

(** [factor] and [start] are the values of the variables that are not
    initialised; they are written before they are read. *)
Definition doControllerWait (running : bool) (noThreads : World T -> res (bool * World T)) (factor : float)
    (start : timespec) (es : list Round) w : res (list timespec * World T) :=
  let w := set_pendingNotifications 0 w in
  '(st, w) ← newTimeslot (mkWait 0 0 factor f32_one false start) w;
  rounds running noThreads es st w.

(** One turn of the scheduler's thread, [start]: wait, poll the threads in
    native code, and make a pass. *)
Definition turn (running : bool) (noThreads : World T -> res (bool * World T)) (factor : float)
    (start : timespec) (es : list Round) (pass : World T -> res (World T)) w : res (World T) :=
  '(_, w) ← doControllerWait running noThreads factor start es w;
  let '(_, th) := ThreadRegistry.pollNativeWaitingThreads w.(threads) w.(registry) in
  pass (set_threads th w).

(** ** The deadline *)
Lemma carry_spec fuel ts :
  0 < ts.(tv_nsec) -> in_ll ts.(tv_nsec) -> ts.(tv_nsec) / billion <= Z.of_nat fuel ->
  in_ll ts.(tv_sec) -> in_ll (ts.(tv_sec) + Z.of_nat fuel) ->
  let d := carry fuel ts in
  billion * d.(tv_sec) + d.(tv_nsec) = billion * ts.(tv_sec) + ts.(tv_nsec) /\ 0 < d.(tv_nsec) <= billion.
Proof.
  revert ts. induction fuel as [|fuel IH]; intros [sec nsec]; cbn [carry tv_sec tv_nsec]; intros Hp Hr Hf Hs Hsf.
  - split; [done|]. split; [done|]. pose proof (Z.div_mod nsec billion ltac:(done)).
    pose proof (Z.mod_pos_bound nsec billion ltac:(done)). unfold billion in *. lia.
  - destruct (Z.ltb_spec billion nsec) as [Hlt|]; [|cbn; split; [done|lia]].
    assert (nsec -ll billion = nsec - billion) as Hn by (apply ll_id; unfold billion in *; ll_range).
    assert (sec +ll 1 = sec + 1) as Hs1 by (apply ll_id; ll_range).
    rewrite Hn, Hs1. specialize (IH (mkTimespec (sec + 1) (nsec - billion))). cbn [tv_sec tv_nsec] in IH.
    assert ((nsec - billion) / billion = nsec / billion - 1) as Hd
      by (replace (nsec - billion) with (nsec + (-1) * billion) by lia; rewrite Z.div_add; done || lia).
    destruct IH as [Hsum Hb]; [lia|unfold billion in *; ll_range|lia|ll_range|
      replace (sec + 1 + Z.of_nat fuel) with (sec + Z.of_nat (S fuel)) by lia; done|].
    split; [|done]. rewrite Hsum. lia.
Qed.

(** The deadline of a sleep is exactly the remaining time after the
    reading of the clock; but when that ends on a full second, its nanoseconds
    are a billion, which [pthread_cond_timedwait] rejects, so that the scheduler
    does not sleep at all. *)
Theorem wait_deadline start remaining :
  0 <= start.(tv_nsec) < billion -> 0 < remaining -> in_ll (start.(tv_nsec) + remaining) ->
  0 <= start.(tv_sec) < 2 ^ 62 ->
  let d := deadline start remaining in
  billion * d.(tv_sec) + d.(tv_nsec) = billion * start.(tv_sec) + start.(tv_nsec) + remaining /\
  0 < d.(tv_nsec) <= billion /\
  (d.(tv_nsec) = billion <-> (start.(tv_nsec) + remaining) `mod` billion = 0).
Proof.
  intros Hn Hr Hin Hs d. subst d. unfold deadline.
  assert (start.(tv_nsec) +ll remaining = start.(tv_nsec) + remaining) as -> by (by apply ll_id).
  set (nsec := start.(tv_nsec) + remaining) in *.
  assert (0 <= nsec / billion <= 2 ^ 61) as Hd.
  { split; [apply Z.div_pos; unfold billion; lia|]. apply Z.div_le_upper_bound; [done|].
    unfold in_ll, LLONG_MAX, billion in *. lia. }
  destruct (carry_spec (Z.to_nat (nsec / billion)) (mkTimespec start.(tv_sec) nsec)) as [Hsum Hb]; cbn [tv_sec tv_nsec];
    [lia|done|lia|ll_range|rewrite Z2Nat.id by lia; ll_range|].
  set (d := carry _ _) in *. cbn [tv_sec tv_nsec] in Hsum. split; [lia|]. split; [done|].
  assert (nsec = tv_nsec d + (tv_sec d - tv_sec start) * billion) as Hnd by lia. rewrite Hnd, Z.mod_add by done.
  split; [by intros ->|]. intros Hm. apply Z.mod_divide in Hm as [k Hk]; [|done]. unfold billion in *. nia.
Qed.

(** ** Waking the scheduler up *)

(** A wake-up that comes while the scheduler does not sleep is not lost. *)
Lemma wakeup_not_lost running now st w :
  w.(schedulerWaitingForTimeslotExpiry) = false ->
  forall until, (enterWait running now st (unconditionalWakeup w)).1.1 <> Sleeps until.
Proof.
  intros Hw. unfold unconditionalWakeup, enterWait. rewrite Hw. cbn.
  rewrite andb_false_r. by case_match.
Qed.

(** A scheduler with nothing to do, in the middle of a call: it woke up half a
    millisecond after the end of a timeslot of 100 ms, because a thread had
    changed its scaling factor. *)
Record woke_late (st : Wait) w : Prop := {
  wl_running : w.(runningThread) = None;
  wl_factor : w.(currentTimeScalingFactor) = f32_one;
  wl_slot : w.(schedulerTimeslot) = 100000000;
  wl_less : w.(decreaseSchedulerSleepingTimeBy) = 0;
  wl_force : w.(forceMinimumTimeslotSelection) = false;
  wl_total : st.(totalRemainingWaitingTime) = 100000000;
  wl_waited : st.(nsecAlreadyWaited) = 100500000;
  wl_previous : st.(previousTimeWaitingFactor) = f32_one;
  wl_fresh : st.(alreadyWaited) = false;
}.

Lemma plan_late now st w : woke_late st w ->
  plan now st w = Ok (mkWait (-500000) 100500000 f32_one f32_one true st.(tp),
    set_timeWaitingFactorChanged false (set_decreaseSchedulerSleepingTimeBy 0 w)).
Proof.
  intros []. unfold plan, getRunningThreadScalingFactor.
  rewrite wl_fresh0, wl_running0, wl_factor0, wl_less0. cbn zeta.
  change (f_ltb _ f32_one) with true. cbn [guard_assert mbind res_bind]. 
  change (forceMinimumTimeslotSelection _) with (forceMinimumTimeslotSelection w).
  by rewrite wl_force0, wl_total0, wl_waited0, wl_previous0.
Qed.

Lemma enter_spent running now st w : st.(totalRemainingWaitingTime) <= 0 ->
  enterWait running now st w = (DoesNotSleep, st, w).
Proof. intros Hs. unfold enterWait. by rewrite (proj2 (Z.ltb_ge _ _)). Qed.

(** What was waited is not reset for the next timeslot: that scheduler spins
    without ever sleeping again, as long as there is nothing to schedule. *)
Lemma stale_wait_spins running es st w :
  Forall (fun e => e.(others) = fun w => w) es -> woke_late st w ->
  rounds running (fun w => Ok (true, w)) es st w = Err OutOfFuel.
Proof.
  revert st w. induction es as [|e es IH]; intros st w Hes Hl; [done|].
  apply Forall_cons in Hes as [He Hes]. cbn [rounds]. rewrite plan_late by done. cbn [mbind res_bind].
  rewrite enter_spent by (cbn; lia). rewrite He. lazy beta.
  change (timeWaitingFactorChanged _) with false. destruct Hl as []. unfold newTimeslot.
  change (schedulerTimeslot _) with (schedulerTimeslot w). rewrite wl_slot0.
  cbn [mbind res_bind guard_assert]. by apply IH.
Qed.

End wait.

Lemma wait_deadline_witness :
  let d := deadline (mkTimespec 7 900000000) 100000000 in
  billion * d.(tv_sec) + d.(tv_nsec) = billion * 7 + 900000000 + 100000000 /\
  0 < d.(tv_nsec) <= billion /\
  (d.(tv_nsec) = billion <-> (900000000 + 100000000) `mod` billion = 0).
Proof.
  apply (wait_deadline (mkTimespec 7 900000000) 100000000); cbn; [unfold billion; lia|lia|ll_range|lia].
Defined.

End ControllerWait.
