(* ===== verification/StrictParallel.v ===== *)
(** * The strict parallel thread manager

    The manager that the program runs on each of several cores with strict
    scheduling, src/src/vex/scheduler/StrictParallelThreadManager.cpp: it
    replaces methods of [ThreadManager] so that no core runs ahead of the slowest
    one by more than a timeslot. *)
From Stdlib Require Import Ascii.
From S2P Require Import Prelude Heap AdaptiblePQueue CxxFloat Timers VirtualTimeline.
From S2P Require Import Controllers Statistics ThreadParts ThreadState ThreadQueue.
From S2P Require Import ThreadRegistry ThreadManager SchedulingPass.
Import VexThreadState ThreadManager SchedulingPass.

Module StrictParallelThreadManager.
Section strict.
Context `{HO : StdHeapOps} {T : Type} `{HC : Controllers.VirtualTimelineController T}.
Variable managerId : nat.
Variable gsf : float.
Variable minimizeTimeslotOnNw : bool.
Variable enter : thread -> bool * thread.
Implicit Types w : World T.

Definition isThreadTooFarAheadInVirtualTime (t : nat) (w : World T) : bool :=
  w.(schedulerTimeslot) <?
    Controllers.getHowFarAheadInVirtualTimeTheThreadIs (thread_of t w).(timers) w.(timeline).

(** A call of the timeline controller on the core. *)
Definition with_core (f : T -> res (bool * T)) (w : World T) : res (bool * World T) :=
  '(b, tl) ← f w.(timeline); Ok (b, set_timeline tl w).

(** The part that both branches of [resumeThread] end with. *)
Definition resume_now (h : Host) (t : nat) (w : World T) : res (World T) :=
  let w := set_lastResumed (Some t) w in
  w ← with_timeline (Controllers.updateResumingSuspendedThreadResumedLastTimestamp h.(realNow)) t w;
  let w := upd t (upd_sched (Scheduling.onThreadResumeByManager managerId)) w in
  Ok (upd t (setThreadCurrentlyControllingManager (Some managerId)) w).

Definition resumeThread (h : Host) (t : nat) (w : World T) : res (World T) :=
  let '(mayResume, w) :=
    if isThreadTooFarAheadInVirtualTime t w then isValidToLeapInVirtualTimeTo h t w else (true, w) in
  if mayResume : bool then resume_now h t w
  else
    '(isEveryoneDisabled, w) ← with_core Controllers.disableCore w;
    if isEveryoneDisabled : bool then
      w ← with_timeline Controllers.updateResumingSuspendedThreadTimestamp t w;
      resume_now h t w
    else
      w ← pushIntoRunnableQueue t w;
      Ok (limitNextTimeslice (set_blockedByErt (w.(blockedByErt) +ll 1) w)).

Definition noThreadsToSchedule (w : World T) : res (bool * World T) :=
  if ThreadManager.noThreadsToSchedule w then
    '(_, w) ← with_core Controllers.disableCore w; Ok (true, w)
  else Ok (false, w).

Definition afterModelSimulation (w : World T) : World T := w.

Definition _suspendThread (h : Host) (t : nat) (w : World T) : res (bool * World T) :=
  if decide (w.(runningThread) = Some t) then
    '(block, w) ← with_core (Controllers.shouldBlockCoreProgress w.(schedulerTimeslot)) w;
    let w := if block : bool then limitNextTimeslice (upd t (upd_sched Scheduling.forceThreadSuspend) w)
             else w in
    if h.(delivered) then isSignalledThreadGoingToSuspend managerId minimizeTimeslotOnNw h t w
    else Ok (false, eraseFromRunnables t w)
  else Ok (true, w).

(** The part of [suspendRunningResumeNext] once no thread runs. *)
Definition resumeNext (h : Host) (fuel : nat) (w : World T) : res (World T) :=
  '(block, w) ← with_core (Controllers.shouldBlockCoreProgress w.(schedulerTimeslot)) w;
  if block : bool then
    Ok (limitNextTimeslice (set_synchronizationWaits (w.(synchronizationWaits) +ll 1) w))
  else
    w ← match ThreadQueue.top w.(queue) with
        | Some t =>
          continueThread managerId gsf resumeThread afterModelSimulation enter 3 h fuel (Some t) w
        | None => '(_, w) ← with_core Controllers.disableCore w; Ok w
        end;
    Ok (set_normalContinuations (w.(normalContinuations) +ll 1) w).

Definition suspendRunningResumeNext (h : Host) (fuel : nat) (w : World T) : res (World T) :=
  '(goOn, w) ← match w.(runningThread) with
               | None => Ok (true, w)
               | Some t => suspendThread _suspendThread h t w
               end;
  if goOn : bool then resumeNext h fuel w else Ok w.

End strict.

(** ** What a pass keeps *)
Section pass.
Context `{HO : StdHeapOps} `{HH : !StdHeap HO}.
Context {T : Type} `{HC : Controllers.VirtualTimelineController T} `{HL : !Controllers.ControllerLaws T}.
Variable managerId : nat.
Variable gsf : float.
Variable minimizeTimeslotOnNw : bool.
Variable enter : thread -> bool * thread.
Implicit Types w : World T.

Lemma with_core_same f w b w' : with_core f w = Ok (b, w') ->
  exists tl, f w.(timeline) = Ok (b, tl) /\ w' = set_timeline tl w.
Proof. intros ([b' tl]&Hf&[= <- <-])%bind_ok. by exists tl. Qed.

Lemma resume_now_only h t w w' : resume_now managerId h t w = Ok w' -> only t w w'.
Proof.
  intros (w1&Hw%only_with_timeline&[= <-])%bind_ok. do 2 apply only_then_upd. exact Hw.
Qed.

Lemma strict_resume_handled h t w w' : t ∉ w.(queue) -> ordered w ->
  resumeThread managerId h t w = Ok w' -> handled t w w'.
Proof.
  intros Hn Hw. unfold resumeThread.
  assert (only t w (if isThreadTooFarAheadInVirtualTime t w then isValidToLeapInVirtualTimeTo h t w
                    else (true, w)).2) as Hl by (destruct (isThreadTooFarAheadInVirtualTime t w); [apply leap_only|apply only_refl]).
  destruct (if isThreadTooFarAheadInVirtualTime t w then _ else _) as [[] w1]; cbn in Hl.
  - intros ?%resume_now_only. apply handled_only; [done..|]. by eapply only_trans.
  - intros ([[] w2]&(tl&_&->)%with_core_same&Hs)%bind_ok.
    + apply bind_ok in Hs as (w2&?%only_with_timeline&?%resume_now_only).
      apply handled_only; [done..|]. apply (only_trans _ _ w1); [exact Hl|].
      apply (only_trans _ _ w2); [|done]. eapply only_trans; [|done]. by apply only_same.
    + apply bind_ok in Hs as (w2&Hp&[= <-]). assert (handled t w w2) as Hh; [|exact Hh].
      eapply handled_push; [done..| |exact Hp]. exact Hl.
Qed.

Lemma strict_suspended_handled h t w b w' : t ∉ w.(queue) -> ordered w ->
  _suspendThread managerId minimizeTimeslotOnNw h t w = Ok (b, w') -> handled t w w'.
Proof.
  intros Hn Hw. unfold _suspendThread. case_decide; [|by intros [= _ <-]].
  intros ([block w1]&(tl&_&->)%with_core_same&Hs)%bind_ok.
  match type of Hs with context [if block then ?a else ?b] => set (w2 := if block then a else b) in * end.
  assert (only t w w2) as Ho by (subst w2; destruct block;
    [apply (only_then_upd t (upd_sched Scheduling.forceThreadSuspend) w (set_timeline tl w))|]; by apply only_same).
  assert (ordered w2) by (by eapply only_ordered).
  eapply only_then_handled; [exact Ho|].
  { case_match; [apply signalled_handled in Hs; [done|done|by rewrite (proj1 Ho)|by subst w2; destruct block]|].
    injection Hs as _ <-. by apply erase_handled. }
Qed.

Lemma strict_suspended_off h t w b w' : t ∉ w.(queue) -> w.(runningThread) = Some t ->
  _suspendThread managerId minimizeTimeslotOnNw h t w = Ok (b, w') -> w'.(runningThread) = Some t -> t ∉ w'.(queue).
Proof.
  intros Hn Hr. unfold _suspendThread. case_decide; [|by intros [= _ <-]].
  intros ([block w1]&(tl&_&->)%with_core_same&Hs)%bind_ok.
  match type of Hs with context [if block then ?a else ?b] => set (w2 := if block then a else b) in * end.
  assert (w2.(queue) = w.(queue) /\ w2.(runningThread) = w.(runningThread)) as [Hq2 Hr2] by (subst w2; by destruct block).
  case_match.
  - apply (signalled_off managerId minimizeTimeslotOnNw h t w2 b w'); [by rewrite Hq2|by rewrite Hr2|done].
  - injection Hs as _ <-. intros _. cbn. unfold ThreadQueue.erase.
    rewrite (AdaptiblePQueue.erase_absent_perm (ert w2.(threads)) w2.(queue) t); by rewrite Hq2.
Qed.

#[export] Instance strict_keeps_others : KeepsOthers (resumeThread managerId) (afterModelSimulation (T := T))
  (_suspendThread managerId minimizeTimeslotOnNw).
Proof.
  split.
  - intros h t w w'. apply strict_resume_handled.
  - intros h t w b w'. apply strict_suspended_handled.
  - intros h t w b w'. apply strict_suspended_off.
  - done.
Qed.

(** A pass of the strict manager of a core, whether it blocks the core,
    disables it or handles the next thread, keeps the queue that all cores
    share a heap of distinct threads without the one that runs on the core, and
    gives the core to nobody.  Besides the thread that ran and one that it
    handles, it moves nobody in or out of the queue and touches none that is not
    queued. *)
Theorem strict_pass_keeps_queue h fuel w w' : ordered w -> off_queue w ->
  suspendRunningResumeNext managerId gsf minimizeTimeslotOnNw enter h fuel w = Ok w' ->
  ordered w' /\ off_queue w' /\ keeps_core w w' /\
  exists u, forall x, w.(runningThread) <> Some x -> u <> Some x -> left_alone x w w'.
Proof.
  intros Hw Hr. unfold suspendRunningResumeNext.
  intros ([goOn w1]&Hs&Hc)%bind_ok. eapply suspend_running in Hs as (Hw1&Ho1&Hk1&Hq1); [|done..].
  destruct goOn; [|injection Hc as <-; split_and!; [done..|]; exists None; auto].
  apply bind_ok in Hc as ([block w2]&(tl&_&->)%with_core_same&Hc).
  destruct block; [injection Hc as <-; split_and!; [done..|]; exists None; intros x Hx _; exact (Hq1 x Hx)|].
  apply bind_ok in Hc as (w3&Hc&[= <-]). cbn [queue set_timeline] in Hc.
  assert (ordered w3 /\ keeps_core w1 w3 /\ forall x, ThreadQueue.top w1.(queue) <> Some x -> left_alone x w1 w3) as (Hw3&Hk3&Hu).
  { destruct (ThreadQueue.top w1.(queue)) as [t|] eqn:Ht.
    - rewrite <- Ht. apply (continue_handled managerId gsf enter 1 h fuel (set_timeline tl w1) w3); [done|].
      cbn [queue set_timeline]. by rewrite Ht.
    - apply bind_ok in Hc as ([? w2]&(tl'&_&->)%with_core_same&[= <-]). by split_and!. }
  split_and!; [done|by eapply (off_queue_front w1)|by intros x Hx%Hk3%Hk1|].
  exists (ThreadQueue.top w1.(queue)). intros x Hx Hxu. eapply left_alone_trans; [by apply Hq1|].
  eapply left_alone_trans; [by apply Hu|done].
Qed.

End pass.

(** ** Cores that can be disabled *)
#[local] Existing Instances Controllers.MultipleVirtualTimelinesController Controllers.multiple_laws.

Section cores.
Context `{HO : StdHeapOps} `{HH : !StdHeap HO}.
Variable managerId : nat.
Variable gsf : float.
Variable minimizeTimeslotOnNw : bool.
Variable enter : thread -> bool * thread.
Implicit Types w : World Controllers.Core.
Import Multicore.

Abbreviation cores w := (Controllers.multipleTimelines w.(timeline)).
Abbreviation core w := (Controllers.core_id w.(timeline)).

(** A free timeline whose cores can be disabled, with the core of [w]. *)
Record disabling_core w : Prop := {
  dc_kind : (cores w).(kind) = Disabling;
  dc_free : (cores w).(mutexHeld) = false;
  dc_core : (core w < length (cores w).(localCoreActive))%nat;
}.

Lemma push_ok t w : t ∉ w.(queue) -> exists q, pushIntoRunnableQueue t w = Ok (set_queue q w) /\
  q ≡ₚ t :: w.(queue).
Proof.
  intros Hn. unfold pushIntoRunnableQueue, ThreadQueue.push.
  pose proof (AdaptiblePQueue.push_perm (ert w.(threads)) w.(queue) t) as Hp.
  set (q := AdaptiblePQueue.push _ _ _) in *. exists q. split; [|exact Hp].
  assert (ThreadQueue.find q t = true) as -> by (apply AdaptiblePQueue.find_spec; rewrite Hp; set_solver).
  assert (ThreadQueue.find w.(queue) t = false) as -> 
    by (apply not_true_iff_false; by intros ?%AdaptiblePQueue.find_spec).
  by rewrite !orb_true_r.
Qed.

(** No other core is active. *)
Definition alone w : Prop :=
  forall i, (i < length (cores w).(localCoreActive))%nat -> i <> core w -> active (cores w) i = false.

Lemma disable_core w : disabling_core w ->
  exists b tl, with_core Controllers.disableCore w = Ok (b, set_timeline tl w) /\
    (b = true <-> alone w) /\
    Controllers.core_id tl = core w /\
    Controllers.multipleTimelines tl
      = set_localCoreActive (<[core w:=false]> (cores w).(localCoreActive)) (cores w).
Proof.
  intros [Hk Hf Hc]. unfold with_core. cbn. unfold Controllers.lift_core, disableLocalTimeline.
  rewrite Hk. cbn. rewrite lock_free by done. cbn. do 2 eexists. split_and!; [reflexivity| |done|].
  - rewrite negb_true_iff, <- not_true_iff_false, existsb_exists. split.
    + intros Hn i Hl Hi. apply not_true_iff_false. intros Ha. apply Hn. exists true. split; [|done].
      apply list_elem_of_In. apply list_elem_of_lookup. exists i.
      rewrite list_lookup_insert_ne by done. rewrite <- Ha. by apply nthd_lookup.
    + intros Ha (b&Hin&->). apply list_elem_of_In, list_elem_of_lookup in Hin as [i Hi].
      destruct (decide (i = core w)) as [->|Hne].
      * rewrite list_lookup_insert_eq in Hi by done. done.
      * rewrite list_lookup_insert_ne in Hi by done. specialize (Ha i (lookup_lt_Some _ _ _ Hi) Hne).
        unfold active, nthd in Ha. by rewrite Hi in Ha.
  - by destruct (cores w); cbn in *; subst.
Qed.

Lemma resume_now_ok h t w : disabling_core w ->
  exists w', resume_now managerId h t w = Ok w' /\ w'.(lastResumed) = Some t /\
    w'.(queue) = w.(queue) /\ active (cores w') (core w') = true.
Proof.
  intros [Hk Hf Hc]. unfold resume_now, with_timeline. cbn. unfold Controllers.lift_core.
  unfold Controllers.Multiple.updateResumingSuspendedThreadResumedLastTimestamp, getLocalTimelineActivationTime.
  rewrite lock_free by done. cbn. rewrite Hk. cbn. eexists. split_and!; [reflexivity|done|done|]. cbn.
  unfold active, updateGlobalTimeTo. repeat case_match; cbn; by apply nthd_insert_eq.
Qed.

Lemma catch_up_ok t w : disabling_core w ->
  exists w', with_timeline Controllers.updateResumingSuspendedThreadTimestamp t w = Ok w' /\ 
    w'.(queue) = w.(queue) /\ disabling_core w'.
Proof.
  intros [Hk Hf Hc]. unfold with_timeline. cbn. unfold Controllers.lift_core.
  unfold Controllers.Multiple.updateResumingSuspendedThreadTimestamp. case_match; cbn.
  - eexists. split_and!; [reflexivity|done|by split].
  - unfold leapForwardTo. rewrite lock_free by done. cbn. eexists. split_and!; [reflexivity|done|].
    split; cbn; unfold updateGlobalTimeTo; cbn; repeat case_match; cbn in *; congruence || done.
Qed.

(** What the strict manager does with a thread: resumed on an active core, or
    back in the queue while its core is disabled. *)
Definition resumed t w w' : Prop :=
  w'.(lastResumed) = Some t /\ w'.(queue) = w.(queue) /\ active (cores w') (core w') = true.
Definition parked t w w' : Prop :=
  w'.(threads) = w.(threads) /\ w'.(queue) ≡ₚ t :: w.(queue) /\
  w'.(lastResumed) = w.(lastResumed) /\ active (cores w') (core w) = false.

Lemma leap_same_core h t w : let w' := (isValidToLeapInVirtualTimeTo h t w).2 in
  w'.(threads) = w.(threads) /\ w'.(queue) = w.(queue) /\ w'.(timeline) = w.(timeline) /\
  w'.(lastResumed) = w.(lastResumed).
Proof. unfold isValidToLeapInVirtualTimeTo. by repeat case_match. Qed.

Lemma resume_ahead h t w w1 : disabling_core w -> t ∉ w.(queue) ->
  isThreadTooFarAheadInVirtualTime t w = true -> isValidToLeapInVirtualTimeTo h t w = (false, w1) ->
  exists w', resumeThread managerId h t w = Ok w' /\
    (alone w -> resumed t w w') /\ (~ alone w -> parked t w w').
Proof.
  intros Hd Hn Hfar Hleap. unfold resumeThread. rewrite Hfar, Hleap.
  pose proof (leap_same_core h t w) as Hs. rewrite Hleap in Hs. cbn in Hs. destruct Hs as (Ht&Hq&Htl&Hl).
  assert (disabling_core w1) as Hd1 by (destruct Hd; split; by rewrite Htl).
  destruct (disable_core w1 Hd1) as (b&tl&->&Hb&Hid&Hm). unfold alone in Hb. rewrite Htl in Hb. cbn [mbind res_bind].
  assert (disabling_core (set_timeline tl w1)) as Hd2.
  { destruct Hd1. split; cbn; rewrite Hm; cbn; [done..|]. by rewrite Hid, length_insert. }
  destruct b.
  - destruct (catch_up_ok t _ Hd2) as (w2&->&Hq2&Hd3). cbn [mbind res_bind].
    destruct (resume_now_ok h t w2 Hd3) as (w3&->&?&Hq3&?). eexists. split; [done|].
    unfold resumed, alone. rewrite Hq3, Hq2. cbn. rewrite Hq. naive_solver.
  - destruct (push_ok t (set_timeline tl w1)) as (q&->&Hp); [cbn; by rewrite Hq|]. cbn in *.
    eexists. split; [done|]. unfold parked, alone. cbn. rewrite <- Hq, Hm.
    split; [intros Ha; discriminate (proj2 Hb Ha)|]. intros _. split_and!; [done..|].
    rewrite <- Htl. apply nthd_insert_eq, Hd1.
Qed.

(** C38. The strict manager never lets a thread run further than a timeslot
    ahead of the slowest active core, unless virtual time may leap to it or no
    other core is active: in the other cases the thread goes back to the queue
    untouched and the core is disabled, so that the others can catch up; in
    these it is resumed and the core is active. *)
Theorem strict_resume_keeps_pace h t w : disabling_core w -> t ∉ w.(queue) ->
  let ahead := ert w.(threads) t -ll (cores w).(globalVirtualTime) in
  let may_leap := (isValidToLeapInVirtualTimeTo h t w).1 in
  exists w', resumeThread managerId h t w = Ok w' /\
    (ahead <= w.(schedulerTimeslot) \/ may_leap = true \/ alone w -> resumed t w w') /\
    (w.(schedulerTimeslot) < ahead -> may_leap = false -> ~ alone w -> parked t w w').
Proof.
  intros Hd Hn ahead may_leap. subst ahead may_leap.
  destruct (isThreadTooFarAheadInVirtualTime t w) eqn:Hfar.
  - pose proof (leap_same_core h t w) as Hs.
    destruct (isValidToLeapInVirtualTimeTo h t w) as [[] w1] eqn:Hleap.
    + unfold resumeThread. rewrite Hfar, Hleap. cbn [fst snd] in *. destruct Hs as (_&Hq&Htl&_).
      destruct (resume_now_ok h t w1) as (w'&->&Hr&Hq'&Ha); [destruct Hd; split; by rewrite Htl|].
      exists w'. split; [done|]. unfold resumed. rewrite Hq', Hq. done.
    + destruct (resume_ahead h t w w1 Hd Hn Hfar Hleap) as (w'&?&Hr&Hp). exists w'.
      unfold isThreadTooFarAheadInVirtualTime in Hfar. apply Z.ltb_lt in Hfar. cbn in Hfar.
      fold (ert w.(threads) t) in *. split_and!; [done| |by intros _ _].
      intros [Hle|[?|?]]; [|done|auto]. unfold ert, getEstimatedRealTime, thread_of in *. lia.
  - unfold resumeThread. rewrite Hfar. destruct (resume_now_ok h t w Hd) as (w'&->&Hr).
    exists w'. split_and!; [done|done|]. intros Hlt. exfalso.
    unfold isThreadTooFarAheadInVirtualTime in Hfar. apply Z.ltb_ge in Hfar. cbn in Hfar.
    unfold ert, getEstimatedRealTime, thread_of in *. lia.
Qed.

(** On cores that can be disabled, a pass of the strict manager of a core
    that is more than a timeslot ahead never returns: asked whether the core is to
    be blocked, the timeline locks twice the mutex that all cores share. *)
Theorem strict_pass_deadlocks h fuel w : disabling_core w ->
  w.(schedulerTimeslot) < local (cores w) (core w) -ll (cores w).(globalVirtualTime) ->
  w.(runningThread) = None \/ h.(keyFree) = true ->
  suspendRunningResumeNext managerId gsf minimizeTimeslotOnNw enter h fuel w = Err SelfDeadlock.
Proof.
  intros [Hk Hf Hc] Hahead Hr. unfold suspendRunningResumeNext, suspendThread, _suspendThread, resumeNext.
  assert (with_core (Controllers.shouldBlockCoreProgress w.(schedulerTimeslot)) w = Err SelfDeadlock) as Hblock.
  { unfold with_core. cbn. unfold Controllers.lift_core, shouldBlockCoreProgress. rewrite lock_free by done. cbn.
    change (local (set_mutexHeld true (cores w)) (core w)) with (local (cores w) (core w)).
    rewrite (proj2 (Z.ltb_lt _ _)) by done. unfold disableLocalTimeline. cbn. by rewrite Hk. }
  destruct w.(runningThread) as [t|] eqn:Ht.
  - destruct Hr as [? | ->]; [done|]. rewrite decide_True by done. by rewrite Hblock.
  - cbn [mbind res_bind]. by rewrite Hblock.
Qed.

End cores.

(** ** Witnesses: two cores, the second far ahead *)
Definition two_cores (id : nat) (q : list nat) : World Controllers.Core :=
  new_ThreadManager
    {[ 1%nat := ThreadQueue.io_thread 10 5; 2%nat := ThreadQueue.io_thread 700000000 5 ]} q
    (ThreadRegistry.new_ThreadRegistry 2 false) ∅
    (Controllers.mkCore id (Multicore.mkMulticore Multicore.Disabling 0 [0; 300000000] [true; true] 2 false))
    false 0 None.

Lemma two_cores_disabling id q : (id < 2)%nat -> disabling_core (two_cores id q).
Proof. by split. Qed.

Lemma strict_resume_keeps_pace_witness : 
  exists w', resumeThread 0 two_host 1 (two_cores 0 [2%nat]) = Ok w' /\ resumed 1 (two_cores 0 [2%nat]) w'.
Proof.
  assert (1%nat ∉ [2%nat]) as Hn by set_solver.
  destruct (strict_resume_keeps_pace 0 two_host 1 (two_cores 0 [2%nat])
    (two_cores_disabling 0 _ ltac:(lia)) Hn) as (w'&Hw&Hr&_).
  exists w'. split; [exact Hw|]. apply Hr. left. by vm_compute.
Defined.

Lemma strict_pass_keeps_queue_witness :
  match suspendRunningResumeNext 0 f32_one false no_node two_host 0 (two_cores 0 [1; 2]%nat) with
  | Ok w' => ordered w'
  | Err _ => False
  end.
Proof.
  destruct (suspendRunningResumeNext _ _ _ _ _ _ _) as [w'|e] eqn:E.
  - refine (proj1 (strict_pass_keeps_queue 0 f32_one false no_node two_host 0 (two_cores 0 [1; 2]%nat) w' _ _ E)).
    + split; [|apply NoDup_cons; split; [set_solver|apply NoDup_singleton]].
      intros i Hi. cbn in Hi. assert (i = 1)%nat as -> by lia. vm_compute. congruence.
    + done.
  - vm_compute in E. discriminate E.
Defined.

Lemma strict_pass_deadlocks_witness :
  suspendRunningResumeNext 1 f32_one false no_node two_host 0 (two_cores 1 [1; 2]%nat) = Err SelfDeadlock.
Proof.
  apply (strict_pass_deadlocks 1 f32_one false no_node two_host 0 (two_cores 1 [1; 2]%nat)).
  - apply two_cores_disabling. lia.
  - by vm_compute.
  - by left.
Defined.

End StrictParallelThreadManager.
