(* ===== verification/Suspension.v ===== *)
(** * Calls of a thread on its manager

    What the thread side of src/src/vex/scheduler/ThreadManager.cpp
    guarantees: a call returns to a thread only while that thread is the
    running one, and a thread that is stopped is queued and can be resumed. *)
From S2P Require Import Prelude Heap AdaptiblePQueue CxxFloat Timers VirtualTimeline.
From S2P Require Import Controllers Statistics ThreadParts ThreadState ThreadQueue.
From S2P Require Import ThreadRegistry ThreadManager.
Import VexThreadState ThreadManager.

Module Suspension.
Section calls.
Context `{HO : StdHeapOps} `{HH : !StdHeap HO}.
Context {T : Type} `{HC : Controllers.VirtualTimelineController T}.
Implicit Types w : World T.
Variable managerId : nat.
Variable gsf : float.

(** The core is free, or [t] has it. *)
Definition core_free_for (t : nat) (w : World T) : Prop :=
  w.(runningThread) = None \/ w.(runningThread) = Some t.

Lemma not_free_iff t w : anotherThreadAlreadySetRunning t w = false <-> core_free_for t w.
Proof.
  unfold anotherThreadAlreadySetRunning, core_free_for. destruct w.(runningThread) as [u|]; [|naive_solver].
  rewrite negb_false_iff, bool_decide_eq_true. naive_solver.
Qed.

(** What is left of a blocked call first claims the core again. *)
Definition resumable (k : list frame) : Prop :=
  exists f n, k = f :: replicate n UpdateCpuTimeClock /\ (f = RunAfterBlock \/ f = RunAfterTimedOut).

Lemma resumable_app k n : resumable k -> resumable (k ++ replicate n UpdateCpuTimeClock).
Proof.
  intros (f&m&->&Hf). exists f, (m + n)%nat. split; [|done]. cbn. by rewrite replicate_add.
Qed.

(** The thread [t] stopped: suspended, off the core and in the queue, where
    the scheduler finds it. *)
Record stopped (t : nat) (w : World T) : Prop := {
  stopped_state : isSuspended (thread_of t w) = true;
  stopped_asleep : wasAwaken (thread_of t w) = false;
  stopped_off : w.(runningThread) <> Some t;
  stopped_queued : t ∈ w.(queue);
}.

Lemma running_upd t f w : (upd t f w).(runningThread) = w.(runningThread).
Proof. done. Qed.

Lemma with_timeline_same f t w w' : with_timeline f t w = Ok w' ->
  w'.(runningThread) = w.(runningThread) /\ w'.(queue) = w.(queue).
Proof. by intros ([tm tl]&_&[= <-])%bind_ok. Qed.

Lemma updateBy_same d t w w' : locklessUpdateTimeBy gsf d t w = Ok w' ->
  w'.(runningThread) = w.(runningThread) /\ w'.(queue) = w.(queue).
Proof. unfold locklessUpdateTimeBy. case_match; intros Hs%with_timeline_same; exact Hs. Qed.

Lemma setVT_same s t w w' : setCurrentThreadVT gsf s t w = Ok w' ->
  w'.(runningThread) = w.(runningThread) /\ w'.(queue) = w.(queue).
Proof. unfold setCurrentThreadVT. case_match; [apply updateBy_same|by intros [= <-]]. Qed.

Lemma updateVT_same c t w w' : updateCurrentThreadVT gsf c t w = Ok w' ->
  w'.(runningThread) = w.(runningThread) /\ w'.(queue) = w.(queue).
Proof.
  unfold updateCurrentThreadVT. intros (w1&Hu&[= <-])%bind_ok. cbn.
  case_match; [by apply updateBy_same in Hu|by injection Hu as <-].
Qed.

Lemma should_same r t w : (shouldCurrentThreadSuspend r t w).2.(runningThread) = w.(runningThread) /\
  (shouldCurrentThreadSuspend r t w).2.(queue) = w.(queue) /\
  ((shouldCurrentThreadSuspend r t w).1 = false -> core_free_for t w).
Proof.
  rewrite <- not_free_iff. unfold shouldCurrentThreadSuspend.
  destruct (Scheduling.getAndResetForcedSuspendFlag _) as [forced sched].
  change (anotherThreadAlreadySetRunning t (upd t ?f w)) with (anotherThreadAlreadySetRunning t w).
  destruct (anotherThreadAlreadySetRunning t w); [rewrite orb_true_r; done|].
  repeat case_match; done.
Qed.

Lemma should_of_busy r t w : ~ core_free_for t w -> (shouldCurrentThreadSuspend r t w).1 = true.
Proof.
  intros Hn. destruct (should_same r t w) as (_&_&Hf).
  destruct (shouldCurrentThreadSuspend r t w).1; [done|]. by destruct Hn; apply Hf.
Qed.

Lemma unset_running t w : (unsetCurrentThreadFromRunningThread t w).(runningThread) <> Some t.
Proof. unfold unsetCurrentThreadFromRunningThread. by case_decide. Qed.

Lemma unset_queue t w : (unsetCurrentThreadFromRunningThread t w).(queue) = w.(queue).
Proof. unfold unsetCurrentThreadFromRunningThread. by case_decide. Qed.

Lemma push_same t w w' : pushIntoRunnableQueue t w = Ok w' ->
  w'.(threads) = w.(threads) /\ w'.(runningThread) = w.(runningThread) /\ t ∈ w'.(queue).
Proof.
  unfold pushIntoRunnableQueue, ThreadQueue.push, guard_assert. repeat case_match; try done.
  all: intros [= <-]; split_and!; [done..|]; cbn;
    rewrite (AdaptiblePQueue.push_perm (ert w.(threads))); left.
Qed.

(** *** Suspending *)

(** The options with which a thread that finds the core taken is suspended. *)
Definition again (queued : bool) : Z :=
  Z.lor (Z.lor SUSPEND_OPT_FORCE_SUSPEND SUSPEND_OPT_DONT_UPDATE_THREAD_TIME)
    (if queued then SUSPEND_OPT_THREAD_ALREADY_IN_LIST else 0).

Lemma again_options b : has_option (again b) SUSPEND_OPT_DONT_UPDATE_THREAD_TIME = true /\
  has_option (again b) SUSPEND_OPT_THREAD_ALREADY_IN_LIST = b /\
  has_option (again b) SUSPEND_OPT_DONT_WAKE_UP_SCHEDULER = false.
Proof. by destruct b. Qed.

(** The decision of a suspension, once the clocks are up to date. *)
Definition decideToSuspend (realNow : Z) (t : nat) (options : Z) (w : World T) : bool * World T :=
  if has_option options SUSPEND_OPT_FORCE_SUSPEND &&
     (negb (ThreadQueue.empty w.(queue)) || ThreadRegistry.atLeastOneThreadBeingSpawned w.(registry))
  then (true, w) else shouldCurrentThreadSuspend realNow t w.

Lemma decide_same r t o w :
  (decideToSuspend r t o w).2.(runningThread) = w.(runningThread) /\
  (decideToSuspend r t o w).2.(queue) = w.(queue) /\
  ((decideToSuspend r t o w).1 = false -> core_free_for t w).
Proof. unfold decideToSuspend. case_match; [done|apply should_same]. Qed.

Lemma busy_suspended r t o w : ~ core_free_for t w -> (decideToSuspend r t o w).1 = true.
Proof.
  intros Hb. destruct (decide_same r t o w) as (_&_&Hf).
  destruct (decideToSuspend r t o w).1; [done|]. by destruct Hb; apply Hf.
Qed.

(** With the core taken, no further level is needed. *)
Lemma suspend_busy n m c r t w b : ~ core_free_for t w ->
  suspendCurrentThread managerId gsf (S n) c r t 0 (again b) w
  = suspendCurrentThread managerId gsf (S m) c r t 0 (again b) w.
Proof.
  intros Hb. destruct (again_options b) as (Hu&_). cbn [suspendCurrentThread]. rewrite Hu.
  cbn [negb]. cbn -[has_option again shouldCurrentThreadSuspend].
  fold (decideToSuspend r t (again b) w). pose proof (busy_suspended r t (again b) w Hb) as Hd.
  by destruct (decideToSuspend r t (again b) w) as [[] w1].
Qed.

Lemma setRunning_levels n m c r t w :
  setRunningThread_with managerId (fun t o => suspendCurrentThread managerId gsf (S n) c r t 0 o) t w
  = setRunningThread_with managerId (fun t o => suspendCurrentThread managerId gsf (S m) c r t 0 o) t w.
Proof.
  unfold setRunningThread_with, changeThreadStateToRunning.
  destruct (anotherThreadAlreadySetRunning t _) eqn:Hb; [|done].
  fold (again (ThreadQueue.find (queue (upd t (VexThreadState.setAwaken false) w)) t)).
  apply suspend_busy. rewrite <- not_free_iff. congruence.
Qed.

(** [suspendCurrentThread] and [setRunningThread] call each other, but two
    levels are all there are: more fuel never changes the result. *)
Lemma suspension_depth n c r t startingTime options w :
  suspendCurrentThread managerId gsf (2 + n) c r t startingTime options w
  = suspend managerId gsf c r t startingTime options w.
Proof.
  unfold suspend. cbn [Nat.add].
  remember (S n) as m eqn:Hm. remember 1%nat as one eqn:Hone in |- *. cbn [suspendCurrentThread].
  destruct (if negb (has_option options SUSPEND_OPT_DONT_UPDATE_THREAD_TIME) then _ else _) as [w1|e]; [|done].
  unfold mbind, res_bind. destruct (if _ && _ then _ else _) as [b w2]. destruct b; [done|].
  case_decide; [done|]. rewrite Hm, Hone. apply setRunning_levels.
Qed.

(** *** What a suspension does *)
Context `{HTC : !Controllers.TotalController T}.

Lemma with_timeline_total f t w : (forall tm tl, exists r, f tm tl = Ok r) -> exists w', with_timeline f t w = Ok w'.
Proof.
  intros Hf. unfold with_timeline. destruct (Hf (thread_of t w).(timers) w.(timeline)) as [[tm tl] ->].
  by eexists.
Qed.

Lemma updateBy_total d t w : exists w', locklessUpdateTimeBy gsf d t w = Ok w'.
Proof.
  unfold locklessUpdateTimeBy.
  case_match; apply with_timeline_total; [apply Controllers.commitNative_total|apply Controllers.commitCpu_total].
Qed.

Lemma setVT_total s t w : exists w', setCurrentThreadVT gsf s t w = Ok w'.
Proof. unfold setCurrentThreadVT. case_match; [apply updateBy_total|by eexists]. Qed.

Lemma updateVT_total c t w : exists w', updateCurrentThreadVT gsf c t w = Ok w'.
Proof.
  unfold updateCurrentThreadVT. case_match.
  - destruct (updateBy_total (c -ll (thread_of t w).(timers).(Timers.lastCPUTime)) t w) as [w1 ->]. by eexists.
  - by eexists.
Qed.

Lemma push_total t w : t ∉ w.(queue) -> exists w', pushIntoRunnableQueue t w = Ok w'.
Proof.
  intros Hn. unfold pushIntoRunnableQueue, ThreadQueue.push.
  assert (ThreadQueue.find w.(queue) t = false) as ->
    by (destruct (ThreadQueue.find w.(queue) t) eqn:E; [by apply AdaptiblePQueue.find_spec in E|done]).
  rewrite orb_true_r. cbn -[ThreadQueue.find].
  assert (ThreadQueue.find (AdaptiblePQueue.push (ert w.(threads)) w.(queue) t) t = true) as ->
    by (apply AdaptiblePQueue.find_spec; rewrite (AdaptiblePQueue.push_perm (ert w.(threads))); left).
  rewrite orb_true_r. by eexists.
Qed.

(** The thread stops: the common end of the suspensions. *)
Definition stop (t : nat) (options : Z) (k : list frame) (w : World T) : res (outcome * World T) :=
  w ← (if has_option options SUSPEND_OPT_THREAD_ALREADY_IN_LIST
       then Ok (upd t VexThreadState.setSuspended (unsetCurrentThreadFromRunningThread t w))
       else setSuspendedAndPushToRunnables t w);
  let w := if has_option options SUSPEND_OPT_DONT_WAKE_UP_SCHEDULER then w else unconditionalWakeup w in
  guard_assert (negb (wasAwaken (thread_of t w))) ;;
  Ok (BlockedAt k, startBlocking t w).

Lemma wakeup_same w : (unconditionalWakeup w).(threads) = w.(threads) /\
  (unconditionalWakeup w).(queue) = w.(queue) /\ (unconditionalWakeup w).(runningThread) = w.(runningThread) /\
  (unconditionalWakeup w).(schedulerWaitingForTimeslotExpiry) = true.
Proof. unfold unconditionalWakeup. destruct (schedulerWaitingForTimeslotExpiry w) eqn:E; by rewrite ?E. Qed.

Lemma suspended_to_stopped t (b : bool) w : isSuspended (thread_of t w) = true -> w.(runningThread) <> Some t ->
  t ∈ w.(queue) -> stopped t (startBlocking t (if b then w else unconditionalWakeup w)).
Proof.
  intros Hs Hr Hq. set (w1 := if b then w else unconditionalWakeup w).
  assert (w1.(threads) = w.(threads) /\ w1.(queue) = w.(queue) /\ w1.(runningThread) = w.(runningThread))
    as (Ht&Hq1&Hr1) by (subst w1; destruct b; [done|]; by destruct (wakeup_same w) as (?&?&?&_)).
  unfold startBlocking. split; rewrite ?thread_of_upd.
  - change (isSuspended (thread_of t w1) = true). unfold thread_of in *. by rewrite Ht.
  - done.
  - by rewrite running_upd, Hr1.
  - change (t ∈ w1.(queue)). by rewrite Hq1.
Qed.

Lemma stop_outcome t options k w :
  has_option options SUSPEND_OPT_THREAD_ALREADY_IN_LIST = ThreadQueue.find w.(queue) t ->
  exists w', stop t options k w = Ok (BlockedAt k, w') /\ stopped t w' /\
    (has_option options SUSPEND_OPT_DONT_WAKE_UP_SCHEDULER = false ->
     w'.(schedulerWaitingForTimeslotExpiry) = true).
Proof.
  intros Ho. unfold stop.
  set (w1 := unsetCurrentThreadFromRunningThread t w).
  assert (exists w2,
    (if has_option options SUSPEND_OPT_THREAD_ALREADY_IN_LIST then Ok (upd t VexThreadState.setSuspended w1)
     else setSuspendedAndPushToRunnables t w) = Ok w2 /\ isSuspended (thread_of t w2) = true /\
    wasAwaken (thread_of t w2) = false /\ w2.(runningThread) <> Some t /\ t ∈ w2.(queue))
    as (w2&Hw2&Hs&Ha&Hr&Hq).
  { rewrite Ho. destruct (ThreadQueue.find w.(queue) t) eqn:Hf.
    - eexists. split; [done|]. rewrite thread_of_upd, running_upd. split_and!; [done..|apply unset_running|].
      change (t ∈ w1.(queue)). unfold w1. rewrite unset_queue. by apply AdaptiblePQueue.find_spec.
    - unfold setSuspendedAndPushToRunnables. fold w1.
      destruct (push_total t (upd t (fun s => VexThreadState.setTimeout (-1)
        (setTimedOut true (VexThreadState.setSuspended s))) w1)) as [w2 Hp].
      { change (t ∉ w1.(queue)). unfold w1. rewrite unset_queue. intros Hin.
        apply AdaptiblePQueue.find_spec in Hin. unfold ThreadQueue.find in Hf. congruence. }
      exists w2. split; [done|]. destruct (push_same _ _ _ Hp) as (Ht&Hr&Hq).
      unfold thread_of. rewrite Ht, Hr, running_upd.
      match goal with |- context [threads ?w0 !!! t] => change (threads w0 !!! t) with (thread_of t w0) end.
      rewrite thread_of_upd. split_and!; [done..|apply unset_running|done]. }
  rewrite Hw2. unfold mbind, res_bind. destruct (wakeup_same w2) as (Ht'&_&_&Hflag).
  assert (wasAwaken (thread_of t (if has_option options SUSPEND_OPT_DONT_WAKE_UP_SCHEDULER
    then w2 else unconditionalWakeup w2)) = false) as Ha'.
  { destruct (has_option options SUSPEND_OPT_DONT_WAKE_UP_SCHEDULER); [exact Ha|].
    unfold thread_of in *. by rewrite Ht'. }
  rewrite Ha'. eexists. split; [done|]. split; [by apply suspended_to_stopped|]. by intros ->.
Qed.

(** The outcome of a call of [t] in [w]. *)
Definition claims_core (t : nat) (w : World T) (o : outcome) (w' : World T) : Prop :=
  match o with
  | Returns => core_free_for t w /\ w'.(runningThread) = Some t
  | BlockedAt k => resumable k
  end.

Lemma setRunning_free suspend_ t w : core_free_for t w ->
  exists w', setRunningThread_with managerId suspend_ t w = Ok (Returns, w') /\ w'.(runningThread) = Some t.
Proof.
  intros Hf%not_free_iff. unfold setRunningThread_with, changeThreadStateToRunning.
  change (anotherThreadAlreadySetRunning t (upd t ?f w)) with (anotherThreadAlreadySetRunning t w).
  rewrite Hf. match goal with |- context [with_timeline ?f t ?w0] => set (w1 := w0) end.
  destruct (with_timeline_total Controllers.updateResumingSuspendedThreadTimestamp t w1) as [w2 Hw2];
    [apply Controllers.updateResuming_total|].
  rewrite Hw2. unfold mbind, res_bind. apply bind_ok in Hw2 as ([tm tl]&_&[= <-]).
  match goal with |- context [guard_assert ?b] => assert (b = true) as -> end; [|by eexists].
  apply bool_decide_eq_true. change (thread_of t (set_timeline tl ?w0)) with (thread_of t w0).
  rewrite thread_of_upd. change (getThreadCurrentlyControllingManager (set_timers tm ?s))
    with (getThreadCurrentlyControllingManager s). subst w1. by rewrite thread_of_upd.
Qed.

Lemma suspend_stops fuel c r t options w : (decideToSuspend r t options w).1 = true ->
  has_option options SUSPEND_OPT_DONT_UPDATE_THREAD_TIME = true ->
  suspendCurrentThread managerId gsf (S fuel) c r t 0 options w
  = stop t options [RunAfterBlock] (decideToSuspend r t options w).2.
Proof.
  intros Hd Hu. cbn [suspendCurrentThread]. rewrite Hu. change (negb true) with false.
  unfold stop, mbind, res_bind. cbv iota beta zeta. cbn [andb]. fold (decideToSuspend r t options w).
  by destruct (decideToSuspend r t options w) as [[] w1].
Qed.

Lemma setRunning_claims c r t w : exists o w',
  setRunningThread managerId gsf c r t w = Ok (o, w') /\ claims_core t w o w'.
Proof.
  unfold setRunningThread. destruct (anotherThreadAlreadySetRunning t w) eqn:Hb.
  - assert (~ core_free_for t w) as Hn by (rewrite <- not_free_iff; congruence).
    unfold setRunningThread_with, changeThreadStateToRunning.
    change (anotherThreadAlreadySetRunning t (upd t ?f w)) with (anotherThreadAlreadySetRunning t w). rewrite Hb.
    set (w1 := upd t (VexThreadState.setAwaken false) w). fold (again (ThreadQueue.find (queue w1) t)).
    destruct (again_options (ThreadQueue.find (queue w1) t)) as (Hu&Hq&_).
    rewrite suspend_stops by (try exact Hu; by apply busy_suspended).
    destruct (stop_outcome t (again (ThreadQueue.find (queue w1) t)) [RunAfterBlock]
      (decideToSuspend r t (again (ThreadQueue.find (queue w1) t)) w1).2) as (w2&->&_&_).
    { destruct (decide_same r t (again (ThreadQueue.find (queue w1) t)) w1) as (_&->&_). exact Hq. }
    eexists _, _. split; [done|]. exists RunAfterBlock, 0%nat. auto.
  - apply not_free_iff in Hb. destruct (setRunning_free
      (fun t o => suspendCurrentThread managerId gsf 1 c r t 0 o) t w Hb) as (w'&->&?).
    by exists Returns, w'.
Qed.

Lemma updated_clock c t startingTime options w :
  exists w1, (if negb (has_option options SUSPEND_OPT_DONT_UPDATE_THREAD_TIME)
              then if startingTime =? 0 then updateCurrentThreadVT gsf c t w
                   else setCurrentThreadVT gsf startingTime t w
              else Ok w) = Ok w1 /\ w1.(runningThread) = w.(runningThread) /\ w1.(queue) = w.(queue).
Proof.
  destruct (negb _); [|by exists w]. destruct (startingTime =? 0).
  - destruct (updateVT_total c t w) as [w1 Hw1]. exists w1. split; [done|by apply updateVT_same in Hw1].
  - destruct (setVT_total startingTime t w) as [w1 Hw1]. exists w1. split; [done|by apply setVT_same in Hw1].
Qed.

Lemma suspend_outcome c r t startingTime options w :
  has_option options SUSPEND_OPT_THREAD_ALREADY_IN_LIST = ThreadQueue.find w.(queue) t ->
  exists o w', suspend managerId gsf c r t startingTime options w = Ok (o, w') /\ claims_core t w o w' /\
    (o <> Returns -> stopped t w' /\
       (has_option options SUSPEND_OPT_DONT_WAKE_UP_SCHEDULER = false ->
        w'.(schedulerWaitingForTimeslotExpiry) = true)).
Proof.
  intros Hq. unfold suspend. remember 1%nat as one eqn:Hone in |- *. cbn [suspendCurrentThread].
  destruct (updated_clock c t startingTime options w) as (w1&->&Hr1&Hq1).
  unfold mbind at 1, res_bind at 1. cbv zeta. fold (decideToSuspend r t options w1).
  destruct (decide_same r t options w1) as (Hr2&Hq2&Hfree).
  destruct (decideToSuspend r t options w1) as [[] w2]; cbn in Hr2, Hq2, Hfree.
  - destruct (stop_outcome t options (RunAfterBlock ::
      (if negb (has_option options SUSPEND_OPT_DONT_UPDATE_THREAD_TIME) && (startingTime =? 0)
       then [UpdateCpuTimeClock] else [])) w2) as (w'&Hs&Hst&Hw); [by rewrite Hq2, Hq1|].
    eexists _, w'. split; [exact Hs|]. split; [|done].
    destruct (negb _ && _); [by exists RunAfterBlock, 1%nat; auto|by exists RunAfterBlock, 0%nat; auto].
  - specialize (Hfree eq_refl). unfold core_free_for in Hfree. rewrite Hr1 in Hfree.
    case_decide as Hd; [by eexists Returns, w2|].
    destruct (setRunning_free (fun t o => suspendCurrentThread managerId gsf one c r t 0 o) t
      (if has_option options SUSPEND_OPT_THREAD_ALREADY_IN_LIST then eraseFromRunnables t w2 else w2))
      as (w'&->&Hw').
    + unfold core_free_for. destruct (has_option _ _); cbn; by rewrite Hr2, Hr1.
    + exists Returns, w'. split; [done|]. split; [done|]. done.
Qed.

(** C2. Told truly whether it is queued, [suspendCurrentThread] always comes to
    an end, two levels of its recursion at most, in one of two ways: it returns, and then the core was free or its
    own and the thread has it; or the thread stops, and then it is suspended,
    asleep, off the core and in the queue, the scheduler is awake or will not
    sleep, and the first thing the thread does when it is resumed is to claim
    the core again. *)
Theorem suspension_outcome n c r t startingTime options w :
  has_option options SUSPEND_OPT_THREAD_ALREADY_IN_LIST = ThreadQueue.find w.(queue) t ->
  exists o w', suspendCurrentThread managerId gsf (2 + n) c r t startingTime options w = Ok (o, w') /\
  match o with
  | Returns => core_free_for t w /\ w'.(runningThread) = Some t
  | BlockedAt k => resumable k /\ stopped t w' /\
    (has_option options SUSPEND_OPT_DONT_WAKE_UP_SCHEDULER = false ->
     w'.(schedulerWaitingForTimeslotExpiry) = true)
  end.
Proof.
  intros Hq. destruct (suspend_outcome c r t startingTime options w Hq) as (o&w'&Hs&Hc&Hst).
  exists o, w'. rewrite suspension_depth. split; [done|].
  destruct o as [|k]; [exact Hc|]. by destruct (Hst ltac:(done)).
Qed.

(** *** The core of other threads *)

(** Whoever else has the core keeps it. *)
Definition spares_core (t : nat) (w w' : World T) : Prop :=
  forall u, u <> t -> w.(runningThread) = Some u -> w'.(runningThread) = Some u.

#[export] Instance spares_core_preorder t : PreOrder (spares_core t).
Proof. split; [intros w u _ Hr; exact Hr|]. intros w1 w2 w3 H12 H23 u Hu Hr. auto. Qed.

Lemma spares_same t w w' : w'.(runningThread) = w.(runningThread) -> spares_core t w w'.
Proof. intros E u _ <-. exact E. Qed.

Lemma spares_unset t w : spares_core t w (unsetCurrentThreadFromRunningThread t w).
Proof. intros u Hu Hr. unfold unsetCurrentThreadFromRunningThread. case_decide; [congruence|done]. Qed.

Lemma spares_wakeup t w : spares_core t w (unconditionalWakeup w).
Proof. apply spares_same, wakeup_same. Qed.

Lemma spares_blocked t w w' : spares_core t w w' -> spares_core t w (startBlocking t (unconditionalWakeup w')).
Proof. intros Hk. etransitivity; [exact Hk|]. etransitivity; [apply (spares_wakeup t w')|by apply spares_same]. Qed.

Lemma spares_push t w w' : pushIntoRunnableQueue t w = Ok w' -> spares_core t w w'.
Proof. intros (_ & Hr & _)%push_same. by apply spares_same. Qed.

Lemma spares_suspended t w w' : setSuspendedAndPushToRunnables t w = Ok w' -> spares_core t w w'.
Proof. intros Hp%spares_push. etransitivity; [apply spares_unset|]. etransitivity; [by apply spares_same|exact Hp]. Qed.

Lemma spares_setRunning (f : nat -> Z -> World T -> res (outcome * World T)) t w o w' :
  (forall opts w o w', f t opts w = Ok (o, w') -> spares_core t w w') ->
  setRunningThread_with managerId f t w = Ok (o, w') -> spares_core t w w'.
Proof.
  intros Hf. unfold setRunningThread_with, changeThreadStateToRunning.
  change (anotherThreadAlreadySetRunning t (upd t ?g w)) with (anotherThreadAlreadySetRunning t w).
  destruct (anotherThreadAlreadySetRunning t w) eqn:Hb.
  - intros Hk%Hf. etransitivity; [by apply spares_same|exact Hk].
  - intros (w1 & [Hr _]%with_timeline_same & _)%bind_ok u Hu Hru. apply not_free_iff in Hb as [E|E]; congruence.
Qed.

Lemma spares_suspend n c r t startingTime options w o w' :
  suspendCurrentThread managerId gsf n c r t startingTime options w = Ok (o, w') -> spares_core t w w'.
Proof.
  revert startingTime options w o w'. induction n as [|n IH]; intros st options w o w'; [done|]. cbn [suspendCurrentThread].
  destruct (updated_clock c t st options w) as (w1 & -> & Hr1 & _). unfold mbind at 1, res_bind at 1.
  cbv zeta. fold (decideToSuspend r t options w1). destruct (decide_same r t options w1) as (Hr2 & _).
  destruct (decideToSuspend r t options w1) as [b w2]. cbn in Hr2. rewrite Hr1 in Hr2.
  assert (spares_core t w w2) as Hk by by apply spares_same. destruct b.
  - intros (w3 & Hs & (_ & _ & [= _ <-])%bind_ok)%bind_ok.
    assert (spares_core t w2 w3) as Hk3.
    { destruct (has_option options SUSPEND_OPT_THREAD_ALREADY_IN_LIST); [injection Hs as <-; apply spares_unset|by apply spares_suspended in Hs]. }
    etransitivity; [exact Hk|]. etransitivity; [exact Hk3|].
    etransitivity; [|by apply (spares_same t (if has_option options SUSPEND_OPT_DONT_WAKE_UP_SCHEDULER then w3 else unconditionalWakeup w3))].
    destruct (has_option options SUSPEND_OPT_DONT_WAKE_UP_SCHEDULER); [reflexivity|apply (spares_wakeup t w3)].
  - case_decide; [intros [= _ <-]; exact Hk|]. intros Hs.
    apply (spares_setRunning _ t _ o w') in Hs; [|intros; by eapply IH]. etransitivity; [exact Hk|].
    etransitivity; [|exact Hs]. by destruct (has_option _ _); apply spares_same.
Qed.

Lemma spares_resumed c r k t w o w' : resume_frames managerId gsf c r k t w = Ok (o, w') -> spares_core t w w'.
Proof.
  revert w. induction k as [|f k IH]; intros w; [intros [= _ <-]; reflexivity|]. cbn [resume_frames].
  intros ([o1 w1] & Hf & Hk)%bind_ok. assert (spares_core t w w1) as Hk1.
  { destruct f; cbn [run_frame] in Hf.
    - apply bind_ok in Hf as (_ & _ & Hf). apply spares_setRunning in Hf; [exact Hf|]. intros. by eapply spares_suspend.
    - apply bind_ok in Hf as (w2 & [Hr _]%with_timeline_same & Hf). apply spares_setRunning in Hf; [|intros; by eapply spares_suspend].
      etransitivity; [by apply spares_same|exact Hf].
    - injection Hf as _ <-. by apply spares_same. }
  etransitivity; [exact Hk1|]. destruct o1; [by apply IH|injection Hk as _ <-; reflexivity].
Qed.

(** *** All calls by which a thread asks for the core, waits or leaves *)
Variable minimizeTimeslotOnNw : bool.
Variable yieldDuration : Z.

Inductive request :=
| Spawn (main : bool) | Suspend (startingTime options : Z) | SuspendLoose (startingTime : Z)
| FinishModelSimulation | WrappedWaitingEnd (startingTime : Z) | WrappedTimedWaitingEnd
| ReplacedWaiting | ReplacedTimedWaiting | Yield (startingTime : Z)
| Resumed (k : list frame)
| WrappedWaitingStart (startingTime : Z) | WrappedTimedWaitingStart (startingTime : Z) | StartIo (learning : bool) | End_.

(** The calls that give up the core and return: the thread goes on in native
    code, or is at its end. *)
Definition leaves (q : request) : bool :=
  match q with WrappedWaitingStart _ | WrappedTimedWaitingStart _ | StartIo _ | End_ => true | _ => false end.

Definition returning (r : res (World T)) : res (outcome * World T) := w ← r; Ok (Returns, w).

Definition perform (q : request) (c r : Z) (t : nat) (w : World T) : res (outcome * World T) :=
  match q with
  | Spawn main => onThreadSpawn managerId gsf main c r t w
  | Suspend s o => suspend managerId gsf c r t s o w
  | SuspendLoose s => suspendLooseCurrentThread managerId gsf minimizeTimeslotOnNw c r t s w
  | FinishModelSimulation => suspendModelSimulationFinishingThread managerId gsf c r t w
  | WrappedWaitingEnd s => onWrappedWaitingEnd managerId gsf c r s t w
  | WrappedTimedWaitingEnd => onWrappedTimedWaitingEnd t w
  | ReplacedWaiting => onReplacedWaiting t w
  | ReplacedTimedWaiting => onReplacedTimedWaiting t w
  | Yield s => onThreadYield managerId gsf yieldDuration c r s t w
  | Resumed k => resume_frames managerId gsf c r k t w
  | WrappedWaitingStart s => returning (onWrappedWaitingStart gsf s t w)
  | WrappedTimedWaitingStart s => returning (onWrappedTimedWaitingStart gsf s t w)
  | StartIo learning => returning (setIoThread learning t w)
  | End_ => returning (onThreadEnd gsf c t w)
  end.

(** The caller tells the truth about being queued, and what is resumed is the
    rest of a blocked call. *)
Definition valid (q : request) (t : nat) (w : World T) : Prop :=
  let queued := ThreadQueue.find w.(queue) t in
  match q with
  | Suspend _ o => has_option o SUSPEND_OPT_THREAD_ALREADY_IN_LIST = queued
  | FinishModelSimulation => isWaitingRealCodeToCompleteAfterModelSimulation (thread_of t w) = queued
  | Spawn _ | WrappedWaitingEnd _ | Yield _ => queued = false
  | Resumed k => resumable k
  | _ => True
  end.

Lemma claims_same t w w1 o w' : w1.(runningThread) = w.(runningThread) -> claims_core t w1 o w' ->
  claims_core t w o w'.
Proof. unfold claims_core, core_free_for. by intros ->. Qed.

Lemma suspend_claims c r t startingTime options w o w' :
  has_option options SUSPEND_OPT_THREAD_ALREADY_IN_LIST = ThreadQueue.find w.(queue) t ->
  suspend managerId gsf c r t startingTime options w = Ok (o, w') -> claims_core t w o w'.
Proof.
  intros Hq Hs. destruct (suspend_outcome c r t startingTime options w Hq) as (o'&w''&Hs'&Hc&_).
  rewrite Hs' in Hs. by injection Hs as <- <-.
Qed.

Lemma setRunning_claims_ok c r t w o w' :
  setRunningThread managerId gsf c r t w = Ok (o, w') -> claims_core t w o w'.
Proof. intros Hs. destruct (setRunning_claims c r t w) as (?&?&Hs'&Hc). rewrite Hs' in Hs. by injection Hs as <- <-. Qed.

Lemma resume_clocks c r n t w : exists w',
  resume_frames managerId gsf c r (replicate n UpdateCpuTimeClock) t w = Ok (Returns, w') /\
  w'.(runningThread) = w.(runningThread).
Proof.
  revert w. induction n as [|n IH]; intros w; [by exists w|]. cbn.
  destruct (IH (upd t (upd_timers (Timers.updateCpuTimeClock c)) w)) as (w'&->&Hr). by exists w'.
Qed.

Lemma resume_claims c r k t w o w' : resumable k ->
  resume_frames managerId gsf c r k t w = Ok (o, w') -> claims_core t w o w'.
Proof.
  intros (f&n&->&Hf). cbn [resume_frames]. intros ([o1 w1]&Hrun&Hres)%bind_ok.
  assert (claims_core t w o1 w1) as Hc.
  { destruct Hf as [-> | ->]; cbn in Hrun.
    - apply bind_ok in Hrun as (?&_&Hrun). by apply setRunning_claims_ok in Hrun.
    - apply bind_ok in Hrun as (w2&[Hr2 _]%with_timeline_same&Hrun). apply setRunning_claims_ok in Hrun.
      by eapply claims_same. }
  destruct o1 as [|k'].
  - destruct (resume_clocks c r n t w1) as (w2&Hw2&Hr2). rewrite Hw2 in Hres. injection Hres as <- <-.
    destruct Hc as [Hfree Hr]. split; [done|by rewrite Hr2].
  - injection Hres as <- <-. by apply resumable_app.
Qed.

Lemma stays_claims q c r t w o w' : leaves q = false ->
  valid q t w -> perform q c r t w = Ok (o, w') -> claims_core t w o w'.
Proof.
  destruct q as [main|s o1|s| |s| | | |s|k|s|s|l|]; cbn [valid perform]; intros [=] Hv.
  - unfold onThreadSpawn. destruct (ThreadRegistry.add _ _ _ _) as [th reg].
    intros Hs. eapply claims_same; [|eapply (suspend_claims c r t 0); [|exact Hs]]; [done|exact (eq_sym Hv)].
  - by apply suspend_claims.
  - unfold suspendLooseCurrentThread. intros (w1&Hu&Hs)%bind_ok.
    assert (w1.(runningThread) = w.(runningThread)) as Hr1
      by (destruct (s =? 0); [by apply updateVT_same in Hu as [? _]|by apply setVT_same in Hu as [? _]]).
    match type of Hs with context [negb (ThreadQueue.empty (queue ?w0))] =>
      set (w2 := w0) in *; assert (w2.(runningThread) = w.(runningThread)) as Hr2
        by (subst w2; rewrite <- Hr1; unfold resetDefaultSchedulerTimeslot; by repeat case_match) end.
    destruct (negb _).
    + apply bind_ok in Hs as (w3&_&[= <- _]). exists RunAfterBlock, 1%nat. auto.
    + apply setRunning_claims_ok in Hs. by eapply claims_same.
  - intros Hs. eapply (suspend_claims c r t 0); [|exact Hs]. rewrite <- Hv. by destruct (isWaitingRealCodeToCompleteAfterModelSimulation _).
  - intros (w1&[Hr1 Hq1]%with_timeline_same&Hs)%bind_ok.
    eapply claims_same; [exact Hr1|]. eapply (suspend_claims c r t s); [|exact Hs]. by rewrite Hq1, Hv.
  - intros [= <- _]. exists RunAfterTimedOut, 0%nat. auto.
  - intros [= <- _]. exists RunAfterTimedOut, 0%nat. auto.
  - intros (w1&_&[= <- _])%bind_ok. exists RunAfterTimedOut, 0%nat. auto.
  - intros (w1&[Hr1 Hq1]%updateBy_same&Hs)%bind_ok.
    eapply claims_same; [|eapply (suspend_claims c r t 0); [|exact Hs]]; [exact Hr1|].
    exact (eq_trans (eq_sym Hv) (f_equal (fun q => ThreadQueue.find q t) (eq_sym Hq1))).
  - by apply resume_claims.
Qed.

Lemma leaves_core q c r t w o w' : leaves q = true -> perform q c r t w = Ok (o, w') ->
  o = Returns /\ w'.(runningThread) <> Some t /\ spares_core t w w'.
Proof.
  assert (forall w0 w1, pushIntoRunnableQueue t w0 = Ok w1 -> w1.(runningThread) = w0.(runningThread)) as Hpush
    by (intros w0 w1 (_ & -> & _)%push_same; done).
  destruct q as [main|s o1|s| |s| | | |s|k|s|s|l|]; cbn [leaves perform]; intros [=];
    unfold returning; intros (w1 & Hw & [= <- <-])%bind_ok; (split; [done|]).
  - apply bind_ok in Hw as (w2 & [Hr _]%setVT_same & (_ & _ & [= <-])%bind_ok).
    destruct (wakeup_same (unsetCurrentThreadFromRunningThread t w2)) as (_ & _ & -> & _). split; [apply unset_running|].
    etransitivity; [by apply spares_same|]. etransitivity; [apply spares_unset|apply spares_wakeup].
  - apply bind_ok in Hw as (w2 & [Hr _]%setVT_same & (w3 & Hp%Hpush & [= <-])%bind_ok).
    destruct (wakeup_same w3) as (_ & _ & -> & _). rewrite Hp. split; [apply unset_running|].
    etransitivity; [by apply spares_same|]. etransitivity; [apply (spares_unset t w2)|].
    etransitivity; [|apply spares_wakeup]. by apply spares_same.
  - unfold setIoThread in Hw. destruct (setIoAndCheckIfOperationShouldBlockSimulationProgress _ _) as [b s].
    assert (w1.(runningThread) = (unsetCurrentThreadFromRunningThread t w).(runningThread)) as E
      by (destruct b; [exact (Hpush _ _ Hw)|by injection Hw as <-]).
    split; [rewrite E; apply unset_running|]. etransitivity; [apply spares_unset|by apply spares_same].
  - apply bind_ok in Hw as (w2 & [Hr _]%updateVT_same & Hw). cbv zeta in Hw.
    match type of Hw with context [ThreadRegistry.remove ?a ?b ?c] => destruct (ThreadRegistry.remove a b c) as [th reg] end.
    injection Hw as <-. unfold unsetCurrentThreadFromRunningThreadAndWakeup. split.
    + case_decide as Hd; [|exact Hd]. destruct (wakeup_same (set_runningThread None (set_registry reg (set_threads th (upd t setDead w2)))))
        as (_ & _ & -> & _). done.
    + intros u Hu Hru. rewrite <- Hr in Hru. case_decide as Hd; [|exact Hru]. cbn in Hd. congruence.
Qed.

Lemma perform_spares q c r t w o w' : perform q c r t w = Ok (o, w') -> spares_core t w w'.
Proof.
  destruct (leaves q) eqn:Hl; [intros Hp; by eapply leaves_core|].
  destruct q as [main|s o1|s| |s| | | |s|k|s|s|l|]; try discriminate Hl; cbn [perform]; intros Hp.
  - unfold onThreadSpawn in Hp. destruct (ThreadRegistry.add _ _ _ _) as [th reg].
    apply spares_suspend in Hp. etransitivity; [|exact Hp]. by apply spares_same.
  - by eapply spares_suspend.
  - unfold suspendLooseCurrentThread in Hp. apply bind_ok in Hp as (w1 & Hu & Hp).
    assert (spares_core t w w1) as Hk
      by (apply spares_same; destruct (s =? 0); [by apply updateVT_same in Hu as [? _]|by apply setVT_same in Hu as [? _]]).
    etransitivity; [exact Hk|]. match type of Hp with context [negb (ThreadQueue.empty (queue ?w0))] =>
      set (w2 := w0) in *; assert (spares_core t w1 w2) as Hk2
        by (apply spares_same; subst w2; unfold resetDefaultSchedulerTimeslot; by repeat case_match) end.
    etransitivity; [exact Hk2|]. destruct (negb _).
    + apply bind_ok in Hp as (w3 & Hs%spares_suspended & [= _ <-]). exact Hs.
    + unfold setRunningThread in Hp. apply spares_setRunning in Hp; [exact Hp|]. intros. by eapply spares_suspend.
  - by eapply spares_suspend.
  - apply bind_ok in Hp as (w1 & [Hr _]%with_timeline_same & Hp%spares_suspend). etransitivity; [by apply spares_same|exact Hp].
  - injection Hp as _ <-. by apply spares_blocked, spares_same.
  - injection Hp as _ <-. apply spares_blocked, spares_unset.
  - apply bind_ok in Hp as (w1 & Hs%spares_push & [= _ <-]). apply spares_blocked.
    etransitivity; [apply (spares_unset t w)|]. etransitivity; [|exact Hs]. by apply spares_same.
  - apply bind_ok in Hp as (w1 & [Hr _]%updateBy_same & Hp%spares_suspend). etransitivity; [|exact Hp]. by apply spares_same.
  - by eapply spares_resumed.
Qed.

(** C1. The core is never taken from another thread.  This
    is about the calls by which a thread starts, suspends, waits, yields,
    performs I/O and ends, and about what it goes on with after it was resumed;
    the caller must tell truly whether it is queued: by the option or its state
    where a call looks at these, and by not being queued where it starts,
    yields or comes from an untimed wait.  Whoever else has the core keeps it
    in all of them.  The calls that begin a wait or I/O in native code and the
    end give up the core and return; from the others control
    returns only when the core was free or already the caller's own, with the
    caller registered as the running thread, or else the caller is left with a
    rest of its call that will claim the core in the same way. *)
Theorem control_needs_core q c r t w o w' :
  valid q t w -> perform q c r t w = Ok (o, w') ->
  (forall u, u <> t -> w.(runningThread) = Some u -> w'.(runningThread) = Some u) /\
  match o with
  | Returns =>
    if leaves q then w'.(runningThread) <> Some t
    else core_free_for t w /\ w'.(runningThread) = Some t
  | BlockedAt k => leaves q = false /\ resumable k
  end.
Proof.
  intros Hv Hp. split; [exact (perform_spares _ _ _ _ _ _ _ Hp)|]. destruct (leaves q) eqn:Hl.
  - destruct (leaves_core _ _ _ _ _ _ _ Hl Hp) as (-> & Hr & _). exact Hr.
  - pose proof (stays_claims _ _ _ _ _ _ _ Hl Hv Hp) as Hc. destruct o; [exact Hc|by split].
Qed.
End calls.

(** ** Witnesses: a thread that yields to another one in the queue *)
#[local] Existing Instances Controllers.SingleVirtualTimelineController Controllers.single_total.

Definition one_queued : World VirtualTimeline.VirtualTimeline.VirtualTimeline :=
  new_ThreadManager {[ 1%nat := ThreadQueue.io_thread 10 5; 2%nat := ThreadQueue.io_thread 20 500 ]}
    [2]%nat (ThreadRegistry.new_ThreadRegistry 2 false) ∅ (VirtualTimeline.VirtualTimeline.mkTimeline 0 0)
    false 0 None.

Lemma suspension_outcome_witness :
  exists o w', suspendCurrentThread 0 f32_one 2 7 7 1 0 SUSPEND_OPT_FORCE_SUSPEND one_queued = Ok (o, w') /\
  match o with
  | Returns => core_free_for 1 one_queued /\ w'.(runningThread) = Some 1%nat
  | BlockedAt k => resumable k /\ stopped 1 w' /\
    (has_option SUSPEND_OPT_FORCE_SUSPEND SUSPEND_OPT_DONT_WAKE_UP_SCHEDULER = false ->
     w'.(schedulerWaitingForTimeslotExpiry) = true)
  end.
Proof. exact (suspension_outcome 0 f32_one 0 7 7 1 0 SUSPEND_OPT_FORCE_SUSPEND one_queued eq_refl). Defined.

Lemma control_needs_core_witness :
  match perform 0 f32_one false 100 (Yield 50) 7 7 1 one_queued with
  | Ok (BlockedAt k, _) => resumable k
  | _ => False
  end.
Proof.
  destruct (perform _ _ _ _ _ _ _ _ _) as [[o w']|e] eqn:E.
  - pose proof (control_needs_core 0 f32_one false 100 (Yield 50) 7 7 1 one_queued o w' eq_refl E) as [_ H].
    destruct o; [vm_compute in E; discriminate E|exact (proj2 H)].
  - vm_compute in E. discriminate E.
Defined.

End Suspension.
