(* ===== verification/NativeWaiting.v ===== *)
(** * Criteria for native waiting

    NativeWaitingCriteria.cpp (src/src/vex/threads): how a thread that was
    signalled decides whether it is blocked in native code.  The frames of the
    stack are what the unwinding library gives, an argument here. *)
From Stdlib Require Import String Ascii.
From S2P Require Import Prelude CxxFloat Timers.

Module NativeWaitingCriteria.

(** ** Looking for a name

    A C string is the list of its characters before the terminator.  The
    comparison counts the characters that agree; where both strings end at once
    it would read past them. *)
Fixpoint agreeing (haystack needle : string) (found needleLength : nat) : res nat :=
  match haystack, needle with
  | String a haystack, String b needle =>
    if Ascii.eqb a b then
      if Nat.ltb (S found) needleLength then agreeing haystack needle (S found) needleLength
      else Ok (S found)
    else Ok found
  | EmptyString, EmptyString => Err OutOfBounds
  | _, _ => Ok found
  end.

Fixpoint contains (haystack originalNeedle : string) (needleLength : nat) : res bool :=
  match haystack with
  | EmptyString => Ok false
  | String _ rest =>
    found ← agreeing haystack originalNeedle 0 needleLength;
    if decide (found = needleLength) then Ok true else contains rest originalNeedle needleLength
  end.

(** ** The stack *)

(** What [%p] prints for a code address. *)
Definition hex_digit (d : Z) : ascii :=
  ascii_of_nat (Z.to_nat (if d <? 10 then 48 + d else 87 + d)).

Fixpoint hex_digits (fuel : nat) (z : Z) (acc : string) : string :=
  match fuel with
  | O => acc
  | S fuel =>
    let acc := String (hex_digit (z `mod` 16)) acc in
    if z <? 16 then acc else hex_digits fuel (z / 16) acc
  end.

Definition print_pointer (pc : Z) : string :=
  if pc =? 0 then "(nil)"%string else String "0"%char (String "x"%char (hex_digits 16 pc EmptyString)).

(** A frame: the address and the name of its function. *)
Record Frame := mkFrame { pc : Z; fname : string }.

Definition maxStack : nat := 10.

(** The loop of [StackTraceBasedCriteria::isNativeWaiting]; [result] is what
    the frames before say. *)
Fixpoint scanStack (frames : list Frame) (result : bool) : res bool :=
  match frames with
  | [] => Ok result
  | f :: frames =>
    let result := if decide (f.(fname) = "pthread_cond_wait"%string) then true else result in
    let library := print_pointer f.(pc) in
    vex ← contains library "libvex"%string 6;
    agent ← (if vex : bool then Ok true else contains library "libJVMTIAgent"%string 13);
    if agent : bool then Ok false else scanStack frames result
  end.

(** [frames] are those that each step along the stack reaches: the first three
    are the signal handler's, and the loop takes the depths 3 to 9.  No
    frames are known when the library is not there. *)
Definition stackTraceSaysNativeWaiting (libunwind : bool) (frames : list Frame) : res bool :=
  if libunwind then scanStack (take (maxStack - 3) (drop 3 frames)) false else Err AssertFailed.

(** ** The criteria *)
Inductive criteria := NoNativeWaitingCriteria | StackTraceBasedCriteria | CombinedCriteria
  | VexCountersBasedCriteria.

Definition getCriteria (criteriaType : Z) : criteria :=
  if criteriaType =? 1 then NoNativeWaitingCriteria
  else if criteriaType =? 2 then StackTraceBasedCriteria
  else if criteriaType =? 3 then CombinedCriteria
  else VexCountersBasedCriteria.

(** The settings of the factory: the type and the share of real time. *)
Definition setCriteriaType (atof : string -> float) (type : string) (set : Z * float) : Z * float :=
  let criteriaType :=
    if decide (type = "none"%string) then 1
    else if decide (type = "stackTrace"%string) then 2
    else if String.prefix "combined"%string type then 3
    else if String.prefix "counters"%string type then 0
    else set.1 in
  if ((criteriaType =? 0) || (criteriaType =? 3)) && (10 <=? Z.of_nat (String.length type))
     && bool_decide (String.get 8 type = Some "_"%char) then
    let val := atof (substring 9 (String.length type - 9) type) in
    if f_ltb (S754_zero false) val && f_ltb val (ll_to_f32 100) then (criteriaType, val)
    else (criteriaType, set.2)
  else (criteriaType, set.2).

Section criteria.
Variable gsf : float.

(** The build's unwinding library, the share of real time that counts as
    progress, and the chosen criteria. *)
Record Criteria := mkCriteria { kind : criteria; accepted : float; libunwind : bool }.

Definition isNativeWaiting (c : Criteria) (realTime : Z) (frames : list Frame) (t : Timers.Timers) : res bool :=
  let lack := Timers.doesTheDifferenceBetweenCpuAndRealTimeIndicateLackOfProgress gsf realTime c.(accepted) t in
  match c.(kind) with
  | NoNativeWaitingCriteria => Ok false
  | StackTraceBasedCriteria => stackTraceSaysNativeWaiting c.(libunwind) frames
  | VexCountersBasedCriteria => Ok lack
  | CombinedCriteria =>
    if lack && c.(libunwind) then stackTraceSaysNativeWaiting true frames else Ok lack
  end.

Definition isThreadStillBlockedInNativeWait (c : Criteria) (realTime cpuTime : Z) (frames : list Frame)
    (t : Timers.Timers) : res bool :=
  let blocked :=
    f_ltb (ll_to_f32 (cpuTime -ll t.(Timers.lastCPUTime)))
          (f32_mul c.(accepted) (ll_to_f32 (realTime -ll t.(Timers.lastRealTimeInHandler)))) in
  match c.(kind) with
  | NoNativeWaitingCriteria => Ok false
  | StackTraceBasedCriteria => stackTraceSaysNativeWaiting c.(libunwind) frames
  | VexCountersBasedCriteria => Ok blocked
  | CombinedCriteria =>
    if blocked && c.(libunwind) then stackTraceSaysNativeWaiting true frames else Ok blocked
  end.

End criteria.

(** ** What the search finds *)

Lemma agreeing_spec needle h found len :
  (found < len)%nat -> (len - found <= String.length needle)%nat ->
  exists k, agreeing h needle found len = Ok k /\
    (k = len <-> exists s, h = (substring 0 (len - found) needle ++ s)%string).
Proof.
  revert h found. induction needle as [|b needle IH]; intros h found Hf Hl; cbn in Hl; [lia|].
  destruct (len - found)%nat as [|m] eqn:Hm; [lia|].
  destruct h as [|a h]; cbn [agreeing substring String.append]; [exists found; split; [done|]|].
  { split; [lia|]. by intros [? [=]]. }
  destruct (Ascii.eqb_spec a b) as [->|Hab].
  - destruct (Nat.ltb_spec (S found) len) as [Hlt|Hge].
    + destruct (IH h (S found) Hlt ltac:(lia)) as (k&Hk&Hs). exists k. split; [done|].
      rewrite Hs. replace (len - S found)%nat with m by lia.
      split; [by intros [s ->]; exists s|by intros [s [= ->]]; exists s].
    + exists (S found). split; [done|]. assert (m = 0%nat) as -> by lia.
      split; [intros _; exists h; by destruct needle|lia].
  - exists found. split; [done|]. split; [lia|]. by intros [? [=]].
Qed.

(** [contains] finds the first [needleLength] characters of the needle. *)
Lemma contains_spec h needle len : (0 < len <= String.length needle)%nat ->
  exists b, contains h needle len = Ok b /\
    (b = true <-> exists p s, h = (p ++ substring 0 len needle ++ s)%string).
Proof.
  intros Hl. assert (exists c n, substring 0 len needle = String c n) as (c&n&Hsub).
  { destruct len as [|len]; [lia|]. destruct needle as [|c needle]; cbn in *; [lia|]. by do 2 eexists. }
  induction h as [|a h IH]; cbn [contains].
  - exists false. split; [done|]. split; [done|]. rewrite Hsub. intros ([|? p]&s&[=]).
  - destruct (agreeing_spec needle (String a h) 0 len) as (k&Hk&Hs); [lia..|].
    rewrite Hk. cbn. rewrite Nat.sub_0_r in Hs. case_decide as Hd.
    + exists true. split; [done|]. split; [|done]. intros _. exists EmptyString. cbn. by apply Hs.
    + destruct IH as (b&Hb&Hspec). exists b. split; [done|]. rewrite Hspec. split.
      * intros (p&s&->). by exists (String a p), s.
      * intros ([|a' p]&s&Heq); [destruct Hd; apply Hs; by exists s|].
        injection Heq as -> ->. by exists p, s.
Qed.

(** *** The letters of an address *)
Fixpoint letter_in (a : ascii) (s : string) : bool :=
  match s with EmptyString => false | String b s => Ascii.eqb a b || letter_in a s end.

Lemma letter_in_app a s1 s2 : letter_in a (s1 ++ s2)%string = letter_in a s1 || letter_in a s2.
Proof.
  induction s1 as [|b s1 IH]; [done|]. change (String b s1 ++ s2)%string with (String b (s1 ++ s2)).
  cbn [letter_in]. by rewrite IH, orb_assoc.
Qed.

(** Neither the first letter of "libvex" nor that of "libJVMTIAgent". *)
Lemma hex_digit_not_l d : 0 <= d < 16 -> Ascii.eqb "l"%char (hex_digit d) = false.
Proof.
  intros Hd. assert (d ∈ seqZ 0 16) as Hin by (apply elem_of_seqZ; lia). clear Hd. revert d Hin.
  apply Forall_forall. by vm_compute; repeat constructor.
Qed.

Lemma hex_digits_not_l fuel z acc : letter_in "l" acc = false ->
  letter_in "l" (hex_digits fuel z acc) = false.
Proof.
  revert z acc. induction fuel as [|fuel IH]; intros z acc Ha; [done|]. cbn [hex_digits].
  assert (letter_in "l" (String (hex_digit (z `mod` 16)) acc) = false) as Hc.
  { cbn [letter_in]. rewrite hex_digit_not_l by (apply Z.mod_pos_bound; lia). done. }
  case_match; [done|]. by apply IH.
Qed.

Lemma print_pointer_not_l pc : pc <> 0 -> letter_in "l" (print_pointer pc) = false.
Proof.
  intros Hpc. unfold print_pointer. rewrite (proj2 (Z.eqb_neq _ _)) by done.
  cbn [letter_in]. by rewrite hex_digits_not_l.
Qed.

Lemma contains_letter c h needle len : (0 < len <= String.length needle)%nat ->
  letter_in c (substring 0 len needle) = true -> letter_in c h = false -> contains h needle len = Ok false.
Proof.
  intros Hl Hn Hh. destruct (contains_spec h needle len Hl) as (b&->&Hb). destruct b; [|done].
  destruct (proj1 Hb eq_refl) as (p&s&->). rewrite !letter_in_app, Hn, orb_true_r in Hh. done.
Qed.

(** No printed address is taken for a part of VEX. *)
Lemma address_not_vex pc : contains (print_pointer pc) "libvex"%string 6 = Ok false /\
  contains (print_pointer pc) "libJVMTIAgent"%string 13 = Ok false.
Proof.
  destruct (decide (pc = 0)) as [->|Hpc]; [by vm_compute|].
  split; (apply (contains_letter "l"%char); [cbn; lia|done|by apply print_pointer_not_l]).
Qed.

(** One of the frames waits for a condition. *)
Definition waits_in_cond (frames : list Frame) : bool :=
  existsb (fun f => bool_decide (f.(fname) = "pthread_cond_wait"%string)) frames.

Lemma stack_says_ok frames :
  stackTraceSaysNativeWaiting true frames = Ok (waits_in_cond (take (maxStack - 3) (drop 3 frames))).
Proof.
  unfold stackTraceSaysNativeWaiting. generalize (take (maxStack - 3) (drop 3 frames)). clear frames.
  assert (forall frames result, scanStack frames result = Ok (result || waits_in_cond frames)) as Hscan; [|done].
  induction frames as [|f frames IH]; intros result; cbn [scanStack waits_in_cond existsb]; [by rewrite orb_false_r|].
  destruct (address_not_vex f.(pc)) as [-> ->]. cbn [mbind res_bind]. rewrite IH. f_equal.
  rewrite orb_assoc. f_equal. case_decide as Hd.
  - by rewrite bool_decide_true, orb_true_r.
  - by rewrite bool_decide_false, orb_false_r.
Qed.

(** With the stack-trace criteria, a thread counts as blocked in native
    code exactly when one of the frames at depths 3 to 9 is in
    [pthread_cond_wait]: the frames of VEX and of its agent, which are to
    rule that out, are never recognised, since the name of the library that is
    searched for theirs is the printed address of the frame. *)
Theorem stack_criterion_ignores_vex frames :
  stackTraceSaysNativeWaiting true frames =
    Ok (existsb (fun f => bool_decide (f.(fname) = "pthread_cond_wait"%string))
          (take (maxStack - 3) (drop 3 frames))).
Proof. apply stack_says_ok. Qed.

End NativeWaitingCriteria.
