(* ===== verification/SignalHandler.v ===== *)
(** * The answer of a signalled thread

    [VexThreadState::onSignalledFromScheduler] (src/src/vex/threads/ThreadState.cpp):
    the signal handler with which a thread brings its clocks up to date and
    tells the scheduler whether it suspends itself, keeps on running or is to
    be disregarded.  [ThreadManager.getSuspendingThreadIntention] takes that
    answer on the scheduler's side.  The world is that of the manager which
    controls the thread, or controlled it last.  The handler reads each clock
    once here, and the stack is an argument. *)
From S2P Require Import Prelude Heap AdaptiblePQueue CxxFloat Timers VirtualTimeline Controllers Statistics.
From S2P Require Import ThreadParts ThreadState ThreadQueue ThreadRegistry ThreadManager.
From S2P Require Import SchedulingPass Suspension NativeWaiting.
Import VexThreadState ThreadManager Suspension NativeWaitingCriteria.

Module SignalHandler.
Section handler.
Context `{HO : StdHeapOps} {T : Type} `{HC : Controllers.VirtualTimelineController T}.
Variable managerId : nat.
Variable gsf : float.
Variable minimizeTimeslotOnNw : bool.
Variable criteria : Criteria.
Implicit Types w : World T.

Record Readings := mkReadings { cpuNow : Z; realNow : Z; frames : list Frame }.

Definition isThreadBlockedInNativeWait (r : Readings) (s : thread) : res bool :=
  if negb (isInSystemCall s) && negb s.(inVex) && negb s.(scheduling).(Scheduling.forceSuspend)
  then isNativeWaiting gsf criteria r.(realNow) r.(frames) s.(timers)
  else Ok false.

(** What is left of the handler when its thread blocks. *)
Inductive rest :=
| AfterLoose                      (* a native waiting thread that came back *)
| AfterSuspended (inSystemCall : bool).

Inductive handler_outcome := HandlerReturns | HandlerBlocked (k : list frame) (last : rest).

Definition updateClocksOnExit (r : Readings) (inSystemCall : bool) (t : nat) w : World T :=
  if inSystemCall then upd t (upd_timers (Timers.updateClocks r.(realNow) r.(cpuNow))) w
  else upd t (upd_timers (Timers.updateCpuTimeClock r.(cpuNow))) w.

Definition finish (r : Readings) (last : rest) (t : nat) w : World T :=
  match last with
  | AfterLoose => upd t (upd_timers (Timers.updateCpuTimeClock r.(cpuNow))) w
  | AfterSuspended inSystemCall =>
    updateClocksOnExit r inSystemCall t (if inSystemCall then upd t setInSystemCall w else w)
  end.

Definition leave (r : Readings) (o : outcome) (last : rest) (t : nat) w : handler_outcome * World T :=
  match o with
  | Returns => (HandlerReturns, finish r last t w)
  | BlockedAt k => (HandlerBlocked k last, w)
  end.

(** The thread was resumed in its handler. *)
Definition resumeHandler (r : Readings) (k : list frame) (last : rest) (t : nat) w
    : res (handler_outcome * World T) :=
  '(o, w) ← resume_frames managerId gsf r.(cpuNow) r.(realNow) k t w;
  Ok (leave r o last t w).

Definition notifySchedulerForIntention (i : Scheduling.suspend_flag) (t : nat) w : World T :=
  upd t (upd_sched (Scheduling.notifySchedulerForIntention i)) w.

(** B: real code that goes on after the simulation of its model. *)
Definition answerPoll (r : Readings) (t : nat) w : World T :=
  let s := thread_of t w in
  if negb s.(inVex) && ((r.(cpuNow) -ll s.(timers).(Timers.lastCPUTime)) <? 200000)
  then notifySchedulerForIntention Scheduling.TO_BE_DISREGARDED t w
  else upd t (upd_timers (Timers.set_lastCPUTime r.(cpuNow)))
         (notifySchedulerForIntention Scheduling.TO_KEEP_ON_RUNNING t w).

(** C: a thread that is known to wait in native code. *)
Definition answerNativeWaiting (r : Readings) (t : nat) w : res (handler_outcome * World T) :=
  blocked ← isThreadStillBlockedInNativeWait criteria r.(realNow) r.(cpuNow) r.(frames)
              (thread_of t w).(timers);
  if blocked : bool then
    Ok (HandlerReturns, upd t (upd_sched Scheduling.clearThreadBeingCurrentlyPolledForNativeWaiting) w)
  else
    '(o, w) ← suspendLooseCurrentThread managerId gsf minimizeTimeslotOnNw r.(cpuNow) r.(realNow) t r.(cpuNow) w;
    Ok (leave r o AfterLoose t w).

(** A: the thread decides, with its time accounted for. *)
Definition answerRunning (r : Readings) (inSystemCall : bool) (t : nat) w : res (handler_outcome * World T) :=
  w ← setCurrentThreadVT gsf r.(cpuNow) t w;
  blocked ← isThreadBlockedInNativeWait r (thread_of t w);
  if blocked : bool then
    let w := notifySchedulerForIntention Scheduling.TO_BE_DISREGARDED t w in
    let w := setNativeWaiting t w in
    let w := upd t (upd_timers (fun t => (Timers.getAndResetLocalTime
                      (Timers.set_resumedLastAt t.(Timers.estimatedRealTime) t)).2)) w in
    let w := upd t (upd_timers (Timers.updateLastResumedTo r.(realNow))) w in
    Ok (HandlerReturns, updateClocksOnExit r inSystemCall t w)
  else
    let '(suspends, w) := shouldCurrentThreadSuspend r.(realNow) t w in
    if suspends : bool then
      let w := upd t VexThreadState.setSuspended w in
      let w := notifySchedulerForIntention Scheduling.TO_BE_SUSPENDED t w in
      Ok (HandlerBlocked [RunAfterBlock] (AfterSuspended inSystemCall), startBlocking t w)
    else
      let w := notifySchedulerForIntention Scheduling.TO_KEEP_ON_RUNNING t w in
      let w := upd t (upd_timers (Timers.updateLastResumedTo r.(realNow))) w in
      Ok (HandlerReturns, updateClocksOnExit r inSystemCall t w).

Definition onSignalledFromScheduler (r : Readings) (t : nat) w : res (handler_outcome * World T) :=
  let s := thread_of t w in
  if isWaitingRealCodeToCompleteAfterModelSimulation s then Ok (HandlerReturns, answerPoll r t w)
  else
    let inSystemCall := isInSystemCall s in
    let w :=
      if inSystemCall then
        upd t (upd_timers (fun t => Timers.set_lastCPUTime
          (t.(Timers.lastCPUTime) -ll (r.(realNow) -ll t.(Timers.lastRealTime))) t)) w
      else w in
    if VexThreadState.isNativeWaiting s then answerNativeWaiting r t w
    else if decide (getThreadCurrentlyControllingManager s = None) then Ok (HandlerReturns, w)
    else answerRunning r inSystemCall t w.

(** ** What the scheduler learns *)
Context `{HT : !Controllers.TotalController T}.

(** The answer that the scheduler takes, and what it finds of the thread. *)
Definition answered (s : thread) (o : handler_outcome) (s' : thread) : Prop :=
  match Scheduling.getSuspendingThreadIntention s'.(scheduling) with
  | Some (Scheduling.TO_BE_SUSPENDED, _) =>
    isSuspended s' = true /\ wasAwaken s' = false /\
    o = HandlerBlocked [RunAfterBlock] (AfterSuspended (isInSystemCall s))
  | Some (Scheduling.TO_KEEP_ON_RUNNING, _) => s'.(currentState) = s.(currentState) /\ o = HandlerReturns
  | Some (Scheduling.TO_BE_DISREGARDED, _) =>
    (VexThreadState.isNativeWaiting s' = true /\ getThreadCurrentlyControllingManager s' = None \/
     isWaitingRealCodeToCompleteAfterModelSimulation s' = true) /\ o = HandlerReturns
  | _ => False
  end.

(** The stack-trace criteria need the library. *)
Definition unwinds : Prop := criteria.(kind) = StackTraceBasedCriteria -> criteria.(libunwind) = true.

Lemma isNativeWaiting_ok real fs t : unwinds -> exists b, NativeWaitingCriteria.isNativeWaiting gsf criteria real fs t = Ok b.
Proof.
  intros Hu. unfold unwinds, NativeWaitingCriteria.isNativeWaiting in *.
  destruct criteria.(kind); [by eexists| | |by eexists].
  - rewrite Hu by done. rewrite stack_says_ok. by eexists.
  - case_match; [rewrite stack_says_ok|]; by eexists.
Qed.

Lemma with_timeline_thread f t w w' : with_timeline f t w = Ok w' ->
  exists tm, thread_of t w' = set_timers tm (thread_of t w).
Proof.
  intros ([tm tl]&_&[= <-])%bind_ok. exists tm.
  transitivity (thread_of t (upd t (set_timers tm) w)); [done|]. by rewrite thread_of_upd.
Qed.

Lemma setVT_thread time t w w' : setCurrentThreadVT gsf time t w = Ok w' ->
  exists tm, thread_of t w' = set_timers tm (thread_of t w).
Proof.
  unfold setCurrentThreadVT. case_match; [|intros [= <-]; exists (thread_of t w).(timers); by destruct (thread_of t w)].
  unfold locklessUpdateTimeBy. case_match; intros [tm ->]%with_timeline_thread; exists tm; by rewrite thread_of_upd.
Qed.

(** The decision only takes the order to suspend. *)
Lemma should_thread real t w : (shouldCurrentThreadSuspend real t w).2 =
  upd t (set_scheduling (Scheduling.set_forceSuspend false (thread_of t w).(scheduling))) w.
Proof. unfold shouldCurrentThreadSuspend. cbn. by repeat case_match. Qed.

Lemma should_forced real t w : (thread_of t w).(scheduling).(Scheduling.forceSuspend) = true ->
  (shouldCurrentThreadSuspend real t w).1 = true.
Proof. unfold shouldCurrentThreadSuspend. cbn. by intros ->. Qed.

Lemma clocks_thread r b t w : exists tm, thread_of t (updateClocksOnExit r b t w) = set_timers tm (thread_of t w).
Proof. unfold updateClocksOnExit. case_match; rewrite thread_of_upd; by eexists. Qed.

Lemma nativeWaiting_thread t w :
  let s' := thread_of t (setNativeWaiting t w) in
  VexThreadState.isNativeWaiting s' = true /\ getThreadCurrentlyControllingManager s' = None /\
  s'.(scheduling).(Scheduling.suspendFlag) = (thread_of t w).(scheduling).(Scheduling.suspendFlag) /\
  (setNativeWaiting t w).(queue) = w.(queue) /\ (setNativeWaiting t w).(runningThread) = w.(runningThread).
Proof.
  unfold setNativeWaiting, ThreadRegistry.setNativeWaiting. cbn. unfold thread_of.
  destruct (ThreadRegistry.nativeWaitingThreadsPQueue _); cbn;
    rewrite ?lookup_update_thread, ?decide_True by done; done.
Qed.

Lemma running_answers r t w : unwinds ->
  let s := thread_of t w in
  exists o w', answerRunning r (isInSystemCall s) t w = Ok (o, w') /\ answered s o (thread_of t w') /\
    w'.(queue) = w.(queue) /\ w'.(runningThread) = w.(runningThread) /\
    (s.(scheduling).(Scheduling.forceSuspend) = true -> isSuspended (thread_of t w') = true).
Proof.
  intros Hu s. unfold answerRunning.
  destruct (setVT_total gsf (cpuNow r) t w) as [w1 Hv]. rewrite Hv. cbn [mbind res_bind].
  destruct (setVT_thread _ _ _ _ Hv) as [tm Ht]. destruct (setVT_same gsf _ _ _ _ Hv) as [Hr Hq].
  assert (exists b, isThreadBlockedInNativeWait r (thread_of t w1) = Ok b /\
    (s.(scheduling).(Scheduling.forceSuspend) = true -> b = false)) as (b&->&Hb).
  { unfold isThreadBlockedInNativeWait. rewrite Ht. cbn. fold s.
    destruct (Scheduling.forceSuspend _); [rewrite andb_false_r; by eexists|].
    case_match; [|by eexists]. destruct (isNativeWaiting_ok r.(realNow) r.(frames) tm Hu) as [b Hb].
    exists b. by split. }
  cbn [mbind res_bind]. destruct b.
  - do 2 eexists. split; [reflexivity|]. unfold answered.
    match goal with |- context [updateClocksOnExit r ?c t ?w2] => destruct (clocks_thread r c t w2) as [tm' ->] end.
    rewrite !thread_of_upd.
    match goal with |- context [setNativeWaiting t ?w2] => destruct (nativeWaiting_thread t w2) as (Hn&Hm&Hf&Hq'&Hr') end.
    unfold notifySchedulerForIntention in *. rewrite thread_of_upd in Hf. cbn in Hf.
    unfold Scheduling.getSuspendingThreadIntention. cbn. rewrite Hf.
    split_and!; [by left|done| | |by intros Hfs; discriminate (Hb Hfs)].
    + unfold updateClocksOnExit. case_match; cbn; rewrite Hq'; exact Hq.
    + unfold updateClocksOnExit. case_match; cbn; rewrite Hr'; exact Hr.
  - pose proof (should_thread r.(realNow) t w1) as Hw. pose proof (should_forced r.(realNow) t w1) as Hforced.
    rewrite Ht in Hforced. cbn [scheduling set_timers] in Hforced. fold s in Hforced.
    destruct (shouldCurrentThreadSuspend r.(realNow) t w1) as [suspends w2]. cbn [fst snd] in Hw, Hforced.
    destruct suspends.
    + do 2 eexists. split; [reflexivity|]. unfold startBlocking, notifySchedulerForIntention, answered.
      rewrite !thread_of_upd. subst w2. cbn. done.
    + do 2 eexists. split; [reflexivity|]. unfold answered.
      match goal with |- context [updateClocksOnExit r ?c t ?w2] => destruct (clocks_thread r c t w2) as [tm' ->] end.
      unfold notifySchedulerForIntention. rewrite !thread_of_upd. subst w2. rewrite thread_of_upd, Ht. cbn.
      split_and!; [done|done| | |by intros Hfs; discriminate (Hforced Hfs)]; unfold updateClocksOnExit; case_match; cbn; done.
Qed.

(** C20. A signalled thread that some manager controls and that does not
    wait in native code always answers, so that the scheduler which waits for its
    answer goes on: either it is suspended and sleeps in its handler, or it
    keeps its state and runs, or it is left alone, waiting in native code
    outside the control of any manager (or behind the model that stands for its
    real code).  It leaves the queue and the core to the scheduler, and a
    thread that was ordered to suspend itself does. *)
Theorem signalled_thread_answers r t w : unwinds ->
  let s := thread_of t w in
  getThreadCurrentlyControllingManager s <> None -> VexThreadState.isNativeWaiting s = false ->
  exists o w', onSignalledFromScheduler r t w = Ok (o, w') /\ answered s o (thread_of t w') /\
    w'.(queue) = w.(queue) /\ w'.(runningThread) = w.(runningThread) /\
    (s.(scheduling).(Scheduling.forceSuspend) = true ->
     isWaitingRealCodeToCompleteAfterModelSimulation s = false -> isSuspended (thread_of t w') = true).
Proof.
  intros Hu s Hm Hn. unfold onSignalledFromScheduler. fold s.
  destruct (isWaitingRealCodeToCompleteAfterModelSimulation s) eqn:Hw.
  - do 2 eexists. split; [reflexivity|]. unfold answerPoll, notifySchedulerForIntention, answered.
    assert (s.(currentState) = AFTER_MODEL_SIM_WAITING_FOR_REAL_CODE) as Hs by (by apply bool_decide_eq_true in Hw).
    destruct (negb _ && _); rewrite !thread_of_upd; fold s; cbn; split_and!; try done. by right.
  - rewrite Hn, decide_False by done.
    set (w1 := if isInSystemCall s then _ else w).
    assert (exists tm, thread_of t w1 = set_timers tm s) as [tm Ht].
    { subst w1. destruct (isInSystemCall s); [rewrite thread_of_upd; by eexists|].
      exists s.(timers). unfold s. by destruct (thread_of t w). }
    destruct (running_answers r t w1 Hu) as (o&w'&Ha&Hans&Hq&Hr&Hf). rewrite Ht in Ha, Hans, Hf.
    exists o, w'. change (isInSystemCall (set_timers tm s)) with (isInSystemCall s) in Ha.
    split_and!; [exact Ha|exact Hans| | |by intros Hfs _; apply Hf].
    + rewrite Hq. subst w1. by case_match.
    + rewrite Hr. subst w1. by case_match.
Qed.

End handler.
(** ** Witness: a thread that keeps on running *)
#[local] Existing Instances Controllers.SingleVirtualTimelineController Controllers.single_total.

Definition counters : Criteria := mkCriteria VexCountersBasedCriteria (ll_to_f32 0) false.
Definition one_running : World VirtualTimeline.VirtualTimeline.VirtualTimeline :=
  new_ThreadManager
    {[ 1%nat := VexThreadState.setThreadCurrentlyControllingManager (Some 0%nat)
                  (setRunning (new_VexThreadState 0 1)) ]}
    [] (ThreadRegistry.new_ThreadRegistry 2 false) ∅ (VirtualTimeline.VirtualTimeline.mkTimeline 0 0) false 0 None.

Lemma signalled_thread_answers_witness :
  exists o w', onSignalledFromScheduler 0 f32_one false counters (mkReadings 50 60 []) 1 one_running = Ok (o, w') /\
    answered (thread_of 1 one_running) o (thread_of 1 w').
Proof.
  destruct (signalled_thread_answers 0 f32_one false counters (mkReadings 50 60 []) 1 one_running)
    as (o&w'&Ho&Ha&_).
  - intros Hk. vm_compute in Hk. discriminate Hk.
  - by vm_compute.
  - by vm_compute.
  - exists o, w'. split; [exact Ho|exact Ha].
Defined.

End SignalHandler.
