(* ===== verification/MethodLog.v ===== *)
(** * Method log and profile

    The call stack of a thread with the times of its frames
    (src/src/vex/threads/MethodLog, profiler/MethodCallInfo), what is measured
    per method (profiler/PerformanceMeasure) and the entry into and exit from
    profiled methods (threads/ThreadState.cpp).  A [MethodCallInfo] lives in
    the pool of its log and is named by its index there, so that a frame, the
    current method and the caller may be the same record. *)
From Stdlib Require Import String SpecFloat Sorted.
From S2P Require Import Prelude CxxFloat Timers.

(** ** MethodCallInfo *)
Module MethodCallInfo.

(** The last field is that of the subclass [StackTraceInfo], a pointer into the
    tree of measures; [methodData], [method_trace_ptr] and [callingMethod] are never used. *)
Record MethodCallInfo := mkMethodCallInfo {
  methodId : Z;
  entry_timestamp : Z;
  real_entry_timestamp : Z;
  callee_time : Z;
  real_callee_time : Z;
  maximumPredictedVT : Z;
  maximumEstimatedRealTime : Z;
  monitor_waiting_timestamp : Z;
  io_waiting_timestamp : Z;
  callee_monitor_waiting_timestamp : Z;
  callee_io_waiting_timestamp : Z;
  lost_time : Z;
  lost_time_callee : Z;
  shouldResetVTFactor : bool;
  recursive : bool;
  correspondingStackTraceMeasure : option nat;
}.

Definition setInfo (_methodId virtualTime estimatedRealTime monitorWaitingTime ioWaitingTime : Z)
    (c : MethodCallInfo) : MethodCallInfo :=
  mkMethodCallInfo _methodId virtualTime estimatedRealTime 0 0 0 0
    monitorWaitingTime ioWaitingTime 0 0 0 0 false false c.(correspondingStackTraceMeasure).

(** The bytes of an object before its constructor are never read. *)
Definition blank : MethodCallInfo :=
  mkMethodCallInfo 0 0 0 0 0 0 0 0 0 0 0 0 0 false false None.
#[export] Instance MethodCallInfo_inhabited : Inhabited MethodCallInfo := populate blank.

Definition new_MethodCallInfo (_methodId virtualTime estimatedRealTime monitorWaitingTime ioWaitingTime : Z) : MethodCallInfo :=
  setInfo _methodId virtualTime estimatedRealTime monitorWaitingTime ioWaitingTime blank.

(** [StackTraceInfo::setInfo]. *)
Definition setStackTraceInfo (_methodId virtualTime estimatedRealTime monitorWaitingTime ioWaitingTime : Z)
    (_correspondingStackTraceMeasure : option nat) (c : MethodCallInfo) : MethodCallInfo :=
  let c := setInfo _methodId virtualTime estimatedRealTime monitorWaitingTime ioWaitingTime c in
  mkMethodCallInfo c.(methodId) c.(entry_timestamp) c.(real_entry_timestamp) c.(callee_time)
    c.(real_callee_time) c.(maximumPredictedVT) c.(maximumEstimatedRealTime)
    c.(monitor_waiting_timestamp) c.(io_waiting_timestamp) c.(callee_monitor_waiting_timestamp)
    c.(callee_io_waiting_timestamp) c.(lost_time) c.(lost_time_callee) c.(shouldResetVTFactor)
    c.(recursive) _correspondingStackTraceMeasure.

Definition setShouldResetVTFactor (value : bool) (c : MethodCallInfo) : MethodCallInfo :=
  mkMethodCallInfo c.(methodId) c.(entry_timestamp) c.(real_entry_timestamp) c.(callee_time)
    c.(real_callee_time) c.(maximumPredictedVT) c.(maximumEstimatedRealTime)
    c.(monitor_waiting_timestamp) c.(io_waiting_timestamp) c.(callee_monitor_waiting_timestamp)
    c.(callee_io_waiting_timestamp) c.(lost_time) c.(lost_time_callee) value
    c.(recursive) c.(correspondingStackTraceMeasure).

Definition setRecursive (c : MethodCallInfo) : MethodCallInfo :=
  mkMethodCallInfo c.(methodId) c.(entry_timestamp) c.(real_entry_timestamp) c.(callee_time)
    c.(real_callee_time) c.(maximumPredictedVT) c.(maximumEstimatedRealTime)
    c.(monitor_waiting_timestamp) c.(io_waiting_timestamp) c.(callee_monitor_waiting_timestamp)
    c.(callee_io_waiting_timestamp) c.(lost_time) c.(lost_time_callee) c.(shouldResetVTFactor)
    true c.(correspondingStackTraceMeasure).

Definition getTime (c : MethodCallInfo) : Z := c.(entry_timestamp) -ll c.(lost_time).
Definition getRealTime (c : MethodCallInfo) : Z := c.(real_entry_timestamp) -ll c.(lost_time).
Definition getTotalLostTime (c : MethodCallInfo) : Z := c.(lost_time) +ll c.(lost_time_callee).

(** The third argument, the time lost by the callee, is not used. *)
Definition updateCalleeTime (diff real_diff callee_lost_time callee_monitor_wait callee_io_wait : Z)
    (c : MethodCallInfo) : MethodCallInfo :=
  mkMethodCallInfo c.(methodId) c.(entry_timestamp) c.(real_entry_timestamp)
    (c.(callee_time) +ll diff) (c.(real_callee_time) +ll real_diff)
    c.(maximumPredictedVT) c.(maximumEstimatedRealTime)
    c.(monitor_waiting_timestamp) c.(io_waiting_timestamp)
    (c.(callee_monitor_waiting_timestamp) +ll callee_monitor_wait)
    (c.(callee_io_waiting_timestamp) +ll callee_io_wait)
    c.(lost_time) c.(lost_time_callee) c.(shouldResetVTFactor) c.(recursive)
    c.(correspondingStackTraceMeasure).

Definition getInclusiveCpuTimeDifferenceFrom (start c : MethodCallInfo) : Z :=
  c.(entry_timestamp) -ll start.(entry_timestamp).
Definition getInclusiveRealTimeDifferenceFrom (start c : MethodCallInfo) : Z :=
  c.(real_entry_timestamp) -ll start.(real_entry_timestamp).
Definition getInclusiveMonitorWaitDifferenceFrom (start c : MethodCallInfo) : Z :=
  c.(monitor_waiting_timestamp) -ll start.(monitor_waiting_timestamp).
Definition getInclusiveIoWaitDifferenceFrom (start c : MethodCallInfo) : Z :=
  c.(io_waiting_timestamp) -ll start.(io_waiting_timestamp).

End MethodCallInfo.
Export (hints) MethodCallInfo.

(** ** PerformanceMeasure

    With the storage that every measure is given, [NoSampleStorage], which only
    counts.  The pointers to the calling method and to the submethods are in
    [StackTraces]. *)
Module PerformanceMeasure.

Record PerformanceMeasure := mkPerformanceMeasure {
  methodName : option string;
  methodId : Z;
  samples : Z;
  cpuTimeExcludingCalleeMethods : Z;
  estimatedRealTimeExcludingCalleeMethods : Z;
  cpuTimeIncludingCalleeMethods : Z;
  estimatedRealTimeIncludingCalleeMethods : Z;
  monitorWaitExcludingCalleeMethods : Z;
  ioWaitExcludingCalleeMethods : Z;
  monitorWaitIncludingCalleeMethods : Z;
  ioWaitIncludingCalleeMethods : Z;
  callee_time : Z;
  callee_lost_time : Z;
  lost_time : Z;
  recursive : bool;
  alreadyAdapted : bool;
}.

Definition new_PerformanceMeasure (_methodId : Z) : PerformanceMeasure :=
  mkPerformanceMeasure None _methodId 0 0 0 0 0 0 0 0 0 0 0 0 false false.

Definition add (virtual_value real_value sample_cpuTimeIncludingCalleeMethods
    sample_estimatedRealTimeIncludingCalleeMethods monWait ioWait incl_monWait incl_ioWait : Z)
    (p : PerformanceMeasure) : PerformanceMeasure :=
  mkPerformanceMeasure p.(methodName) p.(methodId) (uint_add p.(samples) 1)
    (p.(cpuTimeExcludingCalleeMethods) +ll virtual_value)
    (p.(estimatedRealTimeExcludingCalleeMethods) +ll real_value)
    (p.(cpuTimeIncludingCalleeMethods) +ll sample_cpuTimeIncludingCalleeMethods)
    (p.(estimatedRealTimeIncludingCalleeMethods) +ll sample_estimatedRealTimeIncludingCalleeMethods)
    (p.(monitorWaitExcludingCalleeMethods) +ll monWait)
    (p.(ioWaitExcludingCalleeMethods) +ll ioWait)
    (p.(monitorWaitIncludingCalleeMethods) +ll incl_monWait)
    (p.(ioWaitIncludingCalleeMethods) +ll incl_ioWait)
    p.(callee_time) p.(callee_lost_time) p.(lost_time) p.(recursive) p.(alreadyAdapted).

Definition moreInfo (_callee_time _callee_lost _lost_time : Z) (p : PerformanceMeasure) : PerformanceMeasure :=
  mkPerformanceMeasure p.(methodName) p.(methodId) p.(samples)
    p.(cpuTimeExcludingCalleeMethods) p.(estimatedRealTimeExcludingCalleeMethods)
    p.(cpuTimeIncludingCalleeMethods) p.(estimatedRealTimeIncludingCalleeMethods)
    p.(monitorWaitExcludingCalleeMethods) p.(ioWaitExcludingCalleeMethods)
    p.(monitorWaitIncludingCalleeMethods) p.(ioWaitIncludingCalleeMethods)
    (p.(callee_time) +ll _callee_time) (p.(callee_lost_time) +ll _callee_lost)
    (p.(lost_time) +ll _lost_time) p.(recursive) p.(alreadyAdapted).

(** [operator+=] leaves the waiting times and those of [moreInfo] alone. *)
Definition plus_assign (pm p : PerformanceMeasure) : PerformanceMeasure :=
  mkPerformanceMeasure
    (match p.(methodName), pm.(methodName) with None, Some n => Some n | n, _ => n end)
    p.(methodId) (uint_add p.(samples) pm.(samples))
    (p.(cpuTimeExcludingCalleeMethods) +ll pm.(cpuTimeExcludingCalleeMethods))
    (p.(estimatedRealTimeExcludingCalleeMethods) +ll pm.(estimatedRealTimeExcludingCalleeMethods))
    (p.(cpuTimeIncludingCalleeMethods) +ll pm.(cpuTimeIncludingCalleeMethods))
    (p.(estimatedRealTimeIncludingCalleeMethods) +ll pm.(estimatedRealTimeIncludingCalleeMethods))
    p.(monitorWaitExcludingCalleeMethods) p.(ioWaitExcludingCalleeMethods)
    p.(monitorWaitIncludingCalleeMethods) p.(ioWaitIncludingCalleeMethods)
    p.(callee_time) p.(callee_lost_time) p.(lost_time) p.(recursive) p.(alreadyAdapted).

Definition getMethodInvocations (p : PerformanceMeasure) : Z := p.(samples).

Definition getMean (metric : Z) (p : PerformanceMeasure) : float :=
  if metric =? 0 then f64 0 0
  else SFdiv 53 1024 (ll_to_f64 metric) (ll_to_f64 p.(samples)).
Definition getMeanERT (p : PerformanceMeasure) : float :=
  getMean p.(estimatedRealTimeIncludingCalleeMethods) p.

Definition INSTRUMENTATION_OVERHEAD_PROFILING_METHOD_ID : Z := 50.
Definition isTheInstrumentationProfilingMethod (p : PerformanceMeasure) : bool :=
  p.(methodId) =? INSTRUMENTATION_OVERHEAD_PROFILING_METHOD_ID.

Definition setMethodId (_methodId : Z) (p : PerformanceMeasure) : PerformanceMeasure :=
  mkPerformanceMeasure p.(methodName) _methodId p.(samples)
    p.(cpuTimeExcludingCalleeMethods) p.(estimatedRealTimeExcludingCalleeMethods)
    p.(cpuTimeIncludingCalleeMethods) p.(estimatedRealTimeIncludingCalleeMethods)
    p.(monitorWaitExcludingCalleeMethods) p.(ioWaitExcludingCalleeMethods)
    p.(monitorWaitIncludingCalleeMethods) p.(ioWaitIncludingCalleeMethods)
    p.(callee_time) p.(callee_lost_time) p.(lost_time) p.(recursive) p.(alreadyAdapted).

Definition setMethodName (_methodName : string) (p : PerformanceMeasure) : PerformanceMeasure :=
  mkPerformanceMeasure (Some _methodName) p.(methodId) p.(samples)
    p.(cpuTimeExcludingCalleeMethods) p.(estimatedRealTimeExcludingCalleeMethods)
    p.(cpuTimeIncludingCalleeMethods) p.(estimatedRealTimeIncludingCalleeMethods)
    p.(monitorWaitExcludingCalleeMethods) p.(ioWaitExcludingCalleeMethods)
    p.(monitorWaitIncludingCalleeMethods) p.(ioWaitIncludingCalleeMethods)
    p.(callee_time) p.(callee_lost_time) p.(lost_time) p.(recursive) p.(alreadyAdapted).

End PerformanceMeasure.

(** [MethodCallInfo::logTimesOnMethodExit] on the records of a pool: the frame
    [entry] is read after the caller has been charged.  The result is the pool
    and what happens to the measure. *)
Section exit.
Import MethodCallInfo.

Definition logTimesOnMethodExit (exiting : MethodCallInfo) (entry : nat) (calling : option nat)
    (pool : list MethodCallInfo) : list MethodCallInfo * (PerformanceMeasure.PerformanceMeasure -> PerformanceMeasure.PerformanceMeasure) :=
  let entryCallinfo := nthd pool entry in
  let methodCpuTimeIncludingCallee := getInclusiveCpuTimeDifferenceFrom entryCallinfo exiting in
  let methodEstimatedRealTimeIncludingCallee := getInclusiveRealTimeDifferenceFrom entryCallinfo exiting in
  let monitorWaitingTimeIncludingCallee := getInclusiveMonitorWaitDifferenceFrom entryCallinfo exiting in
  let ioWaitingTimeIncludingCallee := getInclusiveIoWaitDifferenceFrom entryCallinfo exiting in
  let pool := match calling with
    | Some c => alter (updateCalleeTime methodCpuTimeIncludingCallee methodEstimatedRealTimeIncludingCallee 0
                  monitorWaitingTimeIncludingCallee ioWaitingTimeIncludingCallee) c pool
    | None => pool
    end in
  let entryCallinfo := nthd pool entry in
  (pool, fun measure =>
    let measure := PerformanceMeasure.add
      (methodCpuTimeIncludingCallee -ll entryCallinfo.(callee_time))
      (methodEstimatedRealTimeIncludingCallee -ll entryCallinfo.(real_callee_time))
      methodCpuTimeIncludingCallee methodEstimatedRealTimeIncludingCallee
      (monitorWaitingTimeIncludingCallee -ll entryCallinfo.(callee_monitor_waiting_timestamp))
      (ioWaitingTimeIncludingCallee -ll entryCallinfo.(callee_io_waiting_timestamp))
      monitorWaitingTimeIncludingCallee ioWaitingTimeIncludingCallee measure in
    PerformanceMeasure.moreInfo entryCallinfo.(callee_time) 0 0 measure).

End exit.

(** ** MethodLog *)
Module MethodLog.
Import MethodCallInfo.

(** The stack, which is created when it is first used, has its top in front. *)
Record MethodLog := mkMethodLog {
  currentMethodInfo : option nat;
  exitingMethodInfo : MethodCallInfo;
  methodInfoStorage : list MethodCallInfo;
  nextMethodInfoToUse : Z;
  methodStack : list nat;
}.

Definition new_MethodLog : MethodLog := mkMethodLog None (new_MethodCallInfo 0 0 0 0 0) [] 0 [].

Definition setCurrentMethodInfo (m : option nat) (l : MethodLog) : MethodLog :=
  mkMethodLog m l.(exitingMethodInfo) l.(methodInfoStorage) l.(nextMethodInfoToUse) l.(methodStack).
Definition set_exitingMethodInfo (c : MethodCallInfo) (l : MethodLog) : MethodLog :=
  mkMethodLog l.(currentMethodInfo) c l.(methodInfoStorage) l.(nextMethodInfoToUse) l.(methodStack).
Definition set_methodInfoStorage (p : list MethodCallInfo) (l : MethodLog) : MethodLog :=
  mkMethodLog l.(currentMethodInfo) l.(exitingMethodInfo) p l.(nextMethodInfoToUse) l.(methodStack).
Definition set_nextMethodInfoToUse (n : Z) (l : MethodLog) : MethodLog :=
  mkMethodLog l.(currentMethodInfo) l.(exitingMethodInfo) l.(methodInfoStorage) n l.(methodStack).
Definition set_methodStack (k : list nat) (l : MethodLog) : MethodLog :=
  mkMethodLog l.(currentMethodInfo) l.(exitingMethodInfo) l.(methodInfoStorage) l.(nextMethodInfoToUse) k.

Definition decreaseNextMethodInfoToUse (l : MethodLog) : MethodLog :=
  set_nextMethodInfoToUse (uint_sub l.(nextMethodInfoToUse) 1) l.
Definition increaseNextMethodInfoToUse (l : MethodLog) : MethodLog :=
  set_nextMethodInfoToUse (uint_add l.(nextMethodInfoToUse) 1) l.

Definition pushMethodEntryEventIntoThreadMethodStack (callinfo : nat) (l : MethodLog) : MethodLog :=
  setCurrentMethodInfo (Some callinfo) (set_methodStack (callinfo :: l.(methodStack)) l).

Definition getCurrentMethodId (l : MethodLog) : Z :=
  match l.(currentMethodInfo) with
  | Some i => (nthd l.(methodInfoStorage) i).(methodId)
  | None => 0
  end.

(** The record a new frame is written to, by [info], and what the log is then:
    the next free one of the pool, or a new one at its end. *)
Definition takeMethodCallInfo (info : MethodCallInfo -> MethodCallInfo) (l : MethodLog) : nat * MethodLog :=
  let size := length l.(methodInfoStorage) in
  let '(i, l) :=
    if l.(nextMethodInfoToUse) <? Z.of_nat size
    then let i := Z.to_nat l.(nextMethodInfoToUse) in
         (i, set_methodInfoStorage (alter info i l.(methodInfoStorage)) l)
    else (size, set_methodInfoStorage (l.(methodInfoStorage) ++ [info blank]) l) in
  (i, increaseNextMethodInfoToUse l).

End MethodLog.
Export MethodLog.

(** ** Entry and exit of a method

    [VexThreadState] on its log and its measures.  What a thread measures into
    is behind two virtual methods, which [StackTraceThreadState] replaces. *)
Module Profiling.
Import MethodCallInfo.

Class ThreadMeasures (P : Type) := {
  pointer : Type;
  getNextMethodCallInfo : Z -> Timers.Timers -> MethodLog * P -> nat * (MethodLog * P);
  getExitingMethodPerformanceMeasure : MethodLog * P -> res (pointer * P);
  at_pointer : pointer -> (PerformanceMeasure.PerformanceMeasure -> PerformanceMeasure.PerformanceMeasure) -> P -> P;
}.
Arguments pointer P {_}.

(** [Timers::updateExitingMethodInfo]. *)
Definition updateExitingMethodInfo (methodId : Z) (t : Timers.Timers) (l : MethodLog) : MethodLog :=
  set_exitingMethodInfo (setInfo methodId t.(Timers.virtualTime) t.(Timers.estimatedRealTime)
    t.(Timers.monitorWaitingTime) t.(Timers.ioWaitingTime) l.(exitingMethodInfo)) l.

Section handlers.
Context `{ThreadMeasures P}.
Implicit Type s : MethodLog * P.

(** Returns whether the method is recursive. *)
Definition logMethodEntry (methodId : Z) (shouldChangeVTFactorOnExit : bool) (t : Timers.Timers) s : bool * (MethodLog * P) :=
  let '(callinfo, (l, p)) := getNextMethodCallInfo methodId t s in
  let l := set_methodInfoStorage (alter (setShouldResetVTFactor shouldChangeVTFactorOnExit) callinfo l.(methodInfoStorage)) l in
  let l := pushMethodEntryEventIntoThreadMethodStack callinfo l in
  ((nthd l.(methodInfoStorage) callinfo).(recursive), (l, p)).

(** The calls of [logMethodExit], which pops one frame and calls itself until
    the frame is that of the method. *)
Fixpoint exitFrom (threadStack : list nat) s : res (option (pointer P) * (MethodLog * P)) :=
  let l := set_methodStack threadStack s.1 in
  match threadStack with
  | [] => Ok (None, (setCurrentMethodInfo None l, s.2))
  | entryCallinfo :: rest =>
    if (nthd l.(methodInfoStorage) entryCallinfo).(methodId) =? l.(exitingMethodInfo).(methodId) then
      let l := set_methodStack rest l in
      let callingMethodInfo := head rest in
      '(measure, p) ← getExitingMethodPerformanceMeasure (l, s.2);
      let '(pool, sample) := logTimesOnMethodExit l.(exitingMethodInfo) entryCallinfo callingMethodInfo l.(methodInfoStorage) in
      let p := at_pointer measure sample p in
      let l := setCurrentMethodInfo callingMethodInfo (set_methodInfoStorage pool l) in
      Ok (Some measure, (decreaseNextMethodInfoToUse l, p))
    else exitFrom rest s
  end.

Definition logMethodExit s : res (option (pointer P) * (MethodLog * P)) := exitFrom s.1.(methodStack) s.

(** What a thread reports: it enters a method, or it leaves one, at the times
    of its timers. *)
Inductive event := Entry (methodId : Z) (resets : bool) (t : Timers.Timers) | Exit (methodId : Z) (t : Timers.Timers).

Definition on_event (e : event) s : res (MethodLog * P) :=
  match e with
  | Entry methodId resets t => Ok (logMethodEntry methodId resets t s).2
  | Exit methodId t => '(_, s) ← logMethodExit (updateExitingMethodInfo methodId t s.1, s.2); Ok s
  end.

Fixpoint run (es : list event) s : res (MethodLog * P) :=
  match es with [] => Ok s | e :: es => on_event e s ≫= run es end.

End handlers.
End Profiling.

(** ** Measures per method

    What [VexThreadState] itself measures: a map from the methods to their measures. *)
Module MethodMeasures.
Import MethodCallInfo Profiling.

Abbreviation Measures := (gmap Z PerformanceMeasure.PerformanceMeasure).

Definition getNextMethodCallInfo (methodId : Z) (t : Timers.Timers) (s : MethodLog * Measures) : nat * (MethodLog * Measures) :=
  let '(callinfo, l) := takeMethodCallInfo (setInfo methodId t.(Timers.virtualTime) t.(Timers.estimatedRealTime)
    t.(Timers.monitorWaitingTime) t.(Timers.ioWaitingTime)) s.1 in
  (callinfo, (l, s.2)).

Definition getExitingMethodPerformanceMeasure (s : MethodLog * Measures) : res (Z * Measures) :=
  let methodId := s.1.(exitingMethodInfo).(methodId) in
  match s.2 !! methodId with
  | Some _ => Ok (methodId, s.2)
  | None => Ok (methodId, <[methodId := PerformanceMeasure.new_PerformanceMeasure methodId]> s.2)
  end.

#[export] Instance methodMeasures : ThreadMeasures Measures := {|
  pointer := Z;
  Profiling.getNextMethodCallInfo := getNextMethodCallInfo;
  Profiling.getExitingMethodPerformanceMeasure := getExitingMethodPerformanceMeasure;
  at_pointer := fun k f m => alter f k m;
|}.

End MethodMeasures.

(** ** The pool of frames

    What a subclass may do when a method is entered: take a record of the pool
    for a frame that starts at the times of the timers. *)
Section pool.
Import MethodCallInfo Profiling.

Inductive clock := Cpu | Ert | Monitor | Io.

Definition reading (k : clock) (t : Timers.Timers) : Z :=
  match k with
  | Cpu => t.(Timers.virtualTime) | Ert => t.(Timers.estimatedRealTime)
  | Monitor => t.(Timers.monitorWaitingTime) | Io => t.(Timers.ioWaitingTime)
  end.
Definition entered (k : clock) (c : MethodCallInfo) : Z :=
  match k with
  | Cpu => c.(entry_timestamp) | Ert => c.(real_entry_timestamp)
  | Monitor => c.(monitor_waiting_timestamp) | Io => c.(io_waiting_timestamp)
  end.
Definition callees (k : clock) (c : MethodCallInfo) : Z :=
  match k with
  | Cpu => c.(callee_time) | Ert => c.(real_callee_time)
  | Monitor => c.(callee_monitor_waiting_timestamp) | Io => c.(callee_io_waiting_timestamp)
  end.

Definition is_frame (id : Z) (t : Timers.Timers) (c : MethodCallInfo) : Prop :=
  c.(methodId) = id /\ forall k, entered k c = reading k t /\ callees k c = 0.

Class TakesFrames (P : Type) `{ThreadMeasures P} := {
  takes_frame id t l p : exists info p',
    getNextMethodCallInfo id t (l, p) =
      ((takeMethodCallInfo info l).1, ((takeMethodCallInfo info l).2, p')) /\
    forall c, is_frame id t (info c)
}.

(** The frames of the stack are distinct records of the pool, the top last, and
    the next entry writes behind them. *)
Record pool_ok (l : MethodLog) : Prop := {
  pool_descends : StronglySorted gt l.(methodStack);
  pool_below : Forall (fun i => Z.of_nat i < l.(nextMethodInfoToUse)) l.(methodStack);
  pool_next : 0 <= l.(nextMethodInfoToUse) <= Z.of_nat (length l.(methodInfoStorage));
  pool_width : l.(nextMethodInfoToUse) < 2 ^ 32;
  pool_current : l.(currentMethodInfo) = head l.(methodStack);
}.

Lemma new_pool_ok : pool_ok new_MethodLog.
Proof. split; cbn; [constructor | constructor | lia | lia | done]. Qed.

Lemma take_at info l : pool_ok l ->
  let i := Z.to_nat l.(nextMethodInfoToUse) in
  (takeMethodCallInfo info l).1 = i /\
  (takeMethodCallInfo info l).2.(methodStack) = l.(methodStack) /\
  (takeMethodCallInfo info l).2.(currentMethodInfo) = l.(currentMethodInfo) /\
  (takeMethodCallInfo info l).2.(exitingMethodInfo) = l.(exitingMethodInfo) /\
  (takeMethodCallInfo info l).2.(nextMethodInfoToUse) = uint_add l.(nextMethodInfoToUse) 1 /\
  (i < length (takeMethodCallInfo info l).2.(methodInfoStorage))%nat /\
  (length l.(methodInfoStorage) <= length (takeMethodCallInfo info l).2.(methodInfoStorage) <= S (length l.(methodInfoStorage)))%nat /\
  (exists c, nthd (takeMethodCallInfo info l).2.(methodInfoStorage) i = info c) /\
  forall j, (j < i)%nat -> nthd (takeMethodCallInfo info l).2.(methodInfoStorage) j = nthd l.(methodInfoStorage) j.
Proof.
  intros [_ _ Hn _ _] i. unfold takeMethodCallInfo. destruct (Z.ltb_spec (nextMethodInfoToUse l) (Z.of_nat (length (methodInfoStorage l)))).
  - cbn. rewrite length_alter. repeat split; try done; try (subst i; lia).
    + destruct (lookup_lt_is_Some_2 (methodInfoStorage l) i ltac:(subst i; lia)) as [c Hc].
      exists c. unfold nthd. rewrite list_lookup_alter_eq. subst i. by rewrite Hc.
    + intros j Hj. unfold nthd. rewrite list_lookup_alter_ne; [done | subst i; lia].
  - assert (i = length (methodInfoStorage l)) as Hi by (subst i; lia).
    cbn. rewrite length_app. cbn. repeat split; try done; try lia.
    + exists blank. unfold nthd. rewrite Hi. by rewrite lookup_app_r, Nat.sub_diag by lia.
    + intros j Hj. unfold nthd. rewrite lookup_app_l by lia. done.
Qed.

Lemma alter_frame resets id t c : is_frame id t c -> is_frame id t (setShouldResetVTFactor resets c).
Proof. intros [Hi Hk]. split; [done|]. intros k. specialize (Hk k). by destruct k. Qed.

Section entry.
Context `{TakesFrames P}.
Implicit Types (l : MethodLog) (p : P).

(** An entry puts a frame in the next record and leaves those of the stack alone. *)
Lemma entry_spec id resets t l p : pool_ok l -> l.(nextMethodInfoToUse) < 2 ^ 32 - 1 ->
  let i := Z.to_nat l.(nextMethodInfoToUse) in
  exists l' p', (logMethodEntry id resets t (l, p)).2 = (l', p') /\ pool_ok l' /\
    l'.(methodStack) = i :: l.(methodStack) /\
    l'.(nextMethodInfoToUse) = l.(nextMethodInfoToUse) + 1 /\
    (length l'.(methodInfoStorage) <= S (length l.(methodInfoStorage)))%nat /\
    is_frame id t (nthd l'.(methodInfoStorage) i) /\
    forall j, (j < i)%nat -> nthd l'.(methodInfoStorage) j = nthd l.(methodInfoStorage) j.
Proof.
  intros Hok Hlt i. unfold logMethodEntry. destruct (takes_frame id t l p) as (info & p' & -> & Hinfo).
  destruct (take_at info l Hok) as (H1 & H2 & H3 & H4 & H5 & H6 & H7 & [c H8] & H9).
  destruct (takeMethodCallInfo info l) as [i' l1]. cbn in *. fold i in H1, H6, H8, H9. subst i'.
  pose proof (pool_next l Hok) as Hn. rewrite uint_add_exact in H5 by lia.
  eexists _, p'. split; [done|]. split; [split; cbn; rewrite ?length_alter, ?H2, ?H5|].
  - constructor; [apply (pool_descends l Hok)|].
    eapply Forall_impl; [apply (pool_below l Hok)|]. cbn. intros j Hj. subst i. lia.
  - constructor; [subst i; lia|].
    eapply Forall_impl; [apply (pool_below l Hok)|]. cbn. intros j Hj. lia.
  - subst i. lia.
  - lia.
  - done.
  - cbn. rewrite length_alter, H2, H5. split_and!; [done..| lia | |].
    + rewrite nthd_alter by done. rewrite decide_True, H8 by done. by apply alter_frame.
    + intros j Hj. rewrite nthd_alter by done. rewrite decide_False by lia. by apply H9.
Qed.

Lemma length_charged exiting e calling pool :
  length (logTimesOnMethodExit exiting e calling pool).1 = length pool.
Proof. unfold logTimesOnMethodExit. cbn. case_match; [apply length_alter | done]. Qed.

(** The log after the exit from the frame [e], when [st] is below it. *)
Definition exited (e : nat) (st : list nat) (l : MethodLog) : MethodLog :=
  decreaseNextMethodInfoToUse (setCurrentMethodInfo (head st) (set_methodInfoStorage
    (logTimesOnMethodExit l.(exitingMethodInfo) e (head st) l.(methodInfoStorage)).1 (set_methodStack st l))).

Lemma exitFrom_match e st l p :
  (nthd l.(methodInfoStorage) e).(methodId) = l.(exitingMethodInfo).(methodId) ->
  exitFrom (e :: st) (l, p) =
    '(k, p') ← getExitingMethodPerformanceMeasure (set_methodStack st l, p);
    Ok (Some k, (exited e st l, at_pointer k
      (logTimesOnMethodExit l.(exitingMethodInfo) e (head st) l.(methodInfoStorage)).2 p')).
Proof.
  intros He. cbn -[logTimesOnMethodExit]. rewrite (proj2 (Z.eqb_eq _ _) He).
  unfold exited. by destruct (logTimesOnMethodExit _ _ _ _).
Qed.

Lemma exitFrom_other e st l p :
  (nthd l.(methodInfoStorage) e).(methodId) <> l.(exitingMethodInfo).(methodId) ->
  exitFrom (e :: st) (l, p) = exitFrom st (l, p).
Proof. intros He. cbn. by rewrite (proj2 (Z.eqb_neq _ _) He). Qed.

Lemma exited_pool e st l :
  pool_ok (setCurrentMethodInfo (Some e) (set_methodStack (e :: st) l)) -> pool_ok (exited e st l).
Proof.
  intros [Hd Hb Hn Hw _]; cbn in *. inversion Hd as [|?? Hd' Hgt]; subst.
  inversion Hb as [|?? He Hb']; subst. rewrite Forall_forall in Hgt.
  split; cbn -[logTimesOnMethodExit]; rewrite ?uint_sub_exact, ?length_charged by lia; try done; try lia.
  apply Forall_forall. intros j Hj. specialize (Hgt j Hj). lia.
Qed.

(** An exit keeps the pool, whatever it pops and wherever it measures. *)
Lemma exit_pool st l p m l' p' :
  exitFrom st (l, p) = Ok (m, (l', p')) ->
  pool_ok (setCurrentMethodInfo (head st) (set_methodStack st l)) ->
  pool_ok l' /\ length l'.(methodInfoStorage) = length l.(methodInfoStorage).
Proof.
  revert m l' p'. induction st as [|e st IH]; intros m l' p' Hrun Hok.
  - cbn in Hrun. simplify_eq. by split.
  - destruct (decide ((nthd l.(methodInfoStorage) e).(methodId) = l.(exitingMethodInfo).(methodId))) as [He|He].
    + rewrite exitFrom_match in Hrun by done. apply bind_ok in Hrun as ([k p1] & _ & Hrun).
      injection Hrun as <- <- <-. split; [by apply exited_pool | apply length_charged].
    + rewrite exitFrom_other in Hrun by done. apply IH in Hrun; [done|].
      destruct Hok as [Hd Hb Hn Hw _]; cbn in *. inversion Hd. inversion Hb. by split.
Qed.

(** Over every run, matched or not, the frames of the stack stay apart. *)
Lemma run_pool es : forall l p l' p', pool_ok l ->
  Z.of_nat (length l.(methodInfoStorage) + length es) < 2 ^ 32 ->
  run es (l, p) = Ok (l', p') -> pool_ok l'.
Proof.
  induction es as [|e es IH]; intros l p l' p' Hok Hn Hrun; cbn in Hn.
  - injection Hrun as <- <-. done.
  - cbn [run] in Hrun. apply bind_ok in Hrun as ([l1 p1] & He & Hrun).
    assert (pool_ok l1 /\ (length l1.(methodInfoStorage) <= S (length l.(methodInfoStorage)))%nat) as [Hok1 Hlen].
    { destruct e as [id resets t|id t].
      - pose proof (pool_next l Hok).
        destruct (entry_spec id resets t l p Hok ltac:(lia)) as (l2 & p2 & Heq & Hok2 & _ & _ & Hlen & _).
        cbn [on_event] in He. rewrite Heq in He. by injection He as <- <-.
      - apply bind_ok in He as ([m [l2 p2]] & He & Heq). injection Heq as -> ->.
        apply exit_pool in He as [Hok2 Hlen]; [|by destruct Hok; split].
        split; [done|]. rewrite Hlen. cbn. lia. }
    eapply IH; [done | | done]. lia.
Qed.

Lemma run_app es fs s : run (es ++ fs) s = run es s ≫= run fs.
Proof.
  revert s. induction es as [|e es IH]; intros s; [done|]. cbn [run app].
  destruct (on_event e s); [apply IH | done].
Qed.

End entry.
End pool.

(** ** What is measured

    The calls of a thread form a tree.  [durations] is the profile such a tree
    should give, with no log and no stack: the time of a call is the difference
    of the readings at its ends, its own time that less the times of its callees. *)
Section profile.
Import MethodCallInfo Profiling MethodMeasures.

Inductive call := Call (methodId : Z) (resets : bool) (enter : Timers.Timers) (body : list call) (leave : Timers.Timers).

Definition inclusive (c : call) (k : clock) : Z :=
  let 'Call _ _ t _ t' := c in reading k t' -ll reading k t.
Definition of_callees (body : list call) (k : clock) : Z := ll_sum (map (fun c => inclusive c k) body).

(** A sample: the method, the times with and the times of its callees. *)
Definition sample : Type := Z * (clock -> Z) * (clock -> Z).

Fixpoint durations (c : call) : list sample :=
  let 'Call id _ _ body _ := c in
  concat (map durations body) ++ [(id, inclusive c, of_callees body)].

Definition measured (incl own : clock -> Z) (p : PerformanceMeasure.PerformanceMeasure) : PerformanceMeasure.PerformanceMeasure :=
  PerformanceMeasure.moreInfo (own Cpu) 0 0
    (PerformanceMeasure.add (incl Cpu -ll own Cpu) (incl Ert -ll own Ert) (incl Cpu) (incl Ert)
       (incl Monitor -ll own Monitor) (incl Io -ll own Io) (incl Monitor) (incl Io) p).

Definition record_sample (m : Measures) (s : sample) : Measures :=
  let '(id, incl, own) := s in
  <[id := measured incl own (default (PerformanceMeasure.new_PerformanceMeasure id) (m !! id))]> m.

(** What the thread reports of a tree. *)
Fixpoint events (c : call) : list event :=
  let 'Call id resets t body t' := c in
  Entry id resets t :: concat (map events body) ++ [Exit id t'].

Fixpoint height (c : call) : Z := let 'Call _ _ _ body _ := c in 1 + foldr Z.max 0 (map height body).

Lemma call_induction (Q : call -> Prop) :
  (forall id resets t body t', Forall Q body -> Q (Call id resets t body t')) -> forall c, Q c.
Proof.
  intros H. fix IH 1. intros [id resets t body t']. apply H.
  induction body as [|c body IHb]; constructor; [apply IH | apply IHb].
Qed.

#[export] Instance method_measures_take : TakesFrames Measures.
Proof.
  constructor. intros id t l p.
  exists (setInfo id t.(Timers.virtualTime) t.(Timers.estimatedRealTime)
    t.(Timers.monitorWaitingTime) t.(Timers.ioWaitingTime)), p. split.
  - cbn. unfold getNextMethodCallInfo. cbn. by destruct (takeMethodCallInfo _ l).
  - intros c. split; [done|]. intros k. by destruct k.
Qed.

(** What callees leave in the frame of their caller. *)
Definition charge (c : MethodCallInfo) (d : clock -> Z) : MethodCallInfo :=
  updateCalleeTime (d Cpu) (d Ert) 0 (d Monitor) (d Io) c.

Lemma charge_all ds : forall c,
  (foldl charge c ds).(methodId) = c.(methodId) /\
  (forall k, entered k (foldl charge c ds) = entered k c) /\
  (forall k, callees k (foldl charge c ds) = foldl ll_add (callees k c) (map (fun d => d k) ds)).
Proof.
  induction ds as [|d ds IH]; intros c; [by split_and!|]. cbn.
  destruct (IH (charge c d)) as (-> & He & Hc). split_and!; [done| |]; intros k.
  - rewrite He. by destruct k.
  - rewrite Hc. by destruct k.
Qed.

(** [l'] is [l] after the calls that took [ds] have returned to its top frame. *)
Record returned (ds : list (clock -> Z)) (l l' : MethodLog) : Prop := {
  returned_pool : pool_ok l';
  returned_stack : l'.(methodStack) = l.(methodStack);
  returned_next : l'.(nextMethodInfoToUse) = l.(nextMethodInfoToUse);
  returned_frames j : Z.of_nat j < l.(nextMethodInfoToUse) ->
    nthd l'.(methodInfoStorage) j =
      if decide (head l.(methodStack) = Some j) then foldl charge (nthd l.(methodInfoStorage) j) ds
      else nthd l.(methodInfoStorage) j;
}.

Lemma returned_nil l : pool_ok l -> returned [] l l.
Proof. intros. split; [done..|]. intros. by case_decide. Qed.

Lemma returned_app ds es l l1 l2 : returned ds l l1 -> returned es l1 l2 -> returned (ds ++ es) l l2.
Proof.
  intros [Ho1 Hs1 Hn1 Hf1] [Ho2 Hs2 Hn2 Hf2]. split; [done | congruence | congruence|].
  intros j Hj. rewrite Hf2 by congruence. rewrite Hs1, Hf1 by done.
  case_decide; [by rewrite foldl_app | done].
Qed.

Lemma logged_own exiting i calling pool x : calling <> Some i ->
  (logTimesOnMethodExit exiting i calling pool).2 x =
    measured (fun k => entered k exiting -ll entered k (nthd pool i)) (fun k => callees k (nthd pool i)) x.
Proof.
  intros Hne. unfold logTimesOnMethodExit. cbn [snd].
  assert (forall f, nthd (match calling with Some c => alter f c pool | None => pool end) i = nthd pool i) as Hsame.
  { intros f. destruct calling as [c|]; [|done]. unfold nthd. by rewrite list_lookup_alter_ne by congruence. }
  by rewrite !Hsame.
Qed.

Lemma logged_callers exiting i calling pool j : (j < length pool)%nat ->
  nthd (logTimesOnMethodExit exiting i calling pool).1 j =
    if decide (calling = Some j) then charge (nthd pool j) (fun k => entered k exiting -ll entered k (nthd pool i))
    else nthd pool j.
Proof.
  intros Hj. unfold logTimesOnMethodExit. cbn [fst]. destruct calling as [c|]; [|by rewrite decide_False].
  destruct (decide (Some c = Some j)) as [[= ->]|Hne].
  - by rewrite nthd_alter, decide_True.
  - unfold nthd. rewrite list_lookup_alter_ne by congruence. done.
Qed.

Lemma exiting_measure l (m : Measures) :
  let id := l.(exitingMethodInfo).(methodId) in
  Profiling.getExitingMethodPerformanceMeasure (l, m) =
    Ok (id, match m !! id with Some _ => m | None => <[id := PerformanceMeasure.new_PerformanceMeasure id]> m end).
Proof. cbn. unfold getExitingMethodPerformanceMeasure. cbn. by destruct (m !! _). Qed.

(** The exit from the call of the frame on top. *)
Lemma exit_measures id t' i st l m (began own : clock -> Z) : l.(methodStack) = i :: st -> head st <> Some i ->
  (nthd l.(methodInfoStorage) i).(methodId) = id ->
  (forall k, entered k (nthd l.(methodInfoStorage) i) = began k) ->
  (forall k, callees k (nthd l.(methodInfoStorage) i) = own k) ->
  run [Exit id t'] (l, m) =
    Ok (exited i st (updateExitingMethodInfo id t' l),
        record_sample m (id, fun k => reading k t' -ll began k, own)).
Proof.
  intros Hst Hne Hid He Hc. cbn [run on_event]. unfold logMethodExit. cbn [fst snd].
  change (methodStack (updateExitingMethodInfo id t' l)) with (methodStack l).
  rewrite Hst, exitFrom_match by done. set (f := (logTimesOnMethodExit _ _ _ _).2).
  assert (forall x, f x = measured (fun k => reading k t' -ll began k) own x) as Hf.
  { intros x. unfold f. rewrite logged_own by done. unfold measured. by rewrite <- !Hc, <- !He. }
  clearbody f. rewrite exiting_measure. cbn -[exited alter insert lookup]. apply f_equal, f_equal2; [done|].
  destruct (m !! id) as [x|] eqn:Hx; apply map_eq; intros k; rewrite lookup_alter, !lookup_insert;
    repeat case_decide; simplify_eq/=; rewrite ?Hx; cbn; by rewrite ?Hf.
Qed.

Lemma head_below l j : pool_ok l -> head l.(methodStack) = Some j -> Z.of_nat j < l.(nextMethodInfoToUse).
Proof.
  intros Hok Hh. pose proof (pool_below l Hok) as Hb. destruct (methodStack l); [done|].
  simplify_eq/=. by inversion Hb.
Qed.

(** A call from the frame on top, with the calls from its own frame in between. *)
Lemma call_returned id resets t t' l l1 l2 m ds :
  pool_ok l -> l.(nextMethodInfoToUse) < 2 ^ 32 - 1 ->
  (logMethodEntry (P:=Measures) id resets t (l, m)).2 = (l1, m) -> returned ds l1 l2 ->
  let i := Z.to_nat l.(nextMethodInfoToUse) in
  let incl := fun k => reading k t' -ll reading k t in
  forall m2, exists l3, run [Exit id t'] (l2, m2) =
    Ok (l3, record_sample m2 (id, incl, fun k => foldl ll_add 0 (map (fun d => d k) ds))) /\
    returned [incl] l l3.
Proof.
  intros Hok Hlt Hentry [Hok2 Hs2 Hn2 Hf2] i incl m2. pose proof (pool_next l Hok) as Hnn.
  destruct (entry_spec (P:=Measures) id resets t l m Hok Hlt) as (l1' & m' & Heq & Hok1 & Hs1 & Hn1 & _ & [Hid Hfr] & Hlow).
  rewrite Hentry in Heq. injection Heq as <- <-. fold i in Hs1, Hid, Hfr, Hlow.
  assert (head l.(methodStack) <> Some i) as Hne.
  { intros Hh%head_below; [subst i; lia | done]. }
  assert (nthd l2.(methodInfoStorage) i = foldl charge (nthd l1.(methodInfoStorage) i) ds) as Hi.
  { rewrite Hf2 by (subst i; lia). by rewrite Hs1, decide_True. }
  destruct (charge_all ds (nthd l1.(methodInfoStorage) i)) as (Ci & Ce & Cc).
  eexists. split.
  - apply (exit_measures id t' i l.(methodStack) l2 m2 (fun k => reading k t)); rewrite ?Hi; try done; [congruence | congruence | |].
    + intros k. rewrite Ce. apply Hfr.
    + intros k. rewrite Cc. by destruct (Hfr k) as [_ ->].
  - assert (pool_ok (exited i l.(methodStack) (updateExitingMethodInfo id t' l2))) as Hok3.
    { apply exited_pool. destruct Hok2 as [Hd Hb Hn Hw Hc]. rewrite Hs2, Hs1 in *. by split. }
    split; [done | done | |].
    + cbn -[logTimesOnMethodExit]. rewrite Hn2, Hn1, uint_sub_exact; lia.
    + intros j Hj. pose proof (pool_next l2 Hok2). cbn -[logTimesOnMethodExit].
      rewrite logged_callers by lia.
      assert (nthd l2.(methodInfoStorage) j = nthd l.(methodInfoStorage) j) as ->.
      { assert (i <> j) by (subst i; lia). rewrite Hf2, Hs1, decide_False by (lia || (cbn; congruence)).
        apply Hlow. subst i. lia. }
      case_decide; [|done]. cbn [foldl]. unfold charge, incl.
      by rewrite Hi, !Ce, (proj1 (Hfr Cpu)), (proj1 (Hfr Ert)), (proj1 (Hfr Monitor)), (proj1 (Hfr Io)).
Qed.

Lemma foldr_max_nonneg l : 0 <= foldr Z.max 0 l.
Proof. induction l; cbn; lia. Qed.

Lemma run_calls body : Forall (fun c => forall l m, pool_ok l -> l.(nextMethodInfoToUse) + height c < 2 ^ 32 ->
    exists l', run (events c) (l, m) = Ok (l', foldl record_sample m (durations c)) /\ returned [inclusive c] l l') body ->
  forall l m, pool_ok l -> l.(nextMethodInfoToUse) + foldr Z.max 0 (map height body) < 2 ^ 32 ->
  exists l', run (concat (map events body)) (l, m) = Ok (l', foldl record_sample m (concat (map durations body))) /\
    returned (map inclusive body) l l'.
Proof.
  induction 1 as [|c body Hc _ IH]; intros l m Hok Hb; cbn in *.
  - exists l. split; [done | by apply returned_nil].
  - destruct (Hc l m Hok ltac:(lia)) as (l1 & H1 & R1). rewrite run_app, H1, foldl_app. cbn [mbind res_bind].
    destruct (IH l1 (foldl record_sample m (durations c)) (returned_pool _ _ _ R1)) as (l2 & H2 & R2).
    { rewrite (returned_next _ _ _ R1). lia. }
    exists l2. split; [done|]. by apply (returned_app [_] _ _ l1).
Qed.

Lemma run_call c : forall l m, pool_ok l -> l.(nextMethodInfoToUse) + height c < 2 ^ 32 ->
  exists l', run (events c) (l, m) = Ok (l', foldl record_sample m (durations c)) /\ returned [inclusive c] l l'.
Proof.
  induction c as [id resets t body t' IH] using call_induction. intros l m Hok Hh. cbn [height] in Hh.
  pose proof (foldr_max_nonneg (map height body)).
  destruct (entry_spec (P:=Measures) id resets t l m Hok ltac:(lia)) as (l1 & m1 & Hentry & Hok1 & _ & Hn1 & _).
  assert (m1 = m) as ->.
  { unfold logMethodEntry in Hentry. cbn in Hentry. unfold getNextMethodCallInfo in Hentry. cbn in Hentry.
    revert Hentry. destruct (takeMethodCallInfo _ l). by intros [= _ ->]. }
  destruct (run_calls body IH l1 m Hok1 ltac:(lia)) as (l2 & H2 & R2).
  destruct (call_returned id resets t t' l l1 l2 m _ Hok ltac:(lia) Hentry R2 (foldl record_sample m (concat (map durations body)))) as (l3 & H3 & R3).
  exists l3. split; [|done]. cbn [events run on_event]. rewrite Hentry. cbn [mbind res_bind].
  rewrite run_app, H2. cbn [mbind res_bind]. rewrite H3. cbn [durations]. rewrite foldl_app. do 2 f_equal. cbn.
  unfold measured, of_callees, ll_sum. cbn. by rewrite !map_map.
Qed.

(** ** Theorems *)

(** C22. A thread that calls a method and returns from it, whatever tree of
    calls it makes in between, ends with exactly the measures that the
    readings at the ends of its calls determine: per call its own time
    excludes that of its callees.  Its log is as before, with the time of the
    call charged to the frame of the caller, and the calls have given all
    their records back. *)
Theorem call_tree_profiled c l m : pool_ok l -> l.(nextMethodInfoToUse) + height c < 2 ^ 32 ->
  exists l', run (events c) (l, m) = Ok (l', foldl record_sample m (durations c)) /\
    l'.(methodStack) = l.(methodStack) /\ l'.(nextMethodInfoToUse) = l.(nextMethodInfoToUse) /\ pool_ok l' /\
    forall j, Z.of_nat j < l.(nextMethodInfoToUse) ->
      nthd l'.(methodInfoStorage) j =
        if decide (head l.(methodStack) = Some j) then charge (nthd l.(methodInfoStorage) j) (inclusive c)
        else nthd l.(methodInfoStorage) j.
Proof.
  intros Hok Hh. destruct (run_call c l m Hok Hh) as (l' & Hrun & [Ho Hs Hn Hf]).
  exists l'. split_and!; done.
Qed.

Definition at_times (cpu ert : Z) : Timers.Timers :=
  Timers.set_virtualTime cpu (Timers.set_estimatedRealTime ert (Timers.new_Timers 0)).

Definition two_calls : call :=
  Call 1 false (at_times 0 0)
    [Call 2 false (at_times 5 10) [] (at_times 9 30); Call 2 false (at_times 10 40) [] (at_times 11 50)]
    (at_times 20 100).

Lemma call_tree_profiled_witness : exists l',
  run (events two_calls) (new_MethodLog, ∅) = Ok (l', foldl record_sample ∅ (durations two_calls)) /\
  option_map PerformanceMeasure.cpuTimeExcludingCalleeMethods (foldl record_sample ∅ (durations two_calls) !! 1) = Some 15 /\
  option_map PerformanceMeasure.cpuTimeIncludingCalleeMethods (foldl record_sample ∅ (durations two_calls) !! 2) = Some 5.
Proof.
  destruct (call_tree_profiled two_calls new_MethodLog ∅ new_pool_ok ltac:(vm_compute; done)) as (l' & H & _).
  exists l'. split; [exact H|]. split; by vm_compute.
Defined.

(** The own time of a method at a clock, and that of all methods. *)
Definition own_time (k : clock) (p : PerformanceMeasure.PerformanceMeasure) : Z :=
  match k with
  | Cpu => p.(PerformanceMeasure.cpuTimeExcludingCalleeMethods)
  | Ert => p.(PerformanceMeasure.estimatedRealTimeExcludingCalleeMethods)
  | Monitor => p.(PerformanceMeasure.monitorWaitExcludingCalleeMethods)
  | Io => p.(PerformanceMeasure.ioWaitExcludingCalleeMethods)
  end.
Definition own_times (k : clock) (m : Measures) : Z := ll (sum_of (fun e => own_time k e.2) (map_to_list m)).

Lemma sum_of_foldr {A} (f : A -> Z) l : foldr Z.add 0 (map f l) = sum_of f l.
Proof. induction l as [|x l IH]; [done|]. unfold sum_of in *. cbn. lia. Qed.

Lemma own_times_record k m id incl own :
  own_times k (record_sample m (id, incl, own)) = own_times k m +ll (incl k -ll own k).
Proof.
  assert (forall p, own_time k (measured incl own p) = own_time k p +ll (incl k -ll own k)) as Hm
    by (intros p; by destruct k).
  unfold own_times, record_sample. unfold ll_add at 1. rewrite ll_add_ll.
  destruct (m !! id) as [p|] eqn:Hp; cbn [default].
  - rewrite <- (insert_id m id p Hp) at 2. rewrite <- !insert_delete_eq with (m := m).
    rewrite !map_to_list_insert by apply lookup_delete_eq.
    unfold sum_of. cbn. rewrite Hm. unfold ll_add. rewrite ll_add_ll. f_equal. lia.
  - rewrite map_to_list_insert by done. unfold sum_of. cbn. rewrite Hm. unfold ll_add. rewrite ll_add_ll. f_equal.
    assert (own_time k (PerformanceMeasure.new_PerformanceMeasure id) = 0) as -> by by destruct k. lia.
Qed.

Lemma own_times_foldl k ds : forall m,
  own_times k (foldl record_sample m ds) = own_times k m +ll ll_sum (map (fun s : sample => s.1.2 k -ll s.2 k) ds).
Proof.
  induction ds as [|[[id incl] own] ds IH]; intros m.
  - unfold own_times, ll_sum, ll_add. cbn. rewrite Z.add_0_r. symmetry. apply ll_id, ll_in_ll.
  - cbn [foldl map]. rewrite IH, own_times_record, <- ll_add_assoc. f_equal.
    rewrite !ll_sum_exact. cbn. unfold ll_add. rewrite ll_ll_add. done.
Qed.

Lemma inclusive_in_ll c k : ll (inclusive c k) = inclusive c k.
Proof. destruct c. apply ll_id, ll_in_ll. Qed.

Lemma durations_sum k c : ll_sum (map (fun s : sample => s.1.2 k -ll s.2 k) (durations c)) = inclusive c k.
Proof.
  induction c as [id resets t body t' IH] using call_induction. cbn [durations].
  rewrite map_app, ll_sum_app.
  assert (ll_sum (map (fun s : sample => s.1.2 k -ll s.2 k) (concat (map durations body))) = of_callees body k) as ->.
  { unfold of_callees. induction IH as [|c body Hc _ IHb]; [done|]. cbn [map concat].
    rewrite map_app, ll_sum_app, Hc, IHb, !ll_sum_exact. cbn. unfold ll_add. by rewrite ll_ll_add. }
  rewrite <- (inclusive_in_ll _ k), ll_sum_exact. cbn. ll_ring.
Qed.

(** C25. The times of all methods without their callees, summed over the
    methods in whatever order, grow by exactly the time of the call: no time is
    lost or counted twice, recursion included.  (In 64 bits, with the wrap-around.) *)
Theorem own_times_add_up c l m k : pool_ok l -> l.(nextMethodInfoToUse) + height c < 2 ^ 32 ->
  exists l' m', run (events c) (l, m) = Ok (l', m') /\ own_times k m' = own_times k m +ll inclusive c k.
Proof.
  intros Hok Hh. destruct (run_call c l m Hok Hh) as (l' & Hrun & _).
  eexists l', _. split; [exact Hrun|]. by rewrite own_times_foldl, durations_sum.
Qed.

(** A recursive method: the time of the inner call counts once. *)
Definition recursive_call : call :=
  Call 1 false (at_times 0 0) [Call 1 false (at_times 5 10) [] (at_times 9 30)] (at_times 20 100).

Lemma own_times_add_up_witness : exists l' m',
  run (events recursive_call) (new_MethodLog, ∅) = Ok (l', m') /\ own_times Cpu m' = 20.
Proof.
  destruct (own_times_add_up recursive_call new_MethodLog ∅ Cpu new_pool_ok ltac:(vm_compute; done)) as (l' & m' & H & E).
  exists l', m'. split; [exact H | exact E].
Defined.

Lemma head_below_distinct above i st l : pool_ok l -> l.(methodStack) = above ++ i :: st -> head st <> Some i.
Proof.
  intros [Hd _ _ _ _] Hst. rewrite Hst in Hd. clear Hst.
  induction above as [|a above IH]; cbn in Hd; inversion Hd as [|?? Hd' Hgt]; subst; [|by apply IH].
  destruct st; [done|]. inversion Hgt. cbn. intros [= ->]. lia.
Qed.

Lemma exitFrom_skip `{ThreadMeasures P} above st l (m : P) :
  Forall (fun j => (nthd l.(methodInfoStorage) j).(methodId) <> l.(exitingMethodInfo).(methodId)) above ->
  exitFrom (above ++ st) (l, m) = exitFrom st (l, m).
Proof. induction 1 as [|j above Hj _ IH]; [done|]. cbn [app]. by rewrite exitFrom_other. Qed.

Lemma exitFrom_stack `{ThreadMeasures P} st k l (m : P) : exitFrom st (set_methodStack k l, m) = exitFrom st (l, m).
Proof. induction st as [|i st IH]; [done|]. cbn [exitFrom fst snd]. rewrite IH. done. Qed.

(** An exit from a method whose frame is not on top drops the frames above
    it: their calls are measured nowhere, the time they took counts as the
    method's own, and their records are not given back to the pool (one record
    is, whatever the number of frames).  An exit from a method that has no
    frame drops the whole stack. *)
Theorem exit_unwinds id t' above i st l m : pool_ok l ->
  Forall (fun j => (nthd l.(methodInfoStorage) j).(methodId) <> id) above ->
  (l.(methodStack) = above ++ i :: st -> (nthd l.(methodInfoStorage) i).(methodId) = id ->
    exists l', run [Exit id t'] (l, m) =
      Ok (l', record_sample m (id, fun k => reading k t' -ll entered k (nthd l.(methodInfoStorage) i),
                               fun k => callees k (nthd l.(methodInfoStorage) i))) /\
      l'.(methodStack) = st /\ l'.(currentMethodInfo) = head st /\
      l'.(nextMethodInfoToUse) = l.(nextMethodInfoToUse) - 1) /\
  (l.(methodStack) = above ->
    exists l', run [Exit id t'] (l, m) = Ok (l', m) /\
      l'.(methodStack) = [] /\ l'.(currentMethodInfo) = None /\
      l'.(nextMethodInfoToUse) = l.(nextMethodInfoToUse)).
Proof.
  intros Hok Habove. pose proof (pool_width l Hok). pose proof (pool_next l Hok). split.
  - intros Hst Hid. set (l0 := set_methodStack (i :: st) l).
    assert (run [Exit id t'] (l, m) = run [Exit id t'] (l0, m)) as ->.
    { cbn [run on_event]. unfold logMethodExit. cbn [fst snd].
      change (methodStack (updateExitingMethodInfo id t' l)) with (methodStack l). rewrite Hst.
      rewrite exitFrom_skip by exact Habove.
      change (updateExitingMethodInfo id t' l0) with (set_methodStack (i :: st) (updateExitingMethodInfo id t' l)).
      by rewrite exitFrom_stack. }
    pose proof (head_below_distinct above i st l Hok Hst) as Hne.
    destruct Hok as [_ Hb _ _ _]. rewrite Hst in Hb. apply Forall_app in Hb as [_ Hb]. apply Forall_cons_1 in Hb as [Hi _].
    eexists. split_and!.
    + exact (exit_measures id t' i st l0 m _ _ eq_refl Hne Hid (fun _ => eq_refl) (fun _ => eq_refl)).
    + done.
    + done.
    + cbn. apply uint_sub_exact. lia.
  - intros Hst. cbn [run on_event]. unfold logMethodExit. cbn [fst snd].
    change (methodStack (updateExitingMethodInfo id t' l)) with (methodStack l). rewrite Hst.
    rewrite <- (app_nil_r above), exitFrom_skip by exact Habove. eexists. by split_and!.
Qed.

(** The log after entering 1, 2 and 3, of which only 1 will be left. *)
Definition three_frames : MethodLog * Measures :=
  match run (P:=Measures) [Entry 1 false (at_times 0 0); Entry 2 false (at_times 3 4); Entry 3 false (at_times 6 9)] (new_MethodLog, ∅)
  with Ok s => s | Err _ => (new_MethodLog, ∅) end.

Lemma three_frames_pool : pool_ok three_frames.1.
Proof. apply (run_pool [Entry 1 false (at_times 0 0); Entry 2 false (at_times 3 4); Entry 3 false (at_times 6 9)] new_MethodLog (∅ : Measures) _ (three_frames.2) new_pool_ok); vm_compute; done. Qed.

(** The exit from 1 leaves two records taken for good. *)
Lemma exit_unwinds_witness : exists l',
  run [Exit 1 (at_times 50 60)] three_frames =
    Ok (l', record_sample three_frames.2 (1, (fun k => reading k (at_times 50 60) -ll entered k (nthd three_frames.1.(methodInfoStorage) 0%nat)),
                                          (fun k => callees k (nthd three_frames.1.(methodInfoStorage) 0%nat)))) /\
  l'.(methodStack) = [] /\ l'.(nextMethodInfoToUse) = 2.
Proof.
  destruct (proj1 (exit_unwinds 1 (at_times 50 60) [2; 1]%nat 0%nat [] three_frames.1 three_frames.2 three_frames_pool
    ltac:(repeat constructor; vm_compute; done)) ltac:(vm_compute; done) ltac:(vm_compute; done)) as (l' & H & Hs & _ & Hn).
  exists l'. split_and!; [exact H | exact Hs | exact (eq_trans Hn eq_refl)].
Defined.

(** The frames of the stack are distinct records of the pool at all times,
    whatever a thread enters and leaves and wherever it measures, and an entry
    never writes over a frame that is still on the stack. *)
Theorem frames_stay_apart `{TakesFrames P} es p l' p' :
  Z.of_nat (length es) < 2 ^ 32 -> run es (new_MethodLog, p) = Ok (l', p') ->
  NoDup l'.(methodStack) /\ l'.(currentMethodInfo) = head l'.(methodStack) /\
  forall id t, let '(i, (l2, _)) := Profiling.getNextMethodCallInfo id t (l', p') in
    (i ∉ l'.(methodStack)) /\ forall j, j ∈ l'.(methodStack) -> nthd l2.(methodInfoStorage) j = nthd l'.(methodInfoStorage) j.
Proof.
  intros Hn Hrun. apply run_pool in Hrun as Hok; [|apply new_pool_ok | done].
  pose proof (pool_below _ Hok) as Hb. rewrite Forall_forall in Hb. split_and!.
  - pose proof (pool_descends _ Hok) as Hd. clear -Hd. induction Hd as [|i st _ IH Hgt]; constructor; [|done].
    rewrite Forall_forall in Hgt. intros Hi. specialize (Hgt i Hi). lia.
  - apply (pool_current _ Hok).
  - intros id t. destruct (takes_frame id t l' p') as (info & p2 & -> & _).
    destruct (take_at info l' Hok) as (-> & _ & _ & _ & _ & _ & _ & _ & Hlow). split.
    + intros Hi%Hb. pose proof (pool_next _ Hok). lia.
    + intros j Hj%Hb. apply Hlow. lia.
Qed.

Lemma frames_stay_apart_witness : NoDup three_frames.1.(methodStack) /\ three_frames.1.(methodStack) = [2; 1; 0]%nat.
Proof.
  split; [|by vm_compute].
  apply (frames_stay_apart (P:=Measures) [Entry 1 false (at_times 0 0); Entry 2 false (at_times 3 4); Entry 3 false (at_times 6 9)] ∅ _ three_frames.2);
    vm_compute; done.
Defined.

End profile.
