(* ===== verification/StackTraces.v ===== *)
(** * Profile per stack trace

    StackTraceThreadState (src/src/vex/threads/ThreadState.cpp) measures per
    stack trace: its measures form a tree, in which every measure points to
    that of the calling method and to those of the methods it called.  The
    objects are named by their index in the order of their creation. *)
From S2P Require Import Prelude Timers MethodLog.

Module StackTraceThreadState.
Import MethodCallInfo Profiling.

(** A [PerformanceMeasure] with its pointers; without submethods the vector is
    empty, which the code may not even have created. *)
Record Node := mkNode {
  measure : PerformanceMeasure.PerformanceMeasure;
  callingMethod : option nat;
  subMethods : list nat;
}.

#[export] Instance Node_inhabited : Inhabited Node :=
  populate (mkNode (PerformanceMeasure.new_PerformanceMeasure 0) None []).

Record Traces := mkTraces {
  nodes : list Node;
  rootStackTraceInfos : list nat;
  currentStackTraceInfo : option nat;
}.

Definition new_Traces : Traces := mkTraces [] [] None.

Definition method_of (n : Node) : Z := n.(measure).(PerformanceMeasure.methodId).

Definition on_measure (f : PerformanceMeasure.PerformanceMeasure -> PerformanceMeasure.PerformanceMeasure) (n : Node) : Node :=
  mkNode (f n.(measure)) n.(callingMethod) n.(subMethods).

(** [fuel] bounds the number of callers, which are created before the called. *)
Fixpoint methodAlreadyCalledInStackTrace (fuel : nat) (ns : list Node) (traceInfo : option nat) (methodId : Z) : bool :=
  match fuel, traceInfo with
  | S fuel, Some i =>
    if method_of (nthd ns i) =? methodId then true
    else methodAlreadyCalledInStackTrace fuel ns (nthd ns i).(callingMethod) methodId
  | _, _ => false
  end.

(** The first of the candidates that is one of the method. *)
Definition find_method (ns : list Node) (methodId : Z) (candidates : list nat) : option nat :=
  snd <$> list_find (fun i => method_of (nthd ns i) = methodId) candidates.

Definition getCurrentStackTraceInfo (methodId : Z) (s : Traces) : nat * Traces :=
  let new := length s.(nodes) in
  match s.(currentStackTraceInfo) with
  | None =>
    match find_method s.(nodes) methodId s.(rootStackTraceInfos) with
    | Some i => (i, mkTraces s.(nodes) s.(rootStackTraceInfos) (Some i))
    | None =>
      (new, mkTraces (s.(nodes) ++ [mkNode (PerformanceMeasure.new_PerformanceMeasure methodId) None []])
              (s.(rootStackTraceInfos) ++ [new]) (Some new))
    end
  | Some c =>
    match find_method s.(nodes) methodId (nthd s.(nodes) c).(subMethods) with
    | Some i => (i, mkTraces s.(nodes) s.(rootStackTraceInfos) (Some i))
    | None =>
      let ns := alter (fun n => mkNode n.(measure) n.(callingMethod) (n.(subMethods) ++ [new])) c s.(nodes) in
      (new, mkTraces (ns ++ [mkNode (PerformanceMeasure.new_PerformanceMeasure methodId) (Some c) []])
              s.(rootStackTraceInfos) (Some new))
    end
  end.

Definition getNextMethodCallInfo (methodId : Z) (t : Timers.Timers) (s : MethodLog * Traces) : nat * (MethodLog * Traces) :=
  let isRecursive := methodAlreadyCalledInStackTrace (length s.2.(nodes)) s.2.(nodes) s.2.(currentStackTraceInfo) methodId in
  let '(stackTraceInfo, tr) := getCurrentStackTraceInfo methodId s.2 in
  let '(callinfo, l) := takeMethodCallInfo (fun c =>
    let c := setStackTraceInfo methodId t.(Timers.virtualTime) t.(Timers.estimatedRealTime)
      t.(Timers.monitorWaitingTime) t.(Timers.ioWaitingTime) (Some stackTraceInfo) c in
    if isRecursive then setRecursive c else c) s.1 in
  (callinfo, (l, tr)).

(** The measure of the current method, whatever method is left. *)
Definition getExitingMethodPerformanceMeasure (s : MethodLog * Traces) : res (nat * Traces) :=
  match s.1.(currentMethodInfo) with
  | None => Err NullDereference
  | Some current =>
    match (nthd s.1.(methodInfoStorage) current).(correspondingStackTraceMeasure) with
    | None => Err NullDereference
    | Some exiting =>
      Ok (exiting, mkTraces s.2.(nodes) s.2.(rootStackTraceInfos) (nthd s.2.(nodes) exiting).(callingMethod))
    end
  end.

#[export] Instance stackTraceMeasures : ThreadMeasures Traces := {|
  pointer := nat;
  Profiling.getNextMethodCallInfo := getNextMethodCallInfo;
  Profiling.getExitingMethodPerformanceMeasure := getExitingMethodPerformanceMeasure;
  at_pointer := fun i f s => mkTraces (alter (on_measure f) i s.(nodes)) s.(rootStackTraceInfos) s.(currentStackTraceInfo);
|}.

End StackTraceThreadState.

Section traces.
Import MethodCallInfo Profiling StackTraceThreadState.
Import (hints) MethodMeasures.

#[export] Instance stack_trace_measures_take : TakesFrames Traces.
Proof.
  constructor. intros id t l p. cbn. unfold getNextMethodCallInfo. cbn.
  destruct (getCurrentStackTraceInfo id p) as [n tr]. eexists _, tr. split.
  - destruct (takeMethodCallInfo _ l) eqn:E. by rewrite E.
  - intros c. cbn. destruct (methodAlreadyCalledInStackTrace _ _ _ _); (split; [done|]; intros k; by destruct k).
Qed.

(** ** The tree

    The methods called from a measure, or from none. *)
Definition called (o : option nat) (s : Traces) : list nat :=
  match o with Some c => (nthd s.(nodes) c).(subMethods) | None => s.(rootStackTraceInfos) end.

Definition exists_in (s : Traces) (o : option nat) : Prop := forall c, o = Some c -> (c < length s.(nodes))%nat.

(** A caller is older than what it calls, and what is called has it as its caller. *)
Record tree_ok (s : Traces) : Prop := {
  tree_current : exists_in s s.(currentStackTraceInfo);
  tree_older i c : (i < length s.(nodes))%nat -> (nthd s.(nodes) i).(callingMethod) = Some c -> (c < i)%nat;
  tree_called o i : exists_in s o -> i ∈ called o s ->
    (i < length s.(nodes))%nat /\ (nthd s.(nodes) i).(callingMethod) = o;
}.

Lemma new_tree_ok : tree_ok new_Traces.
Proof.
  split; [done | cbn; lia|]. intros [c|] i Ho Hi; [specialize (Ho c eq_refl); cbn in Ho; lia | cbn in Hi; set_solver].
Qed.

Lemma find_method_spec ns id candidates :
  match find_method ns id candidates with
  | Some i => i ∈ candidates /\ method_of (nthd ns i) = id
  | None => forall i, i ∈ candidates -> method_of (nthd ns i) <> id
  end.
Proof.
  unfold find_method. destruct (list_find _ candidates) as [[j i]|] eqn:E; cbn.
  - apply list_find_Some in E as (Hj & Hi & _). split; [by eapply list_elem_of_lookup_2 | done].
  - apply list_find_None in E. by rewrite Forall_forall in E.
Qed.

(** [s'] is [s] with a new measure that the current one calls. *)
Record grown (id : Z) (s s' : Traces) : Prop := {
  grown_measures : map measure s'.(nodes) = map measure s.(nodes) ++ [PerformanceMeasure.new_PerformanceMeasure id];
  grown_callers j : (j < length s.(nodes))%nat -> (nthd s'.(nodes) j).(callingMethod) = (nthd s.(nodes) j).(callingMethod);
  grown_new : nthd s'.(nodes) (length s.(nodes)) =
    mkNode (PerformanceMeasure.new_PerformanceMeasure id) s.(currentStackTraceInfo) [];
  grown_current : s'.(currentStackTraceInfo) = Some (length s.(nodes));
  grown_called o : exists_in s o -> called o s' =
    called o s ++ if decide (o = s.(currentStackTraceInfo)) then [length s.(nodes)] else [];
}.

Lemma map_measure_alter f c ns : (forall n, measure (f n) = measure n) -> map measure (alter f c ns) = map measure ns.
Proof.
  intros Hf. revert c. induction ns as [|n ns IH]; intros [|c]; cbn; [done..| |]; [by rewrite Hf | f_equal; apply IH].
Qed.

(** [getCurrentStackTraceInfo] finds a measure of the method that the current
    one calls, or adds one. *)
Lemma getCurrent_cases id s : exists_in s s.(currentStackTraceInfo) ->
  let '(i, s') := getCurrentStackTraceInfo id s in
  (i ∈ called s.(currentStackTraceInfo) s /\ method_of (nthd s.(nodes) i) = id /\
   s' = mkTraces s.(nodes) s.(rootStackTraceInfos) (Some i)) \/
  (i = length s.(nodes) /\ grown id s s').
Proof.
  intros Hc. unfold getCurrentStackTraceInfo, called. destruct (currentStackTraceInfo s) as [c|] eqn:Ec.
  - specialize (Hc c eq_refl). pose proof (find_method_spec (nodes s) id (subMethods (nthd (nodes s) c))) as Hf.
    destruct (find_method _ _ _) as [i|]; [left; by destruct Hf|]. right. split; [done|].
    set (f := fun n => _). assert (length (alter f c (nodes s)) = length (nodes s)) as Hl by apply length_alter.
    split; cbn [nodes rootStackTraceInfos currentStackTraceInfo].
    + rewrite map_app, map_measure_alter by done. done.
    + intros j Hj. rewrite nthd_app_l, nthd_alter by lia. by case_decide; subst.
    + by rewrite <- Hl, nthd_snoc, Ec.
    + done.
    + rewrite Ec. intros [o|] Ho; cbn [called nodes rootStackTraceInfos].
      * specialize (Ho o eq_refl). rewrite nthd_app_l, nthd_alter by lia.
        destruct (decide (c = o)) as [<-|]; [by rewrite decide_True | by rewrite decide_False, app_nil_r by congruence].
      * by rewrite app_nil_r.
  - pose proof (find_method_spec (nodes s) id (rootStackTraceInfos s)) as Hf.
    destruct (find_method _ _ _) as [i|]; [left; by destruct Hf|]. right. split; [done|].
    split; cbn [nodes rootStackTraceInfos currentStackTraceInfo].
    + by rewrite map_app.
    + intros j Hj. by rewrite nthd_app_l.
    + by rewrite nthd_snoc, Ec.
    + done.
    + rewrite Ec. intros [o|] Ho; cbn [called nodes rootStackTraceInfos]; [|done].
      specialize (Ho o eq_refl). by rewrite nthd_app_l, app_nil_r.
Qed.

Lemma grown_length id s s' : grown id s s' -> length s'.(nodes) = S (length s.(nodes)).
Proof.
  intros [Hm _ _ _ _]. apply (f_equal length) in Hm. rewrite length_app, !length_map in Hm. cbn in Hm. lia.
Qed.

Lemma grown_ok id s s' : tree_ok s -> grown id s s' -> tree_ok s'.
Proof.
  intros [Hc Ho Hs] Hg. pose proof (grown_length _ _ _ Hg) as Hl. destruct Hg as [_ Hcall Hnew Hcur Hcalled].
  split.
  - intros c. rewrite Hcur. intros [= <-]. lia.
  - intros i c Hi Hic. destruct (decide (i = length (nodes s))) as [->|].
    + rewrite Hnew in Hic. apply Hc in Hic. done.
    + rewrite Hcall in Hic by lia. apply (Ho i); [lia | done].
  - intros o i Hex Hi. destruct (decide (o = Some (length (nodes s)))) as [->|Hne].
    + cbn in Hi. rewrite Hnew in Hi. cbn in Hi. set_solver.
    + assert (exists_in s o) as Hex'.
      { intros c ->. specialize (Hex c eq_refl). assert (c <> length (nodes s)) by congruence. lia. }
      rewrite Hcalled in Hi by done. apply elem_of_app in Hi as [Hi|Hi].
      * destruct (Hs o i Hex' Hi). rewrite Hcall by done. split; [lia | done].
      * case_decide; [|set_solver]. apply list_elem_of_singleton in Hi as ->. rewrite Hnew. split; [lia | done].
Qed.

Lemma measures_prefix ns ns' k j : map measure ns' = map measure ns ++ k -> (j < length ns)%nat ->
  measure (nthd ns' j) = measure (nthd ns j).
Proof.
  intros Heq Hj. assert (j < length ns')%nat as Hj'.
  { apply (f_equal length) in Heq. rewrite length_app, !length_map in Heq. lia. }
  apply (f_equal (lookup j)) in Heq. rewrite lookup_app_l in Heq by (rewrite length_map; lia).
  change (map measure) with (fmap (M:=list) measure) in Heq. rewrite !list_lookup_fmap in Heq.
  rewrite (nthd_lookup ns') in Heq by done. rewrite (nthd_lookup ns) in Heq by done. by injection Heq.
Qed.

Lemma getCurrent_spec id s : tree_ok s ->
  let '(i, s') := getCurrentStackTraceInfo id s in
  tree_ok s' /\ s'.(currentStackTraceInfo) = Some i /\ (i < length s'.(nodes))%nat /\
  method_of (nthd s'.(nodes) i) = id /\ (nthd s'.(nodes) i).(callingMethod) = s.(currentStackTraceInfo) /\
  (length s.(nodes) <= length s'.(nodes))%nat /\
  (forall j, (j < length s.(nodes))%nat ->
    method_of (nthd s'.(nodes) j) = method_of (nthd s.(nodes) j) /\
    (nthd s'.(nodes) j).(callingMethod) = (nthd s.(nodes) j).(callingMethod)) /\
  (map measure s'.(nodes) = map measure s.(nodes) \/
   map measure s'.(nodes) = map measure s.(nodes) ++ [PerformanceMeasure.new_PerformanceMeasure id]).
Proof.
  intros Hok. pose proof (getCurrent_cases id s (tree_current _ Hok)) as H.
  destruct (getCurrentStackTraceInfo id s) as [i s']. destruct H as [(Hi & Hid & ->)|[-> Hg]].
  - destruct (tree_called _ Hok _ _ (tree_current _ Hok) Hi) as [Hl Hc]. split_and!; try done; [|by left].
    destruct Hok as [_ Ho Hs]. by split; [intros c [= <-]|..].
  - pose proof (grown_ok _ _ _ Hok Hg) as Hok'. pose proof (grown_length _ _ _ Hg) as Hl.
    destruct Hg as [Hm Hcall Hnew Hcur _]. rewrite Hnew. split_and!; try done; try lia; [|by right].
    intros j Hj. rewrite Hcall by done. unfold method_of. by rewrite (measures_prefix _ _ _ _ Hm Hj).
Qed.

(** ** The trace of the stack

    The frames of the stack point to the measures of their stack trace. *)
Fixpoint trace_of (pool : list MethodCallInfo) (ns : list Node) (stack : list nat) (o : option nat) : Prop :=
  match stack with
  | [] => o = None
  | f :: stack => exists n, o = Some n /\ (n < length ns)%nat /\
      (nthd pool f).(correspondingStackTraceMeasure) = Some n /\
      method_of (nthd ns n) = (nthd pool f).(methodId) /\ trace_of pool ns stack (nthd ns n).(callingMethod)
  end.

(** The trace depends only on the pointers and methods. *)
Lemma trace_of_ext pool pool' ns ns' stack : forall o,
  Forall (fun f => (nthd pool' f).(correspondingStackTraceMeasure) = (nthd pool f).(correspondingStackTraceMeasure) /\
                   (nthd pool' f).(methodId) = (nthd pool f).(methodId)) stack ->
  (length ns <= length ns')%nat ->
  (forall j, (j < length ns)%nat -> method_of (nthd ns' j) = method_of (nthd ns j) /\
                                    (nthd ns' j).(callingMethod) = (nthd ns j).(callingMethod)) ->
  trace_of pool ns stack o -> trace_of pool' ns' stack o.
Proof.
  induction stack as [|f stack IH]; intros o Hp Hl Hn; cbn; [done|].
  intros (n & -> & Hlt & Hc & Hid & Ht). apply Forall_cons_1 in Hp as [[Hpc Hpi] Hp]. destruct (Hn n Hlt) as [Hm Hcall].
  exists n. rewrite Hpc, Hpi, Hm, Hcall. split_and!; try done; [lia|]. by apply IH.
Qed.

(** Whether a method is on the stack is what the tree is asked on entry. *)
Lemma already_called_iff pool ns stack id : (forall i c, (i < length ns)%nat -> (nthd ns i).(callingMethod) = Some c -> (c < i)%nat) ->
  forall fuel o, (forall n, o = Some n -> (n < fuel)%nat) -> trace_of pool ns stack o ->
  methodAlreadyCalledInStackTrace fuel ns o id = bool_decide (id ∈ map (fun f => (nthd pool f).(methodId)) stack).
Proof.
  intros Hold. induction stack as [|f stack IH]; intros fuel o Hf Ht; cbn in Ht.
  - subst. destruct fuel; cbn; symmetry; apply bool_decide_eq_false; set_solver.
  - destruct Ht as (n & -> & Hlt & _ & Hid & Ht). specialize (Hf n eq_refl). destruct fuel as [|fuel]; [lia|]. cbn.
    rewrite Hid. destruct (Z.eqb_spec (methodId (nthd pool f)) id) as [<-|Hne].
    + symmetry. apply bool_decide_eq_true. by left.
    + rewrite (IH fuel) by (try done; intros c Hc; specialize (Hold n c Hlt Hc); lia).
      apply bool_decide_ext. rewrite elem_of_cons. naive_solver.
Qed.

(** ** Both profiles of a thread

    The counters of a measure, with the widths they are counted in. *)
Definition metric : Type := (PerformanceMeasure.PerformanceMeasure -> Z) * (Z -> Z).
Definition metrics : list metric := [
  (PerformanceMeasure.samples, uwrap 32);
  (PerformanceMeasure.cpuTimeExcludingCalleeMethods, ll);
  (PerformanceMeasure.estimatedRealTimeExcludingCalleeMethods, ll);
  (PerformanceMeasure.cpuTimeIncludingCalleeMethods, ll);
  (PerformanceMeasure.estimatedRealTimeIncludingCalleeMethods, ll);
  (PerformanceMeasure.monitorWaitExcludingCalleeMethods, ll);
  (PerformanceMeasure.ioWaitExcludingCalleeMethods, ll);
  (PerformanceMeasure.monitorWaitIncludingCalleeMethods, ll);
  (PerformanceMeasure.ioWaitIncludingCalleeMethods, ll);
  (PerformanceMeasure.callee_time, ll); (PerformanceMeasure.callee_lost_time, ll); (PerformanceMeasure.lost_time, ll)].

Definition additive (q : metric) : Prop :=
  (forall incl own, exists d, forall p, q.1 (measured incl own p) = q.2 (q.1 p + d)) /\
  (forall a b, q.2 (q.2 a + b) = q.2 (a + b)) /\
  (forall id, q.1 (PerformanceMeasure.new_PerformanceMeasure id) = 0) /\ q.2 0 = 0.

Lemma uwrap_add_l w a b : uwrap w (uwrap w a + b) = uwrap w (a + b).
Proof. apply Zplus_mod_idemp_l. Qed.

Lemma metrics_additive : Forall additive metrics.
Proof.
  repeat constructor; cbn; try (intros; apply uwrap_add_l); try (intros; apply ll_add_ll);
    intros incl own; eexists; intros p; reflexivity.
Qed.

(** A counter, summed over the measures of a method. *)
Definition total (q : metric) (id : Z) (ms : list PerformanceMeasure.PerformanceMeasure) : Z :=
  q.2 (sum_of (fun p => if p.(PerformanceMeasure.methodId) =? id then q.1 p else 0) ms).

Lemma total_snoc q id id' ms : additive q ->
  total q id (ms ++ [PerformanceMeasure.new_PerformanceMeasure id']) = total q id ms.
Proof.
  intros (_ & _ & Hz & _). unfold total. rewrite sum_of_app. f_equal. unfold sum_of at 2. cbn. case_match; rewrite ?Hz; lia.
Qed.

Lemma total_measured q id incl own ms n p : additive q -> ms !! n = Some p ->
  exists d, (forall x, q.1 (measured incl own x) = q.2 (q.1 x + d)) /\
    total q id (alter (measured incl own) n ms) =
      if p.(PerformanceMeasure.methodId) =? id then q.2 (total q id ms + d) else total q id ms.
Proof.
  intros (Hm & Hn & _) Hp. destruct (Hm incl own) as [d Hd]. exists d. split; [done|].
  unfold total. rewrite (sum_of_alter _ _ _ _ p) by done.
  change (PerformanceMeasure.methodId (measured incl own p)) with (PerformanceMeasure.methodId p).
  case_match; [|f_equal; lia]. rewrite Hd.
  rewrite Hn. set (S0 := sum_of _ ms). rewrite (Z.add_comm _ (q.2 _)), Hn. f_equal. lia.
Qed.

(** The two profiles agree: per method, and for every counter. *)
Definition same_totals (m : MethodMeasures.Measures) (s : Traces) : Prop :=
  forall q id, q ∈ metrics ->
    q.1 (default (PerformanceMeasure.new_PerformanceMeasure id) (m !! id)) = total q id (map measure s.(nodes)).

Definition same_frame (c d : MethodCallInfo) : Prop :=
  c.(methodId) = d.(methodId) /\ forall k, entered k c = entered k d /\ callees k c = callees k d.

Record same_profile (l1 : MethodLog) (m : MethodMeasures.Measures) (l2 : MethodLog) (s : Traces) : Prop := {
  sp_pool1 : pool_ok l1;
  sp_pool2 : pool_ok l2;
  sp_stack : l1.(methodStack) = l2.(methodStack);
  sp_next : l1.(nextMethodInfoToUse) = l2.(nextMethodInfoToUse);
  sp_frames : Forall (fun j => same_frame (nthd l1.(methodInfoStorage) j) (nthd l2.(methodInfoStorage) j)) l2.(methodStack);
  sp_tree : tree_ok s;
  sp_trace : trace_of l2.(methodInfoStorage) s.(nodes) l2.(methodStack) s.(currentStackTraceInfo);
  sp_totals : same_totals m s;
}.

(** The methods a thread is in. *)
Definition open_methods (l : MethodLog) : list Z := map (fun j => (nthd l.(methodInfoStorage) j).(methodId)) l.(methodStack).

(** Events in which every exit is from the method entered last. *)
Fixpoint matched (inside : list Z) (es : list event) : bool :=
  match es with
  | [] => true
  | Entry id _ _ :: es => matched (id :: inside) es
  | Exit id _ :: es => match inside with i :: inside => (id =? i) && matched inside es | [] => false end
  end.

Lemma stack_below l j : pool_ok l -> j ∈ l.(methodStack) -> (j < Z.to_nat l.(nextMethodInfoToUse))%nat /\ (j < length l.(methodInfoStorage))%nat.
Proof.
  intros Hok Hj. pose proof (pool_below _ Hok) as Hb. rewrite Forall_forall in Hb.
  specialize (Hb j Hj). pose proof (pool_next _ Hok). lia.
Qed.

(** The pointer of a new frame. *)
Lemma entry_trace id resets t l s : pool_ok l ->
  let '(n, s') := getCurrentStackTraceInfo id s in
  exists l', (logMethodEntry (P:=Traces) id resets t (l, s)) =
      (methodAlreadyCalledInStackTrace (length s.(nodes)) s.(nodes) s.(currentStackTraceInfo) id, (l', s')) /\
    (nthd l'.(methodInfoStorage) (Z.to_nat l.(nextMethodInfoToUse))).(correspondingStackTraceMeasure) = Some n /\
    l'.(nextMethodInfoToUse) = uint_add l.(nextMethodInfoToUse) 1.
Proof.
  intros Hok. unfold logMethodEntry. cbn. unfold getNextMethodCallInfo. cbn [fst snd].
  destruct (getCurrentStackTraceInfo id s) as [n s'].
  match goal with |- context [takeMethodCallInfo ?f l] => set (info := f) end.
  destruct (take_at info l Hok) as (H1 & _ & _ & _ & H5 & H6 & _ & [c H8] & _).
  destruct (takeMethodCallInfo info l) as [i l1]. cbn in *. subst i. eexists. split.
  - apply f_equal2; [|reflexivity]. cbn. rewrite nthd_alter, decide_True, H8 by done. unfold info.
    by destruct (methodAlreadyCalledInStackTrace _ _ _ _).
  - cbn. rewrite nthd_alter, decide_True, H8 by done. unfold info. split; [|done].
    by destruct (methodAlreadyCalledInStackTrace _ _ _ _).
Qed.

Lemma method_entry id resets t l (m : MethodMeasures.Measures) : pool_ok l ->
  exists l', logMethodEntry (P:=MethodMeasures.Measures) id resets t (l, m) = (false, (l', m)).
Proof.
  intros Hok. unfold logMethodEntry. cbn. unfold MethodMeasures.getNextMethodCallInfo. cbn [fst snd].
  match goal with |- context [takeMethodCallInfo ?f l] => set (info := f) end.
  destruct (take_at info l Hok) as (H1 & _ & _ & _ & _ & H6 & _ & [c H8] & _).
  destruct (takeMethodCallInfo info l) as [i l1]. cbn in *. subst i. eexists.
  rewrite nthd_alter, decide_True, H8 by done. done.
Qed.

Lemma map_methods pool pool' st : (forall j, j ∈ st -> (nthd pool' j).(methodId) = (nthd pool j).(methodId)) ->
  map (fun j => (nthd pool' j).(methodId)) st = map (fun j => (nthd pool j).(methodId)) st.
Proof. intros H. apply map_ext_in. intros j Hj. apply H. by apply list_elem_of_In. Qed.

(** Entering a method keeps the profiles equal, and tells whether it is recursive. *)
Lemma entry_same id resets t l1 m l2 s : same_profile l1 m l2 s -> l2.(nextMethodInfoToUse) < 2 ^ 32 - 1 ->
  exists b l1' l2' s', logMethodEntry (P:=MethodMeasures.Measures) id resets t (l1, m) = (false, (l1', m)) /\
    logMethodEntry (P:=Traces) id resets t (l2, s) = (b, (l2', s')) /\
    same_profile l1' m l2' s' /\ (length l2'.(methodInfoStorage) <= S (length l2.(methodInfoStorage)))%nat /\
    b = bool_decide (id ∈ open_methods l2) /\ open_methods l2' = id :: open_methods l2.
Proof.
  intros [Ok1 Ok2 Hst Hnx Hfr Htree Htr Htot] Hb.
  destruct (method_entry id resets t l1 m Ok1) as [l1' E1].
  destruct (entry_spec id resets t l1 m Ok1 ltac:(congruence || lia)) as (l1'' & m' & E1' & Ok1' & S1 & N1 & _ & [I1 F1] & L1).
  rewrite E1 in E1'. injection E1' as <- <-.
  destruct (entry_spec id resets t l2 s Ok2 Hb) as (l2' & s' & E2 & Ok2' & S2 & N2 & Len2 & [I2 F2] & L2).
  pose proof (entry_trace id resets t l2 s Ok2) as Ht. pose proof (getCurrent_spec id s Htree) as Hg.
  destruct (getCurrentStackTraceInfo id s) as [n s0]. destruct Ht as (l0 & E0 & P0 & _).
  rewrite E0 in E2. cbn in E2. injection E2 as -> ->.
  destruct Hg as (Htree' & Hcur & Hn & Hid & Hcall & Hlen & Hold & Hmeas). rewrite Hnx in *.
  assert (forall j, j ∈ methodStack l2 -> nthd l1'.(methodInfoStorage) j = nthd l1.(methodInfoStorage) j /\
                                          nthd l2'.(methodInfoStorage) j = nthd l2.(methodInfoStorage) j) as Hsame.
  { intros j Hj. destruct (stack_below l2 j Ok2 Hj). split; [apply L1 | apply L2]; done. }
  eexists _, l1', l2', s'. split_and!; [exact E1 | exact E0 | split; try done | done | |].
  - congruence.
  - congruence.
  - rewrite S2. constructor; [split; [congruence|]; intros k; by rewrite !(proj1 (F1 k)), !(proj2 (F1 k)), !(proj1 (F2 k)), !(proj2 (F2 k))|].
    apply Forall_forall. intros j Hj. rewrite Forall_forall in Hfr. destruct (Hsame j Hj) as [-> ->]. by apply Hfr.
  - rewrite S2, Hcur. cbn. exists n. split_and!; try done; [congruence|]. rewrite Hcall.
    eapply trace_of_ext; [| exact Hlen | exact Hold | exact Htr]. apply Forall_forall. intros j Hj. by destruct (Hsame j Hj) as [_ ->].
  - intros q id' Hq. rewrite (Htot q id' Hq). pose proof metrics_additive as Ha. rewrite Forall_forall in Ha.
    destruct Hmeas as [-> | ->]; [done | by rewrite total_snoc by (apply Ha; done)].
  - apply already_called_iff; [apply Htree | intros c Hc; by apply (tree_current _ Htree) | done].
  - unfold open_methods. rewrite S2. cbn. rewrite I2. f_equal. apply map_methods. intros j Hj. by destruct (Hsame j Hj) as [_ ->].
Qed.

(** The exit from the method entered last, on the tree. *)
Lemma trace_exit id t' i st n l s : l.(methodStack) = i :: st -> l.(currentMethodInfo) = Some i ->
  (nthd l.(methodInfoStorage) i).(methodId) = id -> (nthd l.(methodInfoStorage) i).(correspondingStackTraceMeasure) = Some n ->
  let l' := updateExitingMethodInfo id t' l in
  run (P:=Traces) [Exit id t'] (l, s) =
    Ok (exited i st l', mkTraces (alter (on_measure (logTimesOnMethodExit l'.(exitingMethodInfo) i (head st) l.(methodInfoStorage)).2) n s.(nodes))
                          s.(rootStackTraceInfos) (nthd s.(nodes) n).(callingMethod)).
Proof.
  intros Hst Hcur Hid Hn l'. cbn [run on_event]. unfold logMethodExit. cbn [fst snd].
  change (methodStack (updateExitingMethodInfo id t' l)) with (methodStack l). rewrite Hst.
  rewrite exitFrom_match by done. cbn [Profiling.getExitingMethodPerformanceMeasure stackTraceMeasures].
  unfold StackTraceThreadState.getExitingMethodPerformanceMeasure. cbn [fst snd].
  change (currentMethodInfo (set_methodStack st (updateExitingMethodInfo id t' l))) with (currentMethodInfo l).
  rewrite Hcur. change (methodInfoStorage (set_methodStack st (updateExitingMethodInfo id t' l))) with (methodInfoStorage l).
  by rewrite Hn.
Qed.

Lemma measures_alter f n ns : map measure (alter (on_measure f) n ns) = alter f n (map measure ns).
Proof. revert n. induction ns as [|x ns IH]; intros [|n]; cbn; [done..|]. f_equal. apply IH. Qed.

Lemma alter_ext {A} (f g : A -> A) n (l : list A) : (forall x, f x = g x) -> alter f n l = alter g n l.
Proof. intros H. revert n. induction l as [|x l IH]; intros [|n]; cbn; [done.. | by rewrite H | f_equal; apply IH]. Qed.

Lemma charge_frame c d k : (charge c d).(methodId) = c.(methodId) /\
  (charge c d).(correspondingStackTraceMeasure) = c.(correspondingStackTraceMeasure) /\
  entered k (charge c d) = entered k c /\ callees k (charge c d) = callees k c +ll d k.
Proof. by destruct k. Qed.

(** What an exit leaves of the frames below. *)
Lemma exited_frames id t' i st l j : pool_ok l -> l.(methodStack) = i :: st -> j ∈ st ->
  nthd (exited i st (updateExitingMethodInfo id t' l)).(methodInfoStorage) j =
    if decide (head st = Some j) then charge (nthd l.(methodInfoStorage) j) (fun k => reading k t' -ll entered k (nthd l.(methodInfoStorage) i))
    else nthd l.(methodInfoStorage) j.
Proof.
  intros Hok Hst Hj. cbn -[logTimesOnMethodExit].
  destruct (stack_below l j Hok) as [_ Hl]; [rewrite Hst; by right|].
  rewrite logged_callers by done. case_decide; done.
Qed.

Lemma exited_ok id t' i st l : pool_ok l -> l.(methodStack) = i :: st ->
  pool_ok (exited i st (updateExitingMethodInfo id t' l)) /\
  length (exited i st (updateExitingMethodInfo id t' l)).(methodInfoStorage) = length l.(methodInfoStorage).
Proof.
  intros Hok Hst. split; [|apply length_charged]. apply exited_pool. destruct Hok as [Hd Hb Hn Hw Hc].
  rewrite Hst in *. by split.
Qed.

Lemma same_totals_exit q id m s n p incl own : q ∈ metrics -> map measure s !! n = Some p ->
  p.(PerformanceMeasure.methodId) = id ->
  (forall id', q.1 (default (PerformanceMeasure.new_PerformanceMeasure id') (m !! id')) = total q id' (map measure s)) ->
  forall id', q.1 (default (PerformanceMeasure.new_PerformanceMeasure id') (record_sample m (id, incl, own) !! id')) =
    total q id' (alter (measured incl own) n (map measure s)).
Proof.
  intros Hq Hp Hid Htot id'. pose proof metrics_additive as Ha. rewrite Forall_forall in Ha.
  destruct (total_measured q id' incl own _ n p (Ha q Hq) Hp) as (d & Hd & ->). rewrite Hid.
  unfold record_sample. destruct (Z.eqb_spec id id') as [<-|Hne].
  - rewrite lookup_insert_eq, <- Htot, <- Hd. done.
  - by rewrite lookup_insert_ne.
Qed.

Lemma on_measure_at f n ns j : (n < length ns)%nat ->
  (forall p, (f p).(PerformanceMeasure.methodId) = p.(PerformanceMeasure.methodId)) ->
  method_of (nthd (alter (on_measure f) n ns) j) = method_of (nthd ns j) /\
  (nthd (alter (on_measure f) n ns) j).(callingMethod) = (nthd ns j).(callingMethod) /\
  (nthd (alter (on_measure f) n ns) j).(subMethods) = (nthd ns j).(subMethods).
Proof.
  intros Hn Hf. rewrite nthd_alter by done. case_decide; [subst j|done]. split_and!; [apply Hf | done..].
Qed.

Lemma tree_measure f n s : tree_ok s -> (n < length s.(nodes))%nat ->
  (forall p, (f p).(PerformanceMeasure.methodId) = p.(PerformanceMeasure.methodId)) ->
  tree_ok (mkTraces (alter (on_measure f) n s.(nodes)) s.(rootStackTraceInfos) (nthd s.(nodes) n).(callingMethod)).
Proof.
  intros [Hc Ho Hs] Hn Hf.
  pose proof (fun j => proj1 (proj2 (on_measure_at f n _ j Hn Hf))) as Hcall.
  pose proof (fun j => proj2 (proj2 (on_measure_at f n _ j Hn Hf))) as Hsub.
  split; unfold exists_in; cbn; rewrite ?length_alter.
  - intros c Hcn. specialize (Ho n c Hn Hcn). lia.
  - intros i c. rewrite Hcall. apply Ho.
  - intros o i Hex Hi. rewrite Hcall. apply Hs; [exact Hex|]. destruct o; [|done]. cbn in *. by rewrite Hsub in Hi.
Qed.

(** Leaving the method entered last keeps the profiles equal. *)
Lemma exit_same id t' l1 m l2 s i st : same_profile l1 m l2 s -> l2.(methodStack) = i :: st ->
  (nthd l2.(methodInfoStorage) i).(methodId) = id ->
  exists l1' m' l2' s', run (P:=MethodMeasures.Measures) [Exit id t'] (l1, m) = Ok (l1', m') /\
    run (P:=Traces) [Exit id t'] (l2, s) = Ok (l2', s') /\ same_profile l1' m' l2' s' /\
    length l2'.(methodInfoStorage) = length l2.(methodInfoStorage) /\
    open_methods l2 = id :: open_methods l2'.
Proof.
  intros [Ok1 Ok2 Hst Hnx Hfr Htree Htr Htot] Hs2 Hid. rewrite Hs2 in Hst, Hfr, Htr.
  apply Forall_cons_1 in Hfr as [[Hfi Hfk] Hfr]. cbn in Htr. destruct Htr as (n & Hcur & Hn & Hp & Hm & Htr).
  pose proof (head_below_distinct [] i st l2 Ok2 Hs2) as Hne.
  pose proof (exit_measures id t' i st l1 m _ _ Hst Hne ltac:(congruence) (fun _ => eq_refl) (fun _ => eq_refl)) as R1.
  pose proof (trace_exit id t' i st n l2 s Hs2 ltac:(by rewrite (pool_current _ Ok2), Hs2) Hid Hp) as R2.
  do 4 eexists. split; [exact R1|]. split; [exact R2|].
  destruct (exited_ok id t' i st l1 Ok1 Hst) as [Ok1' _]. destruct (exited_ok id t' i st l2 Ok2 Hs2) as [Ok2' Len2].
  pose proof (fun j => exited_frames id t' i st l1 j Ok1 Hst) as F1.
  pose proof (fun j => exited_frames id t' i st l2 j Ok2 Hs2) as F2.
  set (k1 := exited i st (updateExitingMethodInfo id t' l1)) in *.
  set (k2 := exited i st (updateExitingMethodInfo id t' l2)) in *.
  assert (forall j, j ∈ st -> (nthd k2.(methodInfoStorage) j).(methodId) = (nthd l2.(methodInfoStorage) j).(methodId) /\
    (nthd k2.(methodInfoStorage) j).(correspondingStackTraceMeasure) = (nthd l2.(methodInfoStorage) j).(correspondingStackTraceMeasure)) as Hid2.
  { intros j Hj. rewrite F2 by done. case_decide; [split; eapply (charge_frame _ _ Cpu) | done]. }
  split_and!; [split; try done | done |].
  - change (uint_sub (nextMethodInfoToUse l1) 1 = uint_sub (nextMethodInfoToUse l2) 1). congruence.
  - change (methodStack k2) with st. apply Forall_forall. intros j Hj. rewrite Forall_forall in Hfr.
    destruct (Hfr j Hj) as [Hji Hjk]. rewrite F1, F2 by done. case_decide; [|done].
    split; [exact Hji|]. intros k. specialize (Hjk k).
    rewrite (proj1 (proj2 (proj2 (charge_frame _ _ k)))), (proj2 (proj2 (proj2 (charge_frame _ _ k)))).
    rewrite (proj1 (proj2 (proj2 (charge_frame (nthd (methodInfoStorage l2) j) _ k)))), (proj2 (proj2 (proj2 (charge_frame (nthd (methodInfoStorage l2) j) _ k)))).
    rewrite (proj1 Hjk), (proj2 Hjk), (proj1 (Hfk k)). done.
  - by apply tree_measure.
  - eapply trace_of_ext; [| | |exact Htr].
    + change (methodStack k2) with st. apply Forall_forall. intros j Hj. destruct (Hid2 j Hj). done.
    + cbn. by rewrite length_alter.
    + intros j _. cbn. destruct (on_measure_at (logTimesOnMethodExit (exitingMethodInfo (updateExitingMethodInfo id t' l2)) i (head st) (methodInfoStorage l2)).2 n _ j Hn) as (? & ? & _); done.
  - intros q id' Hq. cbn [nodes]. rewrite measures_alter.
    rewrite (alter_ext _ (measured (fun k => reading k t' -ll entered k (nthd (methodInfoStorage l1) i)) (fun k => callees k (nthd (methodInfoStorage l1) i)))).
    + eapply same_totals_exit; [done | | | intros; by apply Htot].
      * change (map measure) with (fmap (M:=list) measure). rewrite list_lookup_fmap, nthd_lookup by done. done.
      * rewrite <- Hid, <- Hm. done.
    + intros x. rewrite logged_own by done. unfold measured.
      rewrite !(proj1 (Hfk _)), !(proj2 (Hfk _)). done.
  - unfold open_methods. rewrite Hs2. cbn [map]. rewrite Hid. f_equal. symmetry. apply map_methods. intros j Hj. by destruct (Hid2 j Hj).
Qed.

Lemma runs_same es : forall l1 m l2 s, same_profile l1 m l2 s ->
  Z.of_nat (length l2.(methodInfoStorage) + length es) < 2 ^ 32 -> matched (open_methods l2) es = true ->
  exists l1' m' l2' s', run es (l1, m) = Ok (l1', m') /\ run es (l2, s) = Ok (l2', s') /\ same_profile l1' m' l2' s'.
Proof.
  induction es as [|e es IH]; intros l1 m l2 s Hsp Hb Hm; [by do 4 eexists|].
  cbn [length] in Hb. pose proof (pool_next _ (sp_pool2 _ _ _ _ Hsp)). destruct e as [id resets t|id t]; cbn in Hm.
  - destruct (entry_same id resets t l1 m l2 s Hsp ltac:(lia)) as (b & l1' & l2' & s' & E1 & E2 & Hsp' & Hl & _ & Ho).
    rewrite <- Ho in Hm. cbn [run on_event]. rewrite E1, E2. apply IH; [done | lia | done].
  - destruct (methodStack l2) as [|i st] eqn:Hst; unfold open_methods in Hm; rewrite Hst in Hm; cbn in Hm; [done|].
    apply andb_prop in Hm as [Hi%Z.eqb_eq Hm].
    destruct (exit_same id t l1 m l2 s i st Hsp Hst (eq_sym Hi)) as (l1' & m' & l2' & s' & E1 & E2 & Hsp' & Hl & Ho).
    assert (open_methods l2' = map (fun j => methodId (nthd (methodInfoStorage l2) j)) st) as Ho'.
    { unfold open_methods in Ho at 1. rewrite Hst in Ho. cbn in Ho. congruence. }
    rewrite <- Ho' in Hm. change (Exit id t :: es) with ([Exit id t] ++ es). rewrite !run_app, E1, E2.
    apply IH; [done | lia | done].
Qed.

Lemma new_same_profile : same_profile new_MethodLog ∅ new_MethodLog new_Traces.
Proof.
  split; [apply new_pool_ok | apply new_pool_ok | done | done | constructor | apply new_tree_ok | done |].
  intros q id Hq. pose proof metrics_additive as Ha. rewrite Forall_forall in Ha.
  destruct (Ha q Hq) as (_ & _ & Hz & H0). rewrite lookup_empty.
  change (q.1 (PerformanceMeasure.new_PerformanceMeasure id) = q.2 0). by rewrite Hz, H0.
Qed.

(** ** Theorems *)

(** C26. The profile per stack trace and the profile per method agree: for every
    history of a thread in which methods are left in the order opposite to that
    in which they were entered, whether complete or not, both variants of the
    thread state record it, and every counter of a method is the sum of that
    counter over the stack traces that end in the method. *)
Theorem stack_traces_agree es : Z.of_nat (length es) < 2 ^ 32 -> matched [] es = true ->
  exists l1 m l2 s, run es (new_MethodLog, ∅) = Ok (l1, m) /\ run es (new_MethodLog, new_Traces) = Ok (l2, s) /\
    forall q id, q ∈ metrics ->
      q.1 (default (PerformanceMeasure.new_PerformanceMeasure id) (m !! id)) = total q id (map measure s.(nodes)).
Proof.
  intros Hb Hm. destruct (runs_same es _ _ _ _ new_same_profile Hb Hm) as (l1 & m & l2 & s & E1 & E2 & Hsp).
  exists l1, m, l2, s. split_and!; [done..|]. apply (sp_totals _ _ _ _ Hsp).
Qed.

(** Method 2 is called from 1 and from 3. *)
Definition two_traces : list event := [
  Entry 1 false (at_times 0 0); Entry 2 false (at_times 5 5); Exit 2 (at_times 9 9);
  Entry 3 false (at_times 10 10); Entry 2 false (at_times 11 11); Exit 2 (at_times 18 18)].

Lemma stack_traces_agree_witness : exists l1 m l2 s,
  run two_traces (new_MethodLog, ∅) = Ok (l1, m) /\ run two_traces (new_MethodLog, new_Traces) = Ok (l2, s) /\
  (default (PerformanceMeasure.new_PerformanceMeasure 2) (m !! 2)).(PerformanceMeasure.cpuTimeIncludingCalleeMethods) = 11 /\
  length (filter (fun n => method_of n = 2) s.(nodes)) = 2%nat.
Proof.
  destruct (stack_traces_agree two_traces ltac:(vm_compute; done) ltac:(vm_compute; done)) as (l1 & m & l2 & s & E1 & E2 & Ht).
  vm_compute in E2. injection E2 as <- <-. exists l1, m. do 2 eexists. split_and!; [exact E1 | by vm_compute | | by vm_compute].
  etransitivity; [|by vm_compute].
  exact (Ht (PerformanceMeasure.cpuTimeIncludingCalleeMethods, ll) 2 ltac:(unfold metrics; do 3 apply list_elem_of_further; apply list_elem_of_here)).
Defined.

(** Entering a method reports it as recursive exactly when the thread has
    entered it before and not left it, whatever matched history it has. *)
Theorem recursive_iff_open es l s id resets t : Z.of_nat (length es) < 2 ^ 32 -> matched [] es = true ->
  run es (new_MethodLog, new_Traces) = Ok (l, s) ->
  (logMethodEntry (P:=Traces) id resets t (l, s)).1 = bool_decide (id ∈ open_methods l).
Proof.
  intros Hb Hm Hrun. destruct (runs_same es _ _ _ _ new_same_profile Hb Hm) as (l1 & m & l2 & s2 & _ & E2 & Hsp).
  rewrite Hrun in E2. injection E2 as <- <-. pose proof (entry_trace id resets t l s (sp_pool2 _ _ _ _ Hsp)) as Ht.
  destruct (getCurrentStackTraceInfo id s). destruct Ht as (l' & -> & _). pose proof (sp_tree _ _ _ _ Hsp) as Htree.
  apply already_called_iff; [apply Htree | intros c Hc; by apply (tree_current _ Htree) | apply (sp_trace _ _ _ _ Hsp)].
Qed.

Lemma recursive_iff_open_witness : exists l s,
  run two_traces (new_MethodLog, new_Traces) = Ok (l, s) /\
  (logMethodEntry (P:=Traces) 3 false (at_times 20 20) (l, s)).1 = true /\
  (logMethodEntry (P:=Traces) 2 false (at_times 20 20) (l, s)).1 = false.
Proof.
  eexists _, _. split; [vm_compute; reflexivity|]. split.
  - etransitivity; [apply (recursive_iff_open two_traces); vm_compute; done | vm_compute; done].
  - etransitivity; [apply (recursive_iff_open two_traces); vm_compute; done | vm_compute; done].
Defined.

(** When the exit from the method entered last is missing, the exit from a
    method below it is measured at the wrong place: the duration of the method
    that is left is added to the measure of the method on top of the stack. *)
Theorem missed_exit_misattributed id t' top above i st n l s :
  pool_ok l -> l.(methodStack) = top :: above ++ i :: st ->
  Forall (fun j => (nthd l.(methodInfoStorage) j).(methodId) <> id) (top :: above) ->
  (nthd l.(methodInfoStorage) i).(methodId) = id ->
  (nthd l.(methodInfoStorage) top).(correspondingStackTraceMeasure) = Some n ->
  exists l' f, run [Exit id t'] (l, s) = Ok (l', mkTraces (alter (on_measure f) n s.(nodes)) s.(rootStackTraceInfos) (nthd s.(nodes) n).(callingMethod)) /\
    forall p, f p = measured (fun k => reading k t' -ll entered k (nthd l.(methodInfoStorage) i)) (fun k => callees k (nthd l.(methodInfoStorage) i)) p.
Proof.
  intros Hok Hst Habove Hid Hn. cbn [run on_event]. unfold logMethodExit. cbn [fst snd].
  change (methodStack (updateExitingMethodInfo id t' l)) with (methodStack l). rewrite Hst.
  change (top :: above ++ i :: st) with ((top :: above) ++ i :: st).
  rewrite exitFrom_skip by exact Habove. rewrite exitFrom_match by exact Hid.
  cbn [Profiling.getExitingMethodPerformanceMeasure stackTraceMeasures].
  unfold StackTraceThreadState.getExitingMethodPerformanceMeasure. cbn [fst snd].
  change (currentMethodInfo (set_methodStack st (updateExitingMethodInfo id t' l))) with (currentMethodInfo l).
  rewrite (pool_current _ Hok), Hst. cbn [head].
  change (methodInfoStorage (set_methodStack st (updateExitingMethodInfo id t' l))) with (methodInfoStorage l).
  rewrite Hn. do 2 eexists. split; [reflexivity|]. intros p. rewrite logged_own; [done|].
  by apply (head_below_distinct (top :: above) i st l).
Qed.

(** Method 1 calls 2, whose exit is missing: the 50 ns of 1 go to 2. *)
Definition inside_two : MethodLog * Traces :=
  match run [Entry 1 false (at_times 0 0); Entry 2 false (at_times 3 4)] (new_MethodLog, new_Traces)
  with Ok s => s | Err _ => (new_MethodLog, new_Traces) end.

Lemma inside_two_pool : pool_ok inside_two.1.
Proof. by apply (run_pool [Entry 1 false (at_times 0 0); Entry 2 false (at_times 3 4)] new_MethodLog new_Traces _ inside_two.2 new_pool_ok). Qed.

Lemma missed_exit_misattributed_witness : exists l' s',
  run [Exit 1 (at_times 50 60)] inside_two = Ok (l', s') /\
  map (fun n => (method_of n, n.(measure).(PerformanceMeasure.cpuTimeIncludingCalleeMethods))) s'.(nodes) = [(1, 0); (2, 50)].
Proof.
  destruct (missed_exit_misattributed 1 (at_times 50 60) 1%nat [] 0%nat [] 1%nat inside_two.1 inside_two.2 inside_two_pool
    eq_refl ltac:(repeat constructor; vm_compute; done) eq_refl eq_refl) as (l' & f & H & Hf).
  eexists l', _. split; [exact H|]. cbn [nodes].
  rewrite (alter_ext _ (on_measure (measured _ _)) _ _ (fun x => f_equal (fun p => mkNode p x.(callingMethod) x.(subMethods)) (Hf x.(measure)))).
  by vm_compute.
Defined.

End traces.
