(* ===== verification/EventLogger.v ===== *)
(** * The profile of a program

    When the profiling of a method stops (profiler/ProfilingInvalidationPolicy),
    the registry of methods and the merging of the measures of threads into
    those of the program (profiler/EventLogger, profiler/MethodData), per method
    and per stack trace.  The order in which a hash map is iterated is an
    argument; output is left out. *)
From Stdlib Require Import String.
From S2P Require Import Prelude CxxFloat Timers MethodLog StackTraces.

(** ** ProfilingInvalidationPolicy *)
Module ProfilingInvalidationPolicy.
Import PerformanceMeasure.

Inductive policy :=
| SampleBased (samplesLimit : Z)
| RelativePercentage (samplesLimit : Z) (invalidationAggregationPercentage : float)
| AbsoluteTime (samplesLimit minimumAcceptableTime : Z).

(** [pm] is [None] for a null pointer; [globalTime] is that of the timeline. *)
Definition keepOnProfiling (globalTime : Z) (pm : option PerformanceMeasure) (p : policy) : res bool :=
  match p with
  | SampleBased samplesLimit =>
    Ok match pm with
       | Some pm => negb ((samplesLimit <? getMethodInvocations pm) && negb (isTheInstrumentationProfilingMethod pm))
       | None => true
       end
  | RelativePercentage samplesLimit percentage =>
    Ok match pm with
       | Some pm =>
         if (samplesLimit <? getMethodInvocations pm) && negb (isTheInstrumentationProfilingMethod pm)
         then negb (f_ltb (ll_to_f32 pm.(estimatedRealTimeIncludingCalleeMethods)) (f32_mul percentage (ll_to_f32 globalTime)))
         else true
       | None => true
       end
  | AbsoluteTime samplesLimit minimumAcceptableTime =>
    match pm with
    | None => Err NullDereference
    | Some pm =>
      let samples := getMethodInvocations pm in
      if samples =? 0 then Ok true
      else if samplesLimit =? 0 then Err DivisionByZero
      else let ratio := samples / samplesLimit in
        Ok (if (0 <? ratio) && negb (isTheInstrumentationProfilingMethod pm)
            then negb (pm.(estimatedRealTimeIncludingCalleeMethods) <? ratio *ll minimumAcceptableTime)
            else true)
    end
  end.

(** What the exit from a method does with the measure that it has added to:
    whether the method is to be profiled no longer. *)
Definition judge (globalTime : Z) (methodLog : option PerformanceMeasure) (invalidationPolicy : option policy) : res bool :=
  match invalidationPolicy with
  | None => Ok false
  | Some p => keep ← keepOnProfiling globalTime methodLog p; Ok (negb keep)
  end.

(** [beforeMethodExit] of a thread, on its log and measures. *)
Definition beforeMethodExit (globalTime : Z) (invalidationPolicy : option policy) (methodId : Z) (t : Timers.Timers)
    (s : MethodLog * MethodMeasures.Measures) : res (bool * (MethodLog * MethodMeasures.Measures)) :=
  '(k, s) ← Profiling.logMethodExit (H := MethodMeasures.methodMeasures) (Profiling.updateExitingMethodInfo methodId t s.1, s.2);
  b ← judge globalTime ((k : option Z) ≫= fun k => s.2 !! k) invalidationPolicy;
  Ok (b, s).

End ProfilingInvalidationPolicy.

(** ** EventLogger *)
Module EventLogger.
Import PerformanceMeasure.

Record MethodData := mkMethodData {
  name : string;
  method_id : Z;
  methodIdOfFirstInstrumentedMethodOfClass : Z;
  invalidated : bool;
  recursive : bool;
}.

(** The index operator of the map leaves a null pointer at a key it does not
    find, so that a method may be registered with one. *)
Record EventLogger := mkEventLogger {
  measures : gmap Z PerformanceMeasure;
  registeredMethodNames : gmap Z (option MethodData);
  allThreadsInvocationPoints : Z;
}.

Definition new_EventLogger : EventLogger := mkEventLogger ∅ ∅ 0.

Definition set_measures (m : gmap Z PerformanceMeasure) (e : EventLogger) : EventLogger :=
  mkEventLogger m e.(registeredMethodNames) e.(allThreadsInvocationPoints).
Definition set_registeredMethodNames (r : gmap Z (option MethodData)) (e : EventLogger) : EventLogger :=
  mkEventLogger e.(measures) r e.(allThreadsInvocationPoints).

Definition reset (e : EventLogger) : EventLogger := mkEventLogger ∅ e.(registeredMethodNames) 0.

Definition registerMethod (_fqName : string) (methodId : Z) (e : EventLogger) : EventLogger :=
  set_registeredMethodNames (<[methodId := Some (mkMethodData _fqName methodId 0 false false)]> e.(registeredMethodNames)) e.

Definition registerMethodOfClass (_fqName : string) (methodId method0 : Z) (e : EventLogger) : EventLogger :=
  set_registeredMethodNames (<[methodId := Some (mkMethodData _fqName methodId method0 false false)]> e.(registeredMethodNames)) e.

(** [registeredMethodNames[methodId]]. *)
Definition index (methodId : Z) (e : EventLogger) : option MethodData * EventLogger :=
  match e.(registeredMethodNames) !! methodId with
  | Some d => (d, e)
  | None => (None, set_registeredMethodNames (<[methodId := None]> e.(registeredMethodNames)) e)
  end.

Definition getMethodDataOf (methodId : Z) (e : EventLogger) : option MethodData * EventLogger := index methodId e.

Definition getMethod0 (methodId : Z) (e : EventLogger) : Z * EventLogger :=
  let '(d, e) := index methodId e in
  (match d with Some d => d.(methodIdOfFirstInstrumentedMethodOfClass) | None => 0 end, e).

(** The iteration meets the entries in the order of [entries], up to the first
    with the name; 0 if there is none. *)
Fixpoint getRegisteredMethodId (_fqName : string) (entries : list (Z * option MethodData)) : res Z :=
  match entries with
  | [] => Ok 0
  | (_, None) :: _ => Err NullDereference
  | (methodId, Some tempMethod) :: entries =>
    if String.eqb tempMethod.(name) _fqName then Ok methodId else getRegisteredMethodId _fqName entries
  end.

Section names.
(** The name of a method that is registered with a null pointer is a pointer to
    a buffer that is gone: what a reader finds there. *)
Variable dangling : string.

Definition getMethodName (methodId : Z) (e : EventLogger) : string * EventLogger :=
  let '(d, e) := index methodId e in
  (match d with Some d => d.(name) | None => dangling end, e).

(** A turn of the loop of [createMeasuresForThread]. *)
Definition mergeMeasure (entry : Z * PerformanceMeasure) (e : EventLogger) : EventLogger :=
  let '(methodId, pm1) := entry in
  let pm1 := setMethodId methodId pm1 in
  match e.(measures) !! methodId with
  | Some pm2 => set_measures (<[methodId := plus_assign pm1 pm2]> e.(measures)) e
  | None =>
    match e.(registeredMethodNames) !! methodId with
    | Some (Some methodData) =>
      set_measures (<[methodId := setMethodName methodData.(name) pm1]> e.(measures)) e
    | Some None =>
      let '(n, e) := getMethodName methodId e in
      set_measures (<[methodId := setMethodName n pm1]> e.(measures)) e
    | None => e
    end
  end.

(** [threadMeasures] are the measures of a thread in the order of the iteration. *)
Definition createMeasuresForThread (threadMeasures : list (Z * PerformanceMeasure)) (e : EventLogger) : EventLogger :=
  foldl (fun e entry => mergeMeasure entry e) e threadMeasures.

Definition onThreadEnd (threadMeasures : list (Z * PerformanceMeasure)) (e : EventLogger) : EventLogger :=
  createMeasuresForThread threadMeasures e.

End names.

(** The time that the report divides by, [writeDataVTFStyle] and [writeDataHprofStyle]. *)
Definition serializedExecutionTime (entries : list (Z * PerformanceMeasure)) : Z :=
  foldl (fun t entry => t +ll entry.2.(cpuTimeExcludingCalleeMethods)) 0 entries.

End EventLogger.

(** ** StackTraceLogger *)
Module StackTraceLogger.
Import PerformanceMeasure.

(** A measure with its submethods, which are a null pointer until it has some. *)
Inductive Trace := mkTrace (pm : PerformanceMeasure) (subMethods : option (list Trace)).

Definition pm_of (t : Trace) : PerformanceMeasure := let 'mkTrace pm _ := t in pm.
Definition subs_of (t : Trace) : list Trace := let 'mkTrace _ s := t in default [] s.

Section merge.
(** [getMethodName]. *)
Variable nameOf : Z -> string.

Definition named (pm : PerformanceMeasure) : PerformanceMeasure :=
  match pm.(methodName) with None => setMethodName (nameOf pm.(methodId)) pm | Some _ => pm end.

(** A turn of the loop of [mergeMeasures] over the measures of the thread. *)
Fixpoint mergeMeasure (thread : Trace) (globalNode : list Trace) {struct thread} : list Trace :=
  let 'mkTrace threadPm threadSubs := thread in
  (fix scan globalNode :=
    match globalNode with
    | [] => [mkTrace (named threadPm) threadSubs]
    | mkTrace globalPm globalSubs :: rest =>
      if globalPm.(methodId) =? threadPm.(methodId) then
        let subs := match globalSubs with
          | Some g => Some (match threadSubs with Some ts => fold_left (fun g t => mergeMeasure t g) ts g | None => g end)
          | None => threadSubs
          end in
        mkTrace (named (plus_assign threadPm globalPm)) subs :: rest
      else mkTrace globalPm globalSubs :: scan rest
    end) globalNode.

Definition mergeMeasures (globalNode threadNode : list Trace) : list Trace :=
  fold_left (fun g t => mergeMeasure t g) threadNode globalNode.

(** [measuresRoots] is null until the first thread is merged. *)
Definition createMeasuresForThread (threadMeasureRoots : list Trace) (measuresRoots : option (list Trace)) : option (list Trace) :=
  match measuresRoots with
  | None => Some threadMeasureRoots
  | Some roots => Some (mergeMeasures roots threadMeasureRoots)
  end.

End merge.
End StackTraceLogger.

(** ** Theorems *)
Section policies.
Import PerformanceMeasure ProfilingInvalidationPolicy MethodLog Profiling.

(** A method stops being profiled only after as many samples as the limit, and
    the method that measures the instrumentation never does. *)
Lemma invalidated_after_limit g pm p : keepOnProfiling g pm p = Ok false ->
  exists m, pm = Some m /\ isTheInstrumentationProfilingMethod m = false /\
    match p with
    | SampleBased limit => limit < m.(samples)
    | RelativePercentage limit _ => limit < m.(samples)
    | AbsoluteTime limit minimum => limit <> 0 /\ 0 < m.(samples) / limit
    end.
Proof.
  destruct p as [limit|limit pct|limit minimum], pm as [m|]; cbn; try done; intros H; exists m; (split; [done|]);
    unfold getMethodInvocations in H.
  - injection H as H. apply negb_false_iff, andb_prop in H as [?%Z.ltb_lt ?%negb_true_iff]. done.
  - destruct ((limit <? samples m) && _) eqn:E; [|done]. apply andb_prop in E as [?%Z.ltb_lt ?%negb_true_iff]. done.
  - destruct (samples m =? 0); [done|]. destruct (Z.eqb_spec limit 0); [done|].
    destruct ((0 <? samples m / limit) && _) eqn:E; [|done]. apply andb_prop in E as [?%Z.ltb_lt ?%negb_true_iff]. done.
Qed.

(** An exit from a method that the thread has not entered, which happens
    when code outside it is instrumented and which the exit itself tolerates,
    ends the program under the policy with an absolute time; the other
    policies, and the lack of one, let the method be profiled on. *)
Theorem stray_exit_judged g policy id t l m : pool_ok l ->
  Forall (fun j => (nthd l.(methodInfoStorage) j).(MethodCallInfo.methodId) <> id) l.(methodStack) ->
  match policy with
  | Some (AbsoluteTime _ _) => beforeMethodExit g policy id t (l, m) = Err NullDereference
  | _ => exists l', beforeMethodExit g policy id t (l, m) = Ok (false, (l', m)) /\ l'.(methodStack) = []
  end.
Proof.
  intros Hok Hst. unfold beforeMethodExit, logMethodExit. cbn [fst snd].
  change (methodStack (updateExitingMethodInfo id t l)) with (methodStack l).
  rewrite <- (app_nil_r (methodStack l)). rewrite exitFrom_skip by exact Hst. cbn [mbind res_bind exitFrom option_bind fst snd].
  destruct policy as [[]|]; cbn; try (by eexists); done.
Qed.

Lemma stray_exit_judged_witness :
  beforeMethodExit 0 (Some (AbsoluteTime 10 1000)) 7 (at_times 5 5) (new_MethodLog, ∅) = Err NullDereference.
Proof. exact (stray_exit_judged 0 (Some (AbsoluteTime 10 1000)) 7 (at_times 5 5) new_MethodLog ∅ new_pool_ok (Forall_nil_2 _)). Defined.

End policies.

Section names.
Import EventLogger.

(** A question about a method that is not registered leaves a null pointer
    in the registry: from then on, looking for a name that is not registered
    follows it, in whatever order the map is iterated. *)
Theorem unknown_method_poisons_registry id e fqName entries :
  e.(registeredMethodNames) !! id = None ->
  entries ≡ₚ map_to_list (getMethod0 id e).2.(registeredMethodNames) ->
  (forall i d, e.(registeredMethodNames) !! i = Some (Some d) -> d.(name) <> fqName) ->
  getRegisteredMethodId fqName entries = Err NullDereference.
Proof.
  intros Hid Hperm Hname. unfold getMethod0, index in Hperm. rewrite Hid in Hperm. cbn in Hperm.
  assert ((id, None) ∈ entries) as Hin.
  { rewrite Hperm. apply elem_of_map_to_list, lookup_insert_eq. }
  assert (forall i d, (i, Some d) ∈ entries -> d.(name) <> fqName) as Hno.
  { intros i d Hi. rewrite Hperm, elem_of_map_to_list in Hi. destruct (decide (i = id)) as [->|].
    - by rewrite lookup_insert_eq in Hi.
    - rewrite lookup_insert_ne in Hi by done. by apply (Hname i). }
  clear -Hin Hno. induction entries as [|[i [d|]] entries IH]; cbn; [set_solver| |done].
  destruct (String.eqb_spec (name d) fqName) as [Heq|_].
  - by destruct (Hno i d ltac:(by left)).
  - apply IH; [set_solver|]. intros j c Hj. apply (Hno j). by right.
Qed.

Definition one_method : EventLogger := registerMethod "Main.main" 1 new_EventLogger.

Lemma unknown_method_poisons_registry_witness :
  getRegisteredMethodId "Main.run" (map_to_list one_method.(registeredMethodNames)) = Ok 0 /\
  getRegisteredMethodId "Main.run" (map_to_list (getMethod0 2 one_method).2.(registeredMethodNames)) = Err NullDereference.
Proof.
  split; [by vm_compute|]. apply (unknown_method_poisons_registry 2 one_method); [by vm_compute | done|].
  intros i d Hi. destruct (decide (i = 1)) as [->|].
  - injection Hi as <-. done.
  - unfold one_method, registerMethod in Hi. cbn in Hi. rewrite lookup_insert_ne in Hi by congruence. by rewrite lookup_empty in Hi.
Defined.

End names.

(** ** Merging the measures of threads *)

(** The counters that [operator+=] adds. *)
Definition merged_metrics : list metric := [
  (PerformanceMeasure.samples, uwrap 32);
  (PerformanceMeasure.cpuTimeExcludingCalleeMethods, ll);
  (PerformanceMeasure.estimatedRealTimeExcludingCalleeMethods, ll);
  (PerformanceMeasure.cpuTimeIncludingCalleeMethods, ll);
  (PerformanceMeasure.estimatedRealTimeIncludingCalleeMethods, ll)].

(** What merging relies on: a counter ignores identifier and name, and is added in its width. *)
Definition mergeable (q : metric) : Prop :=
  (forall p1 p2, q.1 (PerformanceMeasure.plus_assign p1 p2) = q.2 (q.1 p2 + q.1 p1)) /\
  (forall id p, q.1 (PerformanceMeasure.setMethodId id p) = q.1 p) /\
  (forall n p, q.1 (PerformanceMeasure.setMethodName n p) = q.1 p) /\
  (forall a b, q.2 (q.2 a + b) = q.2 (a + b)) /\ (forall id, q.1 (PerformanceMeasure.new_PerformanceMeasure id) = 0).

Lemma merged_metrics_mergeable : Forall mergeable merged_metrics.
Proof.
  repeat constructor; cbn; try (intros; apply uwrap_add_l); try (intros; apply ll_add_ll).
Qed.

Lemma mergeable_norm q a : mergeable q -> q.2 (q.2 a) = q.2 a.
Proof. intros (_ & _ & _ & Hn & _). specialize (Hn a 0). by rewrite !Z.add_0_r in Hn. Qed.

Section merging.
Import PerformanceMeasure EventLogger.
Context (dangling : string).

Definition measure_of (q : metric) (id : Z) (e : EventLogger) : Z :=
  q.1 (default (new_PerformanceMeasure id) (e.(measures) !! id)).
Definition of_method (q : metric) (id : Z) (entries : list (Z * PerformanceMeasure)) : Z :=
  sum_of (fun en => if en.1 =? id then q.1 en.2 else 0) entries.

Lemma mergeMeasure_registry entry e : (mergeMeasure dangling entry e).(registeredMethodNames) = e.(registeredMethodNames).
Proof.
  destruct entry as [id pm]. unfold mergeMeasure. destruct (measures e !! id); [done|].
  destruct (registeredMethodNames e !! id) as [[d|]|] eqn:E; [done| |done].
  unfold getMethodName, index. by rewrite E.
Qed.

Lemma mergeMeasure_adds q id entry e : mergeable q -> is_Some (e.(registeredMethodNames) !! id) ->
  q.2 (measure_of q id (mergeMeasure dangling entry e)) =
    q.2 (measure_of q id e + (if entry.1 =? id then q.1 entry.2 else 0)).
Proof.
  intros Hm [d Hd]. pose proof Hm as (Hp & Hi & Hn & Hw & Hz). destruct entry as [id' pm]. cbn [fst snd]. unfold mergeMeasure, measure_of.
  destruct (Z.eqb_spec id' id) as [->|Hne].
  - destruct (measures e !! id) as [pm2|] eqn:E.
    + cbn [measures set_measures]. rewrite lookup_insert_eq.
      change (q.2 (q.1 (plus_assign (setMethodId id pm) pm2)) = q.2 (q.1 pm2 + q.1 pm)).
      rewrite Hp, Hi. by apply mergeable_norm.
    + rewrite Hd. assert (q.1 (default (new_PerformanceMeasure id) None) = 0) as Hnone by apply Hz.
      rewrite Hnone. destruct d as [d|]; [|unfold getMethodName, index; rewrite Hd]; cbn [measures set_measures];
        rewrite lookup_insert_eq; match goal with |- q.2 (q.1 (default _ (Some ?x))) = _ => change (q.2 (q.1 x) = q.2 (0 + q.1 pm)) end;
        by rewrite Hn, Hi.
  - rewrite Z.add_0_r. f_equal. f_equal. f_equal.
    destruct (measures e !! id') as [pm2|]; [cbn; by rewrite lookup_insert_ne|].
    destruct (registeredMethodNames e !! id') as [[d'|]|] eqn:E; [cbn; by rewrite lookup_insert_ne| |done].
    unfold getMethodName, index. rewrite E. cbn. by rewrite lookup_insert_ne.
Qed.

(** After the measures of any threads have been merged, in whatever order
    the threads end and their maps are iterated, invocations and CPU and
    estimated real times of a registered method are the sums over the threads. *)
Theorem merge_adds_up q id threads e : q ∈ merged_metrics -> is_Some (e.(registeredMethodNames) !! id) ->
  q.2 (measure_of q id (foldl (fun e t => onThreadEnd dangling t e) e threads)) =
    q.2 (measure_of q id e + sum_of (of_method q id) threads).
Proof.
  intros Hq Hd. pose proof merged_metrics_mergeable as Hm. rewrite Forall_forall in Hm. specialize (Hm q Hq).
  assert (forall entries e, is_Some (e.(registeredMethodNames) !! id) ->
    q.2 (measure_of q id (onThreadEnd dangling entries e)) = q.2 (measure_of q id e + of_method q id entries) /\
    is_Some ((onThreadEnd dangling entries e).(registeredMethodNames) !! id)) as Hthread.
  { clear e Hd. unfold onThreadEnd, createMeasuresForThread.
    induction entries as [|en entries IH]; intros e Hd; cbn [foldl]; [by rewrite Z.add_0_r|].
    destruct (IH (mergeMeasure dangling en e)) as [-> ?]; [by rewrite mergeMeasure_registry|]. split; [|done].
    pose proof Hm as (_ & _ & _ & Hw & _). rewrite <- Hw, mergeMeasure_adds, Hw by done. f_equal. unfold of_method, sum_of. cbn. lia. }
  revert e Hd. induction threads as [|t threads IH]; intros e Hd; cbn [foldl]; [by rewrite Z.add_0_r|].
  destruct (Hthread t e Hd) as [Ht Hd']. rewrite IH by done.
  pose proof Hm as (_ & _ & _ & Hw & _). rewrite <- Hw, Ht, Hw. f_equal. unfold sum_of. cbn. lia.
Qed.

Definition two_threads : list (list (Z * PerformanceMeasure)) := [
  [(1, add 15 40 20 100 3 0 3 0 (new_PerformanceMeasure 1)); (2, add 5 5 5 5 0 0 0 0 (new_PerformanceMeasure 2))];
  [(1, add 10 50 10 60 7 1 7 1 (new_PerformanceMeasure 1))]].

Definition registry : EventLogger := registerMethod "A.f" 1 (registerMethod "A.g" 2 new_EventLogger).

(** The waiting times of a method stay those of the thread merged first. *)
Definition waits (p : PerformanceMeasure) : Z * Z * Z * Z :=
  (p.(monitorWaitExcludingCalleeMethods), p.(ioWaitExcludingCalleeMethods),
   p.(monitorWaitIncludingCalleeMethods), p.(ioWaitIncludingCalleeMethods)).

(** Once a method has a merged measure, no further thread adds to its
    monitor and I/O waiting times: those of all threads but the first are lost. *)
Theorem merge_forgets_waits id p threads e : e.(measures) !! id = Some p ->
  exists p', (foldl (fun e t => onThreadEnd dangling t e) e threads).(measures) !! id = Some p' /\ waits p' = waits p.
Proof.
  assert (forall entry e p, e.(measures) !! id = Some p ->
    exists p', (mergeMeasure dangling entry e).(measures) !! id = Some p' /\ waits p' = waits p) as Hone.
  { clear. intros [id' pm] e p Hp. unfold mergeMeasure. destruct (decide (id' = id)) as [->|Hne].
    - rewrite Hp. eexists. cbn. by rewrite lookup_insert_eq.
    - exists p. split; [|done].
      destruct (measures e !! id') as [pm2|]; [cbn; by rewrite lookup_insert_ne|].
      destruct (registeredMethodNames e !! id') as [[d'|]|] eqn:E; [cbn; by rewrite lookup_insert_ne| |done].
      unfold getMethodName, index. rewrite E. cbn. by rewrite lookup_insert_ne. }
  assert (forall entries e p, e.(measures) !! id = Some p ->
    exists p', (onThreadEnd dangling entries e).(measures) !! id = Some p' /\ waits p' = waits p) as Hthread.
  { clear -Hone. unfold onThreadEnd, createMeasuresForThread.
    induction entries as [|en entries IH]; intros e p Hp; cbn [foldl]; [by exists p|].
    destruct (Hone en e p Hp) as (p1 & H1 & W1). destruct (IH _ _ H1) as (p2 & H2 & W2). exists p2. by rewrite W2. }
  revert e p. induction threads as [|t threads IH]; intros e p Hp; cbn [foldl]; [by exists p|].
  destruct (Hthread t e p Hp) as (p1 & H1 & W1). destruct (IH _ _ H1) as (p2 & H2 & W2). exists p2. by rewrite W2.
Qed.

End merging.

Lemma merge_adds_up_witness :
  measure_of (PerformanceMeasure.samples, uwrap 32) 1 (foldl (fun e t => EventLogger.onThreadEnd EmptyString t e) registry two_threads) = 2 /\
  uwrap 32 (measure_of (PerformanceMeasure.samples, uwrap 32) 1 (foldl (fun e t => EventLogger.onThreadEnd EmptyString t e) registry two_threads)) = 2.
Proof.
  split; [by vm_compute|]. etransitivity; [|by vm_compute].
  apply (merge_adds_up EmptyString (PerformanceMeasure.samples, uwrap 32) 1 two_threads registry); [apply list_elem_of_here|].
  by exists (Some (EventLogger.mkMethodData "A.f" 1 0 false false)).
Defined.

(** The 7 ns that the second thread waited are lost. *)
Definition merged_once : EventLogger.EventLogger := EventLogger.onThreadEnd EmptyString (hd [] two_threads) registry.
Definition first_measure : PerformanceMeasure.PerformanceMeasure :=
  default (PerformanceMeasure.new_PerformanceMeasure 1) (merged_once.(EventLogger.measures) !! 1).

Lemma merge_forgets_waits_witness : exists p',
  (foldl (fun e t => EventLogger.onThreadEnd EmptyString t e) merged_once (tl two_threads)).(EventLogger.measures) !! 1 = Some p' /\
  waits p' = (3, 0, 3, 0).
Proof.
  destruct (merge_forgets_waits EmptyString 1 first_measure (tl two_threads) merged_once) as (p' & H & W); [by vm_compute|].
  exists p'. split; [exact H|]. rewrite W. by vm_compute.
Defined.

(** ** Merging stack traces *)
Section traces.
Import PerformanceMeasure StackTraceLogger.
Context (nameOf : Z -> string).

(** A counter, summed over the measures at the end of a stack trace. *)
Fixpoint path_total (q : PerformanceMeasure -> Z) (path : list Z) (ts : list Trace) : Z :=
  match path with
  | [] => 0
  | id :: rest => sum_of (fun t =>
      if (pm_of t).(methodId) =? id then
        match rest with [] => q (pm_of t) | _ => path_total q rest (subs_of t) end
      else 0) ts
  end.

Lemma path_total_nil q path : path_total q path [] = 0.
Proof. by destruct path. Qed.

Lemma path_total_cons q path t ts : path_total q path (t :: ts) = path_total q path [t] + path_total q path ts.
Proof. destruct path as [|id rest]; [done|]. unfold path_total, sum_of. cbn. lia. Qed.

Lemma named_methodId p : (named nameOf p).(methodId) = p.(methodId).
Proof. unfold named. by destruct (methodName p). Qed.

Lemma named_counter q p : mergeable q -> q.1 (named nameOf p) = q.1 p.
Proof. intros (_ & _ & Hn & _). unfold named. destruct (methodName p); [done | apply Hn]. Qed.

(** What is found at a path below a measure. *)
Definition below (q : PerformanceMeasure -> Z) (rest : list Z) (t : Trace) : Z :=
  match rest with [] => q (pm_of t) | _ => path_total q rest (subs_of t) end.

Lemma path_total_one q id rest t : path_total q (id :: rest) [t] = if (pm_of t).(methodId) =? id then below q rest t else 0.
Proof. unfold below. cbn [path_total]. unfold sum_of. cbn [foldr]. lia. Qed.

Lemma merge_one q path : mergeable q -> forall t g,
  q.2 (path_total q.1 path (mergeMeasure nameOf t g)) = q.2 (path_total q.1 path g + path_total q.1 path [t]).
Proof.
  intros Hq. pose proof Hq as (Hp & _ & _ & Hw & _). induction path as [|id rest IHp]; intros t g; [done|].
  assert (forall ts g, q.2 (path_total q.1 rest (fold_left (fun g t => mergeMeasure nameOf t g) ts g)) =
                       q.2 (path_total q.1 rest g + path_total q.1 rest ts)) as Hfold.
  { induction ts as [|u ts IH]; intros g'; cbn [fold_left]; [by rewrite path_total_nil, Z.add_0_r|].
    rewrite IH, (path_total_cons _ _ u ts), Z.add_assoc. rewrite <- Hw, IHp, Hw. done. }
  destruct t as [tpm tsubs]. induction g as [|[gpm gsubs] g IHg].
  - cbn [mergeMeasure]. rewrite path_total_nil, !path_total_one. cbn [pm_of]. rewrite named_methodId. unfold below.
    cbn [pm_of subs_of]. by rewrite named_counter.
  - rewrite (path_total_cons _ _ _ g). cbn [mergeMeasure]. destruct (Z.eqb_spec (methodId gpm) (methodId tpm)) as [Heq|Hne].
    + rewrite (path_total_cons _ _ _ g), !path_total_one. cbn [pm_of]. rewrite named_methodId.
      change (methodId (plus_assign tpm gpm)) with (methodId gpm). rewrite Heq.
      destruct (methodId tpm =? id); [|f_equal; lia].
      assert (q.2 (below q.1 rest (mkTrace (named nameOf (plus_assign tpm gpm))
        (match gsubs with Some g0 => Some (match tsubs with Some ts => fold_left (fun g t => mergeMeasure nameOf t g) ts g0 | None => g0 end) | None => tsubs end)))
        = q.2 (below q.1 rest (mkTrace gpm gsubs) + below q.1 rest (mkTrace tpm tsubs))) as Hb.
      { unfold below. destruct rest as [|id' rest']; cbn [pm_of subs_of].
        - rewrite named_counter, Hp by done. by apply mergeable_norm.
        - destruct gsubs as [g0|], tsubs as [ts|]; cbn [default].
          + apply Hfold.
          + change (default [] None) with (@nil Trace). by rewrite path_total_nil, Z.add_0_r.
          + change (default [] None) with (@nil Trace). by rewrite path_total_nil.
          + change (default [] None) with (@nil Trace). by rewrite path_total_nil. }
      rewrite <- Hw, Hb, Hw. f_equal. lia.
    + cbn [mergeMeasure] in IHg. rewrite path_total_cons, Z.add_comm, <- Hw, IHg, Hw. f_equal. lia.
Qed.

(** Merging the trees of stack traces of any threads adds up, at every
    stack trace, invocations and CPU and estimated real times; a thread that is
    merged into nothing is taken as it is. *)
Theorem merged_traces_add_up q path threads roots : q ∈ merged_metrics ->
  q.2 (path_total q.1 path (default [] (foldl (fun roots ts => createMeasuresForThread nameOf ts roots) roots threads))) =
    q.2 (path_total q.1 path (default [] roots) + sum_of (path_total q.1 path) threads).
Proof.
  intros Hq. pose proof merged_metrics_mergeable as Hm. rewrite Forall_forall in Hm. specialize (Hm q Hq).
  pose proof Hm as (_ & _ & _ & Hw & _).
  assert (forall ts g, q.2 (path_total q.1 path (mergeMeasures nameOf g ts)) = q.2 (path_total q.1 path g + path_total q.1 path ts)) as Hts.
  { unfold mergeMeasures. induction ts as [|t ts IH]; intros g; cbn [fold_left]; [by rewrite path_total_nil, Z.add_0_r|].
    rewrite IH, (path_total_cons _ _ t ts), Z.add_assoc. rewrite <- Hw, merge_one, Hw by done. done. }
  revert roots. induction threads as [|ts threads IH]; intros roots; cbn [foldl]; [by rewrite Z.add_0_r|].
  rewrite IH. unfold sum_of at 2. cbn [foldr]. fold (sum_of (path_total q.1 path) threads).
  rewrite Z.add_assoc, <- (Hw (path_total q.1 path (default [] roots) + _)). rewrite <- Hw. f_equal. f_equal.
  destruct roots as [g|]; cbn [createMeasuresForThread].
  - apply Hts.
  - change (default [] None) with (@nil Trace). by rewrite path_total_nil.
Qed.

(** The second thread calls method 2 also from method 3. *)
Definition two_trees : list (list Trace) := [
  [mkTrace (add 15 40 20 100 3 0 3 0 (new_PerformanceMeasure 1)) (Some [mkTrace (add 5 5 5 5 0 0 0 0 (new_PerformanceMeasure 2)) None])];
  [mkTrace (add 1 1 10 10 0 0 0 0 (new_PerformanceMeasure 1)) (Some [mkTrace (add 9 9 9 9 0 0 0 0 (new_PerformanceMeasure 2)) None]);
   mkTrace (add 2 2 4 4 0 0 0 0 (new_PerformanceMeasure 3)) (Some [mkTrace (add 2 2 2 2 0 0 0 0 (new_PerformanceMeasure 2)) None])]].

End traces.

Lemma merged_traces_add_up_witness :
  ll (path_total PerformanceMeasure.cpuTimeIncludingCalleeMethods [1; 2]
    (default [] (foldl (fun roots ts => StackTraceLogger.createMeasuresForThread (fun _ => EmptyString) ts roots) None two_trees))) = 14.
Proof.
  etransitivity; [|by vm_compute].
  apply (merged_traces_add_up (fun _ => EmptyString) (PerformanceMeasure.cpuTimeIncludingCalleeMethods, ll) [1; 2] two_trees None).
  do 3 apply list_elem_of_further. apply list_elem_of_here.
Defined.
