(* ===== verification/QuickSort.v ===== *)
(** * The sort of the median predictor

    MedianCyclicBuffer::sort, src/src/vex/io/PredictionMethod.cpp: an in-place
    quicksort on a part of an array.  It may read one element behind the part
    it sorts, and behind the array: [past] is what it finds there. *)
From S2P Require Import Prelude.

Module QuickSort.

Section sort.
Context (past : Z).

(** [data[k]] in the memory of the array; [data] points to the position [b]. *)
Definition rd (mem : list Z) (k : nat) : Z := default past (mem !! k).
Definition swap (mem : list Z) (i j : nat) : list Z := <[j := rd mem i]> (<[i := rd mem j]> mem).

(** [while (data[++i] < v && i < N)]. *)
Fixpoint scanUp (fuel : nat) (mem : list Z) (b N : nat) (v : Z) (i : nat) : res nat :=
  match fuel with
  | O => Err OutOfFuel
  | S fuel =>
    let i := S i in
    if (rd mem (b + i) <? v) && (i <? N)%nat then scanUp fuel mem b N v i else Ok i
  end.

(** [while (data[--j] > v)]; in front of the part it has no business. *)
Fixpoint scanDown (mem : list Z) (b : nat) (v : Z) (j : nat) : res nat :=
  match j with
  | O => Err OutOfBounds
  | S j => if v <? rd mem (b + j) then scanDown mem b v j else Ok j
  end.

(** The loop over both. *)
Fixpoint partition (fuel : nat) (mem : list Z) (b N : nat) (v : Z) (i j : nat) : res (list Z * nat) :=
  match fuel with
  | O => Err OutOfFuel
  | S fuel =>
    i ← scanUp (S N) mem b N v i;
    j ← scanDown mem b v j;
    if (j <=? i)%nat then Ok (mem, i) else partition fuel (swap mem (b + i) (b + j)) b N v i j
  end.

(** [sort(data, N)] with [data] at [b]. *)
Fixpoint sort (fuel : nat) (mem : list Z) (b N : nat) : res (list Z) :=
  match fuel with
  | O => Err OutOfFuel
  | S fuel =>
    if (N <=? 1)%nat then Ok mem
    else
      let v := rd mem b in
      '(mem, i) ← partition (S N) mem b N v 0 N;
      let mem := swap mem (b + (i - 1)) b in
      mem ← sort fuel mem b (i - 1);
      sort fuel mem (b + i) (N - i)
  end.

End sort.
End QuickSort.

(** ** Correctness *)
Section correct.
Import QuickSort.
Context (past : Z).
Local Abbreviation rd := (rd past).
Local Abbreviation swap := (swap past).

Lemma rd_swap mem i j k : (i < length mem)%nat -> (j < length mem)%nat ->
  rd (swap mem i j) k = if decide (k = j) then rd mem i else if decide (k = i) then rd mem j else rd mem k.
Proof.
  intros Hi Hj. unfold QuickSort.swap, QuickSort.rd.
  destruct (decide (k = j)) as [->|]; [by rewrite list_lookup_insert_eq by (rewrite length_insert; lia)|].
  rewrite list_lookup_insert_ne by congruence.
  destruct (decide (k = i)) as [->|]; [by rewrite list_lookup_insert_eq by lia|].
  by rewrite list_lookup_insert_ne by congruence.
Qed.

Lemma length_swap mem i j : length (swap mem i j) = length mem.
Proof. unfold QuickSort.swap. by rewrite !length_insert. Qed.

Lemma swap_perm mem i j : (i < length mem)%nat -> (j < length mem)%nat -> swap mem i j ≡ₚ mem.
Proof.
  intros Hi Hj. unfold QuickSort.swap.
  apply lookup_lt_is_Some in Hi as [x Hx]. apply lookup_lt_is_Some in Hj as [y Hy].
  unfold QuickSort.rd. rewrite Hx, Hy. cbn.
  destruct (decide (i = j)) as [->|Hne].
  - simplify_eq. rewrite list_insert_insert_eq, list_insert_id by done. done.
  - apply Permutation_inj. split; [by rewrite !length_insert|].
    exists (fun k => if decide (k = i) then j else if decide (k = j) then i else k). split.
    + intros a b. repeat case_decide; congruence.
    + intros k. destruct (decide (k = i)) as [->|]; [|destruct (decide (k = j)) as [->|]].
      * rewrite list_lookup_insert_ne by done. rewrite list_lookup_insert_eq by (by eapply lookup_lt_Some). done.
      * rewrite list_lookup_insert_eq by (rewrite length_insert; by eapply lookup_lt_Some). done.
      * rewrite !list_lookup_insert_ne by done. done.
Qed.

(** [mem'] rearranges the elements of [mem] at the positions from [b] on, [N] of
    them, and nothing else. *)
Record rearranged (b N : nat) (mem mem' : list Z) : Prop := {
  re_perm : mem' ≡ₚ mem;
  re_outside k : (k < b \/ b + N <= k)%nat -> rd mem' k = rd mem k;
  re_inside (P : Z -> Prop) : (forall k, (k < N)%nat -> P (rd mem (b + k))) -> forall k, (k < N)%nat -> P (rd mem' (b + k));
}.

Lemma re_length b N mem mem' : rearranged b N mem mem' -> length mem' = length mem.
Proof. intros [H _ _]. by apply Permutation_length. Qed.

Lemma re_refl b N mem : rearranged b N mem mem.
Proof. by split. Qed.

Lemma re_trans b N m1 m2 m3 : rearranged b N m1 m2 -> rearranged b N m2 m3 -> rearranged b N m1 m3.
Proof.
  intros [P1 O1 I1] [P2 O2 I2]. split.
  - by rewrite P2.
  - intros k Hk. by rewrite O2, O1.
  - intros P HP. apply I2, I1, HP.
Qed.

Lemma re_swap b N mem i j : (i < N)%nat -> (j < N)%nat -> (b + N <= length mem)%nat ->
  rearranged b N mem (swap mem (b + i) (b + j)).
Proof.
  intros Hi Hj Hl. split.
  - apply swap_perm; lia.
  - intros k Hk. rewrite rd_swap by lia. by rewrite !decide_False by lia.
  - intros P HP k Hk. rewrite rd_swap by lia. repeat case_decide; apply HP; lia.
Qed.

(** A part of the positions: what is outside it is kept. *)
Lemma re_part b N c M mem mem' : (b <= c)%nat -> (c + M <= b + N)%nat -> rearranged c M mem mem' -> rearranged b N mem mem'.
Proof.
  intros Hc HM [P O I]. split; [done | intros; apply O; lia|].
  intros Q HQ k Hk. destruct (decide (c <= b + k < c + M)%nat) as [Hin|Hout].
  - replace (b + k)%nat with (c + (b + k - c))%nat by lia. apply I; [|lia].
    intros l Hl. replace (c + l)%nat with (b + (c + l - b))%nat by lia. apply HQ. lia.
  - rewrite O by lia. by apply HQ.
Qed.

(** ** The loops *)

Lemma scanUp_spec mem b N v : forall fuel i, (i < N)%nat -> (N - i < fuel)%nat ->
  exists i', QuickSort.scanUp past fuel mem b N v i = Ok i' /\ (i < i' <= N)%nat /\
    (forall k, (i < k < i')%nat -> rd mem (b + k) < v) /\ (i' = N \/ v <= rd mem (b + i')).
Proof.
  induction fuel as [|fuel IH]; intros i Hi Hf; [lia|]. cbn [QuickSort.scanUp].
  destruct (Z.ltb_spec (rd mem (b + S i)) v) as [Hv|Hv]; cbn [andb].
  - destruct (Nat.ltb_spec (S i) N) as [HN|HN].
    + destruct (IH (S i) HN ltac:(lia)) as (i' & -> & Hr & Hk & He). exists i'. split_and!; [done | lia | lia | | done].
      intros k Hk'. destruct (decide (k = S i)) as [->|]; [done | apply Hk; lia].
    + exists (S i). split_and!; [done | lia | lia | intros; lia | left; lia].
  - exists (S i). split_and!; [done | lia | lia | intros; lia | by right].
Qed.

Lemma scanDown_spec mem b v : forall j, (exists k, (k < j)%nat /\ rd mem (b + k) <= v) ->
  exists j', QuickSort.scanDown past mem b v j = Ok j' /\ (j' < j)%nat /\ rd mem (b + j') <= v /\
    (forall k, (j' < k < j)%nat -> v < rd mem (b + k)).
Proof.
  induction j as [|j IH]; intros (k & Hk & Hv); [lia|]. cbn [QuickSort.scanDown].
  destruct (Z.ltb_spec v (rd mem (b + j))) as [Hj|Hj].
  - destruct IH as (j' & -> & Hr & Hle & Hb).
    { exists k. split; [|done]. destruct (decide (k = j)) as [->|]; lia. }
    exists j'. split_and!; [done | lia | done|]. intros l Hl. destruct (decide (l = j)) as [->|]; [done | apply Hb; lia].
  - exists j. split_and!; [done | lia | done | intros; lia].
Qed.

(** The invariant of the partition loop: up to [i] nothing is above the pivot,
    from [j] on nothing is below it. *)
Record parted (mem : list Z) (b N : nat) (v : Z) (i j : nat) : Prop := {
  parted_pivot : rd mem b = v;
  parted_low k : (1 <= k <= i)%nat -> rd mem (b + k) <= v;
  parted_high k : (j <= k < N)%nat -> v <= rd mem (b + k);
}.

Lemma partition_spec b N v : forall fuel mem i j, (b + N <= length mem)%nat -> (i < j <= N)%nat -> (j < fuel)%nat ->
  parted mem b N v i j ->
  exists mem' i', QuickSort.partition past fuel mem b N v i j = Ok (mem', i') /\ (1 <= i' <= N)%nat /\
    rearranged b N mem mem' /\ parted mem' b N v (i' - 1) i'.
Proof.
  induction fuel as [|fuel IH]; intros mem i j Hlen Hij Hf [Hp Hlow Hhigh]; [lia|]. cbn [QuickSort.partition].
  destruct (scanUp_spec mem b N v (S N) i ltac:(lia) ltac:(lia)) as (i' & -> & Hi & Hup & Hstop).
  destruct (scanDown_spec mem b v j) as (j' & -> & Hj & Hjv & Hdown).
  { exists 0%nat. rewrite Nat.add_0_r. split; [lia | by rewrite Hp]. }
  cbn [mbind res_bind]. destruct (Nat.leb_spec j' i') as [Hle|Hgt].
  - exists mem, i'. split_and!; [done | lia | lia | apply re_refl|]. split; [done| |]; intros k Hk.
    + destruct (decide (k <= i)%nat); [apply Hlow; lia|]. specialize (Hup k ltac:(lia)). lia.
    + destruct (decide (j <= k)%nat); [apply Hhigh; lia|]. destruct (decide (k = j')) as [->|].
      * assert (i' = j') as <- by lia. destruct Hstop; [lia | done].
      * specialize (Hdown k ltac:(lia)). lia.
  - assert (rearranged b N mem (swap mem (b + i') (b + j'))) as Hre by (apply re_swap; lia).
    destruct (IH (swap mem (b + i') (b + j')) i' j') as (mem' & i'' & -> & Hr & Hre' & Hpart).
    + rewrite length_swap. lia.
    + lia.
    + lia.
    + split.
      * rewrite rd_swap by lia. by rewrite !decide_False by lia.
      * intros k Hk. rewrite rd_swap by lia. rewrite decide_False by lia. case_decide; [done|].
        destruct (decide (k <= i)%nat); [apply Hlow; lia|]. specialize (Hup k ltac:(lia)). lia.
      * intros k Hk. rewrite rd_swap by lia. destruct Hstop as [->|Hstop]; [lia|]. case_decide; [done|].
        rewrite decide_False by lia. destruct (decide (j <= k)%nat); [apply Hhigh; lia|]. specialize (Hdown k ltac:(lia)). lia.
    + exists mem', i''. split_and!; [done | lia | lia | | done]. by eapply re_trans.
Qed.

Definition ordered (mem : list Z) (b N : nat) : Prop :=
  forall k l, (k <= l < N)%nat -> rd mem (b + k) <= rd mem (b + l).

(** Two sorted parts with the pivot in between. *)
Lemma ordered_join mem b N i v : (1 <= i <= N)%nat -> ordered mem b (i - 1) -> ordered mem (b + i) (N - i) ->
  rd mem (b + (i - 1)) = v -> (forall k, (k < i - 1)%nat -> rd mem (b + k) <= v) ->
  (forall k, (k < N - i)%nat -> v <= rd mem (b + i + k)) -> ordered mem b N.
Proof.
  intros Hi Hl Hr Hv Hlow Hhigh.
  assert (forall k, (i <= k < N)%nat -> v <= rd mem (b + k)) as Hhigh'.
  { intros k Hk. replace (b + k)%nat with (b + i + (k - i))%nat by lia. apply Hhigh. lia. }
  intros k l Hkl. destruct (decide (l < i - 1)%nat); [apply Hl; lia|].
  destruct (decide (k < i)%nat).
  - assert (rd mem (b + k) <= v) as Hk by (destruct (decide (k = i - 1)%nat) as [->|]; [lia | apply Hlow; lia]).
    destruct (decide (l = i - 1)%nat) as [->|]; [lia|]. specialize (Hhigh' l ltac:(lia)). lia.
  - replace (b + k)%nat with (b + i + (k - i))%nat by lia. replace (b + l)%nat with (b + i + (l - i))%nat by lia.
    apply Hr. lia.
Qed.

(** What the swap behind the partition leaves. *)
Lemma pivot_swap mem b N v i : (b + N <= length mem)%nat -> (1 <= i <= N)%nat -> parted mem b N v (i - 1) i ->
  let mem' := swap mem (b + (i - 1)) b in
  rearranged b N mem mem' /\ rd mem' (b + (i - 1)) = v /\ (forall k, (k < i - 1)%nat -> rd mem' (b + k) <= v) /\
  (forall k, (i <= k < N)%nat -> v <= rd mem' (b + k)).
Proof.
  intros Hlen Hi [Hp Hlow Hhigh] mem'. unfold mem'.
  assert (forall k, rd (swap mem (b + (i - 1)) b) k = if decide (k = b) then rd mem (b + (i - 1)) else
    if decide (k = (b + (i - 1))%nat) then v else rd mem k) as Hrd by (intros k; rewrite rd_swap by lia; by rewrite Hp).
  split_and!.
  - pose proof (re_swap b N mem (i - 1) 0 ltac:(lia) ltac:(lia) Hlen) as H. by rewrite Nat.add_0_r in H.
  - rewrite Hrd. case_decide as Hb; [|by rewrite decide_True]. by rewrite Hb.
  - intros k Hk. rewrite Hrd. case_decide; [apply Hlow; lia|]. rewrite decide_False by lia. apply Hlow. lia.
  - intros k Hk. rewrite Hrd. rewrite !decide_False by lia. apply Hhigh. lia.
Qed.

Lemma sort_spec : forall fuel b N mem, (b + N <= length mem)%nat -> (N < fuel)%nat ->
  exists mem', QuickSort.sort past fuel mem b N = Ok mem' /\ rearranged b N mem mem' /\ ordered mem' b N.
Proof.
  induction fuel as [|fuel IH]; intros b N mem Hlen Hf; [lia|]. cbn [QuickSort.sort].
  destruct (Nat.leb_spec N 1) as [HN|HN].
  { exists mem. split_and!; [done | apply re_refl|]. intros k l Hkl. by replace l with k by lia. }
  destruct (partition_spec b N (rd mem b) (S N) mem 0 N Hlen ltac:(lia) ltac:(lia)) as (m1 & i & -> & Hi & R1 & Hpart).
  { split; [done | lia..]. }
  pose proof (re_length _ _ _ _ R1) as L1. cbn [mbind res_bind].
  destruct (pivot_swap m1 b N (rd mem b) i ltac:(lia) Hi Hpart) as (R2 & Hv & Hlow & Hhigh).
  set (m2 := swap m1 (b + (i - 1)) b) in *. pose proof (re_length _ _ _ _ R2) as L2.
  destruct (IH b (i - 1)%nat m2 ltac:(lia) ltac:(lia)) as (m3 & -> & R3 & O3). pose proof (re_length _ _ _ _ R3) as L3.
  cbn [mbind res_bind].
  destruct (IH (b + i)%nat (N - i)%nat m3 ltac:(lia) ltac:(lia)) as (m4 & -> & R4 & O4).
  exists m4. split; [done|]. split.
  { eapply re_trans; [exact R1|]. eapply re_trans; [exact R2|].
    eapply re_trans; eapply re_part; [| |exact R3| | |exact R4]; lia. }
  assert (forall k, (k < b + i)%nat -> rd m4 k = rd m3 k) as H43 by (intros k Hk; apply (re_outside _ _ _ _ R4); lia).
  assert (forall k, (b + (i - 1) <= k)%nat -> rd m3 k = rd m2 k) as H32 by (intros k Hk; apply (re_outside _ _ _ _ R3); lia).
  apply (ordered_join m4 b N i (rd mem b)); [done | | done | | |].
  - intros k l Hkl. rewrite !H43 by lia. by apply O3.
  - by rewrite H43, H32 by lia.
  - intros k Hk. rewrite H43 by lia. apply (re_inside _ _ _ _ R3 (fun x => x <= rd mem b)); [apply Hlow | done].
  - intros k Hk. apply (re_inside _ _ _ _ R4 (fun x => rd mem b <= x)); [|done]. intros l Hl.
    rewrite H32 by lia. replace (b + i + l)%nat with (b + (i + l))%nat by lia. apply Hhigh. lia.
Qed.

(** C34. The in-place sort ends, whatever lies behind the array, and leaves the
    array a sorted rearrangement of what it was; nothing outside the part it
    is given changes. *)
Theorem sort_sorts b N mem : (b + N <= length mem)%nat ->
  exists mem', QuickSort.sort past (S N) mem b N = Ok mem' /\ mem' ≡ₚ mem /\ ordered mem' b N /\
    forall k, (k < b \/ b + N <= k)%nat -> rd mem' k = rd mem k.
Proof.
  intros Hlen. destruct (sort_spec (S N) b N mem Hlen ltac:(lia)) as (mem' & H & [Hp Ho _] & Hs).
  exists mem'. split_and!; done.
Qed.

End correct.

Lemma sort_sorts_witness : exists mem', QuickSort.sort 7 5 [9; 3; 8; 3; 1] 1 4 = Ok mem' /\ mem' = [9; 1; 3; 3; 8].
Proof.
  destruct (sort_sorts 7 1 4 [9; 3; 8; 3; 1] ltac:(cbn; lia)) as (mem' & H & _).
  exists mem'. split; [exact H|]. vm_compute in H. by injection H.
Defined.
