(* ===== verification/PredictionMethods.v ===== *)
(** * Predicting the duration of an I/O operation

    src/src/vex/io/PredictionMethod: predictors over a cyclic buffer of the last
    measurements, and the mean of all.  The log of predictions is left out. *)
From S2P Require Import Prelude QuickSort.

Module CyclicBufferBased.

Record CyclicBufferBased := mkCyclicBufferBased {
  buffer : list Z;
  size : Z;
  index : Z;
  circular_buffersize : Z;
}.

Definition new_CyclicBufferBased (_circular_buffersize : Z) : CyclicBufferBased :=
  mkCyclicBufferBased (replicate (Z.to_nat _circular_buffersize) 0) 0 0 _circular_buffersize.

(** [buffer[(size++) % circular_buffersize] = value]. *)
Definition store (value : Z) (b : CyclicBufferBased) : res CyclicBufferBased :=
  if b.(circular_buffersize) =? 0 then Err DivisionByZero
  else Ok (mkCyclicBufferBased (<[Z.to_nat (b.(size) `mod` b.(circular_buffersize)) := value]> b.(buffer))
             (uint_add b.(size) 1) b.(index) b.(circular_buffersize)).

Definition addPredictionInfo (realTimeValueOnExit : Z) (b : CyclicBufferBased) : res CyclicBufferBased :=
  store realTimeValueOnExit b.

(** A file holds a number on each line.  The loop also reads the piece behind
    the last newline, which is empty, and [atoll] of it is 0; without a file
    nothing happens. *)
Definition importFromFile (lines : option (list Z)) (b : CyclicBufferBased) : res CyclicBufferBased :=
  match lines with
  | None => Ok b
  | Some lines => foldl (fun r v => r ≫= store v) (Ok b) (lines ++ [0])
  end.

Definition exportToFile (b : CyclicBufferBased) : list Z := b.(buffer).

Definition set_index (i : Z) (b : CyclicBufferBased) : CyclicBufferBased :=
  mkCyclicBufferBased b.(buffer) b.(size) i b.(circular_buffersize).

Definition progressIndex (b : CyclicBufferBased) : res CyclicBufferBased :=
  if b.(circular_buffersize) =? 0 then Err DivisionByZero
  else Ok (set_index (uint_add (b.(index) `mod` b.(circular_buffersize)) 1) b).

Definition getCurrentSize (b : CyclicBufferBased) : Z :=
  wrap 32 (if b.(circular_buffersize) <? b.(size) then b.(circular_buffersize) else b.(size)).

(** The elements of the buffer that the loops over [getCurrentSize] visit. *)
Definition current (b : CyclicBufferBased) : list Z := map (nthd b.(buffer)) (seq 0 (Z.to_nat (getCurrentSize b))).

(** ** ReplayCyclicBuffer *)
Definition Replay_getValue (b : CyclicBufferBased) : res (Z * CyclicBufferBased) :=
  if b.(circular_buffersize) =? 0 then Err DivisionByZero
  else let i := b.(index) `mod` b.(circular_buffersize) in
    Ok (nthd b.(buffer) (Z.to_nat i), set_index (uint_add i 1) b).

(** ** AverageCyclicBuffer *)
Definition getAverage (b : CyclicBufferBased) : res Z :=
  let max := getCurrentSize b in
  let sum := foldl ll_add 0 (current b) in
  if max =? 0 then Err DivisionByZero else Ok (ll_div sum max).

Definition Average_getValue (b : CyclicBufferBased) : res (Z * CyclicBufferBased) :=
  average ← getAverage b; b ← progressIndex b; Ok (average, b).

(** ** MinimumCyclicBuffer and MaximumCyclicBuffer *)
Definition Minimum_getValue (b : CyclicBufferBased) : res (Z * CyclicBufferBased) :=
  if getCurrentSize b =? 0 then Ok (0, b)
  else
    let minValue := foldl (fun m v => if v <? m then v else m) LLONG_MAX (current b) in
    b ← progressIndex b; Ok (minValue, b).

Definition Maximum_getValue (b : CyclicBufferBased) : res (Z * CyclicBufferBased) :=
  if getCurrentSize b =? 0 then Ok (0, b)
  else
    let maxValue := foldl (fun m v => if m <? v then v else m) 0 (current b) in
    b ← progressIndex b; Ok (maxValue, b).

(** ** MedianCyclicBuffer

    [past] is what the sort finds behind its buffer.  The fuel is what the sort
    of as many elements needs. *)
Definition Median_getValue (past : Z) (b : CyclicBufferBased) : res (Z * CyclicBufferBased) :=
  let max := getCurrentSize b in
  if max =? 0 then Ok (0, b)
  else
    let tempSortingBuffer := b.(buffer) in
    tempSortingBuffer ← QuickSort.sort past (S (Z.to_nat max)) tempSortingBuffer 0 (Z.to_nat max);
    let tempValue :=
      if Z.rem max 2 =? 0
      then ll_div (nthd tempSortingBuffer (Z.to_nat (max / 2)) +ll nthd tempSortingBuffer (Z.to_nat (max / 2 - 1))) 2
      else nthd tempSortingBuffer (Z.to_nat ((max - 1) / 2)) in
    b ← progressIndex b; Ok (tempValue, b).

(** The classes, and the virtual [getValue]. *)
Inductive kind := ReplayCyclicBuffer | AverageCyclicBuffer | MedianCyclicBuffer | MinimumCyclicBuffer | MaximumCyclicBuffer.

Definition getValue (past : Z) (k : kind) : CyclicBufferBased -> res (Z * CyclicBufferBased) :=
  match k with
  | ReplayCyclicBuffer => Replay_getValue
  | AverageCyclicBuffer => Average_getValue
  | MedianCyclicBuffer => Median_getValue past
  | MinimumCyclicBuffer => Minimum_getValue
  | MaximumCyclicBuffer => Maximum_getValue
  end.

Definition getNext (past : Z) (k : kind) (b : CyclicBufferBased) : res (Z * CyclicBufferBased) :=
  if b.(circular_buffersize) <? b.(size) then getValue past k b else Ok (0, b).

(** Measurements one after the other. *)
Definition feed (ms : list Z) (b : CyclicBufferBased) : res CyclicBufferBased :=
  foldl (fun r m => r ≫= addPredictionInfo m) (Ok b) ms.

End CyclicBufferBased.

(** ** ConstantMeanPredictor *)
Module ConstantMeanPredictor.

Record ConstantMeanPredictor := mkConstantMeanPredictor { total : Z; size : Z }.

Definition new_ConstantMeanPredictor : ConstantMeanPredictor := mkConstantMeanPredictor 0 0.

Definition getNext (p : ConstantMeanPredictor) : Z :=
  if p.(size) =? 0 then 0 else ll_div p.(total) p.(size).

Definition addPredictionInfo (realTimeValueOnExit : Z) (p : ConstantMeanPredictor) : ConstantMeanPredictor :=
  mkConstantMeanPredictor (p.(total) +ll realTimeValueOnExit) (uint_add p.(size) 1).

(** A line that the file does not have reads as 0. *)
Definition importFromFile (lines : option (list Z)) (p : ConstantMeanPredictor) : ConstantMeanPredictor :=
  match lines with
  | None => p
  | Some lines => mkConstantMeanPredictor (nth 0 lines 0) (uwrap 32 (nth 1 lines 0))
  end.

Definition exportToFile (p : ConstantMeanPredictor) : list Z := [p.(total); p.(size)].

End ConstantMeanPredictor.

(** ** The window of the last measurements *)
Section window.
Import CyclicBufferBased.

Definition window (N : nat) (ms : list Z) : list Z := drop (length ms - N) ms.

(** [b] has been fed [ms], and [N] is the size of its buffer. *)
Record fed (N : nat) (ms : list Z) (b : CyclicBufferBased) : Prop := {
  fed_N : b.(circular_buffersize) = Z.of_nat N;
  fed_size : b.(size) = Z.of_nat (length ms);
  fed_length : length b.(buffer) = N;
  fed_few : (length ms <= N)%nat -> b.(buffer) = ms ++ replicate (N - length ms) 0;
  fed_many : (N <= length ms)%nat -> b.(buffer) ≡ₚ window N ms;
  fed_at j : (length ms <= j + N)%nat -> (j < length ms)%nat -> nthd b.(buffer) (j `mod` N)%nat = nthd ms j;
}.

Lemma new_fed N : fed N [] (new_CyclicBufferBased (Z.of_nat N)).
Proof.
  split; cbn; try done; try lia.
  - rewrite Nat2Z.id. apply length_replicate.
  - intros _. by rewrite Nat2Z.id, Nat.sub_0_r.
  - intros HN. assert (N = 0%nat) as -> by lia. done.
Qed.

Lemma insert_perm {A} (l : list A) i x : (i < length l)%nat -> <[i:=x]> l ≡ₚ x :: delete i l.
Proof.
  revert i. induction l as [|y l IH]; intros [|i] Hi; cbn in *; [lia..|done|].
  rewrite IH by lia. apply Permutation_swap.
Qed.

Lemma store_fed N ms b m : (0 < N)%nat -> Z.of_nat (length ms) < 2 ^ 32 - 1 -> fed N ms b ->
  exists b', store m b = Ok b' /\ fed N (ms ++ [m]) b' /\ b'.(index) = b.(index).
Proof.
  intros HN Hlt [Hc Hs Hl Hfew Hmany Hat]. unfold store. rewrite Hc, Hs.
  destruct (Z.eqb_spec (Z.of_nat N) 0) as [?|_]; [lia|]. eexists. split; [done|]. split; [|done].
  rewrite <- Nat2Z.inj_mod, Nat2Z.id. set (n := length ms) in *. set (p := (n `mod` N)%nat).
  assert (p < N)%nat as Hp by (apply Nat.mod_upper_bound; lia).
  split; cbn; rewrite ?length_app, ?length_insert; cbn; fold n.
  - done.
  - rewrite uint_add_exact by lia. lia.
  - done.
  - intros Hn. assert (p = n) as -> by (apply Nat.mod_small; lia). rewrite Hfew by lia.
    rewrite insert_app_r_alt by (subst n; lia). fold n. rewrite Nat.sub_diag.
    replace (N - n)%nat with (S (N - (n + 1))) by lia. cbn. by rewrite <- app_assoc.
  - intros Hn. unfold window. rewrite length_app. cbn. fold n.
    destruct (decide (n < N)%nat) as [Hlt'|Hge].
    + assert (p = n) as -> by (apply Nat.mod_small; lia). replace (n + 1 - N)%nat with 0%nat by lia. rewrite Hfew by lia.
      rewrite insert_app_r_alt by (subst n; lia). fold n. rewrite Nat.sub_diag. replace (N - n)%nat with 1%nat by lia. done.
    + rewrite insert_perm by lia. rewrite drop_app_le by (fold n; lia).
      assert (nthd (buffer b) p = nthd ms (n - N)) as Hat'.
      { rewrite <- Hat by lia. f_equal. subst p. rewrite <- (Nat.Div0.mod_add (n - N) 1 N). f_equal. lia. }
      assert (window N ms ≡ₚ nthd ms (n - N) :: delete p (buffer b)) as Hd.
      { rewrite <- Hmany by lia. rewrite <- Hat'. apply delete_Permutation, nthd_lookup. lia. }
      unfold window in Hd. fold n in Hd.
      rewrite (drop_S ms (nthd ms (n - N)) (n - N)) in Hd by (apply (nthd_lookup ms); fold n; lia).
      apply Permutation_cons_inv in Hd. replace (n + 1 - N)%nat with (S (n - N)) by lia.
      rewrite <- Hd. apply Permutation_cons_append.
  - intros j Hj1 Hj2. destruct (decide (j = n)) as [->|Hne].
    + fold p. rewrite nthd_insert_eq by lia. unfold nthd. subst n. by rewrite lookup_app_r, Nat.sub_diag by lia.
    + rewrite nthd_app_l by (fold n; lia). rewrite nthd_insert_ne.
      * apply Hat; lia.
      * intros Heq. subst p. assert (n - j < N)%nat by lia.
        pose proof (Nat.div_mod n N ltac:(lia)). pose proof (Nat.div_mod j N ltac:(lia)). rewrite Heq in *.
        assert (n / N = j / N \/ n / N >= S (j / N))%nat as [|] by (pose proof (Nat.Div0.div_le_mono j n N ltac:(lia)); lia); nia.
Qed.

Lemma feed_fed N ms : (0 < N)%nat -> Z.of_nat (length ms) < 2 ^ 32 ->
  exists b, feed ms (new_CyclicBufferBased (Z.of_nat N)) = Ok b /\ fed N ms b /\ b.(index) = 0.
Proof.
  intros HN. unfold feed. induction ms as [|m ms IH] using rev_ind; intros Hl.
  - eexists. split; [done|]. split; [apply new_fed | done].
  - rewrite length_app in Hl. cbn in Hl. destruct IH as (b & Hb & Hf & Hi); [lia|].
    rewrite foldl_app, Hb. cbn. destruct (store_fed N ms b m HN ltac:(lia) Hf) as (b' & H1 & H2 & H3).
    exists b'. rewrite H3. done.
Qed.

Lemma map_nthd_seq (l : list Z) : map (nthd l) (seq 0 (length l)) = l.
Proof.
  apply list_eq. intros i. change (map (nthd l)) with (fmap (M:=list) (nthd l)). rewrite list_lookup_fmap.
  destruct (decide (i < length l)%nat) as [Hi|Hi].
  - rewrite lookup_seq_lt by done. cbn. by rewrite nthd_lookup.
  - rewrite lookup_seq_ge by lia. by rewrite lookup_ge_None_2 by lia.
Qed.

Section full.
Context (N : nat) (ms : list Z) (b : CyclicBufferBased).
Hypothesis (HN : 0 < Z.of_nat N < 2 ^ 31) (Hfed : fed N ms b) (Hfull : (N < length ms)%nat).

Lemma full_size : getCurrentSize b = Z.of_nat N.
Proof.
  unfold getCurrentSize. rewrite (fed_N _ _ _ Hfed), (fed_size _ _ _ Hfed).
  destruct (Z.ltb_spec (Z.of_nat N) (Z.of_nat (length ms))); [|lia]. apply wrap_id; lia.
Qed.

Lemma full_current : current b = b.(buffer).
Proof. unfold current. rewrite full_size, Nat2Z.id. rewrite <- (fed_length _ _ _ Hfed). apply map_nthd_seq. Qed.

Lemma full_window : b.(buffer) ≡ₚ window N ms.
Proof. apply (fed_many _ _ _ Hfed). lia. Qed.

Lemma fed_set_index i : fed N ms (set_index i b).
Proof. destruct Hfed. by split. Qed.

Lemma full_progress : exists b', progressIndex b = Ok b' /\ fed N ms b'.
Proof.
  unfold progressIndex. rewrite (fed_N _ _ _ Hfed). destruct (Z.eqb_spec (Z.of_nat N) 0) as [|_]; [lia|].
  eexists. split; [done | apply fed_set_index].
Qed.

Lemma full_next past k : getNext past k b = getValue past k b.
Proof.
  unfold getNext. rewrite (fed_N _ _ _ Hfed), (fed_size _ _ _ Hfed).
  destruct (Z.ltb_spec (Z.of_nat N) (Z.of_nat (length ms))); [done | lia].
Qed.

End full.

Lemma foldl_min l : forall m, let r := foldl (fun m v => if v <? m then v else m) m l in
  r <= m /\ (forall x, x ∈ l -> r <= x) /\ (r = m \/ r ∈ l).
Proof.
  induction l as [|v l IH]; intros m; cbn; [split_and!; [lia | set_solver | by left]|].
  destruct (IH (if v <? m then v else m)) as (H1 & H2 & H3). cbn in *. destruct (Z.ltb_spec v m);
    (split_and!; [lia | intros x [->|Hx]%elem_of_cons; [lia | auto] | rewrite elem_of_cons; tauto]).
Qed.

Lemma foldl_max l : forall m, let r := foldl (fun m v => if m <? v then v else m) m l in
  m <= r /\ (forall x, x ∈ l -> x <= r) /\ (r = m \/ r ∈ l).
Proof.
  induction l as [|v l IH]; intros m; cbn; [split_and!; [lia | set_solver | by left]|].
  destruct (IH (if m <? v then v else m)) as (H1 & H2 & H3). cbn in *. destruct (Z.ltb_spec m v);
    (split_and!; [lia | intros x [->|Hx]%elem_of_cons; [lia | auto] | rewrite elem_of_cons; tauto]).
Qed.

(** What each predictor should predict from the window of the last measurements. *)
Definition predicts (k : kind) (w : list Z) (p : Z) : Prop :=
  match k with
  | ReplayCyclicBuffer => p ∈ w
  | AverageCyclicBuffer => p = Z.quot (sum_of id w) (Z.of_nat (length w))
  | MedianCyclicBuffer => exists s, s ≡ₚ w /\ (forall i j, (i <= j < length s)%nat -> nthd s i <= nthd s j) /\
      p = if Nat.even (length s) then Z.quot (nthd s (length s / 2) + nthd s (length s / 2 - 1)) 2
          else nthd s ((length s - 1) / 2)
  | MinimumCyclicBuffer => p ∈ w /\ forall x, x ∈ w -> p <= x
  | MaximumCyclicBuffer => p ∈ w /\ forall x, x ∈ w -> x <= p
  end.

Lemma window_length N ms : (N <= length ms)%nat -> length (window N ms) = N.
Proof. intros. unfold window. rewrite length_drop. lia. Qed.

Lemma sum_between lo hi l : (forall x, x ∈ l -> lo <= x <= hi) ->
  lo * Z.of_nat (length l) <= sum_of id l <= hi * Z.of_nat (length l).
Proof.
  unfold sum_of. induction l as [|x l IH]; intros H; cbn [foldr length]; [lia|].
  pose proof (H x ltac:(left)). specialize (IH ltac:(intros; apply H; by right)). unfold id in *. lia.
Qed.

Lemma exact_sum hi l : (forall x, x ∈ l -> 0 <= x <= hi) -> hi * Z.of_nat (length l) <= LLONG_MAX ->
  foldl ll_add 0 l = sum_of id l.
Proof.
  intros Hb Hl. pose proof (sum_between 0 hi l Hb).
  change (foldl ll_add 0 l) with (ll_sum l). rewrite ll_sum_exact.
  assert (foldr Z.add 0 l = sum_of id l) as -> by (unfold sum_of; clear; induction l; cbn; [done | unfold id in *; lia]).
  apply ll_id. ll_range.
Qed.

Section values.
Context (N : nat) (ms : list Z) (b : CyclicBufferBased) (hi past : Z).
Hypothesis (HN : 0 < Z.of_nat N < 2 ^ 31) (Hfed : fed N ms b) (Hfull : (N < length ms)%nat).
Hypothesis (Hhi : forall x, x ∈ window N ms -> 0 <= x <= hi) (Hsum : hi * Z.of_nat N <= LLONG_MAX).

Lemma buffer_bounds x : x ∈ b.(buffer) -> 0 <= x <= hi.
Proof. rewrite (full_window N ms b Hfed Hfull). apply Hhi. Qed.

Lemma in_window x : x ∈ window N ms <-> x ∈ b.(buffer).
Proof. by rewrite (full_window N ms b Hfed Hfull). Qed.

Lemma buffer_max : 0 <= hi.
Proof.
  pose proof (window_length N ms ltac:(lia)).
  pose proof (Hhi (nthd (window N ms) 0) (nthd_elem_of (window N ms) 0 ltac:(lia))). lia.
Qed.

Lemma average_predicts : exists p b', Average_getValue b = Ok (p, b') /\ predicts AverageCyclicBuffer (window N ms) p /\ fed N ms b'.
Proof.
  destruct (full_progress N ms b HN Hfed Hfull) as (b' & Hb' & Hf'). pose proof (fed_length _ _ _ Hfed) as Hl.
  exists (Z.quot (sum_of id (window N ms)) (Z.of_nat N)), b'. split_and!; [|cbn [predicts]; by rewrite window_length by lia | done].
  unfold Average_getValue, getAverage. rewrite (full_size N ms b HN Hfed Hfull), (full_current N ms b HN Hfed Hfull).
  destruct (Z.eqb_spec (Z.of_nat N) 0) as [|_]; [lia|].
  rewrite (exact_sum hi) by (apply buffer_bounds || (rewrite Hl; lia)). cbn [mbind res_bind]. rewrite Hb'. cbn.
  rewrite (sum_of_perm _ _ _ (full_window N ms b Hfed Hfull)). unfold ll_div. do 2 f_equal. apply ll_id.
  pose proof (sum_between 0 hi _ Hhi) as Hs. rewrite window_length in Hs by lia.
  pose proof (Z.quot_pos (sum_of id (window N ms)) (Z.of_nat N) ltac:(lia) ltac:(lia)).
  pose proof (Z.quot_le_upper_bound (sum_of id (window N ms)) (Z.of_nat N) hi ltac:(lia) ltac:(lia)).
  assert (hi <= LLONG_MAX) by nia. ll_range.
Qed.

Lemma minimum_predicts : exists p b', Minimum_getValue b = Ok (p, b') /\ predicts MinimumCyclicBuffer (window N ms) p /\ fed N ms b'.
Proof.
  destruct (full_progress N ms b HN Hfed Hfull) as (b' & Hb' & Hf'). pose proof buffer_max as Hpos.
  unfold Minimum_getValue. rewrite (full_size N ms b HN Hfed Hfull), (full_current N ms b HN Hfed Hfull), Hb'.
  destruct (Z.eqb_spec (Z.of_nat N) 0) as [|_]; [lia|]. cbn [mbind res_bind]. do 2 eexists. split; [done|]. split; [|done].
  destruct (foldl_min (buffer b) LLONG_MAX) as (_ & Hall & Hin). cbn in Hall, Hin. cbn [predicts].
  split; [apply in_window | intros x Hx%in_window; auto]. destruct Hin as [Hm|]; [|done].
  pose proof (nthd_elem_of (buffer b) 0 ltac:(rewrite (fed_length _ _ _ Hfed); lia)) as Hx.
  pose proof (Hall _ Hx). pose proof (buffer_bounds _ Hx). assert (hi <= LLONG_MAX) by nia.
  rewrite Hm. replace LLONG_MAX with (nthd (buffer b) 0) by lia. done.
Qed.

Lemma maximum_predicts : exists p b', Maximum_getValue b = Ok (p, b') /\ predicts MaximumCyclicBuffer (window N ms) p /\ fed N ms b'.
Proof.
  destruct (full_progress N ms b HN Hfed Hfull) as (b' & Hb' & Hf').
  unfold Maximum_getValue. rewrite (full_size N ms b HN Hfed Hfull), (full_current N ms b HN Hfed Hfull), Hb'.
  destruct (Z.eqb_spec (Z.of_nat N) 0) as [|_]; [lia|]. cbn [mbind res_bind]. do 2 eexists. split; [done|]. split; [|done].
  destruct (foldl_max (buffer b) 0) as (_ & Hall & Hin). cbn in Hall, Hin. cbn [predicts].
  split; [apply in_window | intros x Hx%in_window; auto]. destruct Hin as [Hm|]; [|done].
  pose proof (nthd_elem_of (buffer b) 0 ltac:(rewrite (fed_length _ _ _ Hfed); lia)) as Hx.
  pose proof (Hall _ Hx). pose proof (buffer_bounds _ Hx). rewrite Hm in *. by replace 0 with (nthd (buffer b) 0) by lia.
Qed.

Lemma replay_predicts : exists p b', Replay_getValue b = Ok (p, b') /\ predicts ReplayCyclicBuffer (window N ms) p /\ fed N ms b'.
Proof.
  unfold Replay_getValue. rewrite (fed_N _ _ _ Hfed). destruct (Z.eqb_spec (Z.of_nat N) 0) as [|_]; [lia|].
  do 2 eexists. split_and!; [done | | by apply fed_set_index]. cbn [predicts]. rewrite <- (full_window N ms b Hfed Hfull).
  apply nthd_elem_of. rewrite (fed_length _ _ _ Hfed). pose proof (Z.mod_pos_bound (index b) (Z.of_nat N) ltac:(lia)). lia.
Qed.

Lemma median_predicts : exists p b', Median_getValue past b = Ok (p, b') /\ predicts MedianCyclicBuffer (window N ms) p /\ fed N ms b'.
Proof.
  destruct (full_progress N ms b HN Hfed Hfull) as (b' & Hb' & Hf'). pose proof (fed_length _ _ _ Hfed) as Hl. pose proof buffer_max as Hpos.
  unfold Median_getValue. rewrite (full_size N ms b HN Hfed Hfull), Nat2Z.id. destruct (Z.eqb_spec (Z.of_nat N) 0) as [|_]; [lia|].
  destruct (sort_spec past (S N) 0 N (buffer b) ltac:(lia) ltac:(lia)) as (s & -> & [Hperm _ _] & Hord). cbn [mbind res_bind]. rewrite Hb'.
  cbn [mbind res_bind]. do 2 eexists. split; [done|]. split; [|done]. cbn [predicts]. exists s.
  assert (length s = N) as Hs by (rewrite <- Hl; by apply Permutation_length).
  assert (forall i, (i < N)%nat -> QuickSort.rd past s i = nthd s i) as Hrd.
  { intros i Hi. unfold QuickSort.rd. by rewrite (nthd_lookup s i) by lia. }
  assert (forall i, (i < N)%nat -> 0 <= nthd s i <= hi) as Hin.
  { intros i Hi. apply buffer_bounds. rewrite <- Hperm. apply nthd_elem_of. lia. }
  split_and!.
  - by rewrite Hperm, (full_window N ms b Hfed Hfull).
  - intros i j Hij. rewrite <- !Hrd by lia. apply Hord. lia.
  - rewrite Hs. pose proof (Nat.div_mod N 2 ltac:(lia)). pose proof (Nat.mod_upper_bound N 2 ltac:(lia)).
    assert ((Z.rem (Z.of_nat N) 2 =? 0) = Nat.even N) as ->.
    { rewrite Z.rem_mod_nonneg by lia. change 2 with (Z.of_nat 2). rewrite <- Nat2Z.inj_mod.
      destruct (Nat.even N) eqn:E; [apply Nat.even_spec in E as [q ->] | apply (f_equal negb) in E; rewrite Nat.negb_even in E; apply Nat.odd_spec in E as [q ->]].
      - rewrite Nat.mul_comm, Nat.Div0.mod_mul. done.
      - rewrite Nat.add_comm, Nat.mul_comm, Nat.Div0.mod_add. done. }
    destruct (Nat.even N) eqn:E.
    + apply Nat.even_spec in E as [q Hq].
      assert (N / 2 = q)%nat as Hd by (rewrite Hq, Nat.mul_comm; by apply Nat.div_mul).
      change 2 with (Z.of_nat 2) at 1 2. rewrite <- Nat2Z.inj_div, Nat2Z.id, Hd.
      replace (Z.to_nat (Z.of_nat q - 1)) with (q - 1)%nat by lia.
      pose proof (Hin q ltac:(lia)). pose proof (Hin (q - 1)%nat ltac:(lia)).
      assert (2 <= Z.of_nat N) by lia. assert (hi * 2 <= hi * Z.of_nat N) by (apply Z.mul_le_mono_nonneg_l; lia).
      unfold ll_div, ll_add. rewrite (ll_id (_ + _)) by ll_range.
      apply ll_id. assert (0 <= nthd s q + nthd s (q - 1) <= 2 * hi) as [Hge Hle] by lia.
      pose proof (Z.quot_pos _ 2 Hge ltac:(done)). pose proof (Z.quot_le_upper_bound _ 2 hi ltac:(done) Hle). ll_range.
    + replace (Z.of_nat N - 1) with (Z.of_nat (N - 1)) by lia. change 2 with (Z.of_nat 2).
      by rewrite <- Nat2Z.inj_div, Nat2Z.id.
Qed.

Lemma value_predicts k : exists p b', getValue past k b = Ok (p, b') /\ predicts k (window N ms) p /\ fed N ms b'.
Proof.
  destruct k; [apply replay_predicts | apply average_predicts | apply median_predicts | apply minimum_predicts | apply maximum_predicts].
Qed.

End values.


(** ** Theorems *)

(** C35. A predictor over a buffer of [N] elements predicts 0 until it has more
    than [N] measurements.  From then on it predicts, by its class, the exact
    minimum, maximum, median or truncated mean of the last [N] measurements, or
    replays one of them; reading the buffer never fails, and the in-place sort
    of the median does not disturb it. *)
Theorem prediction_exact N ms hi : 0 < Z.of_nat N < 2 ^ 31 -> Z.of_nat (length ms) < 2 ^ 32 ->
  (forall x, x ∈ window N ms -> 0 <= x <= hi) -> hi * Z.of_nat N <= LLONG_MAX ->
  exists b, feed ms (new_CyclicBufferBased (Z.of_nat N)) = Ok b /\
    forall past k,
      if (length ms <=? N)%nat then getNext past k b = Ok (0, b)
      else exists p b', getNext past k b = Ok (p, b') /\ predicts k (window N ms) p /\
             b'.(buffer) ≡ₚ window N ms.
Proof.
  intros HN Hms Hhi Hsum. destruct (feed_fed N ms ltac:(lia) Hms) as (b & Hb & Hf & _). exists b. split; [done|].
  intros past k. destruct (Nat.leb_spec (length ms) N) as [Hle|Hgt].
  - unfold getNext. rewrite (fed_N _ _ _ Hf), (fed_size _ _ _ Hf). destruct (Z.ltb_spec (Z.of_nat N) (Z.of_nat (length ms))); [lia | done].
  - rewrite (full_next N ms b Hf Hgt). destruct (value_predicts N ms b hi past HN Hf Hgt Hhi Hsum k) as (p & b' & H1 & H2 & H3).
    exists p, b'. split_and!; [done | done|]. apply (fed_many _ _ _ H3). lia.
Qed.

(** 5 ns and 7 ns are forgotten; the median of 4, 9, 2 and 6 is 5. *)
Lemma prediction_exact_witness : exists b p b',
  feed [5; 7; 4; 9; 2; 6] (new_CyclicBufferBased 4) = Ok b /\ getNext 0 MedianCyclicBuffer b = Ok (p, b') /\
  p = 5 /\ b'.(buffer) ≡ₚ [4; 9; 2; 6].
Proof.
  destruct (prediction_exact 4 [5; 7; 4; 9; 2; 6] 9 ltac:(lia) ltac:(cbn; lia)) as (b & Hb & Hk).
  - intros x Hx. vm_compute in Hx. repeat (apply elem_of_cons in Hx as [->|Hx]; [lia|]). by apply not_elem_of_nil in Hx.
  - vm_compute. done.
  - destruct (Hk 0 MedianCyclicBuffer) as (p & b' & H1 & _ & H3). exists b, p, b'. split_and!; [exact Hb | exact H1 | | exact H3].
    vm_compute in Hb. injection Hb as <-. vm_compute in H1. by injection H1.
Defined.

Lemma predicts_between k w p lo hi : predicts k w p -> 0 <= lo -> (0 < length w)%nat ->
  (forall x, x ∈ w -> lo <= x <= hi) -> lo <= p <= hi.
Proof.
  intros Hp Hlo Hw Hx. destruct k; cbn [predicts] in Hp.
  - by apply Hx.
  - pose proof (sum_between lo hi w Hx) as [Hl Hh]. subst p.
    rewrite Z.mul_comm in Hl. rewrite (Z.mul_comm hi) in Hh. split.
    + apply Z.quot_le_lower_bound; [lia | done].
    + apply Z.quot_le_upper_bound; [lia | done].
  - destruct Hp as (s & Hs & _ & ->). assert (length s = length w) as Hl by by apply Permutation_length.
    assert (forall i, (i < length s)%nat -> lo <= nthd s i <= hi) as Hin.
    { intros i Hi. apply Hx. rewrite <- Hs. by apply nthd_elem_of. }
    pose proof (Nat.Div0.div_le_upper_bound (length s) 2 (length s) ltac:(lia)).
    pose proof (Nat.div_lt (length s) 2 ltac:(lia) ltac:(lia)). destruct (Nat.even (length s)).
    + pose proof (Hin (length s / 2)%nat ltac:(lia)). pose proof (Hin (length s / 2 - 1)%nat ltac:(lia)). split.
      * apply Z.quot_le_lower_bound; lia.
      * apply Z.quot_le_upper_bound; lia.
    + apply Hin. pose proof (Nat.Div0.div_le_upper_bound (length s - 1) 2 (length s - 1) ltac:(lia)). lia.
  - apply Hx, Hp.
  - apply Hx, Hp.
Qed.

(** No prediction leaves the range of the last measurements. *)
Theorem prediction_in_range N ms lo hi past k : 0 < Z.of_nat N < 2 ^ 31 -> Z.of_nat N < Z.of_nat (length ms) < 2 ^ 32 ->
  0 <= lo -> (forall x, x ∈ window N ms -> lo <= x <= hi) -> hi * Z.of_nat N <= LLONG_MAX ->
  exists b p b', feed ms (new_CyclicBufferBased (Z.of_nat N)) = Ok b /\ getNext past k b = Ok (p, b') /\ lo <= p <= hi.
Proof.
  intros HN Hms Hlo Hx Hsum. destruct (feed_fed N ms ltac:(lia) ltac:(lia)) as (b & Hb & Hf & _).
  destruct (value_predicts N ms b hi past HN Hf ltac:(lia) ltac:(intros x H; specialize (Hx x H); lia) Hsum k) as (p & b' & H1 & H2 & _).
  exists b, p, b'. split_and!; [done | by rewrite (full_next N ms b Hf) by lia | |];
    apply (predicts_between k (window N ms) p lo hi); try done; rewrite window_length by lia; lia.
Qed.

Lemma prediction_in_range_witness : exists b p b',
  feed [0; 40; 45] (new_CyclicBufferBased 2) = Ok b /\ getNext 0 AverageCyclicBuffer b = Ok (p, b') /\ 40 <= p <= 45.
Proof.
  apply (prediction_in_range 2 [0; 40; 45] 40 45 0 AverageCyclicBuffer); [lia | cbn; lia | lia | | vm_compute; done].
  intros x Hx. vm_compute in Hx. repeat (apply elem_of_cons in Hx as [->|Hx]; [lia|]). by apply not_elem_of_nil in Hx.
Defined.

(** Importing what was exported does not give the buffer back: the empty
    piece behind the last line is stored as one more measurement, so that the
    first element becomes 0 and the predictor, which now counts one measurement
    more than its buffer holds, uses it at once. *)
Theorem import_export_loses_first N b past : 0 < Z.of_nat N < 2 ^ 31 -> length b.(buffer) = N ->
  exists b', importFromFile (Some (exportToFile b)) (new_CyclicBufferBased (Z.of_nat N)) = Ok b' /\
    b'.(buffer) = <[0%nat := 0]> b.(buffer) /\ b'.(size) = Z.of_nat N + 1 /\
    getNext past ReplayCyclicBuffer b' = Ok (0, set_index 1 b').
Proof.
  intros HN Hl. unfold importFromFile, exportToFile.
  assert (Z.of_nat (length (buffer b ++ [0])) < 2 ^ 32) as Hlt by (rewrite length_app; cbn; lia).
  destruct (feed_fed N (buffer b ++ [0]) ltac:(lia) Hlt) as (b' & Hb & Hf & Hi). exists b'.
  assert (Z.of_nat N < size b') as Hs by (rewrite (fed_size _ _ _ Hf), length_app; cbn; lia).
  assert (nthd (buffer b') 0 = 0) as H0.
  { pose proof (fed_at _ _ _ Hf N) as Hat. rewrite length_app, Hl in Hat. cbn in Hat. rewrite Nat.Div0.mod_same in Hat.
    rewrite Hat by lia. rewrite <- Hl. apply nthd_snoc. }
  split_and!.
  - exact Hb.
  - apply list_eq. intros i. destruct (decide (i < N)%nat) as [Hin|Hout].
    + rewrite (nthd_lookup (buffer b')) by (rewrite (fed_length _ _ _ Hf); lia).
      rewrite (nthd_lookup (<[0%nat := 0]> (buffer b))) by (rewrite length_insert; lia). f_equal.
      destruct (decide (i = 0%nat)) as [->|Hne]; [rewrite nthd_insert_eq by lia; done|]. rewrite nthd_insert_ne by done.
      pose proof (fed_at _ _ _ Hf i) as Hat. rewrite length_app in Hat. cbn in Hat.
      rewrite Nat.mod_small in Hat by lia. rewrite Hat by lia. by apply nthd_app_l; lia.
    + rewrite !lookup_ge_None_2; [done | rewrite length_insert; lia | rewrite (fed_length _ _ _ Hf); lia].
  - rewrite (fed_size _ _ _ Hf), length_app. cbn. lia.
  - unfold getNext, getValue, Replay_getValue. rewrite (fed_N _ _ _ Hf). destruct (Z.ltb_spec (Z.of_nat N) (size b')); [|lia].
    destruct (Z.eqb_spec (Z.of_nat N) 0) as [|_]; [lia|]. rewrite Hi, Z.mod_0_l by lia. change (Z.to_nat 0) with 0%nat. by rewrite H0.
Qed.

Lemma import_export_loses_first_witness : exists b',
  importFromFile (Some [30; 40; 50]) (new_CyclicBufferBased 3) = Ok b' /\ b'.(buffer) = [0; 40; 50].
Proof.
  destruct (import_export_loses_first 3 (mkCyclicBufferBased [30; 40; 50] 3 0 3) 0 ltac:(lia) eq_refl) as (b' & H1 & H2 & _).
  exists b'. split; [exact H1 | exact H2].
Defined.

End window.

(** The constant mean survives a file. *)
Lemma mean_roundtrip p q : 0 <= p.(ConstantMeanPredictor.size) < 2 ^ 32 ->
  ConstantMeanPredictor.importFromFile (Some (ConstantMeanPredictor.exportToFile p)) q = p.
Proof. intros H. destruct p as [t s]. cbn in *. by rewrite uwrap_id. Qed.
