(* ===== verification/MarkovPredictor.v ===== *)
(** * Predicting by a Markov process

    src/src/vex/io/PredictionMethod: MarkovModulatedProcess, which sorts the
    measurements of a cyclic buffer into states, counts how often one state
    follows another, and predicts by a walk over the states.  Random numbers
    are arguments.  The mutex around [getValue] is left out. *)
From S2P Require Import Prelude CxxFloat PredictionMethods.
Import CyclicBufferBased.

Module MarkovModulatedProcess.

(** A state is called a bucket while the measurements are sorted. *)
Record MarkovModulatedProcess := mkMarkov {
  cyclic : CyclicBufferBased;
  states : Z;
  currentState : Z;
  transitionMatrix : list (list float);
  bucketOfElement : list Z;
  bucketSizes : list Z;
}.

Definition zeros (s : Z) : list (list float) := replicate (Z.to_nat s) (replicate (Z.to_nat s) (f64 0 0)).

(** The constructor, with [alloc].  The buffer is that of the base class, even
    when [alloc] raises the size.  What the new arrays hold is not read before
    [init]. *)
Definition new_MarkovModulatedProcess (_circular_buffersize _states : Z) : MarkovModulatedProcess :=
  let b := new_CyclicBufferBased _circular_buffersize in
  let n := if _circular_buffersize <? 2 then 2 else _circular_buffersize in
  let s := if _states <? 2 then 2 else _states in
  let s := if n <? s then n else s in
  mkMarkov (mkCyclicBufferBased b.(buffer) b.(size) b.(index) n) s (-1)
    (zeros s) (replicate (Z.to_nat n) (-1)) (replicate (Z.to_nat s) 0).

(** Arrays, read and changed at an [int]. *)
Definition at_index {A} (l : list A) (i : Z) : res A :=
  if i <? 0 then Err OutOfBounds else match l !! Z.to_nat i with Some x => Ok x | None => Err OutOfBounds end.

Definition change_at {A} (f : A -> A) (l : list A) (i : Z) : res (list A) :=
  x ← at_index l i; Ok (<[Z.to_nat i := f x]> l).

(** While the measurements are sorted, element [i] is [(buffer[i], bucketOfElement[i])]. *)
Record Buckets := mkBuckets { elements : list (Z * Z); sizes : list Z }.

(** ** distributeAllInBucket *)
Definition range_of (bucketId : Z) (l : list (Z * Z)) : Z * Z :=
  foldl (fun '(min, max) '(v, b) =>
    if bucketId =? b then (if v <? min then v else min, if max <? v then v else max) else (min, max)) (LLONG_MAX, 0) l.

(** Adds 0, 1, 2, ... to the measurements of the bucket; [addCount] is how many
    have been met. *)
Fixpoint spread (bucketId addCount : Z) (l : list (Z * Z)) : list (Z * Z) * Z :=
  match l with
  | [] => ([], addCount)
  | (v, b) :: l =>
    if bucketId =? b then let '(l, c) := spread bucketId (int_add addCount 1) l in ((v +ll addCount, b) :: l, c)
    else let '(l, c) := spread bucketId addCount l in ((v, b) :: l, c)
  end.

(** The new bucket of a measurement [v]. *)
Definition new_bucket (newBucketsToCreate lowestBucketId min step v : Z) : Z :=
  let b := wrap 32 (lowestBucketId + ll_div (v -ll min) step) in
  let last := uint_sub (uint_add lowestBucketId newBucketsToCreate) 1 in
  if last <=? uwrap 32 b then wrap 32 last else b.

Definition resize (lowestBucketId b : Z) (sizes : list Z) : res (list Z) :=
  if lowestBucketId =? 0 then change_at (fun s => uint_add s 1) sizes b
  else if negb (lowestBucketId =? b) then
    s ← change_at (fun s => uint_add s 1) sizes b; change_at (fun s => uint_sub s 1) s lowestBucketId
  else Ok sizes.

Fixpoint assign (bucketId newBucketsToCreate lowestBucketId min step : Z) (l : list (Z * Z)) (sizes : list Z) : res (list (Z * Z) * list Z) :=
  match l with
  | [] => Ok ([], sizes)
  | (v, b) :: l =>
    if bucketId =? b then
      if step =? 0 then Err DivisionByZero else
        let b := new_bucket newBucketsToCreate lowestBucketId min step v in
        sizes ← resize lowestBucketId b sizes;
        '(l, sizes) ← assign bucketId newBucketsToCreate lowestBucketId min step l sizes;
        Ok ((v, b) :: l, sizes)
    else
      '(l, sizes) ← assign bucketId newBucketsToCreate lowestBucketId min step l sizes;
      Ok ((v, b) :: l, sizes)
  end.

Definition distributeAllInBucket (bucketId newBucketsToCreate lowestBucketId : Z) (b : Buckets) : res Buckets :=
  let '(min, max) := range_of bucketId b.(elements) in
  if newBucketsToCreate =? 0 then Err DivisionByZero else
    let step := ll_div (max -ll min) newBucketsToCreate in
    let '(l, step) :=
      if step =? 0 then
        let '(l, addCount) := spread bucketId 0 b.(elements) in
        (l, ll_div ((min +ll addCount) -ll min) newBucketsToCreate)
      else (b.(elements), step) in
    '(l, sizes) ← assign bucketId newBucketsToCreate lowestBucketId min step l b.(sizes);
    Ok (mkBuckets l sizes).

(** ** setStateLimits *)
Definition rename (f : Z -> Z) (l : list (Z * Z)) : list (Z * Z) := map (fun '(v, b) => (v, f b)) l.

(** An empty bucket takes the place of the last one that is not empty. *)
Definition fill_gap (b : Buckets) (i : nat) : Buckets :=
  if nthd b.(sizes) i =? 0 then
    match list_find (fun j => nthd b.(sizes) j <> 0) (reverse (seq (S i) (length b.(sizes) - S i))) with
    | Some (_, j) => mkBuckets (rename (fun k => if k =? Z.of_nat j then Z.of_nat i else k) b.(elements))
                       (<[j := 0]> (<[i := nthd b.(sizes) j]> b.(sizes)))
    | None => b
    end
  else b.

Definition fill_gaps (states : nat) (b : Buckets) : Buckets := foldl fill_gap b (seq 0 (states - 1)).

(** How many buckets are full, how many are empty, and the first of the largest. *)
Definition count_buckets (states : nat) (sizes : list Z) : Z * Z * Z :=
  foldl (fun '(fullBuckets, nullBuckets, largestBucket) i =>
    if nthd sizes i =? 0 then (fullBuckets, uint_add nullBuckets 1, largestBucket)
    else (uint_add fullBuckets 1, nullBuckets,
      if (largestBucket =? -1) || (nthd sizes (Z.to_nat largestBucket) <? nthd sizes i) then Z.of_nat i else largestBucket))
    (0, 0, -1) (seq 0 states).

Definition swap_buckets (i j : Z) (b : Buckets) : res Buckets :=
  si ← at_index b.(sizes) i;
  sj ← at_index b.(sizes) j;
  Ok (mkBuckets (rename (fun k => if k =? i then j else if k =? j then i else k) b.(elements))
    (<[Z.to_nat j := si]> (<[Z.to_nat i := sj]> b.(sizes)))).

Fixpoint split_buckets (fuel states : nat) (largestBucket fullBuckets nullBuckets : Z) (b : Buckets) : res Buckets :=
  match fuel with
  | O => Err OutOfFuel
  | S fuel =>
    b ← distributeAllInBucket largestBucket (uint_add nullBuckets 1) (wrap 32 (uint_sub fullBuckets 1)) b;
    let b := fill_gaps states b in
    let '(fullBuckets, nullBuckets, largestBucket) := count_buckets states b.(sizes) in
    if nullBuckets =? 0 then Ok b
    else
      let last := wrap 32 (uint_sub fullBuckets 1) in
      b ← swap_buckets largestBucket last b;
      split_buckets fuel states last fullBuckets nullBuckets b
  end.

Definition setStateLimits (fuel states : nat) (b : Buckets) : res Buckets :=
  split_buckets fuel states (-1) 1 (Z.of_nat states - 1) b.

(** ** populateTransitionMatrix *)
Fixpoint count_transitions (bs : list Z) (m : list (list float)) : res (list (list float)) :=
  match bs with
  | i :: ((j :: _) as bs) =>
    row ← at_index m i;
    row ← change_at (fun x => f64_add x (f64 1 0)) row j;
    count_transitions bs (<[Z.to_nat i := row]> m)
  | _ => Ok m
  end.

Fixpoint accumulate (allTransitions : Z) (totalProbUpToj : float) (row : list float) : list float :=
  match row with
  | [] => []
  | x :: row =>
    let p := f64_add totalProbUpToj (f64_div x (ll_to_f64 allTransitions)) in
    p :: accumulate allTransitions p row
  end.

Definition cumulative (row : list float) : list float :=
  accumulate (foldl (fun n x => uwrap 32 (f_to_ll (f64_add (ll_to_f64 n) x))) 0 row) (f64 0 0) row.

Definition populateTransitionMatrix (bs : list Z) (m : list (list float)) : res (list (list float)) :=
  m ← count_transitions bs m; Ok (map cumulative m).

(** ** The walk *)
Fixpoint sample_from (currentState element : Z) (l : list (Z * Z)) : res Z :=
  match l with
  | [] => Err AssertFailed
  | (v, b) :: l =>
    if b =? currentState then
      if element =? 0 then Ok v else sample_from currentState (int_sub element 1) l
    else sample_from currentState element l
  end.

Definition elements_of (m : MarkovModulatedProcess) : list (Z * Z) := zip m.(cyclic).(buffer) m.(bucketOfElement).

Definition sampleMeasurementOfState (rand : Z) (m : MarkovModulatedProcess) : res Z :=
  s ← at_index m.(bucketSizes) m.(currentState);
  if s =? 0 then Err DivisionByZero else sample_from m.(currentState) (wrap 32 (rand `mod` s)) (elements_of m).

Definition RAND_MAX : Z := 2 ^ 31 - 1.

Definition getRandomTransitionFrom (rand : Z) (m : MarkovModulatedProcess) : res Z :=
  row ← at_index m.(transitionMatrix) m.(currentState);
  let r := f64_div (ll_to_f64 rand) (ll_to_f64 RAND_MAX) in
  Ok (match list_find (fun p => f_ltb r p) row with Some (j, _) => Z.of_nat j | None => wrap 32 (m.(states) - 1) end).

(** [init], [setStateLimits] and [populateTransitionMatrix] of [getValue]. *)
Definition train (fuel : nat) (m : MarkovModulatedProcess) : res MarkovModulatedProcess :=
  let c := m.(cyclic) in
  let n := Z.to_nat c.(circular_buffersize) in
  let k := Z.to_nat m.(states) in
  if (length c.(buffer) <? n)%nat then Err OutOfBounds else
    b ← setStateLimits fuel k (mkBuckets (zip c.(buffer) (replicate n (-1))) (replicate k 0));
    let bs := map snd b.(elements) in
    p ← populateTransitionMatrix bs (zeros m.(states));
    currentState ← at_index bs (c.(circular_buffersize) - 2);
    Ok (mkMarkov (mkCyclicBufferBased (map fst b.(elements)) c.(size) c.(index) c.(circular_buffersize)) m.(states) currentState p bs b.(sizes)).

Definition needs_training (m : MarkovModulatedProcess) : bool :=
  (m.(currentState) =? -1) || (uint_sub m.(cyclic).(size) 1 `mod` m.(cyclic).(circular_buffersize) =? 0).

Definition getValue (fuel : nat) (rand1 rand2 : Z) (m : MarkovModulatedProcess) : res (Z * MarkovModulatedProcess) :=
  m ← (if needs_training m then train fuel m else Ok m);
  value ← sampleMeasurementOfState rand1 m;
  currentState ← getRandomTransitionFrom rand2 m;
  Ok (value, mkMarkov m.(cyclic) m.(states) currentState m.(transitionMatrix) m.(bucketOfElement) m.(bucketSizes)).

Definition getNext (fuel : nat) (rand1 rand2 : Z) (m : MarkovModulatedProcess) : res (Z * MarkovModulatedProcess) :=
  if m.(cyclic).(circular_buffersize) <? m.(cyclic).(size) then getValue fuel rand1 rand2 m else Ok (0, m).

Definition addPredictionInfo (realTimeValueOnExit : Z) (m : MarkovModulatedProcess) : res MarkovModulatedProcess :=
  let c := m.(cyclic) in
  if Z.of_nat (length c.(buffer)) <=? c.(size) `mod` c.(circular_buffersize) then Err OutOfBounds else
    c ← CyclicBufferBased.addPredictionInfo realTimeValueOnExit c;
    Ok (mkMarkov c m.(states) m.(currentState) m.(transitionMatrix) m.(bucketOfElement) m.(bucketSizes)).

(** What threads do with a predictor. *)
Inductive use := Predict (rand1 rand2 : Z) | Measured (realTime : Z).

Fixpoint run (fuel : nat) (us : list use) (m : MarkovModulatedProcess) : res (list Z * MarkovModulatedProcess) :=
  match us with
  | [] => Ok ([], m)
  | Predict rand1 rand2 :: us =>
    '(v, m) ← getNext fuel rand1 rand2 m; '(vs, m) ← run fuel us m; Ok (v :: vs, m)
  | Measured t :: us => m ← addPredictionInfo t m; run fuel us m
  end.

(** ** Counting *)
Definition occ (k : Z) (l : list (Z * Z)) : Z := sum_of (fun p => if p.2 =? k then 1 else 0) l.

Lemma occ_app k l1 l2 : occ k (l1 ++ l2) = occ k l1 + occ k l2.
Proof. apply sum_of_app. Qed.
Lemma occ_cons k p l : occ k (p :: l) = (if p.2 =? k then 1 else 0) + occ k l.
Proof. done. Qed.
Lemma occ_nonneg k l : 0 <= occ k l.
Proof. apply sum_of_nonneg. intros. case_match; lia. Qed.
Lemma occ_length k l : occ k l <= Z.of_nat (length l).
Proof. induction l; [done|]. rewrite occ_cons. cbn [length]. case_match; lia. Qed.
Lemma occ_pos k l : 0 < occ k l <-> exists v, (v, k) ∈ l.
Proof.
  induction l as [|[v b] l IH]; [split; [done|]; intros [v Hv]; by apply not_elem_of_nil in Hv|]. rewrite occ_cons. cbn.
  destruct (Z.eqb_spec b k) as [->|].
  - split; [intros _; exists v; set_solver|]. intros _. pose proof (occ_nonneg k l). lia.
  - rewrite Z.add_0_l, IH. split; intros [w Hw]; exists w; set_solver.
Qed.

(** [sizes] are the sizes of the buckets. *)
Definition counted (S : nat) (l : list (Z * Z)) (sizes : list Z) : Prop :=
  length sizes = S /\ forall k, (k < S)%nat -> nthd sizes k = occ (Z.of_nat k) l.

Definition placed (S : nat) (l : list (Z * Z)) : Prop := forall p, p ∈ l -> 0 <= p.2 < Z.of_nat S.

Lemma at_index_ok {A} `{Inhabited A} (l : list A) i : 0 <= i < Z.of_nat (length l) -> at_index l i = Ok (nthd l (Z.to_nat i)).
Proof. intros Hi. unfold at_index. destruct (Z.ltb_spec i 0); [lia|]. by rewrite nthd_lookup by lia. Qed.

Lemma change_at_ok {A} `{Inhabited A} (f : A -> A) l i : 0 <= i < Z.of_nat (length l) ->
  change_at f l i = Ok (<[Z.to_nat i := f (nthd l (Z.to_nat i))]> l).
Proof. intros Hi. unfold change_at. by rewrite at_index_ok. Qed.

(** ** Distribution *)
Section assign.
Context (S : nat) (bucketId new lowest : Z).
Context (Hkind : bucketId = lowest /\ 0 < lowest < Z.of_nat S \/ bucketId = -1 /\ lowest = 0).

Lemma resize_ok b l1 v l2 sizes : 0 <= b < Z.of_nat S -> Z.of_nat (length (l1 ++ (v, bucketId) :: l2)) < 2 ^ 32 ->
  counted S (l1 ++ (v, bucketId) :: l2) sizes ->
  exists sizes', resize lowest b sizes = Ok sizes' /\ counted S (l1 ++ (v, b) :: l2) sizes'.
Proof.
  intros Hb Hlen [Hl Hc]. unfold resize.
  assert (forall k, 0 <= occ k (l1 ++ (v, bucketId) :: l2) < 2 ^ 32 /\ 0 <= occ k (l1 ++ (v, b) :: l2) < 2 ^ 32) as Hocc.
  { intros k. pose proof (occ_nonneg k (l1 ++ (v, bucketId) :: l2)). pose proof (occ_length k (l1 ++ (v, bucketId) :: l2)).
    pose proof (occ_nonneg k (l1 ++ (v, b) :: l2)). pose proof (occ_length k (l1 ++ (v, b) :: l2)). rewrite length_app in *. cbn [length] in *. lia. }
  pose proof (Hc (Z.to_nat b) ltac:(lia)) as Hcb.
  destruct Hkind as [[Hid Hlow]|[Hid Hlow]].
  - destruct (Z.eqb_spec lowest 0); [lia|]. destruct (Z.eqb_spec lowest b) as [Hne|Hne]; cbn [negb].
    { exists sizes. split; [done|]. by rewrite <- Hne, <- Hid. }
    rewrite change_at_ok by lia. cbn [mbind res_bind]. rewrite change_at_ok by (rewrite length_insert; lia).
    eexists. split; [done|]. split; [by rewrite !length_insert|]. intros k Hk.
    rewrite !nthd_insert by (rewrite ?length_insert; lia). pose proof (Hc k Hk) as Hck.
    pose proof (Hc (Z.to_nat lowest) ltac:(lia)) as Hcl.
    destruct (decide (Z.to_nat b = Z.to_nat lowest)); [lia|].
    pose proof (Hocc (Z.of_nat k)) as [Ho1 Ho2]. rewrite !occ_app, !occ_cons in Hck, Ho1, Ho2 |- *. cbn [snd] in *.
    destruct (decide (Z.to_nat lowest = k)) as [<-|]; [|destruct (decide (Z.to_nat b = k)) as [<-|]].
    + destruct (Z.eqb_spec bucketId (Z.of_nat (Z.to_nat lowest))); [|lia].
      destruct (Z.eqb_spec b (Z.of_nat (Z.to_nat lowest))); [lia|]. rewrite uint_sub_exact; lia.
    + destruct (Z.eqb_spec b (Z.of_nat (Z.to_nat b))); [|lia].
      destruct (Z.eqb_spec bucketId (Z.of_nat (Z.to_nat b))); [lia|]. rewrite uint_add_exact; lia.
    + destruct (Z.eqb_spec b (Z.of_nat k)); [lia|]. destruct (Z.eqb_spec bucketId (Z.of_nat k)); lia.
  - subst lowest. rewrite Z.eqb_refl. rewrite change_at_ok by lia. eexists. split; [done|]. split; [by rewrite length_insert|].
    intros k Hk. rewrite nthd_insert by lia. pose proof (Hc k Hk) as Hck.
    pose proof (Hocc (Z.of_nat k)) as [Ho1 Ho2]. rewrite !occ_app, !occ_cons in Hck, Ho1, Ho2 |- *. cbn [snd] in *.
    destruct (Z.eqb_spec bucketId (Z.of_nat k)); [lia|].
    destruct (decide (Z.to_nat b = k)) as [<-|].
    + destruct (Z.eqb_spec b (Z.of_nat (Z.to_nat b))); [|lia]. rewrite uint_add_exact; lia.
    + destruct (Z.eqb_spec b (Z.of_nat k)); lia.
Qed.

Definition assigned (min step : Z) (p : Z * Z) : Z * Z := if bucketId =? p.2 then (p.1, new_bucket new lowest min step p.1) else p.

Lemma assign_ok min step l : forall l1 sizes, step <> 0 -> Z.of_nat (length (l1 ++ l)) < 2 ^ 32 ->
  (forall v, (v, bucketId) ∈ l -> 0 <= new_bucket new lowest min step v < Z.of_nat S) -> counted S (l1 ++ l) sizes ->
  exists sizes', assign bucketId new lowest min step l sizes = Ok (assigned min step <$> l, sizes') /\
    counted S (l1 ++ (assigned min step <$> l)) sizes'.
Proof.
  induction l as [|[v b] l IH]; intros l1 sizes Hstep Hlen Hb Hc; cbn [assign]; [by exists sizes|].
  assert (forall p, Z.of_nat (length ((l1 ++ [p]) ++ l)) < 2 ^ 32) as Hlen'
    by (intros; rewrite !length_app in *; cbn [length] in *; lia).
  assert (forall w, (w, bucketId) ∈ l -> 0 <= new_bucket new lowest min step w < Z.of_nat S) as Hb' by set_solver.
  rewrite fmap_cons. unfold assigned at 1 3. cbn [fst snd]. destruct (Z.eqb_spec bucketId b) as [<-|Hne].
  - destruct (Z.eqb_spec step 0); [done|].
    destruct (resize_ok (new_bucket new lowest min step v) l1 v l sizes) as (sizes1 & -> & Hc1); [apply Hb; set_solver|done|done|].
    cbn [mbind res_bind]. destruct (IH (l1 ++ [(v, new_bucket new lowest min step v)]) sizes1) as (sizes2 & -> & Hc2); [done..|by rewrite <- app_assoc|].
    exists sizes2. split; [done|]. by rewrite <- app_assoc in Hc2.
  - destruct (IH (l1 ++ [(v, b)]) sizes) as (sizes2 & -> & Hc2); [done..|by rewrite <- app_assoc|].
    exists sizes2. split; [done|]. by rewrite <- app_assoc in Hc2.
Qed.
End assign.

(** The measurements of a bucket. *)
Lemma range_from id l : forall a b, let '(mn, mx) := foldl (fun '(min, max) '(v, k) =>
    if id =? k then (if v <? min then v else min, if max <? v then v else max) else (min, max)) (a, b) l in
  mn <= a /\ b <= mx /\ (mn = a \/ (mn, id) ∈ l) /\ (mx = b \/ (mx, id) ∈ l) /\ forall v, (v, id) ∈ l -> mn <= v <= mx.
Proof.
  induction l as [|[v k] l IH]; intros a b; cbn [foldl]; [split_and!; try lia; try (by left); set_solver|].
  destruct (Z.eqb_spec id k) as [<-|Hne].
  - specialize (IH (if v <? a then v else a) (if b <? v then v else b)). destruct (foldl _ _ l) as [mn mx].
    destruct IH as (H1 & H2 & H3 & H4 & H5). revert H1 H2 H3 H4. destruct (Z.ltb_spec v a), (Z.ltb_spec b v); intros H1 H2 H3 H4.
    all: split_and!; try lia; [set_solver..|]; intros w [[= ->]|Hw]%elem_of_cons; [lia|by apply H5].
  - specialize (IH a b). destruct (foldl _ _ l) as [mn mx]. destruct IH as (H1 & H2 & H3 & H4 & H5).
    split_and!; try lia; [set_solver..|]. intros w [[= ]|Hw]%elem_of_cons; [done|by apply H5].
Qed.

Lemma range_ok id l : 0 < occ id l -> (forall v, (v, id) ∈ l -> 0 <= v <= LLONG_MAX) ->
  let '(mn, mx) := range_of id l in (mn, id) ∈ l /\ (mx, id) ∈ l /\ forall v, (v, id) ∈ l -> mn <= v <= mx.
Proof.
  intros [w Hw]%occ_pos Hl. unfold range_of. pose proof (range_from id l LLONG_MAX 0) as H. destruct (foldl _ _ l) as [mn mx].
  destruct H as (H1 & H2 & H3 & H4 & H5). pose proof (H5 w Hw). pose proof (Hl w Hw). split_and!; [| |done].
  - destruct H3 as [->|]; [|done]. by replace LLONG_MAX with w by lia.
  - destruct H4 as [->|]; [|done]. by replace 0 with w by lia.
Qed.

(** Elements stay where they are, and grow by no more than [d]. *)
Definition grown (d : Z) : list (Z * Z) -> list (Z * Z) -> Prop := Forall2 (fun p q => p.1 <= q.1 <= p.1 + d).

Lemma grown_refl l d : 0 <= d -> grown d l l.
Proof. intros. apply Forall_Forall2_diag, Forall_forall. intros. lia. Qed.
Lemma grown_trans d e l1 l2 l3 : grown d l1 l2 -> grown e l2 l3 -> grown (d + e) l1 l3.
Proof.
  unfold grown. intros H. revert l3. induction H as [|p q l1 l2]; intros l3 H3; inversion H3; subst; constructor; [lia|by auto].
Qed.
Lemma grown_weaken d e l1 l2 : d <= e -> grown d l1 l2 -> grown e l1 l2.
Proof. intros ? H. eapply Forall2_impl; [exact H|]. cbn. lia. Qed.
Lemma grown_fmap d f l l' : (forall p, (f p).1 = p.1) -> grown d l l' -> grown d l (f <$> l').
Proof. intros Hf H. apply Forall2_fmap_r. eapply Forall2_impl; [exact H|]. cbn. intros. by rewrite Hf. Qed.
Lemma grown_le d l l' hi : grown d l l' -> (forall p, p ∈ l -> 0 <= p.1 <= hi) -> forall p, p ∈ l' -> 0 <= p.1 <= hi + d.
Proof.
  intros H Hl q [i Hi]%list_elem_of_lookup. destruct (Forall2_lookup_r _ _ _ _ _ H Hi) as (p & Hp & Hpq).
  apply list_elem_of_lookup_2 in Hp. specialize (Hl p Hp). lia.
Qed.

Lemma spread_ok id l : forall c hi, 0 <= c -> c + occ id l < 2 ^ 31 -> hi + c + occ id l <= LLONG_MAX -> (forall p, p ∈ l -> 0 <= p.1 <= hi) ->
  let '(l', c') := spread id c l in
  c' = c + occ id l /\ map snd l' = map snd l /\ grown (c + occ id l) l l' /\
  (forall v, (v, id) ∈ l' -> exists w, (w, id) ∈ l /\ w + c <= v <= w + c + occ id l - 1) /\
  (0 < occ id l -> (exists w, (w, id) ∈ l /\ (w + c, id) ∈ l') /\ exists w, (w, id) ∈ l /\ (w + c + occ id l - 1, id) ∈ l').
Proof.
  induction l as [|[v b] l IH]; intros c hi Hc Hn Hhi Hl; cbn [spread].
  { split_and!; [unfold occ; cbn; lia|done|constructor|set_solver|unfold occ; cbn; lia]. }
  pose proof (occ_nonneg id l) as Hocc. rewrite occ_cons in *. cbn [snd] in *.
  pose proof (Hl (v, b) ltac:(set_solver)) as Hv. cbn in Hv.
  destruct (Z.eqb_spec id b) as [<-|Hne].
  - rewrite Z.eqb_refl in *. assert (int_add c 1 = c + 1) as -> by (apply wrap_id; lia).
    specialize (IH (c + 1) hi ltac:(lia) ltac:(lia) ltac:(lia) ltac:(set_solver)). destruct (spread id (c + 1) l) as [l' c'].
    destruct IH as (H1 & H2 & H3 & H4 & H5). assert (v +ll c = v + c) as -> by (apply ll_id; ll_range). split_and!.
    + lia.
    + cbn. by rewrite H2.
    + constructor; [cbn; lia|]. eapply grown_weaken; [|exact H3]. lia.
    + intros w [[= ->]|Hw]%elem_of_cons; [exists v; split; [set_solver|lia]|]. destruct (H4 w Hw) as (x & Hx & ?). exists x. split; [set_solver|lia].
    + intros _. split; [exists v; split; set_solver|]. destruct (Z.eq_dec (occ id l) 0) as [E|].
      * exists v. rewrite E. replace (v + c + (1 + 0) - 1) with (v + c) by lia. split; set_solver.
      * destruct (H5 ltac:(lia)) as (_ & w & Hw & Hw'). exists w. replace (w + c + (1 + occ id l) - 1) with (w + (c + 1) + occ id l - 1) by lia.
        split; set_solver.
  - destruct (Z.eqb_spec b id); [by subst|]. rewrite Z.add_0_l in *.
    specialize (IH c hi Hc Hn Hhi ltac:(set_solver)). destruct (spread id c l) as [l' c']. destruct IH as (H1 & H2 & H3 & H4 & H5). split_and!.
    + done.
    + cbn. by rewrite H2.
    + constructor; [cbn; lia|done].
    + intros w [[= ]|Hw]%elem_of_cons; [done|]. destruct (H4 w Hw) as (x & Hx & ?). exists x. split; [set_solver|lia].
    + intros Hp. destruct (H5 Hp) as ((w & Hw & Hw') & x & Hx & Hx'). split; [exists w|exists x]; split; set_solver.
Qed.

Lemma new_bucket_value new lowest mn step v : 0 <= lowest -> 0 < new -> 0 < step -> 0 <= mn <= v -> v <= LLONG_MAX ->
  lowest + new < 2 ^ 31 -> lowest + (v - mn) / step < 2 ^ 31 ->
  new_bucket new lowest mn step v = Z.min (lowest + (v - mn) / step) (lowest + new - 1).
Proof.
  intros. unfold new_bucket, ll_div. assert (v -ll mn = v - mn) as -> by (apply ll_id; ll_range).
  pose proof (Z.div_pos (v - mn) step ltac:(lia) ltac:(lia)).
  rewrite Z.quot_div_nonneg by lia. rewrite ll_id by (unfold in_ll, LLONG_MIN, LLONG_MAX in *; lia).
  rewrite (wrap_id 32 (lowest + _)) by lia. rewrite (uint_add_exact lowest new), uint_sub_exact by lia.
  rewrite uwrap_id, wrap_id by lia. case_match; lia.
Qed.

Lemma occ_snd k l : forall l', map snd l = map snd l' -> occ k l = occ k l'.
Proof.
  induction l as [|p l IH]; intros [|q l'] H; try done. injection H as H1 H2. rewrite !occ_cons, H1. f_equal. by apply IH.
Qed.

(** What a distribution makes of the elements [l]: the bucket [id] is split
    among those from [lowest], of which the last is full, and another one. *)
Record split_up (S : nat) (id lowest : Z) (l l' : list (Z * Z)) : Prop := {
  split_below k : k <> id -> k < lowest -> occ k l' = occ k l;
  split_placed : (forall p, p ∈ l -> p.2 = id \/ 0 <= p.2 < Z.of_nat S) -> placed S l';
  split_two : exists b, lowest <= b < Z.of_nat S - 1 /\ 0 < occ b l' /\ 0 < occ (Z.of_nat S - 1) l';
}.

Section distribute.
Context (S : nat) (id new lowest : Z) (l : list (Z * Z)).
Context (Hkind : id = lowest /\ 0 < lowest < Z.of_nat S \/ id = -1 /\ lowest = 0).
Context (Hnew : 2 <= new) (HS : lowest + new = Z.of_nat S) (Hsmall : Z.of_nat S + Z.of_nat (length l) < 2 ^ 30).

Lemma assign_splits mn step l1 sizes : map snd l1 = map snd l -> 0 < step -> 0 <= mn ->
  (forall v, (v, id) ∈ l1 -> mn <= v <= LLONG_MAX /\ (v - mn) / step < 2 ^ 30) ->
  (exists v, (v, id) ∈ l1 /\ (v - mn) / step < new - 1) -> (exists v, (v, id) ∈ l1 /\ new - 1 <= (v - mn) / step) ->
  counted S l1 sizes ->
  exists sizes', assign id new lowest mn step l1 sizes = Ok (assigned id new lowest mn step <$> l1, sizes') /\
    counted S (assigned id new lowest mn step <$> l1) sizes' /\ split_up S id lowest l (assigned id new lowest mn step <$> l1).
Proof.
  intros Hsnd Hstep Hmn Hv (v1 & Hv1 & Hq1) (v2 & Hv2 & Hq2) Hc.
  assert (0 <= lowest) as Hlow by lia.
  assert (forall v, (v, id) ∈ l1 -> 0 <= (v - mn) / step /\
    new_bucket new lowest mn step v = Z.min (lowest + (v - mn) / step) (lowest + new - 1)) as Hnb.
  { intros v Hin. destruct (Hv v Hin). split; [apply Z.div_pos; lia|]. apply new_bucket_value; lia. }
  destruct (assign_ok S id new lowest Hkind mn step l1 [] sizes) as (sizes' & -> & Hc'); [lia| | |done|].
  { cbn. apply (f_equal length) in Hsnd. rewrite !length_map in Hsnd. lia. }
  { intros v Hin. destruct (Hnb v Hin) as [? ->]. lia. }
  exists sizes'. split; [done|]. split; [exact Hc'|]. split.
  - intros k Hk Hkl. rewrite <- (occ_snd k l1 l Hsnd). clear Hc Hc' Hv1 Hv2 Hsnd. induction l1 as [|[v b] l1 IH]; [done|].
    rewrite fmap_cons, !occ_cons. rewrite IH by (intros w Hw; (apply Hv || apply Hnb); set_solver). f_equal. unfold assigned. cbn.
    destruct (Z.eqb_spec id b) as [<-|]; [|done]. cbn. destruct (Hnb v ltac:(set_solver)) as [? ->]. case_bool; lia.
  - intros Hp p Hin. apply list_elem_of_fmap in Hin as ([v b] & -> & Hin). unfold assigned. cbn.
    destruct (Z.eqb_spec id b) as [<-|Hne]; cbn; [destruct (Hnb v Hin) as [? ->]; lia|].
    assert (b ∈ map snd l) as ([v' b'] & Hb & Hin')%list_elem_of_fmap by (rewrite <- Hsnd; apply list_elem_of_fmap; by exists (v, b)).
    cbn in Hb. subst b'. destruct (Hp _ Hin') as [E|]; [by cbn in E|done].
  - assert (forall v, (v, id) ∈ l1 -> 0 < occ (Z.min (lowest + (v - mn) / step) (lowest + new - 1)) (assigned id new lowest mn step <$> l1)) as Ho.
    { intros v Hin. destruct (Hnb v Hin) as [_ <-]. apply occ_pos. exists v. apply list_elem_of_fmap. exists (v, id). split; [|done].
      unfold assigned. cbn. by rewrite Z.eqb_refl. }
    exists (lowest + (v1 - mn) / step). destruct (Hnb v1 Hv1) as [? _]. split; [lia|]. split.
    + specialize (Ho v1 Hv1). by replace (Z.min _ _) with (lowest + (v1 - mn) / step) in Ho by lia.
    + specialize (Ho v2 Hv2). by replace (Z.min _ _) with (Z.of_nat S - 1) in Ho by lia.
Qed.

Lemma assigned_fst mn step p : (assigned id new lowest mn step p).1 = p.1.
Proof. unfold assigned. by case_match. Qed.

(** Values that differ too little are told apart first. *)
Lemma spread_splits sizes mn hi : 2 * new <= occ id l -> (forall p, p ∈ l -> 0 <= p.1 <= hi) -> hi + Z.of_nat (length l) <= LLONG_MAX ->
  0 <= mn -> (forall v, (v, id) ∈ l -> mn <= v < mn + new) -> counted S l sizes ->
  let '(l1, c) := spread id 0 l in c = occ id l /\
    exists sizes', assign id new lowest mn (c / new) l1 sizes = Ok (assigned id new lowest mn (c / new) <$> l1, sizes') /\
      counted S (assigned id new lowest mn (c / new) <$> l1) sizes' /\
      grown (Z.of_nat (length l)) l (assigned id new lowest mn (c / new) <$> l1) /\
      split_up S id lowest l (assigned id new lowest mn (c / new) <$> l1).
Proof.
  intros Hn Hl Hhi Hmn0 Hr Hc. pose proof (occ_length id l) as Hon.
  pose proof (spread_ok id l 0 hi ltac:(lia) ltac:(lia) ltac:(lia) Hl) as Hs. destruct (spread id 0 l) as [l1 c].
  destruct Hs as (-> & Hsnd & Hg & Hs & Hends). destruct (Hends ltac:(lia)) as [(v1 & Hv1 & Hv1') (v2 & Hv2 & Hv2')].
  rewrite !Z.add_0_l in *. rewrite Z.add_0_r in *. split; [done|].
  pose proof (Z.div_le_lower_bound (occ id l) new 2 ltac:(lia) ltac:(lia)) as Hstep2.
  pose proof (Z.div_mod (occ id l) new ltac:(lia)) as Hdm'. pose proof (Z.mod_pos_bound (occ id l) new ltac:(lia)) as Hmod'.
  set (step := occ id l / new) in *. pose proof (Hr _ Hv1) as Hr1. pose proof (Hr _ Hv2) as Hr2.
  destruct (assign_splits mn step l1 sizes Hsnd) as (sizes' & -> & Hc' & Hsp); [lia|lia| | | | |].
  - intros v Hv. destruct (Hs v Hv) as (w & Hw & ?). pose proof (Hr _ Hw). pose proof (Hl _ Hw) as Hlw. cbn in Hlw. split; [lia|].
    apply Z.div_lt_upper_bound; nia.
  - exists v1. split; [done|]. apply Z.div_lt_upper_bound; nia.
  - exists (v2 + occ id l - 1). split; [done|]. apply Z.div_le_lower_bound; nia.
  - destruct Hc as [Hc1 Hc2]. split; [done|]. intros k Hk. rewrite (occ_snd _ l1 l Hsnd). by apply Hc2.
  - eexists. split_and!; [done|done| |done]. apply grown_fmap; [apply assigned_fst|]. eapply grown_weaken; [|exact Hg]. lia.
Qed.

(** The divisions of the code are exact. *)
Lemma step_exact a n : 0 <= a <= LLONG_MAX -> 0 < n -> ll_div a n = a / n /\ 0 <= a / n.
Proof.
  intros Ha Hn. pose proof (Z.div_pos a n ltac:(lia) Hn). split; [|done]. unfold ll_div. rewrite Z.quot_div_nonneg by lia.
  apply ll_id. pose proof (Z.div_le_upper_bound a n LLONG_MAX Hn ltac:(unfold LLONG_MAX in *; nia)). ll_range.
Qed.

Lemma distribute_ok sizes hi : 2 * new <= occ id l -> (forall p, p ∈ l -> 0 <= p.1 <= hi) -> hi + Z.of_nat (length l) <= LLONG_MAX ->
  counted S l sizes ->
  exists l' sizes', distributeAllInBucket id new lowest (mkBuckets l sizes) = Ok (mkBuckets l' sizes') /\
    counted S l' sizes' /\ grown (Z.of_nat (length l)) l l' /\ split_up S id lowest l l'.
Proof.
  intros Hn Hl Hhi Hc. pose proof (occ_length id l) as Hon. unfold distributeAllInBucket. cbn [elements MarkovModulatedProcess.sizes].
  pose proof (range_ok id l ltac:(lia)) as Hr. destruct (range_of id l) as [mn mx]. destruct Hr as (Hmn & Hmx & Hr).
  { intros v Hv. specialize (Hl _ Hv). cbn in Hl. lia. }
  pose proof (Hl _ Hmn) as Hmn0. pose proof (Hl _ Hmx) as Hmx0. pose proof (Hr _ Hmx) as Hmnmx. cbn in Hmn0, Hmx0.
  destruct (Z.eqb_spec new 0); [lia|]. assert (mx -ll mn = mx - mn) as -> by (apply ll_id; ll_range).
  destruct (step_exact (mx - mn) new) as [-> Hq]; [lia|lia|].
  pose proof (Z.div_mod (mx - mn) new ltac:(lia)) as Hdm. pose proof (Z.mod_pos_bound (mx - mn) new ltac:(lia)) as Hmod.
  destruct (Z.eqb_spec ((mx - mn) / new) 0) as [E0|Hstep].
  - pose proof (spread_splits sizes mn hi Hn Hl Hhi ltac:(lia)) as Hs. destruct (spread id 0 l) as [l1 c].
    destruct Hs as (-> & sizes' & Ha & Hc' & Hg & Hsp); [intros v Hv; specialize (Hr v Hv); lia|done|].
    assert ((mn +ll occ id l) -ll mn = occ id l) as -> by (unfold ll_add; rewrite (ll_id (mn + _)) by ll_range; unfold ll_sub; rewrite ll_id by ll_range; lia).
    destruct (step_exact (occ id l) new) as [-> _]; [lia|lia|]. rewrite Ha. cbn [mbind res_bind]. by eexists _, _.
  - set (step := (mx - mn) / new) in *.
    destruct (assign_splits mn step l sizes eq_refl) as (sizes' & -> & Hc' & Hsp); [lia|lia| | | |done|].
    + intros v Hv. pose proof (Hr _ Hv). pose proof (Hl _ Hv) as Hlv. cbn in Hlv. split; [lia|]. apply Z.div_lt_upper_bound; nia.
    + exists mn. split; [done|]. rewrite Z.sub_diag, Z.div_0_l by lia. lia.
    + exists mx. split; [done|]. apply Z.div_le_lower_bound; nia.
    + cbn [mbind res_bind]. eexists _, _. split_and!; [done|done| |done]. apply grown_fmap; [apply assigned_fst|]. apply grown_refl. lia.
Qed.
End distribute.

(** ** Full and empty buckets *)
Definition full (s : Z) : Z := if s =? 0 then 0 else 1.
Definition nz (sizes : list Z) : Z := sum_of full sizes.

(** No empty bucket before a full one. *)
Definition packed (sizes : list Z) : Prop := forall i j, (i < j < length sizes)%nat -> nthd sizes j <> 0 -> nthd sizes i <> 0.

Lemma nz_bounds sizes : 0 <= nz sizes <= Z.of_nat (length sizes).
Proof. unfold nz, sum_of. induction sizes as [|s l IH]; cbn [foldr length]; [lia|]. unfold full at 1 3. case_match; lia. Qed.

Lemma nz_insert sizes i x : (i < length sizes)%nat -> nz (<[i := x]> sizes) = nz sizes - full (nthd sizes i) + full x.
Proof. intros Hi. apply sum_of_insert. by apply nthd_lookup. Qed.

Lemma packed_nz sizes : packed sizes -> forall k, (k < length sizes)%nat -> nthd sizes k <> 0 <-> Z.of_nat k < nz sizes.
Proof.
  induction sizes as [|s l IH]; intros Hp k Hk; cbn in Hk; [lia|].
  assert (packed l) as Hl by (intros i j Hij; apply (Hp (S i) (S j)); cbn; lia).
  change (nz (s :: l)) with (full s + nz l). pose proof (nz_bounds l) as Hb. unfold full. destruct (Z.eqb_spec s 0) as [->|Hs].
  - assert (nz l = 0) as ->.
    { destruct l as [|y l]; [done|]. destruct (Z.eq_dec (nz (y :: l)) 0) as [|Hne]; [done|].
      assert (nthd (y :: l) 0 <> 0) as H0 by (apply (IH Hl 0%nat); cbn [length] in *; lia).
      by destruct (Hp 0%nat 1%nat ltac:(cbn; lia) H0). }
    split; [|lia]. intros Hk0. destruct k as [|k]; [done|]. by destruct (Hp 0%nat (S k) ltac:(cbn; lia) Hk0).
  - destruct k as [|k]; [split; [lia|done]|]. change (nthd (s :: l) (S k)) with (nthd l k). rewrite (IH Hl k) by lia. lia.
Qed.

Lemma nz_ge sizes n : (n <= length sizes)%nat -> (forall k, (k < n)%nat -> nthd sizes k <> 0) -> Z.of_nat n <= nz sizes.
Proof.
  revert sizes. induction n as [|n IH]; intros sizes Hn Hk; [pose proof (nz_bounds sizes); lia|]. destruct sizes as [|s l]; cbn in Hn; [lia|].
  change (nz (s :: l)) with (full s + nz l). specialize (IH l ltac:(lia) (fun k Hl => Hk (S k) ltac:(lia))).
  unfold full. pose proof (Hk 0%nat ltac:(lia)) as H0. change (nthd (s :: l) 0) with s in H0. case_bool; lia.
Qed.

Lemma nz_ge_two sizes n i j : (n <= i)%nat -> (i < j < length sizes)%nat -> (forall k, (k < n)%nat -> nthd sizes k <> 0) ->
  nthd sizes i <> 0 -> nthd sizes j <> 0 -> Z.of_nat n + 2 <= nz sizes.
Proof.
  intros Hni Hij Hk Hi Hj.
  assert (Z.of_nat n <= nz (<[j := 0]> (<[i := 0]> sizes))) as H.
  { apply nz_ge; [rewrite !length_insert; lia|]. intros k Hkn. rewrite !nthd_insert_ne by lia. by apply Hk. }
  rewrite !nz_insert in H by (rewrite ?length_insert; lia). rewrite nthd_insert_ne in H by lia. unfold full in H.
  destruct (Z.eqb_spec (nthd sizes i) 0), (Z.eqb_spec (nthd sizes j) 0); cbn in H; lia.
Qed.

(** The sizes add up to the number of elements. *)
Lemma sizes_sum S l sizes : counted S l sizes -> placed S l -> sum_of id sizes = Z.of_nat (length l).
Proof.
  intros [Hlen Hc] Hp. assert (sizes = map (fun k => occ (Z.of_nat k) l) (seq 0 S)) as ->.
  { apply list_eq_same_length with S; [by rewrite length_map, length_seq|done|]. intros i x y Hi.
    rewrite nthd_lookup by lia. rewrite (Hc i Hi). change (map ?f ?k) with (f <$> k). rewrite list_lookup_fmap, lookup_seq_lt by done. intros [= <-] [= <-]. done. }
  clear Hlen Hc. induction l as [|p l IH].
  - generalize (seq 0 S). intros L. induction L; [done|]. cbn. done.
  - assert (forall L, sum_of id (map (fun k => occ (Z.of_nat k) (p :: l)) L) =
      sum_of (fun k => if p.2 =? Z.of_nat k then 1 else 0) L + sum_of id (map (fun k => occ (Z.of_nat k) l) L)) as H.
    { induction L as [|k L IHL]; [done|]. cbn [map]. unfold sum_of in *. cbn [foldr]. rewrite IHL. rewrite occ_cons. unfold id. lia. }
    rewrite H, IH by (intros q Hq; apply Hp; set_solver). clear H IH. destruct (Hp p ltac:(set_solver)) as [H0 HS].
    assert (forall n a, 0 <= p.2 - Z.of_nat a < Z.of_nat n -> sum_of (fun k => if p.2 =? Z.of_nat k then 1 else 0) (seq a n) = 1) as H1.
    { assert (forall n a, p.2 < Z.of_nat a -> sum_of (fun k => if p.2 =? Z.of_nat k then 1 else 0) (seq a n) = 0) as H0'.
      { induction n as [|n IH]; intros a Ha; [done|]. cbn. unfold sum_of in *. rewrite IH by lia. case_bool; lia. }
      induction n as [|n IH]; intros a Ha; [lia|]. cbn. destruct (Z.eqb_spec (p.2) (Z.of_nat a)).
      - unfold sum_of in *. rewrite H0' by lia. done.
      - unfold sum_of in *. rewrite IH by lia. done. }
    rewrite H1 by lia. cbn [length]. lia.
Qed.

Lemma sum_le_nz sizes M : 0 <= M -> (forall x, x ∈ sizes -> x <= M) -> sum_of id sizes <= nz sizes * M.
Proof.
  intros HM. induction sizes as [|s l IH]; intros H; [done|]. change (nz (s :: l)) with (full s + nz l).
  change (sum_of id (s :: l)) with (s + sum_of id l). specialize (IH ltac:(set_solver)). pose proof (H s ltac:(set_solver)).
  unfold full. destruct (Z.eqb_spec s 0); nia.
Qed.

(** A good sorting, so far: sizes that are right and buckets that exist. *)
Definition sorted_into (S : nat) (b : Buckets) : Prop := counted S b.(elements) b.(sizes) /\ placed S b.(elements).

Lemma rename_fst f l : map fst (rename f l) = map fst l.
Proof. unfold rename. rewrite map_map. apply map_ext. by intros []. Qed.

Lemma grown_rename d f l l' : grown d l l' -> grown d l (rename f l').
Proof. intros H. apply grown_fmap; [by intros []|done]. Qed.

(** Buckets that change names: [f] is its own inverse on the buckets in use. *)
Lemma occ_rename f g k l : (forall p, p ∈ l -> f p.2 = k <-> p.2 = g) -> occ k (rename f l) = occ g l.
Proof.
  induction l as [|[v b] l IH]; intros H; [done|]. cbn [rename map]. rewrite !occ_cons. unfold rename in IH. rewrite IH by set_solver.
  f_equal. specialize (H (v, b) ltac:(set_solver)). cbn in *. case_bool; tauto.
Qed.

Lemma counted_swap S l sizes (i j : nat) f : (i < S)%nat -> (j < S)%nat -> counted S l sizes ->
  (forall p, p ∈ l -> f p.2 = (if p.2 =? Z.of_nat i then Z.of_nat j else if p.2 =? Z.of_nat j then Z.of_nat i else p.2)) ->
  counted S (rename f l) (<[j := nthd sizes i]> (<[i := nthd sizes j]> sizes)).
Proof.
  intros Hi Hj [Hl Hc] Hf. split; [by rewrite !length_insert|]. intros k Hk. rewrite !nthd_insert by (rewrite ?length_insert; lia).
  destruct (decide (j = k)) as [<-|]; [|destruct (decide (i = k)) as [<-|]].
  - rewrite Hc by done. symmetry. apply occ_rename. intros p Hp. rewrite (Hf p Hp). case_bool; lia.
  - rewrite Hc by done. symmetry. apply occ_rename. intros p Hp. rewrite (Hf p Hp). case_bool; lia.
  - rewrite Hc by done. symmetry. apply occ_rename. intros p Hp. rewrite (Hf p Hp). case_bool; lia.
Qed.

Lemma nz_swap sizes (i j : nat) : (i < length sizes)%nat -> (j < length sizes)%nat ->
  nz (<[j := nthd sizes i]> (<[i := nthd sizes j]> sizes)) = nz sizes.
Proof.
  intros Hi Hj. rewrite !nz_insert by (rewrite ?length_insert; lia). rewrite nthd_insert by lia. case_decide as E; [subst|]; lia.
Qed.

Lemma placed_rename S f l : placed S l -> (forall k, 0 <= k < Z.of_nat S -> 0 <= f k < Z.of_nat S) -> placed S (rename f l).
Proof.
  intros Hp Hf p Hin. apply list_elem_of_fmap in Hin as ([v b] & -> & Hin). cbn. apply Hf. apply (Hp _ Hin).
Qed.

(** What renaming keeps. *)
Definition same_sorting (S : nat) (b b' : Buckets) : Prop :=
  sorted_into S b' /\ nz b'.(sizes) = nz b.(sizes) /\ map fst b'.(elements) = map fst b.(elements).

Lemma fill_gap_ok S b (i : nat) : sorted_into S b -> (i < S)%nat ->
  same_sorting S b (fill_gap b i) /\ (forall k, (k < i)%nat -> nthd (fill_gap b i).(sizes) k = nthd b.(sizes) k) /\
  (nthd (fill_gap b i).(sizes) i = 0 -> forall k, (i <= k < S)%nat -> nthd (fill_gap b i).(sizes) k = 0) /\
  (forall k, (i < k < S)%nat -> nthd b.(sizes) k = 0 -> nthd (fill_gap b i).(sizes) k = 0).
Proof.
  intros [[Hl Hc] Hp] Hi. unfold fill_gap. destruct (Z.eqb_spec (nthd (sizes b) i) 0) as [E|E].
  2:{ split_and!; [by split_and!|done|done|done]. }
  destruct (list_find _ _) as [[x j]|] eqn:Ef.
  - apply list_find_Some in Ef as (Hj & Hnz & _). apply list_elem_of_lookup_2, elem_of_reverse, elem_of_seq in Hj.
    assert (counted S (rename (fun k => if k =? Z.of_nat j then Z.of_nat i else k) (elements b)) (<[j := 0]> (<[i := nthd (sizes b) j]> (sizes b)))) as Hc'.
    { rewrite <- E at 1. apply counted_swap; [lia|lia|done|]. intros p Hin.
      assert (p.2 <> Z.of_nat i) as Hne.
      { intros Hpi. rewrite (Hc i Hi) in E. assert (0 < occ (Z.of_nat i) (elements b)); [|lia]. apply occ_pos. exists p.1. rewrite <- Hpi. by destruct p. }
      destruct (Z.eqb_spec p.2 (Z.of_nat i)); [done|]. done. }
    cbn [sizes elements]. split_and!.
    + split_and!; [split; [done|]| |apply rename_fst].
      * apply placed_rename; [done|]. intros k Hk. case_bool; lia.
      * cbn [sizes]. rewrite <- E at 1. apply nz_swap; lia.
    + intros k Hk. by rewrite !nthd_insert_ne by lia.
    + rewrite nthd_insert_ne, nthd_insert_eq by lia. done.
    + intros k Hk E'. rewrite nthd_insert by (rewrite length_insert; lia). case_decide; [done|]. rewrite nthd_insert_ne by lia. done.
  - apply list_find_None in Ef. rewrite Forall_forall in Ef.
    split_and!; [by split_and!|done| |done]. intros _ k Hk. destruct (decide (k = i)) as [->|]; [done|].
    destruct (Z.eq_dec (nthd (sizes b) k) 0); [done|]. exfalso. apply (Ef k); [|done].
    apply elem_of_reverse, elem_of_seq. lia.
Qed.

Lemma fill_gap_none b i : (forall j, (i <= j < length b.(sizes))%nat -> nthd b.(sizes) j = 0) -> fill_gap b i = b.
Proof.
  intros H. unfold fill_gap. case_match; [|done]. destruct (list_find _ _) as [[x j]|] eqn:Ef; [|done].
  apply list_find_Some in Ef as (Hj & Hnz & _). apply list_elem_of_lookup_2, elem_of_reverse, elem_of_seq in Hj.
  destruct Hnz. apply H. lia.
Qed.

Lemma fill_gaps_from S n b : sorted_into S b -> (n < S)%nat ->
  same_sorting S b (foldl fill_gap b (seq 0 n)) /\
  forall k, (k < n)%nat -> nthd (foldl fill_gap b (seq 0 n)).(sizes) k <> 0 \/ forall k', (k <= k' < S)%nat -> nthd (foldl fill_gap b (seq 0 n)).(sizes) k' = 0.
Proof.
  intros Hb. induction n as [|n IH]; intros Hn; [split; [done|lia]|]. destruct (IH ltac:(lia)) as [(Hs & Hnz & Hf) Hk].
  rewrite seq_S, foldl_app. cbn [foldl Nat.add]. destruct (fill_gap_ok S _ n Hs ltac:(lia)) as ((Hs' & Hnz' & Hf') & Hlt & Hzero & Hgt).
  split; [split_and!; [done|congruence|congruence]|]. intros k Hkn. destruct (decide (k = n)) as [->|].
  - destruct (Z.eq_dec (nthd (fill_gap (foldl fill_gap b (seq 0 n)) n).(sizes) n) 0) as [E|]; [right|by left]. by apply Hzero.
  - destruct (Hk k ltac:(lia)) as [Hne|Hz]; [left; by rewrite Hlt by lia|]. right. intros k' Hk'.
    rewrite fill_gap_none; [by apply Hz|]. destruct Hs as [[Hl _] _]. intros j Hj. apply Hz. lia.
Qed.

Lemma fill_gaps_ok S b : (0 < S)%nat -> sorted_into S b -> same_sorting S b (fill_gaps S b) /\ packed (fill_gaps S b).(sizes).
Proof.
  intros HS Hb. destruct (fill_gaps_from S (S - 1) b Hb ltac:(lia)) as [Hs Hk]. split; [done|].
  destruct Hs as ([[Hl _] _] & _). intros i j Hij Hj. unfold fill_gaps in *. rewrite Hl in Hij.
  destruct (Hk i ltac:(lia)) as [|Hz]; [done|]. by rewrite Hz in Hj by lia.
Qed.

(** The loop that counts, up to [n]: how many buckets are full, and the first of
    the largest. *)
Definition largest_of (n : nat) (sizes : list Z) (largest : Z) : Prop :=
  largest = -1 /\ (forall k, (k < n)%nat -> nthd sizes k = 0) \/
  0 <= largest < Z.of_nat n /\ nthd sizes (Z.to_nat largest) <> 0 /\ forall k, (k < n)%nat -> nthd sizes k <= nthd sizes (Z.to_nat largest).

Lemma count_buckets_from S sizes n : length sizes = S -> Z.of_nat S < 2 ^ 31 -> (forall s, s ∈ sizes -> 0 <= s) -> (n <= S)%nat ->
  exists largest, count_buckets n sizes = (nz (take n sizes), Z.of_nat n - nz (take n sizes), largest) /\ largest_of n sizes largest.
Proof.
  intros Hl HS Hpos.
  induction n as [|n IH]; intros Hn; [exists (-1); split; [done|left; split; [done|lia]]|].
  destruct (IH ltac:(lia)) as (largest & Hc & Hlarge). pose proof (nthd_lookup sizes n ltac:(lia)) as Hx.
  pose proof (Hpos _ (list_elem_of_lookup_2 _ _ _ Hx)) as Hx0. pose proof (nz_bounds (take n sizes)) as Hb. rewrite length_take_le in Hb by lia.
  unfold count_buckets in *. rewrite seq_S, foldl_app, Hc. cbn [foldl Nat.add]. rewrite (take_S_r _ _ _ Hx).
  unfold nz in *. rewrite sum_of_app. change (sum_of full [nthd sizes n]) with (full (nthd sizes n) + 0). destruct (Z.eqb_spec (nthd sizes n) 0) as [E|E].
  - assert (full (nthd sizes n) = 0) as -> by (by rewrite E). exists largest. rewrite !Z.add_0_r.
    assert (uint_add (Z.of_nat n - sum_of full (take n sizes)) 1 = Z.of_nat (Datatypes.S n) - sum_of full (take n sizes)) as -> by (rewrite uint_add_exact; lia).
    split; [done|]. destruct Hlarge as [[-> Hz]|(? & ? & Hk)].
    + left. split; [done|]. intros k Hk. destruct (decide (k = n)) as [->|]; [done|]. apply Hz. lia.
    + right. split_and!; [lia|lia|done|]. intros k Hkn. destruct (decide (k = n)) as [->|]; [rewrite E; apply Hpos, nthd_elem_of; lia|]. apply Hk. lia.
  - assert (full (nthd sizes n) = 1) as -> by (unfold full; by destruct (Z.eqb_spec (nthd sizes n) 0)). rewrite !Z.add_0_r.
    assert (uint_add (sum_of full (take n sizes)) 1 = sum_of full (take n sizes) + 1) as -> by (rewrite uint_add_exact; lia).
    assert (Z.of_nat (Datatypes.S n) - (sum_of full (take n sizes) + 1) = Z.of_nat n - sum_of full (take n sizes)) as -> by lia.
    eexists. split; [done|]. right. destruct Hlarge as [[-> Hz]|(? & ? & Hk)].
    + rewrite Z.eqb_refl. cbn [orb]. rewrite Nat2Z.id. split_and!; [lia|lia|done|]. intros k Hkn. destruct (decide (k = n)) as [->|]; [lia|]. rewrite Hz by lia. lia.
    + destruct (Z.eqb_spec largest (-1)); [lia|]. cbn [orb]. destruct (Z.ltb_spec (nthd sizes (Z.to_nat largest)) (nthd sizes n)).
      * rewrite Nat2Z.id. split_and!; [lia|lia|done|]. intros k Hkn. destruct (decide (k = n)) as [->|]; [lia|]. specialize (Hk k ltac:(lia)). lia.
      * split_and!; [lia|lia|done|]. intros k Hkn. destruct (decide (k = n)) as [->|]; [done|]. apply Hk. lia.
Qed.

Lemma nz_none sizes : (forall k, (k < length sizes)%nat -> nthd sizes k = 0) -> nz sizes = 0.
Proof.
  induction sizes as [|s l IH]; intros Hz; [done|]. change (nz (s :: l)) with (full s + nz l). rewrite IH.
  - assert (s = 0) as -> by (apply (Hz 0%nat); cbn; lia). done.
  - intros k Hk. apply (Hz (S k)). cbn. lia.
Qed.

Lemma count_buckets_ok S sizes : length sizes = S -> Z.of_nat S < 2 ^ 31 -> (forall s, s ∈ sizes -> 0 <= s) ->
  exists largest, count_buckets S sizes = (nz sizes, Z.of_nat S - nz sizes, largest) /\
  (0 < nz sizes -> 0 <= largest < Z.of_nat S /\ nthd sizes (Z.to_nat largest) <> 0 /\
    forall k, (k < S)%nat -> nthd sizes k <= nthd sizes (Z.to_nat largest)).
Proof.
  intros Hl HS Hpos. destruct (count_buckets_from S sizes S Hl HS Hpos ltac:(lia)) as (largest & Hc & Hlarge). rewrite take_ge in Hc by lia.
  exists largest. split; [done|]. intros Hnz. destruct Hlarge as [[-> Hz]|Hok]; [|done]. rewrite nz_none in Hnz by (by rewrite Hl). lia.
Qed.

Lemma swap_buckets_ok S b (i j : Z) : sorted_into S b -> 0 <= i < Z.of_nat S -> 0 <= j < Z.of_nat S ->
  exists b', swap_buckets i j b = Ok b' /\ same_sorting S b b' /\
    b'.(sizes) = <[Z.to_nat j := nthd b.(sizes) (Z.to_nat i)]> (<[Z.to_nat i := nthd b.(sizes) (Z.to_nat j)]> b.(sizes)).
Proof.
  intros [[Hl Hc] Hp] Hi Hj. unfold swap_buckets. rewrite !at_index_ok by lia. cbn [mbind res_bind]. eexists. split; [done|]. split; [|done].
  split_and!; cbn [sizes elements]; [split| |apply rename_fst].
  - apply counted_swap; [lia|lia|done|]. intros p Hin. by rewrite !Z2Nat.id by lia.
  - apply placed_rename; [done|]. intros k Hk. case_bool; lia.
  - apply nz_swap; lia.
Qed.

Lemma same_sorting_trans S b1 b2 b3 : same_sorting S b1 b2 -> same_sorting S b2 b3 -> same_sorting S b1 b3.
Proof. intros (? & H1 & H2) (? & H3 & H4). split_and!; [done|congruence|congruence]. Qed.

Lemma grown_same d l l1 l2 : map fst l1 = map fst l2 -> grown d l l1 -> grown d l l2.
Proof.
  intros Hf H. revert l2 Hf. induction H as [|p q l l1 Hpq H IH]; intros [|r l2] Hf; try done; [constructor|].
  injection Hf as Hr Hf. constructor; [by rewrite <- Hr|by apply IH].
Qed.

Lemma sizes_nonneg S b : sorted_into S b -> forall s, s ∈ b.(sizes) -> 0 <= s.
Proof.
  intros [[Hl Hc] _] s [i Hi]%list_elem_of_lookup. pose proof (lookup_lt_Some _ _ _ Hi). specialize (Hc i ltac:(lia)).
  unfold nthd in Hc. rewrite Hi in Hc. cbn in Hc. subst s. apply occ_nonneg.
Qed.

(** The full buckets come first, and the last of them is the largest. *)
Definition ready (b : Buckets) : Prop := forall k, Z.of_nat k < nz b.(sizes) ->
  0 < nthd b.(sizes) k <= nthd b.(sizes) (Z.to_nat (nz b.(sizes) - 1)).

(** After a distribution the buckets are put in order again. *)
Lemma regroup S b : sorted_into S b -> 0 < nz b.(sizes) -> Z.of_nat S < 2 ^ 31 ->
  exists largest b', count_buckets S (fill_gaps S b).(sizes) = (nz b.(sizes), Z.of_nat S - nz b.(sizes), largest) /\
    same_sorting S b (fill_gaps S b) /\ (forall k, Z.of_nat k < nz b.(sizes) -> 0 < nthd (fill_gaps S b).(sizes) k) /\
    swap_buckets largest (nz b.(sizes) - 1) (fill_gaps S b) = Ok b' /\ same_sorting S b b' /\ ready b'.
Proof.
  intros Hb Hnz HS. pose proof (nz_bounds b.(sizes)) as Hbound. pose proof (proj1 (proj1 Hb)) as Hlen.
  destruct (fill_gaps_ok S b ltac:(lia) Hb) as [Hsame Hpack]. set (b1 := fill_gaps S b) in *.
  pose proof Hsame as (Hb1 & Hnz1 & _). pose proof (proj1 (proj1 Hb1)) as Hlen1. pose proof (sizes_nonneg S b1 Hb1) as Hpos.
  destruct (count_buckets_ok S b1.(sizes) Hlen1 HS Hpos) as (largest & Hcount & Hlarge). rewrite Hnz1 in *.
  destruct (Hlarge Hnz) as (Hl & Hl0 & Hmax). clear Hlarge.
  assert (Z.of_nat (Z.to_nat largest) < nz b.(sizes)) as Hlnz by (rewrite <- Hnz1; by apply packed_nz; [|lia|]).
  destruct (swap_buckets_ok S b1 largest (nz b.(sizes) - 1) Hb1) as (b' & Hswap & Hs' & Hsizes); [lia|lia|].
  assert (forall k, Z.of_nat k < nz b.(sizes) -> 0 < nthd b1.(sizes) k) as Hfull.
  { intros k Hk. assert (nthd b1.(sizes) k <> 0) as Hne by (apply packed_nz; [done|lia|lia]).
    pose proof (Hpos _ (nthd_elem_of b1.(sizes) k ltac:(lia))). lia. }
  exists largest, b'. split_and!; [done|done|done|done|by eapply same_sorting_trans|].
  destruct Hs' as (_ & Hnz' & _). rewrite Hnz1 in Hnz'. unfold ready. rewrite Hnz', Hsizes. intros k Hk.
  rewrite (nthd_insert_eq _ (Z.to_nat (nz b.(sizes) - 1))) by (rewrite length_insert; lia).
  rewrite !nthd_insert by (rewrite ?length_insert; lia).
  case_decide; [|case_decide]; subst; split; try (apply Hfull; lia); try (apply Hmax; lia); lia.
Qed.

(** The sorting ends when every bucket is full. *)
Definition all_full (S : nat) (sizes : list Z) : Prop := forall k, (k < S)%nat -> 0 < nthd sizes k.

Section sorting.
Context (S N : nat) (HS : (2 <= S)%nat) (HN : Z.of_nat N < 2 ^ 29).
Context (Henough : (Z.of_nat S + 1) * (Z.of_nat S + 1) <= 2 * Z.of_nat N).

Lemma small_states : (2 * S <= N)%nat.
Proof. nia. Qed.

(** A pass that splits a bucket, and what is done next. *)
Lemma next_pass fuel largest full_before null_before b l' b1 :
  distributeAllInBucket largest (uint_add null_before 1) (wrap 32 (uint_sub full_before 1)) b = Ok b1 ->
  sorted_into S b1 -> map fst b1.(elements) = l' -> 0 < nz b1.(sizes) ->
  (exists b2, split_buckets (Datatypes.S fuel) S largest full_before null_before b = Ok b2 /\ sorted_into S b2 /\
    all_full S b2.(sizes) /\ map fst b2.(elements) = l') \/
  (exists b2, split_buckets (Datatypes.S fuel) S largest full_before null_before b =
      split_buckets fuel S (nz b2.(sizes) - 1) (nz b2.(sizes)) (Z.of_nat S - nz b2.(sizes)) b2 /\
    sorted_into S b2 /\ ready b2 /\ nz b2.(sizes) = nz b1.(sizes) /\ nz b2.(sizes) < Z.of_nat S /\ map fst b2.(elements) = l').
Proof.
  intros Hd Hb1 Hf Hnz. pose proof small_states. destruct (regroup S b1 Hb1 Hnz ltac:(lia)) as (lg & b2 & Hcount & (Hs & Hnzg & Hfg) & Hfull & Hswap & (Hs2 & Hnz2 & Hf2) & Hready).
  pose proof (nz_bounds b1.(sizes)) as Hb. rewrite (proj1 (proj1 Hb1)) in Hb.
  cbn [split_buckets]. rewrite Hd. cbn [mbind res_bind]. rewrite Hcount. destruct (Z.eqb_spec (Z.of_nat S - nz b1.(sizes)) 0).
  - left. eexists. split; [done|]. split_and!; [done|intros k Hk; apply Hfull; lia|congruence].
  - right. exists b2. rewrite Hnz2. assert (wrap 32 (uint_sub (nz b1.(sizes)) 1) = nz b1.(sizes) - 1) as ->
      by (rewrite uint_sub_exact, wrap_id; lia). rewrite Hswap. cbn [mbind res_bind]. split_and!; [done|done|done|done|lia|congruence].
Qed.

(** By then the largest bucket has enough elements for those that are missing. *)
Lemma largest_enough b : sorted_into S b -> length b.(elements) = N -> ready b -> 0 < nz b.(sizes) < Z.of_nat S ->
  2 * (Z.of_nat S - nz b.(sizes) + 1) <= nthd b.(sizes) (Z.to_nat (nz b.(sizes) - 1)).
Proof.
  intros Hb Hl Hr Hnz. pose proof (sizes_sum S _ _ (proj1 Hb) (proj2 Hb)) as Hsum. rewrite Hl in Hsum.
  set (f := nz b.(sizes)) in *. set (M := nthd b.(sizes) (Z.to_nat (f - 1))) in *.
  assert (0 <= M) as HM by (pose proof (Hr 0%nat ltac:(lia)); unfold M, f; lia).
  assert (sum_of id b.(sizes) <= f * M) as Hle.
  { apply sum_le_nz; [done|]. intros x [i Hi]%list_elem_of_lookup.
    destruct (Z.lt_ge_cases (Z.of_nat i) f) as [Hif|Hif].
    - pose proof (Hr i Hif) as Hri. unfold nthd at 1 2 in Hri. rewrite Hi in Hri. cbn in Hri. unfold M. apply Hri.
    - assert (x = 0) as ->; [|done]. destruct (Z.eq_dec x 0) as [|Hx]; [done|]. exfalso.
      pose proof (lookup_lt_Some _ _ _ Hi) as Hlt.
      assert (Z.of_nat (Z.to_nat f) + 1 <= nz b.(sizes)) as Hge.
      { assert (Z.of_nat (Z.to_nat f) <= nz (<[i := 0]> b.(sizes))) as H.
        { apply nz_ge; [rewrite length_insert; unfold f; pose proof (nz_bounds b.(sizes)); lia|]. intros k Hk. rewrite nthd_insert_ne by lia.
          pose proof (Hr k ltac:(unfold f in *; lia)). lia. }
        rewrite nz_insert in H by done. unfold nthd in H. rewrite Hi in H. cbn in H. unfold full in H. destruct (Z.eqb_spec x 0); [done|]. cbn in H. lia. }
      fold f in Hge. lia. }
  rewrite Hsum in Hle. pose proof (Z.square_nonneg (Z.of_nat S + 1 - 2 * f)) as Hsq.
  destruct (Z.le_gt_cases (2 * (Z.of_nat S - f + 1)) M) as [|Hlt]; [done|].
  assert (f * M <= f * (2 * (Z.of_nat S - f + 1) - 1)) by (apply Z.mul_le_mono_nonneg_l; lia). nia.
Qed.

(** The loop from a state that a pass has left. *)
Lemma split_buckets_ok fuel : forall hi b, sorted_into S b -> length b.(elements) = N -> ready b -> 2 <= nz b.(sizes) < Z.of_nat S ->
  Z.of_nat S - nz b.(sizes) <= Z.of_nat fuel -> (forall p, p ∈ b.(elements) -> 0 <= p.1 <= hi) ->
  hi + (Z.of_nat S - nz b.(sizes)) * Z.of_nat N <= LLONG_MAX ->
  exists b', split_buckets fuel S (nz b.(sizes) - 1) (nz b.(sizes)) (Z.of_nat S - nz b.(sizes)) b = Ok b' /\
    sorted_into S b' /\ all_full S b'.(sizes) /\ grown ((Z.of_nat S - nz b.(sizes)) * Z.of_nat N) b.(elements) b'.(elements).
Proof.
  pose proof small_states as HSN. induction fuel as [|fuel IH]; intros hi b Hb Hl Hr Hnz Hfuel Hv Hhi; [lia|].
  pose proof (largest_enough b Hb Hl Hr ltac:(lia)) as Hlarge. pose proof Hb as [[Hlen Hcnt] Hplaced].
  rewrite (Hcnt (Z.to_nat (nz b.(sizes) - 1)) ltac:(lia)) in Hlarge. rewrite Z2Nat.id in Hlarge by lia.
  destruct b as [l sz]. cbn [elements MarkovModulatedProcess.sizes] in *.
  destruct (distribute_ok S (nz sz - 1) (Z.of_nat S - nz sz + 1) (nz sz - 1) l) with (sizes := sz) (hi := hi)
    as (l' & sz' & Hd & Hc' & Hg & Hsp); [left; lia|lia|lia|lia|lia|done|nia|done|].
  destruct Hsp as [Hbelow Hpl (i & Hi & Hoi & Hoj)]. specialize (Hpl (fun p Hp => or_intror (Hplaced p Hp))).
  assert (nz sz + 1 <= nz sz') as Hmore.
  { pose proof (nz_ge_two sz' (Z.to_nat (nz sz - 1)) (Z.to_nat i) (S - 1)) as Ht. destruct Hc' as [Hl' Hc'].
    enough (Z.of_nat (Z.to_nat (nz sz - 1)) + 2 <= nz sz') by lia. apply Ht; [lia|lia| | |].
    - intros k Hk. rewrite Hc' by lia. rewrite Hbelow by lia. rewrite <- Hcnt by lia. pose proof (Hr k) as Hrk. cbn [MarkovModulatedProcess.sizes] in Hrk. specialize (Hrk ltac:(lia)). lia.
    - rewrite Hc' by lia. rewrite Z2Nat.id by lia. lia.
    - rewrite Hc' by lia. replace (Z.of_nat (S - 1)) with (Z.of_nat S - 1) by lia. lia. }
  destruct (next_pass fuel (nz sz - 1) (nz sz) (Z.of_nat S - nz sz) (mkBuckets l sz) (map fst l') (mkBuckets l' sz'))
    as [(b2 & -> & Hs2 & Hfull & Hf)|(b2 & -> & Hs2 & Hr2 & Hnz2 & Hlt & Hf)]; [|done|done|cbn [MarkovModulatedProcess.sizes]; lia| |].
  - rewrite (uint_add_exact _ 1), uint_sub_exact, wrap_id by lia. done.
  - exists b2. split_and!; [done|done|done|]. apply (grown_same _ _ _ _ (eq_sym Hf)). eapply grown_weaken; [|exact Hg]. nia.
  - cbn [MarkovModulatedProcess.sizes] in Hnz2. rewrite Hl in Hg.
    assert (length (elements b2) = N) as Hl2.
    { apply (f_equal length) in Hf. rewrite !length_map in Hf. apply Forall2_length in Hg. congruence. }
    destruct (IH (hi + Z.of_nat N) b2) as (b3 & -> & Hs3 & Hfull & Hg3); [done|done|done|lia|lia| | |].
    + apply (grown_le (Z.of_nat N) l); [|done]. by apply (grown_same _ _ _ _ (eq_sym Hf)).
    + nia.
    + exists b3. split_and!; [done|done|done|]. eapply grown_weaken; [|eapply grown_trans; [apply (grown_same _ _ _ _ (eq_sym Hf)), Hg|exact Hg3]]. nia.
Qed.

Lemma setStateLimits_ok fuel hi l : (S <= fuel)%nat -> length l = N -> (forall p, p ∈ l -> 0 <= p.1 <= hi /\ p.2 = -1) ->
  hi + Z.of_nat S * Z.of_nat N <= LLONG_MAX ->
  exists b, setStateLimits fuel S (mkBuckets l (replicate S 0)) = Ok b /\
    sorted_into S b /\ all_full S b.(sizes) /\ grown (Z.of_nat S * Z.of_nat N) l b.(elements).
Proof.
  intros Hfuel Hl Hv Hhi. pose proof small_states as HSN. unfold setStateLimits. destruct fuel as [|fuel]; [lia|].
  assert (forall k, k <> -1 -> occ k l = 0) as Hocc.
  { intros k Hk. pose proof (occ_nonneg k l). destruct (Z.eq_dec (occ k l) 0); [done|]. exfalso. apply Hk.
    assert (0 < occ k l) as [v Hin]%occ_pos by lia. by destruct (Hv _ Hin). }
  assert (counted S l (replicate S 0)) as Hc.
  { split; [apply length_replicate|]. intros k Hk. rewrite Hocc by lia. unfold nthd. by rewrite lookup_replicate_2. }
  assert (occ (-1) l = Z.of_nat N) as Hall.
  { rewrite <- Hl. clear -Hv. induction l as [|p l IH]; [done|]. rewrite occ_cons, IH by (intros; apply Hv; set_solver).
    destruct (Hv p ltac:(set_solver)) as [_ ->]. rewrite Z.eqb_refl. cbn [length]. lia. }
  destruct (distribute_ok S (-1) (Z.of_nat S) 0 l) with (sizes := replicate S 0) (hi := hi) as (l' & sz & Hd & Hc' & Hg & Hsp);
    [by right|lia|lia|lia|lia|intros p Hp; apply (Hv p Hp)|nia|done|].
  destruct Hsp as [_ Hpl (i & Hi & Hoi & Hoj)]. specialize (Hpl (fun p Hp => or_introl (proj2 (Hv p Hp)))). rewrite Hl in Hg.
  assert (2 <= nz sz) as H2.
  { pose proof (nz_ge_two sz 0 (Z.to_nat i) (S - 1)) as Ht. destruct Hc' as [Hl' Hc']. apply Ht; [lia|lia|lia| |].
    - rewrite Hc', Z2Nat.id by lia. lia.
    - rewrite Hc' by lia. replace (Z.of_nat (S - 1)) with (Z.of_nat S - 1) by lia. lia. }
  destruct (next_pass fuel (-1) 1 (Z.of_nat S - 1) (mkBuckets l (replicate S 0)) (map fst l') (mkBuckets l' sz))
    as [(b2 & -> & Hs2 & Hfull & Hf)|(b2 & -> & Hs2 & Hr2 & Hnz2 & Hlt & Hf)]; [|done|done|cbn [MarkovModulatedProcess.sizes]; lia| |].
  - rewrite (uint_add_exact _ 1), uint_sub_exact, wrap_id by lia. by replace (Z.of_nat S - 1 + 1) with (Z.of_nat S) by lia.
  - exists b2. split_and!; [done|done|done|]. apply (grown_same _ _ _ _ (eq_sym Hf)). eapply grown_weaken; [|exact Hg]. nia.
  - cbn [MarkovModulatedProcess.sizes] in Hnz2.
    assert (length (elements b2) = N) as Hl2.
    { apply (f_equal length) in Hf. rewrite !length_map in Hf. apply Forall2_length in Hg. congruence. }
    destruct (split_buckets_ok fuel (hi + Z.of_nat N) b2) as (b3 & -> & Hs3 & Hfull & Hg3); [done|done|done|lia|lia| |nia|].
    + apply (grown_le (Z.of_nat N) l); [by apply (grown_same _ _ _ _ (eq_sym Hf))|]. intros p Hp. apply (Hv p Hp).
    + exists b3. split_and!; [done|done|done|]. eapply grown_weaken; [|eapply grown_trans; [apply (grown_same _ _ _ _ (eq_sym Hf)), Hg|exact Hg3]]. nia.
Qed.

End sorting.

(** ** The walk over the states *)
Lemma insert_elem {A} (l : list A) i x y : y ∈ <[i := x]> l -> y = x \/ y ∈ l.
Proof.
  intros [j Hj]%list_elem_of_lookup. apply list_lookup_insert_Some in Hj as [(-> & <- & _)|[_ Hj]]; [by left|right].
  by eapply list_elem_of_lookup_2.
Qed.

#[export] Instance float_inhabited : Inhabited float := populate (f64 0 0).

Definition square (S : nat) (m : list (list float)) : Prop := length m = S /\ forall row, row ∈ m -> length row = S.

Lemma square_row S m i : square S m -> (i < S)%nat -> length (nthd m i) = S.
Proof. intros [Hl Hr] Hi. apply Hr, nthd_elem_of. lia. Qed.

Lemma zeros_square S : square S (zeros (Z.of_nat S)).
Proof.
  unfold zeros. rewrite Nat2Z.id. split; [apply length_replicate|]. intros row [-> _]%elem_of_replicate. apply length_replicate.
Qed.

Lemma count_transitions_ok S bs : forall m, square S m -> (forall b, b ∈ bs -> 0 <= b < Z.of_nat S) ->
  exists m', count_transitions bs m = Ok m' /\ square S m'.
Proof.
  induction bs as [|i bs IH]; intros m Hm Hb; [by exists m|]. destruct bs as [|j bs]; [by exists m|].
  pose proof (Hb i ltac:(set_solver)) as Hi. pose proof (Hb j ltac:(set_solver)) as Hj.
  pose proof (square_row S m (Z.to_nat i) Hm ltac:(lia)) as Hrow. pose proof Hm as [Hl Hr].
  cbn [count_transitions]. rewrite at_index_ok by lia. cbn [mbind res_bind]. rewrite change_at_ok by lia. cbn [mbind res_bind].
  apply IH; [|set_solver]. split; [by rewrite length_insert|]. intros row Hin.
  apply insert_elem in Hin as [->|Hin]; [by rewrite length_insert|by apply Hr].
Qed.

Lemma accumulate_length n row : forall t, length (accumulate n t row) = length row.
Proof. induction row as [|x row IH]; intros t; [done|]. cbn [accumulate length]. by rewrite IH. Qed.

Lemma cumulative_length row : length (cumulative row) = length row.
Proof. apply accumulate_length. Qed.

Lemma populate_ok S bs m : square S m -> (forall b, b ∈ bs -> 0 <= b < Z.of_nat S) ->
  exists m', populateTransitionMatrix bs m = Ok m' /\ square S m'.
Proof.
  intros Hm Hb. unfold populateTransitionMatrix. destruct (count_transitions_ok S bs m Hm Hb) as (m1 & -> & [Hl Hr]). cbn [mbind res_bind].
  eexists. split; [done|]. split; [by rewrite length_map|]. intros row (r & -> & Hin)%list_elem_of_fmap. rewrite cumulative_length. by apply Hr.
Qed.

(** The [element]-th measurement of a state exists. *)
Lemma sample_ok k l : forall element, 0 <= element < occ k l -> element < 2 ^ 31 -> exists v, sample_from k element l = Ok v /\ (v, k) ∈ l.
Proof.
  induction l as [|[v b] l IH]; intros e He Hsmall; [unfold occ in He; cbn in He; lia|]. cbn [sample_from]. rewrite occ_cons in He. cbn [snd] in He.
  destruct (Z.eqb_spec b k) as [->|]; [destruct (Z.eqb_spec e 0)|].
  - exists v. split; [done|set_solver].
  - assert (int_sub e 1 = e - 1) as -> by (apply wrap_id; lia). destruct (IH (e - 1) ltac:(lia) ltac:(lia)) as (w & -> & Hw). exists w. split; [done|set_solver].
  - destruct (IH e ltac:(lia) Hsmall) as (w & -> & Hw). exists w. split; [done|set_solver].
Qed.

Section machine.
Context (S N : nat).
(** The durations that are measured, and 0. *)
Context (T : list Z).

(** [x] is a measured duration, lengthened by at most [d]. *)
Definition lengthened (d x : Z) : Prop := exists t, t ∈ T /\ t <= x <= t + d.

Record trained (m : MarkovModulatedProcess) : Prop := {
  tr_current : 0 <= m.(currentState) < Z.of_nat S;
  tr_matrix : square S m.(transitionMatrix);
  tr_length : length m.(bucketOfElement) = N;
  tr_sorted : sorted_into S (mkBuckets (elements_of m) m.(bucketSizes));
  tr_full : all_full S m.(bucketSizes);
}.

Record good (d : Z) (m : MarkovModulatedProcess) : Prop := {
  good_N : m.(cyclic).(circular_buffersize) = Z.of_nat N;
  good_S : m.(states) = Z.of_nat S;
  good_length : length m.(cyclic).(buffer) = N;
  good_values x : x ∈ m.(cyclic).(buffer) -> lengthened d x;
  good_trained : m.(currentState) <> -1 -> trained m;
}.

Lemma lengthened_more d e x y : lengthened d x -> x <= y <= x + e -> lengthened (d + e) y.
Proof. intros (t & Ht & ?) ?. exists t. split; [done|lia]. Qed.

Lemma lengthened_weaken d e x : d <= e -> lengthened d x -> lengthened e x.
Proof. intros ? (t & Ht & ?). exists t. split; [done|lia]. Qed.

Lemma good_weaken d e m : d <= e -> good d m -> good e m.
Proof. intros ? []. split; try done. intros x Hx. eapply lengthened_weaken; [done|by auto]. Qed.

Context (HS : (2 <= S)%nat) (HN : Z.of_nat N < 2 ^ 29).
Context (Henough : (Z.of_nat S + 1) * (Z.of_nat S + 1) <= 2 * Z.of_nat N).
Context (hi : Z) (HT : forall t, t ∈ T -> 0 <= t <= hi).

Lemma lengthened_bounds d x : lengthened d x -> 0 <= x <= hi + d.
Proof. intros (t & Ht & ?). specialize (HT t Ht). lia. Qed.

Definition pass_drift : Z := Z.of_nat S * Z.of_nat N.

Lemma train_ok fuel d m : (S <= fuel)%nat -> good d m -> 0 <= d -> hi + d + pass_drift <= LLONG_MAX ->
  exists m', train fuel m = Ok m' /\ good (d + pass_drift) m' /\ trained m' /\ m'.(cyclic).(size) = m.(cyclic).(size).
Proof.
  intros Hfuel [Hn Hs Hl Hv _] Hd Hhi. pose proof (small_states S N HS Henough) as HSN. unfold train. rewrite Hn, Hs, !Nat2Z.id, Hl.
  destruct (Nat.ltb_spec N N); [lia|].
  assert (length (zip (buffer (cyclic m)) (replicate N (-1))) = N) as Hzl by (rewrite length_zip_with, Hl, length_replicate; lia).
  assert (map fst (zip (buffer (cyclic m)) (replicate N (-1))) = buffer (cyclic m)) as Hfst by (apply fst_zip; rewrite length_replicate; lia).
  destruct (setStateLimits_ok S N HS HN Henough fuel (hi + d) (zip (buffer (cyclic m)) (replicate N (-1))) Hfuel Hzl) as (b & -> & Hb & Hfull & Hg); [|done|].
  { intros [x k] Hin. apply elem_of_zip_with in Hin as (x' & k' & [= -> ->] & Hx & [-> _]%elem_of_replicate). split; [|done].
    apply lengthened_bounds, Hv, Hx. }
  cbn [mbind res_bind]. pose proof (Forall2_length _ _ _ Hg) as Hbl. rewrite Hzl in Hbl.
  assert (forall k, k ∈ map snd (elements b) -> 0 <= k < Z.of_nat S) as Hplaced by (intros k (p & -> & Hp)%list_elem_of_fmap; by apply Hb).
  destruct (populate_ok S (map snd (elements b)) (zeros (Z.of_nat S)) (zeros_square S) Hplaced) as (P & -> & HP). cbn [mbind res_bind].
  rewrite at_index_ok by (rewrite length_map; lia). cbn [mbind res_bind]. eexists. split; [done|].
  assert (0 <= nthd (map snd (elements b)) (Z.to_nat (Z.of_nat N - 2)) < Z.of_nat S) as Hcur by (apply Hplaced, nthd_elem_of; rewrite length_map; lia).
  assert (zip (map fst (elements b)) (map snd (elements b)) = elements b) as Hzip by (clear; induction (elements b) as [|[] ? IH]; [done|cbn; by rewrite IH]).
  match goal with |- good _ ?m' /\ _ => assert (trained m') as Htr end.
  { split; cbn [currentState transitionMatrix bucketOfElement bucketSizes]; [done|done|by rewrite length_map| |done].
    unfold elements_of. cbn [cyclic buffer bucketOfElement]. rewrite Hzip. by destruct b. }
  split_and!; [|done|done]. split; cbn [cyclic buffer circular_buffersize states]; [done|done|by rewrite length_map| |done].
  intros x (q & -> & Hq)%list_elem_of_fmap. apply list_elem_of_lookup in Hq as [i Hi].
  destruct (Forall2_lookup_r _ _ _ _ _ Hg Hi) as (p & Hp & Hpq). eapply lengthened_more; [|exact Hpq].
  apply Hv. rewrite <- Hfst. apply list_elem_of_fmap. exists p. split; [done|]. by eapply list_elem_of_lookup_2.
Qed.

Lemma walk_ok d rand1 rand2 m : 0 <= rand1 -> good d m -> trained m ->
  exists v m', (value ← sampleMeasurementOfState rand1 m; currentState ← getRandomTransitionFrom rand2 m;
    Ok (value, mkMarkov m.(cyclic) m.(states) currentState m.(transitionMatrix) m.(bucketOfElement) m.(bucketSizes))) = Ok (v, m') /\
    lengthened d v /\ good d m' /\ m'.(cyclic) = m.(cyclic).
Proof.
  intros Hr [Hn Hs Hl Hv _] [Hcur Hm Hbl [[Hsl Hcnt] Hp] Hfull]. cbn [MarkovModulatedProcess.sizes elements] in *.
  pose proof (small_states S N HS Henough) as HSN.
  unfold sampleMeasurementOfState. rewrite at_index_ok by lia. cbn [mbind res_bind].
  pose proof (Hfull (Z.to_nat (currentState m)) ltac:(lia)) as Hpos. pose proof (Hcnt (Z.to_nat (currentState m)) ltac:(lia)) as Hc. rewrite Z2Nat.id in Hc by lia.
  pose proof (occ_length (currentState m) (elements_of m)) as Hol. assert (length (elements_of m) = N) as Hel by (unfold elements_of; rewrite length_zip_with, Hl, Hbl; lia).
  destruct (Z.eqb_spec (nthd (bucketSizes m) (Z.to_nat (currentState m))) 0); [lia|].
  pose proof (Z.mod_pos_bound rand1 _ Hpos) as Hmod.
  rewrite wrap_id by lia. destruct (sample_ok (currentState m) (elements_of m) (rand1 `mod` nthd (bucketSizes m) (Z.to_nat (currentState m)))) as (v & -> & Hin); [lia|lia|].
  cbn [mbind res_bind]. unfold getRandomTransitionFrom. rewrite at_index_ok by (destruct Hm; lia). cbn [mbind res_bind].
  eexists v, _. split; [done|]. split; [apply Hv; apply elem_of_zip_l in Hin; done|]. split; [|done].
  split; cbn [cyclic states]; try done. intros _. split; cbn [currentState transitionMatrix bucketOfElement bucketSizes]; [|done..|by split|done].
  destruct (list_find _ _) as [[j x]|] eqn:Ef; [|rewrite Hs, wrap_id; lia].
  apply list_find_Some in Ef as (Hj%lookup_lt_Some & _). rewrite (square_row S) in Hj by (done || lia). lia.
Qed.

Lemma getValue_ok fuel d rand1 rand2 m : (S <= fuel)%nat -> 0 <= rand1 -> good d m -> 0 <= d -> hi + d + pass_drift <= LLONG_MAX ->
  exists v m', getValue fuel rand1 rand2 m = Ok (v, m') /\ lengthened (d + pass_drift) v /\ good (d + pass_drift) m' /\
    m'.(cyclic).(size) = m.(cyclic).(size).
Proof.
  intros Hfuel Hr Hg Hd Hhi. unfold getValue. destruct (needs_training m) eqn:En.
  - destruct (train_ok fuel d m Hfuel Hg Hd Hhi) as (m1 & -> & Hg1 & Ht1 & Hs1). cbn [mbind res_bind].
    destruct (walk_ok _ rand1 rand2 m1 Hr Hg1 Ht1) as (v & m2 & E & Hv & Hg2 & Hc2). exists v, m2. split_and!; [exact E|done|done|by rewrite Hc2].
  - apply orb_false_elim in En as [En%Z.eqb_neq _]. cbn [mbind res_bind].
    assert (0 <= pass_drift) by (unfold pass_drift; lia).
    destruct (walk_ok _ rand1 rand2 m Hr Hg (good_trained _ _ Hg En)) as (v & m2 & E & Hv & Hg2 & Hc2). exists v, m2.
    split_and!; [exact E|eapply lengthened_weaken; [|done]; lia|eapply good_weaken; [|done]; lia|by rewrite Hc2].
Qed.

Lemma addPredictionInfo_ok d t m : t ∈ T -> 0 <= d -> good d m -> 0 <= m.(cyclic).(size) -> m.(cyclic).(size) + 1 < 2 ^ 32 ->
  exists m', addPredictionInfo t m = Ok m' /\ good d m' /\ m'.(cyclic).(size) = m.(cyclic).(size) + 1.
Proof.
  intros Ht Hd [Hn Hs Hl Hv Htr] Hs0 Hs1. pose proof (small_states S N HS Henough) as HSN.
  unfold addPredictionInfo, CyclicBufferBased.addPredictionInfo, store. rewrite Hn, Hl.
  pose proof (Z.mod_pos_bound (size (cyclic m)) (Z.of_nat N) ltac:(lia)). destruct (Z.leb_spec (Z.of_nat N) (size (cyclic m) `mod` Z.of_nat N)); [lia|].
  destruct (Z.eqb_spec (Z.of_nat N) 0); [lia|]. cbn [mbind res_bind]. eexists. split; [done|].
  split; [|apply uint_add_exact; lia]. split; cbn [cyclic buffer circular_buffersize states currentState]; [done|done|by rewrite length_insert| |].
  - intros x [->|Hx]%insert_elem; [|by apply Hv]. exists t. split; [done|lia].
  - intros Hc. destruct (Htr Hc) as [H1 H2 H3 [[H4 H5] H6] H7]. cbn [elements MarkovModulatedProcess.sizes] in *.
    set (m' := mkMarkov _ _ _ _ _ _). assert (map snd (elements_of m') = map snd (elements_of m)) as Hsnd.
    { unfold elements_of, m'. cbn [cyclic buffer bucketOfElement]. rewrite !snd_zip by (rewrite ?length_insert; lia). done. }
    split; [done|done|done| |done]. split; [split; [done|]|]; cbn [elements MarkovModulatedProcess.sizes].
    + intros k Hk. rewrite (occ_snd _ _ _ Hsnd). by apply H5.
    + intros p Hp. assert (p.2 ∈ map snd (elements_of m)) as (q & -> & Hq)%list_elem_of_fmap; [|by apply H6].
      rewrite <- Hsnd. apply list_elem_of_fmap. by exists p.
Qed.
End machine.

(** ** What threads get *)

Lemma good_more S N T T' d m : (forall t, t ∈ T -> t ∈ T') -> good S N T d m -> good S N T' d m.
Proof. intros HT [? ? ? Hv ?]. split; try done. intros x Hx. destruct (Hv x Hx) as (t & Ht & ?). exists t. auto. Qed.

(** Until the buffer is full and one more duration was measured, the predictor
    only collects: the places that are written hold measured durations. *)
Record collects (S N : nat) (T : list Z) (m : MarkovModulatedProcess) : Prop := {
  co_N : m.(cyclic).(circular_buffersize) = Z.of_nat N;
  co_S : m.(states) = Z.of_nat S;
  co_length : length m.(cyclic).(buffer) = N;
  co_size : 0 <= m.(cyclic).(size) <= Z.of_nat N;
  co_written : take (Z.to_nat m.(cyclic).(size)) m.(cyclic).(buffer) ⊆ T;
  co_untrained : m.(currentState) = -1;
}.

(** It collects, or has enough to predict. *)
Definition fed (S N : nat) (T : list Z) (d : Z) (m : MarkovModulatedProcess) : Prop :=
  collects S N T m \/ good S N T d m /\ Z.of_nat N < m.(cyclic).(size).

Lemma collects_one S N T t m d : (2 <= N)%nat -> Z.of_nat N < 2 ^ 31 -> 0 <= d -> collects S N T m ->
  exists m', addPredictionInfo t m = Ok m' /\ fed S N (t :: T) d m' /\ m'.(cyclic).(size) = m.(cyclic).(size) + 1.
Proof.
  intros H2 Hsmall Hd [Hn Hs Hl Hsz Hw Hc]. unfold addPredictionInfo, CyclicBufferBased.addPredictionInfo, store. rewrite Hn, Hl.
  pose proof (Z.mod_pos_bound (size (cyclic m)) (Z.of_nat N) ltac:(lia)) as Hmod.
  destruct (Z.leb_spec (Z.of_nat N) (size (cyclic m) `mod` Z.of_nat N)); [lia|].
  destruct (Z.eqb_spec (Z.of_nat N) 0); [lia|]. cbn [mbind res_bind]. eexists. split; [done|].
  split; [|apply uint_add_exact; lia]. destruct (Z_lt_le_dec (size (cyclic m)) (Z.of_nat N)) as [Hlt|Hge].
  - left. rewrite Z.mod_small by lia. split; cbn [cyclic buffer circular_buffersize states currentState size]; [done|done|by rewrite length_insert| | |done].
    + rewrite uint_add_exact by lia. lia.
    + rewrite uint_add_exact by lia. rewrite Z2Nat.inj_add, Nat.add_1_r by lia.
      rewrite (take_S_r _ _ t) by (apply list_lookup_insert_eq; lia). rewrite take_insert_ge by lia.
      intros x [Hx|Hx]%elem_of_app; [right; by apply Hw|]. apply list_elem_of_singleton in Hx as ->. by left.
  - right. assert (size (cyclic m) = Z.of_nat N) as E by lia. split; [|cbn; rewrite uint_add_exact by lia; lia].
    split; cbn [cyclic buffer circular_buffersize states currentState]; [done|done|by rewrite length_insert| |done].
    intros x Hx. exists x. split; [|lia]. apply insert_elem in Hx as [->|Hx]; [by left|]. right. apply Hw.
    by rewrite E, Nat2Z.id, take_ge by lia.
Qed.

(** What the predictions [vs] come to that threads get, [seen] being what was
    measured before and [k] how many predictions there were: 0 until [N + 1]
    durations were measured, and then one of these, lengthened by at most
    [S * N] for every prediction so far. *)
Fixpoint predicted (S N : nat) (seen : list Z) (k : Z) (us : list use) (vs : list Z) : Prop :=
  match us, vs with
  | [], [] => True
  | Measured t :: us, _ => predicted S N (t :: seen) k us vs
  | Predict _ _ :: us, v :: vs =>
    (if (length seen <=? N)%nat then v = 0
     else exists t, t ∈ seen /\ t <= v <= t + (k + 1) * (Z.of_nat S * Z.of_nat N)) /\
    predicted S N seen (k + 1) us vs
  | _, _ => False
  end.

Definition predictions (us : list use) : list use := List.filter (fun u => match u with Predict _ _ => true | Measured _ => false end) us.

Lemma run_ok S N (HS : (2 <= S)%nat) (HN : Z.of_nat N < 2 ^ 29) (Henough : (Z.of_nat S + 1) * (Z.of_nat S + 1) <= 2 * Z.of_nat N)
    hi (Hhi0 : 0 <= hi) fuel us : forall T k m, (S <= fuel)%nat ->
  (forall r1 r2, Predict r1 r2 ∈ us -> 0 <= r1) -> (forall t, t ∈ T \/ Measured t ∈ us -> 0 <= t <= hi) ->
  fed S N T (k * pass_drift S N) m -> 0 <= k -> m.(cyclic).(size) = Z.of_nat (length T) ->
  Z.of_nat (length T + length us) < 2 ^ 32 -> hi + (k + Z.of_nat (length (predictions us))) * pass_drift S N <= LLONG_MAX ->
  exists vs m', run fuel us m = Ok (vs, m') /\ predicted S N T k us vs.
Proof.
  assert (0 <= pass_drift S N) as Hdrift by (unfold pass_drift; lia). pose proof (small_states S N ltac:(lia) Henough) as HSN.
  induction us as [|u us IH]; intros T k m Hfuel Hr Ht Hg Hk Hsz Hlen Hhi; cbn [run predicted]; [by exists [], m|].
  cbn [length] in *. destruct u as [r1 r2|t].
  - cbn [predictions List.filter length] in Hhi. fold (predictions us) in Hhi.
    assert (exists v m1, getNext fuel r1 r2 m = Ok (v, m1) /\
      (if (length T <=? N)%nat then v = 0 else exists t, t ∈ T /\ t <= v <= t + (k + 1) * (Z.of_nat S * Z.of_nat N)) /\
      fed S N T ((k + 1) * pass_drift S N) m1 /\ m1.(cyclic).(size) = m.(cyclic).(size)) as (v & m1 & -> & Hv & Hg1 & Hs).
    { unfold getNext. destruct Hg as [Hc|[Hg Hsize]].
      - pose proof (co_size _ _ _ _ Hc) as Hsize. rewrite (co_N _ _ _ _ Hc). destruct (Z.ltb_spec (Z.of_nat N) (size (cyclic m))); [lia|].
        destruct (Nat.leb_spec (length T) N); [|lia]. exists 0, m. split_and!; [done|done|by left|done].
      - rewrite (good_N _ _ _ _ _ Hg). destruct (Z.ltb_spec (Z.of_nat N) (size (cyclic m))); [|lia].
        destruct (Nat.leb_spec (length T) N); [lia|].
        destruct (getValue_ok S N T HS HN Henough hi (fun t Hin => Ht t (or_introl Hin)) fuel (k * pass_drift S N) r1 r2 m)
          as (v & m1 & E & Hl & Hg1 & Hs1); [done|apply (Hr r1 r2); by left|done|nia|nia|].
        replace (k * pass_drift S N + pass_drift S N) with ((k + 1) * pass_drift S N) in * by lia.
        exists v, m1. split_and!; [exact E|exact Hl|right; by rewrite Hs1|done]. }
    cbn [mbind res_bind]. destruct (IH T (k + 1) m1) as (vs & m2 & -> & Hvs); [done|intros; eapply Hr; by right| |done|lia|congruence|lia|lia|].
    { intros t [?|?]; apply Ht; [by left|right; by right]. }
    cbn [mbind res_bind]. exists (v :: vs), m2. split; [done|]. by split.
  - assert (exists m1, addPredictionInfo t m = Ok m1 /\ fed S N (t :: T) (k * pass_drift S N) m1 /\ m1.(cyclic).(size) = m.(cyclic).(size) + 1)
      as (m1 & -> & Hg1 & Hs).
    { destruct Hg as [Hc|[Hg Hsize]]; [apply collects_one; [lia|lia|nia|done]|].
      destruct (addPredictionInfo_ok S N (t :: T) HS Henough (k * pass_drift S N) t m) as (m1 & E & Hg1 & Hs);
        [by left|nia|eapply good_more; [|done]; by right|lia|lia|]. exists m1. split_and!; [done|right; split; [done|lia]|done]. }
    cbn [mbind res_bind]. destruct (IH (t :: T) k m1) as (vs & m2 & -> & Hvs); [done|intros; eapply Hr; by right| |done|done|cbn; lia|cbn; lia|done|].
    { intros t' [[->|?]%elem_of_cons|?]; apply Ht; [right; by left|by left|right; by right]. }
    by exists vs, m2.
Qed.

(** C36. With a buffer of [N] measurements and [S] states, where
    [(S + 1)^2 <= 2 * N], the predictor by a Markov process never fails: the
    sorting ends, after at most [S] passes, and never divides by zero, every
    walk finds its next state and its sample.  A prediction is 0 until [N + 1]
    durations were measured; from then on it is one of the durations measured
    before, which the sorting has lengthened by no more than [S * N] for each
    prediction so far, this one included. *)
Theorem markov_always_predicts S N fuel us hi : (2 <= S <= fuel)%nat -> Z.of_nat N < 2 ^ 29 ->
  (Z.of_nat S + 1) * (Z.of_nat S + 1) <= 2 * Z.of_nat N ->
  (forall r1 r2, Predict r1 r2 ∈ us -> 0 <= r1) -> (forall t, Measured t ∈ us -> 0 <= t <= hi) -> 0 <= hi ->
  Z.of_nat (length us) < 2 ^ 32 -> hi + Z.of_nat (length (predictions us)) * (Z.of_nat S * Z.of_nat N) <= LLONG_MAX ->
  exists vs m, run fuel us (new_MarkovModulatedProcess (Z.of_nat N) (Z.of_nat S)) = Ok (vs, m) /\ predicted S N [] 0 us vs.
Proof.
  intros HS HN Henough Hr Ht Hhi Hlen Hmax. pose proof (small_states S N ltac:(lia) Henough) as HSN.
  apply (run_ok S N ltac:(lia) HN Henough hi Hhi); [lia|done| | |lia| |cbn; lia|unfold pass_drift; lia].
  - intros t [Hin|Hin]; [by apply not_elem_of_nil in Hin|by apply Ht].
  - left. unfold new_MarkovModulatedProcess. destruct (Z.ltb_spec (Z.of_nat N) 2); [lia|]. destruct (Z.ltb_spec (Z.of_nat S) 2); [lia|].
    destruct (Z.ltb_spec (Z.of_nat N) (Z.of_nat S)); [lia|]. split; cbn; try done; [by rewrite Nat2Z.id, length_replicate|lia].
  - done.
Qed.

Definition six_uses : list use := [Measured 1; Measured 5; Measured 5; Predict 7 8; Measured 6; Measured 90; Measured 90; Predict 1 0; Predict 3 2000000000].

Lemma markov_always_predicts_witness : exists v1 v2 m,
  run 2 six_uses (new_MarkovModulatedProcess (Z.of_nat 5) (Z.of_nat 2)) = Ok ([0; v1; v2], m) /\
  (exists t, t ∈ [90; 90; 6; 5; 5; 1] /\ t <= v1 <= t + 20) /\ exists t, t ∈ [90; 90; 6; 5; 5; 1] /\ t <= v2 <= t + 30.
Proof.
  destruct (markov_always_predicts 2 5 2 six_uses 90) as (vs & m & E & Hp); [lia|lia|lia| | |lia|reflexivity|vm_compute; congruence|].
  - intros r1 r2 Hin. unfold six_uses in Hin. repeat (apply elem_of_cons in Hin as [Hin|Hin]; [first [by injection Hin; intros; subst|done]|]). by apply elem_of_nil in Hin.
  - intros t Hin. unfold six_uses in Hin. repeat (apply elem_of_cons in Hin as [Hin|Hin]; [first [by injection Hin; intros; subst; lia|done]|]). by apply elem_of_nil in Hin.
  - destruct vs as [|v0 [|v1 [|v2 [|v3 vs]]]]; try (cbn in Hp; tauto). destruct Hp as (-> & H1 & H2 & _).
    exists v1, v2, m. split; [exact E|]. split; [exact H1|exact H2].
Defined.

(** ** Small buffers *)

(** Decides the tests of the code on terms that [lia] can compare. *)
Ltac decide_tests :=
  repeat match goal with
  | |- context [?a <? ?b] => first [rewrite (proj2 (Z.ltb_lt a b)) by lia | rewrite (proj2 (Z.ltb_ge a b)) by lia]
  | |- context [?a =? ?b] => first [rewrite (proj2 (Z.eqb_eq a b)) by lia | rewrite (proj2 (Z.eqb_neq a b)) by lia]
  end.

Lemma new_bucket_next a : 0 <= a < 2 ^ 62 -> new_bucket 2 0 a 1 a = 0 /\ new_bucket 2 0 a 1 (a + 1) = 1.
Proof. intros. unfold LLONG_MAX in *. rewrite !new_bucket_value, !Z.div_1_r by (rewrite ?Z.div_1_r; unfold LLONG_MAX; lia). lia. Qed.

(** Two neighbouring measurements, the larger one first: the first pass puts
    both into one bucket, and the second one counts them again. *)
Lemma neighbours_sorted a : 0 <= a < 2 ^ 61 ->
  setStateLimits 2 2 (mkBuckets [(a + 1, -1); (a, -1)] [0; 0]) = Ok (mkBuckets [(a + 1, 0); (a + 2, 1)] [3; 1]).
Proof.
  intros Ha.
  assert (distributeAllInBucket (-1) 2 0 (mkBuckets [(a + 1, -1); (a, -1)] [0; 0]) = Ok (mkBuckets [(a + 1, 1); (a + 1, 1)] [0; 2])) as H1.
  { unfold distributeAllInBucket. replace (range_of _ _) with (a, a + 1) by (unfold range_of; cbn [elements foldl]; rewrite !Z.eqb_refl; unfold LLONG_MAX; by decide_tests).
    cbn [Z.eqb elements spread Pos.eqb]. replace (ll_div ((a + 1) -ll a) 2) with 0 by (unfold ll_sub; replace (a + 1 - a) with 1 by lia; done).
    cbn [Z.eqb]. change (int_add (int_add 0 1) 1) with 2. change (int_add 0 1) with 1.
    replace (ll_div ((a +ll 2) -ll a) 2) with 1 by (unfold ll_add; rewrite (ll_id (a + 2)) by ll_range; unfold ll_sub; replace (a + 2 - a) with 2 by lia; done).
    unfold ll_add. rewrite !ll_id by ll_range. cbn [assign Z.eqb Pos.eqb]. by rewrite Z.add_0_r, (proj2 (new_bucket_next a ltac:(lia))). }
  assert (distributeAllInBucket 0 2 0 (mkBuckets [(a + 1, 0); (a + 1, 0)] [2; 0]) = Ok (mkBuckets [(a + 1, 0); (a + 2, 1)] [3; 1])) as H2.
  { unfold distributeAllInBucket. replace (range_of _ _) with (a + 1, a + 1) by (unfold range_of; cbn [elements foldl]; rewrite !Z.eqb_refl; unfold LLONG_MAX; by decide_tests).
    cbn [Z.eqb elements spread Pos.eqb]. replace (ll_div ((a + 1) -ll (a + 1)) 2) with 0 by (unfold ll_sub; by rewrite Z.sub_diag).
    cbn [Z.eqb]. change (int_add (int_add 0 1) 1) with 2. change (int_add 0 1) with 1.
    replace (ll_div (((a + 1) +ll 2) -ll (a + 1)) 2) with 1 by (unfold ll_add; rewrite (ll_id (a + 1 + 2)) by ll_range; unfold ll_sub; replace (a + 1 + 2 - (a + 1)) with 2 by lia; done).
    unfold ll_add. rewrite !ll_id by ll_range. cbn [assign Z.eqb Pos.eqb]. destruct (new_bucket_next (a + 1) ltac:(lia)) as [E0 E1].
    rewrite Z.add_0_r, E0, E1. by replace (a + 1 + 1) with (a + 2) by lia. }
  unfold setStateLimits. cbn [split_buckets]. change (Z.of_nat 2 - 1) with 1. change (uint_add 1 1) with 2. change (wrap 32 (uint_sub 1 1)) with 0.
  rewrite H1. cbn [mbind res_bind]. change (fill_gaps 2 (mkBuckets [(a + 1, 1); (a + 1, 1)] [0; 2])) with (mkBuckets [(a + 1, 0); (a + 1, 0)] [2; 0]).
  change (count_buckets 2 (sizes (mkBuckets [(a + 1, 0); (a + 1, 0)] [2; 0]))) with (1, 1, 0). cbn [Z.eqb].
  change (wrap 32 (uint_sub 1 1)) with 0. change (swap_buckets 0 0 (mkBuckets [(a + 1, 0); (a + 1, 0)] [2; 0])) with (Ok (mkBuckets [(a + 1, 0); (a + 1, 0)] [2; 0])).
  cbn [mbind res_bind]. change (uint_add 1 1) with 2. rewrite H2. done.
Qed.


(** C37. With two measurements in the buffer the predictor dies: of two
    neighbouring durations, the longer one first, the size of state 0 is
    counted twice, and two of three random numbers look for a sample that does
    not exist, up to the failing assertion. *)
Theorem neighbours_abort a t rand1 rand2 : 0 <= a < 2 ^ 61 -> rand1 `mod` 3 <> 0 ->
  run 2 [Measured t; Measured a; Measured (a + 1); Predict rand1 rand2] (new_MarkovModulatedProcess 2 2) = Err AssertFailed.
Proof.
  intros Ha Hr. cbn [run]. set (m := mkMarkov (mkCyclicBufferBased [a + 1; a] 3 0 2) 2 (-1) (zeros 2) [-1; -1] [0; 0]).
  assert ((m ← addPredictionInfo t (new_MarkovModulatedProcess 2 2); m ← addPredictionInfo a m; addPredictionInfo (a + 1) m) = Ok m) as Hm by done.
  destruct (addPredictionInfo t _) as [m1|]; [|done]. cbn [mbind res_bind] in *. destruct (addPredictionInfo a m1) as [m2|]; [|done].
  cbn [mbind res_bind] in *. rewrite Hm. cbn [mbind res_bind].
  destruct (populate_ok 2 [0; 1] (zeros 2) (zeros_square 2)) as (P & HP & _); [set_unfold; intros b Hb; destruct_or?; subst; try done; lia|].
  assert (train 2 m = Ok (mkMarkov (mkCyclicBufferBased [a + 1; a + 2] 3 0 2) 2 0 P [0; 1] [3; 1])) as Ht.
  { unfold train, m. cbn [cyclic states circular_buffersize buffer]. change (Z.to_nat 2) with 2%nat. cbn [length Nat.ltb Nat.leb replicate zip zip_with].
    rewrite neighbours_sorted by done. cbn [mbind res_bind elements map snd fst MarkovModulatedProcess.sizes]. rewrite HP. done. }
  unfold getNext, getValue. change (needs_training m) with true. rewrite Ht. cbn [mbind res_bind m cyclic circular_buffersize size Z.ltb].
  unfold sampleMeasurementOfState. change (at_index _ _) with (Ok 3). cbn [mbind res_bind].
  change (3 =? 0) with false. cbn iota. pose proof (Z.mod_pos_bound rand1 3 ltac:(lia)). rewrite wrap_id by lia.
  unfold elements_of. cbn [cyclic buffer bucketOfElement currentState zip zip_with sample_from Z.eqb].
  by destruct (Z.eqb_spec (rand1 `mod` 3) 0).
Qed.

Lemma neighbours_abort_witness :
  run 2 [Measured 1; Measured 5; Measured (5 + 1); Predict 1 0] (new_MarkovModulatedProcess 2 2) = Err AssertFailed.
Proof. apply (neighbours_abort 5 1 1 0); [lia|done]. Defined.

End MarkovModulatedProcess.
