(* ===== verification/LinkedList.v ===== *)
(** * The linked lists of cinqs

    src/src/cinqs/tools/List, tools/OrderedList: singly linked lists with an
    iterator, the list of waiting customers and the diary of events.  The nodes
    of a list are its store, a map from addresses; a node is allocated at an
    address that the store does not have.  Objects are the addresses of
    customers or events, which is how both are put into lists.  [List::print] is
    left out. *)
From S2P Require Import Prelude.

Abbreviation Object := nat (only parsing).

Module LinkedList.

Record ListNode := mkListNode { data : Object; next : option nat }.

Record List := mkList { store : gmap nat ListNode; firstNode : option nat; lastNode : option nat }.

Definition new_List : List := mkList ∅ None None.

Definition set_store (h : gmap nat ListNode) (l : List) : List := mkList h l.(firstNode) l.(lastNode).
Definition setFirstEqualTo (n : option nat) (l : List) : List := mkList l.(store) n l.(lastNode).
Definition setLastEqualTo (n : option nat) (l : List) : List := mkList l.(store) l.(firstNode) n.
Definition setFirstAndLastEqualTo (n : option nat) (l : List) : List := mkList l.(store) n n.

(** Following a pointer. *)
Definition deref (p : option nat) (l : List) : res ListNode :=
  match p with
  | None => Err NullDereference
  | Some a => match l.(store) !! a with Some n => Ok n | None => Err OutOfBounds end
  end.

Definition new_ListNode (o : Object) (nextNode : option nat) (l : List) : nat * List :=
  let a := fresh (dom l.(store)) in (a, set_store (<[a := mkListNode o nextNode]> l.(store)) l).

Definition set_next (p : option nat) (n : option nat) (l : List) : res List :=
  node ← deref p l;
  Ok (set_store (<[default 0%nat p := mkListNode node.(data) n]> l.(store)) l).

Definition isEmpty (l : List) : bool := bool_decide (l.(firstNode) = None).

Definition first (l : List) : res Object :=
  if isEmpty l then Err AssertFailed else node ← deref l.(firstNode) l; Ok node.(data).

Definition last (l : List) : res Object :=
  if isEmpty l then Err AssertFailed else node ← deref l.(lastNode) l; Ok node.(data).

Definition insertAtFront (insertItem : Object) (l : List) : List :=
  if isEmpty l then let '(n, l) := new_ListNode insertItem None l in setFirstAndLastEqualTo (Some n) l
  else let '(n, l) := new_ListNode insertItem l.(firstNode) l in setFirstEqualTo (Some n) l.

Definition insertAtBack (insertItem : Object) (l : List) : res List :=
  if isEmpty l then let '(n, l) := new_ListNode insertItem None l in Ok (setFirstAndLastEqualTo (Some n) l)
  else
    let '(n, l) := new_ListNode insertItem None l in
    l ← set_next l.(lastNode) (Some n) l;
    Ok (setLastEqualTo (Some n) l).

Definition delete_node (p : option nat) (l : List) : List :=
  match p with Some a => set_store (delete a l.(store)) l | None => l end.

Definition removeFromFront (l : List) : res (Object * List) :=
  if isEmpty l then Err AssertFailed
  else
    removeItem ← deref l.(firstNode) l;
    if bool_decide (l.(firstNode) = l.(lastNode)) then
      Ok (removeItem.(data), setFirstAndLastEqualTo None (delete_node l.(firstNode) l))
    else
      let temp := l.(firstNode) in
      Ok (removeItem.(data), delete_node temp (setFirstEqualTo removeItem.(next) l)).

(** [while ( current->next != lastNode ) current = current->next]. *)
Fixpoint beforeLast (fuel : nat) (current : option nat) (l : List) : res (option nat) :=
  match fuel with
  | O => Err OutOfFuel
  | S fuel =>
    n ← deref current l;
    if bool_decide (n.(next) = l.(lastNode)) then Ok current else beforeLast fuel n.(next) l
  end.

Definition removeFromBack (l : List) : res (Object * List) :=
  if isEmpty l then Err AssertFailed
  else
    removeItem ← deref l.(lastNode) l;
    if bool_decide (l.(firstNode) = l.(lastNode)) then
      Ok (removeItem.(data), setFirstAndLastEqualTo None (delete_node l.(lastNode) l))
    else
      current ← beforeLast (size l.(store)) l.(firstNode) l;
      l ← set_next current None (setLastEqualTo current (delete_node l.(lastNode) l));
      Ok (removeItem.(data), l).

(** ** ListIterator *)
Record ListIterator := mkListIterator { p : option nat; q : option nat }.

Definition getIterator (l : List) : ListIterator := mkListIterator None l.(firstNode).

Definition canAdvance (it : ListIterator) : bool := negb (bool_decide (it.(q) = None)).

Definition advance (l : List) (it : ListIterator) : res ListIterator :=
  n ← deref it.(q) l; Ok (mkListIterator it.(q) n.(next)).

Definition getValue (l : List) (it : ListIterator) : res Object :=
  n ← deref it.(q) l; Ok n.(data).

Definition add (o : Object) (it : ListIterator) (l : List) : res (ListIterator * List) :=
  let '(newNode, l) := new_ListNode o it.(q) l in
  let newNode := Some newNode in
  match it.(p), it.(q) with
  | None, None => Ok (mkListIterator it.(p) newNode, setFirstAndLastEqualTo newNode l)
  | None, _ => Ok (mkListIterator newNode it.(q), setFirstEqualTo newNode l)
  | Some _, q =>
    l ← set_next it.(p) newNode l;
    Ok (mkListIterator newNode q, if bool_decide (q = None) then setLastEqualTo newNode l else l)
  end.

(** The node is unlinked, but not deleted. *)
Definition remove_at (it : ListIterator) (l : List) : res (ListIterator * List) :=
  n ← deref it.(q) l;
  l ← match it.(p) with
      | None => Ok (setFirstEqualTo n.(next) l)
      | p => set_next p n.(next) l
      end;
  n ← deref it.(q) l;
  Ok (mkListIterator it.(p) n.(next), if bool_decide (n.(next) = None) then setLastEqualTo it.(p) l else l).

(** [while ( it->canAdvance() && test( it->getValue() ) ) it->advance()]. *)
Fixpoint advance_while (fuel : nat) (test : Object -> res bool) (l : List) (it : ListIterator) : res ListIterator :=
  match fuel with
  | O => Err OutOfFuel
  | S fuel =>
    if canAdvance it then
      x ← getValue l it;
      b ← test x;
      if (b : bool) then it ← advance l it; advance_while fuel test l it else Ok it
    else Ok it
  end.

(** The end of the list is followed when the object is not in it. *)
Definition remove (o : Object) (l : List) : res List :=
  it ← advance_while (S (size l.(store))) (fun x => Ok (negb (x =? o)%nat)) l (getIterator l);
  x ← getValue l it;
  if (x =? o)%nat then '(_, l) ← remove_at it l; Ok l else Ok l.

(** ** OrderedList *)
Definition insertInOrder (before : Object -> Object -> res bool) (o : Object) (l : List) : res List :=
  it ← advance_while (S (size l.(store))) (fun x => before x o) l (getIterator l);
  '(_, l) ← add o it l;
  Ok l.

(** The position at which RandomQueue inserts. *)
Fixpoint advance_times (n : nat) (l : List) (it : ListIterator) : res ListIterator :=
  match n with
  | O => Ok it
  | S n => it ← advance l it; advance_times n l it
  end.

Definition insertAfter (index : nat) (o : Object) (l : List) : res List :=
  it ← advance_times index l (getIterator l);
  '(_, l) ← add o it l;
  Ok l.

End LinkedList.

(** ** What a list holds

    The chain of nodes from a pointer to another, each with its address. *)
Section repr.
Import LinkedList.

Fixpoint chain (h : gmap nat ListNode) (p : option nat) (ns : list (nat * Object)) (q : option nat) : Prop :=
  match ns with
  | [] => p = q
  | (a, x) :: ns => p = Some a /\ exists n, h !! a = Some (mkListNode x n) /\ chain h n ns q
  end.

(** The list [l] holds the objects [xs], in the order of its nodes. *)
Definition linked (l : List) (ns : list (nat * Object)) : Prop :=
  chain l.(store) l.(firstNode) ns None /\ l.(lastNode) = list.last ns.*1 /\ NoDup ns.*1.

Definition holds (l : List) (xs : list Object) : Prop := exists ns, linked l ns /\ ns.*2 = xs.

Lemma chain_app h p ns1 ns2 q : chain h p (ns1 ++ ns2) q <-> exists m, chain h p ns1 m /\ chain h m ns2 q.
Proof.
  revert p. induction ns1 as [|[a x] ns1 IH]; intros p; cbn.
  - split; [by exists p | intros (m & -> & H); done].
  - setoid_rewrite IH. naive_solver.
Qed.

Lemma chain_other h p ns q a n : a ∉ ns.*1 -> chain h p ns q -> chain (<[a := n]> h) p ns q.
Proof.
  revert p. induction ns as [|[b x] ns IH]; intros p; cbn; [done|].
  intros [Hne Hni]%not_elem_of_cons (-> & m & Hb & Hc). split; [done|]. exists m.
  rewrite lookup_insert_ne by done. auto.
Qed.

Lemma chain_delete h p ns q a : a ∉ ns.*1 -> chain h p ns q -> chain (delete a h) p ns q.
Proof.
  revert p. induction ns as [|[b x] ns IH]; intros p; cbn; [done|].
  intros [Hne Hni]%not_elem_of_cons (-> & m & Hb & Hc). split; [done|]. exists m.
  rewrite lookup_delete_ne by done. auto.
Qed.

Lemma chain_in h p ns q a : chain h p ns q -> a ∈ ns.*1 -> a ∈ dom h.
Proof.
  revert p. induction ns as [|[b x] ns IH]; intros p; cbn; [by intros _ ?%not_elem_of_nil|].
  intros (-> & m & Hb & Hc) [->|Ha]%elem_of_cons; [|eauto]. by apply elem_of_dom_2 in Hb.
Qed.

(** A new node is none of the nodes of the list. *)
Lemma chain_fresh h p ns q : chain h p ns q -> fresh (dom h) ∉ ns.*1.
Proof. intros Hc Hin. by apply (is_fresh (dom h)), (chain_in _ _ _ _ _ Hc). Qed.

Lemma chain_length h p ns q : chain h p ns q -> NoDup ns.*1 -> (length ns <= size h)%nat.
Proof.
  intros Hc Hd. rewrite <- size_dom, <- (length_fmap fst), <- (size_list_to_set (C:=gset nat)) by done.
  apply subseteq_size. intros a Ha. apply elem_of_list_to_set in Ha. by eapply chain_in.
Qed.

Lemma fst_snoc (ns : list (nat * Object)) a x : (ns ++ [(a, x)]).*1 = ns.*1 ++ [a].
Proof. by rewrite fmap_app. Qed.

Lemma snd_snoc (ns : list (nat * Object)) a x : (ns ++ [(a, x)]).*2 = ns.*2 ++ [x].
Proof. by rewrite fmap_app. Qed.

(** Where a chain ends: the pointer to redirect. *)
Lemma chain_redirect h p ns a x q q' : chain h p (ns ++ [(a, x)]) q -> NoDup (ns.*1 ++ [a]) ->
  h !! a = Some (mkListNode x q) /\ chain (<[a := mkListNode x q']> h) p (ns ++ [(a, x)]) q'.
Proof.
  intros (m & H1 & H2)%chain_app (Hd & Ha & _)%NoDup_app. cbn in H2. destruct H2 as (-> & n & Hn & ->).
  split; [done|]. apply chain_app. exists (Some a). split.
  - apply chain_other; [|done]. intros Hin. apply (Ha a); [done | by apply list_elem_of_singleton].
  - cbn. split; [done|]. exists q'. by rewrite lookup_insert_eq.
Qed.

Lemma isEmpty_linked l ns : linked l ns -> isEmpty l = bool_decide (ns = []).
Proof.
  intros (Hc & _ & _). unfold isEmpty. destruct ns as [|[a x] ns]; cbn in Hc.
  - by rewrite Hc.
  - destruct Hc as [-> _]. done.
Qed.

Lemma isEmpty_holds l xs : holds l xs -> isEmpty l = bool_decide (xs = []).
Proof.
  intros (ns & Hl & <-). rewrite (isEmpty_linked _ _ Hl). apply bool_decide_ext. by destruct ns.
Qed.

Lemma new_holds : holds new_List [].
Proof. exists []. split; [|done]. repeat split. by apply NoDup_nil_2. Qed.

Lemma last_snoc_inv {A} (l : list A) x : list.last l = Some x -> exists l', l = l' ++ [x].
Proof. intros H. by apply last_Some. Qed.

Lemma first_holds l x xs : holds l (x :: xs) -> first l = Ok x.
Proof.
  intros (ns & Hl & Hx). unfold first. rewrite (isEmpty_linked _ _ Hl). destruct ns as [|[a y] ns]; [done|].
  injection Hx as -> <-. destruct Hl as ((-> & n & Hn & _) & _). rewrite bool_decide_false by done. cbn. by rewrite Hn.
Qed.

(** The last node of a list that has one. *)
Lemma linked_snoc l xs x : holds l (xs ++ [x]) -> exists ns a, linked l (ns ++ [(a, x)]) /\ ns.*2 = xs.
Proof.
  intros (ns & Hl & Hx). destruct ns as [|[a y] ns _] using rev_ind; [by destruct xs|].
  rewrite snd_snoc in Hx. apply app_inj_tail in Hx as [<- Hy]. subst. by exists ns, a.
Qed.

Lemma last_holds l xs x : holds l (xs ++ [x]) -> last l = Ok x.
Proof.
  intros (ns & a & Hl & _)%linked_snoc. unfold last. rewrite (isEmpty_linked _ _ Hl).
  rewrite bool_decide_false by (by destruct ns). destruct Hl as (Hc & Hla & Hd).
  rewrite fst_snoc, last_snoc in Hla. rewrite Hla. rewrite fst_snoc in Hd.
  destruct (chain_redirect _ _ _ _ _ _ None Hc Hd) as [Ha _]. cbn. by rewrite Ha.
Qed.

(** ** Insertion at the ends *)

Lemma insertAtFront_holds o l xs : holds l xs -> holds (insertAtFront o l) (o :: xs).
Proof.
  intros (ns & Hl & <-). unfold insertAtFront. rewrite (isEmpty_linked _ _ Hl). destruct Hl as (Hc & Hla & Hd).
  pose proof (chain_fresh _ _ _ _ Hc) as Hf. cbn -[fresh]. set (a := fresh (dom (store l))) in *.
  exists ((a, o) :: ns). split; [|done]. case_bool_decide as He.
  - subst ns. repeat split; cbn; [|by repeat constructor; set_solver].
    exists None. by rewrite lookup_insert_eq.
  - repeat split; cbn.
    + exists (firstNode l). rewrite lookup_insert_eq. split; [done | by apply chain_other].
    + rewrite Hla. destruct ns as [|[b y] ns]; [done|]. cbn. by destruct (list.last (b :: ns.*1)).
    + by constructor.
Qed.

Lemma insertAtBack_holds o l xs : holds l xs -> exists l', insertAtBack o l = Ok l' /\ holds l' (xs ++ [o]).
Proof.
  intros (ns & Hl & <-). unfold insertAtBack. rewrite (isEmpty_linked _ _ Hl). destruct Hl as (Hc & Hla & Hd).
  pose proof (chain_fresh _ _ _ _ Hc) as Hf. cbn -[fresh]. set (a := fresh (dom (store l))) in *.
  case_bool_decide as He.
  - subst ns. eexists. split; [done|]. exists [(a, o)]. split; [|done]. repeat split; cbn; [|by repeat constructor; set_solver].
    exists None. by rewrite lookup_insert_eq.
  - destruct ns as [|[b y] ns _] using rev_ind; [done|]. rewrite fst_snoc, last_snoc in Hla.
    rewrite fst_snoc in Hd, Hf. destruct (chain_redirect _ _ _ _ _ _ (Some a) Hc Hd) as [Hb Hc'].
    assert (a <> b) as Hne by (intros ->; set_solver). rewrite Hla. unfold set_next. cbn -[fresh].
    rewrite lookup_insert_ne by done. rewrite Hb. cbn. eexists. split; [done|].
    exists ((ns ++ [(b, y)]) ++ [(a, o)]). split; [|by rewrite !snd_snoc]. repeat split; cbn.
    + apply chain_app. exists (Some a). split.
      * rewrite insert_insert_ne by done. apply chain_other; [by rewrite fst_snoc | done].
      * cbn. split; [done|]. exists None. rewrite lookup_insert_ne, lookup_insert_eq by done. done.
    + by rewrite fst_snoc, last_snoc.
    + rewrite !fst_snoc. apply NoDup_app. split_and!; [done | | apply NoDup_singleton].
      by intros c Hc1 ->%list_elem_of_singleton.
Qed.

(** ** Removal at the ends *)

Lemma removeFromFront_holds l x xs : holds l (x :: xs) ->
  exists l', removeFromFront l = Ok (x, l') /\ holds l' xs.
Proof.
  intros (ns & Hl & Hx). unfold removeFromFront. rewrite (isEmpty_linked _ _ Hl).
  destruct ns as [|[a y] ns]; [done|]. injection Hx as -> <-. destruct Hl as ((Hf & n & Hn & Hc) & Hla & Hd).
  rewrite bool_decide_false by done. rewrite Hf. cbn [deref]. rewrite Hn. cbn [mbind res_bind].
  apply NoDup_cons in Hd as [Ha Hd]. case_bool_decide as He; (eexists; split; [done|]); exists ns; (split; [|done]).
  - destruct ns as [|[b z] ns _] using rev_ind; [by repeat split; apply NoDup_nil_2|].
    exfalso. rewrite <- He in Hla. cbn in Hla. rewrite fst_snoc in Hla. cbn in Hla.
    change (a :: ns.*1 ++ [b]) with ((a :: ns.*1) ++ [b]) in Hla. rewrite last_snoc in Hla. simplify_eq. apply Ha.
    rewrite fst_snoc. set_solver.
  - repeat split; cbn; [by apply chain_delete | | done]. rewrite Hla in *. destruct ns as [|[b z] ns]; [done|]. cbn.
    by destruct (list.last (b :: ns.*1)).
Qed.

Lemma beforeLast_at l ns1 a x b : forall fuel p, chain l.(store) p (ns1 ++ [(a, x)]) (Some b) -> l.(lastNode) = Some b ->
  b ∉ ns1.*1 ++ [a] -> (length ns1 < fuel)%nat -> beforeLast fuel p l = Ok (Some a).
Proof.
  induction ns1 as [|[c y] ns1 IH]; intros [|fuel] p Hc Hla Hb Hf; cbn in Hc, Hf; try lia; cbn [beforeLast];
    destruct Hc as (-> & n & Hn & Hc); cbn [deref]; rewrite Hn; cbn [mbind res_bind next].
  - subst n. by rewrite bool_decide_true.
  - rewrite bool_decide_false; [apply IH; [done..| set_solver | lia]|].
    intros ->. rewrite Hla in Hc. destruct ns1 as [|[d z] ns1]; destruct Hc as ([= ->] & _); set_solver.
Qed.

Lemma removeFromBack_holds l x xs : holds l (xs ++ [x]) ->
  exists l', removeFromBack l = Ok (x, l') /\ holds l' xs.
Proof.
  intros (ns & b & Hl & <-)%linked_snoc. unfold removeFromBack. rewrite (isEmpty_linked _ _ Hl).
  rewrite bool_decide_false by (by destruct ns). pose proof Hl as (Hc & Hla & Hd).
  pose proof (chain_length _ _ _ _ Hc Hd) as Hlen. rewrite fst_snoc in Hla, Hd. rewrite last_snoc in Hla.
  destruct (chain_redirect _ _ _ _ _ _ None Hc Hd) as [Hb _]. rewrite Hla. cbn [deref]. rewrite Hb. cbn [mbind res_bind].
  apply chain_app in Hc as (m & Hc & (-> & _)).
  apply NoDup_app in Hd as (Hd & Hni & _). assert (b ∉ ns.*1) as Hb' by (intros Hin; apply (Hni b); [done | set_solver]).
  destruct ns as [|[a y] ns _] using rev_ind.
  - cbn in Hc. rewrite Hc. rewrite bool_decide_true by done. eexists. split; [done|]. exists []. split; [|done].
    repeat split; first [apply NoDup_nil_2 | done].
  - rewrite fst_snoc in Hd, Hb'. destruct (chain_redirect _ _ _ _ _ _ None (chain_delete _ _ _ _ b ltac:(by rewrite fst_snoc) Hc) Hd) as [Ha Hc'].
    rewrite bool_decide_false.
    2: { intros Hf. rewrite Hf in Hc. destruct ns as [|[c z] ns]; destruct Hc as ([= ->] & _); set_solver. }
    rewrite (beforeLast_at l ns a y b) by (first [done | rewrite !length_app in Hlen; cbn in Hlen; lia]).
    cbn [mbind res_bind]. unfold set_next. cbn. cbn in Ha. rewrite Ha. eexists. split; [done|].
    exists (ns ++ [(a, y)]). split; [|done]. repeat split; cbn; [done | by rewrite fst_snoc, last_snoc | by rewrite fst_snoc].
Qed.

(** ** The iterator

    Between the nodes [ns1] that it has passed and the nodes [ns2] to come. *)
Definition at_node (l : List) (ns1 ns2 : list (nat * Object)) (it : ListIterator) : Prop :=
  it.(p) = list.last ns1.*1 /\ chain l.(store) l.(firstNode) ns1 it.(q) /\ chain l.(store) it.(q) ns2 None.

Lemma getIterator_at l ns : linked l ns -> at_node l [] ns (getIterator l).
Proof. intros (Hc & _ & _). by repeat split. Qed.

Lemma canAdvance_at l ns1 ns2 it : at_node l ns1 ns2 it -> canAdvance it = negb (bool_decide (ns2 = [])).
Proof.
  intros (_ & _ & Hc). unfold canAdvance. f_equal. apply bool_decide_ext. destruct ns2 as [|[a x] ns2]; cbn in Hc.
  - by rewrite Hc.
  - destruct Hc as [-> _]. done.
Qed.

Lemma getValue_at l ns1 a x ns2 it : at_node l ns1 ((a, x) :: ns2) it -> getValue l it = Ok x.
Proof. intros (_ & _ & Hq & n & Hn & _). unfold getValue. rewrite Hq. cbn. by rewrite Hn. Qed.

Lemma advance_at l ns1 a x ns2 it : at_node l ns1 ((a, x) :: ns2) it ->
  exists it', advance l it = Ok it' /\ at_node l (ns1 ++ [(a, x)]) ns2 it'.
Proof.
  destruct it as [p0 q0]. intros (_ & Hc & Hq & n & Hn & Hc2). cbn in *. subst q0. unfold advance. cbn. rewrite Hn. cbn.
  eexists. split; [done|]. split_and!; cbn; [by rewrite fst_snoc, last_snoc | | done]. apply chain_app.
  exists (Some a). split; [done|]. cbn. split; [done|]. by exists n.
Qed.

Lemma advance_while_at (b : Object -> bool) test l ns2 : forall ns1 it fuel,
  at_node l ns1 ns2 it -> (length ns2 < fuel)%nat -> (forall x, x ∈ ns2.*2 -> test x = Ok (b x)) ->
  exists it' ns3 ns4, advance_while fuel test l it = Ok it' /\ ns2 = ns3 ++ ns4 /\ at_node l (ns1 ++ ns3) ns4 it' /\
    Forall (fun x => b x = true) ns3.*2 /\ (forall x, head ns4.*2 = Some x -> b x = false).
Proof.
  induction ns2 as [|[a x] ns2 IH]; intros ns1 it [|fuel] Hat Hf Hb; cbn in Hf; try lia; cbn [advance_while];
    rewrite (canAdvance_at _ _ _ _ Hat).
  - rewrite bool_decide_true by done. exists it, [], []. rewrite (app_nil_r ns1). do 2 (split; [done|]). split; [done|]. split; [by apply Forall_nil | done].
  - rewrite bool_decide_false by done. cbn [negb]. rewrite (getValue_at _ _ _ _ _ _ Hat). cbn [mbind res_bind].
    rewrite Hb by set_solver. cbn [mbind res_bind]. destruct (b x) eqn:Ex.
    + destruct (advance_at _ _ _ _ _ _ Hat) as (it' & -> & Hat'). cbn [mbind res_bind].
      destruct (IH _ _ fuel Hat' ltac:(lia) ltac:(set_solver)) as (it2 & ns3 & ns4 & -> & -> & H3 & H4 & H5).
      exists it2, ((a, x) :: ns3), ns4. do 2 (split; [done|]). split; [by rewrite <- app_assoc in H3|]. split; [by constructor | done].
    + exists it, [], ((a, x) :: ns2). rewrite (app_nil_r ns1). do 3 (split; [done|]). split; [by apply Forall_nil | by intros y [= <-]].
Qed.

Lemma add_at o l ns1 ns2 it : linked l (ns1 ++ ns2) -> at_node l ns1 ns2 it ->
  exists it' l', add o it l = Ok (it', l') /\ holds l' (ns1.*2 ++ o :: ns2.*2).
Proof.
  intros (Hc & Hla & Hd) (Hp & Hc1 & Hc2). pose proof (chain_fresh _ _ _ _ Hc) as Hf. rewrite fmap_app in Hla, Hd, Hf.
  unfold add. cbn -[fresh]. set (a := fresh (dom (store l))) in *. rewrite Hp.
  assert (NoDup ((ns1 ++ (a, o) :: ns2).*1)) as Hd'.
  { rewrite fmap_app. cbn. apply NoDup_app in Hd as (Hd1 & Hd2 & Hd3). apply NoDup_app. split_and!; [done | | constructor; set_solver].
    intros b Hb [->|Hb2]%elem_of_cons; [set_solver | by apply (Hd2 b)]. }
  assert (list.last ((ns1 ++ (a, o) :: ns2).*1) = match ns2 with [] => Some a | _ => list.last (ns1.*1 ++ ns2.*1) end) as Hlast.
  { rewrite fmap_app, !last_app. destruct ns2 as [|[b y] ns2]; [done|]. cbn. by destruct (list.last (b :: ns2.*1)). }
  replace (ns1.*2 ++ o :: ns2.*2) with ((ns1 ++ (a, o) :: ns2).*2) by by rewrite fmap_app.
  destruct ns1 as [|[b y] ns1 _] using rev_ind; cbn [list.last fmap list_fmap].
  - cbn in Hc1. subst. assert (chain (<[a := mkListNode o (q it)]> (store l)) (Some a) ((a, o) :: ns2) None) as Hnew.
    { split; [done|]. exists (q it). rewrite lookup_insert_eq. split; [done | apply chain_other; [set_solver | done]]. }
    destruct (q it) as [c|] eqn:Eq; do 2 eexists; (split; [done|]); exists ((a, o) :: ns2); (split; [|done]);
      (split; [exact Hnew|]); (split; [|exact Hd']); cbn [app] in Hlast; rewrite Hlast; cbn.
    + destruct ns2; [by cbn in Hc2 | done].
    + destruct ns2 as [|[c y] ns2]; [done|]. by destruct Hc2.
  - rewrite fst_snoc, last_snoc in *. rewrite <- Hp.
    assert (NoDup (ns1.*1 ++ [b])) as Hd1 by by apply NoDup_app in Hd as (? & _).
    destruct (chain_redirect _ _ _ _ _ _ (Some a) Hc1 Hd1) as [Hb Hc1']. assert (a <> b) as Hab by (intros ->; set_solver).
    unfold set_next. rewrite Hp. cbn -[fresh]. rewrite lookup_insert_ne by done. rewrite Hb. cbn.
    do 2 eexists. split; [done|]. exists ((ns1 ++ [(b, y)]) ++ (a, o) :: ns2). split; [|done].
    assert (chain (<[b := mkListNode y (Some a)]> (<[a := mkListNode o (q it)]> (store l))) (firstNode l)
      ((ns1 ++ [(b, y)]) ++ (a, o) :: ns2) None) as Hnew.
    { apply chain_app. exists (Some a). split.
      - rewrite insert_insert_ne by done. apply chain_other; [rewrite fst_snoc; set_solver | done].
      - split; [done|]. exists (q it). rewrite lookup_insert_ne, lookup_insert_eq by done. split; [done|].
        apply NoDup_app in Hd as (_ & Hd2 & _). apply chain_other; [intros Hin; apply (Hd2 b); set_solver|].
        apply chain_other; [set_solver | done]. }
    split_and!; [case_bool_decide; exact Hnew | | exact Hd']. rewrite Hlast. case_bool_decide as Eq; cbn.
    + rewrite Eq in Hc2. destruct ns2 as [|[c z] ns2]; [done|]. by destruct Hc2.
    + rewrite Hla. by destruct ns2 as [|[c z] ns2]; [cbn in Hc2|].
Qed.

Lemma remove_at_holds l ns1 a x ns2 it : linked l (ns1 ++ (a, x) :: ns2) -> at_node l ns1 ((a, x) :: ns2) it ->
  exists it' l', remove_at it l = Ok (it', l') /\ holds l' (ns1 ++ ns2).*2.
Proof.
  intros (Hc & Hla & Hd) (Hp & Hc1 & Hq & n & Hn & Hc2). rewrite fmap_app in Hla, Hd. cbn in Hla, Hd.
  assert (NoDup (ns1 ++ ns2).*1) as Hd'.
  { rewrite fmap_app. apply NoDup_app in Hd as (Hd1 & Hd2 & [_ Hd3]%NoDup_cons). apply NoDup_app.
    split_and!; [done | | done]. intros b Hb Hb2. apply (Hd2 b); [done | by right]. }
  unfold remove_at. rewrite Hq. cbn [deref]. rewrite Hn. cbn [mbind res_bind next].
  assert (n = None -> ns2 = []) as Hend by (intros ->; destruct ns2 as [|[c z] ns2]; [done | by destruct Hc2]).
  assert (list.last (ns1.*1 ++ ns2.*1) = if bool_decide (n = None) then list.last ns1.*1 else l.(lastNode)) as Hlast.
  { rewrite Hla. change (a :: ns2.*1) with ([a] ++ ns2.*1). case_bool_decide as En; [by rewrite (Hend En), app_nil_r|].
    rewrite !last_app. destruct ns2 as [|[c z] ns2]; [by cbn in Hc2|]. cbn. rewrite !last_cons. by destruct (list.last ns2.*1). }
  destruct ns1 as [|[b y] ns1 _] using rev_ind.
  - rewrite Hp. cbn. rewrite Hn. cbn. do 2 eexists. split; [done|]. exists ns2. split; [|done].
    cbn in Hlast. case_bool_decide as En; repeat split; cbn; try done; rewrite Hlast; done.
  - rewrite fst_snoc, last_snoc in *. rewrite Hp. apply NoDup_app in Hd as (Hd1 & Hd2 & Hd3).
    rewrite Hq in Hc1. destruct (chain_redirect _ _ _ _ _ _ n Hc1 Hd1) as [Hb Hc1'].
    assert (a <> b) as Hab by (intros ->; apply (Hd2 b); set_solver).
    unfold set_next. cbn. rewrite Hb. cbn. rewrite lookup_insert_ne, Hn by done. cbn. do 2 eexists. split; [done|].
    exists ((ns1 ++ [(b, y)]) ++ ns2). split; [|done].
    assert (chain (<[b := mkListNode y n]> (store l)) (firstNode l) ((ns1 ++ [(b, y)]) ++ ns2) None) as Hnew.
    { apply chain_app. exists n. split; [done|]. apply chain_other; [intros Hin; apply (Hd2 b); set_solver | done]. }
    rewrite <- fst_snoc with (x := y), <- fmap_app in Hlast. split_and!; [case_bool_decide; exact Hnew | | exact Hd'].
    rewrite Hlast. case_bool_decide; done.
Qed.

(** ** The operations that search *)

Lemma split_at_first (b : Object -> bool) ys : forall zs xs1 o xs2, ys ++ zs = xs1 ++ o :: xs2 ->
  Forall (fun x => b x = true) ys -> (forall x, head zs = Some x -> b x = false) ->
  Forall (fun x => b x = true) xs1 -> b o = false -> ys = xs1 /\ zs = o :: xs2.
Proof.
  induction ys as [|y ys IH]; intros zs [|x xs1] o xs2 Heq Hy Hz Hx Ho; cbn in *; simplify_eq; try done.
  - apply Forall_cons in Hx as [Hx _]. by rewrite Hz in Hx.
  - apply Forall_cons in Hy as [Hy _]. congruence.
  - apply Forall_cons in Hy as [_ Hy], Hx as [_ Hx]. by destruct (IH _ _ _ _ H0 Hy Hz Hx Ho) as [-> ->].
Qed.

Lemma remove_holds o l xs1 xs2 : holds l (xs1 ++ o :: xs2) -> o ∉ xs1 ->
  exists l', remove o l = Ok l' /\ holds l' (xs1 ++ xs2).
Proof.
  intros (ns & Hl & Hx) Ho. unfold remove. pose proof Hl as (Hc & _ & Hd). pose proof (chain_length _ _ _ _ Hc Hd).
  destruct (advance_while_at (fun x => negb (x =? o)%nat) (fun x => Ok (negb (x =? o)%nat)) l ns [] (getIterator l)
    (S (size (store l))) (getIterator_at _ _ Hl) ltac:(lia) ltac:(done)) as (it & ns3 & ns4 & -> & -> & Hat & Hall & Hhd).
  cbn [mbind res_bind app] in *. rewrite fmap_app in Hx.
  destruct (split_at_first (fun x => negb (x =? o)%nat) _ _ _ _ _ Hx Hall Hhd) as [H3 H4].
  { apply Forall_forall. intros x Hin. destruct (Nat.eqb_spec x o) as [->|]; done. }
  { by rewrite Nat.eqb_refl. }
  destruct ns4 as [|[a y] ns4]; [done|]. assert (y = o /\ ns4.*2 = xs2) as [-> H4'] by by inversion H4.
  rewrite (getValue_at _ _ _ _ _ _ Hat). cbn [mbind res_bind].
  rewrite Nat.eqb_refl. destruct (remove_at_holds _ _ _ _ _ _ Hl Hat) as (it' & l' & -> & Hl').
  exists l'. split; [done|]. by rewrite fmap_app, H3, H4' in Hl'.
Qed.

(** An object that is not in the list: the code follows the null pointer
    behind the last node. *)
Lemma remove_absent o l xs : holds l xs -> o ∉ xs -> remove o l = Err NullDereference.
Proof.
  intros (ns & Hl & <-) Ho. unfold remove. pose proof Hl as (Hc & _ & Hd). pose proof (chain_length _ _ _ _ Hc Hd).
  destruct (advance_while_at (fun x => negb (x =? o)%nat) (fun x => Ok (negb (x =? o)%nat)) l ns [] (getIterator l)
    (S (size (store l))) (getIterator_at _ _ Hl) ltac:(lia) ltac:(done)) as (it & ns3 & ns4 & -> & -> & Hat & Hall & Hhd).
  destruct ns4 as [|[a y] ns4].
  - destruct Hat as (_ & _ & Hq). cbn in Hq. cbn. unfold getValue. by rewrite Hq.
  - specialize (Hhd y eq_refl). destruct (Nat.eqb_spec y o) as [->|]; [|done]. exfalso. apply Ho. rewrite fmap_app. set_solver.
Qed.

(** Insertion in order, as a function on lists. *)
Fixpoint insert_in_order (before : Object -> Object -> bool) (o : Object) (xs : list Object) : list Object :=
  match xs with
  | [] => [o]
  | x :: xs => if before x o then x :: insert_in_order before o xs else o :: x :: xs
  end.

Lemma insert_in_order_split before o xs1 xs2 : Forall (fun x => before x o = true) xs1 ->
  (forall x, head xs2 = Some x -> before x o = false) -> insert_in_order before o (xs1 ++ xs2) = xs1 ++ o :: xs2.
Proof.
  intros H1 H2. induction H1 as [|x xs1 Hx _ IH]; cbn.
  - destruct xs2 as [|x xs2]; [done|]. cbn. by rewrite (H2 x).
  - by rewrite Hx, IH.
Qed.

Lemma insertInOrder_holds (b : Object -> Object -> bool) before o l xs : holds l xs ->
  (forall x, x ∈ xs -> before x o = Ok (b x o)) ->
  exists l', insertInOrder before o l = Ok l' /\ holds l' (insert_in_order b o xs).
Proof.
  intros (ns & Hl & <-) Hb. unfold insertInOrder. pose proof Hl as (Hc & _ & Hd). pose proof (chain_length _ _ _ _ Hc Hd).
  destruct (advance_while_at (fun x => b x o) (fun x => before x o) l ns [] (getIterator l)
    (S (size (store l))) (getIterator_at _ _ Hl) ltac:(lia) Hb) as (it & ns3 & ns4 & -> & -> & Hat & Hall & Hhd).
  cbn [mbind res_bind app] in *. destruct (add_at o _ _ _ _ Hl Hat) as (it' & l' & -> & Hl'). exists l'. split; [done|].
  rewrite fmap_app. by rewrite insert_in_order_split.
Qed.

Lemma advance_times_at l ns2 : forall n ns1 it, at_node l ns1 ns2 it ->
  if (n <=? length ns2)%nat then exists it', advance_times n l it = Ok it' /\ at_node l (ns1 ++ take n ns2) (drop n ns2) it'
  else advance_times n l it = Err NullDereference.
Proof.
  induction ns2 as [|[a x] ns2 IH]; intros [|n] ns1 it Hat; cbn [advance_times length Nat.leb].
  - exists it. split; [done|]. by rewrite take_0, drop_0, (app_nil_r ns1).
  - destruct Hat as (_ & _ & Hq). cbn in Hq. unfold advance. by rewrite Hq.
  - exists it. split; [done|]. by rewrite take_0, drop_0, (app_nil_r ns1).
  - destruct (advance_at _ _ _ _ _ _ Hat) as (it' & -> & Hat'). cbn [mbind res_bind]. specialize (IH n _ _ Hat').
    destruct (n <=? length ns2)%nat; [|done]. destruct IH as (it2 & H1 & H2). exists it2. split; [done|].
    by rewrite <- app_assoc in H2.
Qed.

Lemma insertAfter_holds index o l xs : holds l xs ->
  if (index <=? length xs)%nat then exists l', insertAfter index o l = Ok l' /\ holds l' (take index xs ++ o :: drop index xs)
  else insertAfter index o l = Err NullDereference.
Proof.
  intros (ns & Hl & <-). unfold insertAfter. rewrite length_fmap.
  pose proof (advance_times_at l ns index [] (getIterator l) (getIterator_at _ _ Hl)) as Hadv.
  destruct (index <=? length ns)%nat; [|by rewrite Hadv]. destruct Hadv as (it & -> & Hat). cbn [mbind res_bind].
  rewrite <- (take_drop index ns) in Hl. destruct (add_at o _ _ _ _ Hl Hat) as (it' & l' & -> & Hl').
  exists l'. split; [done|]. by rewrite fmap_take, fmap_drop in Hl'.
Qed.

(** ** The list as its clients see it *)
Fixpoint remove_first (o : Object) (xs : list Object) : list Object :=
  match xs with
  | [] => []
  | x :: xs => if decide (x = o) then xs else x :: remove_first o xs
  end.

Lemma remove_first_split o xs : o ∈ xs -> exists xs1 xs2, xs = xs1 ++ o :: xs2 /\ (o ∉ xs1) /\ remove_first o xs = xs1 ++ xs2.
Proof.
  induction xs as [|x xs IH]; [by intros ?%not_elem_of_nil|]. intros Hin. cbn. destruct (decide (x = o)) as [->|Hne].
  - exists [], xs. split_and!; [done | apply not_elem_of_nil | done].
  - destruct IH as (xs1 & xs2 & -> & Hni & ->); [set_solver|]. exists (x :: xs1), xs2. split_and!; [done | set_solver | done].
Qed.

Context (before : Object -> Object -> bool).

Inductive op :=
  | InsertAtFront (o : Object) | InsertAtBack (o : Object) | InsertInOrder (o : Object) | InsertAfter (index : nat) (o : Object)
  | First | Last | RemoveFromFront | RemoveFromBack | Remove (o : Object).

Definition run_op (c : op) (l : List) : res (option Object * List) :=
  match c with
  | InsertAtFront o => Ok (None, insertAtFront o l)
  | InsertAtBack o => l ← insertAtBack o l; Ok (None, l)
  | InsertInOrder o => l ← insertInOrder (fun x y => Ok (before x y)) o l; Ok (None, l)
  | InsertAfter i o => l ← insertAfter i o l; Ok (None, l)
  | First => x ← first l; Ok (Some x, l)
  | Last => x ← last l; Ok (Some x, l)
  | RemoveFromFront => '(x, l) ← removeFromFront l; Ok (Some x, l)
  | RemoveFromBack => '(x, l) ← removeFromBack l; Ok (Some x, l)
  | Remove o => l ← remove o l; Ok (None, l)
  end.

(** What each operation is on sequences. *)
Definition spec_op (c : op) (xs : list Object) : res (option Object * list Object) :=
  match c with
  | InsertAtFront o => Ok (None, o :: xs)
  | InsertAtBack o => Ok (None, xs ++ [o])
  | InsertInOrder o => Ok (None, insert_in_order before o xs)
  | InsertAfter i o => if (i <=? length xs)%nat then Ok (None, take i xs ++ o :: drop i xs) else Err NullDereference
  | First => match head xs with Some x => Ok (Some x, xs) | None => Err AssertFailed end
  | Last => match list.last xs with Some x => Ok (Some x, xs) | None => Err AssertFailed end
  | RemoveFromFront => match xs with x :: xs => Ok (Some x, xs) | [] => Err AssertFailed end
  | RemoveFromBack => match list.last xs with Some x => Ok (Some x, removelast xs) | None => Err AssertFailed end
  | Remove o => if decide (o ∈ xs) then Ok (None, remove_first o xs) else Err NullDereference
  end.

Lemma op_refines c l xs : holds l xs ->
  match spec_op c xs with
  | Ok (x, xs') => exists l', run_op c l = Ok (x, l') /\ holds l' xs'
  | Err e => run_op c l = Err e
  end.
Proof.
  intros Hl. pose proof (isEmpty_holds _ _ Hl) as He.
  assert (xs = [] \/ exists xs' x, xs = xs' ++ [x]) as Hsnoc by (destruct xs as [|x xs' _] using rev_ind; eauto).
  destruct c; cbn [run_op spec_op].
  - eexists. split; [done | by apply insertAtFront_holds].
  - destruct (insertAtBack_holds o l xs Hl) as (l' & -> & Hl'). by exists l'.
  - destruct (insertInOrder_holds before (fun x y => Ok (before x y)) o l xs Hl ltac:(done)) as (l' & -> & Hl'). by exists l'.
  - pose proof (insertAfter_holds index o l xs Hl) as H. cbn in H. destruct (index <=? length xs)%nat; [|by rewrite H].
    destruct H as (l' & -> & Hl'). by exists l'.
  - destruct xs as [|x xs]; cbn; [unfold first; by rewrite He|]. exists l. by rewrite (first_holds _ _ _ Hl).
  - destruct Hsnoc as [->|(xs' & x & ->)]; [cbn; unfold last; by rewrite He|]. rewrite last_snoc.
    exists l. by rewrite (last_holds _ _ _ Hl).
  - destruct xs as [|x xs]; [unfold removeFromFront; by rewrite He|].
    destruct (removeFromFront_holds _ _ _ Hl) as (l' & -> & Hl'). by exists l'.
  - destruct Hsnoc as [->|(xs' & x & ->)]; [cbn; unfold removeFromBack; by rewrite He|]. rewrite last_snoc, removelast_last.
    destruct (removeFromBack_holds _ _ _ Hl) as (l' & -> & Hl'). by exists l'.
  - destruct (decide (o ∈ xs)) as [Hin|Hni]; [|by rewrite (remove_absent _ _ _ Hl Hni)].
    destruct (remove_first_split _ _ Hin) as (xs1 & xs2 & -> & Hni & ->).
    destruct (remove_holds _ _ _ _ Hl Hni) as (l' & -> & Hl'). by exists l'.
Qed.

(** One operation after the other, and all that they return. *)
Fixpoint run_ops {T} (step : op -> T -> res (option Object * T)) (cs : list op) (s : T) : res (list (option Object) * T) :=
  match cs with
  | [] => Ok ([], s)
  | c :: cs => '(x, s) ← step c s; '(xs, s) ← run_ops step cs s; Ok (x :: xs, s)
  end.

(** C33. A list of nodes behaves as the sequence that it stands for: whatever
    operations are applied to an empty list, they return what the operations on
    sequences return, the list then holds that sequence, and they fail exactly
    where these do, with the same fault. *)
Theorem linked_list_refines cs :
  match run_ops spec_op cs [] with
  | Ok (outs, xs) => exists l, run_ops run_op cs new_List = Ok (outs, l) /\ holds l xs
  | Err e => run_ops run_op cs new_List = Err e
  end.
Proof.
  enough (forall xs l, holds l xs -> match run_ops spec_op cs xs with
    | Ok (outs, xs) => exists l', run_ops run_op cs l = Ok (outs, l') /\ holds l' xs
    | Err e => run_ops run_op cs l = Err e
    end) as H by apply H, new_holds.
  induction cs as [|c cs IH]; intros xs l Hl; cbn [run_ops].
  - by exists l.
  - pose proof (op_refines c l xs Hl) as Hc. destruct (spec_op c xs) as [[x xs']|e]; [|by rewrite Hc].
    destruct Hc as (l' & -> & Hl'). cbn [mbind res_bind]. specialize (IH xs' l' Hl').
    destruct (run_ops spec_op cs xs') as [[outs xs2]|e]; cbn [mbind res_bind]; [|by rewrite IH].
    destruct IH as (l2 & -> & Hl2). by exists l2.
Qed.

End repr.

(** Removing what is not in the list ends the program. *)
Example remove_absent_fails : run_ops (run_op Nat.leb) [InsertInOrder 4; InsertInOrder 2; RemoveFromFront; Remove 2]%nat LinkedList.new_List = Err NullDereference.
Proof. vm_compute. done. Qed.
