(* ===== verification/CinqsQueue.v ===== *)
(** * The queues of cinqs

    src/src/cinqs/network: Queue with the disciplines FIFOQueue, LIFOQueue,
    OrderedQueue, RandomQueue and PriorityQueue; tools: Measure, SystemMeasure,
    CustomerMeasure.  Simulated time is the class [SimTime]: the program uses
    double; results that need exact sums are stated for times with exact
    arithmetic, [ExactTime]. *)
From S2P Require Import Prelude CxxFloat LinkedList.
From Stdlib Require Import Ring.

(** ** Simulated time *)
Class SimTime (T : Type) := {
  t_zero : T;
  t_one : T;
  t_add : T -> T -> T;
  t_sub : T -> T -> T;
  t_mul : T -> T -> T;
  t_opp : T -> T;
  t_div : T -> T -> T;
  t_leb : T -> T -> bool;
  t_of_int : Z -> T;
  t_of_float : Z -> T;
}.

(** [double]; [t_of_float] goes through [float]. *)
#[export] Instance double_time : SimTime float := {|
  t_zero := ll_to_f64 0; t_one := ll_to_f64 1; t_add := f64_add; t_sub := f64_sub; t_mul := f64_mul; t_opp := f64_opp; t_div := f64_div;
  t_leb := f_leb; t_of_int := ll_to_f64; t_of_float := fun z => f32_to_f64 (ll_to_f32 z)
|}.

(** Times whose sums are exact: an ordered ring. *)
Class ExactTime (T : Type) `{SimTime T} := {
  exact_ring : ring_theory t_zero t_one t_add t_mul t_sub t_opp (@eq T);
  exact_of_int a b : t_of_int (a + b) = t_add (t_of_int a) (t_of_int b);
  exact_one : t_of_int 1 = t_one;
  exact_float z : Z.abs z <= 2 ^ 24 -> t_of_float z = t_of_int z;
  exact_total a b : t_leb a b = true \/ t_leb b a = true;
  exact_trans a b c : t_leb a b = true -> t_leb b c = true -> t_leb a c = true;
  exact_mono a b : t_leb t_zero b = true -> t_leb a (t_add a b) = true;
}.

(** Whole numbers of some unit, as long as double represents them. *)
#[export] Instance Z_time : SimTime Z := {|
  t_zero := 0; t_one := 1; t_add := Z.add; t_sub := Z.sub; t_mul := Z.mul; t_opp := Z.opp; t_div := Z.div;
  t_leb := Z.leb; t_of_int := fun z => z; t_of_float := fun z => z
|}.

#[export] Instance Z_exact : ExactTime Z.
Proof.
  split; [exact Zth|..]; cbn; intros; rewrite ?Z.leb_le in *; lia.
Qed.

(** ** Customers *)
Module Customer.
Section customer.
Context {T : Type}.

(** [smallerThan] is virtual: the order of plain customers is their class, that
    of the entries which a processor-sharing node makes is a time. *)
Inductive order := ByClass | OrderedQueueEntry (entry : Object) (time : T).

Record Customer := mkCustomer {
  type : Z;
  priority : Z;
  arrivalTime : T;
  serviceDemand : T;
  queueInsertionTime : T;
  finished : bool;
  location : option nat;
  ordering : order;
}.

Definition setQueueInsertionTime (d : T) (c : Customer) : Customer :=
  mkCustomer c.(type) c.(priority) c.(arrivalTime) c.(serviceDemand) d c.(finished) c.(location) c.(ordering).
Definition setServiceDemand (d : T) (c : Customer) : Customer :=
  mkCustomer c.(type) c.(priority) c.(arrivalTime) d c.(queueInsertionTime) c.(finished) c.(location) c.(ordering).
Definition setLocation (n : option nat) (c : Customer) : Customer :=
  mkCustomer c.(type) c.(priority) c.(arrivalTime) c.(serviceDemand) c.(queueInsertionTime) c.(finished) n c.(ordering).

End customer.
Arguments Customer : clear implicits.
Arguments order : clear implicits.

(** The customers of the program by their addresses. *)
Abbreviation Customers T := (gmap nat (Customer T)).

Definition get {T} (c : Object) (cs : Customers T) : res (Customer T) :=
  match cs !! c with Some x => Ok x | None => Err OutOfBounds end.

Definition smallerThan {T} `{SimTime T} (cs : Customers T) (x y : Object) : res bool :=
  cx ← get x cs; cy ← get y cs;
  match cx.(ordering), cy.(ordering) with
  | ByClass, _ => Ok (cx.(type) <=? cy.(type))
  | OrderedQueueEntry _ t, OrderedQueueEntry _ t' => Ok (t_leb t t')
  | OrderedQueueEntry _ _, ByClass => Err OutOfBounds
  end.

End Customer.
Import Customer.

(** ** Measures

    The moments are an array of which the first is not used; [pow( x, i )] with
    a whole [i] is the product. *)
Module Measure.
Section measure.
Context {T : Type} `{SimTime T}.

Fixpoint pow (x : T) (i : nat) : T := match i with O => t_one | S i => t_mul (pow x i) x end.

Record Measure := mkMeasure { moments : nat; n : Z; moment : nat -> T; resetTime : T }.

Definition new_Measure : Measure := mkMeasure 2 0 (fun _ => t_zero) t_zero.

Definition add_moments (f : nat -> T) (m : Measure) : Measure :=
  mkMeasure m.(moments) (int_add m.(n) 1)
    (fun i => if (1 <=? i)%nat && (i <=? m.(moments))%nat then t_add (m.(moment) i) (f i) else m.(moment) i) m.(resetTime).

Definition resetMeasures (now : T) (m : Measure) : Measure :=
  mkMeasure m.(moments) 0 (fun i => if (1 <=? i)%nat && (i <=? m.(moments))%nat then t_zero else m.(moment) i) now.

(** SystemMeasure: a value over time. *)
Record SystemMeasure := mkSystemMeasure { measure : Measure; lastChange : T; current : T }.

Definition new_SystemMeasure : SystemMeasure := mkSystemMeasure new_Measure t_zero t_zero.

Definition SystemMeasure_add (now x : T) (m : SystemMeasure) : SystemMeasure :=
  mkSystemMeasure (add_moments (fun i => t_mul (pow m.(current) i) (t_sub now m.(lastChange))) m.(measure)) now x.

Definition SystemMeasure_mean (now : T) (m : SystemMeasure) : T :=
  t_div (m.(measure).(moment) 1%nat) (t_sub now m.(measure).(resetTime)).

Definition SystemMeasure_variance (now : T) (m : SystemMeasure) : T :=
  let mean := SystemMeasure_mean now m in
  t_sub (t_div (m.(measure).(moment) 2%nat) (t_sub now m.(measure).(resetTime))) (t_mul mean mean).

Definition SystemMeasure_resetMeasures (now : T) (m : SystemMeasure) : SystemMeasure :=
  mkSystemMeasure (resetMeasures now m.(measure)) m.(lastChange) m.(current).

(** CustomerMeasure: a value per customer. *)
Definition CustomerMeasure_add (x : T) (m : Measure) : Measure := add_moments (pow x) m.

Definition CustomerMeasure_mean (m : Measure) : T := t_div (m.(moment) 1%nat) (t_of_int m.(n)).

Definition CustomerMeasure_variance (m : Measure) : T :=
  let mean := CustomerMeasure_mean m in
  t_div (t_sub (m.(moment) 2%nat) (t_mul (t_mul (t_of_int m.(n)) mean) mean)) (t_of_int (int_sub m.(n) 1)).

End measure.
Arguments Measure : clear implicits.
Arguments SystemMeasure : clear implicits.
End Measure.
Import Measure.

(** ** Queue

    What a discipline implements: the pure virtual methods.  They are given
    the time, the population before the call and the customers. *)
Class Discipline (T Q : Type) `{SimTime T} := {
  insertIntoQueue : T -> Z -> Object -> Customers T -> Q -> res (Customers T * Q);
  insertAtHeadOfQueue : T -> Z -> Object -> Customers T -> Q -> res (Customers T * Q);
  headOfQueue : Q -> res Object;
  removeFromQueue : T -> Customers T -> Q -> res (Object * Q);
}.

Module Queue.
Section queue.
Context {T Q : Type} `{Discipline T Q}.

Record Queue := mkQueue {
  pop : Z;
  queueingTime : Measure T;
  popMeasure : SystemMeasure T;
  capacity : Z;
  discipline : Q;
}.

Definition INT_MAX : Z := 2 ^ 31 - 1.

Definition new_Queue_of (cap : Z) (d : Q) : Queue := mkQueue 0 new_Measure new_SystemMeasure cap d.
Definition new_Queue (d : Q) : Queue := new_Queue_of INT_MAX d.

Definition isInfinite (q : Queue) : bool := q.(capacity) =? INT_MAX.
Definition isEmpty (q : Queue) : bool := q.(pop) =? 0.
Definition canAccept (q : Queue) : bool := q.(pop) <? q.(capacity).

(** [pop] changes by [d], and the population is measured. *)
Definition population (now : T) (d : Z) (q : Queue) : Queue :=
  let pop := int_add q.(pop) d in
  mkQueue pop q.(queueingTime) (SystemMeasure_add now (t_of_float pop) q.(popMeasure)) q.(capacity) q.(discipline).

Definition set_discipline (d : Q) (q : Queue) : Queue :=
  mkQueue q.(pop) q.(queueingTime) q.(popMeasure) q.(capacity) d.

Definition set_queueingTime (m : Measure T) (q : Queue) : Queue :=
  mkQueue q.(pop) m q.(popMeasure) q.(capacity) q.(discipline).

Definition enqueue_with (insert : T -> Z -> Object -> Customers T -> Q -> res (Customers T * Q))
    (now : T) (c : Object) (cs : Customers T) (q : Queue) : res (Customers T * Queue) :=
  _ ← guard_assert (canAccept q);
  x ← get c cs;
  '(cs, d) ← insert now q.(pop) c (<[c := setQueueInsertionTime now x]> cs) q.(discipline);
  Ok (cs, population now 1 (set_discipline d q)).

Definition enqueue := enqueue_with insertIntoQueue.
Definition enqueueAtHead := enqueue_with insertAtHeadOfQueue.

Definition head (q : Queue) : res Object :=
  _ ← guard_assert (0 <? q.(pop)); headOfQueue q.(discipline).

Definition dequeue (now : T) (cs : Customers T) (q : Queue) : res (Object * Queue) :=
  _ ← guard_assert (0 <? q.(pop));
  '(c, d) ← removeFromQueue now cs q.(discipline);
  let q := population now (-1) (set_discipline d q) in
  x ← get c cs;
  Ok (c, set_queueingTime (CustomerMeasure_add (t_sub now x.(queueInsertionTime)) q.(queueingTime)) q).

Definition meanQueueLength (now : T) (q : Queue) : T := SystemMeasure_mean now q.(popMeasure).
Definition varQueueLength (now : T) (q : Queue) : T := SystemMeasure_variance now q.(popMeasure).
Definition meanTimeInQueue (q : Queue) : T := CustomerMeasure_mean q.(queueingTime).
Definition varTimeInQueue (q : Queue) : T := CustomerMeasure_variance q.(queueingTime).
Definition resetMeasures (now : T) (q : Queue) : Queue :=
  mkQueue q.(pop) (Measure.resetMeasures now q.(queueingTime)) (SystemMeasure_resetMeasures now q.(popMeasure)) q.(capacity) q.(discipline).

End queue.
Arguments Queue : clear implicits.
End Queue.

(** ** The disciplines *)
Module Disciplines.
Section disciplines.
Context {T : Type} `{SimTime T}.

Record FIFOQueue := mkFIFO { fifo : LinkedList.List }.
Record LIFOQueue := mkLIFO { lifo : LinkedList.List }.
Record OrderedQueue := mkOrdered { ordered : LinkedList.List }.

#[export] Instance FIFO_discipline : Discipline T FIFOQueue := {|
  insertIntoQueue now pop e cs q := l ← LinkedList.insertAtBack e q.(fifo); Ok (cs, mkFIFO l);
  insertAtHeadOfQueue now pop e cs q := Ok (cs, mkFIFO (LinkedList.insertAtFront e q.(fifo)));
  headOfQueue q := LinkedList.first q.(fifo);
  removeFromQueue now cs q := '(c, l) ← LinkedList.removeFromFront q.(fifo); Ok (c, mkFIFO l)
|}.

#[export] Instance LIFO_discipline : Discipline T LIFOQueue := {|
  insertIntoQueue now pop e cs q := Ok (cs, mkLIFO (LinkedList.insertAtFront e q.(lifo)));
  insertAtHeadOfQueue now pop e cs q := Ok (cs, mkLIFO (LinkedList.insertAtFront e q.(lifo)));
  headOfQueue q := LinkedList.first q.(lifo);
  removeFromQueue now cs q := '(c, l) ← LinkedList.removeFromFront q.(lifo); Ok (c, mkLIFO l)
|}.

#[export] Instance Ordered_discipline : Discipline T OrderedQueue := {|
  insertIntoQueue now pop e cs q := l ← LinkedList.insertInOrder (smallerThan cs) e q.(ordered); Ok (cs, mkOrdered l);
  insertAtHeadOfQueue now pop e cs q := Ok (cs, mkOrdered (LinkedList.insertAtFront e q.(ordered)));
  headOfQueue q := LinkedList.first q.(ordered);
  removeFromQueue now cs q := '(c, l) ← LinkedList.removeFromFront q.(ordered); Ok (c, mkOrdered l)
|}.

(** RandomQueue: [rand] returns the values of [rands], from 0 to [RAND_MAX]. *)
Definition RAND_MAX : Z := 2147483647.
Record RandomQueue := mkRandom { random : LinkedList.List; rands : nat -> Z; draws : nat }.

Definition random_index (r pop : Z) : Z :=
  default 0 (f_trunc (f64_mul (f64_div (ll_to_f64 r) (ll_to_f64 RAND_MAX)) (ll_to_f64 (int_add pop 1)))).

#[export] Instance Random_discipline : Discipline T RandomQueue := {|
  insertIntoQueue now pop e cs q :=
    let index := random_index (q.(rands) q.(draws)) pop in
    l ← LinkedList.insertAfter (Z.to_nat index) e q.(random);
    Ok (cs, mkRandom l q.(rands) (S q.(draws)));
  insertAtHeadOfQueue now pop e cs q := Ok (cs, mkRandom (LinkedList.insertAtFront e q.(random)) q.(rands) q.(draws));
  headOfQueue q := LinkedList.first q.(random);
  removeFromQueue now cs q := '(c, l) ← LinkedList.removeFromFront q.(random); Ok (c, mkRandom l q.(rands) q.(draws))
|}.

(** PriorityQueue: a FIFO queue per priority, 0 first. *)
Record PriorityQueue := mkPriority { qs : list (Queue.Queue T FIFOQueue) }.

Definition new_PriorityQueue (nqueues : nat) : PriorityQueue :=
  mkPriority (replicate nqueues (Queue.new_Queue (mkFIFO LinkedList.new_List))).

(** [qs[ priority ]->op]. *)
Definition at_priority (priority : Z) {A} (op : Queue.Queue T FIFOQueue -> res (A * Queue.Queue T FIFOQueue)) (q : PriorityQueue) : res (A * PriorityQueue) :=
  if priority <? 0 then Err OutOfBounds
  else match q.(qs) !! Z.to_nat priority with
  | None => Err OutOfBounds
  | Some one => '(a, one) ← op one; Ok (a, mkPriority (<[Z.to_nat priority := one]> q.(qs)))
  end.

(** The first queue with a customer. *)
Fixpoint first_used (qs : list (Queue.Queue T FIFOQueue)) : option nat :=
  match qs with
  | [] => None
  | q :: qs => if 0 <? q.(Queue.pop) then Some O else S <$> first_used qs
  end.

(** [PriorityQueue::canAccept] hides that of Queue and is not virtual: only a
    caller that knows the class asks it. *)
Definition PriorityQueue_canAccept (cs : Customers T) (c : Object) (q : PriorityQueue) : res bool :=
  x ← get c cs; '(b, _) ← at_priority x.(priority) (fun one => Ok (Queue.canAccept one, one)) q; Ok b.

#[export] Instance Priority_discipline : Discipline T PriorityQueue := {|
  insertIntoQueue now pop e cs q := x ← get e cs; at_priority x.(priority) (Queue.enqueue now e cs) q;
  insertAtHeadOfQueue now pop e cs q := x ← get e cs; at_priority x.(priority) (Queue.enqueueAtHead now e cs) q;
  headOfQueue q :=
    match first_used q.(qs) with
    | None => Err AssertFailed
    | Some i => '(c, _) ← at_priority (Z.of_nat i) (fun one => c ← Queue.head one; Ok (c, one)) q; Ok c
    end;
  removeFromQueue now cs q :=
    match first_used q.(qs) with
    | None => Err AssertFailed
    | Some i => at_priority (Z.of_nat i) (Queue.dequeue now cs) q
    end
|}.

End disciplines.
End Disciplines.
Import Disciplines.

(** ** What a discipline promises

    [waiting cs q xs]: the customers [xs] wait in [q], the first is the next to
    leave.  [placed cs c xs xs']: where a newcomer goes.  Changes of a customer
    that do not concern an order, [keeps], concern no discipline. *)
Definition same_rank {T} (x y : Customer T) : Prop :=
  x.(type) = y.(type) /\ x.(priority) = y.(priority) /\ x.(ordering) = y.(ordering).

Definition keeps {T} (cs cs' : Customers T) : Prop :=
  forall c x, cs !! c = Some x -> exists x', cs' !! c = Some x' /\ same_rank x x'.

Definition keeps_on {T} (xs : list Object) (cs cs' : Customers T) : Prop :=
  forall c x, c ∈ xs -> cs !! c = Some x -> exists x', cs' !! c = Some x' /\ same_rank x x'.

Lemma keeps_all {T} (cs cs' : Customers T) xs : keeps cs cs' -> keeps_on xs cs cs'.
Proof. intros Hk c x _. apply Hk. Qed.

Lemma keeps_refl {T} (cs : Customers T) : keeps cs cs.
Proof. intros c x Hx. by exists x. Qed.

Lemma keeps_insert {T} (cs : Customers T) c x x' : cs !! c = Some x -> same_rank x x' -> keeps cs (<[c := x']> cs).
Proof.
  intros Hx Hr d y Hy. destruct (decide (d = c)) as [->|].
  - rewrite lookup_insert_eq. simplify_eq. by exists x'.
  - rewrite lookup_insert_ne by done. by exists y.
Qed.

Lemma keeps_trans {T} (a b c : Customers T) : keeps a b -> keeps b c -> keeps a c.
Proof.
  intros Hab Hbc i x Hx. destruct (Hab _ _ Hx) as (y & Hy & E1). destruct (Hbc _ _ Hy) as (z & Hz & E2).
  exists z. unfold same_rank in *. split; [done|]. naive_solver congruence.
Qed.

Class DisciplineLaws (T Q : Type) `{Discipline T Q} := {
  waiting : Customers T -> Q -> list Object -> Prop;
  accepts : Customers T -> Q -> Object -> Prop;
  placed : Customers T -> Object -> list Object -> list Object -> Prop;
  placed_head : Customers T -> Object -> list Object -> list Object -> Prop;
  placed_perm cs c xs xs' : placed cs c xs xs' -> xs' ≡ₚ c :: xs;
  placed_head_perm cs c xs xs' : placed_head cs c xs xs' -> xs' ≡ₚ c :: xs;
  waiting_keeps cs cs' q xs : keeps_on xs cs cs' -> (forall d, d ∈ xs -> is_Some (cs !! d)) -> waiting cs q xs -> waiting cs' q xs;
  accepts_keeps cs cs' q c : keeps_on [c] cs cs' -> accepts cs q c -> accepts cs' q c;
  insert_waiting now c x cs q xs : waiting cs q xs -> accepts cs q c -> cs !! c = Some x -> x.(queueInsertionTime) = now ->
    (forall d, d ∈ xs -> is_Some (cs !! d)) -> Z.of_nat (length xs) < Queue.INT_MAX ->
    exists q' xs', insertIntoQueue now (Z.of_nat (length xs)) c cs q = Ok (cs, q') /\ placed cs c xs xs' /\ waiting cs q' xs' /\
      forall d, accepts cs q d -> accepts cs q' d;
  insert_head_waiting now c x cs q xs : waiting cs q xs -> accepts cs q c -> cs !! c = Some x -> x.(queueInsertionTime) = now ->
    (forall d, d ∈ xs -> is_Some (cs !! d)) -> Z.of_nat (length xs) < Queue.INT_MAX ->
    exists q' xs', insertAtHeadOfQueue now (Z.of_nat (length xs)) c cs q = Ok (cs, q') /\ placed_head cs c xs xs' /\ waiting cs q' xs' /\
      forall d, accepts cs q d -> accepts cs q' d;
  head_waiting cs q x xs : waiting cs q (x :: xs) -> headOfQueue q = Ok x;
  remove_waiting now cs q x xs : waiting cs q (x :: xs) -> is_Some (cs !! x) -> Z.of_nat (length (x :: xs)) <= Queue.INT_MAX ->
    exists q', removeFromQueue now cs q = Ok (x, q') /\ waiting cs q' xs /\ forall d, accepts cs q d -> accepts cs q' d;
}.

Section laws.
Context {T : Type} `{SimTime T}.

#[export] Program Instance FIFO_laws : DisciplineLaws T FIFOQueue := {|
  waiting cs q xs := holds q.(fifo) xs;
  accepts cs q c := True;
  placed cs c xs xs' := xs' = xs ++ [c];
  placed_head cs c xs xs' := xs' = c :: xs
|}.
Next Obligation. intros cs c xs xs' ->. by rewrite Permutation_app_comm. Qed.
Next Obligation. by intros cs c xs xs' ->. Qed.
Next Obligation. done. Qed.
Next Obligation. done. Qed.
Next Obligation.
  intros now c x cs q xs Hw _ _ _ _ _. cbn. destruct (insertAtBack_holds c _ _ Hw) as (l' & -> & Hl').
  by exists (mkFIFO l'), (xs ++ [c]).
Qed.
Next Obligation.
  intros now c x cs q xs Hw _ _ _ _ _. do 2 eexists. split; [done|]. split; [done|]. split; [by apply insertAtFront_holds | done].
Qed.
Next Obligation. intros cs q x xs Hw. apply (first_holds _ _ _ Hw). Qed.
Next Obligation.
  intros now cs q x xs Hw _ _. cbn. destruct (removeFromFront_holds _ _ _ Hw) as (l' & -> & Hl'). by exists (mkFIFO l').
Qed.

#[export] Program Instance LIFO_laws : DisciplineLaws T LIFOQueue := {|
  waiting cs q xs := holds q.(lifo) xs;
  accepts cs q c := True;
  placed cs c xs xs' := xs' = c :: xs;
  placed_head cs c xs xs' := xs' = c :: xs
|}.
Next Obligation. by intros cs c xs xs' ->. Qed.
Next Obligation. by intros cs c xs xs' ->. Qed.
Next Obligation. done. Qed.
Next Obligation. done. Qed.
Next Obligation.
  intros now c x cs q xs Hw _ _ _ _ _. do 2 eexists. split; [done|]. split; [done|]. split; [by apply insertAtFront_holds | done].
Qed.
Next Obligation.
  intros now c x cs q xs Hw _ _ _ _ _. do 2 eexists. split; [done|]. split; [done|]. split; [by apply insertAtFront_holds | done].
Qed.
Next Obligation. intros cs q x xs Hw. apply (first_holds _ _ _ Hw). Qed.
Next Obligation.
  intros now cs q x xs Hw _ _. cbn. destruct (removeFromFront_holds _ _ _ Hw) as (l' & -> & Hl'). by exists (mkLIFO l').
Qed.

(** OrderedQueue, of plain customers or of the entries of a node. *)
Definition of_kind (entries : bool) (cs : Customers T) (c : Object) : Prop :=
  exists x, cs !! c = Some x /\ match x.(ordering) with ByClass => false | OrderedQueueEntry _ _ => true end = entries.

Definition rank_leb (cs : Customers T) (x y : Object) : bool :=
  match smallerThan cs x y with Ok b => b | Err _ => false end.

Lemma of_kind_compares k cs x y : of_kind k cs x -> of_kind k cs y -> smallerThan cs x y = Ok (rank_leb cs x y).
Proof.
  intros (cx & Hx & Kx) (cy & Hy & Ky). unfold rank_leb, smallerThan, get. rewrite Hx, Hy. cbn.
  destruct (ordering cx), (ordering cy); congruence.
Qed.

Lemma of_kind_keeps k cs cs' xs c : keeps_on xs cs cs' -> c ∈ xs -> of_kind k cs c -> of_kind k cs' c.
Proof. intros Hk Hc (x & Hx & E). destruct (Hk _ _ Hc Hx) as (x' & Hx' & (_ & _ & E')). exists x'. by rewrite <- E'. Qed.

Lemma insert_in_order_perm b c xs : insert_in_order b c xs ≡ₚ c :: xs.
Proof. induction xs as [|x xs IH]; cbn; [done|]. destruct (b x c); [|done]. by rewrite IH, Permutation_swap. Qed.

#[export] Program Instance Ordered_laws (entries : bool) : DisciplineLaws T OrderedQueue := {|
  waiting cs q xs := holds q.(ordered) xs /\ Forall (of_kind entries cs) xs;
  accepts cs q c := of_kind entries cs c;
  placed cs c xs xs' := xs' = insert_in_order (rank_leb cs) c xs;
  placed_head cs c xs xs' := xs' = c :: xs
|}.
Next Obligation. intros k cs c xs xs' ->. apply insert_in_order_perm. Qed.
Next Obligation. by intros k cs c xs xs' ->. Qed.
Next Obligation.
  intros k cs cs' q xs Hk _ [Hh Hall]. split; [done|]. rewrite Forall_forall in *. intros c Hc.
  apply (of_kind_keeps _ _ _ _ _ Hk Hc). by apply Hall.
Qed.
Next Obligation. intros k cs cs' q c Hk. apply (of_kind_keeps _ _ _ _ _ Hk). by left. Qed.
Next Obligation.
  intros k now c x cs q xs [Hw Hall] Hc _ _ _ _. cbn [insertIntoQueue Ordered_discipline].
  destruct (insertInOrder_holds (rank_leb cs) (smallerThan cs) c _ _ Hw) as (l' & -> & Hl').
  { intros d Hd. rewrite Forall_forall in Hall. apply (of_kind_compares k); [by apply Hall | done]. }
  exists (mkOrdered l'), (insert_in_order (rank_leb cs) c xs). split_and!; [done | done | done | | done].
  rewrite insert_in_order_perm. by constructor.
Qed.
Next Obligation.
  intros k now c x cs q xs [Hw Hall] Hc _ _ _ _. do 2 eexists. split; [done|]. split; [done|]. split; [|done].
  split; [by apply insertAtFront_holds | by constructor].
Qed.
Next Obligation. intros k cs q x xs [Hw _]. apply (first_holds _ _ _ Hw). Qed.
Next Obligation.
  intros k now cs q x xs [Hw [_ Hall]%Forall_cons] _ _. cbn. destruct (removeFromFront_holds _ _ _ Hw) as (l' & -> & Hl').
  by exists (mkOrdered l').
Qed.

(** RandomQueue, as long as no number that is drawn is [RAND_MAX]: all give
    positions in the queue. *)
#[export] Program Instance Random_laws : DisciplineLaws T RandomQueue := {|
  waiting cs q xs := holds q.(random) xs;
  accepts cs q c := forall i pop, 0 <= pop < Queue.INT_MAX -> 0 <= random_index (q.(rands) i) pop <= pop;
  placed cs c xs xs' := exists i, xs' = take i xs ++ c :: drop i xs;
  placed_head cs c xs xs' := xs' = c :: xs
|}.
Next Obligation.
  intros cs c xs xs' (i & ->). rewrite <- Permutation_middle. by rewrite take_drop.
Qed.
Next Obligation. by intros cs c xs xs' ->. Qed.
Next Obligation. done. Qed.
Next Obligation. done. Qed.
Next Obligation.
  intros now c x cs q xs Hw Ha _ _ _ Hlen. cbn. specialize (Ha (draws q) (Z.of_nat (length xs)) ltac:(lia)).
  pose proof (insertAfter_holds (Z.to_nat (random_index (rands q (draws q)) (Z.of_nat (length xs)))) c _ _ Hw) as Hi.
  rewrite leb_correct in Hi by lia. destruct Hi as (l' & -> & Hl').
  exists (mkRandom l' (rands q) (S (draws q))). eexists. split; [done|]. split; [by eexists|]. split; [done | done].
Qed.
Next Obligation.
  intros now c x cs q xs Hw _ _ _ _ _. do 2 eexists. split; [done|]. split; [done|]. split; [by apply insertAtFront_holds | done].
Qed.
Next Obligation. intros cs q x xs Hw. apply (first_holds _ _ _ Hw). Qed.
Next Obligation.
  intros now cs q x xs Hw _ _. cbn. destruct (removeFromFront_holds _ _ _ Hw) as (l' & -> & Hl').
  by exists (mkRandom l' (rands q) (draws q)).
Qed.

End laws.

(** ** The contract of a queue *)
Section contract.
Context {T Q : Type} `{DisciplineLaws T Q}.
Local Abbreviation Queue := (Queue.Queue T Q).

(** The customers [xs] wait in [q]. *)
Record queued (cs : Customers T) (q : Queue) (xs : list Object) : Prop := {
  queued_waiting : waiting cs q.(Queue.discipline) xs;
  queued_pop : q.(Queue.pop) = Z.of_nat (length xs);
  queued_capacity : Z.of_nat (length xs) <= q.(Queue.capacity) <= Queue.INT_MAX;
  queued_known x : x ∈ xs -> is_Some (cs !! x);
}.

Definition admits (cs : Customers T) (q : Queue) (c : Object) : Prop := accepts cs q.(Queue.discipline) c.

Lemma queued_keeps cs cs' q xs : keeps_on xs cs cs' -> queued cs q xs -> queued cs' q xs.
Proof.
  intros Hk [Hw Hp Hc Hi]. split; try done.
  - by eapply waiting_keeps.
  - intros x Hx. destruct (Hi x Hx) as [y Hy]. destruct (Hk _ _ Hx Hy) as (y' & Hy' & _). by exists y'.
Qed.

Lemma keeps_time cs c (x : Customer T) now : cs !! c = Some x -> keeps cs (<[c := setQueueInsertionTime now x]> cs).
Proof. intros Hx. by eapply keeps_insert. Qed.

(** What both insertions do, given where the newcomer goes. *)
Definition inserts (insert : T -> Z -> Object -> Customers T -> Q -> res (Customers T * Q))
    (place : Customers T -> Object -> list Object -> list Object -> Prop) : Prop :=
  (forall cs c xs xs', place cs c xs xs' -> xs' ≡ₚ c :: xs) /\
  forall now c x cs q xs, waiting cs q xs -> accepts cs q c -> cs !! c = Some x -> x.(queueInsertionTime) = now ->
    (forall d, d ∈ xs -> is_Some (cs !! d)) -> Z.of_nat (length xs) < Queue.INT_MAX ->
    exists q' xs', insert now (Z.of_nat (length xs)) c cs q = Ok (cs, q') /\ place cs c xs xs' /\ waiting cs q' xs' /\
      forall d, accepts cs q d -> accepts cs q' d.

Lemma at_tail_inserts : inserts insertIntoQueue placed.
Proof. split; [apply placed_perm | apply insert_waiting]. Qed.

Lemma at_head_inserts : inserts insertAtHeadOfQueue placed_head.
Proof. split; [apply placed_head_perm | apply insert_head_waiting]. Qed.

Lemma enqueue_queued insert place now c x cs q xs : inserts insert place ->
  queued cs q xs -> admits cs q c -> cs !! c = Some x -> Z.of_nat (length xs) < q.(Queue.capacity) ->
  let cs' := <[c := setQueueInsertionTime now x]> cs in
  exists d xs', let q' := Queue.population now 1 (Queue.set_discipline d q) in
    Queue.enqueue_with insert now c cs q = Ok (cs', q') /\ place cs' c xs xs' /\ queued cs' q' xs' /\
    forall e, admits cs q e -> admits cs' q' e.
Proof.
  intros [Hperm Hins] Hq Ha Hx Hcap cs'. assert (keeps cs cs') as Hk by by apply keeps_time.
  destruct (queued_keeps _ _ _ _ (keeps_all _ _ _ Hk) Hq) as [Hw Hp Hm Hi].
  destruct (Hins now c (setQueueInsertionTime now x) cs' (Queue.discipline q) xs) as (d & xs' & Hd1 & Hd2 & Hd3 & Hd4);
    [done | by eapply accepts_keeps; [by apply keeps_all|] | by unfold cs'; rewrite lookup_insert_eq | done | done | lia|].
  pose proof (Hperm _ _ _ _ Hd2) as Hp'. exists d, xs'. cbn zeta.
  split; [|split; [done|split; [|intros e He; by apply Hd4; eapply accepts_keeps; [by apply keeps_all|]]]].
  - unfold Queue.enqueue_with, Queue.canAccept. rewrite Hp. destruct (Z.ltb_spec (Z.of_nat (length xs)) (Queue.capacity q)); [|lia].
    cbn [guard_assert mbind res_bind]. unfold get. rewrite Hx. cbn [mbind res_bind]. fold cs'. by rewrite Hd1.
  - split; cbn; try done.
    + rewrite Hp', Hp. cbn [length]. unfold int_add. rewrite wrap_id; unfold Queue.INT_MAX in *; lia.
    + rewrite Hp'. cbn [length]. lia.
    + intros y Hy. rewrite Hp' in Hy. apply elem_of_cons in Hy as [->|Hy]; [unfold cs'; by rewrite lookup_insert_eq | by apply Hi].
Qed.

Lemma full_queue now c cs q xs insert : queued cs q xs -> q.(Queue.capacity) <= Z.of_nat (length xs) ->
  Queue.enqueue_with insert now c cs q = Err AssertFailed.
Proof.
  intros [_ Hp _ _] Hc. unfold Queue.enqueue_with, Queue.canAccept. rewrite Hp.
  by destruct (Z.ltb_spec (Z.of_nat (length xs)) (Queue.capacity q)); [lia|].
Qed.

(** The queue behind the departure of a customer that entered it at [t]. *)
Definition departed (now t : T) (d : Q) (q : Queue) : Queue :=
  let q := Queue.population now (-1) (Queue.set_discipline d q) in
  Queue.set_queueingTime (CustomerMeasure_add (t_sub now t) q.(Queue.queueingTime)) q.

Lemma dequeue_queued now x xs cs q : queued cs q (x :: xs) ->
  exists d c, let q' := departed now c.(queueInsertionTime) d q in
    Queue.dequeue now cs q = Ok (x, q') /\ cs !! x = Some c /\ queued cs q' xs /\
    forall e, admits cs q e -> admits cs q' e.
Proof.
  intros [Hw Hp Hc Hi]. destruct (Hi x ltac:(by left)) as [c Hx].
  destruct (remove_waiting now cs (Queue.discipline q) x xs Hw ltac:(done) ltac:(lia)) as (d & Hr & Hw' & Ha').
  exists d, c. cbn zeta. split; [|split; [done|split; [|done]]].
  - unfold Queue.dequeue. rewrite Hp. cbn [length]. destruct (Z.ltb_spec 0 (Z.of_nat (S (length xs)))); [|lia].
    cbn [guard_assert mbind res_bind]. rewrite Hr. cbn [mbind res_bind]. unfold get. by rewrite Hx.
  - cbn [length] in *. split; cbn; try done.
    + rewrite Hp. unfold int_add. rewrite wrap_id; unfold Queue.INT_MAX in *; lia.
    + lia.
    + intros y Hy. apply Hi. by right.
Qed.

Lemma head_queued x xs cs q : queued cs q (x :: xs) -> Queue.head q = Ok x.
Proof.
  intros [Hw Hp _ _]. unfold Queue.head. rewrite Hp. cbn [length]. destruct (Z.ltb_spec 0 (Z.of_nat (S (length xs)))); [|lia].
  cbn [guard_assert mbind res_bind]. by eapply head_waiting.
Qed.

Lemma empty_dequeue now cs q : queued cs q [] -> Queue.dequeue now cs q = Err AssertFailed /\ Queue.head q = Err AssertFailed.
Proof. intros [_ Hp _ _]. unfold Queue.dequeue, Queue.head. by rewrite Hp. Qed.

End contract.

(** ** PriorityQueue

    The inner queues, from priority [i] on, hold [xs]. *)
Section priority.
Context {T : Type} `{SimTime T}.
Local Abbreviation Inner := (Queue.Queue T FIFOQueue).

Definition priority_of (cs : Customers T) (c : Object) : Z :=
  match cs !! c with Some x => x.(priority) | None => 0 end.

Definition of_level (cs : Customers T) (i : Z) (q : Inner) (xs : list Object) : Prop :=
  waiting cs q.(Queue.discipline) xs /\ q.(Queue.pop) = Z.of_nat (length xs) /\ q.(Queue.capacity) = Queue.INT_MAX /\
  Forall (fun x => priority_of cs x = i) xs.

Fixpoint levels (cs : Customers T) (i : Z) (qs : list Inner) (xs : list Object) : Prop :=
  match qs with
  | [] => xs = []
  | q :: qs => exists ys zs, xs = ys ++ zs /\ of_level cs i q ys /\ levels cs (i + 1) qs zs
  end.

Lemma levels_at_least cs i qs xs : levels cs i qs xs -> Forall (fun x => i <= priority_of cs x) xs.
Proof.
  revert i xs. induction qs as [|q qs IH]; intros i xs; cbn; [intros ->; by apply Forall_nil|].
  intros (ys & zs & -> & (_ & _ & _ & Hys) & Hzs). apply Forall_app. split.
  - eapply Forall_impl; [done|]. cbn. lia.
  - eapply Forall_impl; [by apply IH|]. cbn. lia.
Qed.

(** The inner queue of a priority, between the customers before and behind. *)
Lemma levels_at cs qs : forall i xs k q, levels cs i qs xs -> qs !! k = Some q ->
  let p := i + Z.of_nat k in
  exists xs1 ys xs2, xs = xs1 ++ ys ++ xs2 /\ of_level cs p q ys /\
    Forall (fun x => priority_of cs x < p) xs1 /\ Forall (fun x => p < priority_of cs x) xs2 /\
    forall q' ys', of_level cs p q' ys' -> levels cs i (<[k := q']> qs) (xs1 ++ ys' ++ xs2).
Proof.
  induction qs as [|q0 qs IH]; intros i xs k q Hl Hk; [done|]. destruct Hl as (ys & zs & -> & Hy & Hz).
  destruct k as [|k]; cbn zeta.
  - injection Hk as ->. rewrite Z.add_0_r. exists [], ys, zs. split_and!; [done | done | by apply Forall_nil | |].
    + eapply Forall_impl; [by eapply levels_at_least|]. cbn. lia.
    + intros q' ys' H'. exists ys', zs. split_and!; done.
  - destruct (IH (i + 1) zs k q Hz Hk) as (xs1 & ws & xs2 & -> & Hw & H1 & H2 & Hins).
    replace (i + Z.of_nat (S k)) with (i + 1 + Z.of_nat k) by lia. exists (ys ++ xs1), ws, xs2.
    split_and!; [by rewrite <- app_assoc | apply Hw.. | | done |].
    + apply Forall_app. split; [|done]. destruct Hy as (_ & _ & _ & Hy). eapply Forall_impl; [done|]. cbn. lia.
    + intros q' ys' H'. exists ys, (xs1 ++ ys' ++ xs2). split; [by rewrite <- app_assoc|]. split; [done|]. by apply Hins.
Qed.

(** The first queue in use holds the first customer. *)
Lemma levels_first cs qs : forall i xs, levels cs i qs xs ->
  match first_used qs with
  | None => xs = []
  | Some k => exists q x ys xs2, qs !! k = Some q /\ xs = x :: ys ++ xs2 /\ of_level cs (i + Z.of_nat k) q (x :: ys) /\
      forall q' ys', of_level cs (i + Z.of_nat k) q' ys' -> levels cs i (<[k := q']> qs) (ys' ++ xs2)
  end.
Proof.
  induction qs as [|q qs IH]; intros i xs Hl; [done|]. cbn [first_used]. destruct Hl as (ys & zs & -> & Hy & Hz).
  pose proof Hy as (Hw & Hp & Hc & Hpr). destruct (Z.ltb_spec 0 (Queue.pop q)) as [Hpos|Hpos].
  - destruct ys as [|x ys]; [cbn in Hp; lia|]. exists q, x, ys, zs. rewrite Z.add_0_r. split_and!; [done | done | apply Hy.. |].
    intros q' ys' H'. by exists ys', zs.
  - destruct ys as [|x ys]; [|cbn in Hp; lia]. specialize (IH _ _ Hz). destruct (first_used qs) as [k|]; cbn; [|done].
    destruct IH as (q1 & x & ys & xs2 & H1 & H2 & H3 & H4). exists q1, x, ys, xs2.
    replace (i + Z.of_nat (S k)) with (i + 1 + Z.of_nat k) by lia. split_and!; [done | done | apply H3.. |].
    intros q' ys' H'. exists [], (ys' ++ xs2). split; [done|]. split; [done|]. by apply H4.
Qed.

Lemma levels_keeps cs cs' qs : forall i xs, keeps_on xs cs cs' -> (forall x, x ∈ xs -> is_Some (cs !! x)) -> levels cs i qs xs -> levels cs' i qs xs.
Proof.
  induction qs as [|q qs IH]; intros i xs Hk Hi; [done|].
  assert (forall x, x ∈ xs -> priority_of cs' x = priority_of cs x) as Hp.
  { intros x Hx. destruct (Hi x Hx) as [y Hy]. destruct (Hk _ _ Hx Hy) as (y' & Hy' & _ & Hpr & _). unfold priority_of. by rewrite Hy, Hy'. } intros (ys & zs & -> & (Hw & Hl & Hc & Hpr) & Hz).
  exists ys, zs. split; [done|]. split; [|apply IH; [intros c x Hc'; apply Hk; set_solver | set_solver | done]]. split_and!; try done.
  rewrite Forall_forall in *. intros x Hx. rewrite Hp by set_solver. by apply Hpr.
Qed.

Lemma insert_in_order_levels b c xs1 ys xs2 : Forall (fun x => b x c = true) (xs1 ++ ys) -> Forall (fun x => b x c = false) xs2 ->
  insert_in_order b c (xs1 ++ ys ++ xs2) = xs1 ++ (ys ++ [c]) ++ xs2.
Proof.
  intros H1 H2. rewrite !app_assoc, insert_in_order_split; [by rewrite <- !app_assoc | done |].
  intros x Hx. destruct xs2 as [|y xs2]; [done|]. cbn in Hx. simplify_eq. by apply Forall_cons in H2 as [? _].
Qed.

Lemma setQueueInsertionTime_id (x : Customer T) : setQueueInsertionTime x.(queueInsertionTime) x = x.
Proof. by destruct x. Qed.

(** Insertion into an inner queue, which sets the time of the customer once more. *)
Lemma level_enqueue insert place i now c x cs q ys : inserts insert place -> (forall c d, admits (Q:=FIFOQueue) cs c d) ->
  of_level cs i q ys -> cs !! c = Some x -> x.(queueInsertionTime) = now -> x.(priority) = i ->
  (forall d, d ∈ ys -> is_Some (cs !! d)) -> Z.of_nat (length ys) < Queue.INT_MAX ->
  exists q' ys', Queue.enqueue_with insert now c cs q = Ok (cs, q') /\ place cs c ys ys' /\ of_level cs i q' ys'.
Proof.
  intros [Hperm Hins] Ha (Hw & Hp & Hc & Hpr) Hx <- Hi Hk Hl.
  destruct (Hins (queueInsertionTime x) c x cs (Queue.discipline q) ys Hw ltac:(apply (Ha q)) Hx eq_refl Hk Hl) as (d & ys' & Hd & Hpl & Hw' & _).
  eexists _, ys'. split_and!; [|done|].
  - unfold Queue.enqueue_with, Queue.canAccept. rewrite Hp, Hc. destruct (Z.ltb_spec (Z.of_nat (length ys)) Queue.INT_MAX); [|lia].
    cbn [guard_assert mbind res_bind]. unfold get. rewrite Hx. cbn [mbind res_bind].
    rewrite setQueueInsertionTime_id, insert_id by done. by rewrite Hd.
  - pose proof (Hperm _ _ _ _ Hpl) as Hp'. split_and!; cbn; [done | | done | ].
    + rewrite Hp', Hp. cbn [length]. unfold int_add. rewrite wrap_id; unfold Queue.INT_MAX in *; lia.
    + rewrite Hp'. constructor; [unfold priority_of; by rewrite Hx | done].
Qed.

Lemma level_dequeue i now x ys cs q : of_level cs i q (x :: ys) -> is_Some (cs !! x) -> Z.of_nat (length (x :: ys)) <= Queue.INT_MAX ->
  exists q', Queue.dequeue now cs q = Ok (x, q') /\ of_level cs i q' ys.
Proof.
  intros (Hw & Hp & Hc & [_ Hpr]%Forall_cons) [c Hx] Hl.
  destruct (remove_waiting now cs (Queue.discipline q) x ys Hw ltac:(done) ltac:(lia)) as (d & Hr & Hw' & _).
  eexists. split.
  - unfold Queue.dequeue. rewrite Hp. cbn [length]. destruct (Z.ltb_spec 0 (Z.of_nat (S (length ys)))); [|lia].
    cbn [guard_assert mbind res_bind]. rewrite Hr. cbn [mbind res_bind]. unfold get. rewrite Hx. done.
  - split_and!; cbn; [done | | done | done]. cbn [length] in *. rewrite Hp. unfold int_add. rewrite wrap_id; unfold Queue.INT_MAX in *; lia.
Qed.

Lemma at_priority_run {A} p (op : Inner -> res (A * Inner)) (q : PriorityQueue) one a one' :
  q.(qs) !! p = Some one -> op one = Ok (a, one') ->
  at_priority (Z.of_nat p) op q = Ok (a, mkPriority (<[p := one']> q.(qs))).
Proof.
  intros H1 H2. unfold at_priority. destruct (Z.ltb_spec (Z.of_nat p) 0); [lia|]. rewrite Nat2Z.id, H1, H2. done.
Qed.

Definition priority_before (strict : bool) (cs : Customers T) (x y : Object) : bool :=
  if strict then priority_of cs x <? priority_of cs y else priority_of cs x <=? priority_of cs y.

(** Both insertions of PriorityQueue. *)
Lemma priority_insert (strict : bool) now c x cs q xs insert place : inserts insert place ->
  (forall cs c ys ys', place cs c ys ys' -> ys' = if strict then c :: ys else ys ++ [c]) ->
  levels cs 0 q.(qs) xs -> cs !! c = Some x -> 0 <= x.(priority) < Z.of_nat (length q.(qs)) -> x.(queueInsertionTime) = now ->
  (forall d, d ∈ xs -> is_Some (cs !! d)) -> Z.of_nat (length xs) < Queue.INT_MAX ->
  exists q', (x ← get c cs; at_priority x.(priority) (Queue.enqueue_with insert now c cs) q) = Ok (cs, q') /\
    levels cs 0 q'.(qs) (insert_in_order (priority_before strict cs) c xs) /\ length q'.(qs) = length q.(qs).
Proof.
  intros Hins Hplace Hl Hx Hpr Hnow Hk Hlen. unfold get. rewrite Hx. cbn [mbind res_bind].
  assert (exists p, x.(priority) = Z.of_nat p /\ (p < length q.(qs))%nat) as (p & Hp & Hlt) by (exists (Z.to_nat x.(priority)); lia).
  destruct (lookup_lt_is_Some_2 _ _ Hlt) as [one Hone].
  destruct (levels_at _ _ _ _ _ _ Hl Hone) as (xs1 & ys & xs2 & -> & Hy & H1 & H2 & Hset). cbn [Z.add] in *.
  rewrite !length_app in Hlen.
  destruct (level_enqueue insert place (Z.of_nat p) now c x cs one ys Hins ltac:(done) Hy Hx Hnow Hp) as (one' & ys' & He & Hpl & Hy');
    [intros d Hd; apply Hk; set_solver | lia|].
  rewrite Hp, (at_priority_run p _ q one cs one' Hone He). eexists. split; [done|]. split; [|apply length_insert].
  specialize (Hset _ _ Hy'). apply Hplace in Hpl. assert (priority_of cs c = Z.of_nat p) as Hc by (unfold priority_of; by rewrite Hx).
  assert (forall x, priority_of cs x < Z.of_nat p -> priority_before strict cs x c = true) as B1.
  { intros y Hy1. unfold priority_before. rewrite Hc. destruct strict; [by apply Z.ltb_lt | apply Z.leb_le; lia]. }
  assert (forall x, Z.of_nat p < priority_of cs x -> priority_before strict cs x c = false) as B2.
  { intros y Hy1. unfold priority_before. rewrite Hc. destruct strict; [apply Z.ltb_ge; lia | by apply Z.leb_gt]. }
  assert (Forall (fun x => priority_before strict cs x c = negb strict) ys) as B3.
  { destruct Hy as (_ & _ & _ & Hy). eapply Forall_impl; [done|]. cbn. intros y Hy1. unfold priority_before. rewrite Hc, Hy1.
    destruct strict; [apply Z.ltb_irrefl | apply Z.leb_refl]. }
  destruct strict; cbn [negb] in *; subst ys'.
  - rewrite insert_in_order_split; [done | by eapply Forall_impl|]. intros y Hy1.
    assert (Forall (fun x => priority_before true cs x c = false) (ys ++ xs2)) as Hall by (apply Forall_app; split; [done | by eapply Forall_impl]).
    destruct (ys ++ xs2) as [|z zs]; [done|]. cbn in Hy1. simplify_eq. by apply Forall_cons in Hall as [? _].
  - rewrite insert_in_order_levels; [done | | by eapply Forall_impl]. apply Forall_app. split; [by eapply Forall_impl | done].
Qed.

#[export] Program Instance Priority_laws : DisciplineLaws T PriorityQueue := {|
  waiting cs q xs := levels cs 0 q.(qs) xs;
  accepts cs q c := exists x, cs !! c = Some x /\ 0 <= x.(priority) < Z.of_nat (length q.(qs));
  placed cs c xs xs' := xs' = insert_in_order (priority_before false cs) c xs;
  placed_head cs c xs xs' := xs' = insert_in_order (priority_before true cs) c xs
|}.
Next Obligation. intros cs c xs xs' ->. apply insert_in_order_perm. Qed.
Next Obligation. intros cs c xs xs' ->. apply insert_in_order_perm. Qed.
Next Obligation. intros cs cs' q xs Hk Hi. by apply levels_keeps. Qed.
Next Obligation.
  intros cs cs' q c Hk (x & Hx & Hp). destruct (Hk _ _ ltac:(by left) Hx) as (x' & Hx' & _ & Hp' & _). exists x'. by rewrite <- Hp'.
Qed.
Next Obligation.
  intros now c x cs q xs Hw (x' & Hx' & Hp) Hx Hn Hk Hl. simplify_eq.
  destruct (priority_insert false (queueInsertionTime x') c x' cs q xs (insertIntoQueue (Q:=FIFOQueue)) (placed (Q:=FIFOQueue))) as (q' & H1 & H2 & H3); try done; [apply (at_tail_inserts (Q:=FIFOQueue))|].
  exists q'. eexists. split; [exact H1|]. split; [done|]. split; [done|]. by rewrite H3.
Qed.
Next Obligation.
  intros now c x cs q xs Hw (x' & Hx' & Hp) Hx Hn Hk Hl. simplify_eq.
  destruct (priority_insert true (queueInsertionTime x') c x' cs q xs (insertAtHeadOfQueue (Q:=FIFOQueue)) (placed_head (Q:=FIFOQueue))) as (q' & H1 & H2 & H3); try done; [apply (at_head_inserts (Q:=FIFOQueue))|].
  exists q'. eexists. split; [exact H1|]. split; [done|]. split; [done|]. by rewrite H3.
Qed.
Next Obligation.
  intros cs q x xs Hw. cbn. pose proof (levels_first _ _ _ _ Hw) as Hf. destruct (first_used (qs q)) as [k|]; [|done].
  destruct Hf as (one & y & ys & xs2 & H1 & H2 & (Hw1 & Hp & _ & _) & _). simplify_eq.
  rewrite (at_priority_run k _ q one y one H1); [done|]. unfold Queue.head. rewrite Hp. cbn [length].
  destruct (Z.ltb_spec 0 (Z.of_nat (S (length ys)))); [|lia]. cbn [guard_assert mbind res_bind]. by rewrite (head_waiting _ _ _ _ Hw1).
Qed.
Next Obligation.
  intros now cs q x xs Hw Hx Hl. cbn. pose proof (levels_first _ _ _ _ Hw) as Hf. destruct (first_used (qs q)) as [k|]; [|done].
  destruct Hf as (one & y & ys & xs2 & H1 & H2 & H3 & H4). simplify_eq. cbn [length] in Hl. rewrite length_app in Hl.
  destruct (level_dequeue _ now y ys cs one H3 Hx ltac:(cbn [length]; lia)) as (one' & Hd & H3').
  rewrite (at_priority_run k _ q one y one' H1 Hd). eexists. split; [done|]. split; [by apply H4|]. cbn. by rewrite length_insert.
Qed.
End priority.

(** ** Sequences of calls *)
Section calls.
Context {T Q : Type} `{DisciplineLaws T Q}.
Local Abbreviation Queue := (Queue.Queue T Q).

Inductive call := Enqueue (now : T) (c : Object) | EnqueueAtHead (now : T) (c : Object) | Head | Dequeue (now : T).

Definition call_queue (k : call) (cs : Customers T) (q : Queue) : res (option Object * (Customers T * Queue)) :=
  match k with
  | Enqueue now c => '(cs, q) ← Queue.enqueue now c cs q; Ok (None, (cs, q))
  | EnqueueAtHead now c => '(cs, q) ← Queue.enqueueAtHead now c cs q; Ok (None, (cs, q))
  | Head => c ← Queue.head q; Ok (Some c, (cs, q))
  | Dequeue now => '(c, q) ← Queue.dequeue now cs q; Ok (Some c, (cs, q))
  end.

Fixpoint call_all (ks : list call) (cs : Customers T) (q : Queue) : res (list (option Object) * (Customers T * Queue)) :=
  match ks with
  | [] => Ok ([], (cs, q))
  | k :: ks => '(out, (cs, q)) ← call_queue k cs q; '(outs, s) ← call_all ks cs q; Ok (out :: outs, s)
  end.

(** What a queue of capacity [cap] is to do when [xs] wait: a customer takes the
    place of its discipline, the first one leaves, and a call on a full or an
    empty queue fails. *)
Inductive behaves (cap : Z) : Customers T -> list Object -> list call -> res (list (option Object) * (Customers T * list Object)) -> Prop :=
  | behaves_end cs xs : behaves cap cs xs [] (Ok ([], (cs, xs)))
  | behaves_full now c cs xs ks k : k = Enqueue now c \/ k = EnqueueAtHead now c -> cap <= Z.of_nat (length xs) ->
      behaves cap cs xs (k :: ks) (Err AssertFailed)
  | behaves_enqueue now c x cs xs xs' ks r : Z.of_nat (length xs) < cap -> cs !! c = Some x ->
      let cs' := <[c := setQueueInsertionTime now x]> cs in placed cs' c xs xs' ->
      behaves cap cs' xs' ks r -> behaves cap cs xs (Enqueue now c :: ks) (prod_map (cons None) id <$> r)
  | behaves_enqueueAtHead now c x cs xs xs' ks r : Z.of_nat (length xs) < cap -> cs !! c = Some x ->
      let cs' := <[c := setQueueInsertionTime now x]> cs in placed_head cs' c xs xs' ->
      behaves cap cs' xs' ks r -> behaves cap cs xs (EnqueueAtHead now c :: ks) (prod_map (cons None) id <$> r)
  | behaves_empty now cs k ks : k = Head \/ k = Dequeue now -> behaves cap cs [] (k :: ks) (Err AssertFailed)
  | behaves_head c cs xs ks r : behaves cap cs (c :: xs) ks r -> behaves cap cs (c :: xs) (Head :: ks) (prod_map (cons (Some c)) id <$> r)
  | behaves_dequeue now c cs xs ks r : behaves cap cs xs ks r ->
      behaves cap cs (c :: xs) (Dequeue now :: ks) (prod_map (cons (Some c)) id <$> r).

(** The queue does what it is to do, with the same results, and holds in the end
    what is to wait. *)
Definition does (k : res (list (option Object) * (Customers T * Queue))) (r : res (list (option Object) * (Customers T * list Object))) : Prop :=
  match k, r with
  | Ok (outs, (cs, q)), Ok (outs', (cs', xs)) => outs = outs' /\ cs = cs' /\ queued cs q xs
  | Err e, Err e' => e = e'
  | _, _ => False
  end.

Definition enters (k : call) : option Object :=
  match k with Enqueue _ c | EnqueueAtHead _ c => Some c | _ => None end.

Lemma does_cons out (k : res (list (option Object) * (Customers T * Queue))) r : does k r ->
  does ('(outs, s) ← k; Ok (out :: outs, s)) (prod_map (cons out) id <$> r).
Proof.
  destruct k as [[outs [cs q]]|], r as [[outs' [cs' xs]]|]; cbn; try done. by intros (-> & -> & ?).
Qed.

Lemma queue_does ks : forall cs q xs, queued cs q xs ->
  (forall k c, k ∈ ks -> enters k = Some c -> is_Some (cs !! c) /\ admits cs q c) ->
  exists r, behaves q.(Queue.capacity) cs xs ks r /\ does (call_all ks cs q) r.
Proof.
  induction ks as [|k ks IH]; intros cs q xs Hq Hk; cbn [call_all].
  { exists (Ok ([], (cs, xs))). split; [constructor | done]. }
  assert (forall now c insert place, inserts insert place -> is_Some (cs !! c) -> admits cs q c -> Z.of_nat (length xs) < q.(Queue.capacity) ->
    (forall cs' q', keeps cs cs' -> (forall e, admits cs q e -> admits cs' q' e) -> forall k e, k ∈ ks -> enters k = Some e -> is_Some (cs' !! e) /\ admits cs' q' e) ->
    exists x cs' q' xs' r, cs !! c = Some x /\ cs' = <[c := setQueueInsertionTime now x]> cs /\ Queue.enqueue_with insert now c cs q = Ok (cs', q') /\
      place cs' c xs xs' /\ behaves q.(Queue.capacity) cs' xs' ks r /\ does (call_all ks cs' q') r) as Hins.
  { intros now c insert place Hip [x Hx] Ha Hcap Hrest.
    destruct (enqueue_queued insert place now c x cs q xs Hip Hq Ha Hx Hcap) as (d & xs' & He & Hpl & Hq' & Ha').
    destruct (IH _ _ _ Hq') as (r & Hr & Hd).
    { apply Hrest; [by apply keeps_time | done]. }
    do 2 eexists. eexists _, xs', r. split_and!; done. }
  assert (forall cs' q', keeps cs cs' -> (forall e, admits cs q e -> admits cs' q' e) -> forall k e, k ∈ ks -> enters k = Some e -> is_Some (cs' !! e) /\ admits cs' q' e) as Hrest.
  { intros cs' q' Hkeep Hadm k' e Hk' He. destruct (Hk k' e) as [[x Hx] Ha]; [by right | done|].
    destruct (Hkeep _ _ Hx) as (x' & Hx' & _). split; [by exists x' | by apply Hadm]. }
  destruct k as [now c|now c| |now]; cbn [call_queue].
  - destruct (Hk (Enqueue now c) c) as [Hi Ha]; [by left | done|].
    destruct (decide (Z.of_nat (length xs) < q.(Queue.capacity))) as [Hcap|Hfull].
    + destruct (Hins now c _ _ at_tail_inserts Hi Ha Hcap Hrest) as (x & cs' & q' & xs' & r & Hx & -> & He & Hpl & Hr & Hd).
      exists (prod_map (cons None) id <$> r). split; [by eapply behaves_enqueue|]. unfold Queue.enqueue. rewrite He. by apply does_cons.
    + exists (Err AssertFailed). split; [eapply behaves_full; [by left | lia]|]. unfold Queue.enqueue. by rewrite (full_queue _ _ _ _ _ _ Hq) by lia.
  - destruct (Hk (EnqueueAtHead now c) c) as [Hi Ha]; [by left | done|].
    destruct (decide (Z.of_nat (length xs) < q.(Queue.capacity))) as [Hcap|Hfull].
    + destruct (Hins now c _ _ at_head_inserts Hi Ha Hcap Hrest) as (x & cs' & q' & xs' & r & Hx & -> & He & Hpl & Hr & Hd).
      exists (prod_map (cons None) id <$> r). split; [by eapply behaves_enqueueAtHead|]. unfold Queue.enqueueAtHead. rewrite He. by apply does_cons.
    + exists (Err AssertFailed). split; [eapply behaves_full; [by right | lia]|]. unfold Queue.enqueueAtHead. by rewrite (full_queue _ _ _ _ _ _ Hq) by lia.
  - destruct xs as [|x xs].
    + exists (Err AssertFailed). destruct (empty_dequeue t_zero cs q Hq) as [_ ->]. split; [|done]. by eapply (behaves_empty _ t_zero); left.
    + rewrite (head_queued _ _ _ _ Hq). destruct (IH _ _ _ Hq) as (r & Hr & Hd); [intros k e Hk'; by apply Hk; right|].
      exists (prod_map (cons (Some x)) id <$> r). split; [by constructor | by apply does_cons].
  - destruct xs as [|x xs].
    + exists (Err AssertFailed). destruct (empty_dequeue now cs q Hq) as [-> _]. split; [|done]. by eapply behaves_empty; right.
    + destruct (dequeue_queued now x xs cs q Hq) as (d & c & -> & Hx & Hq' & Ha').
      destruct (IH _ _ _ Hq') as (r & Hr & Hd); [by apply Hrest; [apply keeps_refl|]|].
      exists (prod_map (cons (Some x)) id <$> r). split; [by constructor | by apply does_cons].
Qed.
End calls.
Arguments call : clear implicits.

(** ** Theorems *)
Section theorems.
Context {T Q : Type} `{DisciplineLaws T Q}.

(** C32. Every queue does what its discipline promises, whatever calls are made
    on it: arrivals take their place, departures are those of the first
    customer, a call on a full or an empty queue fails its assertion, and no
    other call fails. *)
Theorem queue_refines cap d cs ks : waiting cs d [] -> 0 <= cap <= Queue.INT_MAX ->
  (forall k c, k ∈ ks -> enters k = Some c -> is_Some (cs !! c) /\ accepts cs d c) ->
  exists r, behaves cap cs [] ks r /\ does (call_all ks cs (Queue.new_Queue_of cap d)) r.
Proof.
  intros Hw Hcap Hk. apply (queue_does ks cs (Queue.new_Queue_of cap d)); [|done].
  split; cbn; [done | done | lia | by intros x ?%not_elem_of_nil].
Qed.

(** The life of a queue: customers enter that do not wait in it, customers
    leave, the program changes what does not concern the queue, and it resets the
    measures.  The second index is what the resets have forgotten: at each, the
    area under the population less the waiting times of those who left. *)
Inductive life : nat -> T -> Customers T -> Queue.Queue T Q -> list Object -> Prop :=
  | life_new cs cap d : waiting cs d [] -> 0 <= cap <= Queue.INT_MAX -> life 0 t_zero cs (Queue.new_Queue_of cap d) []
  | life_enter n f now c cs q xs insert place cs' q' xs' : life n f cs q xs -> inserts insert place -> admits cs q c -> c ∉ xs ->
      Queue.enqueue_with insert now c cs q = Ok (cs', q') -> place cs' c xs xs' -> queued cs' q' xs' -> life (S n) f cs' q' xs'
  | life_leave n f now c cs q xs q' : life n f cs q (c :: xs) -> Queue.dequeue now cs q = Ok (c, q') -> life (S n) f cs q' xs
  | life_other n f cs cs' q xs : life n f cs q xs -> keeps cs cs' ->
      (forall c, c ∈ xs -> queueInsertionTime <$> cs !! c = queueInsertionTime <$> cs' !! c) -> life n f cs' q xs
  | life_reset n f now cs q xs : life n f cs q xs ->
      life n (t_add f (t_sub (moment (measure (Queue.popMeasure q)) 1%nat) (moment (Queue.queueingTime q) 1%nat))) cs (Queue.resetMeasures now q) xs.

Lemma life_queued n f cs q xs : life n f cs q xs -> queued cs q xs /\ NoDup xs.
Proof.
  induction 1 as [cs cap d Hw Hcap|n f now c cs q xs insert place cs' q' xs' _ [Hq Hd] [Hp _] Ha Hc He Hpl Hq'|n f now c cs q xs q' _ [Hq Hd] He
    |n f cs cs' q xs _ [Hq Hd] Hk _|n f now cs q xs _ [Hq Hd]].
  - split; [|apply NoDup_nil_2]. split; cbn; [done | done | lia | by intros x ?%not_elem_of_nil].
  - split; [done|]. rewrite (Hp _ _ _ _ Hpl). by constructor.
  - destruct (dequeue_queued now c xs cs q Hq) as (d & x & He' & _ & Hq' & _). rewrite He in He'. simplify_eq.
    split; [done|]. by apply NoDup_cons in Hd as [_ ?].
  - split; [eapply queued_keeps; [by apply keeps_all | done] | done].
  - split; [|done]. by destruct Hq.
Qed.

Lemma life_bound n f cs q xs : life n f cs q xs -> (length xs <= n)%nat.
Proof.
  induction 1 as [|n f now c cs q xs insert place cs' q' xs' _ IH [Hp _] _ _ _ Hpl _|n f now c cs q xs q' _ IH _| |]; cbn in *; [lia | | lia | done | done].
  rewrite (Hp _ _ _ _ Hpl). cbn. lia.
Qed.

(** The time that the customers have waited by [t]. *)
Definition waited (cs : Customers T) (t : T) (c : Object) : T :=
  match cs !! c with Some x => t_sub t x.(queueInsertionTime) | None => t_zero end.
Fixpoint sum_waited (cs : Customers T) (t : T) (xs : list Object) : T :=
  match xs with [] => t_zero | c :: xs => t_add (waited cs t c) (sum_waited cs t xs) end.

Context {exact : ExactTime T}.
Add Ring TimeRing : exact_ring.

Lemma sum_waited_perm cs t xs ys : xs ≡ₚ ys -> sum_waited cs t xs = sum_waited cs t ys.
Proof.
  induction 1 as [|x xs ys _ IH|x y xs|xs ys zs _ IH1 _ IH2]; cbn; [done | by rewrite IH | ring | by rewrite IH1].
Qed.

Lemma sum_waited_ext cs cs' t xs : (forall c, c ∈ xs -> queueInsertionTime <$> cs !! c = queueInsertionTime <$> cs' !! c) ->
  sum_waited cs t xs = sum_waited cs' t xs.
Proof.
  induction xs as [|x xs IH]; intros He; [done|]. cbn. rewrite IH by set_solver. f_equal. unfold waited.
  specialize (He x ltac:(by left)). destruct (cs !! x), (cs' !! x); cbn in He; congruence.
Qed.

Lemma population_area (q : Queue.Queue T Q) now d t : (Measure.moments (Measure.measure (Queue.popMeasure q)) = 2)%nat ->
  let area q := Measure.moment (Measure.measure (Queue.popMeasure q)) 1%nat in
  let m := Queue.popMeasure (Queue.population now d q) in
  t_add (area (Queue.population now d q)) (t_mul (current m) (t_sub t (lastChange m))) =
  t_add (t_add (area q) (t_mul (current (Queue.popMeasure q)) (t_sub t (lastChange (Queue.popMeasure q)))))
        (t_mul (t_sub (t_of_float (int_add (Queue.pop q) d)) (current (Queue.popMeasure q))) (t_sub t now)).
Proof. intros Hm. cbn. rewrite Hm. cbn. ring. Qed.

Lemma of_int_zero : t_of_int 0 = t_zero :> T.
Proof.
  pose proof (exact_of_int 0 0) as E. cbn in E.
  assert (t_sub (t_of_int 0) (t_of_int 0) = t_sub (t_add (t_of_int 0) (t_of_int 0)) (t_of_int 0) :> T) as E2 by by rewrite <- E.
  ring_simplify in E2. done.
Qed.

(** The books of a queue at any time [t]. *)
Record books (f : T) (cs : Customers T) (q : Queue.Queue T Q) (xs : list Object) (t : T) : Prop := {
  books_current : current (Queue.popMeasure q) = t_of_int (Queue.pop q);
  books_area : moments (measure (Queue.popMeasure q)) = 2%nat;
  books_times : moments (Queue.queueingTime q) = 2%nat;
  books_balance : t_add f (t_add (moment (measure (Queue.popMeasure q)) 1%nat) (t_mul (current (Queue.popMeasure q)) (t_sub t (lastChange (Queue.popMeasure q))))) =
    t_add (moment (Queue.queueingTime q) 1%nat) (sum_waited cs t xs);
}.

Lemma books_population f cs q xs t now d : books f cs q xs t -> Z.abs (int_add (Queue.pop q) d) <= 2 ^ 24 ->
  int_add (Queue.pop q) d = Queue.pop q + d ->
  let m := Queue.popMeasure (Queue.population now d q) in
  current m = t_of_int (Queue.pop q + d) /\ moments (measure m) = 2%nat /\
  t_add f (t_add (moment (measure m) 1%nat) (t_mul (current m) (t_sub t (lastChange m)))) =
  t_add (t_add (moment (Queue.queueingTime q) 1%nat) (sum_waited cs t xs)) (t_mul (t_of_int d) (t_sub t now)).
Proof.
  intros [Hc Ha _ Hb] Habs Hexact. cbn zeta. split_and!; [by cbn; rewrite exact_float, Hexact | done|].
  rewrite population_area, <- Hb, Hc, exact_float, Hexact, exact_of_int by done. ring.
Qed.

Lemma life_books n f cs q xs t : life n f cs q xs -> Z.of_nat n <= 2 ^ 24 -> books f cs q xs t.
Proof.
  intros Hlife. pose proof (life_queued _ _ _ _ _ Hlife) as Hq.
  induction Hlife as [cs cap d Hw Hcap|n f now c cs q xs insert place cs' q' xs' Hl IH Hip Ha Hc He Hpl Hq'
    |n f now c cs q xs q' Hl IH He|n f cs cs' q xs Hl IH Hk Hsame|n f now cs q xs Hl IH]; intros Hn.
  - split; cbn; [by rewrite of_int_zero | done | done | ring].
  - destruct (life_queued _ _ _ _ _ Hl) as [Hq0 Hd0]. pose proof (life_bound _ _ _ _ _ Hl).
    assert (is_Some (cs !! c)) as [x Hx].
    { unfold Queue.enqueue_with in He. apply bind_ok in He as (_ & _ & He). apply bind_ok in He as (x & Hx & _).
      unfold get in Hx. destruct (cs !! c); [by eexists | done]. }
    assert (Z.of_nat (length xs) < Queue.capacity q) as Hcap.
    { destruct (decide (Z.of_nat (length xs) < Queue.capacity q)) as [|Hf]; [done|].
      by rewrite (full_queue now c cs q xs insert Hq0) in He by lia. }
    destruct (enqueue_queued insert place now c x cs q xs Hip Hq0 Ha Hx Hcap) as (d & xs2 & He2 & _ & _ & _).
    rewrite He in He2. injection He2 as -> ->. specialize (IH (conj Hq0 Hd0) ltac:(lia)).
    assert (int_add (Queue.pop q) 1 = Queue.pop q + 1) as Hadd.
    { rewrite (queued_pop _ _ _ Hq0). unfold int_add. apply wrap_id; lia. }
    destruct (books_population f cs (Queue.set_discipline d q) xs t now 1) as (B1 & B2 & B3);
      [by destruct IH; split | cbn; rewrite Hadd, (queued_pop _ _ _ Hq0); lia | done|].
    split; [exact (eq_trans B1 (f_equal t_of_int (eq_sym Hadd))) | done | apply IH | rewrite B3].
    rewrite (sum_waited_perm _ _ _ _ (proj1 Hip _ _ _ _ Hpl)). cbn [sum_waited].
    rewrite <- (sum_waited_ext cs (<[c := setQueueInsertionTime now x]> cs)). 2: { intros e He'. rewrite lookup_insert_ne; [done | by intros ->]. }
    unfold waited. rewrite lookup_insert_eq. rewrite exact_one. cbn. ring.
  - destruct (life_queued _ _ _ _ _ Hl) as [Hq0 Hd0]. pose proof (life_bound _ _ _ _ _ Hl). cbn in *.
    destruct (dequeue_queued now c xs cs q Hq0) as (d & x & He2 & Hx & _ & _). rewrite He in He2. injection He2 as ->.
    specialize (IH (conj Hq0 Hd0) ltac:(lia)). pose proof (queued_pop _ _ _ Hq0) as Hp. cbn in Hp.
    assert (int_add (Queue.pop q) (-1) = Queue.pop q + -1) as Hadd by (unfold int_add; apply wrap_id; lia).
    destruct (books_population f cs (Queue.set_discipline d q) (c :: xs) t now (-1)) as (B1 & B2 & B3);
      [by destruct IH; split | cbn; rewrite Hadd; lia | done|].
    split; [exact (eq_trans B1 (f_equal t_of_int (eq_sym Hadd))) | done | apply IH | cbn in B3 |- *; rewrite B3].
    rewrite (books_times _ _ _ _ _ IH). cbn. unfold waited. rewrite Hx.
    assert (t_of_int (-1) = t_opp t_one :> T) as ->; [|ring].
    pose proof (exact_of_int 1 (-1)) as E. rewrite exact_one in E. change (1 + -1) with 0 in E. rewrite of_int_zero in E.
    transitivity (t_sub (t_add t_one (t_of_int (-1))) t_one); [ring | rewrite <- E; ring].
  - destruct (IH (life_queued _ _ _ _ _ Hl) Hn) as [B1 B2 B3 B4]. split; [done..|]. rewrite B4. f_equal. by apply sum_waited_ext.
  - destruct (IH (life_queued _ _ _ _ _ Hl) Hn) as [B1 B2 B3 B4]. split; [done..|]. cbn. rewrite B2, B3. cbn.
    transitivity (t_sub (t_add f (t_add (moment (measure (Queue.popMeasure q)) 1%nat)
      (t_mul (current (Queue.popMeasure q)) (t_sub t (lastChange (Queue.popMeasure q)))))) (moment (Queue.queueingTime q) 1%nat)); [ring|].
    rewrite B4. ring.
Qed.

(** C31. Little's law, as the measures of a queue keep it: at any time of a life
    without resets, where [forgotten] is zero, the area under the population
    curve is the sum of the waiting times of those who left and those who still
    wait.  Every reset of the measures breaks it by what it forgets: the area
    so far less the waiting times of those who left, part of which belongs to
    those who still wait.  (Up to 2^24 calls, while [float] counts the
    population exactly, and in exact arithmetic, [ExactTime]: the times of the
    program are [double]s, which round.) *)
Theorem littles_law n forgotten cs q xs t : life n forgotten cs q xs -> Z.of_nat n <= 2 ^ 24 ->
  let m := q.(Queue.popMeasure) in
  t_add forgotten (t_add (m.(measure).(moment) 1%nat) (t_mul (t_of_int q.(Queue.pop)) (t_sub t m.(lastChange)))) =
  t_add (q.(Queue.queueingTime).(moment) 1%nat) (sum_waited cs t xs).
Proof.
  intros Hlife Hn. cbn zeta. destruct (life_books n forgotten cs q xs t Hlife Hn) as [<- _ _ Hb]. exact Hb.
Qed.

End theorems.

(** Two customers wait while a third has been served: times 0, 4 and 10. *)
Section witness_times.
Definition plain (type priority : Z) : Customer Z := mkCustomer type priority 0 0 0 false None ByClass.
Definition three : Customers Z := <[1%nat := plain 0 2]> (<[2%nat := plain 0 0]> (<[3%nat := plain 0 2]> ∅)).
Definition priorities : PriorityQueue := new_PriorityQueue 3.
Definition three_calls : list (call Z) := [Enqueue 1 1%nat; Enqueue 2 2%nat; Enqueue 4 3%nat; Dequeue 5; Dequeue 7; Head].

Lemma levels_new {T} `{SimTime T} n (cs : Customers T) i : levels cs i (replicate n (Queue.new_Queue (mkFIFO LinkedList.new_List))) [].
Proof.
  revert i. induction n as [|n IH]; intros i; [done|]. exists [], []. split; [done|]. split; [|apply IH].
  split; [apply new_holds|]. split; [done|]. split; [done | by apply Forall_nil].
Qed.

Lemma priorities_new cs : waiting (T:=Z) cs priorities [].
Proof. apply levels_new. Qed.

(** Customer 2 has the highest priority; 1 and 3 leave in the order of arrival. *)
Lemma queue_refines_witness : exists r, behaves 3 three [] three_calls r /\
  match r with Ok (outs, _) => outs = [None; None; None; Some 2%nat; Some 1%nat; Some 3%nat] | Err _ => False end.
Proof.
  destruct (queue_refines 3 priorities three three_calls (priorities_new three) ltac:(unfold Queue.INT_MAX; lia)) as (r & Hr & Hd).
  { intros k c Hk He. unfold three_calls in Hk. unfold accepts, Priority_laws.
    repeat (apply elem_of_cons in Hk as [->|Hk]; [cbn in He; simplify_eq; (split; [by eexists | eexists; split; [reflexivity | cbn; lia]])|]).
    by apply not_elem_of_nil in Hk. }
  exists r. split; [exact Hr|]. revert Hd.
  assert (match call_all three_calls three (Queue.new_Queue_of 3 priorities) with
    | Ok (outs, _) => outs = [None; None; None; Some 2%nat; Some 1%nat; Some 3%nat] | Err _ => False end) as Ho by (vm_compute; reflexivity).
  revert Ho. generalize (call_all three_calls three (Queue.new_Queue_of 3 priorities)). clear.
  intros [[outs [cs q]]|e] Ho Hd; [|done]. destruct r as [[outs' [cs' xs]]|e]; [|done]. destruct Hd as (<- & _). exact Ho.
Defined.

(** 1 waits from 0 to 7 and 2 from 4 on: by 10, they have waited 7 and 6. *)
Definition two_in_turn : list (call Z) := [Enqueue 0 1%nat; Enqueue 4 2%nat; Dequeue 7].

Lemma littles_law_witness : exists cs q, let m := q.(Queue.popMeasure) in
  call_all two_in_turn three (Queue.new_Queue (mkFIFO LinkedList.new_List)) = Ok ([None; None; Some 1%nat], (cs, q)) /\
  moment (measure m) 1%nat + q.(Queue.pop) * (10 - lastChange m) = 7 + 6.
Proof.
  assert (life 0 t_zero three (Queue.new_Queue (mkFIFO LinkedList.new_List)) []) as L0.
  { apply (life_new three Queue.INT_MAX); [apply new_holds | unfold Queue.INT_MAX; lia]. }
  destruct (enqueue_queued _ _ 0 1%nat (plain 0 2) three _ [] (at_tail_inserts (Q:=FIFOQueue)) (proj1 (life_queued _ _ _ _ _ L0)) I eq_refl)
    as (d1 & xs1 & H1 & P1 & Q1 & _); [cbn; unfold Queue.INT_MAX; lia|].
  pose proof (life_enter _ _ _ _ _ _ _ _ _ _ _ _ L0 (at_tail_inserts (Q:=FIFOQueue)) I (not_elem_of_nil _) H1 P1 Q1) as L1.
  cbn in P1. subst xs1.
  destruct (enqueue_queued _ _ 4 2%nat (plain 0 0) _ _ _ (at_tail_inserts (Q:=FIFOQueue)) Q1 I eq_refl) as (d2 & xs2 & H2 & P2 & Q2 & _);
    [cbn; unfold Queue.INT_MAX; lia|].
  assert (2%nat ∉ [1%nat]) as N2 by set_solver.
  pose proof (life_enter _ _ _ _ _ _ _ _ _ _ _ _ L1 (at_tail_inserts (Q:=FIFOQueue)) I N2 H2 P2 Q2) as L2.
  cbn in P2. subst xs2.
  destruct (dequeue_queued 7 1%nat [2%nat] _ _ Q2) as (d3 & c & H3 & Hc & _ & _).
  pose proof (life_leave _ _ _ _ _ _ _ _ L2 H3) as L3.
  pose proof (littles_law _ _ _ _ _ 10 L3 ltac:(lia)) as Hlaw. cbn zeta in Hlaw.
  do 2 eexists. cbn zeta. split.
  - cbn [call_all two_in_turn call_queue]. unfold Queue.enqueue. rewrite H1. cbn [mbind res_bind]. rewrite H2. cbn [mbind res_bind].
    rewrite H3. cbn [mbind res_bind]. reflexivity.
  - etransitivity; [exact Hlaw|]. vm_compute in Hc. injection Hc as <-. vm_compute. reflexivity.
Defined.
End witness_times.

(** Resetting the measures after the warm-up does not move the time of the
    last change: the next change of the value counts its whole past as if it
    had passed after the reset.  The mean that is reported is too large by what
    passed before. *)
Theorem warm_up_is_counted {T} `{ExactTime T} (m : SystemMeasure T) reset now x : (1 <= (measure m).(moments))%nat ->
  let m' := SystemMeasure_add now x (SystemMeasure_resetMeasures reset m) in
  SystemMeasure_mean now m' =
    t_div (t_add (t_mul (current m) (t_sub now reset)) (t_mul (current m) (t_sub reset (lastChange m)))) (t_sub now reset).
Proof.
  intros Hm. unfold SystemMeasure_mean. cbn. destruct (moments (measure m)) as [|k]; [lia|]. cbn. f_equal.
  pose proof exact_ring as R. rewrite (Radd_0_l R), (Rmul_1_l R). rewrite <- !(Rmul_comm R (t_sub _ _)), <- (Rdistr_l R). f_equal.
  rewrite !(Rsub_def R). rewrite <- (Radd_assoc R). f_equal. rewrite (Radd_assoc R), (Radd_comm R (t_opp reset) reset), (Ropp_def R).
  by rewrite (Radd_0_l R).
Qed.

(** A server busy since 0, measured from 10 to 11: it was busy eleven times. *)
Lemma warm_up_is_counted_witness :
  let busy := SystemMeasure_add 0 1 new_SystemMeasure in
  SystemMeasure_mean 11 (SystemMeasure_add 11 0 (SystemMeasure_resetMeasures 10 busy)) = 11.
Proof. etransitivity; [apply (warm_up_is_counted (SystemMeasure_add 0 1 new_SystemMeasure) 10 11 0); cbn; lia | reflexivity]. Defined.

(** [rand()] may return [RAND_MAX]: the index is then one behind the end. *)
Lemma random_index_max : forallb (fun n => random_index RAND_MAX (Z.of_nat n) =? Z.of_nat n + 1) (seq 0 1000) = true.
Proof. vm_compute. done. Qed.

(** When [rand] returns the largest number that it may return, the random
    queue follows a null pointer: with any number of customers below a thousand. *)
Theorem random_queue_crashes {T} `{SimTime T} now c x cs (q : Queue.Queue T RandomQueue) xs :
  queued cs q xs -> (length xs < 1000)%nat -> Z.of_nat (length xs) < q.(Queue.capacity) -> cs !! c = Some x ->
  q.(Queue.discipline).(rands) q.(Queue.discipline).(draws) = RAND_MAX ->
  Queue.enqueue now c cs q = Err NullDereference.
Proof.
  intros [Hw Hp Hc Hi] Hlen Hcap Hx Hr. unfold Queue.enqueue, Queue.enqueue_with, Queue.canAccept. rewrite Hp.
  destruct (Z.ltb_spec (Z.of_nat (length xs)) (Queue.capacity q)); [|lia]. cbn [guard_assert mbind res_bind].
  unfold get. rewrite Hx. cbn [mbind res_bind insertIntoQueue Random_discipline]. rewrite Hr.
  assert (random_index RAND_MAX (Z.of_nat (length xs)) = Z.of_nat (length xs) + 1) as ->.
  { pose proof random_index_max as H1. rewrite forallb_forall in H1. apply Z.eqb_eq, H1, in_seq. lia. }
  pose proof (insertAfter_holds (Z.to_nat (Z.of_nat (length xs) + 1)) c _ _ Hw) as H1.
  destruct (Nat.leb_spec (Z.to_nat (Z.of_nat (length xs) + 1)) (length xs)); [lia|]. by rewrite H1.
Qed.

Lemma random_queue_crashes_witness :
  Queue.enqueue 0 1%nat three (Queue.new_Queue (mkRandom LinkedList.new_List (fun _ => RAND_MAX) 0)) = Err NullDereference.
Proof.
  apply (random_queue_crashes 0 1%nat (plain 0 2) three (Queue.new_Queue (mkRandom LinkedList.new_List (fun _ => RAND_MAX) 0)) []);
    [split; cbn; [apply new_holds | done | unfold Queue.INT_MAX; lia | by intros x ?%not_elem_of_nil] | cbn; lia | vm_compute; done | done | done].
Defined.
