(* ===== verification/CinqsSim.v ===== *)
(** * The simulator of cinqs

    src/src/cinqs: the diary of events and the loop of Sim (tools/Sim, Diary,
    Event), resources (tools/Resource), and the nodes of a network
    (network/Node, Link, ClassDependentBranch, Sink, InfiniteServerNode,
    ResourcePool, QueueingNode, PreemptiveResumeNode, PreemptiveRestartNode,
    NullNode).  A program is one value [Sim]; nodes, customers and events are
    found by their addresses.  Samples of service times are a sequence that the
    random number generators decide.  Sources, which inject customers by
    events of their own, and the logging of results are left out; the node that
    shares its server is in [ProcessorSharing]. *)
From S2P Require Import Prelude CxxFloat LinkedList CinqsQueue.
Import Customer Measure.

(** ** Resource *)
Module Resource.
Section resource.
Context {T : Type} `{SimTime T}.

Record Resource := mkResource { resources : Z; nresources : Z; resourceCount : SystemMeasure T }.

Definition new_Resource (n : Z) : Resource := mkResource n n new_SystemMeasure.

Definition resourceIsAvailable (r : Resource) : bool := 0 <? r.(resources).
Definition numberOfAvailableResources (r : Resource) : Z := r.(resources).

Definition set_resources (now : T) (n : Z) (r : Resource) : Resource :=
  mkResource n r.(nresources) (SystemMeasure_add now (t_of_float (int_sub r.(nresources) n)) r.(resourceCount)).

Definition claim (now : T) (r : Resource) : res Resource :=
  _ ← guard_assert (resourceIsAvailable r); Ok (set_resources now (int_sub r.(resources) 1) r).

Definition release (now : T) (r : Resource) : res Resource :=
  _ ← guard_assert (r.(resources) <? r.(nresources)); Ok (set_resources now (int_add r.(resources) 1) r).

Definition utilisation (now : T) (r : Resource) : T := t_div (SystemMeasure_mean now r.(resourceCount)) (t_of_int r.(nresources)).

Definition resetMeasures (now : T) (r : Resource) : Resource :=
  mkResource r.(resources) r.(nresources) (SystemMeasure_resetMeasures now r.(resourceCount)).

End resource.
Arguments Resource : clear implicits.
End Resource.

Module Sim.
Section sim.
Context {T Q : Type} `{Discipline T Q}.

(** ** Nodes

    Where the link of a node leads: to a node, by the class of the customer, or
    nowhere, [Link::earth], the link of a node that was given none. *)
Inductive Link := LinkTo (n : nat) | ClassDependentBranch (classes : list Z) (nodes : list nat) | Earth.

(** [ResourcePool] keeps the resource when the customer leaves, [QueueingNode]
    releases it; a preemptive node is a queueing node whose arrivals displace
    the customer in service, which resumes with the time that was left or
    starts again. *)
Inductive pool_class := ResourcePool | QueueingNode | PreemptiveResumeNode | PreemptiveRestartNode.

Record Pool := mkPool {
  pool_type : pool_class;
  queue : Queue.Queue T Q;
  resources : Resource.Resource T;
  losses : Z;
  lossNode : nat;
}.

Inductive node_class := CinqsNode | Sink | NullNode | InfiniteServerNode | PoolNode (p : Pool).

Record Node := mkNode { class : node_class; link : Link; arrivals : Z; lastEndServiceEvent : option nat }.

Definition set_class (c : node_class) (n : Node) : Node := mkNode c n.(link) n.(arrivals) n.(lastEndServiceEvent).
Definition set_arrivals (a : Z) (n : Node) : Node := mkNode n.(class) n.(link) a n.(lastEndServiceEvent).
Definition set_lastEndServiceEvent (e : option nat) (n : Node) : Node := mkNode n.(class) n.(link) n.(arrivals) e.
Definition set_queue (q : Queue.Queue T Q) (p : Pool) : Pool := mkPool p.(pool_type) q p.(resources) p.(losses) p.(lossNode).
Definition set_pool_resources (r : Resource.Resource T) (p : Pool) : Pool := mkPool p.(pool_type) p.(queue) r p.(losses) p.(lossNode).
Definition set_losses (l : Z) (p : Pool) : Pool := mkPool p.(pool_type) p.(queue) p.(resources) l p.(lossNode).

(** EndServiceEvent. *)
Record Event := mkEvent { invokeTime : T; customer : Object; node : nat }.

Record Sim := mkSim {
  vtime : T;
  diary : LinkedList.List;
  events : gmap nat Event;
  nextId : nat;
  customers : Customers T;
  nodes : gmap nat Node;
  completions : Z;
  responseTime : Measure T;
  draws : nat;
}.

Definition set_vtime (t : T) (s : Sim) : Sim :=
  mkSim t s.(diary) s.(events) s.(nextId) s.(customers) s.(nodes) s.(completions) s.(responseTime) s.(draws).
Definition set_diary (d : LinkedList.List) (s : Sim) : Sim :=
  mkSim s.(vtime) d s.(events) s.(nextId) s.(customers) s.(nodes) s.(completions) s.(responseTime) s.(draws).
Definition set_events (e : gmap nat Event) (s : Sim) : Sim :=
  mkSim s.(vtime) s.(diary) e s.(nextId) s.(customers) s.(nodes) s.(completions) s.(responseTime) s.(draws).
Definition set_nextId (i : nat) (s : Sim) : Sim :=
  mkSim s.(vtime) s.(diary) s.(events) i s.(customers) s.(nodes) s.(completions) s.(responseTime) s.(draws).
Definition set_customers (c : Customers T) (s : Sim) : Sim :=
  mkSim s.(vtime) s.(diary) s.(events) s.(nextId) c s.(nodes) s.(completions) s.(responseTime) s.(draws).
Definition set_nodes (n : gmap nat Node) (s : Sim) : Sim :=
  mkSim s.(vtime) s.(diary) s.(events) s.(nextId) s.(customers) n s.(completions) s.(responseTime) s.(draws).
Definition set_draws (d : nat) (s : Sim) : Sim :=
  mkSim s.(vtime) s.(diary) s.(events) s.(nextId) s.(customers) s.(nodes) s.(completions) s.(responseTime) d.

(** [n->...]. *)
Definition get_node (n : nat) (s : Sim) : res Node :=
  match s.(nodes) !! n with Some x => Ok x | None => Err OutOfBounds end.
Definition put_node (n : nat) (x : Node) (s : Sim) : Sim := set_nodes (<[n := x]> s.(nodes)) s.
Definition put_pool (n : nat) (p : Pool) (s : Sim) : Sim :=
  set_nodes (alter (set_class (PoolNode p)) n s.(nodes)) s.
Definition put_customer (c : Object) (x : Customer T) (s : Sim) : Sim := set_customers (<[c := x]> s.(customers)) s.

(** ** The diary *)
Definition event_time (s : Sim) (e : nat) : res T :=
  match s.(events) !! e with Some x => Ok x.(invokeTime) | None => Err OutOfBounds end.

Definition before (s : Sim) (x y : nat) : res bool := tx ← event_time s x; ty ← event_time s y; Ok (t_leb tx ty).

Definition schedule (e : nat) (s : Sim) : res Sim :=
  d ← LinkedList.insertInOrder (before s) e s.(diary); Ok (set_diary d s).

Definition deschedule (e : nat) (s : Sim) : res Sim :=
  d ← LinkedList.remove e s.(diary); Ok (set_diary d s).

(** ** Service

    The samples of service times, in the order in which they are drawn. *)
Context (sample : nat -> T).

(** [InfiniteServerNode::invokeService]. *)
Definition invokeService (n : nat) (c : Object) (s : Sim) : res Sim :=
  x ← get c s.(customers);
  let e := s.(nextId) in
  let s := set_events (<[e := mkEvent (t_add s.(vtime) x.(serviceDemand)) c n]> s.(events)) (set_nextId (S e) s) in
  node ← get_node n s;
  schedule e (put_node n (set_lastEndServiceEvent (Some e) node) s).

(** [ResourcePool::releaseResource]. *)
Definition releaseResource (n : nat) (p : Pool) (s : Sim) : res Sim :=
  if negb (Queue.isEmpty p.(queue)) then
    '(c, q) ← Queue.dequeue s.(vtime) s.(customers) p.(queue);
    invokeService n c (put_pool n (set_queue q p) s)
  else
    r ← Resource.release s.(vtime) p.(resources);
    Ok (put_pool n (set_pool_resources r p) s).

(** Where the link sends a customer; neither [Link::earth] nor a branch that
    falls back on the null node knows the network. *)
Definition next_node (l : Link) (c : Object) (s : Sim) : res nat :=
  match l with
  | LinkTo n => Ok n
  | Earth => Err OutOfBounds
  | ClassDependentBranch classes ns =>
    x ← get c s.(customers);
    match list_find (fun k => k = x.(type)) classes with
    | Some (i, _) => match ns !! i with Some n => Ok n | None => Err OutOfBounds end
    | None => Err OutOfBounds
    end
  end.

(** [Sink::accept]; customers of cinqs are never finished, and are deleted. *)
Definition complete (c : Object) (s : Sim) : res Sim :=
  x ← get c s.(customers);
  let s := mkSim s.(vtime) s.(diary) s.(events) s.(nextId) s.(customers) s.(nodes) (int_add s.(completions) 1)
    (CustomerMeasure_add (t_sub s.(vtime) x.(arrivalTime)) s.(responseTime)) s.(draws) in
  Ok (if x.(finished) then s else set_customers (delete c s.(customers)) s).

(** The time that is left of a preempted service. *)
Definition remainingServiceTime (resume : bool) (e : Event) (x : Customer T) (s : Sim) : T :=
  if resume then t_sub e.(invokeTime) s.(vtime) else x.(serviceDemand).

(** [PreemptiveResumeNode::accept] on a busy server. *)
Definition preempt (resume : bool) (n : nat) (s : Sim) : res Sim :=
  nd ← get_node n s;
  match nd.(lastEndServiceEvent), nd.(class) with
  | Some e, PoolNode p =>
    s ← deschedule e s;
    match s.(events) !! e with
    | None => Err OutOfBounds
    | Some ev =>
      x ← get ev.(customer) s.(customers);
      let s := put_customer ev.(customer) (setServiceDemand (remainingServiceTime resume ev x s) x) s in
      '(cs, q) ← Queue.enqueueAtHead s.(vtime) ev.(customer) s.(customers) p.(queue);
      Ok (put_pool n (set_queue q p) (set_customers cs s))
    end
  | _, _ => Err NullDereference
  end.

Section entering.
(** The virtual [enter] of other nodes. *)
Context (enter : nat -> Object -> Sim -> res Sim).

(** [CinqsNode::forward], by the link. *)
Definition move (n : nat) (c : Object) (s : Sim) : res Sim :=
  nd ← get_node n s; m ← next_node nd.(link) c s; enter m c s.

Definition forward (n : nat) (c : Object) (s : Sim) : res Sim :=
  s ← move n c s;
  nd ← get_node n s;
  match nd.(class) with
  | PoolNode p => match p.(pool_type) with ResourcePool => Ok s | _ => releaseResource n p s end
  | _ => Ok s
  end.

(** [ResourcePool::accept]. *)
Definition accept_pool (n : nat) (p : Pool) (c : Object) (s : Sim) : res Sim :=
  if Resource.resourceIsAvailable p.(resources) then
    r ← Resource.claim s.(vtime) p.(resources);
    invokeService n c (put_pool n (set_pool_resources r p) s)
  else if Queue.canAccept p.(queue) then
    '(cs, q) ← Queue.enqueue s.(vtime) c s.(customers) p.(queue);
    Ok (put_pool n (set_queue q p) (set_customers cs s))
  else
    let s := put_pool n (set_losses (int_add p.(losses) 1) p) s in
    enter p.(lossNode) c s.

(** [PreemptiveResumeNode::accept]. *)
Definition accept_preemptive (resume : bool) (n : nat) (p : Pool) (c : Object) (s : Sim) : res Sim :=
  s ← (if Resource.resourceIsAvailable p.(resources) then
         r ← Resource.claim s.(vtime) p.(resources); Ok (put_pool n (set_pool_resources r p) s)
       else preempt resume n s);
  invokeService n c s.

(** The virtual [accept]. *)
Definition accept (n : nat) (c : Object) (s : Sim) : res Sim :=
  nd ← get_node n s;
  match nd.(class) with
  | CinqsNode => forward n c s
  | Sink => complete c s
  | NullNode => Ok s
  | InfiniteServerNode => invokeService n c s
  | PoolNode p =>
    match p.(pool_type) with
    | ResourcePool | QueueingNode => accept_pool n p c s
    | PreemptiveResumeNode => accept_preemptive true n p c s
    | PreemptiveRestartNode => accept_preemptive false n p c s
    end
  end.

(** [CinqsNode::enter]. *)
Definition enter_base (n : nat) (c : Object) (s : Sim) : res Sim :=
  nd ← get_node n s;
  x ← get c s.(customers);
  let s := put_node n (set_arrivals (int_add nd.(arrivals) 1) nd) s in
  accept n c (put_customer c (setLocation (Some n) x) s).

End entering.

(** The virtual [enter]: the null node does nothing, nodes with service draw
    its time.  A customer that passes through nodes without service or is lost
    enters the next one at once: the fuel bounds how many it passes. *)
Fixpoint enter (fuel : nat) (n : nat) (c : Object) (s : Sim) : res Sim :=
  match fuel with
  | O => Err OutOfFuel
  | S fuel =>
    nd ← get_node n s;
    match nd.(class) with
    | NullNode => Ok s
    | InfiniteServerNode | PoolNode _ =>
      x ← get c s.(customers);
      let s := put_customer c (setServiceDemand (sample s.(draws)) x) (set_draws (S s.(draws)) s) in
      enter_base (enter fuel) n c s
    | CinqsNode | Sink => enter_base (enter fuel) n c s
    end
  end.

(** ** The loop *)
Context (stop : Sim -> bool) (depth : nat).

(** One turn of [Sim::go]: the event is deleted when it has been invoked. *)
Definition turn (s : Sim) : res Sim :=
  '(e, d) ← LinkedList.removeFromFront s.(diary);
  let s := set_diary d s in
  match s.(events) !! e with
  | None => Err OutOfBounds
  | Some ev =>
    let s := set_vtime ev.(invokeTime) s in
    s ← (if stop s then Ok s else forward (enter depth) ev.(node) ev.(customer) s);
    Ok (set_events (delete e s.(events)) s)
  end.

Fixpoint go (fuel : nat) (s : Sim) : res Sim :=
  match fuel with
  | O => Err OutOfFuel
  | S fuel =>
    if negb (LinkedList.isEmpty s.(diary)) && negb (stop s) then s ← turn s; go fuel s else Ok s
  end.

End sim.
Arguments Node : clear implicits.
Arguments Sim : clear implicits.
Arguments Event : clear implicits.
Arguments Pool : clear implicits.
Arguments node_class : clear implicits.
End Sim.
