(* ===== verification/ProcessorSharing.v ===== *)
(** * A processor-sharing node of cinqs

    src/src/cinqs/network/ProcessorSharingNode: one server that all customers
    share.  The node keeps a virtual time of its own, which passes more slowly
    the more customers there are, and the time of it at which each customer
    will be served.  The theorem: this is the service in which each of [n]
    customers gets the [n]-th part of the time.

    The node stands alone: where its link leads is the argument [forward], and
    of the diary there are its own events.  A [double] population is exact,
    but times are taken to be exact too ([FieldTime]), where the program's
    [double]s round. *)
From Stdlib Require Import Ring QArith Qcanon Sorted.
From S2P Require Import Prelude CxxFloat LinkedList CinqsQueue CinqsSim.
Import Customer Measure Disciplines.

#[local] Open Scope Z_scope.

(** ** Times that can be divided

    [field_share]: a product is compared as its factor. *)
Class FieldTime (T : Type) `{ExactTime T} := {
  field_div a n : 0 < n -> t_mul (t_div a (t_of_int n)) (t_of_int n) = a;
  field_mul a n : 0 < n -> t_div (t_mul a (t_of_int n)) (t_of_int n) = a;
  field_sub a b : t_leb a b = t_leb t_zero (t_sub b a);
  field_share a b n : 0 < n -> t_leb a (t_mul b (t_of_int n)) = t_leb (t_div a (t_of_int n)) b;
}.

(** The rational numbers. *)
#[export] Instance Qc_time : SimTime Qc := {|
  t_zero := 0%Qc; t_one := 1%Qc; t_add := Qcplus; t_sub := Qcminus; t_mul := Qcmult; t_opp := Qcopp; t_div := Qcdiv;
  t_leb := fun a b => Qle_bool a b; t_of_int := fun z => Q2Qc (inject_Z z); t_of_float := fun z => Q2Qc (inject_Z z)
|}.

Lemma Qc_leb (a b : Qc) : t_leb a b = true <-> (a <= b)%Qc.
Proof. apply Qle_bool_iff. Qed.

Lemma Qc_of_int_pos n : 0 < n -> (0 < Q2Qc (inject_Z n))%Qc.
Proof.
  intros Hn. unfold Qclt. cbn [this Q2Qc]. rewrite !Qred_correct. unfold Qlt, inject_Z. cbn. lia.
Qed.

#[export] Instance Qc_exact : ExactTime Qc.
Proof.
  split.
  - exact Qcrt.
  - intros a b. cbn [t_of_int t_add Qc_time]. apply Qc_is_canon. unfold Qcplus. cbn [this Q2Qc]. by rewrite !Qred_correct, inject_Z_plus.
  - by apply Qc_is_canon.
  - done.
  - intros a b. destruct (Qclt_le_dec a b); [left|right]; apply Qc_leb; [by apply Qclt_le_weak|done].
  - intros a b c H1%Qc_leb H2%Qc_leb. apply Qc_leb. by eapply Qcle_trans.
  - intros a b Hb%Qc_leb. apply Qc_leb. change (a <= a + b)%Qc. rewrite <- (Qcplus_0_r a) at 1. by apply Qcplus_le_compat; [apply Qcle_refl|].
Qed.

Lemma Qc_leb_eq (a b c d : Qc) : ((a <= b)%Qc <-> (c <= d)%Qc) -> t_leb a b = t_leb c d.
Proof.
  intros Hi. destruct (t_leb a b) eqn:E1, (t_leb c d) eqn:E2; try done.
  - apply Qc_leb, Hi, Qc_leb in E1. congruence.
  - apply Qc_leb, Hi, Qc_leb in E2. congruence.
Qed.

Lemma Qc_of_int_nonzero n : 0 < n -> Q2Qc (inject_Z n) <> 0%Qc.
Proof. intros Hn E. by apply (Qclt_not_eq _ _ (Qc_of_int_pos n Hn)). Qed.

#[export] Instance Qc_field : FieldTime Qc.
Proof.
  split.
  - intros a n Hn. cbn [t_of_int t_mul t_div Qc_time]. rewrite Qcmult_comm. by apply Qcmult_div_r, Qc_of_int_nonzero.
  - intros a n Hn. cbn [t_of_int t_mul t_div Qc_time]. by apply Qcdiv_mult_l, Qc_of_int_nonzero.
  - intros a b. apply Qc_leb_eq. cbn [t_zero t_sub Qc_time]. apply Qcle_minus_iff.
  - intros a b n Hn. apply Qc_leb_eq. cbn [t_of_int t_mul t_div Qc_time]. pose proof (Qc_of_int_pos n Hn) as Hpos.
    assert (Q2Qc (inject_Z n) * (a / Q2Qc (inject_Z n)) = a)%Qc as Ha by by apply Qcmult_div_r, Qc_of_int_nonzero.
    split; intros Hle.
    + apply (Qcmult_lt_0_le_reg_r _ _ _ Hpos). by rewrite (Qcmult_comm (a / _)), Ha.
    + rewrite <- Ha, Qcmult_comm. apply Qcmult_le_compat_r; [done|]. by apply Qclt_le_weak.
Qed.

Module ProcessorSharing.
Section node.
Context {T : Type} `{SimTime T}.

Record ProcessorSharingNode := mkPSNode {
  queue : Queue.Queue T OrderedQueue;
  resources : Resource.Resource T;
  losses : Z;
  vtime : T;
  timeOfLastSchedule : T;
  nextEndServiceEvent : option nat;
  scheduled : gmap nat T;
  customers : Customers T;
  nextId : nat;
}.

Definition new_ProcessorSharingNode : ProcessorSharingNode :=
  mkPSNode (Queue.new_Queue (mkOrdered LinkedList.new_List)) (Resource.new_Resource 1) 0 t_zero t_zero None ∅ ∅ 0.

Definition set_queue (q : Queue.Queue T OrderedQueue) (cs : Customers T) (s : ProcessorSharingNode) : ProcessorSharingNode :=
  mkPSNode q s.(resources) s.(losses) s.(vtime) s.(timeOfLastSchedule) s.(nextEndServiceEvent) s.(scheduled) cs s.(nextId).
Definition set_resources (r : Resource.Resource T) (s : ProcessorSharingNode) : ProcessorSharingNode :=
  mkPSNode s.(queue) r s.(losses) s.(vtime) s.(timeOfLastSchedule) s.(nextEndServiceEvent) s.(scheduled) s.(customers) s.(nextId).
Definition set_scheduled (d : gmap nat T) (s : ProcessorSharingNode) : ProcessorSharingNode :=
  mkPSNode s.(queue) s.(resources) s.(losses) s.(vtime) s.(timeOfLastSchedule) s.(nextEndServiceEvent) d s.(customers) s.(nextId).
Definition set_vtime (v : T) (s : ProcessorSharingNode) : ProcessorSharingNode :=
  mkPSNode s.(queue) s.(resources) s.(losses) v s.(timeOfLastSchedule) s.(nextEndServiceEvent) s.(scheduled) s.(customers) s.(nextId).

Definition queueLength (s : ProcessorSharingNode) : Z := s.(queue).(Queue.pop).

(** [vtime += (Sim::now() - timeOfLastSchedule) / queue->queueLength()]. *)
Definition pass_time (now : T) (s : ProcessorSharingNode) : ProcessorSharingNode :=
  set_vtime (t_add s.(vtime) (t_div (t_sub now s.(timeOfLastSchedule)) (t_of_int (queueLength s)))) s.

(** [Sim::deschedule]: the list follows a null pointer when it does not have
    the event (lemma [remove_absent] of [LinkedList]). *)
Definition deschedule (s : ProcessorSharingNode) : res ProcessorSharingNode :=
  match s.(nextEndServiceEvent) with
  | Some e => match s.(scheduled) !! e with
    | Some _ => Ok (set_scheduled (delete e s.(scheduled)) s)
    | None => Err NullDereference
    end
  | None => Err NullDereference
  end.

(** The customer and the finish time of an entry of the queue; another
    customer does not have them. *)
Definition entry_of (w : Object) (cs : Customers T) : res (Object * T) :=
  x ← get w cs; match x.(ordering) with OrderedQueueEntry c t => Ok (c, t) | ByClass => Err OutOfBounds end.

Definition serviceNextCustomer (now : T) (s : ProcessorSharingNode) : res ProcessorSharingNode :=
  w ← Queue.head s.(queue);
  '(_, time) ← entry_of w s.(customers);
  let completionTime := t_mul (t_sub time s.(vtime)) (t_of_int (queueLength s)) in
  let e := s.(nextId) in
  Ok (mkPSNode s.(queue) s.(resources) s.(losses) s.(vtime) now (Some e)
    (<[e := t_add now completionTime]> s.(scheduled)) s.(customers) (S e)).

Definition new_OrderedQueueEntry (now : T) (c : Object) (t : T) : Customer T :=
  mkCustomer 0 0 now t_zero t_zero false None (OrderedQueueEntry c t).

Definition accept (now : T) (c : Object) (serviceTime : T) (s : ProcessorSharingNode) : res ProcessorSharingNode :=
  if Queue.canAccept s.(queue) then
    s ← (if Resource.resourceIsAvailable s.(resources) then
           r ← Resource.claim now s.(resources); Ok (set_resources r s)
         else s ← deschedule s; Ok (pass_time now s));
    let w := s.(nextId) in
    '(cs, q) ← Queue.enqueue now w (<[w := new_OrderedQueueEntry now c (t_add s.(vtime) serviceTime)]> s.(customers)) s.(queue);
    let s := mkPSNode q s.(resources) s.(losses) s.(vtime) s.(timeOfLastSchedule) s.(nextEndServiceEvent) s.(scheduled) cs (S w) in
    serviceNextCustomer now s
  else
    Ok (mkPSNode s.(queue) s.(resources) (int_add s.(losses) 1) s.(vtime) s.(timeOfLastSchedule) s.(nextEndServiceEvent)
      s.(scheduled) s.(customers) s.(nextId)).

Definition releaseResource (s : ProcessorSharingNode) : res ProcessorSharingNode := Err AssertFailed.

(** The event is out of the diary when it is invoked. *)
Definition invoke (forward : T -> Object -> ProcessorSharingNode -> res ProcessorSharingNode) (now : T)
    (s : ProcessorSharingNode) : res (Object * ProcessorSharingNode) :=
  let s := pass_time now s in
  '(w, q) ← Queue.dequeue now s.(customers) s.(queue);
  let s := set_queue q s.(customers) s in
  '(c, _) ← entry_of w s.(customers);
  s ← forward now c s;
  s ← (if queueLength s =? 0 then r ← Resource.release now s.(resources); Ok (set_resources r s) else serviceNextCustomer now s);
  Ok (c, s).

(** ** The node in time

    What happens to it: arrivals with their service times, and its event. *)
Inductive happening := Arrive (t : T) (c : Object) (demand : T) | EndOfService.

Definition happen (forward : T -> Object -> ProcessorSharingNode -> res ProcessorSharingNode) (h : happening)
    (now : T) (s : ProcessorSharingNode) : res (list (Object * T) * (T * ProcessorSharingNode)) :=
  match h with
  | Arrive t c demand => s ← accept t c demand s; Ok ([], (t, s))
  | EndOfService =>
    match s.(nextEndServiceEvent) with
    | Some e => match s.(scheduled) !! e with
      | Some t => '(c, s) ← invoke forward t (set_scheduled (delete e s.(scheduled)) s); Ok ([(c, t)], (t, s))
      | None => Err OutOfBounds
      end
    | None => Err OutOfBounds
    end
  end.

Fixpoint happen_all forward (hs : list happening) (now : T) (s : ProcessorSharingNode) : res (list (Object * T) * (T * ProcessorSharingNode)) :=
  match hs with
  | [] => Ok ([], (now, s))
  | h :: hs =>
    '(o, (now, s)) ← happen forward h now s;
    '(os, r) ← happen_all forward hs now s;
    Ok (o ++ os, r)
  end.

(** Customers that leave the node for another one, or for good. *)
Definition elsewhere (now : T) (c : Object) (s : ProcessorSharingNode) : res ProcessorSharingNode := Ok s.

(** ** Sharing

    The customers with the service that each still needs, the least first.
    While [dt] passes each of [n] customers gets [dt / n]. *)
Definition serve (dt : T) (l : list (Object * T)) : list (Object * T) :=
  map (fun '(c, r) => (c, t_sub r (t_div dt (t_of_int (Z.of_nat (length l)))))) l.

Fixpoint insert (c : Object) (r : T) (l : list (Object * T)) : list (Object * T) :=
  match l with
  | [] => [(c, r)]
  | (c', r') :: l' => if t_leb r' r then (c', r') :: insert c r l' else (c, r) :: l
  end.

(** How long it takes until the first customer has been served. *)
Definition until_served (l : list (Object * T)) : T :=
  match l with [] => t_zero | (_, r) :: _ => t_mul r (t_of_int (Z.of_nat (length l))) end.

Definition share (h : happening) (now : T) (l : list (Object * T)) : option (list (Object * T) * (T * list (Object * T))) :=
  match h with
  | Arrive t c demand =>
    if t_leb now t && (bool_decide (l = []) || t_leb (t_sub t now) (until_served l)) && t_leb t_zero demand
    then Some ([], (t, insert c demand (serve (t_sub t now) l))) else None
  | EndOfService =>
    match l with
    | [] => None
    | (c, _) :: _ => let t := t_add now (until_served l) in Some ([(c, t)], (t, tail (serve (until_served l) l)))
    end
  end.

Fixpoint share_all (hs : list happening) (now : T) (l : list (Object * T)) : option (list (Object * T) * (T * list (Object * T))) :=
  match hs with
  | [] => Some ([], (now, l))
  | h :: hs =>
    match share h now l with
    | Some (o, (now, l)) => match share_all hs now l with Some (os, r) => Some (o ++ os, r) | None => None end
    | None => None
    end
  end.
End node.
Arguments ProcessorSharingNode : clear implicits.
Arguments happening : clear implicits.

(** ** The node shares its server *)
Section refinement.
Context {T : Type} `{FieldTime T}.
Add Ring time_ring : exact_ring.
#[local] Instance entries_laws : DisciplineLaws T OrderedQueue := Ordered_laws true.

(** The entry [w] is that of a customer that still needs some service at the
    virtual time [v]. *)
Definition finishes (v : T) (cs : Customers T) (w : Object) (p : Object * T) : Prop :=
  exists x t, cs !! w = Some x /\ x.(ordering) = OrderedQueueEntry p.1 t /\ p.2 = t_sub t v.

(** The node serves the customers of [l]; [full]: its server is taken. *)
Record serving (full : bool) (s : ProcessorSharingNode T) (l : list (Object * T)) : Prop := {
  sv_queue : exists ws, queued s.(customers) s.(queue) ws /\ Forall2 (finishes s.(vtime) s.(customers)) ws l;
  sv_capacity : s.(queue).(Queue.capacity) = Queue.INT_MAX;
  sv_fresh w : is_Some (s.(customers) !! w) -> (w < s.(nextId))%nat;
  sv_resources : s.(resources).(Resource.resources) = (if full then 0 else 1) /\ s.(resources).(Resource.nresources) = 1;
}.

(** At [now] between two happenings. *)
Definition shares (now : T) (s : ProcessorSharingNode T) (l : list (Object * T)) : Prop :=
  serving (negb (bool_decide (l = []))) s l /\
  match l with
  | [] => s.(scheduled) = ∅
  | _ => s.(timeOfLastSchedule) = now /\ exists e, s.(nextEndServiceEvent) = Some e /\ s.(scheduled) = {[ e := t_add now (until_served l) ]}
  end.

Lemma serving_length b s l : serving b s l -> queueLength s = Z.of_nat (length l).
Proof. intros [(ws & Hq & Hl) _ _ _]. unfold queueLength. rewrite (queued_pop _ _ _ Hq). f_equal. by apply Forall2_length in Hl. Qed.

Lemma serve_length dt (l : list (Object * T)) : length (serve dt l) = length l.
Proof. apply length_map. Qed.

Lemma finishes_later v dt cs ws l n : n = Z.of_nat (length l) -> Forall2 (finishes v cs) ws l ->
  Forall2 (finishes (t_add v (t_div dt (t_of_int n))) cs) ws (serve dt l).
Proof.
  intros -> Hl. unfold serve. generalize (t_div dt (t_of_int (Z.of_nat (length l)))). intros d.
  induction Hl as [|w [c r] ws l (x & t & Hx & Ho & Hr) Hl IH]; cbn; constructor; [|done].
  exists x, t. cbn in *. split_and!; [done|done|]. rewrite Hr. ring.
Qed.

(** Time passes for a busy node. *)
Lemma pass_time_serving b t now s l : serving b s l -> s.(timeOfLastSchedule) = now -> serving b (pass_time t s) (serve (t_sub t now) l).
Proof.
  intros Hs Ht. pose proof (serving_length _ _ _ Hs) as Hlen. destruct Hs as [(ws & Hq & Hl) Hc Hf Hr]. split; [|done..].
  exists ws. split; [done|]. cbn [vtime customers pass_time set_vtime]. rewrite Ht. by apply finishes_later.
Qed.

Lemma serviceNextCustomer_ok now s c r l : serving true s ((c, r) :: l) -> s.(scheduled) = ∅ ->
  exists s', serviceNextCustomer now s = Ok s' /\ shares now s' ((c, r) :: l).
Proof.
  intros Hs He. pose proof (serving_length _ _ _ Hs) as Hlen. destruct Hs as [(ws & Hq & Hl) Hc Hf Hr].
  destruct (Forall2_cons_inv_r _ _ _ _ Hl) as (w & ws' & (x & t & Hx & Ho & Ht) & Hl' & ->).
  unfold serviceNextCustomer. rewrite (head_queued _ _ _ _ Hq). cbn [mbind res_bind]. unfold entry_of, get. rewrite Hx. cbn [mbind res_bind]. rewrite Ho.
  eexists. split; [done|]. split.
  - split; cbn [queue customers vtime nextId resources]; [by exists (w :: ws')|done| |done]. intros w' Hw'. specialize (Hf w' Hw'). lia.
  - cbn [timeOfLastSchedule nextEndServiceEvent scheduled]. split; [done|]. exists s.(nextId). split; [done|].
    rewrite He, insert_empty. cbn [snd] in Ht. unfold until_served. by rewrite Hlen, Ht.
Qed.

Lemma leb_shift (v a b : T) : t_leb (t_sub a v) (t_sub b v) = t_leb a b.
Proof. rewrite (field_sub a b), field_sub. f_equal. ring. Qed.

Lemma insert_matches v cs w c r ws l : finishes v cs w (c, r) -> Forall2 (finishes v cs) ws l ->
  Forall2 (finishes v cs) (insert_in_order (rank_leb cs) w ws) (insert c r l).
Proof.
  intros Hw Hl. induction Hl as [|w' [c' r'] ws l Hw' Hl IH]; cbn; [by repeat constructor|].
  assert (rank_leb cs w' w = t_leb r' r) as ->.
  { destruct Hw as (x & t & Hx & Ho & Hr), Hw' as (x' & t' & Hx' & Ho' & Hr'). cbn [fst snd] in *.
    unfold rank_leb, smallerThan, get. rewrite Hx, Hx'. cbn [mbind res_bind]. rewrite Ho, Ho', Hr, Hr'. by rewrite leb_shift. }
  case_match; repeat constructor; done.
Qed.

Lemma insert_nonempty c (r : T) l : insert c r l <> [].
Proof. destruct l as [|[c' r'] l]; cbn; [done|]. by case_match. Qed.

Lemma insert_length c (r : T) l : length (insert c r l) = S (length l).
Proof. induction l as [|[c' r'] l IH]; cbn; [done|]. case_match; cbn; by rewrite ?IH. Qed.

(** A customer joins, when its server time has been accounted for. *)
Lemma join_ok t c d s l : serving true s l -> s.(scheduled) = ∅ -> Z.of_nat (length l) < Queue.INT_MAX ->
  exists s', (let w := s.(nextId) in
    '(cs, q) ← Queue.enqueue t w (<[w := new_OrderedQueueEntry t c (t_add s.(vtime) d)]> s.(customers)) s.(queue);
    serviceNextCustomer t (mkPSNode q s.(resources) s.(losses) s.(vtime) s.(timeOfLastSchedule) s.(nextEndServiceEvent) s.(scheduled) cs (S w)))
    = Ok s' /\ shares t s' (insert c d l).
Proof.
  intros [(ws & Hq & Hl) Hc Hf Hr] He Hlen. cbn zeta. set (w := s.(nextId)). set (x := new_OrderedQueueEntry t c (t_add (vtime s) d)).
  assert (s.(customers) !! w = None) as Hnew.
  { destruct (s.(customers) !! w) eqn:E; [|done]. pose proof (Hf w ltac:(by eexists)). unfold w in *. lia. }
  assert (keeps s.(customers) (<[w := x]> s.(customers))) as Hk.
  { intros v y Hy. exists y. split; [|done]. rewrite lookup_insert_ne; [done|]. intros ->. congruence. }
  pose proof (Forall2_length _ _ _ Hl) as Hll.
  destruct (enqueue_queued insertIntoQueue placed t w x (<[w := x]> s.(customers)) s.(queue) ws at_tail_inserts) as (dq & ws' & Henq & Hplaced & Hq' & _);
    [by eapply queued_keeps; [apply keeps_all|]|exists x; by rewrite lookup_insert_eq|by rewrite lookup_insert_eq|lia|].
  unfold Queue.enqueue. rewrite Henq. cbn [mbind res_bind]. rewrite insert_insert_eq in *. set (cs' := <[w := setQueueInsertionTime t x]> s.(customers)) in *.
  assert (Forall2 (finishes (vtime s) cs') ws' (insert c d l)) as Hl'.
  { cbn [placed entries_laws Ordered_laws] in Hplaced. rewrite Hplaced. apply insert_matches.
    - exists (setQueueInsertionTime t x), (t_add (vtime s) d). split_and!; [by apply lookup_insert_eq|done|]. cbn. ring.
    - eapply Forall2_impl; [exact Hl|]. intros v p (y & u & Hy & Hrest). exists y, u. split; [|done]. unfold cs'.
      rewrite lookup_insert_ne; [done|]. intros ->. congruence. }
  destruct (insert c d l) as [|[c1 r1] l1] eqn:E; [by apply insert_nonempty in E|].
  apply serviceNextCustomer_ok; [|done]. split; cbn [queue customers vtime nextId resources]; [by exists ws'|done| |done].
  intros v Hv. unfold cs' in Hv. destruct (decide (v = w)) as [->|Hne]; [lia|]. rewrite lookup_insert_ne in Hv by done. specialize (Hf v Hv). unfold w. lia.
Qed.

Lemma accept_ok now t c d s l : shares now s l -> Z.of_nat (length l) < Queue.INT_MAX ->
  exists s', accept t c d s = Ok s' /\ shares t s' (insert c d (serve (t_sub t now) l)).
Proof.
  intros [Hs Hbusy] Hlen. pose proof (serving_length _ _ _ Hs) as Hql. pose proof (sv_capacity _ _ _ Hs) as Hcap. pose proof (sv_resources _ _ _ Hs) as [Hr Hn].
  unfold accept, Queue.canAccept. unfold queueLength in Hql. rewrite Hql, Hcap. destruct (Z.ltb_spec (Z.of_nat (length l)) Queue.INT_MAX); [|lia].
  unfold Resource.resourceIsAvailable. rewrite Hr. destruct l as [|p l].
  - rewrite bool_decide_eq_true_2 by done. cbn [negb]. change (0 <? 1) with true. cbn iota. unfold Resource.claim, Resource.resourceIsAvailable. rewrite Hr.
    rewrite bool_decide_eq_true_2 by done. cbn [negb]. change (0 <? 1) with true. cbn [guard_assert mbind res_bind].
    apply join_ok; [|done|done]. destruct Hs as [Hq Hc Hf _]. split; [done|done|done|]. cbn. by rewrite Hn.
  - rewrite bool_decide_eq_false_2 in * by done. cbn [negb] in *. change (0 <? 0) with false. cbn iota. destruct Hbusy as (Htls & e & Hne & Hsch).
    unfold deschedule. rewrite Hne, Hsch, lookup_singleton_eq. cbn [mbind res_bind]. rewrite delete_singleton_eq.
    apply join_ok; [|done|by rewrite serve_length]. apply pass_time_serving; [|done]. destruct Hs as [Hq Hc Hf Hres]. by split.
Qed.

(** The end of a service up to where the customer goes: it is out of the queue,
    and the server is still taken. *)
Lemma invoke_ok forward now s c r l : shares now s ((c, r) :: l) ->
  let u := until_served ((c, r) :: l) in let t := t_add now u in
  exists s1, serving true s1 (tail (serve u ((c, r) :: l))) /\ s1.(scheduled) = ∅ /\
    happen forward EndOfService now s =
      ('(c, s) ← (s ← forward t c s1;
        s ← (if queueLength s =? 0 then r ← Resource.release t s.(resources); Ok (set_resources r s) else serviceNextCustomer t s);
        Ok (c, s));
       Ok ([(c, t)], (t, s))).
Proof.
  intros [Hs (Htls & e & Hne & Hsch)] u t. cbn [happen]. rewrite Hne, Hsch, lookup_singleton_eq, delete_singleton_eq.
  rewrite bool_decide_eq_false_2 in Hs by done. cbn [negb] in Hs.
  assert (serving true (set_scheduled ∅ s) ((c, r) :: l)) as Hs0 by (destruct Hs; by split).
  pose proof (pass_time_serving true t now (set_scheduled ∅ s) _ Hs0 Htls) as Hs1.
  assert (t_sub t now = u) as E by (unfold t; ring). rewrite E in Hs1. clear E. unfold invoke. fold u t.
  set (s1 := pass_time t (set_scheduled ∅ s)) in *. cbn [serve map] in Hs1 |- *.
  destruct Hs1 as [(ws & Hq & Hl) Hc Hf Hr]. destruct (Forall2_cons_inv_r _ _ _ _ Hl) as (w & ws' & (x & f & Hx & Ho & Ht) & Hl' & ->).
  destruct (dequeue_queued t w ws' _ _ Hq) as (dq & y & -> & Hy & Hq' & _). cbn [mbind res_bind]. unfold entry_of, get. cbn [set_queue customers].
  rewrite Hx. cbn [mbind res_bind]. rewrite Ho. cbn [mbind res_bind fst tail]. eexists. split; [|split; [|reflexivity]]; [|done].
  split; cbn [set_queue queue customers vtime nextId resources]; [by exists ws'|done|done|done].
Qed.

Lemma end_ok now s c r l : shares now s ((c, r) :: l) -> exists s',
  happen elsewhere EndOfService now s = Ok ([(c, t_add now (until_served ((c, r) :: l)))], (t_add now (until_served ((c, r) :: l)), s')) /\
  shares (t_add now (until_served ((c, r) :: l))) s' (tail (serve (until_served ((c, r) :: l)) ((c, r) :: l))).
Proof.
  intros Hs. destruct (invoke_ok elsewhere _ _ _ _ _ Hs) as (s1 & Hs1 & He & ->). set (t := t_add now _). cbn [mbind res_bind elsewhere].
  pose proof (serving_length _ _ _ Hs1) as ->. destruct (tail _) as [|[c1 r1] l1].
  - destruct Hs1 as [Hq Hc Hf [Hr Hn]]. cbn [length]. rewrite Z.eqb_refl. unfold Resource.release. rewrite Hr, Hn.
    change (0 <? 1) with true. cbn [guard_assert mbind res_bind]. eexists. split; [done|]. split; [|done]. by split.
  - cbn [length]. destruct (Z.eqb_spec (Z.of_nat (S (length l1))) 0); [lia|].
    destruct (serviceNextCustomer_ok t s1 c1 r1 l1 Hs1 He) as (s' & -> & Hs'). cbn [mbind res_bind]. by eexists.
Qed.

(** A customer that comes back at once: its event is no longer in the diary. *)
Lemma back_at_once now s c r l d : shares now s ((c, r) :: l) -> Z.of_nat (length l) < Queue.INT_MAX ->
  happen (fun t c s => accept t c d s) EndOfService now s = Err NullDereference.
Proof.
  intros Hs Hlen. destruct (invoke_ok (fun t c s => accept t c d s) _ _ _ _ _ Hs) as (s1 & Hs1 & He & ->).
  pose proof (serving_length _ _ _ Hs1) as Hql. pose proof (sv_capacity _ _ _ Hs1) as Hcap. pose proof (sv_resources _ _ _ Hs1) as [Hr _].
  unfold accept, Queue.canAccept. unfold queueLength in Hql. rewrite Hql, Hcap. cbn [serve map tail]. rewrite length_map.
  destruct (Z.ltb_spec (Z.of_nat (length l)) Queue.INT_MAX); [|lia]. unfold Resource.resourceIsAvailable. rewrite Hr. change (0 <? 0) with false. cbn iota.
  unfold deschedule. rewrite He. case_match; [by rewrite lookup_empty|done].
Qed.

(** ** Nobody gets too much *)
Definition needs_less (p q : Object * T) : Prop := t_leb p.2 q.2 = true.

(** Nobody has got more than was asked for, and the first is the next to leave. *)
Definition fair (l : list (Object * T)) : Prop := StronglySorted needs_less l /\ Forall (fun p => t_leb t_zero p.2 = true) l.

Lemma serve_fair dt c r l : fair ((c, r) :: l) -> t_leb dt (until_served ((c, r) :: l)) = true -> fair (serve dt ((c, r) :: l)).
Proof.
  intros [Hs Hn] Hdt. unfold until_served in Hdt. rewrite field_share in Hdt by (cbn; lia). unfold serve.
  set (d := t_div dt (t_of_int (Z.of_nat (length ((c, r) :: l))))) in *. split.
  - clear Hn Hdt. revert Hs. generalize ((c, r) :: l). intros L Hs. induction Hs as [|[c1 r1] L Hs IH Hall]; cbn; constructor; [done|].
    apply Forall_map. eapply Forall_impl; [exact Hall|]. intros [c2 r2]. unfold needs_less. cbn. by rewrite leb_shift.
  - apply StronglySorted_inv in Hs as [_ Hall]. apply Forall_map. constructor; cbn.
    + by rewrite <- field_sub.
    + eapply Forall_impl; [exact Hall|]. intros [c2 r2] Hle. cbn in *. rewrite <- field_sub. by eapply exact_trans.
Qed.

Lemma insert_fair c r l : t_leb t_zero r = true -> fair l -> fair (insert c r l).
Proof.
  intros Hr [Hs Hn]. assert (Forall (fun p => t_leb t_zero p.2 = true) (insert c r l)) as Hn'.
  { clear Hs. induction Hn as [|[c1 r1] l Hp1 Hn IH]; cbn; [by repeat constructor|]. case_match; by repeat constructor. }
  split; [|done]. clear Hn Hn'. induction Hs as [|[c1 r1] l Hs IH Hall]; cbn; [by repeat constructor|].
  assert (forall P : Object * T -> Prop, P (c, r) -> Forall P l -> Forall P (insert c r l)) as Hins.
  { intros P HP HL. clear -HP HL. induction HL as [|[c2 r2] l Hp2 HL IHL]; cbn; [by repeat constructor|]. case_match; by repeat constructor. }
  destruct (t_leb r1 r) eqn:E.
  - constructor; [done|]. by apply Hins.
  - assert (t_leb r r1 = true) as E' by (destruct (exact_total r1 r); [congruence|done]).
    constructor; [by constructor|]. constructor; [done|]. eapply Forall_impl; [exact Hall|]. intros [c2 r2] Hle. unfold needs_less in *. cbn in *.
    by eapply exact_trans.
Qed.

Lemma leb_refl (a : T) : t_leb a a = true.
Proof. by destruct (exact_total a a). Qed.

Lemma share_fair h now l o now' l' : fair l -> share h now l = Some (o, (now', l')) -> fair l'.
Proof.
  intros Hl. destruct h as [t c d|]; cbn [share].
  - destruct (t_leb now t && _ && t_leb t_zero d) eqn:E; [|done]. intros [= <- <- <-].
    apply andb_prop in E as [[_ Hdue]%andb_prop Hd]. apply insert_fair; [done|]. destruct l as [|[c1 r1] l]; [done|].
    apply serve_fair; [done|]. by destruct (orb_prop _ _ Hdue) as [Hb%bool_decide_eq_true|].
  - destruct l as [|[c r] l]; [done|]. intros [= <- <- <-]. destruct (serve_fair (until_served ((c, r) :: l)) c r l Hl (leb_refl _)) as [Hs Hn].
    cbn [serve map tail] in *. apply StronglySorted_inv in Hs as [Hs _]. apply Forall_cons in Hn as [_ Hn]. by split.
Qed.

(** One happening, in the code and in the sharing of the server. *)
Lemma share_happens h now l s o now' l' : shares now s l -> Z.of_nat (length l) < Queue.INT_MAX -> share h now l = Some (o, (now', l')) ->
  exists s', happen elsewhere h now s = Ok (o, (now', s')) /\ shares now' s' l' /\ (length l' <= S (length l))%nat.
Proof.
  intros Hs Hlen. destruct h as [t c d|]; cbn [share].
  - destruct (t_leb now t && _ && t_leb t_zero d); [|done]. intros [= <- <- <-].
    destruct (accept_ok now t c d s l Hs Hlen) as (s' & E & Hs'). exists s'. cbn [happen]. rewrite E. split_and!; [done|done|].
    by rewrite insert_length, serve_length.
  - destruct l as [|[c r] l]; [done|]. intros [= <- <- <-]. destruct (end_ok _ _ _ _ _ Hs) as (s' & -> & Hs'). exists s'.
    split_and!; [done|done|]. cbn. rewrite length_map. lia.
Qed.

Lemma share_all_happen hs : forall now l s os now' l', shares now s l -> fair l -> Z.of_nat (length l + length hs) < Queue.INT_MAX ->
  share_all hs now l = Some (os, (now', l')) -> exists s', happen_all elsewhere hs now s = Ok (os, (now', s')) /\ shares now' s' l' /\ fair l' /\
    (length l' <= length l + length hs)%nat.
Proof.
  induction hs as [|h hs IH]; intros now l s os now' l' Hs Hf Hlen; cbn [share_all happen_all].
  { intros [= <- <- <-]. exists s. split_and!; [done|done|done|lia]. }
  cbn [length] in *. destruct (share h now l) as [[o [now1 l1]]|] eqn:E; [|done].
  destruct (share_happens h now l s o now1 l1 Hs ltac:(lia) E) as (s1 & -> & Hs1 & Hl1). pose proof (share_fair _ _ _ _ _ _ Hf E) as Hf1.
  cbn [mbind res_bind]. destruct (share_all hs now1 l1) as [[os1 [now2 l2]]|] eqn:E2; [|done]. intros [= <- <- <-].
  destruct (IH _ _ s1 _ _ _ Hs1 Hf1 ltac:(lia) E2) as (s2 & -> & Hs2 & Hf2 & Hl2). exists s2. split_and!; [done|done|done|lia].
Qed.

Lemma new_shares now : shares now (new_ProcessorSharingNode (T := T)) [].
Proof.
  split; [|done]. split; cbn; [|done| |done].
  - exists []. split; [|done]. split; cbn; [|done|done|]; [split; [apply new_holds|done]|]. intros x Hx. by apply not_elem_of_nil in Hx.
  - intros w [x Hx]. by rewrite lookup_empty in Hx.
Qed.

(** C29. The node shares its server: whatever customers come, each of [n]
    customers gets the [n]-th part of the time, and leaves at the moment when
    it has got the service that it came for; nobody gets more, and no call
    fails.  This holds in exact arithmetic ([FieldTime], such as the rational
    numbers): the times of the program are [double]s, whose division by the
    number of customers rounds, so that there it holds up to rounding at best. *)
Theorem processor_sharing hs start os now l : share_all hs start [] = Some (os, (now, l)) -> Z.of_nat (length hs) < Queue.INT_MAX ->
  exists s, happen_all elsewhere hs start (new_ProcessorSharingNode (T := T)) = Ok (os, (now, s)) /\ queueLength s = Z.of_nat (length l) /\
    shares now s l /\ Forall (fun p => t_leb t_zero p.2 = true) l.
Proof.
  intros Hsh Hlen. destruct (share_all_happen hs start [] _ os now l (new_shares start)) as (s & E & Hs & [_ Hf] & _); [by repeat constructor|done|done|].
  exists s. split_and!; [done|by eapply serving_length, Hs|done|done].
Qed.

(** C30. A customer that the links lead back to the node at once ends the
    program: the node removes from the diary the event that is being invoked,
    and the list follows a null pointer. *)
Theorem feedback_crashes hs start os now c r l demand : share_all hs start [] = Some (os, (now, (c, r) :: l)) -> Z.of_nat (length hs) < Queue.INT_MAX ->
  exists s, happen_all elsewhere hs start (new_ProcessorSharingNode (T := T)) = Ok (os, (now, s)) /\
    happen (fun t c s => accept t c demand s) EndOfService now s = Err NullDereference.
Proof.
  intros Hsh Hlen. destruct (share_all_happen hs start [] _ os now ((c, r) :: l) (new_shares start)) as (s & E & Hs & _ & Hl); [by repeat constructor|done|exact Hsh|].
  exists s. split; [done|]. apply (back_at_once now s c r l); [done|]. cbn [length Nat.add] in *. lia.
Qed.
End refinement.

(** ** Three customers *)
Definition at_time (a : Z) (b : positive) : Qc := Q2Qc (a # b).
Definition three_customers : list (happening Qc) :=
  [Arrive (at_time 0 1) 1 (at_time 4 1); Arrive (at_time 1 1) 2 (at_time 1 1); EndOfService; Arrive (at_time 4 1) 3 (at_time 3 2); EndOfService].
Definition three_shared : list (Object * Qc) * (Qc * list (Object * Qc)) :=
  match share_all three_customers (at_time 0 1) [] with Some x => x | None => ([], (at_time 0 1, [])) end.

(** The second customer leaves at 3, the first at 6; the third still needs one half. *)
Example three_leave : map (fun p => (p.1, this p.2)) three_shared.1 = [(2%nat, 3 # 1); (1%nat, 6 # 1)] /\
  map (fun p => (p.1, this p.2)) three_shared.2.2 = [(3%nat, 1 # 2)].
Proof. by vm_compute. Qed.

Lemma three_are_shared : share_all three_customers (at_time 0 1) [] = Some (three_shared.1, (three_shared.2.1, three_shared.2.2)).
Proof.
  unfold three_shared. assert (match share_all three_customers (at_time 0 1) [] with Some _ => true | None => false end = true) as E by by vm_compute.
  by destruct (share_all three_customers (at_time 0 1) []) as [[? [? ?]]|].
Qed.

Lemma processor_sharing_witness : exists s,
  happen_all elsewhere three_customers (at_time 0 1) (new_ProcessorSharingNode (T := Qc)) = Ok (three_shared.1, (three_shared.2.1, s)) /\
  queueLength s = Z.of_nat (length three_shared.2.2) /\ shares three_shared.2.1 s three_shared.2.2 /\
  Forall (fun p => t_leb t_zero p.2 = true) three_shared.2.2.
Proof. apply (processor_sharing three_customers (at_time 0 1)); [apply three_are_shared|done]. Defined.

Lemma feedback_crashes_witness : exists s,
  happen_all elsewhere [Arrive (at_time 0 1) 1%nat (at_time 4 1)] (at_time 0 1) (new_ProcessorSharingNode (T := Qc)) = Ok ([], (at_time 0 1, s)) /\
  happen (fun t c s => accept t c (at_time 2 1) s) EndOfService (at_time 0 1) s = Err NullDereference.
Proof. apply (feedback_crashes _ (at_time 0 1) [] (at_time 0 1) 1%nat (at_time 4 1) []); [reflexivity|done]. Defined.

End ProcessorSharing.
