(* ===== verification/CinqsNetwork.v ===== *)
(** * Networks of cinqs nodes

    The invariant of a simulation with the model of [CinqsSim]: every customer
    is served, waits or is on its way, resources count the services, the diary
    holds the services that go on; and that a simulation of a network without
    cycles ends, with every customer gone through a sink.  The networks are
    those of [reachable]: without cycles and null nodes, their pools release
    resources (no [ResourcePool]) and have unbounded queues, and preemptive
    nodes have one resource. *)
From stdpp Require Import functions.
From S2P Require Import Prelude CxxFloat LinkedList CinqsQueue CinqsSim.
Import Disciplines Customer Measure Sim.

Section network.
Context {T Q : Type} `{DisciplineLaws T Q}.
Local Abbreviation Sim := (Sim.Sim T Q).
Local Abbreviation Pool := (Sim.Pool T Q).
Local Abbreviation Node := (Sim.Node T Q).

(** ** The invariant

    Nodes as they are now, the events in the diary by node and customer. *)
Definition pool_of (s : Sim) (n : nat) : option Pool :=
  nd ← s.(nodes) !! n; match nd.(class) with PoolNode p => Some p | _ => None end.

Definition node_of (s : Sim) (e : nat) : option nat := node <$> s.(events) !! e.
Definition customer_of (s : Sim) (e : nat) : Object := default 0%nat (customer <$> s.(events) !! e).

Definition services (s : Sim) (n : nat) (D : list nat) : nat := length (filter (fun e => node_of s e = Some n) D).
Definition owes (owed : list nat) (n : nat) : nat := length (filter (fun m => m = n) owed).

Definition located (cs : Customers T) (c : Object) (n : nat) : Prop := location <$> cs !! c = Some (Some n).

Lemma located_known cs c n : located cs c n -> is_Some (cs !! c).
Proof. unfold located. by destruct (cs !! c). Qed.

Definition preemptive (k : pool_class) : bool :=
  match k with PreemptiveResumeNode | PreemptiveRestartNode => true | _ => false end.

Definition shape (nd : Node) : Link * (nat + pool_class) :=
  (nd.(link), match nd.(class) with CinqsNode => inl 0 | Sink => inl 1 | NullNode => inl 2 | InfiniteServerNode => inl 3 | PoolNode p => inr p.(pool_type) end%nat).

(** A node at which customers are served. *)
Definition service_node (s : Sim) (n : nat) : Prop :=
  match shape <$> s.(nodes) !! n with Some (_, inl k) => k = 3%nat | Some (_, inr _) => True | None => False end.

(** A pool with the customers [xs] in its queue.  A node is owed a release when
    one of its resources is claimed for no service in the diary. *)
Record pool_ok (s : Sim) (owed D : list nat) (n : nat) (p : Pool) (xs : list Object) : Prop := {
  po_queued : queued s.(customers) p.(queue) xs;
  po_capacity : p.(queue).(Queue.capacity) = Queue.INT_MAX;
  po_accepts c : is_Some (s.(customers) !! c) -> admits s.(customers) p.(queue) c;
  po_range : 0 <= p.(resources).(Resource.resources) <= p.(resources).(Resource.nresources);
  po_some : 0 < p.(resources).(Resource.nresources);
  po_int : p.(resources).(Resource.nresources) < 2 ^ 31;
  po_idle : 0 < p.(resources).(Resource.resources) -> xs = [];
  po_count : p.(resources).(Resource.nresources) - p.(resources).(Resource.resources) = Z.of_nat (services s n D + owes owed n);
  po_releases : p.(pool_type) <> ResourcePool;
  po_single : preemptive p.(pool_type) = true -> p.(resources).(Resource.nresources) = 1;
  po_last : preemptive p.(pool_type) = true -> p.(resources).(Resource.resources) = 0 -> n ∉ owed ->
    exists nd e, s.(nodes) !! n = Some nd /\ nd.(lastEndServiceEvent) = Some e /\ e ∈ D /\ node_of s e = Some n;
}.

(** [D] is the diary, [W n] waits in node [n], [tr] is on its way. *)
Record inv (s : Sim) (owed tr D : list nat) (W : nat -> list Object) : Prop := {
  inv_diary : holds s.(diary) D;
  inv_once : NoDup D;
  inv_events e : e ∈ D -> is_Some (s.(events) !! e) /\ (e < s.(nextId))%nat;
  inv_distinct : NoDup (tr ++ map (customer_of s) D);
  inv_transit c : c ∈ tr -> is_Some (s.(customers) !! c);
  inv_served e ev : e ∈ D -> s.(events) !! e = Some ev -> located s.(customers) ev.(customer) ev.(node);
  inv_serving e ev : e ∈ D -> s.(events) !! e = Some ev -> service_node s ev.(node);
  inv_waits n c : c ∈ W n -> located s.(customers) c n /\ c ∉ tr ++ map (customer_of s) D;
  inv_waits_once n : NoDup (W n);
  inv_no_pool n : pool_of s n = None -> W n = [];
  inv_all c x : s.(customers) !! c = Some x -> c ∈ tr ++ map (customer_of s) D \/ exists n, c ∈ W n;
  inv_pool n p : pool_of s n = Some p -> pool_ok s owed D n p (W n);
  inv_alive c x : s.(customers) !! c = Some x -> x.(finished) = false;
  inv_bound : 0 <= s.(completions) /\ s.(completions) + Z.of_nat (size s.(customers)) < 2 ^ 31 - 1;
}.

(** ** Pools one by one *)

Lemma services_perm s n D D' : D ≡ₚ D' -> services s n D = services s n D'.
Proof. intros Hp. unfold services. by rewrite Hp. Qed.

Lemma services_cons s n e D : services s n (e :: D) = ((if decide (node_of s e = Some n) then 1 else 0) + services s n D)%nat.
Proof. unfold services. rewrite filter_cons. case_decide; done. Qed.

Lemma services_ext s s' n D : (forall e, e ∈ D -> node_of s' e = node_of s e) -> services s' n D = services s n D.
Proof.
  induction D as [|e D IH]; intros He; [done|]. rewrite !services_cons, He by set_solver. f_equal. apply IH. set_solver.
Qed.

Lemma owes_cons owed m n : owes (m :: owed) n = ((if decide (m = n) then 1 else 0) + owes owed n)%nat.
Proof. unfold owes. rewrite filter_cons. case_decide; done. Qed.

(** What a pool sees of a change elsewhere. *)
Lemma pool_ok_frame s s' owed owed' D D' n p xs : pool_ok s owed D n p xs ->
  keeps_on xs s.(customers) s'.(customers) ->
  (forall c x', s'.(customers) !! c = Some x' -> exists x, s.(customers) !! c = Some x /\ same_rank x x') ->
  (services s' n D' + owes owed' n = services s n D + owes owed n)%nat -> (n ∈ owed -> n ∈ owed') ->
  (lastEndServiceEvent <$> s'.(nodes) !! n = lastEndServiceEvent <$> s.(nodes) !! n) ->
  (n ∉ owed' -> forall e, e ∈ D -> node_of s e = Some n -> e ∈ D' /\ node_of s' e = Some n) ->
  pool_ok s' owed' D' n p xs.
Proof.
  intros [Hq Hcap Ha Hr Hsome Hint Hi Hc Hrel Hs1 Hl] Hk Hold Hcnt Howed Hlast Hev. split; try done.
  - by eapply queued_keeps.
  - intros c [x' Hx']. destruct (Hold _ _ Hx') as (x & Hx & Hsame). eapply accepts_keeps; [|apply Ha; by exists x].
    intros d y ->%list_elem_of_singleton Hy. simplify_eq. by exists x'.
  - by rewrite Hcnt.
  - intros Hp H0' Hno. destruct (Hl Hp H0') as (nd & e & Hn & He & HeD & Hen); [naive_solver|].
    destruct (Hev Hno e HeD Hen) as [HeD' Hen']. rewrite Hn in Hlast. destruct (nodes s' !! n) as [nd'|] eqn:E; [|done].
    cbn in Hlast. exists nd', e. split_and!; [done | congruence | done | done].
Qed.

(** ** Changes that concern no queue and no service

    Customers may change but for their rank and, unless they are on their way,
    their place; nodes but for their pools and last events. *)
Definition same_customers (tr : list nat) (cs cs' : Customers T) : Prop :=
  forall c, match cs !! c, cs' !! c with
  | Some x, Some x' => same_rank x x' /\ x'.(finished) = x.(finished) /\ (c ∈ tr \/ x.(location) = x'.(location))
  | None, None => True
  | _, _ => False
  end.

Lemma same_customers_refl tr cs : same_customers tr cs cs.
Proof. intros c. destruct (cs !! c); [split_and!; try done; by right | done]. Qed.

Lemma same_customers_put tr cs c x x' : cs !! c = Some x -> same_rank x x' -> x'.(finished) = x.(finished) -> c ∈ tr \/ x.(location) = x'.(location) ->
  same_customers tr cs (<[c := x']> cs).
Proof.
  intros Hx Hr Hf Hl d. destruct (decide (c = d)) as [->|Hne]; [by rewrite lookup_insert_eq, Hx|].
  rewrite lookup_insert_ne by done. apply same_customers_refl.
Qed.

Lemma same_customers_keeps tr cs cs' : same_customers tr cs cs' -> keeps cs cs' /\
  (forall c x', cs' !! c = Some x' -> exists x, cs !! c = Some x /\ same_rank x x').
Proof.
  intros Hs. split; intros c x Hx; specialize (Hs c); rewrite Hx in Hs.
  - destruct (cs' !! c) as [x'|]; [|done]. exists x'. by destruct Hs.
  - destruct (cs !! c) as [x'|]; [|done]. exists x'. by destruct Hs.
Qed.

Lemma same_customers_dom tr cs cs' : same_customers tr cs cs' -> dom cs' = dom cs.
Proof.
  intros Hs. apply set_eq. intros c. rewrite !elem_of_dom. specialize (Hs c).
  destruct (cs !! c), (cs' !! c); try done; by split; intros [? ?].
Qed.

Lemma same_customers_located tr cs cs' c n : same_customers tr cs cs' -> c ∉ tr -> located cs c n -> located cs' c n.
Proof.
  intros Hs Hc. specialize (Hs c). unfold located. destruct (cs !! c) as [x|], (cs' !! c) as [x'|]; try done.
  destruct Hs as (_ & _ & [?|Hl]); [done|]. cbn. by rewrite Hl.
Qed.

Record quiet (tr : list nat) (s s' : Sim) : Prop := {
  quiet_diary : s'.(diary) = s.(diary);
  quiet_events : s'.(events) = s.(events);
  quiet_next : s'.(nextId) = s.(nextId);
  quiet_customers : same_customers tr s.(customers) s'.(customers);
  quiet_pools n : pool_of s' n = pool_of s n;
  quiet_last n : lastEndServiceEvent <$> s'.(nodes) !! n = lastEndServiceEvent <$> s.(nodes) !! n;
  quiet_shape n : shape <$> s'.(nodes) !! n = shape <$> s.(nodes) !! n;
  quiet_completions : s'.(completions) = s.(completions);
}.

(** A customer that is on its way is nowhere else. *)
Lemma transit_not_served s owed tr D W e ev : inv s owed tr D W -> e ∈ D -> s.(events) !! e = Some ev -> ev.(customer) ∉ tr.
Proof.
  intros Hi He Hev Hin. pose proof (inv_distinct _ _ _ _ _ Hi) as (_ & Hd & _)%NoDup_app.
  apply (Hd _ Hin). apply list_elem_of_In, in_map_iff. exists e. split; [|by apply list_elem_of_In].
  unfold customer_of. by rewrite Hev.
Qed.

Lemma inv_quiet s s' owed tr D W : inv s owed tr D W -> quiet tr s s' -> inv s' owed tr D W.
Proof.
  intros Hi [Qd Qe Qn Qc Qp Ql Qs Qco]. pose proof Hi as [Id Io Ie Ix It Is Isn Iw Iwo In Ia Ip If Ib].
  assert (forall e, customer_of s' e = customer_of s e) as Hc by (intros e; unfold customer_of; by rewrite Qe).
  assert (map (customer_of s') D = map (customer_of s) D) as Hmap by (apply map_ext; done).
  destruct (same_customers_keeps _ _ _ Qc) as [Hk Hold].
  split; rewrite ?Qd, ?Qe, ?Qn, ?Hmap, ?Qco; try done.
  - intros c [x Hx]%It. destruct (Hk _ _ Hx) as (x' & Hx' & _). by exists x'.
  - intros e ev He Hev. eapply same_customers_located; [done | by apply (transit_not_served _ _ _ _ _ _ _ Hi He) | by apply (Is e)].
  - intros e ev He Hev. unfold service_node. rewrite Qs. by apply (Isn e).
  - intros n c Hin. destruct (Iw n c Hin) as [Hl Hno]. split; [|done].
    eapply same_customers_located; [done | set_solver | done].
  - intros n. rewrite Qp. apply In.
  - intros c x' Hx'. destruct (Hold _ _ Hx') as (x & Hx & _). by eapply Ia.
  - intros n p. rewrite Qp. intros Hp. eapply pool_ok_frame; [by apply Ip | by apply keeps_all | done | | done | done |].
    + f_equal. apply services_ext. intros e _. unfold node_of. by rewrite Qe.
    + intros _ e He Hn. split; [done|]. unfold node_of. by rewrite Qe.
  - intros c x' Hx'. specialize (Qc c). rewrite Hx' in Qc. destruct (customers s !! c) as [x|] eqn:Hx; [|done].
    destruct Qc as (_ & -> & _). by apply (If c).
  - by rewrite <- size_dom, (same_customers_dom _ _ _ Qc), size_dom.
Qed.

(** Writing a pool back changes no other. *)
Lemma pool_of_put (s : Sim) n (p : Pool) m : is_Some (pool_of s n) -> pool_of (put_pool n p s) m = if decide (m = n) then Some p else pool_of s m.
Proof.
  intros Hn. unfold pool_of, put_pool, set_nodes in *. cbn. case_decide as Hd.
  - subst. rewrite lookup_alter_eq. destruct (nodes s !! n); [done|]. by destruct Hn.
  - by rewrite lookup_alter_ne.
Qed.

Lemma last_put (s : Sim) n (p : Pool) m : lastEndServiceEvent <$> (put_pool n p s).(nodes) !! m = lastEndServiceEvent <$> s.(nodes) !! m.
Proof.
  unfold put_pool, set_nodes. cbn. destruct (decide (m = n)) as [->|]; [|by rewrite lookup_alter_ne].
  rewrite lookup_alter_eq. by destruct (nodes s !! n).
Qed.

Lemma service_put (s : Sim) n (p : Pool) m : service_node s m -> service_node (put_pool n p s) m.
Proof.
  unfold service_node, put_pool, set_nodes. cbn. destruct (decide (m = n)) as [->|]; [|by rewrite lookup_alter_ne].
  rewrite lookup_alter_eq. by destruct (nodes s !! n).
Qed.

Lemma pool_service (s : Sim) n p : pool_of s n = Some p -> service_node s n.
Proof.
  unfold pool_of, service_node. destruct (nodes s !! n) as [nd|]; [|done]. cbn. unfold shape. by destruct (class nd).
Qed.

(** A pool is replaced and the customers in its queue are then [xs]; the
    customers on their way are [tr'] before and behind. *)
Lemma inv_put_pool s owed owed' tr tr' D W n p p' xs : inv s owed tr D W -> pool_of s n = Some p ->
  pool_ok (put_pool n p' s) owed' D n p' xs ->
  (forall m, m <> n -> owes owed' m = owes owed m /\ (m ∈ owed' <-> m ∈ owed)) ->
  (tr ++ W n ≡ₚ tr' ++ xs) -> (forall c, c ∈ xs -> located s.(customers) c n) ->
  inv (put_pool n p' s) owed' tr' D (<[n := xs]> W).
Proof.
  intros Hi Hp Hok Howed Hperm Hloc. pose proof Hi as [Id Io Ie Ix It Is Isn Iw Iwo In Ia Ip If Ib].
  assert (NoDup (tr' ++ xs ++ map (customer_of s) D)) as Hall.
  { rewrite app_assoc, <- Hperm, <- app_assoc, (Permutation_app_comm (W n)), app_assoc. apply NoDup_app.
    split; [done|]. split; [|apply Iwo]. intros c Hc Hw. by apply Iw in Hw as [_ Hw]. }
  assert (forall c, c ∈ tr' ++ map (customer_of s) D \/ c ∈ xs <-> c ∈ tr ++ map (customer_of s) D \/ c ∈ W n) as Hin.
  { intros c. assert (c ∈ tr ++ W n <-> c ∈ tr' ++ xs) as Hc by by rewrite Hperm. rewrite !elem_of_app in *. tauto. }
  split; try done; cbn -[insert fn_insert].
  - rewrite app_assoc in Hall. apply NoDup_app in Hall as (N2 & N3 & N4). apply NoDup_app in N2 as (N2 & _ & _).
    apply NoDup_app. split; [done|]. split; [|done]. intros c Hc. apply N3. set_solver.
  - intros c Hc. assert (c ∈ tr ++ W n) as Hc' by (rewrite Hperm; set_solver). apply elem_of_app in Hc' as [Hc'|Hc']; [by apply It|].
    apply Iw in Hc' as [Hl _]. by apply (located_known _ _ n).
  - intros e ev He Hev. by apply service_put, (Isn e).
  - intros m c. destruct (decide (m = n)) as [->|Hne].
    + rewrite fn_lookup_insert. intros Hc. split; [by apply Hloc|]. apply NoDup_app in Hall as (_ & N2 & N3).
      apply NoDup_app in N3 as (_ & N3 & _). rewrite elem_of_app. intros [Hc'|Hc']; [apply (N2 _ Hc'); set_solver | by apply (N3 _ Hc)].
    + rewrite fn_lookup_insert_ne by done. intros Hc. destruct (Iw m c Hc) as [Hl Hno]. split; [done|]. intros Hc'.
      assert (c ∈ tr ++ map (customer_of s) D \/ c ∈ W n) as [|Hw]; [apply Hin; by left | done|].
      apply Iw in Hw as [Hl' _]. unfold located in *. rewrite Hl in Hl'. congruence.
  - intros m. destruct (decide (m = n)) as [->|Hne].
    + rewrite fn_lookup_insert. apply NoDup_app in Hall as (_ & _ & N3). by apply NoDup_app in N3 as (? & _ & _).
    + rewrite fn_lookup_insert_ne by done. apply Iwo.
  - intros m. rewrite pool_of_put by by eexists. case_decide; [done|]. rewrite fn_lookup_insert_ne by done. apply In.
  - intros c x Hx. destruct (Ia c x Hx) as [Hc|[m Hm]].
    + assert (c ∈ tr' ++ map (customer_of s) D \/ c ∈ xs) as [|]; [apply Hin; by left | by left|].
      right. exists n. by rewrite fn_lookup_insert.
    + destruct (decide (m = n)) as [->|Hne].
      * assert (c ∈ tr' ++ map (customer_of s) D \/ c ∈ xs) as [|]; [apply Hin; by right | by left|].
        right. exists n. by rewrite fn_lookup_insert.
      * right. exists m. by rewrite fn_lookup_insert_ne.
  - intros m q. rewrite pool_of_put by by eexists. case_decide as Hd; [intros [= <-]; subst; by rewrite fn_lookup_insert|].
    rewrite fn_lookup_insert_ne by done. intros Hq. destruct (Howed m Hd) as [Ho1 Ho2].
    eapply pool_ok_frame; [by apply Ip | by intros c x _ Hx; exists x | by intros c x Hx; exists x | | by apply Ho2 | apply last_put |].
    + by rewrite Ho1.
    + done.
Qed.

Lemma inv_ext s owed tr D W W' : (forall n, W' n = W n) -> inv s owed tr D W -> inv s owed tr D W'.
Proof.
  intros He [Id Io Ie Ix It Is Isn Iw Iwo In Ia Ip If Ib]. split; try done.
  - intros n c. rewrite He. apply Iw.
  - intros n. rewrite He. apply Iwo.
  - intros n. rewrite He. apply In.
  - intros c x Hx. destruct (Ia c x Hx) as [|[n Hn]]; [by left|]. right. exists n. by rewrite He.
  - intros n p. rewrite He. apply Ip.
Qed.

(** ** What does not move a customer

    Types and places of customers, the network and the completions stay; events
    are only added. *)
Definition seen (x : Customer T) : Z * option nat := (x.(type), x.(location)).
Record still (s s' : Sim) : Prop := {
  still_customers c : seen <$> s'.(customers) !! c = seen <$> s.(customers) !! c;
  still_shape n : shape <$> s'.(nodes) !! n = shape <$> s.(nodes) !! n;
  still_completions : s'.(completions) = s.(completions);
  still_next : (s.(nextId) <= s'.(nextId))%nat;
  still_events e : (e < s.(nextId))%nat -> s'.(events) !! e = s.(events) !! e;
}.

Lemma still_refl s : still s s.
Proof. by split. Qed.

Lemma still_trans s1 s2 s3 : still s1 s2 -> still s2 s3 -> still s1 s3.
Proof.
  intros [A1 A2 A3 A4 A5] [B1 B2 B3 B4 B5]. split; [intros; by rewrite B1 | intros; by rewrite B2 | congruence | lia|].
  intros e He. rewrite B5 by lia. by apply A5.
Qed.

Lemma still_put_pool (s : Sim) n (p p' : Pool) : pool_of s n = Some p -> p'.(pool_type) = p.(pool_type) -> still s (put_pool n p' s).
Proof.
  intros Hp Ht. split; try done. intros m. unfold put_pool, set_nodes. cbn. destruct (decide (m = n)) as [->|]; [|by rewrite lookup_alter_ne].
  rewrite lookup_alter_eq. unfold pool_of in Hp. destruct (nodes s !! n) as [nd|]; [|done]. cbn in *. unfold shape. cbn.
  destruct (class nd); try done. simplify_eq. by rewrite Ht.
Qed.

Lemma still_set_customers (s : Sim) cs : (forall c, seen <$> cs !! c = seen <$> s.(customers) !! c) -> still s (set_customers cs s).
Proof. intros Hc. by split. Qed.

Lemma seen_put (cs : Customers T) c x x' d : cs !! c = Some x -> seen x' = seen x -> seen <$> <[c := x']> cs !! d = seen <$> cs !! d.
Proof.
  intros Hx Hs. destruct (decide (d = c)) as [->|]; [by rewrite lookup_insert_eq, Hx; cbn; rewrite Hs | by rewrite lookup_insert_ne].
Qed.

(** Events that are not in the diary are new. *)
Definition newer (s : Sim) (D D' : list nat) : Prop := forall e, e ∈ D' -> e ∈ D \/ (s.(nextId) <= e)%nat.

(** ** Claims and releases *)
Lemma node_of_pool s n p : pool_of s n = Some p -> exists nd, s.(nodes) !! n = Some nd /\ nd.(class) = PoolNode p.
Proof.
  unfold pool_of. destruct (nodes s !! n) as [nd|]; cbn; [|done]. destruct (class nd) eqn:E; intros [= ->]; try done. by exists nd.
Qed.

Lemma pool_ok_resources s owed owed' D n p xs r : pool_ok s owed D n p xs ->
  0 <= r.(Resource.resources) <= p.(resources).(Resource.nresources) -> r.(Resource.nresources) = p.(resources).(Resource.nresources) ->
  (0 < r.(Resource.resources) -> xs = []) ->
  p.(resources).(Resource.resources) - r.(Resource.resources) = Z.of_nat (owes owed' n) - Z.of_nat (owes owed n) ->
  (r.(Resource.resources) = 0 -> n ∈ owed') ->
  pool_ok (put_pool n (set_pool_resources r p) s) owed' D n (set_pool_resources r p) xs.
Proof.
  intros [Hq Hcap Ha Hr Hsome Hint Hi Hc Hrel Hs1 Hl] H0' Hn Hx Ho Hl'. split; cbn; try done.
  - by rewrite Hn.
  - by rewrite Hn.
  - by rewrite Hn.
  - rewrite Hn. change (services _ n D) with (services s n D). lia.
  - by rewrite Hn.
  - intros Hp He Hno. by apply Hl' in He.
Qed.

Lemma claim_inv s owed tr D W n p : inv s owed tr D W -> pool_of s n = Some p -> 0 < p.(resources).(Resource.resources) ->
  exists r, Resource.claim s.(vtime) p.(resources) = Ok r /\ inv (put_pool n (set_pool_resources r p) s) (n :: owed) tr D W.
Proof.
  intros Hi Hp Hr. pose proof (inv_pool _ _ _ _ _ Hi n p Hp) as Hok. pose proof (po_range _ _ _ _ _ _ Hok). pose proof (po_int _ _ _ _ _ _ Hok).
  eexists. split.
  { unfold Resource.claim, Resource.resourceIsAvailable. destruct (Z.ltb_spec 0 (Resource.resources (resources p))); [done | lia]. }
  apply (inv_ext _ _ _ _ (<[n := W n]> W)).
  { intros m. destruct (decide (m = n)) as [->|]; [by rewrite fn_lookup_insert | by rewrite fn_lookup_insert_ne]. }
  assert (int_sub (Resource.resources (resources p)) 1 = Resource.resources (resources p) - 1) as Hs by (apply wrap_id; lia).
  eapply inv_put_pool; [exact Hi | exact Hp | | | done | intros c Hc0; by apply (inv_waits _ _ _ _ _ Hi) in Hc0 as [? _]].
  - apply (pool_ok_resources s owed); cbn [Resource.set_resources Resource.resources Resource.nresources]; rewrite ?Hs; [done | lia | done | | | intros _; by left].
    + intros _. by apply (po_idle _ _ _ _ _ _ Hok).
    + rewrite owes_cons, decide_True by done. lia.
  - intros m Hm. rewrite owes_cons, decide_False by congruence. split; [done | set_solver].
Qed.

Lemma release_inv s owed tr D W n p : inv s (n :: owed) tr D W -> pool_of s n = Some p -> W n = [] ->
  exists r, Resource.release s.(vtime) p.(resources) = Ok r /\ inv (put_pool n (set_pool_resources r p) s) owed tr D W.
Proof.
  intros Hi Hp Hw. pose proof (inv_pool _ _ _ _ _ Hi n p Hp) as Hok. pose proof (po_range _ _ _ _ _ _ Hok). pose proof (po_int _ _ _ _ _ _ Hok).
  pose proof (po_count _ _ _ _ _ _ Hok) as Hc. rewrite owes_cons, decide_True in Hc by done.
  eexists. split.
  { unfold Resource.release. destruct (Z.ltb_spec (Resource.resources (resources p)) (Resource.nresources (resources p))); [done | lia]. }
  apply (inv_ext _ _ _ _ (<[n := W n]> W)).
  { intros m. destruct (decide (m = n)) as [->|]; [by rewrite fn_lookup_insert | by rewrite fn_lookup_insert_ne]. }
  assert (int_add (Resource.resources (resources p)) 1 = Resource.resources (resources p) + 1) as Hs by (apply wrap_id; lia).
  eapply inv_put_pool; [exact Hi | exact Hp | | | done | intros c Hc0; by apply (inv_waits _ _ _ _ _ Hi) in Hc0 as [? _]].
  - apply (pool_ok_resources s (n :: owed)); cbn [Resource.set_resources Resource.resources Resource.nresources]; rewrite ?Hs; [done | lia | done | done | | lia].
    rewrite owes_cons, decide_True by done. lia.
  - intros m Hm. rewrite owes_cons, decide_False by congruence. split; [done | set_solver].
Qed.

(** ** A service starts *)
Definition started (s : Sim) (n : nat) (c : Object) (x : Customer T) (nd : Node) : Sim :=
  put_node n (set_lastEndServiceEvent (Some s.(nextId)) nd)
    (set_events (<[s.(nextId) := mkEvent (t_add s.(vtime) x.(serviceDemand)) c n]> s.(events)) (set_nextId (S s.(nextId)) s)).

Lemma started_events s n c x nd e : (e < s.(nextId))%nat -> (started s n c x nd).(events) !! e = s.(events) !! e.
Proof. intros He. cbn. rewrite lookup_insert_ne by lia. done. Qed.

Lemma started_pool s n c x nd m : s.(nodes) !! n = Some nd -> pool_of (started s n c x nd) m = pool_of s m.
Proof.
  intros Hn. unfold pool_of. cbn. destruct (decide (m = n)) as [->|]; [by rewrite lookup_insert_eq, Hn | by rewrite lookup_insert_ne].
Qed.

Lemma started_still s n c x nd : s.(nodes) !! n = Some nd -> still s (started s n c x nd).
Proof.
  intros Hn. split; cbn; try done; [|lia|intros e He; rewrite lookup_insert_ne by lia; done].
  intros m. destruct (decide (m = n)) as [->|]; [by rewrite lookup_insert_eq, Hn | by rewrite lookup_insert_ne].
Qed.

Section start.
Context (s : Sim) (owed owed' tr D : list nat) (W : nat -> list Object) (n : nat) (c : Object) (nd : Node) (x : Customer T).
Context (Hi : inv s owed' (c :: tr) D W) (Hx : s.(customers) !! c = Some x) (Hl : x.(location) = Some n) (Hn : s.(nodes) !! n = Some nd).
(** A pool is owed one release less. *)
Context (Howed : forall m, is_Some (pool_of s m) -> owes owed' m = ((if decide (m = n) then 1 else 0) + owes owed m)%nat).
Context (Hsub : forall m, m <> n -> m ∈ owed' -> m ∈ owed) (Hserve : service_node s n).
Local Abbreviation e := s.(nextId).
Local Abbreviation s' := (started s n c x nd).

Lemma start_known e' : e' ∈ D -> (e' < e)%nat.
Proof. intros He. by apply (inv_events _ _ _ _ _ Hi). Qed.

Lemma start_node_of e' : e' ∈ D -> node_of s' e' = node_of s e'.
Proof. intros He%start_known. unfold node_of. by rewrite started_events. Qed.

Lemma start_customers : map (customer_of s') D = map (customer_of s) D.
Proof.
  apply map_ext_in. intros e' He%list_elem_of_In%start_known. unfold customer_of. by rewrite started_events.
Qed.

Lemma start_new : (s'.(events) !! e = Some (mkEvent (t_add s.(vtime) x.(serviceDemand)) c n)) /\ (e ∉ D) /\ customer_of s' e = c /\ node_of s' e = Some n.
Proof.
  assert (s'.(events) !! e = Some (mkEvent (t_add s.(vtime) x.(serviceDemand)) c n)) as He by (cbn; by rewrite lookup_insert_eq).
  split_and!; [done | intros Hd%start_known; lia | unfold customer_of; by rewrite He | unfold node_of; by rewrite He].
Qed.

Lemma start_pool m p D' : D' ≡ₚ e :: D -> pool_of s m = Some p -> pool_ok s' owed D' m p (W m).
Proof.
  intros HD Hp. pose proof (inv_pool _ _ _ _ _ Hi m p Hp) as Hok. destruct start_new as (_ & _ & _ & Hen).
  specialize (Howed m ltac:(by eexists)).
  assert (services s' m D' = (if decide (m = n) then 1 else 0) + services s m D)%nat as Hsv.
  { rewrite (services_perm _ _ _ _ HD), services_cons, Hen. rewrite (services_ext s s') by apply start_node_of.
    f_equal. repeat case_decide; congruence. }
  destruct (decide (m = n)) as [->|Hne].
  - destruct Hok as [Hq Hcap Ha Hr Hsome Hint Hid Hc Hrel Hs1 Hla]. split; try done; [rewrite Hsv; lia|].
    intros _ _ _. exists (set_lastEndServiceEvent (Some e) nd), e. cbn [started put_node set_nodes nodes]. rewrite lookup_insert_eq.
    split_and!; [done | done | rewrite HD; by left | done].
  - eapply pool_ok_frame; [done | by intros d y _ Hy; exists y | by intros d y Hy; exists y | rewrite Hsv; lia | by apply Hsub | |].
    + cbn. by rewrite lookup_insert_ne.
    + intros _ e' He' Hn'. rewrite HD. split; [by right | by rewrite start_node_of].
Qed.

Lemma start_inv d D' : D' ≡ₚ e :: D -> holds d D' -> inv (set_diary d s') owed tr D' W.
Proof.
  intros HD Hd. destruct start_new as (Hev & Hno & Hec & Hen). pose proof Hi as [Id Io Ie Ix It Is Isn Iw Iwo In Ia Ip If Ib].
  assert (map (customer_of s') D' ≡ₚ c :: map (customer_of s) D) as Hmap.
  { rewrite HD. cbn [map]. by rewrite start_customers, Hec. }
  assert (tr ++ map (customer_of s') D' ≡ₚ c :: tr ++ map (customer_of s) D) as Hall by (rewrite Hmap; by rewrite Permutation_middle).
  split; try done.
  - rewrite HD. by constructor.
  - intros e'. rewrite HD. intros [->|He]%elem_of_cons; [by cbn; rewrite lookup_insert_eq; split; [eexists | lia]|].
    destruct (Ie e' He) as [Hs Hlt]. change (is_Some (s'.(events) !! e') /\ (e' < S e)%nat). rewrite started_events by done. split; [done | lia].
  - change (NoDup (tr ++ map (customer_of s') D')). by rewrite Hall.
  - intros c' Hc'. apply It. by right.
  - intros e' ev. rewrite HD. change (events (set_diary d s')) with (events s'). intros [->|He]%elem_of_cons Hev'.
    + rewrite Hev in Hev'. simplify_eq. cbn. unfold located. by rewrite Hx; cbn; rewrite Hl.
    + rewrite started_events in Hev' by by apply start_known. by apply (Is e').
  - intros e' ev. rewrite HD. change (events (set_diary d s')) with (events s'). intros He Hev'.
    change (service_node s' (node ev)). unfold service_node. rewrite (still_shape _ _ (started_still s n c x nd Hn)).
    apply elem_of_cons in He as [->|He]; [rewrite Hev in Hev'; by simplify_eq|].
    rewrite started_events in Hev' by by apply start_known. by apply (Isn e').
  - intros m c' Hc'. destruct (Iw m c' Hc') as [Hloc Hni]. split; [done|].
    change (c' ∉ tr ++ map (customer_of s') D'). rewrite Hall. exact Hni.
  - intros m. change (pool_of (set_diary d s') m) with (pool_of s' m). rewrite started_pool by done. apply In.
  - intros c' y Hy. change (c' ∈ tr ++ map (customer_of s') D' \/ exists n, c' ∈ W n). rewrite Hall. by apply (Ia c' y).
  - intros m p. change (pool_of (set_diary d s') m) with (pool_of s' m). rewrite started_pool by done. intros Hp.
    pose proof (start_pool m p D' HD Hp) as [? ? ? ? ? ? ? ? ? ? ?]. by split.
Qed.

Lemma invokeService_inv : exists s2 D', invokeService n c s = Ok s2 /\ inv s2 owed tr D' W /\ still s s2 /\ newer s D D'.
Proof.
  unfold invokeService, get. rewrite Hx. cbn [mbind res_bind]. unfold get_node. cbn [set_events set_nextId nodes]. rewrite Hn.
  cbn [mbind res_bind]. fold (started s n c x nd). unfold schedule.
  destruct start_new as (Hev & _ & _ & _).
  assert (forall e', e' ∈ e :: D -> exists t, event_time s' e' = Ok t) as Ht.
  { intros e' [->|He]%elem_of_cons; unfold event_time; [rewrite Hev; by eexists|]. rewrite started_events by by apply start_known.
    destruct (inv_events _ _ _ _ _ Hi e' He) as [[ev ->] _]. by eexists. }
  set (b := fun y z => match before s' y z with Ok b => b | Err _ => false end).
  destruct (insertInOrder_holds b (before s') e (diary s) D (inv_diary _ _ _ _ _ Hi)) as (d & Hd & Hh).
  { intros e' He. unfold b, before. destruct (Ht e' ltac:(by right)) as [t ->]. destruct (Ht e ltac:(by left)) as [t' ->]. done. }
  change (diary s') with (diary s). rewrite Hd. cbn [mbind res_bind]. eexists _, _. split; [done|].
  pose proof (insert_in_order_perm b e D) as HD. split; [by eapply start_inv|]. split.
  - eapply still_trans; [by apply (started_still s n c x nd)|]. by split.
  - intros e'. rewrite HD. intros [->|]%elem_of_cons; [by right | by left].
Qed.
End start.

Lemma owed_more owed n m : owes (n :: owed) m = ((if decide (m = n) then 1 else 0) + owes owed m)%nat.
Proof. rewrite owes_cons. repeat case_decide; congruence. Qed.

(** A node without resources can be owed nothing. *)
Lemma inv_owe s owed tr D W n : pool_of s n = None -> inv s owed tr D W <-> inv s (n :: owed) tr D W.
Proof.
  intros Hn. split; intros [Id Io Ie Ix It Is Isn Iw Iwo In Ia Ip If Ib]; (split; try done); intros m p Hp;
    assert (m <> n) as Hne by (intros ->; congruence); specialize (Ip m p Hp);
    (eapply pool_ok_frame; [exact Ip | by intros d y _ Hy; exists y | by intros d y Hy; exists y | | set_solver | done | done]);
    rewrite owed_more, decide_False by done; done.
Qed.

(** ** Queues *)
Lemma queue_room s owed tr D W n : inv s owed tr D W -> Z.of_nat (length (W n)) < Queue.INT_MAX.
Proof.
  intros Hi. pose proof (inv_bound _ _ _ _ _ Hi) as Hb.
  assert (length (W n) <= size s.(customers))%nat; [|unfold Queue.INT_MAX; lia].
  rewrite <- size_dom, <- (size_list_to_set (C:=gset nat)) by apply (inv_waits_once _ _ _ _ _ Hi).
  apply subseteq_size. intros c Hc%elem_of_list_to_set. apply elem_of_dom.
  apply (inv_waits _ _ _ _ _ Hi) in Hc as [Hl _]. by eapply located_known.
Qed.

Lemma pool_ok_queue s cs owed D n p xs xs' q' : pool_ok s owed D n p xs ->
  queued cs q' xs' -> q'.(Queue.capacity) = Queue.INT_MAX -> (forall c, is_Some (cs !! c) -> admits cs q' c) ->
  p.(resources).(Resource.resources) = 0 \/ xs' = [] ->
  pool_ok (put_pool n (set_queue q' p) (set_customers cs s)) owed D n (set_queue q' p) xs'.
Proof.
  intros [Hq Hcap Ha Hr Hsome Hint Hi Hc Hrel Hs1 Hl] Hq' Hcap' Ha' Hx. split; cbn; try done.
  - intros Hpos. destruct Hx; [lia | done].
  - intros Hp He Hno. destruct (Hl Hp He Hno) as (nd & e & Hn & Hla & HeD & Hen).
    exists (set_class (PoolNode (set_queue q' p)) nd), e. by rewrite lookup_alter_eq, Hn.
Qed.

Lemma enqueue_inv insert place now s owed c tr D W n p : inserts insert place -> inv s owed (c :: tr) D W ->
  pool_of s n = Some p -> p.(resources).(Resource.resources) = 0 -> located s.(customers) c n ->
  exists cs q xs, Queue.enqueue_with insert now c s.(customers) p.(queue) = Ok (cs, q) /\
    inv (put_pool n (set_queue q p) (set_customers cs s)) owed tr D (<[n := xs]> W) /\
    still s (put_pool n (set_queue q p) (set_customers cs s)).
Proof.
  intros Hip Hi Hp Hres Hc. pose proof (inv_pool _ _ _ _ _ Hi n p Hp) as Hok.
  destruct (inv_transit _ _ _ _ _ Hi c ltac:(by left)) as [x Hx]. pose proof (queue_room _ _ _ _ _ n Hi) as Hroom.
  destruct (enqueue_queued insert place now c x _ _ _ Hip (po_queued _ _ _ _ _ _ Hok)
    (po_accepts _ _ _ _ _ _ Hok c ltac:(by eexists)) Hx ltac:(rewrite (po_capacity _ _ _ _ _ _ Hok); done)) as (d & xs & He & Hpl & Hq & Ha).
  set (cs := <[c := setQueueInsertionTime now x]> (customers s)) in *. pose proof (proj1 Hip _ _ _ _ Hpl) as Hperm.
  exists cs. eexists _, xs. split; [exact He|].
  assert (quiet (c :: tr) s (set_customers cs s)) as Hquiet.
  { split; try done. by eapply same_customers_put; [| | |right]. }
  pose proof (inv_quiet _ _ _ _ _ _ Hi Hquiet) as Hi'. split.
  - eapply inv_put_pool; [exact Hi' | exact Hp | | done | by rewrite Hperm, <- Permutation_middle |].
    + eapply (pool_ok_queue s); [exact Hok | exact Hq | by apply (po_capacity _ _ _ _ _ _ Hok) | | by left]. intros c' [y Hy]. apply Ha.
      apply (po_accepts _ _ _ _ _ _ Hok). unfold cs in Hy. destruct (decide (c' = c)) as [->|]; [by eexists|].
      rewrite lookup_insert_ne in Hy by done. by eexists.
    + assert (located cs c n) as Hc'. { unfold located, cs in *. rewrite lookup_insert_eq. by rewrite Hx in Hc. }
      intros c'. rewrite Hperm. intros [->|Hw]%elem_of_cons; [done|].
      by apply (inv_waits _ _ _ _ _ Hi') in Hw as [? _].
  - eapply still_trans; [apply still_set_customers; intros c'; by apply (seen_put _ c x (setQueueInsertionTime now x))|]. by apply (still_put_pool _ _ p).
Qed.

Lemma isEmpty_queued cs (q : Queue.Queue T Q) xs : queued cs q xs -> Queue.isEmpty q = bool_decide (xs = []).
Proof.
  intros Hq. unfold Queue.isEmpty. rewrite (queued_pop _ _ _ Hq). destruct xs; [done|]. cbn [length].
  rewrite bool_decide_false by done. apply Z.eqb_neq. lia.
Qed.

Lemma releaseResource_inv s owed tr D W n p : inv s (n :: owed) tr D W -> pool_of s n = Some p ->
  exists s' D' W', releaseResource n p s = Ok s' /\ inv s' owed tr D' W' /\ still s s' /\ newer s D D'.
Proof.
  intros Hi Hp. pose proof (inv_pool _ _ _ _ _ Hi n p Hp) as Hok. pose proof (po_queued _ _ _ _ _ _ Hok) as Hq.
  unfold releaseResource. rewrite (isEmpty_queued _ _ _ Hq). destruct (W n) as [|c xs] eqn:Hw.
  - rewrite bool_decide_true by done. cbn [negb]. destruct (release_inv _ _ _ _ _ _ _ Hi Hp Hw) as (r & -> & Hi').
    cbn [mbind res_bind]. eexists _, D, W. split; [done|]. split; [done|]. split; [by apply (still_put_pool _ _ p) | by left].
  - rewrite bool_decide_false by done. cbn [negb]. destruct (dequeue_queued s.(vtime) c xs _ _ Hq) as (d & x & He & Hx & Hq' & Ha).
    set (q' := departed _ _ _ _) in *. rewrite He. cbn [mbind res_bind].
    assert (located s.(customers) c n) as Hc by (apply (inv_waits _ _ _ _ _ Hi); rewrite Hw; by left).
    assert (p.(resources).(Resource.resources) = 0) as Hres.
    { pose proof (po_range _ _ _ _ _ _ Hok). destruct (decide (0 < p.(resources).(Resource.resources))) as [Hpos|]; [|lia].
      by apply (po_idle _ _ _ _ _ _ Hok) in Hpos. }
    assert (inv (put_pool n (set_queue q' p) s) (n :: owed) (c :: tr) D (<[n := xs]> W)) as Hi'.
    { eapply inv_put_pool; [exact Hi | exact Hp | | done | by rewrite Hw, <- Permutation_middle |].
      - change (put_pool n (set_queue q' p) s) with (put_pool n (set_queue q' p) (set_customers s.(customers) s)).
        eapply (pool_ok_queue s); [exact Hok | done | by apply (po_capacity _ _ _ _ _ _ Hok) | | by left].
        intros c' Hc'. by apply Ha, (po_accepts _ _ _ _ _ _ Hok).
      - intros c' Hc'. apply (inv_waits _ _ _ _ _ Hi n). rewrite Hw. by right. }
    destruct (node_of_pool _ _ _ Hp) as (nd & Hn & Hcl).
    destruct (invokeService_inv _ owed (n :: owed) tr D _ n c (set_class (PoolNode (set_queue q' p)) nd) x Hi') as (s2 & D' & -> & Hi2 & Hs2 & Hnew).
    + done.
    + unfold located in Hc. rewrite Hx in Hc. cbn in Hc. by simplify_eq.
    + cbn. by rewrite lookup_alter_eq, Hn.
    + intros m _. apply owed_more.
    + intros m Hm [->|]%elem_of_cons; done.
    + by apply service_put, (pool_service _ _ p).
    + eexists _, D', _. split; [done|]. split; [done|]. split; [|done]. eapply still_trans; [|exact Hs2]. by apply (still_put_pool _ _ p).
Qed.

(** ** An event leaves the diary *)
Lemma unscheduled_inv s owed tr D W e ev D0 d : inv s owed tr D W -> D ≡ₚ e :: D0 -> s.(events) !! e = Some ev -> holds d D0 ->
  inv (set_diary d s) (ev.(node) :: owed) (ev.(customer) :: tr) D0 W.
Proof.
  intros Hi HD Hev Hd. pose proof Hi as [Id Io Ie Ix It Is Isn Iw Iwo In Ia Ip If Ib]. rewrite HD in Io. apply NoDup_cons in Io as [Hno Io].
  assert (forall e', e' ∈ D0 -> e' ∈ D) as Hin by (intros e' He; rewrite HD; by right).
  assert (e ∈ D) as HeD by (rewrite HD; by left).
  assert (tr ++ map (customer_of s) D ≡ₚ (customer ev :: tr) ++ map (customer_of s) D0) as Hall.
  { rewrite HD. cbn [map]. unfold customer_of at 1. rewrite Hev. cbn. by rewrite Permutation_middle. }
  split; try done.
  - intros e' He. by apply Ie, Hin.
  - change (NoDup ((customer ev :: tr) ++ map (customer_of s) D0)). by rewrite <- Hall.
  - intros c [->|Hc]%elem_of_cons; [|by apply It]. by apply (located_known _ _ (node ev)), (Is e).
  - intros e' ev' He. apply Is. by apply Hin.
  - intros e' ev' He. apply Isn. by apply Hin.
  - intros n c Hc. destruct (Iw n c Hc) as [Hl Hni]. split; [done|]. change (c ∉ (customer ev :: tr) ++ map (customer_of s) D0). by rewrite <- Hall.
  - intros c x Hx. change (c ∈ (customer ev :: tr) ++ map (customer_of s) D0 \/ exists n, c ∈ W n). rewrite <- Hall. by apply (Ia c x).
  - intros m p Hp. specialize (Ip m p Hp).
    assert (node_of s e = Some ev.(node)) as Hen by (unfold node_of; by rewrite Hev).
    eapply pool_ok_frame; [exact Ip | by intros c y _ Hy; exists y | by intros c y Hy; exists y | | by right | done |].
    + rewrite (services_perm s m _ _ HD), services_cons, Hen, owed_more. change (services (set_diary d s) m D0) with (services s m D0).
      repeat case_decide; simplify_eq; lia.
    + intros Hm e' He Hn. split; [|done]. rewrite HD in He. apply elem_of_cons in He as [->|He]; [|done].
      rewrite Hen in Hn. simplify_eq. exfalso. apply Hm. by left.
Qed.

(** ** Arrivals at a pool *)
Lemma preempt_inv resume s owed tr D W n p : inv s owed tr D W -> pool_of s n = Some p -> preemptive p.(pool_type) = true ->
  p.(resources).(Resource.resources) = 0 -> n ∉ owed ->
  exists s' D' W', preempt resume n s = Ok s' /\ inv s' (n :: owed) tr D' W' /\ still s s' /\ newer s D D'.
Proof.
  intros Hi Hp Hpre Hres Hno. pose proof (inv_pool _ _ _ _ _ Hi n p Hp) as Hok.
  destruct (po_last _ _ _ _ _ _ Hok Hpre Hres Hno) as (nd & e & Hn & Hla & HeD & Hen).
  destruct (node_of_pool _ _ _ Hp) as (nd' & Hn' & Hcl). simplify_eq.
  destruct (list_elem_of_split_l _ _ HeD) as (D1 & D2 & -> & Hno1).
  destruct (remove_holds e _ _ _ (inv_diary _ _ _ _ _ Hi) Hno1) as (d & Hd & Hh).
  destruct (proj1 (inv_events _ _ _ _ _ Hi e HeD)) as [ev Hev].
  assert (ev.(node) = n) as Hevn by (unfold node_of in Hen; rewrite Hev in Hen; by injection Hen).
  pose proof (inv_served _ _ _ _ _ Hi e ev HeD Hev) as Hloc. rewrite Hevn in Hloc.
  pose proof (unscheduled_inv s owed tr _ W e ev (D1 ++ D2) d Hi ltac:(by rewrite Permutation_middle) Hev Hh) as Hi1. rewrite Hevn in Hi1.
  destruct (located_known _ _ _ Hloc) as [x Hx].
  set (s2 := put_customer (customer ev) (setServiceDemand (remainingServiceTime resume ev x (set_diary d s)) x) (set_diary d s)).
  assert (quiet (customer ev :: tr) (set_diary d s) s2) as Hquiet by (split; try done; by eapply same_customers_put; [| | |right]).
  assert (located s2.(customers) ev.(customer) n) as Hloc2.
  { unfold located, s2 in *. cbn. rewrite lookup_insert_eq. rewrite Hx in Hloc. exact Hloc. }
  destruct (enqueue_inv _ _ s.(vtime) s2 (n :: owed) (customer ev) tr _ _ n p at_head_inserts (inv_quiet _ _ _ _ _ _ Hi1 Hquiet) Hp Hres Hloc2)
    as (cs & q & xs & He & Hi3 & Hs3).
  unfold preempt, get_node. rewrite Hn. cbn [mbind res_bind]. rewrite Hla, Hcl. unfold deschedule. rewrite Hd. cbn [mbind res_bind].
  change (events (set_diary d s)) with (events s). rewrite Hev. unfold get. change (customers (set_diary d s)) with (customers s). rewrite Hx.
  cbn [mbind res_bind]. fold s2. unfold Queue.enqueueAtHead. change (vtime s2) with (vtime s). rewrite He. cbn [mbind res_bind].
  eexists _, (D1 ++ D2), _. split; [done|]. split; [exact Hi3|]. split.
  - eapply still_trans; [|exact Hs3]. split; try done. intros c. by apply (seen_put _ _ x).
  - intros e' He'. left. rewrite elem_of_app in *. destruct He'; [by left | right; by right].
Qed.

Lemma claim_then_start s owed c tr D W n p : inv s owed (c :: tr) D W -> pool_of s n = Some p ->
  0 < p.(resources).(Resource.resources) -> located s.(customers) c n ->
  exists r s' D', Resource.claim s.(vtime) p.(resources) = Ok r /\ invokeService n c (put_pool n (set_pool_resources r p) s) = Ok s' /\
    inv s' owed tr D' W /\ still s s' /\ newer s D D'.
Proof.
  intros Hi Hp Hres Hl. destruct (claim_inv _ _ _ _ _ _ _ Hi Hp Hres) as (r & Hr & Hi'). destruct (node_of_pool _ _ _ Hp) as (nd & Hn & Hcl).
  unfold located in Hl. destruct (customers s !! c) as [x|] eqn:Hx; [|done]. cbn in Hl.
  destruct (invokeService_inv _ owed (n :: owed) tr D _ n c (set_class (PoolNode (set_pool_resources r p)) nd) x Hi') as (s2 & D' & H2 & Hi2 & Hs2 & Hnew).
  - done.
  - by simplify_eq.
  - cbn. by rewrite lookup_alter_eq, Hn.
  - intros m _. apply owed_more.
  - intros m Hm [->|]%elem_of_cons; done.
  - by apply service_put, (pool_service _ _ p).
  - exists r, s2, D'. split_and!; try done. eapply still_trans; [|exact Hs2]. by apply (still_put_pool s n p).
Qed.

Lemma accept_pool_inv enter s owed c tr D W n p : inv s owed (c :: tr) D W -> pool_of s n = Some p -> located s.(customers) c n ->
  exists s' D' W', accept_pool enter n p c s = Ok s' /\ inv s' owed tr D' W' /\ still s s' /\ newer s D D'.
Proof.
  intros Hi Hp Hl. pose proof (inv_pool _ _ _ _ _ Hi n p Hp) as Hok. pose proof (po_range _ _ _ _ _ _ Hok) as Hr.
  unfold accept_pool, Resource.resourceIsAvailable. destruct (Z.ltb_spec 0 (Resource.resources (resources p))) as [Hpos|Hz].
  - destruct (claim_then_start _ _ _ _ _ _ _ _ Hi Hp Hpos Hl) as (r & s' & D' & -> & H2 & H3). cbn [mbind res_bind]. by exists s', D', W.
  - unfold Queue.canAccept. rewrite (queued_pop _ _ _ (po_queued _ _ _ _ _ _ Hok)), (po_capacity _ _ _ _ _ _ Hok).
    pose proof (queue_room _ _ _ _ _ n Hi). destruct (Z.ltb_spec (Z.of_nat (length (W n))) Queue.INT_MAX); [|lia].
    destruct (enqueue_inv _ _ s.(vtime) _ _ _ _ _ _ n p at_tail_inserts Hi Hp ltac:(lia) Hl) as (cs & q & xs & He & Hi' & Hs').
    unfold Queue.enqueue. rewrite He. cbn [mbind res_bind]. eexists _, D, _. split; [done|]. split; [done|]. split; [done | by left].
Qed.

Lemma accept_preemptive_inv resume s owed c tr D W n p : inv s owed (c :: tr) D W -> pool_of s n = Some p -> located s.(customers) c n ->
  preemptive p.(pool_type) = true -> n ∉ owed ->
  exists s' D' W', accept_preemptive resume n p c s = Ok s' /\ inv s' owed tr D' W' /\ still s s' /\ newer s D D'.
Proof.
  intros Hi Hp Hl Hpre Hno. pose proof (inv_pool _ _ _ _ _ Hi n p Hp) as Hok. pose proof (po_range _ _ _ _ _ _ Hok) as Hr.
  unfold accept_preemptive, Resource.resourceIsAvailable. destruct (Z.ltb_spec 0 (Resource.resources (resources p))) as [Hpos|Hz].
  - destruct (claim_then_start _ _ _ _ _ _ _ _ Hi Hp Hpos Hl) as (r & s' & D' & -> & H2 & H3). cbn [mbind res_bind]. by exists s', D', W.
  - destruct (preempt_inv resume _ _ _ _ _ _ _ Hi Hp Hpre ltac:(lia) Hno) as (s1 & D1 & W1 & -> & Hi1 & Hs1 & Hnew1). cbn [mbind res_bind].
    destruct (node_of_pool _ _ _ Hp) as (nd & Hn & _). pose proof (still_shape _ _ Hs1 n) as Hsh. rewrite Hn in Hsh. cbn in Hsh.
    destruct (nodes s1 !! n) as [nd1|] eqn:Hn1; [|done]. pose proof (still_customers _ _ Hs1 c) as Hc.
    unfold located in Hl. destruct (customers s !! c) as [x|]; [|done]. destruct (customers s1 !! c) as [x1|] eqn:Hx1; [|done].
    cbn in Hc, Hl. unfold seen in Hc. simplify_eq.
    destruct (invokeService_inv s1 owed (n :: owed) tr D1 _ n c nd1 x1 Hi1) as (s2 & D' & -> & Hi2 & Hs2 & Hnew).
    + done.
    + congruence.
    + done.
    + intros m _. apply owed_more.
    + intros m Hm [->|]%elem_of_cons; done.
    + unfold service_node. rewrite (still_shape _ _ Hs1). by apply (pool_service _ _ p).
    + exists s2, D', W1. split; [done|]. split; [done|]. split; [by eapply still_trans|].
      intros e He. pose proof (still_next _ _ Hs1). destruct (Hnew e He) as [He'|]; [by apply Hnew1 | right; lia].
Qed.

(** ** A customer leaves the network *)
Lemma complete_inv s owed c tr D W n : inv s owed (c :: tr) D W -> located s.(customers) c n ->
  exists s', complete c s = Ok s' /\ inv s' owed tr D W /\ s'.(customers) = delete c s.(customers) /\
    s'.(completions) = s.(completions) + 1 /\ s'.(nodes) = s.(nodes) /\ s'.(nextId) = s.(nextId) /\ s'.(events) = s.(events).
Proof.
  intros Hi Hl. destruct (located_known _ _ _ Hl) as [x Hx]. pose proof Hi as [Id Io Ie Ix It Is Isn Iw Iwo In Ia Ip If Ib].
  unfold complete, get. rewrite Hx. cbn [mbind res_bind]. rewrite (If _ _ Hx). eexists. split; [done|]. cbn.
  assert (size (customers s) = S (size (delete c (customers s)))) as Hsz.
  { rewrite (map_size_delete_Some c) by by eexists. assert (size (customers s) <> 0)%nat; [|lia]. intros E%map_size_empty_inv. by rewrite E in Hx. }
  assert (int_add (completions s) 1 = completions s + 1) as Hadd by (apply wrap_id; lia).
  split_and!; try done. change (NoDup (c :: tr ++ map (customer_of s) D)) in Ix. apply NoDup_cons in Ix as [Hno Ix].
  assert (forall d, d ∈ tr ++ map (customer_of s) D -> d <> c) as Hne by (intros d Hd ->; by apply Hno).
  assert (forall m d, d ∈ W m -> d <> c) as HneW by (intros m d Hd ->; apply (Iw m c Hd); by left).
  split; cbn; rewrite ?Hadd; try done.
  - intros d Hd. rewrite lookup_delete_ne; [by apply It; right|]. intros ->. by apply (Hne d); [set_solver|].
  - intros e ev He Hev. unfold located. rewrite lookup_delete_ne; [by apply (Is e)|]. intros E.
    apply (Hne (customer ev)); [|done]. apply elem_of_app. right. apply list_elem_of_In, in_map_iff. exists e.
    split; [unfold customer_of; by rewrite Hev | by apply list_elem_of_In].
  - intros m d Hd. destruct (Iw m d Hd) as [Hld Hnd]. split; [|set_solver]. unfold located.
    rewrite lookup_delete_ne; [done | by apply not_eq_sym, (HneW m)].
  - intros d y [Hne' Hy]%lookup_delete_Some. destruct (Ia d y Hy) as [Hin|?]; [|by right]. left.
    cbn in Hin. apply elem_of_cons in Hin as [->|]; done.
  - intros m p Hp. eapply pool_ok_frame; [by apply Ip | | | done | done | done | done].
    + intros d y Hd Hy. exists y. cbn. rewrite lookup_delete_ne; [done | by apply not_eq_sym, (HneW m)].
    + intros d y Hy. cbn in Hy. apply lookup_delete_Some in Hy as [_ Hy]. by exists y.
  - intros d y [_ Hy]%lookup_delete_Some. by apply (If d).
  - lia.
Qed.

(** ** Networks without cycles

    [rank] falls along every link. *)
Context (rank : nat -> nat).

Definition leads (l : Link) (ty : Z) : option nat :=
  match l with
  | LinkTo n => Some n
  | Earth => None
  | ClassDependentBranch classes ns => '(i, _) ← list_find (fun k => k = ty) classes; ns !! i
  end.

Lemma next_node_leads l c (x : Customer T) m (s : Sim) : s.(customers) !! c = Some x -> leads l x.(type) = Some m -> next_node l c s = Ok m.
Proof.
  intros Hx Hl. destruct l as [n|classes ns|]; cbn in *; [by simplify_eq | | done]. unfold get. rewrite Hx. cbn.
  destruct (list_find _ classes) as [[i k]|]; [|done]. cbn in Hl. by rewrite Hl.
Qed.

(** Customers of every class that is around find a next node, but for sinks,
    which they do not leave. *)
Definition acyclic (s : Sim) : Prop :=
  forall n l k, shape <$> s.(nodes) !! n = Some (l, k) ->
    k <> inl 2%nat /\ (k <> inl 1%nat -> forall c x, s.(customers) !! c = Some x ->
      exists m, leads l x.(type) = Some m /\ is_Some (s.(nodes) !! m) /\ (rank m < rank n)%nat).

(** What a movement of customers leaves: the network, the classes of the
    customers, and their number, those included that left. *)
Record moved (s s' : Sim) : Prop := {
  moved_shape n : shape <$> s'.(nodes) !! n = shape <$> s.(nodes) !! n;
  moved_types c x' : s'.(customers) !! c = Some x' -> exists x, s.(customers) !! c = Some x /\ x.(type) = x'.(type);
  moved_count : s'.(completions) + Z.of_nat (size s'.(customers)) = s.(completions) + Z.of_nat (size s.(customers));
  moved_next : (s.(nextId) <= s'.(nextId))%nat;
  moved_events e : (e < s.(nextId))%nat -> s'.(events) !! e = s.(events) !! e;
}.

Lemma seen_dom (cs cs' : Customers T) : (forall c, seen <$> cs' !! c = seen <$> cs !! c) -> size cs' = size cs.
Proof.
  intros Hc. rewrite <- !size_dom. f_equal. apply set_eq. intros c. rewrite !elem_of_dom. specialize (Hc c).
  destruct (cs !! c), (cs' !! c); try done; by split; intros [? ?].
Qed.

Lemma still_moved s s' : still s s' -> moved s s'.
Proof.
  intros [Hc Hs Hco Hn He]. split; try done.
  - intros c x' Hx'. specialize (Hc c). rewrite Hx' in Hc. destruct (customers s !! c) as [x|]; [|done].
    exists x. split; [done|]. cbn in Hc. unfold seen in Hc. by simplify_eq.
  - by rewrite Hco, (seen_dom _ _ Hc).
Qed.

Lemma moved_trans s1 s2 s3 : moved s1 s2 -> moved s2 s3 -> moved s1 s3.
Proof.
  intros [A1 A2 A3 A4 A5] [B1 B2 B3 B4 B5]. split; [intros; by rewrite B1 | | lia | lia |].
  - intros c x3 H3. destruct (B2 _ _ H3) as (x2 & H2 & E2). destruct (A2 _ _ H2) as (x1 & H1' & E1). exists x1. split; [done | congruence].
  - intros e He. rewrite B5 by lia. by apply A5.
Qed.

Lemma moved_acyclic s s' : moved s s' -> acyclic s -> acyclic s'.
Proof.
  intros Hm Ha n l k Hn. rewrite (moved_shape _ _ Hm) in Hn. destruct (Ha n l k Hn) as [Hk Hl]. split; [done|].
  intros Hk1 c x' Hx'. destruct (moved_types _ _ Hm _ _ Hx') as (x & Hx & <-). destruct (Hl Hk1 c x Hx) as (m & H1' & H2' & H3').
  exists m. split; [done|]. split; [|done]. pose proof (moved_shape _ _ Hm m) as Hs. destruct H2' as [nd Hnd]. rewrite Hnd in Hs.
  by destruct (nodes s' !! m).
Qed.

(** How far the customers have to go. *)
Definition distance (o : option (option nat)) : nat := match o with Some (Some n) => S (rank n) | _ => 0 end.
Definition weight (cs : Customers T) : nat := map_fold (fun _ o w => distance (Some o) + w)%nat 0%nat (location <$> cs).

Lemma weight_seen (cs cs' : Customers T) : (forall c, seen <$> cs' !! c = seen <$> cs !! c) -> weight cs' = weight cs.
Proof.
  intros Hc. unfold weight. f_equal. apply map_eq. intros c. rewrite !lookup_fmap. specialize (Hc c).
  destruct (cs !! c), (cs' !! c); try done. cbn in *. injection Hc as _ Hloc. by rewrite Hloc.
Qed.

Lemma weight_delete (cs : Customers T) c x : cs !! c = Some x -> weight cs = (distance (Some x.(location)) + weight (delete c cs))%nat.
Proof.
  intros Hx. unfold weight. rewrite fmap_delete. apply (map_fold_delete_L (fun (_ : nat) o w => distance (Some o) + w)%nat).
  - intros j1 j2 z1 z2 y _ _ _. lia.
  - by rewrite lookup_fmap, Hx.
Qed.

Lemma weight_insert (cs : Customers T) c x x' : cs !! c = Some x ->
  (weight (<[c := x']> cs) + distance (Some x.(location)) = weight cs + distance (Some x'.(location)))%nat.
Proof.
  intros Hx. rewrite (weight_delete cs c x Hx). rewrite (weight_delete (<[c := x']> cs) c x') by by rewrite lookup_insert_eq.
  rewrite delete_insert_eq. lia.
Qed.

(** ** Movements *)
Context (sample : nat -> T).

(** The outcome of letting the customer [c], at distance [w] so far, into the
    network at distance [w']. *)
Definition arrives (s : Sim) (owed tr D : list nat) (w w' : nat) (r : res Sim) : Prop :=
  exists s' D' W', r = Ok s' /\ inv s' owed tr D' W' /\ moved s s' /\ newer s D D' /\
    (weight s'.(customers) + w <= weight s.(customers) + w')%nat.

(** From a state that differs in what concerns no queue. *)
Lemma arrives_from s s1 owed tr D w w1 w' r : moved s s1 -> s1.(nextId) = s.(nextId) ->
  (weight s1.(customers) + w = weight s.(customers) + w1)%nat -> arrives s1 owed tr D w1 w' r -> arrives s owed tr D w w' r.
Proof.
  intros Hm Hid Hw (s' & D' & W' & -> & Hi & Hm' & Hn & Hw'). exists s', D', W'. split; [done|]. split; [done|].
  split; [by eapply moved_trans|]. split; [by unfold newer in *; rewrite <- Hid | lia].
Qed.

Lemma arrives_still s owed tr D w r : (exists s' D' W', r = Ok s' /\ inv s' owed tr D' W' /\ still s s' /\ newer s D D') ->
  arrives s owed tr D w w r.
Proof.
  intros (s' & D' & W' & -> & Hi & Hs & Hn). exists s', D', W'. split; [done|]. split; [done|].
  split; [by apply still_moved|]. split; [done|]. rewrite (weight_seen _ _ (still_customers _ _ Hs)). lia.
Qed.

Lemma quiet_moved tr s s' : quiet tr s s' -> moved s s'.
Proof.
  intros [Qd Qe Qn Qc Qp Ql Hs Qco]. split; [done| | | by rewrite Qn | by rewrite Qe].
  - intros c x' Hx'. destruct (same_customers_keeps _ _ _ Qc) as [_ Hold]. destruct (Hold _ _ Hx') as (x & Hx & Hr & _). by exists x.
  - by rewrite Qco, <- size_dom, (same_customers_dom _ _ _ Qc), size_dom.
Qed.

Section entering.
Context (enter : nat -> Object -> Sim -> res Sim) (n : nat).
(** What is assumed of the nodes behind [n]. *)
Context (IH : forall m c x s owed tr D W, inv s owed (c :: tr) D W -> acyclic s -> is_Some (s.(nodes) !! m) -> (rank m < rank n)%nat ->
  (forall k, k ∈ owed -> (rank m < rank k)%nat) -> s.(customers) !! c = Some x ->
  arrives s owed tr D (distance (Some x.(location))) (S (rank m)) (enter m c s)).

Lemma move_inv c x s owed tr D W nd : inv s owed (c :: tr) D W -> acyclic s -> s.(nodes) !! n = Some nd -> (shape nd).2 <> inl 1%nat ->
  (forall k, k ∈ owed -> (rank n <= rank k)%nat) -> s.(customers) !! c = Some x ->
  arrives s owed tr D (distance (Some x.(location))) (rank n) (move enter n c s).
Proof.
  intros Hi Ha Hn Hsh Ho Hx. destruct (Ha n (shape nd).1 (shape nd).2) as [_ Hl]; [by rewrite Hn|].
  destruct (Hl Hsh c x Hx) as (m & Hm & Hmn & Hr). unfold move, get_node. rewrite Hn. cbn [mbind res_bind].
  rewrite (next_node_leads (link nd) c x m s Hx Hm). cbn [mbind res_bind].
  destruct (IH m c x s owed tr D W Hi Ha Hmn Hr ltac:(intros k Hk; specialize (Ho k Hk); lia) Hx) as (s' & D' & W' & E & Hi' & Hm' & Hnw & Hw).
  exists s', D', W'. split; [done|]. split; [done|]. split; [done|]. split; [done | lia].
Qed.

Lemma enter_base_inv c x s owed tr D W : inv s owed (c :: tr) D W -> acyclic s -> is_Some (s.(nodes) !! n) ->
  (forall k, k ∈ owed -> (rank n < rank k)%nat) -> s.(customers) !! c = Some x ->
  arrives s owed tr D (distance (Some x.(location))) (S (rank n)) (enter_base enter n c s).
Proof.
  intros Hi Ha [nd Hn] Ho Hx. unfold enter_base, get_node, get. rewrite Hn. cbn [mbind res_bind]. rewrite Hx. cbn [mbind res_bind].
  set (nd1 := set_arrivals (int_add (arrivals nd) 1) nd). set (s1 := put_customer c (setLocation (Some n) x) (put_node n nd1 s)).
  assert (quiet (c :: tr) s s1) as Hquiet.
  { split; try done.
    - eapply same_customers_put; [done | done | done | by left; left].
    - intros m. unfold pool_of. cbn. destruct (decide (m = n)) as [->|]; [by rewrite lookup_insert_eq, Hn | by rewrite lookup_insert_ne].
    - intros m. cbn. destruct (decide (m = n)) as [->|]; [by rewrite lookup_insert_eq, Hn | by rewrite lookup_insert_ne].
    - intros m. cbn. destruct (decide (m = n)) as [->|]; [by rewrite lookup_insert_eq, Hn | by rewrite lookup_insert_ne]. }
  pose proof (quiet_moved _ _ _ Hquiet) as Hm. pose proof (inv_quiet _ _ _ _ _ _ Hi Hquiet) as Hi1.
  pose proof (moved_acyclic _ _ Hm Ha) as Ha1. assert (s1.(nodes) !! n = Some nd1) as Hn1 by (cbn; by rewrite lookup_insert_eq).
  set (x1 := setLocation (Some n) x). assert (s1.(customers) !! c = Some x1) as Hx1 by (cbn; by rewrite lookup_insert_eq).
  assert (located s1.(customers) c n) as Hloc by (unfold located; by rewrite Hx1).
  assert (weight s1.(customers) + distance (Some x.(location)) = weight s.(customers) + S (rank n))%nat as Hw by apply (weight_insert _ c x x1 Hx).
  apply (arrives_from s s1 owed tr D _ (S (rank n)) (S (rank n))); [done | done | done |]. clearbody s1. clear Hquiet Hm.
  unfold accept, get_node. rewrite Hn1. cbn [mbind res_bind]. change (class nd1) with (class nd).
  destruct (class nd) as [| | | |p] eqn:Ec.
  - (* a node that only passes customers on *)
    assert ((shape nd1).2 = inl 0%nat) as Hsh by (unfold shape, nd1; cbn; by rewrite Ec).
    destruct (move_inv c x1 s1 owed tr D W nd1 Hi1 Ha1 Hn1) as (s2 & D2 & W2 & E & Hi2 & Hm2 & Hnw & Hw2);
      [by rewrite Hsh | intros k Hk; specialize (Ho k Hk); lia | done |].
    unfold forward, get_node. rewrite E. cbn [mbind res_bind]. pose proof (moved_shape _ _ Hm2 n) as Hsh2. rewrite Hn1 in Hsh2.
    destruct (nodes s2 !! n) as [nd2|]; [|done]. apply (inj Some) in Hsh2. cbn [mbind res_bind].
    assert (class nd2 = CinqsNode) as -> by (rewrite <- Hsh2 in Hsh; unfold shape in Hsh; cbn in Hsh; by destruct (class nd2)).
    exists s2, D2, W2. split; [done|]. split; [done|]. split; [done|]. split; [done|]. cbn in Hw2. lia.
  - destruct (complete_inv _ _ _ _ _ _ _ Hi1 Hloc) as (s2 & E & Hi2 & Hcs & Hco & Hno & Hid & Hev).
    exists s2, D, W. split; [done|]. split; [done|]. split.
    + split; [intros; by rewrite Hno | | | by rewrite Hid | intros; by rewrite Hev].
      * intros d y. rewrite Hcs. intros [_ Hy]%lookup_delete_Some. by exists y.
      * rewrite Hcs, Hco. rewrite (map_size_delete_Some c) by by eexists.
        assert (size (customers s1) <> 0)%nat; [intros E0%map_size_empty_inv; by rewrite E0 in Hx1 | lia].
    + split; [by left|]. rewrite Hcs. pose proof (weight_delete _ _ _ Hx1) as Hd. cbn in Hd. lia.
  - exfalso. destruct (Ha1 n (shape nd1).1 (shape nd1).2) as [Hk _]; [by rewrite Hn1|].
    apply Hk. unfold shape, nd1. cbn. by rewrite Ec.
  - assert (pool_of s1 n = None) as Hp by (unfold pool_of; rewrite Hn1; cbn; unfold nd1; cbn; by rewrite Ec).
    apply arrives_still. rewrite (inv_owe _ _ _ _ _ _ Hp) in Hi1.
    destruct (invokeService_inv s1 owed (n :: owed) tr D W n c nd1 x1 Hi1) as (s2 & D' & -> & H2 & H3 & H4);
      [done | done | done | intros m _; apply owed_more | intros m Hm [->|]%elem_of_cons; done | by unfold service_node; rewrite Hn1; cbn; rewrite Ec|]. by exists s2, D', W.
  - assert (pool_of s1 n = Some p) as Hp by (unfold pool_of; rewrite Hn1; cbn; unfold nd1; cbn; by rewrite Ec).
    assert (n ∉ owed) as Hno by (intros Hin%Ho; lia). apply arrives_still.
    destruct (pool_type p) eqn:Ep; [by apply (accept_pool_inv enter s1 owed c tr D W) | by apply (accept_pool_inv enter s1 owed c tr D W)| |];
      (apply (accept_preemptive_inv _ s1 owed c tr D W); [done | done | done | by rewrite Ep | done]).
Qed.
End entering.

(** The nodes that a customer passes without a service are fewer than the fuel. *)
Lemma enter_inv fuel : forall n c x s owed tr D W, inv s owed (c :: tr) D W -> acyclic s -> is_Some (s.(nodes) !! n) -> (rank n < fuel)%nat ->
  (forall k, k ∈ owed -> (rank n < rank k)%nat) -> s.(customers) !! c = Some x ->
  arrives s owed tr D (distance (Some x.(location))) (S (rank n)) (enter sample fuel n c s).
Proof.
  induction fuel as [|fuel IH]; intros n c x s owed tr D W Hi Ha Hn Hf Ho Hx; [lia|]. cbn [enter]. unfold get_node.
  destruct Hn as [nd Hn]. rewrite Hn. cbn [mbind res_bind].
  assert (forall m c x s owed tr D W, inv s owed (c :: tr) D W -> acyclic s -> is_Some (s.(nodes) !! m) -> (rank m < rank n)%nat ->
    (forall k, k ∈ owed -> (rank m < rank k)%nat) -> s.(customers) !! c = Some x ->
    arrives s owed tr D (distance (Some x.(location))) (S (rank m)) (enter sample fuel m c s)) as IH'.
  { intros m d y s' owed' tr' D' W' Hi' Ha' Hm' Hr. eapply IH; [exact Hi' | done | done | lia]. }
  assert (class nd = NullNode -> False) as Hnull.
  { intros Ec. destruct (Ha n (shape nd).1 (shape nd).2) as [Hk _]; [by rewrite Hn|].
    apply Hk. unfold shape. cbn. by rewrite Ec. }
  assert (arrives s owed tr D (distance (Some x.(location))) (S (rank n))
    (x ← get c s.(customers);
     enter_base (enter sample fuel) n c (put_customer c (setServiceDemand (sample s.(draws)) x) (set_draws (S s.(draws)) s)))) as Hserved.
  { unfold get. rewrite Hx. cbn [mbind res_bind]. set (x1 := setServiceDemand (sample (draws s)) x).
    set (s1 := put_customer c x1 (set_draws (S (draws s)) s)).
    assert (quiet (c :: tr) s s1) as Hquiet by (split; try done; by eapply same_customers_put; [| | |right]).
    assert (moved s s1) as Hm by (eapply quiet_moved; done).
    apply (arrives_from s s1 owed tr D _ (distance (Some (location x)))); [done | done | |].
    - pose proof (weight_insert s.(customers) c x x1 Hx) as Hw. exact Hw.
    - change (location x) with (location x1). eapply enter_base_inv; [exact IH' | by eapply inv_quiet | by eapply moved_acyclic | by eexists | done |].
      cbn. by rewrite lookup_insert_eq. }
  destruct (class nd) eqn:Ec; [| | by destruct Hnull | exact Hserved | exact Hserved];
    (eapply enter_base_inv; [exact IH' | done | done | by eexists | done | done]).
Qed.

(** ** The loop *)
Context (depth : nat).

Lemma inv_vtime t s owed tr D W : inv s owed tr D W -> inv (set_vtime t s) owed tr D W.
Proof.
  intros Hi. eapply inv_quiet; [exact Hi|]. split; try done. apply same_customers_refl.
Qed.

(** An event that is over is deleted. *)
Lemma inv_forget e s owed tr D W : inv s owed tr D W -> e ∉ D -> inv (set_events (delete e s.(events)) s) owed tr D W.
Proof.
  intros Hi He. pose proof Hi as [Id Io Ie Ix It Is Isn Iw Iwo In Ia Ip If Ib]. set (s' := set_events _ s).
  assert (forall e', e' ∈ D -> s'.(events) !! e' = s.(events) !! e') as Hev.
  { intros e' He'. cbn. rewrite lookup_delete_ne; [done|]. by intros ->. }
  assert (map (customer_of s') D = map (customer_of s) D) as Hmap.
  { apply map_ext_in. intros e' He'%list_elem_of_In. unfold customer_of. by rewrite Hev. }
  assert (forall e', e' ∈ D -> node_of s' e' = node_of s e') as Hno by (intros e' He'; unfold node_of; by rewrite Hev).
  split; rewrite ?Hmap; try done.
  - intros e' He'. rewrite Hev by done. by apply Ie.
  - intros e' ev He'. rewrite Hev by done. by apply Is.
  - intros e' ev He'. rewrite Hev by done. by apply Isn.
  - intros m p Hp. eapply pool_ok_frame; [by apply Ip | by intros d y _ Hy; exists y | by intros d y Hy; exists y | | done | done |].
    + f_equal. by apply services_ext.
    + intros _ e' He' Hn'. split; [done|]. by rewrite Hno.
Qed.

(** One event: its customer comes closer to the end of its way. *)
Lemma turn_inv e D s W : inv s [] [] (e :: D) W -> acyclic s -> (forall n, is_Some (s.(nodes) !! n) -> (rank n < depth)%nat) ->
  exists s' D' W', turn sample (fun _ => false) depth s = Ok s' /\ inv s' [] [] D' W' /\ acyclic s' /\
    (forall n, shape <$> s'.(nodes) !! n = shape <$> s.(nodes) !! n) /\
    s'.(completions) + Z.of_nat (size s'.(customers)) = s.(completions) + Z.of_nat (size s.(customers)) /\
    (weight s'.(customers) < weight s.(customers))%nat.
Proof.
  intros Hi Ha Hdepth. unfold turn. destruct (removeFromFront_holds _ _ _ (inv_diary _ _ _ _ _ Hi)) as (d & Hd & Hh). rewrite Hd.
  cbn [mbind res_bind]. destruct (inv_events _ _ _ _ _ Hi e ltac:(by left)) as [[ev Hev] Hlt]. change (events (set_diary d s)) with (events s).
  rewrite Hev. set (n := node ev). set (s1 := set_vtime (invokeTime ev) (set_diary d s)).
  assert (inv s1 [n] [customer ev] D W) as Hi1 by (apply inv_vtime; by apply (unscheduled_inv s [] [] (e :: D) W e)).
  pose proof (inv_served _ _ _ _ _ Hi e ev ltac:(by left) Hev) as Hloc. pose proof (inv_serving _ _ _ _ _ Hi e ev ltac:(by left) Hev) as Hsv.
  unfold located in Hloc. destruct (customers s !! customer ev) as [x|] eqn:Hx; [|done]. injection Hloc as Hl. fold n in Hl, Hsv.
  unfold service_node in Hsv. destruct (nodes s !! n) as [nd|] eqn:Hn; [|done].
  pose proof (Hdepth n ltac:(by eexists)) as Hrank.
  assert ((shape nd).2 <> inl 1%nat) as Hsh by (cbn in Hsv; unfold shape in *; destruct (class nd); cbn in *; congruence).
  assert (forall m c x s owed tr D W, inv s owed (c :: tr) D W -> acyclic s -> is_Some (s.(nodes) !! m) -> (rank m < rank n)%nat ->
    (forall k, k ∈ owed -> (rank m < rank k)%nat) -> s.(customers) !! c = Some x ->
    arrives s owed tr D (distance (Some x.(location))) (S (rank m)) (enter sample depth m c s)) as IH.
  { intros m c y s' owed tr D' W' Hi' Ha' Hm' Hr. eapply enter_inv; [exact Hi' | done | done | lia]. }
  destruct (move_inv (enter sample depth) n IH
    (customer ev) x s1 [n] [] D W nd Hi1 Ha Hn Hsh) as (s2 & D2 & W2 & E2 & Hi2 & Hm2 & Hnew2 & Hw2);
    [by intros k ->%list_elem_of_singleton | done |].
  assert (weight s2.(customers) < weight s.(customers))%nat as Hw by (rewrite Hl in Hw2; cbn in Hw2; change (customers s1) with (customers s) in Hw2; lia).
  pose proof (moved_shape _ _ Hm2 n) as Hsh2. change (nodes s1 !! n) with (nodes s !! n) in Hsh2. rewrite Hn in Hsh2.
  destruct (nodes s2 !! n) as [nd2|] eqn:Hn2; [|done]. apply (inj Some) in Hsh2.
  assert (exists s3 D3 W3, forward (enter sample depth) n (customer ev) s1 = Ok s3 /\ inv s3 [] [] D3 W3 /\ still s2 s3 /\ newer s2 D2 D3)
    as (s3 & D3 & W3 & E3 & Hi3 & Hs3 & Hnew3).
  { unfold forward, get_node. rewrite E2. cbn [mbind res_bind]. rewrite Hn2. cbn [mbind res_bind].
    destruct (class nd2) as [| | | |p] eqn:Ec.
    1-4: assert (pool_of s2 n = None) as Hp by (unfold pool_of; rewrite Hn2; cbn; by rewrite Ec);
      exists s2, D2, W2; split; [done|]; split; [by apply (inv_owe _ _ _ _ _ n)|]; split; [apply still_refl | by left].
    assert (pool_of s2 n = Some p) as Hp by (unfold pool_of; rewrite Hn2; cbn; by rewrite Ec).
    pose proof (po_releases _ _ _ _ _ _ (inv_pool _ _ _ _ _ Hi2 n p Hp)) as Hrel.
    destruct (releaseResource_inv _ _ _ _ _ _ _ Hi2 Hp) as (s3 & D3 & W3 & E3 & H3).
    exists s3, D3, W3. split; [|done]. by destruct (pool_type p). }
  rewrite E3. cbn [mbind res_bind].
  assert (e ∉ D3) as Hno.
  { pose proof (inv_once _ _ _ _ _ Hi) as [Hno _]%NoDup_cons. pose proof (moved_next _ _ Hm2) as Hn12. change (nextId s1) with (nextId s) in Hn12.
    intros [Hin|]%Hnew3; [|lia]. apply Hnew2 in Hin as [|Hge]; [done|]. change (nextId s1) with (nextId s) in Hge. lia. }
  eexists _, D3, W3. split; [done|]. split; [by apply inv_forget|].
  pose proof (moved_trans _ _ _ Hm2 (still_moved _ _ Hs3)) as Hm3. split; [exact (moved_acyclic s1 s3 Hm3 Ha)|].
  split; [exact (moved_shape _ _ Hm3)|]. split; [exact (moved_count _ _ Hm3)|]. cbn.
  by rewrite (weight_seen _ _ (still_customers _ _ Hs3)).
Qed.

(** When the diary is empty, nobody waits and nobody is served. *)
Lemma empty_diary s W : inv s [] [] [] W -> s.(customers) = ∅.
Proof.
  intros Hi. apply map_eq. intros c. rewrite lookup_empty. destruct (customers s !! c) as [x|] eqn:Hx; [|done].
  destruct (inv_all _ _ _ _ _ Hi c x Hx) as [Hc|[n Hn]]; [by apply not_elem_of_nil in Hc|].
  destruct (pool_of s n) as [p|] eqn:Hp; [|rewrite (inv_no_pool _ _ _ _ _ Hi n Hp) in Hn; by apply not_elem_of_nil in Hn].
  pose proof (inv_pool _ _ _ _ _ Hi n p Hp) as Hok. pose proof (po_count _ _ _ _ _ _ Hok) as Hcnt.
  pose proof (po_some _ _ _ _ _ _ Hok). cbn in Hcnt. rewrite (po_idle _ _ _ _ _ _ Hok) in Hn by lia. by apply not_elem_of_nil in Hn.
Qed.

(** The events that are left are at most the nodes that are ahead of all
    customers together. *)
Lemma go_drains fuel s D W : inv s [] [] D W -> acyclic s -> (forall n, is_Some (s.(nodes) !! n) -> (rank n < depth)%nat) ->
  (weight s.(customers) < fuel)%nat ->
  exists s', go sample (fun _ => false) depth fuel s = Ok s' /\ LinkedList.isEmpty s'.(diary) = true /\ s'.(customers) = ∅ /\
    s'.(completions) = s.(completions) + Z.of_nat (size s.(customers)).
Proof.
  revert s D W. induction fuel as [|fuel IH]; intros s D W Hi Ha Hd Hf; [lia|]. cbn [go].
  pose proof (isEmpty_holds _ _ (inv_diary _ _ _ _ _ Hi)) as He. rewrite He. destruct D as [|e D].
  - rewrite bool_decide_true by done. cbn [negb andb]. exists s. pose proof (empty_diary _ _ Hi) as Hcs. split; [done|]. split; [by rewrite He|].
    split; [done|]. rewrite Hcs, map_size_empty. lia.
  - rewrite bool_decide_false by done. cbn [negb andb].
    destruct (turn_inv e D s W Hi Ha Hd) as (s1 & D1 & W1 & -> & Hi1 & Ha1 & Hs1 & Hc1 & Hw1). cbn [mbind res_bind].
    destruct (IH s1 D1 W1 Hi1 Ha1) as (s' & E & H1' & H2' & H3').
    + intros n [nd Hn]. apply Hd. specialize (Hs1 n). rewrite Hn in Hs1. by destruct (nodes s !! n).
    + lia.
    + exists s'. split; [done|]. split; [done|]. split; [done|]. lia.
Qed.

(** ** Reachable states

    The queue of a pool is unbounded: its capacity is INT_MAX, and there are
    fewer customers.  The pool releases the resource of a customer that leaves,
    and a preemptive one has a single resource. *)
Definition fresh_pool (p : Pool) : Prop :=
  (forall cs, waiting cs p.(queue).(Queue.discipline) []) /\ p.(queue).(Queue.pop) = 0 /\ p.(queue).(Queue.capacity) = Queue.INT_MAX /\
  p.(resources).(Resource.resources) = p.(resources).(Resource.nresources) /\ 0 < p.(resources).(Resource.nresources) < 2 ^ 31 /\
  p.(pool_type) <> ResourcePool /\ (preemptive p.(pool_type) = true -> p.(resources).(Resource.nresources) = 1).

(** A network before anything happens. *)
Definition fresh_network (s : Sim) : Prop :=
  holds s.(diary) [] /\ s.(customers) = ∅ /\ s.(completions) = 0 /\ (forall n p, pool_of s n = Some p -> fresh_pool p) /\
  acyclic s /\ (forall n, is_Some (s.(nodes) !! n) -> (rank n < depth)%nat).

(** A new customer that all nodes can take. *)
Definition newcomer (s : Sim) (c : Object) (x : Customer T) : Prop :=
  s.(customers) !! c = None /\ x.(finished) = false /\
  (forall n p, pool_of s n = Some p -> accepts (<[c := x]> s.(customers)) p.(queue).(Queue.discipline) c) /\
  acyclic (put_customer c x s) /\ s.(completions) + Z.of_nat (size s.(customers)) < 2 ^ 31 - 2.

(** Customers come, and events happen. *)
Inductive reachable : Sim -> Prop :=
  | reachable_start s : fresh_network s -> reachable s
  | reachable_enter s c x n s' : reachable s -> newcomer s c x -> is_Some (s.(nodes) !! n) ->
      enter sample depth n c (put_customer c x s) = Ok s' -> reachable s'
  | reachable_turn s s' : reachable s -> LinkedList.isEmpty s.(diary) = false -> turn sample (fun _ => false) depth s = Ok s' -> reachable s'.

Lemma fresh_inv s : fresh_network s -> inv s [] [] [] (fun _ => []).
Proof.
  intros (Hd & Hc & Hco & Hp & _). split; try done; try (by intros ? ?%not_elem_of_nil); try (by intros ? ? ?%not_elem_of_nil); try apply NoDup_nil_2.
  - intros _. apply NoDup_nil_2.
  - intros c x Hx. by rewrite Hc in Hx.
  - intros n p Hn. destruct (Hp n p Hn) as (Hw & Hpop & Hcap & Hr & Hs & Ht & H1'). split; try done; try lia.
    + split; [apply Hw | done | rewrite Hcap; cbn; unfold Queue.INT_MAX; lia | by intros c ?%not_elem_of_nil].
    + intros c. rewrite Hc. by intros [? ?].
    + cbn. lia.
  - intros c x Hx. by rewrite Hc in Hx.
  - rewrite Hc, map_size_empty, Hco. lia.
Qed.

Lemma newcomer_inv s c x D W : inv s [] [] D W -> newcomer s c x -> inv (put_customer c x s) [] [c] D W.
Proof.
  intros Hi (Hc & Hf & Hacc & _ & Hb). pose proof Hi as [Id Io Ie Ix It Is Isn Iw Iwo In Ia Ip If Ib].
  assert (forall d n, located s.(customers) d n -> located (<[c := x]> s.(customers)) d n /\ d <> c) as Hl.
  { intros d n Hl. assert (d <> c) as Hne by (intros ->; unfold located in Hl; by rewrite Hc in Hl). split; [|done].
    unfold located. by rewrite lookup_insert_ne. }
  assert (c ∉ map (customer_of s) D) as Hno.
  { intros (e & He & HeD)%list_elem_of_In%in_map_iff. apply list_elem_of_In in HeD. destruct (Ie e HeD) as [[ev Hev] _].
    pose proof (Hl _ _ (Is e ev HeD Hev)) as [_ Hx]. apply Hx. unfold customer_of in He. by rewrite Hev in He. }
  split; cbn; try done.
  - by constructor.
  - intros d ->%list_elem_of_singleton. by rewrite lookup_insert_eq.
  - intros e ev He Hev. by apply Hl, (Is e).
  - intros n d Hd. destruct (Iw n d Hd) as [Hld Hnd]. apply Hl in Hld as [Hld Hne]. split; [done|].
    intros [|]%elem_of_cons; done.
  - intros d y. destruct (decide (d = c)) as [->|Hne]; [intros _; left; by left|]. rewrite lookup_insert_ne by done.
    intros Hy. destruct (Ia d y Hy) as [|]; [left; by right | by right].
  - intros n p Hp. pose proof (Ip n p Hp) as [Hq Hcap Ha Hr Hsome Hint Hidle Hcnt Hrel Hs1 Hla]. split; try done.
    + eapply queued_keeps; [|exact Hq]. intros d y Hd Hy. exists y. split; [|done]. cbn. rewrite lookup_insert_ne; [done|].
      intros <-. by rewrite Hc in Hy.
    + intros d [y Hy]. cbn in Hy. destruct (decide (d = c)) as [->|Hne]; [by apply (Hacc n)|]. rewrite lookup_insert_ne in Hy by done.
      eapply accepts_keeps; [|apply Ha; by eexists]. intros d' y' ->%list_elem_of_singleton Hy'. exists y'. cbn. by rewrite lookup_insert_ne.
  - intros d y. destruct (decide (d = c)) as [->|Hne]; [rewrite lookup_insert_eq; by intros [= <-]|]. rewrite lookup_insert_ne by done. apply If.
  - rewrite map_size_insert_None by done. lia.
Qed.

Definition all_ranked (s : Sim) : Prop := forall n, is_Some (s.(nodes) !! n) -> (rank n < depth)%nat.

Lemma ranked_shape s s' : (forall n, shape <$> s'.(nodes) !! n = shape <$> s.(nodes) !! n) -> all_ranked s -> all_ranked s'.
Proof. intros Hs Hr n [nd Hn]. apply Hr. specialize (Hs n). rewrite Hn in Hs. by destruct (nodes s !! n). Qed.

Lemma newcomer_enters s c x n D W : inv s [] [] D W -> all_ranked s -> newcomer s c x -> is_Some (s.(nodes) !! n) ->
  exists s' D' W', enter sample depth n c (put_customer c x s) = Ok s' /\ inv s' [] [] D' W' /\ acyclic s' /\ all_ranked s' /\
    s'.(completions) + Z.of_nat (size s'.(customers)) = s.(completions) + Z.of_nat (size s.(customers)) + 1 /\
    (forall m, shape <$> s'.(nodes) !! m = shape <$> s.(nodes) !! m) /\
    (forall d y', s'.(customers) !! d = Some y' -> exists y, (<[c := x]> s.(customers)) !! d = Some y /\ y.(type) = y'.(type)).
Proof.
  intros Hi Hr Hnew Hn. pose proof (newcomer_inv _ _ _ _ _ Hi Hnew) as Hi1. destruct Hnew as (Hc & Hf & Hacc & Ha & Hb).
  destruct (enter_inv depth n c x (put_customer c x s) [] [] D W Hi1 Ha Hn (Hr n Hn)) as (s' & D' & W' & E & Hi' & Hm & _ & _);
    [by intros k ?%not_elem_of_nil | cbn; by rewrite lookup_insert_eq|].
  exists s', D', W'. split; [done|]. split; [done|]. split; [by eapply moved_acyclic|].
  split; [by apply (ranked_shape s); [apply (moved_shape _ _ Hm)|]|]. pose proof (moved_count _ _ Hm) as Hcnt.
  cbn in Hcnt. rewrite map_size_insert_None in Hcnt by done. split; [lia|]. split; [apply (moved_shape _ _ Hm) | apply (moved_types _ _ Hm)].
Qed.

Lemma reachable_inv s : reachable s -> exists D W, inv s [] [] D W /\ acyclic s /\ all_ranked s.
Proof.
  induction 1 as [s Hs|s c x n s' _ (D & W & Hi & _ & Hr) Hnew Hn E|s s' _ (D & W & Hi & Ha & Hr) Hne E].
  - exists [], (fun _ => []). split; [by apply fresh_inv|]. by destruct Hs as (_ & _ & _ & _ & ? & ?).
  - destruct (newcomer_enters s c x n D W Hi Hr Hnew Hn) as (s2 & D' & W' & E' & Hi' & Ha' & Hr' & _). rewrite E in E'. simplify_eq.
    by exists D', W'.
  - rewrite (isEmpty_holds _ _ (inv_diary _ _ _ _ _ Hi)) in Hne. apply bool_decide_eq_false in Hne. destruct D as [|e D]; [done|].
    destruct (turn_inv e D s W Hi Ha Hr) as (s2 & D' & W' & E' & Hi' & Ha' & Hs' & _). rewrite E in E'. simplify_eq.
    exists D', W'. split; [done|]. split; [done|]. by apply (ranked_shape s).
Qed.

(** C28. In every state that a simulation can reach, a pool whose queue is not
    empty has no free resource, and the resources that are claimed are exactly
    the services of the node in the diary: nothing is claimed twice, and nothing
    is lost.  The networks are those of [reachable]: without cycles and null
    nodes, with unbounded queues, with pools that release resources (no
    [ResourcePool], which keeps them after the service) and preemptive nodes
    that have one resource; customers of any class that finds its way come
    at any time, fewer than 2^31 - 2 of them. *)
Theorem resources_are_services s n p : reachable s -> pool_of s n = Some p ->
  (Queue.isEmpty p.(queue) = false -> Resource.resourceIsAvailable p.(resources) = false) /\
  exists D, holds s.(diary) D /\ NoDup D /\
    p.(resources).(Resource.nresources) - p.(resources).(Resource.resources) = Z.of_nat (services s n D).
Proof.
  intros Hs Hp. destruct (reachable_inv s Hs) as (D & W & Hi & _). pose proof (inv_pool _ _ _ _ _ Hi n p Hp) as Hok. split.
  - rewrite (isEmpty_queued _ _ _ (po_queued _ _ _ _ _ _ Hok)). intros Hne%bool_decide_eq_false. unfold Resource.resourceIsAvailable.
    destruct (Z.ltb_spec 0 (Resource.resources (resources p))) as [Hpos|]; [|done]. by apply (po_idle _ _ _ _ _ _ Hok) in Hpos.
  - exists D. split; [apply Hi|]. split; [apply Hi|]. pose proof (po_count _ _ _ _ _ _ Hok) as Hc. cbn in Hc. lia.
Qed.

(** C27. A simulation of a network without cycles ends: from every state that it
    can reach, when no further customers come, all customers, in service,
    waiting or preempted, leave the network through sinks that count them, and
    the loop then stops with an empty diary.  The networks are those of
    [reachable]: also without null nodes, with unbounded queues, with pools that
    release resources (no [ResourcePool]: one that keeps its only resource
    lets a second customer wait for ever) and preemptive nodes that have one
    resource. *)
Theorem network_drains s : reachable s ->
  exists fuel s', go sample (fun _ => false) depth fuel s = Ok s' /\ LinkedList.isEmpty s'.(diary) = true /\ s'.(customers) = ∅ /\
    s'.(completions) = s.(completions) + Z.of_nat (size s.(customers)).
Proof.
  intros Hs. destruct (reachable_inv s Hs) as (D & W & Hi & Ha & Hr). exists (S (weight s.(customers))).
  eapply go_drains; [exact Hi | done | done | lia].
Qed.

End network.

(** ** A line of nodes

    An entry, a preemptive server, a delay and a sink. *)
Definition line_node (k : node_class Z LIFOQueue) (l : Link) : Sim.Node Z LIFOQueue := mkNode k l 0 None.

Definition line_pool : Sim.Pool Z LIFOQueue :=
  mkPool PreemptiveResumeNode (Queue.new_Queue (mkLIFO LinkedList.new_List)) (Resource.new_Resource 1) 0 3.

Definition line : Sim.Sim Z LIFOQueue :=
  mkSim 0 LinkedList.new_List ∅ 0 ∅
    (<[0%nat := line_node CinqsNode (LinkTo 1)]> (<[1%nat := line_node (PoolNode line_pool) (LinkTo 2)]>
     (<[2%nat := line_node InfiniteServerNode (LinkTo 3)]> (<[3%nat := line_node Sink Earth]> ∅)))) 0 new_Measure 0.

Definition line_rank (n : nat) : nat := 3 - n.
Definition line_sample (i : nat) : Z := 5 - Z.of_nat i.
Definition line_customer : Customer Z := mkCustomer 0 0 0 0 0 false None ByClass.
Local Abbreviation line_reachable := (@reachable Z LIFOQueue _ _ _ line_rank line_sample 4).

Lemma line_cases (P : nat -> Link * (nat + pool_class) -> Prop) :
  P 0%nat (LinkTo 1, inl 0%nat) -> P 1%nat (LinkTo 2, inr PreemptiveResumeNode) -> P 2%nat (LinkTo 3, inl 3%nat) -> P 3%nat (Earth, inl 1%nat) ->
  forall n lk, shape <$> line.(nodes) !! n = Some lk -> P n lk.
Proof.
  intros H0 H1 H2 H3 n lk. do 4 (destruct n as [|n]; [intros [= <-]; assumption|]). cbn [nodes line].
  by rewrite !lookup_insert_ne, lookup_empty by done.
Qed.

Lemma line_acyclic (s : Sim.Sim Z LIFOQueue) : (forall n, shape <$> s.(nodes) !! n = shape <$> line.(nodes) !! n) -> acyclic line_rank s.
Proof.
  intros Hs n l k. rewrite Hs. revert n l k. cut (forall n lk, shape <$> line.(nodes) !! n = Some lk -> lk.2 <> inl 2%nat /\ (lk.2 <> inl 1%nat ->
    forall c x, s.(customers) !! c = Some x -> exists m, leads lk.1 x.(type) = Some m /\ is_Some (s.(nodes) !! m) /\ (line_rank m < line_rank n)%nat)).
  { intros Hc n l k. apply Hc. }
  assert (forall m, is_Some (line.(nodes) !! m) -> is_Some (s.(nodes) !! m)) as Hm.
  { intros m [nd Hnd]. specialize (Hs m). rewrite Hnd in Hs. by destruct (nodes s !! m). }
  apply line_cases; cbn; (split; [done|]); intros Hne c x _; [exists 1%nat | exists 2%nat | exists 3%nat | done];
    (split; [done|]; split; [by apply Hm; eexists | unfold line_rank; lia]).
Qed.

Lemma line_fresh : fresh_network line_rank 4 line.
Proof.
  split; [apply new_holds|]. do 2 (split; [done|]). split; [|split; [by apply line_acyclic|]].
  - intros n p Hp. assert (p = line_pool) as ->.
    { revert Hp. unfold pool_of. do 4 (destruct n as [|n]; [by intros [= <-] || done|]). cbn [nodes line].
      by rewrite !lookup_insert_ne, lookup_empty by done. }
    split; [intros cs; apply new_holds | done].
  - intros n _. unfold line_rank. lia.
Qed.

(** A customer comes, whatever happened before. *)
Lemma line_comes s c : line_reachable s -> (forall n, shape <$> s.(nodes) !! n = shape <$> line.(nodes) !! n) -> s.(customers) !! c = None ->
  s.(completions) + Z.of_nat (size s.(customers)) < 100 ->
  exists s', line_reachable s' /\ (forall n, shape <$> s'.(nodes) !! n = shape <$> line.(nodes) !! n) /\
    (forall d, s.(customers) !! d = None -> d <> c -> s'.(customers) !! d = None) /\
    s'.(completions) + Z.of_nat (size s'.(customers)) = s.(completions) + Z.of_nat (size s.(customers)) + 1.
Proof.
  intros Hs Hsh Hc Hb. assert (newcomer line_rank s c line_customer) as Hnew.
  { split; [done|]. split; [done|]. split; [done|]. split; [by apply line_acyclic | lia]. }
  assert (is_Some (s.(nodes) !! 0%nat)) as H0 by (specialize (Hsh 0%nat); by destruct (nodes s !! 0%nat)).
  destruct (reachable_inv _ _ _ _ Hs) as (D & W & Hi & _ & Hr).
  destruct (newcomer_enters line_rank line_sample 4 s c line_customer 0 D W Hi Hr Hnew H0) as (s' & D' & W' & E & _ & _ & _ & Hcnt & Hsh' & Hty).
  exists s'. split; [by eapply reachable_enter|]. split; [intros n; by rewrite Hsh'|]. split; [|done].
  intros d Hd Hne. destruct (customers s' !! d) as [y|] eqn:Hy; [|done]. destruct (Hty d y Hy) as (y' & Hy' & _).
  by rewrite lookup_insert_ne, Hd in Hy' by done.
Qed.

Lemma line_two_come : exists s, line_reachable s /\ (forall n, shape <$> s.(nodes) !! n = shape <$> line.(nodes) !! n) /\
  s.(completions) + Z.of_nat (size s.(customers)) = 2.
Proof.
  destruct (line_comes line 0) as (s1 & R1 & S1 & N1 & C1); [apply reachable_start, line_fresh | done | done | done |].
  destruct (line_comes s1 1 R1 S1) as (s2 & R2 & S2 & _ & C2); [by apply N1 | rewrite C1; done |].
  exists s2. split; [done|]. split; [done|]. rewrite C2, C1. done.
Qed.

Lemma resources_are_services_witness : exists s p, line_reachable s /\ pool_of s 1 = Some p /\
  (Queue.isEmpty p.(queue) = false -> Resource.resourceIsAvailable p.(resources) = false) /\
  exists D, holds s.(diary) D /\ NoDup D /\
    p.(resources).(Resource.nresources) - p.(resources).(Resource.resources) = Z.of_nat (services s 1 D).
Proof.
  destruct line_two_come as (s & Hs & Hsh & _). pose proof (Hsh 1%nat) as H1.
  destruct (nodes s !! 1%nat) as [nd|] eqn:Hn; [|done]. unfold shape in H1. cbn in H1. injection H1 as _ Hk.
  destruct (class nd) as [| | | |p] eqn:Hc; try done.
  assert (pool_of s 1 = Some p) as Hp by (unfold pool_of; rewrite Hn; cbn; by rewrite Hc).
  exists s, p. split; [exact Hs|]. split; [exact Hp|]. exact (resources_are_services line_rank line_sample 4 s 1 p Hs Hp).
Defined.

Lemma network_drains_witness : exists s fuel s', line_reachable s /\
  go line_sample (fun _ => false) 4 fuel s = Ok s' /\ LinkedList.isEmpty s'.(diary) = true /\ s'.(customers) = ∅ /\ s'.(completions) = 2.
Proof.
  destruct line_two_come as (s & Hs & _ & Hc).
  destruct (network_drains line_rank line_sample 4 s Hs) as (fuel & s' & E & Hd & He & Hcomp).
  exists s, fuel, s'. split; [exact Hs|]. split; [exact E|]. split; [exact Hd|]. split; [exact He|]. rewrite Hcomp. exact Hc.
Defined.

Example line_run :
  (s ← enter line_sample 4 0 0 (put_customer 0%nat line_customer line); s ← enter line_sample 4 0 1 (put_customer 1%nat line_customer s);
   s ← go line_sample (fun _ => false) 4 10 s; Ok (s.(completions), s.(vtime), size s.(customers))) = Ok (2, 11, 0%nat).
Proof. vm_compute. done. Qed.

(** ** A preemptive node that sends a customer back to itself *)

Lemma deschedule_absent {T Q} `{Discipline T Q} e (s : Sim.Sim T Q) D : holds s.(diary) D -> e ∉ D -> deschedule e s = Err NullDereference.
Proof. intros Hh He. unfold deschedule. by rewrite (remove_absent _ _ _ Hh He). Qed.

(** A preemptive server cannot feed back: when the service that ends sends
    its customer to the same node, the node, which still counts its resource as
    claimed, takes the event that just ended for the service to be preempted;
    the event is no longer in the diary, and [List::remove] follows a null
    pointer. *)
Theorem preemptive_feedback_crashes {T Q} `{Discipline T Q} (sample : nat -> T) depth (s : Sim.Sim T Q) e D ev nd p x :
  holds s.(diary) (e :: D) -> e ∉ D -> s.(events) !! e = Some ev -> s.(customers) !! ev.(customer) = Some x ->
  s.(nodes) !! ev.(node) = Some nd -> nd.(class) = PoolNode p -> preemptive p.(pool_type) = true ->
  nd.(link) = LinkTo ev.(node) -> nd.(lastEndServiceEvent) = Some e -> Resource.resourceIsAvailable p.(resources) = false ->
  turn sample (fun _ => false) (S depth) s = Err NullDereference.
Proof.
  intros Hh Hno He Hx Hn Hc Hp Hl Hlast Hr. destruct (removeFromFront_holds _ _ _ Hh) as (d & Hd & Hh').
  unfold turn. rewrite Hd. cbn [mbind res_bind]. change (events (set_diary d s)) with (events s). rewrite He.
  unfold forward, move, get_node. cbn [nodes set_vtime set_diary]. rewrite Hn. cbn [mbind res_bind]. rewrite Hl. cbn [next_node mbind res_bind].
  cbn [enter]. unfold get_node. cbn [nodes set_vtime set_diary]. rewrite Hn. cbn [mbind res_bind]. rewrite Hc. unfold get. cbn [customers set_vtime set_diary].
  rewrite Hx. cbn [mbind res_bind]. unfold enter_base, get_node. cbn [nodes put_customer set_draws set_customers set_vtime set_diary].
  rewrite Hn. cbn [mbind res_bind customers put_customer set_draws set_customers set_vtime set_diary]. unfold get. rewrite lookup_insert_eq.
  cbn [mbind res_bind]. unfold accept, get_node. cbn -[deschedule]. rewrite lookup_insert_eq. cbn -[deschedule]. rewrite Hc.
  unfold preemptive in Hp. destruct (pool_type p) eqn:Et; try done; unfold accept_preemptive; rewrite Hr;
    unfold preempt, get_node; cbn -[deschedule]; rewrite lookup_insert_eq; cbn -[deschedule]; rewrite Hlast, Hc;
    by erewrite (deschedule_absent e _ D).
Qed.

(** A busy server whose link leads back to it. *)
Definition busy : Sim.Pool Z LIFOQueue := set_pool_resources (Resource.mkResource 0 1 new_SystemMeasure) line_pool.
Definition loop_node : Sim.Node Z LIFOQueue := mkNode (PoolNode busy) (LinkTo 1) 1 (Some 0%nat).
Definition loop : Sim.Sim Z LIFOQueue :=
  mkSim 0 (LinkedList.insertAtFront 0 LinkedList.new_List) {[0%nat := mkEvent 5 0%nat 1%nat]} 1 {[0%nat := line_customer]}
    {[1%nat := loop_node]} 0 new_Measure 1.

Lemma preemptive_feedback_crashes_witness : turn line_sample (fun _ => false) 3 loop = Err NullDereference.
Proof.
  apply (preemptive_feedback_crashes line_sample 2 loop 0 [] (mkEvent 5 0%nat 1%nat) loop_node busy line_customer).
  - apply insertAtFront_holds, new_holds.
  - apply not_elem_of_nil.
  - reflexivity.
  - reflexivity.
  - reflexivity.
  - reflexivity.
  - reflexivity.
  - reflexivity.
  - reflexivity.
  - reflexivity.
Defined.

(** A customer at the server of a network whose server feeds back ends the program. *)
Example feedback_run :
  (s ← enter line_sample 4 1 0 (put_customer 0%nat line_customer (put_node 1 (mkNode (PoolNode line_pool) (LinkTo 1) 0 None) line));
   go line_sample (fun _ => false) 4 10 s) = Err NullDereference.
Proof. vm_compute. done. Qed.
