(* ===== verification/Handlers.v ===== *)
(** * Handlers of threads as sequences of steps

    A handler of src/src/vex/events or of VexThreadState runs on the thread that
    calls it, between other threads and the scheduler: it takes and releases
    the keys of threads (Scheduling::sharedAccessKey), calls managers in which
    it may block, and waits in loops.  [proc] is such a handler; [turn] lets a
    thread take its next step.  The typing judgement [disciplined] says how a
    handler uses keys, and that well-typed handlers never wait for one. *)
From stdpp Require Import relations.
From S2P Require Import Prelude ThreadManager.
Import ThreadManager.

(** What the clocks say in a step. *)
Record Now := mkNow { cpu : Z; real : Z }.

Section handlers.
Context {S : Type}.

(** [Block] calls a manager; the thread holds its own key, which it gives back
    while it is blocked ([onBlockedWaitingInVex]).  [Loop] goes through its
    body until that says [inr]. *)
Inductive proc (A : Type) : Type :=
  | Ret (a : A)
  | Step (B : Type) (f : Now -> S -> res (B * S)) (k : B -> proc A)
  | Lock (m : nat) (k : proc A)
  | Unlock (m : nat) (k : proc A)
  | Block (f : Now -> S -> res (outcome * S)) (k : proc A)
  | Loop (X R : Type) (x : X) (body : X -> proc (X + R)) (k : R -> proc A).
Arguments Ret {A} a.
Arguments Step {A B} f k.
Arguments Lock {A} m k.
Arguments Unlock {A} m k.
Arguments Block {A} f k.
Arguments Loop {A X R} x body k.

Fixpoint bind {A B : Type} (p : proc A) (g : A -> proc B) : proc B :=
  match p with
  | Ret a => g a
  | Step f k => Step f (fun x => bind (k x) g)
  | Lock m k => Lock m (bind k g)
  | Unlock m k => Unlock m (bind k g)
  | Block f k => Block f (bind k g)
  | Loop x body k => Loop x body (fun r => bind (k r) g)
  end.

(** A thread runs, or it sleeps in a manager and goes on with the frames that
    the manager left. *)
Inductive status (A : Type) : Type :=
  | Runs (p : proc A)
  | Sleeps (fr : list frame) (p : proc A).
Arguments Runs {A} p.
Arguments Sleeps {A} fr p.

(** What resuming a blocked call does, and who was woken. *)
Context (resume : Now -> list frame -> nat -> S -> res (outcome * S)) (awake : nat -> S -> bool).

(** The call of a manager by [t] came back, or blocked. *)
Definition called {A : Type} (t : nat) (o : outcome) (p : proc A) (keys : gmap nat nat) : status A * gmap nat nat :=
  match o with
  | Returns => (Runs p, keys)
  | BlockedAt fr => (Sleeps fr p, delete t keys)
  end.

(** The next step of [t]: none when it waits for a key or to be woken, or has
    returned.  Unlocking what one does not hold is undefined. *)
Definition turn {A : Type} (now : Now) (t : nat) (x : status A) (keys : gmap nat nat) (s : S)
    : res (option (status A * gmap nat nat * S)) :=
  match x with
  | Runs (Ret _) => Ok None
  | Runs (Step f k) => '(b, s) ← f now s; Ok (Some (Runs (k b), keys, s))
  | Runs (Lock m k) => if keys !! m is Some _ then Ok None else Ok (Some (Runs k, <[m := t]> keys, s))
  | Runs (Unlock m k) => if decide (keys !! m = Some t) then Ok (Some (Runs k, delete m keys, s)) else Err NotOwner
  | Runs (Block f k) => '(o, s) ← f now s; Ok (Some (called t o k keys, s))
  | Runs (Loop x body k) =>
    Ok (Some (Runs (bind (body x) (fun y => match y with inl x => Loop x body k | inr r => k r end)), keys, s))
  | Sleeps fr p =>
    if awake t s then
      if keys !! t is Some _ then Ok None
      else '(o, s) ← resume now fr t s; Ok (Some (called t o p (<[t := t]> keys), s))
    else Ok None
  end.

(** A handler by itself, until it returns, waits, or the fuel is used up. *)
Fixpoint alone {A : Type} (fuel : nat) (now : Now) (t : nat) (x : status A) (keys : gmap nat nat) (s : S)
    : res (status A * gmap nat nat * S) :=
  match fuel with
  | O => Err OutOfFuel
  | Datatypes.S fuel =>
    y ← turn now t x keys s;
    match y with
    | Some (x, keys, s) => alone fuel now t x keys s
    | None => Ok (x, keys, s)
    end
  end.

(** ** The lock discipline

    [disciplined t b p b']: when [t] holds its own key or not, [b], its handler
    [p] takes and releases no other key, takes it only when it does not hold
    it, releases it only when it does, calls managers only with it, and ends
    holding it or not, [b']. *)
Fixpoint disciplined {A : Type} (t : nat) (b : bool) (p : proc A) (b' : bool) : Prop :=
  match p with
  | Ret _ => b = b'
  | Step _ k => forall x, disciplined t b (k x) b'
  | Lock m k => m = t /\ b = false /\ disciplined t true k b'
  | Unlock m k => m = t /\ b = true /\ disciplined t false k b'
  | Block _ k => b = true /\ disciplined t true k b'
  | Loop _ body k => (forall x, disciplined t b (body x) b) /\ forall r, disciplined t b (k r) b'
  end.

Lemma disciplined_bind {A B} t (p : proc A) (g : A -> proc B) b b' b'' : disciplined t b p b' ->
  (forall a, disciplined t b' (g a) b'') -> disciplined t b (bind p g) b''.
Proof.
  clear resume awake. revert b. induction p as [A a|A C f k IH|A m k IH|A m k IH|A f k IH|A X R x body _ k IH]; intros b0; cbn [disciplined bind];
    [by intros ->|intuition eauto..].
Qed.

(** The status of a thread and whether it has its key. *)
Definition well_typed {A : Type} (t : nat) (x : status A) (held : bool) (b' : bool) : Prop :=
  match x with
  | Runs p => disciplined t held p b'
  | Sleeps _ p => held = false /\ disciplined t true p b'
  end.

Definition holds_own (keys : gmap nat nat) (t : nat) : bool := bool_decide (keys !! t = Some t).

Definition own_keys (keys : gmap nat nat) : Prop := forall m t, keys !! m = Some t -> m = t.

Lemma own_keys_insert keys t : own_keys keys -> own_keys (<[t := t]> keys).
Proof. intros Ho m u. destruct (decide (t = m)) as [->|]; [rewrite lookup_insert_eq; congruence|rewrite lookup_insert_ne by done; apply Ho]. Qed.

Lemma own_keys_delete keys t : own_keys keys -> own_keys (delete t keys).
Proof. intros Ho m u [_ Hm]%lookup_delete_Some. by apply Ho. Qed.

Lemma holds_own_delete keys t : holds_own (delete t keys) t = false.
Proof. unfold holds_own. rewrite bool_decide_eq_false, lookup_delete_eq. done. Qed.

Lemma holds_own_insert keys t : holds_own (<[t := t]> keys) t = true.
Proof. unfold holds_own. rewrite bool_decide_eq_true, lookup_insert_eq. done. Qed.

Lemma not_own keys t : own_keys keys -> holds_own keys t = false -> keys !! t = None.
Proof.
  unfold holds_own. rewrite bool_decide_eq_false. intros Ho Hn. destruct (keys !! t) as [u|] eqn:E; [|done].
  by rewrite (Ho _ _ E) in Hn.
Qed.

(** The keys of other threads are left alone. *)
Definition others_keep (t : nat) (keys keys' : gmap nat nat) : Prop := forall m, m <> t -> keys' !! m = keys !! m.

Lemma called_keeps {A} t o (p : proc A) keys x' keys' b' : called t o p keys = (x', keys') -> own_keys keys ->
  holds_own keys t = true -> disciplined t true p b' ->
  well_typed t x' (holds_own keys' t) b' /\ own_keys keys' /\ others_keep t keys keys'.
Proof.
  intros Hc Ho Hh Hp. destruct o; cbn in Hc; injection Hc as <- <-; cbn.
  - rewrite Hh. by split.
  - rewrite holds_own_delete. split; [done|]. split; [by apply own_keys_delete|]. intros m Hm. by rewrite lookup_delete_ne.
Qed.

(** A step of a well-typed handler: it is there, unless the thread has returned
    or sleeps, and leaves the handler well-typed, or its operation faults. *)
Lemma turn_typed {A} now t (x : status A) keys s b' : own_keys keys -> well_typed t x (holds_own keys t) b' ->
  match turn now t x keys s with
  | Ok (Some (x', keys', s')) => well_typed t x' (holds_own keys' t) b' /\ own_keys keys' /\ others_keep t keys keys'
  | Ok None => (exists a, x = Runs (Ret a)) \/ (exists fr p, x = Sleeps fr p /\ awake t s = false)
  | Err e => (exists B f k, x = Runs (@Step A B f k) /\ f now s = Err e) \/ (exists f k, x = Runs (Block f k) /\ f now s = Err e) \/
             (exists fr p, x = Sleeps fr p /\ resume now fr t s = Err e)
  end.
Proof.
  intros Ho Hx. destruct x as [[a|B f k|m k|m k|f k|X R x body k]|fr p]; cbn [turn well_typed disciplined] in *.
  - left. by exists a.
  - destruct (f now s) as [[b s']|e] eqn:E; cbn; [by split|]. left. by exists B, f, k.
  - destruct Hx as (-> & Hh & Hk). rewrite (not_own _ _ Ho Hh).
    rewrite holds_own_insert. split; [done|]. split; [by apply own_keys_insert|].
    intros m Hm. by rewrite lookup_insert_ne.
  - destruct Hx as (-> & Hh & Hk). unfold holds_own in Hh. apply bool_decide_eq_true in Hh as Hh'. rewrite decide_True by done.
    rewrite holds_own_delete. split; [done|]. split; [by apply own_keys_delete|]. intros m Hm. by rewrite lookup_delete_ne.
  - destruct Hx as (Hh & Hk). destruct (f now s) as [[o s']|e] eqn:E; cbn; [|right; left; by exists f, k].
    destruct (called t o k keys) as [x' keys'] eqn:Ec. by eapply called_keeps.
  - destruct Hx as (Hb & Hk). split; [|done]. cbn. eapply disciplined_bind; [apply Hb|]. intros [y|r]; [by split|apply Hk].
  - destruct Hx as (Hh & Hp). destruct (awake t s) eqn:Ea; [|right; by exists fr, p]. rewrite (not_own _ _ Ho Hh).
    destruct (resume now fr t s) as [[o s']|e] eqn:E; cbn; [|right; right; by exists fr, p].
    destruct (called t o p (<[t := t]> keys)) as [x' keys'] eqn:Ec.
    destruct (called_keeps _ _ _ _ _ _ b' Ec (own_keys_insert _ t Ho) (holds_own_insert keys t) Hp) as (H1 & H2 & H3).
    split; [done|]. split; [done|]. intros m Hm. rewrite H3 by done. by rewrite lookup_insert_ne.
Qed.

(** ** Threads side by side

    Threads call handlers one after the other, and the scheduler changes the
    state between their steps. *)
Record config (A : Type) := mkConfig { pool : gmap nat (status A); keys : gmap nat nat; state : S }.
Arguments mkConfig {A} pool keys state.
Arguments pool {A}. Arguments keys {A}. Arguments state {A}.

Context (calls : forall A, nat -> proc A -> Prop) (schedules : S -> S -> Prop).

Inductive steps {A} : config A -> config A -> Prop :=
  | steps_turn now t x x' ks' s' c : c.(pool) !! t = Some x -> turn now t x c.(keys) c.(state) = Ok (Some (x', ks', s')) ->
      steps c (mkConfig (<[t := x']> c.(pool)) ks' s')
  | steps_call t p c : (forall x, c.(pool) !! t = Some x -> exists a, x = Runs (Ret a)) -> calls A t p ->
      steps c (mkConfig (<[t := Runs p]> c.(pool)) c.(keys) c.(state))
  | steps_schedule s' c : schedules c.(state) s' -> steps c (mkConfig c.(pool) c.(keys) s').

Definition typed_config {A} (c : config A) : Prop :=
  own_keys c.(keys) /\ (forall t x, c.(pool) !! t = Some x -> well_typed t x (holds_own c.(keys) t) false) /\
  (forall t, c.(pool) !! t = None -> holds_own c.(keys) t = false).

Lemma holds_own_keep t u keys keys' : others_keep t keys keys' -> u <> t -> holds_own keys' u = holds_own keys u.
Proof. unfold holds_own. intros Hk Hu. by rewrite Hk. Qed.

Lemma steps_typed {A} (c c' : config A) : (forall t p, calls A t p -> disciplined t false p false) ->
  steps c c' -> typed_config c -> typed_config c'.
Proof.
  intros Hcalls Hs (Ho & Hp & Hi). destruct Hs as [now t x x' ks' s' c Hx E|t p c Hret Hc|s' c _].
  - pose proof (turn_typed now t x c.(keys) c.(state) false Ho (Hp _ _ Hx)) as Ht. rewrite E in Ht. destruct Ht as (Hx' & Ho' & Hk).
    split; [done|]. split; cbn; intros u.
    + destruct (decide (t = u)) as [<-|]; [intros y; rewrite lookup_insert_eq; by intros [= <-]|].
      intros y. rewrite lookup_insert_ne, (holds_own_keep _ _ _ _ Hk) by done. apply Hp.
    + destruct (decide (t = u)) as [<-|]; [by rewrite lookup_insert_eq|].
      rewrite lookup_insert_ne, (holds_own_keep _ _ _ _ Hk) by done. apply Hi.
  - assert (holds_own c.(keys) t = false) as Hf.
    { destruct (c.(pool) !! t) as [x|] eqn:Ex; [|by apply Hi]. destruct (Hret x eq_refl) as [a ->]. by apply (Hp t _ Ex). }
    split; [done|]. split; cbn; intros u.
    + destruct (decide (t = u)) as [<-|]; [intros y; rewrite lookup_insert_eq; intros [= <-]; cbn; rewrite Hf; by apply Hcalls|].
      intros y. rewrite lookup_insert_ne by done. apply Hp.
    + destruct (decide (t = u)) as [<-|]; [by rewrite lookup_insert_eq|]. rewrite lookup_insert_ne by done. apply Hi.
  - done.
Qed.

End handlers.
Arguments proc : clear implicits.
Arguments Ret {S A} a.
Arguments Step {S A B} f k.
Arguments Lock {S A} m k.
Arguments Unlock {S A} m k.
Arguments Block {S A} f k.
Arguments Loop {S A X R} x body k.
Arguments status : clear implicits.
Arguments Runs {S A} p.
Arguments Sleeps {S A} fr p.
Arguments config : clear implicits.
Arguments mkConfig {S A} pool keys state.
Arguments pool {S A}.
Arguments keys {S A}.
Arguments state {S A}.
