(* ===== verification/ThreadHandlers.v ===== *)
(** * How a thread enters and leaves VEX

    The handlers of VexThreadState, src/src/vex/threads/ThreadState.cpp, that the
    thread itself runs: entering VEX, waits, sleeps, interaction points and
    yields, between the lock of its key and the calls of its manager.
    Assignments to the thread's own state that follow each other are one step.
    One manager controls the threads; the frames, logs and visualisation are
    left out. *)
From S2P Require Import Prelude Heap AdaptiblePQueue CxxFloat Timers Controllers Statistics ThreadParts.
From S2P Require Import ThreadState ThreadQueue Registries ThreadRegistry ThreadManager Handlers.
Import VexThreadState ThreadManager.

(** What a registry of locks promises to the handlers. *)
Class LockTable (L : Type) := {
  tryAcquiringLock : nat -> Z -> L -> bool * L;
  releaseAndGetNext : Z -> L -> res (option nat * L);
}.

#[export] Instance plain_locks : LockTable LockRegistry.registry := {|
  tryAcquiringLock := LockRegistry.tryAcquiringLock;
  releaseAndGetNext lockId r := Ok (LockRegistry.releaseAndGetNext lockId r);
|}.

#[export] Instance reentrant_locks : LockTable ReentrantLockRegistry.registry := {|
  tryAcquiringLock := ReentrantLockRegistry.tryAcquiringLock;
  releaseAndGetNext := ReentrantLockRegistry.releaseAndGetNext;
|}.

(** All that handlers share. *)
Record Vex (T L : Type) := mkVex { world : World T; locks : L }.
Arguments mkVex {T L} world locks.
Arguments world {T L}.
Arguments locks {T L}.

#[export] Instance proc_ret {S} : MRet (proc S) := @Ret S.
#[export] Instance proc_bind {S} : MBind (proc S) := fun A B g p => bind p g.

Lemma disciplined_mbind {S : Type} {A B : Type} t (p : proc S A) (g : A -> proc S B) b b' b'' : disciplined t b p b' ->
  (forall a, disciplined t b' (g a) b'') -> disciplined t b (p ≫= g) b''.
Proof. intros Hp Hg. exact (disciplined_bind t p g b b' b'' Hp Hg). Qed.

Module ThreadHandlers.
Section handlers.
Context `{HO : StdHeapOps} {T L : Type} `{HC : Controllers.VirtualTimelineController T} `{HL : LockTable L}.
Variable managerId : nat.
Variable gsf : float.
Variable minimizeTimeslotOnNw : bool.
Variable yieldDuration bytecodeDelay interactionPointDelay : Z.

Abbreviation W := (World T).
Abbreviation V := (Vex T L).
Abbreviation handler := (proc V).

Definition set_world (w : W) (v : V) : V := mkVex w v.(locks).
Definition set_locks (l : L) (v : V) : V := mkVex v.(world) l.

(** ** Steps *)
Definition clock (f : Now -> Z) : handler Z := Step (fun now v => Ok (f now, v)) Ret.
Definition look {B} (f : W -> B) : handler B := Step (fun _ v => Ok (f v.(world), v)) Ret.
Definition act (f : Now -> W -> res W) : handler unit := Step (fun now v => w ← f now v.(world); Ok (tt, set_world w v)) Ret.
Definition act_thread (t : nat) (f : Now -> thread -> thread) : handler unit := act (fun now w => Ok (upd t (f now) w)).
Definition check (f : W -> bool) : handler unit := Step (fun _ v => _ ← guard_assert (f v.(world)); Ok (tt, v)) Ret.
Definition deref {B} (p : option B) : handler B :=
  match p with Some x => Ret x | None => Step (fun _ _ => Err NullDereference) Ret end.
Definition lock (t : nat) : handler unit := Lock t (Ret tt).
Definition unlock (t : nat) : handler unit := Unlock t (Ret tt).
Definition manager (f : Now -> W -> res (outcome * W)) : handler unit :=
  Block (fun now v => '(o, w) ← f now v.(world); Ok (o, set_world w v)) (Ret tt).

(** Resuming a call that blocked in the manager. *)
Definition resume (now : Now) (fr : list frame) (t : nat) (v : V) : res (outcome * V) :=
  '(o, w) ← resume_frames managerId gsf now.(cpu) now.(real) fr t v.(world); Ok (o, set_world w v).
Definition awake (t : nat) (v : V) : bool := wasAwaken (thread_of t v.(world)).

Section thread.
Context (t : nat).

Definition controlling (w : W) : option nat := getThreadCurrentlyControllingManager (thread_of t w).

(** ** Entering and leaving *)
Definition updateThreadLocalTimeSinceLastResumeTo (startingTime : Z) : handler unit :=
  act_thread t (fun _ => upd_timers (Timers.updateThreadLocalTimeSinceLastResumeTo gsf startingTime)).

Definition suspendLoose (startingTime : Z) : handler unit :=
  manager (fun now w => suspendLooseCurrentThread managerId gsf minimizeTimeslotOnNw now.(cpu) now.(real) t startingTime w).

Definition ensureThreadIsNotInNativeWaitingStateWhenEnteringVex (startingTime : Z) : handler bool :=
  act_thread t (fun _ => set_inVex true) ;;
  loose ← look (fun w => negb (isRunning (thread_of t w)) || bool_decide (controlling w = None));
  threadIsNotInNativeWaiting ←
    (if loose : bool then
       act_thread t (fun _ => setCustom2) ;;
       lock t ;;
       suspendLoose startingTime ;;
       unlock t ;;
       check (fun w => bool_decide (controlling w <> None)) ;;
       mret false
     else mret true);
  check (fun w => bool_decide (controlling w <> None)) ;;
  mret threadIsNotInNativeWaiting.

Definition enterAt (startingTime : Z) : handler unit :=
  running ← ensureThreadIsNotInNativeWaitingStateWhenEnteringVex startingTime;
  if running : bool then updateThreadLocalTimeSinceLastResumeTo startingTime else mret tt.

Definition getTimeOnVexEntry : handler Z :=
  startingTime ← clock cpu;
  enterAt startingTime ;;
  lock t ;;
  mret startingTime.

Definition onVexEntry : handler unit := getTimeOnVexEntry ;; mret tt.

Definition getRealTimeOnVexEntry : handler Z :=
  startingTime ← clock real;
  act_thread t (fun now => upd_timers (fun x => Timers.updateCpuTimeClock now.(cpu) (Timers.updateThreadLocalTimeSinceLastResumeToRealTime gsf startingTime x))) ;;
  ensureThreadIsNotInNativeWaitingStateWhenEnteringVex 0 ;;
  lock t ;;
  mret startingTime.

Definition getCurrentSchedulerOnVexEntry : handler (option nat) :=
  act_thread t (fun _ => set_inVex true) ;; lock t ;; look controlling.

Definition getCurrentSchedulerOnVexEntryAt (startingTime : Z) : handler (option nat) :=
  act_thread t (fun _ => set_inVex true) ;; enterAt startingTime ;; lock t ;; look controlling.

Definition addInvocationPoints (s : thread) : thread :=
  upd_sched Scheduling.increaseVtfInvocationsSinceLastResume (upd_stats Statistics.addInvocationPoints s).

Definition suspendCurrent (startingTime options : Z) : handler unit :=
  manager (fun now w => suspend managerId gsf now.(cpu) now.(real) t startingTime options w).

Definition getCurrentSchedulerOnVexEntryWithGuaranteedSuspend (startingTime : Z) : handler (option nat) :=
  act_thread t (fun _ => addInvocationPoints) ;;
  running ← ensureThreadIsNotInNativeWaitingStateWhenEnteringVex startingTime;
  lock t ;;
  (if running : bool then m ← look controlling; deref m ;; suspendCurrent startingTime 0 else mret tt) ;;
  look controlling.

Definition onVexExitWithoutTimeUpdate : handler unit := unlock t ;; act_thread t (fun _ => set_inVex false).
Definition onVexExitWithCpuTimeUpdate : handler unit :=
  onVexExitWithoutTimeUpdate ;; act_thread t (fun now => upd_timers (Timers.updateCpuTimeClock now.(cpu))).
Definition onVexExitWithRealTimeUpdate : handler unit :=
  unlock t ;; act_thread t (fun now s => upd_timers (Timers.updateRealTimeClock now.(real)) (set_inVex false s)).
Definition onVexExitWithBothClocksUpdate : handler unit :=
  unlock t ;; act_thread t (fun now s => upd_timers (Timers.updateClocks now.(real) now.(cpu)) (set_inVex false s)).
Definition onVexExit : handler unit :=
  act_thread t (fun now s => upd_timers (Timers.updateCpuTimeClock now.(cpu)) (upd_sched Scheduling.exitingVex (set_inVex false s))).

(** A thread without a manager waits until one controls it. *)
Definition getCurrentlyControllingManagerOf : handler nat :=
  Loop tt (fun _ =>
    m ← look controlling;
    match m with
    | None => suspendLoose 0 ;; mret (inl tt)
    | Some m => mret (inr m)
    end) Ret.

(** ** Waits *)
Definition onWrappedWaitingStart : handler unit :=
  startingTime ← clock (fun now => (now.(cpu) -ll bytecodeDelay)%cxx);
  m ← getCurrentSchedulerOnVexEntryAt startingTime;
  act_thread t (fun _ s =>
    setWaiting (upd_sched (Scheduling.setAwakeningFromJoin false)
      (setTimeout (-1) (setTimedOut true (addInvocationPoints s))))) ;;
  deref m ;;
  act (fun _ => ThreadManager.onWrappedWaitingStart gsf startingTime t) ;;
  onVexExitWithBothClocksUpdate.

Definition onWrappedWaitingEnd : handler unit :=
  getCurrentSchedulerOnVexEntry ;;
  startingTime ← clock cpu;
  timeBeforeStartingWaiting ← look (fun w =>
    let s := thread_of t w in (getEstimatedRealTime s +ll (startingTime -ll s.(timers).(Timers.lastCPUTime)))%cxx);
  act_thread t (fun _ s => setTimedOut true (upd_sched (Scheduling.setAwakeningFromJoin false) (setTimeout (-1) s))) ;;
  manager (fun now w => ThreadManager.onWrappedWaitingEnd managerId gsf now.(cpu) now.(real) startingTime t w) ;;
  act_thread t (fun _ => upd_timers (Timers.updateWaitingTimeFrom timeBeforeStartingWaiting)) ;;
  onVexExitWithCpuTimeUpdate.

Definition onReplacedTimedWaiting (objectId timeout : Z) : handler bool :=
  onVexEntry ;;
  act_thread t (fun _ => setWaitingObjectId objectId) ;;
  m ← look controlling;
  act_thread t (fun _ => setTimedWaiting gsf timeout) ;;
  deref m ;;
  manager (fun _ => ThreadManager.onReplacedTimedWaiting t) ;;
  check (fun w => isRunning (thread_of t w)) ;;
  look (fun w => (thread_of t w).(timedOut)).

(** [resumeShouldBeHandledInternally]: no event of the agent follows the wait. *)
Definition onReplacedWaiting (objectId : Z) (resumeShouldBeHandledInternally : bool) : handler bool :=
  onVexEntry ;;
  act_thread t (fun _ s =>
    let s := setWaiting (setWaitingObjectId objectId (setTimedOut true s)) in
    if resumeShouldBeHandledInternally then setTimeout (-2) s else s) ;;
  m ← look controlling;
  deref m ;;
  manager (fun _ => ThreadManager.onReplacedWaiting t) ;;
  (if resumeShouldBeHandledInternally then act_thread t (fun _ => setTimeout (-1)) else mret tt) ;;
  check (fun w => isRunning (thread_of t w)) ;;
  look (fun w => (thread_of t w).(timedOut)).

Definition onWrappedTimedWaitingStart (objectId startingTime timeout : Z) : handler unit :=
  act_thread t (fun _ s => setTimedWaiting gsf timeout (set_waitingInRealTime true (setWaitingObjectId objectId s))) ;;
  getCurrentlyControllingManagerOf ;;
  act (fun _ => ThreadManager.onWrappedTimedWaitingStart gsf startingTime t) ;;
  onVexExitWithCpuTimeUpdate.

(** [objectRegistry]: whether the caller hands the registry of objects over. *)
Definition onWrappedTimedWaitingEnd (objectRegistry : bool) : handler unit :=
  act_thread t (fun _ => set_inVex true) ;;
  lock t ;;
  act_thread t (fun _ => set_waitingInRealTime false) ;;
  (if objectRegistry then act (fun _ w => Ok (eraseWaitingObject t w)) else mret tt) ;;
  act_thread t (fun _ => setTimedOut true) ;;
  getCurrentlyControllingManagerOf ;;
  manager (fun _ => ThreadManager.onWrappedTimedWaitingEnd t) ;;
  onVexExitWithRealTimeUpdate.

(** ** Interaction points *)
Definition onInvocationPoint : handler unit :=
  startingTime ← clock (fun now => (now.(cpu) -ll interactionPointDelay)%cxx);
  onVexEntry ;;
  act_thread t (fun _ => addInvocationPoints) ;;
  getCurrentlyControllingManagerOf ;;
  suspendCurrent startingTime 0 ;;
  onVexExitWithCpuTimeUpdate.

Definition onYield : handler unit :=
  startingTime ← clock (fun now => (now.(cpu) -ll interactionPointDelay)%cxx);
  onVexEntry ;;
  act_thread t (fun _ => addInvocationPoints) ;;
  getCurrentlyControllingManagerOf ;;
  manager (fun now w => onThreadYield managerId gsf yieldDuration now.(cpu) now.(real) startingTime t w) ;;
  onVexExitWithCpuTimeUpdate.

(** ** Every handler keeps the lock discipline *)
Section discipline.
Implicit Types b : bool.

Lemma disciplined_ret {A} (a : A) b : disciplined t b (mret a : handler A) b.
Proof. done. Qed.
Lemma disciplined_clock f b : disciplined t b (clock f) b.
Proof. done. Qed.
Lemma disciplined_look {B} (f : W -> B) b : disciplined t b (look f) b.
Proof. done. Qed.
Lemma disciplined_act f b : disciplined t b (act f) b.
Proof. done. Qed.
Lemma disciplined_act_thread u f b : disciplined t b (act_thread u f) b.
Proof. done. Qed.
Lemma disciplined_check f b : disciplined t b (check f) b.
Proof. done. Qed.
Lemma disciplined_deref {B} (p : option B) b : disciplined t b (deref p) b.
Proof. by destruct p. Qed.
Lemma disciplined_lock : disciplined t false (lock t) true.
Proof. done. Qed.
Lemma disciplined_unlock : disciplined t true (unlock t) false.
Proof. done. Qed.
Lemma disciplined_manager f : disciplined t true (manager f) true.
Proof. done. Qed.
Lemma disciplined_loop {X R : Type} (x : X) (body : X -> handler (X + R)) b : (forall x, disciplined t b (body x) b) ->
  disciplined t b (Loop x body Ret) b.
Proof. done. Qed.

End discipline.

End thread.
End handlers.

Create HintDb disciplined.
#[export] Hint Resolve disciplined_ret disciplined_clock disciplined_look disciplined_act disciplined_act_thread disciplined_check
  disciplined_deref disciplined_lock disciplined_unlock disciplined_manager : disciplined.

(** Types handlers: one bind after the other. *)
Ltac solve_disciplined :=
  repeat first
    [ progress intros
    | solve [eauto with disciplined]
    | apply disciplined_loop
    | eapply disciplined_mbind; [solve [eauto with disciplined]|]
    | case_match ].

Section discipline.
Context `{HO : StdHeapOps} {T L : Type} `{HC : Controllers.VirtualTimelineController T} `{HL : LockTable L}.
Variable managerId : nat.
Variable gsf : float.
Variable minimizeTimeslotOnNw : bool.
Variable yieldDuration bytecodeDelay interactionPointDelay : Z.
Implicit Type t : nat.
Abbreviation typed := (@disciplined (Vex T L) _).

Lemma disciplined_suspendLoose t startingTime : typed t true (suspendLoose managerId gsf minimizeTimeslotOnNw t startingTime) true.
Proof. apply disciplined_manager. Qed.
#[local] Hint Resolve disciplined_suspendLoose : disciplined.

Lemma disciplined_ensure t startingTime :
  typed t false (ensureThreadIsNotInNativeWaitingStateWhenEnteringVex managerId gsf minimizeTimeslotOnNw t startingTime) false.
Proof.
  unfold ensureThreadIsNotInNativeWaitingStateWhenEnteringVex. solve_disciplined;
    apply (disciplined_mbind _ _ _ _ false); solve_disciplined.
Qed.
#[local] Hint Resolve disciplined_ensure : disciplined.

Lemma disciplined_enterAt t startingTime : typed t false (enterAt managerId gsf minimizeTimeslotOnNw t startingTime) false.
Proof. unfold enterAt, updateThreadLocalTimeSinceLastResumeTo. solve_disciplined. Qed.
#[local] Hint Resolve disciplined_enterAt : disciplined.

Lemma disciplined_time t : typed t false (getTimeOnVexEntry managerId gsf minimizeTimeslotOnNw t) true.
Proof. unfold getTimeOnVexEntry. solve_disciplined. Qed.
#[local] Hint Resolve disciplined_time : disciplined.

Lemma disciplined_entry t : typed t false (onVexEntry managerId gsf minimizeTimeslotOnNw t) true.
Proof. unfold onVexEntry. solve_disciplined. Qed.
#[local] Hint Resolve disciplined_entry : disciplined.

Lemma disciplined_entry_at t startingTime :
  typed t false (getCurrentSchedulerOnVexEntryAt managerId gsf minimizeTimeslotOnNw t startingTime) true.
Proof. unfold getCurrentSchedulerOnVexEntryAt. solve_disciplined. Qed.
#[local] Hint Resolve disciplined_entry_at : disciplined.

Lemma disciplined_entry_plain t : typed t false (getCurrentSchedulerOnVexEntry t) true.
Proof. unfold getCurrentSchedulerOnVexEntry. solve_disciplined. Qed.
#[local] Hint Resolve disciplined_entry_plain : disciplined.

Lemma disciplined_guaranteed_suspend t startingTime :
  typed t false (getCurrentSchedulerOnVexEntryWithGuaranteedSuspend managerId gsf minimizeTimeslotOnNw t startingTime) true.
Proof.
  unfold getCurrentSchedulerOnVexEntryWithGuaranteedSuspend, suspendCurrent. solve_disciplined;
    apply (disciplined_mbind _ _ _ _ true); solve_disciplined.
Qed.

Lemma disciplined_own_manager t : typed t true (getCurrentlyControllingManagerOf managerId gsf minimizeTimeslotOnNw t) true.
Proof. unfold getCurrentlyControllingManagerOf. solve_disciplined. Qed.
#[local] Hint Resolve disciplined_own_manager : disciplined.

Lemma disciplined_exit t : typed t true (onVexExitWithoutTimeUpdate t) false.
Proof. unfold onVexExitWithoutTimeUpdate. solve_disciplined. Qed.
#[local] Hint Resolve disciplined_exit : disciplined.

Lemma disciplined_exit_cpu t : typed t true (onVexExitWithCpuTimeUpdate t) false.
Proof. unfold onVexExitWithCpuTimeUpdate. solve_disciplined. Qed.

Lemma disciplined_exit_real t : typed t true (onVexExitWithRealTimeUpdate t) false.
Proof. unfold onVexExitWithRealTimeUpdate. solve_disciplined. Qed.

Lemma disciplined_exit_both t : typed t true (onVexExitWithBothClocksUpdate t) false.
Proof. unfold onVexExitWithBothClocksUpdate. solve_disciplined. Qed.
#[local] Hint Resolve disciplined_exit_cpu disciplined_exit_real disciplined_exit_both : disciplined.

Lemma disciplined_waiting_start t : typed t false (onWrappedWaitingStart managerId gsf minimizeTimeslotOnNw bytecodeDelay t) false.
Proof. unfold onWrappedWaitingStart. solve_disciplined. Qed.

Lemma disciplined_waiting_end t : typed t false (onWrappedWaitingEnd managerId gsf t) false.
Proof. unfold onWrappedWaitingEnd. solve_disciplined. Qed.

Lemma disciplined_replaced_timed t objectId timeout :
  typed t false (onReplacedTimedWaiting managerId gsf minimizeTimeslotOnNw t objectId timeout) true.
Proof. unfold onReplacedTimedWaiting. solve_disciplined. Qed.

Lemma disciplined_replaced t objectId internally :
  typed t false (onReplacedWaiting managerId gsf minimizeTimeslotOnNw t objectId internally) true.
Proof.
  unfold onReplacedWaiting. solve_disciplined;
    apply (disciplined_mbind _ _ _ _ true); solve_disciplined.
Qed.

Lemma disciplined_timed_start t objectId startingTime timeout :
  typed t true (onWrappedTimedWaitingStart managerId gsf minimizeTimeslotOnNw t objectId startingTime timeout) false.
Proof. unfold onWrappedTimedWaitingStart. solve_disciplined. Qed.

Lemma disciplined_timed_end t registry : typed t false (onWrappedTimedWaitingEnd managerId gsf minimizeTimeslotOnNw t registry) false.
Proof.
  unfold onWrappedTimedWaitingEnd. solve_disciplined;
    apply (disciplined_mbind _ _ _ _ true); solve_disciplined.
Qed.

Lemma disciplined_invocation_point t :
  typed t false (onInvocationPoint managerId gsf minimizeTimeslotOnNw interactionPointDelay t) false.
Proof. unfold onInvocationPoint, suspendCurrent. solve_disciplined. Qed.

Lemma disciplined_yield t :
  typed t false (onYield managerId gsf minimizeTimeslotOnNw yieldDuration interactionPointDelay t) false.
Proof. unfold onYield. solve_disciplined. Qed.

End discipline.

#[export] Hint Resolve disciplined_suspendLoose disciplined_ensure disciplined_enterAt disciplined_time disciplined_entry
  disciplined_entry_at disciplined_entry_plain disciplined_guaranteed_suspend disciplined_own_manager disciplined_exit disciplined_exit_cpu disciplined_exit_real
  disciplined_exit_both disciplined_waiting_start disciplined_waiting_end disciplined_replaced_timed disciplined_replaced
  disciplined_timed_start disciplined_timed_end disciplined_invocation_point disciplined_yield : disciplined.

End ThreadHandlers.
