(* ===== verification/ThreadEvents.v ===== *)
(** * The events of threads

    ThreadEventsBehaviour, src/src/vex/events/ThreadEventsBehaviour.cpp: what
    VEX does when a thread starts, waits, notifies, interrupts, parks, locks,
    joins, yields or ends.  The handlers compose those of VexThreadState with
    the registries of threads, waiting objects and locks and with the manager
    of the threads.  The thread that calls is [state], none when VEX does not
    simulate it.  Logs, hardware counters and the merging of profiles at the
    end of a thread are left out. *)
From Stdlib Require Import String.
From S2P Require Import Prelude Heap AdaptiblePQueue CxxFloat Timers Controllers Statistics ThreadParts.
From S2P Require Import ThreadState ThreadQueue Registries ThreadRegistry ThreadManager Handlers ThreadHandlers.
Import VexThreadState ThreadManager ThreadHandlers.

Module ThreadEvents.

Definition LONG_MAX : Z := LLONG_MAX.

(** Milliseconds and nanoseconds as nanoseconds. *)
Definition ensureTimeoutIsLessThanMax (timeout nanoTimeout : Z) : Z :=
  if LONG_MAX / 1000000 <=? timeout then LONG_MAX else ((timeout *ll 1000000) +ll nanoTimeout)%cxx.

(** [excludedThread.find(threadName)]: the name is looked for in the entry. *)
Definition thread_is_excluded (threadName excludedThread : string) : bool :=
  bool_decide (excludedThread = threadName) || bool_decide (String.index 0 threadName excludedThread <> None).

Section events.
Context `{HO : StdHeapOps} {T L : Type} `{HC : Controllers.VirtualTimelineController T} `{HL : LockTable L}.
Variable managerId : nat.
Variable gsf : float.
Variable minimizeTimeslotOnNw : bool.
Variable yieldDuration bytecodeDelay interactionPointDelay : Z.
Variable usingVtfScheduler : bool.
Variable excludedThreadsList : list string.

Abbreviation V := (Vex T L).
Abbreviation handler := (proc V).
#[local] Abbreviation onVexEntry := (onVexEntry managerId gsf minimizeTimeslotOnNw).
#[local] Abbreviation getTimeOnVexEntry := (getTimeOnVexEntry managerId gsf minimizeTimeslotOnNw).
#[local] Abbreviation enterAt := (getCurrentSchedulerOnVexEntryAt managerId gsf minimizeTimeslotOnNw).
#[local] Abbreviation ownManager := (getCurrentlyControllingManagerOf managerId gsf minimizeTimeslotOnNw).

(** ** Calls of the registries, each under its lock *)
Definition on_objects {B} (f : ObjectRegistry.registry -> B * ObjectRegistry.registry) : handler B :=
  Step (fun _ v => let '(b, r) := f v.(world).(objects) in Ok (b, set_world (set_objects r v.(world)) v)) Ret.

Definition on_locks {B} (f : L -> res (B * L)) : handler B :=
  Step (fun _ v => '(b, l) ← f v.(locks); Ok (b, set_locks l v)) Ret.

Definition on_registry {B} (f : store -> ThreadRegistry.ThreadRegistry -> res (B * store * ThreadRegistry.ThreadRegistry)) : handler B :=
  Step (fun _ v => '(b, th, r) ← f v.(world).(threads) v.(world).(registry);
    Ok (b, set_world (set_registry r (set_threads th v.(world))) v)) Ret.

Definition state_of (threadId : Z) : handler (option nat) :=
  look (fun w => ThreadRegistry.getCurrentThreadState threadId w.(registry)).

Definition uniqueId (t : nat) : handler Z := look (fun w => (thread_of t w).(jthreadId)).
Definition ert_of (t : nat) : handler Z := look (fun w => getEstimatedRealTime (thread_of t w)).

Definition insertWaiting (objectId : Z) (t : nat) : handler unit :=
  id ← uniqueId t; on_objects (fun r => (tt, ObjectRegistry.insert objectId id r)).

Definition increasePendingNotifications (stateManager : option nat) : handler unit :=
  deref stateManager ;; act (fun _ w => Ok (set_pendingNotifications (uint_add w.(pendingNotifications) 1) w)).

(** ** Notifications and interrupts *)
Definition interruptThread (stateOfThreadToInterrupt : option nat) (stateManager : option nat) (interruptionTime : Z)
    (isThreadInterruptCall : bool) : handler bool :=
  match stateOfThreadToInterrupt with
  | Some u =>
    waits ← look (fun w => isWaiting (thread_of u w));
    if waits : bool then
      deref stateManager ;;
      act (fun _ => onAnyReplacedWaitingInterrupt interruptionTime u) ;;
      act_thread u (fun _ => setTimedOut (negb isThreadInterruptCall)) ;;
      mret true
    else mret false
  | None => mret false
  end.

Definition onSignallingOneThreadOnObject (objectId : Z) (stateManager : option nat) (interruptionTime : Z) : handler bool :=
  nextWaitingThreadId ← on_objects (fun r => (ObjectRegistry.findNext objectId r, r));
  if nextWaitingThreadId =? 0 then increasePendingNotifications stateManager ;; mret false
  else u ← state_of nextWaitingThreadId; interruptThread u stateManager interruptionTime false.

Definition onSignallingAllThreadsOnObject (objectId : Z) (stateManager : option nat) (interruptionTime : Z) : handler bool :=
  nextWaitingThreadId ← on_objects (ObjectRegistry.getNext objectId);
  if nextWaitingThreadId =? 0 then increasePendingNotifications stateManager ;; mret false
  else
    Loop (nextWaitingThreadId, false) (fun '(next, anyThreadsInterrupted) =>
      if next =? 0 then mret (inr anyThreadsInterrupted)
      else
        u ← state_of next;
        b ← interruptThread u stateManager interruptionTime false;
        next ← on_objects (ObjectRegistry.getNext objectId);
        mret (inl (next, anyThreadsInterrupted || b))) Ret.

(** What notifications and interrupts have in common: the thread enters, so
    that its clock is the time of the interrupt. *)
Definition atOwnTime (state : option nat) (f : option nat -> Z -> handler bool) : handler bool :=
  startingTime ← clock (fun now => (now.(cpu) -ll interactionPointDelay)%cxx);
  match state with
  | Some t =>
    stateManager ← enterAt t startingTime;
    interruptionTime ← ert_of t;
    b ← f stateManager interruptionTime;
    onVexExitWithCpuTimeUpdate t ;;
    mret b
  | None => f (Some managerId) 0
  end.

Definition onSignallingOnObject (state : option nat) (objectId : Z) : handler bool :=
  atOwnTime state (onSignallingOneThreadOnObject objectId).

Definition onBroadcastingOnObject (state : option nat) (objectId : Z) : handler bool :=
  atOwnTime state (onSignallingAllThreadsOnObject objectId).

Definition onInterrupt (state : option nat) (interruptedThreadId : Z) : handler bool :=
  atOwnTime state (fun stateManager interruptionTime =>
    u ← state_of interruptedThreadId; interruptThread u stateManager interruptionTime true).

(** ** Locks *)
Definition onLocklessRequestingLock (t : nat) (lockId : Z) : handler unit :=
  free ← on_locks (fun l => Ok (tryAcquiringLock t lockId l));
  if free : bool then mret tt
  else
    stateManager ← look (controlling t);
    deref stateManager ;;
    manager (fun _ => ThreadManager.onReplacedWaiting t).

Definition onLocklessReleasingLock (t : nat) (lockId : Z) : handler unit :=
  threadBlockedOnMonitor ← on_locks (releaseAndGetNext lockId);
  match threadBlockedOnMonitor with
  | None => mret tt
  | Some u =>
    stateManager ← look (controlling t);
    lock u ;;
    act_thread t (fun _ => setTimeout 0) ;;
    interruptionTime ← ert_of t;
    deref stateManager ;;
    act (fun _ => onAnyReplacedWaitingInterrupt interruptionTime u) ;;
    unlock u
  end.

Definition onRequestingLock (t : nat) (lockId : Z) : handler unit :=
  onVexEntry t ;; onLocklessRequestingLock t lockId ;; onVexExitWithCpuTimeUpdate t.

Definition onReleasingLock (t : nat) (lockId : Z) : handler unit :=
  onVexEntry t ;; onLocklessReleasingLock t lockId ;; onVexExitWithCpuTimeUpdate t.

(** ** Waits *)
Definition onWrappedTimedWaitingStart (t : nat) (objectId timeout nanoTimeout : Z) : handler unit :=
  startingTime ← clock (fun now => (now.(cpu) -ll interactionPointDelay)%cxx);
  onVexEntry t ;;
  insertWaiting objectId t ;;
  ThreadHandlers.onWrappedTimedWaitingStart managerId gsf minimizeTimeslotOnNw t objectId startingTime
    (ensureTimeoutIsLessThanMax timeout nanoTimeout).

Definition onWrappedTimedWaitingEnd (t : nat) : handler unit :=
  ThreadHandlers.onWrappedTimedWaitingEnd managerId gsf minimizeTimeslotOnNw t true.

Definition onWrappedTimedWaitingInterrupt (t : nat) (objectId : Z) : handler unit :=
  onVexEntry t ;;
  Loop 0 (fun next =>
    ownManager t ;;
    u ← state_of next;
    (match u with
     | Some u =>
       waits ← look (fun w => isWaiting (thread_of u w));
       if waits : bool then
         lock u ;;
         act_thread u (fun _ => setTimedOut false) ;;
         interruptionTime ← ert_of t;
         act (fun _ => ThreadManager.onWrappedTimedWaitingInterrupt interruptionTime u) ;;
         unlock u
       else mret tt
     | None => mret tt
     end) ;;
    next ← on_objects (ObjectRegistry.getNext objectId);
    mret (if next =? 0 then inr tt else inl next)) Ret ;;
  onVexExitWithCpuTimeUpdate t.

Definition beforeReleasingLockOfAnyReplacedWaiting (t : nat) (objectId : Z) (updateLockRegistry : bool) : handler bool :=
  onVexEntry t ;;
  insertWaiting objectId t ;;
  (if updateLockRegistry then onLocklessReleasingLock t objectId else mret tt) ;;
  onVexExitWithoutTimeUpdate t ;;
  mret true.

Definition onReplacedTimedWaiting (t : nat) (objectId timeout nanoTimeout : Z) (updateLockRegistry : bool) : handler bool :=
  timedOut ← ThreadHandlers.onReplacedTimedWaiting managerId gsf minimizeTimeslotOnNw t objectId
    (ensureTimeoutIsLessThanMax timeout nanoTimeout);
  (if updateLockRegistry then onLocklessRequestingLock t objectId else mret tt) ;;
  onVexExitWithCpuTimeUpdate t ;;
  mret timedOut.

Definition onReplacedWaiting (t : nat) (objectId : Z) (updateLockRegistry : bool) : handler bool :=
  timedOut ← ThreadHandlers.onReplacedWaiting managerId gsf minimizeTimeslotOnNw t objectId updateLockRegistry;
  (if updateLockRegistry then onLocklessRequestingLock t objectId else mret tt) ;;
  onVexExitWithCpuTimeUpdate t ;;
  mret timedOut.

Definition onSleep (t : nat) (timeout nanoTimeout : Z) : handler bool :=
  onReplacedTimedWaiting t 0 timeout nanoTimeout false.

(** ** Parking *)
Definition onPark (t : nat) (timeout : Z) : handler unit :=
  startingTime ← getTimeOnVexEntry t;
  alreadyUnparked ← Step (fun _ v => let '(b, s) := getAndSetUnparkedState (thread_of t v.(world)) in
    Ok (b, set_world (upd t (fun _ => s) v.(world)) v)) Ret;
  if alreadyUnparked : bool then onVexExitWithCpuTimeUpdate t
  else if 0 <? timeout then
    ThreadHandlers.onWrappedTimedWaitingStart managerId gsf minimizeTimeslotOnNw t 0 startingTime timeout
  else
    unlock t ;;
    onWrappedWaitingStart managerId gsf minimizeTimeslotOnNw bytecodeDelay t ;;
    onVexExitWithCpuTimeUpdate t.

Definition onParked (t : nat) : handler unit :=
  timed ← look (fun w => 0 <? getTimeout (thread_of t w));
  if timed : bool then ThreadHandlers.onWrappedTimedWaitingEnd managerId gsf minimizeTimeslotOnNw t false
  else onWrappedWaitingEnd managerId gsf t.

(** The parked thread goes on at the time of the thread that unparks it. *)
Definition unparkAt (u : nat) (unParkingTime : Z) : handler unit :=
  timed ← look (fun w => 0 <? getTimeout (thread_of u w));
  if timed : bool then
    act_thread u (fun _ => setTimedOut false) ;;
    act (fun _ => ThreadManager.onWrappedTimedWaitingInterrupt unParkingTime u)
  else act (fun _ => onWrappedWaitingInterrupt unParkingTime u).

Definition onUnpark (state : option nat) (unparkingThreadId : Z) : handler unit :=
  (match state with Some t => onVexEntry t | None => mret tt end) ;;
  threadToUnpark ← state_of unparkingThreadId;
  (match threadToUnpark with
   | Some u =>
     lock u ;;
     wasParked ← Step (fun _ v => let '(b, s) := getAndSetParkedState (thread_of u v.(world)) in
       Ok (b, set_world (upd u (fun _ => s) v.(world)) v)) Ret;
     (if wasParked : bool then
        match state with
        | Some t => ownManager t ;; unParkingTime ← ert_of t; unparkAt u unParkingTime
        | None => unparkAt u 0
        end
      else mret tt) ;;
     unlock u
   | None => mret tt
   end) ;;
  match state with Some t => onVexExitWithCpuTimeUpdate t | None => mret tt end.

(** ** The life of a thread *)

(** The entries of the file of excluded threads: its parts between newlines. *)
Definition addThreadToBeExcludedFromSimulation (threadName : string) (l : list string) : list string := l ++ [threadName].

Definition isThreadInExcludedThreadNamesList (threadName : string) : handler bool :=
  if existsb (thread_is_excluded threadName) excludedThreadsList then
    on_registry (fun th r => Ok (true, th, ThreadRegistry.newThreadStarted r))
  else mret false.

(** [t]: where the state of a new thread is allocated. *)
Definition onStart (t : nat) (threadId : Z) (threadName : string) (systemId : Z) : handler unit :=
  excluded ← isThreadInExcludedThreadNamesList threadName;
  if excluded : bool then mret tt
  else
    registered ← look (fun w => ThreadRegistry.hasThreadParentRegisteredThisThread threadId w.(registry));
    if negb registered then mret tt
    else
      state ← state_of systemId;
      match state with
      | None =>
        act (fun now w => Ok (upd t (fun _ => new_VexThreadState now.(real) threadId) w)) ;;
        lock t ;;
        manager (fun now w => onThreadSpawn managerId gsf (bool_decide (threadName = "main"%string)) now.(cpu) now.(real) t w) ;;
        onVexExitWithCpuTimeUpdate t
      | Some u =>
        lock u ;;
        suspendCurrent managerId gsf u 0 SUSPEND_OPT_FORCE_SUSPEND ;;
        unlock u
      end.

Definition onThreadMainStart (t : nat) (threadId systemId : Z) : handler unit :=
  on_registry (fun th r => r ← ThreadRegistry.newThreadBeingSpawnedBy 0 threadId th r; Ok (tt, th, r)) ;;
  onStart t threadId "main" systemId.

Definition beforeCreatingThread (t : nat) (threadToBeSpawnedId : Z) : handler unit :=
  startingTime ← getTimeOnVexEntry t;
  id ← uniqueId t;
  on_registry (fun th r => r ← ThreadRegistry.newThreadBeingSpawnedBy id threadToBeSpawnedId th r; Ok (tt, th, r)) ;;
  ownManager t ;;
  act (fun _ => setCurrentThreadVT gsf startingTime t) ;;
  onVexExitWithBothClocksUpdate t.

Definition afterCreatingThread (t : nat) : handler unit :=
  getTimeOnVexEntry t ;; ownManager t ;; onVexExitWithCpuTimeUpdate t.

Definition onJoin (t : nat) (joiningThreadId : Z) : handler unit :=
  startingTime ← getTimeOnVexEntry t;
  ownManager t ;;
  act (fun _ => setCurrentThreadVT gsf startingTime t) ;;
  Loop tt (fun _ =>
    coordinated ← on_registry (fun th r => Ok (ThreadRegistry.coordinateJoiningThreads t joiningThreadId th r));
    if coordinated : bool then mret (inr tt)
    else
      suspendCurrent managerId gsf t startingTime (Z.lor SUSPEND_OPT_FORCE_SUSPEND SUSPEND_OPT_DONT_UPDATE_THREAD_TIME) ;;
      ownManager t ;;
      mret (inl tt)) Ret ;;
  onVexExitWithCpuTimeUpdate t.

Definition onInteractionPoint (t : nat) : handler unit :=
  onInvocationPoint managerId gsf minimizeTimeslotOnNw interactionPointDelay t.

Definition onYield (t : nat) : handler unit :=
  ThreadHandlers.onYield managerId gsf minimizeTimeslotOnNw yieldDuration interactionPointDelay t.

Definition onBackgroundLoadExecutionStart : handler unit :=
  act (fun _ w => Ok (onWrappedBackgroundLoadExecutionStart w)).
Definition onBackgroundLoadExecutionEndAt (executionDuration : Z) : handler unit :=
  act (fun _ => onWrappedBackgroundLoadExecutionEnd executionDuration).

(** The state is deleted, with its key locked. *)
Definition onEnd (t : nat) : handler unit :=
  onVexEntry t ;;
  ownManager t ;;
  act (fun now => onThreadEnd gsf now.(cpu) t) ;;
  act (fun _ w => Ok (set_threads (delete t w.(threads)) w)).

Definition getTime (state : option nat) : handler Z :=
  match state with
  | None => time ← look getCurrentGlobalTime; mret (if 0 <? time then time else 1)
  | Some t =>
    startingTime ← clock (fun now => (now.(cpu) -ll bytecodeDelay)%cxx);
    (if usingVtfScheduler then mret tt
     else lock t ;; ownManager t ;; act (fun _ => setCurrentThreadVT gsf startingTime t) ;; unlock t) ;;
    updateThreadLocalTimeSinceLastResumeTo gsf t startingTime ;;
    time ← ert_of t;
    onVexExit t ;;
    mret time
  end.

Definition haltSuspendForAwhile (t : nat) : handler unit :=
  act_thread t (fun now => upd_sched (Scheduling.haltSuspendForAwhile now.(real))).

End events.
End ThreadEvents.
