(* ===== verification/HandlerLogic.v ===== *)
(** * What handlers come to

    [eventually] says where a thread gets by its own steps, whatever the clocks
    say; [returns] that its handler returns.  The rules follow the steps of
    handlers, and those of VexThreadState that a running thread calls only do
    accounting ([quiet]). *)
From Stdlib Require Import FunctionalExtensionality.
From S2P Require Import Prelude Heap AdaptiblePQueue CxxFloat Timers Controllers Statistics ThreadParts.
From S2P Require Import ThreadState ThreadQueue Registries ThreadRegistry ThreadManager Handlers ThreadHandlers.
Import VexThreadState ThreadManager ThreadHandlers.

Section logic.
Context {S : Type} (resume : Now -> list frame -> nat -> S -> res (outcome * S)) (awake : nat -> S -> bool).
Abbreviation turn := (turn resume awake).

Section eventually.
Context {A : Type} (t : nat) (Q : status S A -> gmap nat nat -> S -> Prop).

Inductive eventually : status S A -> gmap nat nat -> S -> Prop :=
  | eventually_now x ks s : Q x ks s -> eventually x ks s
  | eventually_turn x ks s :
      (forall now, exists y, turn now t x ks s = Ok (Some y)) ->
      (forall now x' ks' s', turn now t x ks s = Ok (Some (x', ks', s')) -> eventually x' ks' s') ->
      eventually x ks s.

Lemma eventually_step {B} (f : Now -> S -> res (B * S)) k ks s :
  (forall now, exists b s', f now s = Ok (b, s') /\ eventually (Runs (k b)) ks s') -> eventually (Runs (Step f k)) ks s.
Proof.
  clear. intros Hf. apply eventually_turn; intros now; destruct (Hf now) as (b & s' & E & He); cbn; rewrite E; cbn; [by eexists|].
  by intros ??? [= <- <- <-].
Qed.

Lemma eventually_lock m k ks s : ks !! m = None -> eventually (Runs k) (<[m := t]> ks) s -> eventually (Runs (Lock m k)) ks s.
Proof. intros E He. apply eventually_turn; intros now; cbn; rewrite E; [by eexists|]. by intros ??? [= <- <- <-]. Qed.

Lemma eventually_unlock m k ks s : ks !! m = Some t -> eventually (Runs k) (delete m ks) s -> eventually (Runs (Unlock m k)) ks s.
Proof. intros E He. apply eventually_turn; intros now; cbn; rewrite decide_True by done; [by eexists|]. by intros ??? [= <- <- <-]. Qed.

Lemma eventually_block f k ks s :
  (forall now, exists o s', f now s = Ok (o, s') /\
    match o with
    | Returns => eventually (Runs k) ks s'
    | BlockedAt fr => eventually (Sleeps fr k) (delete t ks) s'
    end) -> eventually (Runs (Block f k)) ks s.
Proof.
  clear. intros Hf. apply eventually_turn; intros now; destruct (Hf now) as (o & s' & E & He); cbn; rewrite E; cbn; [by eexists|].
  intros ???. destruct o; by intros [= <- <- <-].
Qed.

(** A thread that was woken and whose key is free takes the key and goes on. *)
Lemma eventually_wake fr p ks s : awake t s = true -> ks !! t = None ->
  (forall now, exists o s', resume now fr t s = Ok (o, s') /\
    match o with
    | Returns => eventually (Runs p) (<[t := t]> ks) s'
    | BlockedAt fr' => eventually (Sleeps fr' p) ks s'
    end) -> eventually (Sleeps fr p) ks s.
Proof.
  intros Ha Hk Hf. apply eventually_turn; intros now; destruct (Hf now) as (o & s' & E & He); cbn; rewrite Ha, Hk, E; cbn; [by eexists|].
  intros ???. destruct o; intros [= <- <- <-]; [done|]. by rewrite delete_insert_id.
Qed.

Lemma eventually_loop {X R} (x : X) (body : X -> proc S (X + R)) k ks s :
  eventually (Runs (bind (body x) (fun y => match y with inl x => Loop x body k | inr r => k r end))) ks s ->
  eventually (Runs (Loop x body k)) ks s.
Proof. intros He. apply eventually_turn; intros now; cbn; [by eexists|]. by intros ??? [= <- <- <-]. Qed.

End eventually.

Lemma eventually_mono {A} t (Q Q' : status S A -> gmap nat nat -> S -> Prop) x ks s : eventually t Q x ks s ->
  (forall x ks s, Q x ks s -> Q' x ks s) -> eventually t Q' x ks s.
Proof. intros He HQ. induction He; [apply eventually_now; auto|by eapply eventually_turn]. Qed.

Lemma bind_assoc {A B C} (p : proc S A) (g : A -> proc S B) (h : B -> proc S C) :
  bind (bind p g) h = bind p (fun a => bind (g a) h).
Proof.
  induction p as [A a|A D f k IH|A m k IH|A m k IH|A f k IH|A X R x body _ k IH]; cbn; f_equal; auto;
    apply functional_extensionality; auto.
Qed.

Lemma bind_ret {A} (p : proc S A) : bind p Ret = p.
Proof.
  induction p as [A a|A D f k IH|A m k IH|A m k IH|A f k IH|A X R x body _ k IH]; cbn; f_equal; auto;
    apply functional_extensionality; auto.
Qed.

(** The status of a thread whose handler goes on. *)
Definition then_ {A B} (x : status S A) (g : A -> proc S B) : status S B :=
  match x with Runs p => Runs (bind p g) | Sleeps fr p => Sleeps fr (bind p g) end.

Lemma turn_then {A B} now t (x : status S A) (g : A -> proc S B) ks s x' ks' s' : turn now t x ks s = Ok (Some (x', ks', s')) ->
  turn now t (then_ x g) ks s = Ok (Some (then_ x' g, ks', s')).
Proof.
  destruct x as [[a|C f k|m k|m k|f k|X R y body k]|fr p]; cbn; intros E; try done.
  - apply bind_ok in E as ([b s1] & -> & [= <- <- <-]). done.
  - case_match; by simplify_eq.
  - case_decide; by simplify_eq.
  - apply bind_ok in E as ([[|fr] s1] & -> & [= <- <- <-]); done.
  - injection E as <- <- <-. cbn. rewrite bind_assoc. do 6 f_equal. apply functional_extensionality. by intros [].
  - case_match; [|done]. case_match; [done|]. apply bind_ok in E as ([[|fr'] s1] & -> & [= <- <- <-]); done.
Qed.

Definition returns {A} (t : nat) (p : proc S A) (ks : gmap nat nat) (s : S) (R : A -> gmap nat nat -> S -> Prop) : Prop :=
  eventually t (fun x ks s => exists a, x = Runs (Ret a) /\ R a ks s) (Runs p) ks s.

Lemma eventually_then {A B} t (Q : status S A -> gmap nat nat -> S -> Prop) Q' (g : A -> proc S B) x ks s :
  eventually t Q x ks s -> (forall x ks s, Q x ks s -> eventually t Q' (then_ x g) ks s) -> eventually t Q' (then_ x g) ks s.
Proof.
  intros He HQ. induction He as [|x ks s Hs _ IH]; [auto|]. apply eventually_turn.
  - intros now. destruct (Hs now) as ([[x' ks'] s'] & E). eexists. by apply turn_then.
  - intros now x1 ks1 s1 E1. destruct (Hs now) as ([[x' ks'] s'] & E). rewrite (turn_then _ _ _ g _ _ _ _ _ E) in E1.
    injection E1 as <- <- <-. by eapply IH.
Qed.

(** Handlers one after the other. *)
Lemma eventually_bind {A B} t R (Q : status S B -> gmap nat nat -> S -> Prop) (p : proc S A) (g : A -> proc S B) ks s :
  returns t p ks s R -> (forall a ks s, R a ks s -> eventually t Q (Runs (g a)) ks s) -> eventually t Q (Runs (p ≫= g)) ks s.
Proof. intros Hp Hg. apply (eventually_then _ _ _ g _ _ _ Hp). intros ??? (a & -> & Ha). by apply Hg. Qed.

Lemma returns_ret {A} t (a : A) ks s (R : A -> gmap nat nat -> S -> Prop) : R a ks s -> returns t (mret a) ks s R.
Proof. intros Ha. apply eventually_now. by exists a. Qed.

Lemma returns_mono {A} t (p : proc S A) ks s (R R' : A -> gmap nat nat -> S -> Prop) : returns t p ks s R ->
  (forall a ks s, R a ks s -> R' a ks s) -> returns t p ks s R'.
Proof. intros Hp HR. eapply eventually_mono; [exact Hp|]. intros ??? (a & -> & Ha). eauto. Qed.

End logic.

(** ** Accounting *)
Module HandlerLogic.
Section rules.
Context `{HO : StdHeapOps} {T L : Type} `{HC : Controllers.VirtualTimelineController T} `{HL : LockTable L}.
Variable managerId : nat.
Variable gsf : float.
Variable minimizeTimeslotOnNw : bool.

Abbreviation V := (Vex T L).
Abbreviation handler := (proc V).
Abbreviation returns := (@returns V (resume managerId gsf) awake _).
Abbreviation eventually := (@eventually V (resume managerId gsf) awake _).
Implicit Types (t : nat) (v : V) (ks : gmap nat nat).

(** What accounting leaves alone of a thread. *)
Record same_life (s s' : thread) : Prop := {
  same_state : s'.(currentState) = s.(currentState);
  same_timeout : getTimeout s' = getTimeout s;
  same_timedOut : s'.(timedOut) = s.(timedOut);
  same_unparked : s'.(alreadyUnparked) = s.(alreadyUnparked);
  same_parked : s'.(parked) = s.(parked);
  same_object : s'.(timedWaitingObjectId) = s.(timedWaitingObjectId);
  same_realTime : s'.(waitingInRealTime) = s.(waitingInRealTime);
  same_id : s'.(jthreadId) = s.(jthreadId);
  same_awaken : wasAwaken s' = wasAwaken s;
  same_join : isAwakeningAfterJoin s' = isAwakeningAfterJoin s;
  same_manager : getThreadCurrentlyControllingManager s' = getThreadCurrentlyControllingManager s;
  same_speed : s'.(timers).(Timers.virtualTimeSpeedup) = s.(timers).(Timers.virtualTimeSpeedup);
}.

#[export] Instance same_life_preorder : PreOrder same_life.
Proof. split; [by split|]. intros s1 s2 s3 [] []. split; congruence. Qed.

(** [t] did nothing but accounting. *)
Record quiet t v v' : Prop := {
  quiet_locks : v'.(locks) = v.(locks);
  quiet_queue : v'.(world).(queue) = v.(world).(queue);
  quiet_registry : v'.(world).(registry) = v.(world).(registry);
  quiet_objects : v'.(world).(objects) = v.(world).(objects);
  quiet_running : v'.(world).(runningThread) = v.(world).(runningThread);
  quiet_others : forall u, u <> t -> thread_of u v'.(world) = thread_of u v.(world);
  quiet_self : same_life (thread_of t v.(world)) (thread_of t v'.(world));
}.

#[export] Instance quiet_preorder t : PreOrder (quiet t).
Proof.
  split; [by split|]. intros v1 v2 v3 [????? Ho1 Hs1] [????? Ho2 Hs2]. split; try congruence; [|by etransitivity].
  intros u Hu. by rewrite Ho2, Ho1.
Qed.

(** A thread that runs under a manager. *)
Definition at_work t v : Prop :=
  isRunning (thread_of t v.(world)) = true /\ exists m, getThreadCurrentlyControllingManager (thread_of t v.(world)) = Some m.

Lemma quiet_at_work t v v' : quiet t v v' -> at_work t v -> at_work t v'.
Proof. intros [_ _ _ _ _ _ Hs] [Hr Hm]. unfold at_work, isRunning, in_state in *. by rewrite (same_state _ _ Hs), (same_manager _ _ Hs). Qed.

Lemma thread_of_upd_ne t u f (w : World T) : u <> t -> thread_of u (upd t f w) = thread_of u w.
Proof. intros Hu. unfold thread_of, upd. cbn. rewrite lookup_update_thread. by rewrite decide_False. Qed.

Lemma quiet_upd t f v : (forall s, same_life s (f s)) -> quiet t v (set_world (upd t f v.(world)) v).
Proof. intros Hf. split; try done; cbn; [intros u; apply thread_of_upd_ne|]. rewrite thread_of_upd. apply Hf. Qed.

(** *** Steps *)
Section steps.
Context {A : Type} (t : nat) (Q : status V A -> gmap nat nat -> V -> Prop).

Lemma eventually_clock f (g : Z -> handler A) ks v : (forall z, eventually t Q (Runs (g z)) ks v) ->
  eventually t Q (Runs (clock f ≫= g)) ks v.
Proof. intros Hg. apply eventually_step. intros now. eexists _, _. split; [reflexivity|apply Hg]. Qed.

Lemma eventually_look {B} (f : World T -> B) (g : B -> handler A) ks v : eventually t Q (Runs (g (f v.(world)))) ks v ->
  eventually t Q (Runs (look f ≫= g)) ks v.
Proof. intros Hg. apply eventually_step. intros now. eexists _, _. split; [reflexivity|apply Hg]. Qed.

Lemma eventually_act f (g : unit -> handler A) ks v :
  (forall now, exists w, f now v.(world) = Ok w /\ eventually t Q (Runs (g tt)) ks (set_world w v)) ->
  eventually t Q (Runs (act f ≫= g)) ks v.
Proof.
  intros Hg. apply eventually_step. intros now. destruct (Hg now) as (w & E & Hw). eexists _, _. split; [|exact Hw].
  by rewrite E.
Qed.

Lemma eventually_act_thread u f (g : unit -> handler A) ks v :
  (forall now, eventually t Q (Runs (g tt)) ks (set_world (upd u (f now) v.(world)) v)) ->
  eventually t Q (Runs (act_thread u f ≫= g)) ks v.
Proof. intros Hg. apply eventually_act. intros now. eexists. split; [reflexivity|apply Hg]. Qed.

Lemma eventually_check f (g : unit -> handler A) ks v : f v.(world) = true -> eventually t Q (Runs (g tt)) ks v ->
  eventually t Q (Runs (check f ≫= g)) ks v.
Proof. intros E Hg. apply eventually_step. intros now. eexists _, _. split; [by rewrite E|apply Hg]. Qed.

Lemma eventually_locking m (g : unit -> handler A) ks v : ks !! m = None -> eventually t Q (Runs (g tt)) (<[m := t]> ks) v ->
  eventually t Q (Runs (lock m ≫= g)) ks v.
Proof. apply eventually_lock. Qed.

Lemma eventually_unlocking m (g : unit -> handler A) ks v : ks !! m = Some t -> eventually t Q (Runs (g tt)) (delete m ks) v ->
  eventually t Q (Runs (unlock m ≫= g)) ks v.
Proof. apply eventually_unlock. Qed.

Lemma eventually_manager f (g : unit -> handler A) ks v :
  (forall now, exists o w, f now v.(world) = Ok (o, w) /\
    match o with
    | Returns => eventually t Q (Runs (g tt)) ks (set_world w v)
    | BlockedAt fr => eventually t Q (Sleeps fr (g tt)) (delete t ks) (set_world w v)
    end) -> eventually t Q (Runs (manager f ≫= g)) ks v.
Proof.
  intros Hg. apply eventually_block. intros now. destruct (Hg now) as (o & w & E & Ho). exists o, (set_world w v).
  split; [by rewrite E|exact Ho].
Qed.

Lemma eventually_ret {B} (a : B) (g : B -> handler A) ks v : eventually t Q (Runs (g a)) ks v ->
  eventually t Q (Runs (mret a ≫= g)) ks v.
Proof. done. Qed.

End steps.

(** *** Entering and leaving *)
Section thread.
Context (t : nat).

(** The keys after a handler, and nothing but accounting. *)
Definition to_keys {A} (P : A -> Prop) ks' v (a : A) (ks : gmap nat nat) v' : Prop := P a /\ ks = ks' /\ quiet t v v'.

Lemma at_work_tight v : at_work t v ->
  negb (isRunning (thread_of t v.(world))) || bool_decide (controlling t v.(world) = None) = false.
Proof. intros [-> [m Hm]]. cbn. apply bool_decide_eq_false. unfold controlling. by rewrite Hm. Qed.

Lemma at_work_controlled v : at_work t v -> bool_decide (controlling t v.(world) <> None) = true.
Proof. intros [_ [m Hm]]. apply bool_decide_eq_true. unfold controlling. by rewrite Hm. Qed.

Lemma quiet_act f v v' : quiet t v v' -> (forall s, same_life s (f s)) -> quiet t v (set_world (upd t f v'.(world)) v').
Proof. intros Hq Hf. etransitivity; [exact Hq|by apply quiet_upd]. Qed.

Lemma same_life_timers (f : Timers.Timers -> Timers.Timers) s :
  (f s.(timers)).(Timers.timeout) = s.(timers).(Timers.timeout) ->
  (f s.(timers)).(Timers.virtualTimeSpeedup) = s.(timers).(Timers.virtualTimeSpeedup) -> same_life s (upd_timers f s).
Proof. by split. Qed.

Lemma returns_ensure startingTime ks v : at_work t v ->
  returns t (ensureThreadIsNotInNativeWaitingStateWhenEnteringVex managerId gsf minimizeTimeslotOnNw t startingTime) ks v
    (to_keys (fun b => b = true) ks v).
Proof.
  intros Hw. apply eventually_act_thread. intros _. set (v1 := set_world _ _).
  assert (quiet t v v1) as Hq by (by apply quiet_act; [reflexivity|by split]).
  assert (at_work t v1) as Hw1 by (by eapply quiet_at_work).
  apply eventually_look. rewrite (at_work_tight _ Hw1). apply eventually_ret.
  apply eventually_check; [by apply at_work_controlled|]. apply returns_ret. by split.
Qed.

Lemma returns_enterAt startingTime ks v : at_work t v ->
  returns t (enterAt managerId gsf minimizeTimeslotOnNw t startingTime) ks v (to_keys (fun _ => True) ks v).
Proof.
  intros Hw. eapply eventually_bind; [by apply returns_ensure|]. intros b ks1 v1 (-> & -> & Hq).
  rewrite <- (bind_ret (updateThreadLocalTimeSinceLastResumeTo _ _ _)).
  apply eventually_act_thread. intros _. apply returns_ret. split; [done|]. split; [done|]. apply quiet_act; [done|].
  intros s. by apply same_life_timers; unfold Timers.updateThreadLocalTimeSinceLastResumeTo; case_match.
Qed.

Lemma returns_time ks v : at_work t v -> ks !! t = None ->
  returns t (getTimeOnVexEntry managerId gsf minimizeTimeslotOnNw t) ks v (to_keys (fun _ => True) (<[t := t]> ks) v).
Proof.
  intros Hw Hk. apply eventually_clock. intros z. eapply eventually_bind; [by apply returns_enterAt|].
  intros [] ks1 v1 (_ & -> & Hq). apply eventually_locking; [done|]. by apply returns_ret.
Qed.

Lemma returns_entry ks v : at_work t v -> ks !! t = None ->
  returns t (onVexEntry managerId gsf minimizeTimeslotOnNw t) ks v (to_keys (fun _ => True) (<[t := t]> ks) v).
Proof.
  intros Hw Hk. eapply eventually_bind; [by apply returns_time|]. intros z ks1 v1 (_ & -> & Hq). by apply returns_ret.
Qed.

Lemma returns_entry_at startingTime ks v : at_work t v -> ks !! t = None ->
  returns t (getCurrentSchedulerOnVexEntryAt managerId gsf minimizeTimeslotOnNw t startingTime) ks v
    (to_keys (fun m => m = controlling t v.(world) /\ m <> None) (<[t := t]> ks) v).
Proof.
  intros Hw Hk. apply eventually_act_thread. intros _. set (v1 := set_world _ _).
  assert (quiet t v v1) as Hq1 by (by apply quiet_act; [reflexivity|by split]).
  eapply eventually_bind; [apply returns_enterAt; by eapply quiet_at_work|]. intros [] ks2 v2 (_ & -> & Hq2).
  assert (quiet t v v2) as Hq by (by etransitivity).
  apply eventually_locking; [done|]. rewrite <- (bind_ret (look _)). apply eventually_look, returns_ret.
  split; [|by split]. split; [unfold controlling; by rewrite (same_manager _ _ (quiet_self _ _ _ Hq))|].
  destruct (quiet_at_work _ _ _ Hq Hw) as [_ [m Hm]]. unfold controlling. by rewrite Hm.
Qed.

Lemma returns_own_manager ks v : at_work t v ->
  returns t (getCurrentlyControllingManagerOf managerId gsf minimizeTimeslotOnNw t) ks v
    (fun m ks' v' => controlling t v.(world) = Some m /\ ks' = ks /\ v' = v).
Proof.
  intros [_ [m Hm]]. apply eventually_loop. cbn [bind]. apply eventually_look. unfold controlling. rewrite Hm. cbn.
  apply eventually_now. exists m. done.
Qed.

Lemma returns_exit ks v : ks !! t = Some t ->
  returns t (onVexExitWithoutTimeUpdate t) ks v (fun a ks' v' => to_keys (fun _ => True) (delete t ks) v a ks' v' /\
    getEstimatedRealTime (thread_of t v'.(world)) = getEstimatedRealTime (thread_of t v.(world))).
Proof.
  intros Hk. apply eventually_unlocking; [done|]. rewrite <- (bind_ret (act_thread _ _)).
  apply eventually_act_thread. intros _. apply returns_ret. split; [|cbn; by rewrite thread_of_upd].
  split; [done|]. split; [done|]. apply quiet_act; by split.
Qed.

Lemma returns_exit_cpu ks v : ks !! t = Some t ->
  returns t (onVexExitWithCpuTimeUpdate t) ks v (fun a ks' v' => to_keys (fun _ => True) (delete t ks) v a ks' v' /\
    getEstimatedRealTime (thread_of t v'.(world)) = getEstimatedRealTime (thread_of t v.(world))).
Proof.
  intros Hk. eapply eventually_bind; [by apply returns_exit|]. intros [] ks1 v1 ((_ & -> & Hq) & Ht).
  rewrite <- (bind_ret (act_thread _ _)). apply eventually_act_thread. intros now. apply returns_ret.
  split; [|cbn; by rewrite thread_of_upd]. split; [done|]. split; [done|]. apply quiet_act; [done|]. by split.
Qed.

Lemma returns_exit_both ks v : ks !! t = Some t ->
  returns t (onVexExitWithBothClocksUpdate t) ks v (to_keys (fun _ => True) (delete t ks) v).
Proof.
  intros Hk. apply eventually_unlocking; [done|]. rewrite <- (bind_ret (act_thread _ _)).
  apply eventually_act_thread. intros now. apply returns_ret. split; [done|]. split; [done|]. apply quiet_act; by split.
Qed.

End thread.
End rules.
End HandlerLogic.
