(* ===== verification/EventDiscipline.v ===== *)
(** * No thread waits for the key of another

    Handlers of threads that keep to the key of their own thread
    ([Handlers.disciplined]), side by side with a scheduler that locks the key
    of one thread at a time: none of them waits for another thread, releases a
    key that it does not hold or calls its manager without its key.  What is
    left out: the release of locks, timed interrupts, unparking and parking
    without a timeout do not keep to the discipline, and [EventFaults] shows what
    happens then; the start and the end of a thread, native waiting, methods
    and I/O are other handlers. *)
From stdpp Require Import relations.
From S2P Require Import Prelude Heap AdaptiblePQueue CxxFloat Timers VirtualTimeline Controllers Statistics ThreadParts.
From S2P Require Import ThreadState ThreadQueue Registries ThreadRegistry ThreadManager Handlers ThreadHandlers ThreadEvents.
Import VexThreadState ThreadManager ThreadHandlers ThreadEvents.

Module EventDiscipline.
Section discipline.
Context `{HO : StdHeapOps} {T L : Type} `{HC : Controllers.VirtualTimelineController T} `{HL : LockTable L}.
Variable managerId : nat.
Variable gsf : float.
Variable minimizeTimeslotOnNw : bool.
Variable yieldDuration bytecodeDelay interactionPointDelay : Z.
Variable usingVtfScheduler : bool.
Implicit Type t : nat.

Abbreviation V := (Vex T L).
Abbreviation handler := (proc V).
Abbreviation typed := (@disciplined V _).

(** Types a handler by its shape. *)
Ltac typing :=
  repeat match goal with |- forall _, _ => intro end; cbn beta zeta;
  lazymatch goal with
  | |- disciplined _ _ (mbind _ _) _ => eapply disciplined_mbind; [typing|typing]
  | |- disciplined _ _ (if ?c then _ else _) _ => destruct c; typing
  | |- disciplined _ _ (match ?x with _ => _ end) _ => destruct x; typing
  | |- disciplined _ _ (Loop _ _ Ret) _ => apply disciplined_loop; typing
  | _ => solve [eauto with disciplined]
  end.

(** ** The parts of handlers *)
Section parts.
Context (t : nat).

Lemma typed_on_objects {B} (f : ObjectRegistry.registry -> B * ObjectRegistry.registry) b : typed t b (on_objects f : handler B) b.
Proof. done. Qed.
Lemma typed_on_locks {B} (f : L -> res (B * L)) b : typed t b (on_locks f : handler B) b.
Proof. done. Qed.
Lemma typed_on_registry {B} (f : store -> ThreadRegistry.ThreadRegistry -> res (B * store * ThreadRegistry.ThreadRegistry)) b :
  typed t b (on_registry f : handler B) b.
Proof. done. Qed.
Lemma typed_state_of id b : typed t b (state_of id : handler _) b.
Proof. done. Qed.
Lemma typed_uniqueId u b : typed t b (uniqueId u : handler _) b.
Proof. done. Qed.
Lemma typed_ert_of u b : typed t b (ert_of u : handler _) b.
Proof. done. Qed.
Lemma typed_step {B} (f : Now -> V -> res (B * V)) b : typed t b (Step f Ret : handler B) b.
Proof. done. Qed.
Lemma typed_suspend s opts : typed t true (suspendCurrent managerId gsf t s opts : handler _) true.
Proof. apply disciplined_manager. Qed.
Lemma typed_update s b : typed t b (updateThreadLocalTimeSinceLastResumeTo gsf t s : handler _) b.
Proof. done. Qed.
Lemma typed_onVexExit b : typed t b (onVexExit t : handler _) b.
Proof. done. Qed.

End parts.

#[local] Hint Resolve typed_on_objects typed_on_locks typed_on_registry typed_state_of typed_uniqueId typed_ert_of typed_step
  typed_suspend typed_update typed_onVexExit : disciplined.

Lemma typed_pending t m b : typed t b (increasePendingNotifications m : handler _) b.
Proof. unfold increasePendingNotifications. solve_disciplined. Qed.

Lemma typed_interruptThread t u m time call b : typed t b (interruptThread u m time call : handler _) b.
Proof. unfold interruptThread. solve_disciplined. Qed.
#[local] Hint Resolve typed_pending typed_interruptThread : disciplined.

Lemma typed_signalOne t objectId m time b : typed t b (onSignallingOneThreadOnObject objectId m time : handler _) b.
Proof. unfold onSignallingOneThreadOnObject. solve_disciplined. Qed.

Lemma typed_signalAll t objectId m time b : typed t b (onSignallingAllThreadsOnObject objectId m time : handler _) b.
Proof. unfold onSignallingAllThreadsOnObject. solve_disciplined. Qed.

Lemma typed_atOwnTime t f : (forall m time, typed t true (f m time) true) ->
  typed t false (atOwnTime managerId gsf minimizeTimeslotOnNw interactionPointDelay (Some t) f) false.
Proof.
  intros Hf. unfold atOwnTime. eapply disciplined_mbind; [solve [eauto with disciplined]|]. intros startingTime.
  eapply disciplined_mbind; [solve [eauto with disciplined]|]. intros m.
  eapply disciplined_mbind; [solve [eauto with disciplined]|]. intros time.
  eapply disciplined_mbind; [apply Hf|]. solve_disciplined.
Qed.

Lemma typed_requesting t lockId : typed t true (onLocklessRequestingLock t lockId : handler _) true.
Proof. unfold onLocklessRequestingLock. solve_disciplined. Qed.
#[local] Hint Resolve typed_signalOne typed_signalAll typed_requesting : disciplined.

(** ** The events of a thread *)
Inductive event :=
  | WaitingStart | WaitingEnd | TimedWaitingStart (objectId timeout nanoTimeout : Z) | TimedWaitingEnd
  | BeforeWait (objectId : Z) | Wait (objectId : Z) (updateLockRegistry : bool)
  | TimedWait (objectId timeout nanoTimeout : Z) (updateLockRegistry : bool) | Sleep (timeout nanoTimeout : Z)
  | Park (timeout : Z) | Parked
  | Notify (objectId : Z) | NotifyAll (objectId : Z) | Interrupt (threadId : Z) | RequestLock (lockId : Z)
  | BeforeCreating (threadId : Z) | AfterCreating | Join (threadId : Z)
  | InteractionPoint | Yield | GetTime.

Definition handle (t : nat) (e : event) : handler unit :=
  match e with
  | WaitingStart => onWrappedWaitingStart managerId gsf minimizeTimeslotOnNw bytecodeDelay t
  | WaitingEnd => onWrappedWaitingEnd managerId gsf t
  | TimedWaitingStart o time nano =>
    ThreadEvents.onWrappedTimedWaitingStart managerId gsf minimizeTimeslotOnNw interactionPointDelay t o time nano
  | TimedWaitingEnd => ThreadEvents.onWrappedTimedWaitingEnd managerId gsf minimizeTimeslotOnNw t
  | BeforeWait o => beforeReleasingLockOfAnyReplacedWaiting managerId gsf minimizeTimeslotOnNw t o false ;; mret tt
  | Wait o upd => ThreadEvents.onReplacedWaiting managerId gsf minimizeTimeslotOnNw t o upd ;; mret tt
  | TimedWait o time nano upd => ThreadEvents.onReplacedTimedWaiting managerId gsf minimizeTimeslotOnNw t o time nano upd ;; mret tt
  | Sleep time nano => onSleep managerId gsf minimizeTimeslotOnNw t time nano ;; mret tt
  | Park timeout => onPark managerId gsf minimizeTimeslotOnNw bytecodeDelay t timeout
  | Parked => onParked managerId gsf minimizeTimeslotOnNw t
  | Notify o => onSignallingOnObject managerId gsf minimizeTimeslotOnNw interactionPointDelay (Some t) o ;; mret tt
  | NotifyAll o => onBroadcastingOnObject managerId gsf minimizeTimeslotOnNw interactionPointDelay (Some t) o ;; mret tt
  | Interrupt id => onInterrupt managerId gsf minimizeTimeslotOnNw interactionPointDelay (Some t) id ;; mret tt
  | RequestLock l => onRequestingLock managerId gsf minimizeTimeslotOnNw t l
  | BeforeCreating id => beforeCreatingThread managerId gsf minimizeTimeslotOnNw t id
  | AfterCreating => afterCreatingThread managerId gsf minimizeTimeslotOnNw t
  | Join id => onJoin managerId gsf minimizeTimeslotOnNw t id
  | InteractionPoint => onInteractionPoint managerId gsf minimizeTimeslotOnNw interactionPointDelay t
  | Yield => ThreadEvents.onYield managerId gsf minimizeTimeslotOnNw yieldDuration interactionPointDelay t
  | GetTime => getTime managerId gsf minimizeTimeslotOnNw bytecodeDelay usingVtfScheduler (Some t) ;; mret tt
  end.

(** Parking has a timeout. *)
Definition admissible (e : event) : bool :=
  match e with Park timeout => 0 <? timeout | _ => true end.

Lemma typed_park t timeout : 0 < timeout -> typed t false (onPark managerId gsf minimizeTimeslotOnNw bytecodeDelay t timeout) false.
Proof.
  intros Ht%Z.ltb_lt. unfold onPark. eapply disciplined_mbind; [typing|]. intros startingTime.
  eapply disciplined_mbind; [typing|]. intros []; [|rewrite Ht]; typing.
Qed.

Lemma handle_typed t e : admissible e = true -> typed t false (handle t e) false.
Proof.
  destruct e; intros He; cbn [handle];
    unfold ThreadEvents.onWrappedTimedWaitingStart, ThreadEvents.onWrappedTimedWaitingEnd, beforeReleasingLockOfAnyReplacedWaiting,
      ThreadEvents.onReplacedWaiting, onSleep, ThreadEvents.onReplacedTimedWaiting, onParked, insertWaiting,
      onSignallingOnObject, onBroadcastingOnObject, onInterrupt, onRequestingLock, beforeCreatingThread, afterCreatingThread,
      onJoin, onInteractionPoint, ThreadEvents.onYield, getTime; try solve [typing].
  1: by apply typed_park, Z.ltb_lt.
  all: eapply disciplined_mbind; [apply typed_atOwnTime; typing|typing].
Qed.

(** ** Threads side by side *)

(** Threads call the handlers of their events. *)
Inductive occurs : forall A, nat -> proc V A -> Prop :=
  | occurs_event t e : admissible e = true -> occurs unit t (handle t e).

(** What the scheduler does with the state, given the key that it holds. *)
Context (schedules : option nat -> V -> V -> Prop).

Abbreviation configuration := (config V unit).

(** The key that a thread needs for its next step. *)
Definition needs (t : nat) (x : status V unit) : option nat :=
  match x with Runs (Lock m _) => Some m | Sleeps _ _ => Some t | _ => None end.

(** The threads, and the key that the scheduler holds, if it holds one:
    [continueThread] and [suspendThread] lock the key of the thread that they
    handle, and give it back before they turn to another. *)
Inductive side_by_side : configuration * option nat -> configuration * option nat -> Prop :=
  | thread_turn now t x x' ks' s' c h : c.(pool) !! t = Some x -> (forall m, needs t x = Some m -> h <> Some m) ->
      turn (resume managerId gsf) awake now t x c.(keys) c.(state) = Ok (Some (x', ks', s')) ->
      side_by_side (c, h) (mkConfig (<[t := x']> c.(pool)) ks' s', h)
  | thread_call t p c h : (forall x, c.(pool) !! t = Some x -> exists a, x = Runs (Ret a)) -> occurs unit t p ->
      side_by_side (c, h) (mkConfig (<[t := Runs p]> c.(pool)) c.(keys) c.(state), h)
  | scheduler_locks m c : c.(keys) !! m = None -> side_by_side (c, None) (c, Some m)
  | scheduler_unlocks m c : side_by_side (c, Some m) (c, None)
  | scheduler_works s' c h : schedules h c.(state) s' -> side_by_side (c, h) (mkConfig c.(pool) c.(keys) s', h).

Abbreviation runs := (rtc side_by_side).

Lemma occurs_typed {A} t (p : handler A) : occurs A t p -> typed t false p false.
Proof. intros []. by apply handle_typed. Qed.

(** A key that a thread does not need for its step stays free. *)
Lemma turn_takes now t x ks s x' ks' s' m : turn (resume managerId gsf) awake now t x ks s = Ok (Some (x', ks', s')) ->
  ks !! m = None -> needs t x <> Some m -> ks' !! m = None.
Proof.
  intros E Hm Hn. destruct x as [[a|B f k|n k|n k|f k|X R y body k]|fr p]; cbn in E, Hn; try done.
  - apply bind_ok in E as ([b s1] & _ & [= _ <- _]). done.
  - case_match; simplify_eq. rewrite lookup_insert_ne; [done|]. congruence.
  - case_decide; simplify_eq. apply lookup_delete_None. by right.
  - apply bind_ok in E as ([[|fr] s1] & _ & [= _ <- _]); [done|]. apply lookup_delete_None. by right.
  - by injection E as _ <- _.
  - case_match; [|done]. case_match; [done|]. assert (t <> m) by congruence.
    apply bind_ok in E as ([[|fr'] s1] & _ & [= _ <- _]); [by rewrite lookup_insert_ne|].
    apply lookup_delete_None. right. by rewrite lookup_insert_ne.
Qed.

(** Nobody else has the key that the scheduler holds. *)
Definition orderly (ch : configuration * option nat) : Prop :=
  typed_config ch.1 /\ forall m, ch.2 = Some m -> ch.1.(keys) !! m = None.

Lemma side_by_side_orderly ch ch' : side_by_side ch ch' -> orderly ch -> orderly ch'.
Proof.
  assert (forall c c' : configuration, steps (resume managerId gsf) awake occurs (schedules None) c c' -> typed_config c -> typed_config c') as Hty
    by (intros c c'; apply steps_typed, @occurs_typed).
  intros Hs [Ht Hh]. destruct Hs as [now t x x' ks' s' c h Hx Hn E|t p c h Hr Hc|m c Hm|m c|s' c h _]; cbn [fst snd] in *.
  - split; [eapply Hty; [by eapply steps_turn|done]|]. cbn [fst snd keys]. intros m ->. eapply turn_takes; [exact E|by apply Hh|].
    intros Hx'. exact (Hn m Hx' eq_refl).
  - split; [eapply Hty; [by eapply steps_call|done]|exact Hh].
  - split; [done|]. by intros m' [= <-].
  - by split.
  - split; [exact Ht|exact Hh].
Qed.

Lemma runs_orderly v ch : runs (mkConfig ∅ ∅ v, None) ch -> orderly ch.
Proof.
  assert (orderly (mkConfig ∅ ∅ v, None)) as H0.
  { split; [|done]. split; [by intros m u|]. split; cbn; intros u; [done|]. intros _. unfold holds_own. by rewrite bool_decide_eq_false. }
  intros Hr. assert (forall a b, runs a b -> orderly a -> orderly b) as Hi; [|by eapply Hi].
  clear. induction 1 as [|a b c Hs _ IH]; [done|]. intros Ha. apply IH. by eapply side_by_side_orderly.
Qed.

(** What a thread is about to do with keys is possible, as far as other
    threads are concerned. *)
Definition unhindered (t : nat) (x : status V unit) (keys : gmap nat nat) : Prop :=
  match x with
  | Runs (Ret _) => keys !! t = None
  | Runs (Lock m _) => m = t /\ keys !! m = None
  | Runs (Unlock m _) => keys !! m = Some t
  | Runs (Block _ _) => keys !! t = Some t
  | Runs _ => True
  | Sleeps _ _ => keys !! t = None
  end.

Lemma well_typed_unhindered t x keys : own_keys keys -> well_typed t x (holds_own keys t) false -> unhindered t x keys.
Proof.
  intros Ho Hx. assert (holds_own keys t = false -> keys !! t = None) as Hf by (by apply not_own).
  assert (holds_own keys t = true -> keys !! t = Some t) as Ht by (unfold holds_own; by rewrite bool_decide_eq_true).
  destruct x as [[]|]; cbn in *; try done; try by apply Hf.
  - destruct Hx as (-> & Hh & _). split; [done|by apply Hf].
  - destruct Hx as (-> & Hh & _). by apply Ht.
  - by apply Ht, Hx.
  - by apply Hf, Hx.
Qed.

(** Without a key of its own, [t] is not about to wait. *)
Lemma holder_goes_on now t x keys (s : V) : own_keys keys -> well_typed t x (holds_own keys t) false -> keys !! t = Some t ->
  turn (resume managerId gsf) awake now t x keys s <> Ok None /\ needs t x = None.
Proof.
  intros Ho Hx Hk. pose proof (well_typed_unhindered t x keys Ho Hx) as Hu.
  pose proof (turn_typed (resume managerId gsf) awake now t x keys s false Ho Hx) as Hs. split.
  - intros E. rewrite E in Hs. destruct Hs as [[a ->]|(fr & p & -> & _)]; cbn in Hu; congruence.
  - destruct x as [[]|]; cbn in *; try done; [destruct Hu as [-> Hu]|]; congruence.
Qed.

(** C3. Whatever threads do side by side, in any order of their steps and of
    those of a scheduler that locks the key of one thread at a time, no thread
    waits for a key that another thread holds, releases one that it does not
    hold, calls its manager without its own or keeps it when it returns or
    sleeps.  When it cannot take its next step, it has returned, sleeps, or the
    scheduler holds its key; and when the scheduler finds a key taken, it is
    the thread itself that holds it, and that thread can take its next step.
    This is about the calls of [event]: waits, with or without a timeout, timed
    parking, notifications, interrupts, requests of locks, the creation and the
    joining of threads, interaction points, yielding and asking for the time. *)
Theorem keys_never_waited_for v c h t x now : runs (mkConfig ∅ ∅ v, None) (c, h) -> c.(pool) !! t = Some x ->
  unhindered t x c.(keys) /\
  (turn (resume managerId gsf) awake now t x c.(keys) c.(state) = Ok None ->
   (exists a, x = Runs (Ret a)) \/ exists fr p, x = Sleeps fr p /\ awake t c.(state) = false) /\
  (forall m, needs t x = Some m -> h = Some m -> m = t /\ side_by_side (c, h) (c, None)) /\
  (forall m, c.(keys) !! m = Some t -> m = t /\ h <> Some m /\
     turn (resume managerId gsf) awake now t x c.(keys) c.(state) <> Ok None /\ needs t x = None).
Proof.
  intros Hr Hx. destruct (runs_orderly _ _ Hr) as [(Ho & Hp & _) Hh]. cbn [fst snd] in *.
  pose proof (Hp _ _ Hx) as Ht. pose proof (well_typed_unhindered t x _ Ho Ht) as Hu. split_and!; [done|..].
  - intros E. pose proof (turn_typed (resume managerId gsf) awake now t x c.(keys) c.(state) false Ho Ht) as Hs. by rewrite E in Hs.
  - intros m Hn ->. split; [|apply scheduler_unlocks]. destruct x as [[]|]; cbn in *; simplify_eq; [apply Hu|done].
  - intros m Hm. pose proof (Ho _ _ Hm) as ->. split; [done|]. split; [intros E; by rewrite (Hh _ E) in Hm|].
    by apply holder_goes_on.
Qed.

End discipline.

(** ** Witness: a thread that comes back from a wait *)
#[local] Existing Instances Controllers.SingleVirtualTimelineController.

Definition one_running : Vex VirtualTimeline.VirtualTimeline.VirtualTimeline LockRegistry.registry :=
  mkVex (new_ThreadManager {[ 1%nat := ThreadQueue.io_thread 10 5 ]} [] (ThreadRegistry.new_ThreadRegistry 2 false) ∅
    (VirtualTimeline.VirtualTimeline.mkTimeline 0 0) false 0 None) ∅.

Lemma keys_never_waited_for_witness :
  exists k (c : config (Vex VirtualTimeline.VirtualTimeline.VirtualTimeline LockRegistry.registry) unit),
    c.(pool) !! 1%nat = Some (Runs (Lock 1 k)) /\ unhindered (L := LockRegistry.registry) 1 (Runs (Lock 1 k)) c.(keys).
Proof.
  assert (exists k c, rtc (side_by_side 0 f32_one false 100 5 5 false (fun _ _ _ => False))
    (mkConfig ∅ ∅ one_running, None) (c, Some 1%nat) /\ c.(pool) !! 1%nat = Some (Runs (Lock 1 k))) as (k & c & Hr & Hx).
  { eexists _, _. split.
    - eapply rtc_l; [apply (thread_call _ _ _ _ _ _ _ _ 1 (handle 0 f32_one false 100 5 5 false 1 WaitingEnd)); [done|by apply occurs_event]|].
      eapply rtc_l; [eapply (thread_turn _ _ _ _ _ _ _ _ (mkNow 7 7) 1); [reflexivity|done|reflexivity]|].
      eapply rtc_l; [by apply (scheduler_locks _ _ _ _ _ _ _ _ 1)|apply rtc_refl].
    - reflexivity. }
  exists k, c. split; [done|].
  exact (proj1 (keys_never_waited_for 0 f32_one false 100 5 5 false _ one_running c _ 1 _ (mkNow 7 7) Hr Hx)).
Defined.

End EventDiscipline.
