(* ===== verification/EventFaults.v ===== *)
(** * Parking and unparking

    Where handlers do not keep to the key of their own thread
    ([EventDiscipline]): parking without a timeout releases a key that is not
    held, and threads that unpark themselves or each other wait for ever. *)
From stdpp Require Import relations.
From S2P Require Import Prelude Heap AdaptiblePQueue CxxFloat Timers VirtualTimeline Controllers Statistics ThreadParts ThreadState.
From S2P Require Import ThreadQueue Registries ThreadRegistry ThreadManager Suspension Handlers ThreadHandlers ThreadEvents HandlerLogic.
Import VexThreadState ThreadManager ThreadHandlers ThreadEvents HandlerLogic.

Module EventFaults.
Section faults.
Context `{HO : StdHeapOps} `{HH : !StdHeap HO} {T L : Type} `{HC : Controllers.VirtualTimelineController T}.
Context `{HT : !Controllers.TotalController T} `{HL : LockTable L}.
Variable managerId : nat.
Variable gsf : float.
Variable minimizeTimeslotOnNw : bool.
Variable yieldDuration bytecodeDelay interactionPointDelay : Z.
Implicit Type t : nat.

Abbreviation V := (Vex T L).
Abbreviation turn := (turn (resume managerId gsf) (@awake T L)).
Abbreviation returns := (@returns V (resume managerId gsf) awake _).
Abbreviation eventually := (@eventually V (resume managerId gsf) awake _).

(** ** Parking without a timeout *)

(** The beginning of the wait ends outside VEX, without the key. *)
Lemma returns_waiting_start t ks v : at_work t v -> ks !! t = None ->
  returns t (onWrappedWaitingStart managerId gsf minimizeTimeslotOnNw bytecodeDelay t) ks v (fun _ ks' _ => ks' !! t = None).
Proof.
  intros Hw Hk. apply eventually_clock. intros startingTime. eapply eventually_bind; [by apply returns_entry_at|].
  intros m ks1 v1 ([-> Hm] & -> & Hq). apply eventually_act_thread. intros _.
  destruct (controlling t v.(world)) as [m|] eqn:E; [|done]. apply eventually_ret. apply eventually_act. intros now.
  unfold ThreadManager.onWrappedWaitingStart.
  destruct (Suspension.setVT_total (HC := HC) gsf startingTime t (set_world (upd t
    (fun s => setWaiting (upd_sched (Scheduling.setAwakeningFromJoin false) (setTimeout (-1) (setTimedOut true (addInvocationPoints s)))))
    v1.(world)) v1).(world)) as [w ->]. cbn.
  rewrite bool_decide_eq_true_2 by apply Suspension.unset_running. cbn. eexists. split; [reflexivity|].
  eapply returns_mono; [apply returns_exit_both; apply lookup_insert_eq|]. intros _ ks' v' (_ & -> & _). apply lookup_delete_eq.
Qed.

(** A running thread that parks without a timeout, and has no permit to go
    on, releases its key a second time: its handler never comes to its end. *)
Theorem park_releases_key_twice t timeout ks v : at_work t v -> ks !! t = None -> timeout <= 0 ->
  (thread_of t v.(world)).(alreadyUnparked) = false ->
  eventually t (fun x ks' v' => forall now, turn now t x ks' v' = Err NotOwner)
    (Runs (onPark managerId gsf minimizeTimeslotOnNw bytecodeDelay t timeout)) ks v.
Proof.
  intros Hw Hk Ht Hu. eapply eventually_bind; [by apply returns_time|]. intros startingTime ks1 v1 (_ & -> & Hq).
  apply eventually_step. intros _. unfold getAndSetUnparkedState. rewrite (same_unparked _ _ (quiet_self _ _ _ Hq)), Hu.
  eexists _, _. split; [reflexivity|]. cbn [negb bind]. rewrite (proj2 (Z.ltb_ge 0 timeout)) by done.
  apply eventually_unlocking; [apply lookup_insert_eq|]. eapply eventually_bind.
  { apply returns_waiting_start; [|by rewrite lookup_delete_eq]. destruct (quiet_at_work _ _ _ Hq Hw).
    split; cbn; rewrite thread_of_upd; done. }
  intros [] ks2 v2 Hk2. apply eventually_now. intros now. cbn. by rewrite decide_False by (by rewrite Hk2).
Qed.

(** ** Threads that wait for each other *)
Context (calls : forall A, nat -> proc V A -> Prop) (schedules : V -> V -> Prop).
Abbreviation steps := (@steps V (resume managerId gsf) awake calls schedules unit).
Abbreviation configuration := (config V unit).

(** Each of them waits for the key of one of them, which one of them holds. *)
Definition deadlocked (D : nat -> Prop) (c : configuration) : Prop :=
  forall t, D t -> exists m k u, c.(pool) !! t = Some (Runs (Lock m k)) /\ D m /\ c.(keys) !! m = Some u /\ D u.

Lemma turn_keeps_key {A} now t (x : status V A) ks s x' ks' s' m u : turn now t x ks s = Ok (Some (x', ks', s')) ->
  ks !! m = Some u -> u <> t -> m <> t -> ks' !! m = Some u.
Proof.
  intros E Hm Hu Hmt. destruct x as [[a|B f k|n k|n k|f k|X R y body k]|fr p]; cbn in E; try done.
  - apply bind_ok in E as ([b s1] & _ & [= _ <- _]). done.
  - case_match eqn:E1; simplify_eq. rewrite lookup_insert_ne; [done|]. intros ->. congruence.
  - case_decide; simplify_eq. rewrite lookup_delete_ne; [done|]. intros ->. congruence.
  - apply bind_ok in E as ([[|fr] s1] & _ & [= _ <- _]); [done|]. by rewrite lookup_delete_ne.
  - by injection E as _ <- _.
  - case_match; [|done]. case_match; [done|]. apply bind_ok in E as ([[|fr'] s1] & _ & [= _ <- _]).
    + by rewrite lookup_insert_ne.
    + by rewrite lookup_delete_ne, lookup_insert_ne.
Qed.

Lemma deadlocked_step D c c' : steps c c' -> deadlocked D c -> deadlocked D c' /\ forall t, D t -> c'.(pool) !! t = c.(pool) !! t.
Proof.
  intros Hs Hd. enough (forall t, D t -> c'.(pool) !! t = c.(pool) !! t /\
    forall m u, D m -> D u -> c.(keys) !! m = Some u -> c'.(keys) !! m = Some u) as He.
  { split; [|intros t Ht; apply (He t Ht)]. intros t Ht. destruct (Hd t Ht) as (m & k & u & Hp & Hm & Hk & Hu).
    exists m, k, u. destruct (He t Ht) as [-> Hkeep]. auto. }
  intros t Ht. destruct (Hd t Ht) as (m & k & u & Hp & _).
  destruct Hs as [now t' x x' ks' s' c Hx E|t' p c Hret _|s' c _]; cbn; [| |done].
  - assert (~ D t') as Hn.
    { intros Ht'. destruct (Hd t' Ht') as (m' & k' & u' & Hp' & _ & Hk' & _). rewrite Hx in Hp'. injection Hp' as ->.
      cbn in E. by rewrite Hk' in E. }
    rewrite lookup_insert_ne by (by intros ->). split; [done|]. intros m' u' Hm' Hu' Hk'.
    eapply turn_keeps_key; [exact E|done|by intros ->|by intros ->].
  - rewrite lookup_insert_ne; [done|]. intros ->. by destruct (Hret _ Hp) as [a [=]].
Qed.

Lemma deadlocked_steps D c c' : rtc steps c c' -> deadlocked D c -> forall t, D t -> c'.(pool) !! t = c.(pool) !! t.
Proof.
  induction 1 as [|c c1 c' Hs _ IH]; [done|]. intros Hd. destruct (deadlocked_step D _ _ Hs Hd) as [Hd1 Hp].
  intros t Ht. rewrite <- (Hp t Ht). by apply IH.
Qed.

(** What a thread comes to is a run of the configuration. *)
Lemma eventually_steps t (Q : status V unit -> gmap nat nat -> V -> Prop) x ks s p : eventually t Q x ks s ->
  p !! t = Some x -> exists x' ks' s', rtc steps (mkConfig p ks s) (mkConfig (<[t := x']> p) ks' s') /\ Q x' ks' s'.
Proof.
  intros He. revert p. induction He as [x ks s HQ|x ks s Hs _ IH]; intros p Hp.
  - exists x, ks, s. rewrite insert_id by done. by split; [apply rtc_refl|].
  - set (now := mkNow 0 0). destruct (Hs now) as ([[x1 ks1] s1] & E).
    destruct (IH now x1 ks1 s1 E (<[t := x1]> p)) as (x' & ks' & s' & Hr & HQ); [by rewrite lookup_insert_eq|].
    exists x', ks', s'. split; [|exact HQ]. rewrite insert_insert_eq in Hr.
    eapply rtc_l; [|exact Hr]. by apply (steps_turn _ _ _ _ now t x).
Qed.

Lemma unpark_needs_key t u id ks v : at_work t v -> ks !! t = None ->
  ThreadRegistry.getCurrentThreadState id v.(world).(registry) = Some u ->
  eventually t (fun x ks' v' => (exists k, x = Runs (Lock u k)) /\ ks' = <[t := t]> ks /\ quiet t v v')
    (Runs (onUnpark managerId gsf minimizeTimeslotOnNw (Some t) id)) ks v.
Proof.
  intros Hw Hk Hid. eapply eventually_bind; [by apply returns_entry|]. intros [] ks1 v1 (_ & -> & Hq).
  apply eventually_look. rewrite (quiet_registry _ _ _ Hq), Hid. apply eventually_now. split; [by eexists|done].
Qed.

(** C8. Two threads that unpark each other, or one that unparks itself, can
    come to wait for ever, each with its own key and for that of the other. *)
Theorem unparking_deadlocks t u idt idu p ks v : at_work t v -> at_work u v -> ks !! t = None -> ks !! u = None ->
  ThreadRegistry.getCurrentThreadState idt v.(world).(registry) = Some t ->
  ThreadRegistry.getCurrentThreadState idu v.(world).(registry) = Some u ->
  p !! t = Some (Runs (onUnpark managerId gsf minimizeTimeslotOnNw (Some t) idu)) ->
  p !! u = Some (Runs (onUnpark managerId gsf minimizeTimeslotOnNw (Some u) idt)) ->
  exists c, rtc steps (mkConfig p ks v) c /\ forall c', rtc steps c c' ->
    exists k k', c'.(pool) !! t = Some (Runs (Lock u k)) /\ c'.(pool) !! u = Some (Runs (Lock t k')).
Proof.
  intros Ht Hu Hkt Hku Hidt Hidu Hpt Hpu.
  destruct (eventually_steps t _ _ ks v p (unpark_needs_key t u idu ks v Ht Hkt Hidu) Hpt)
    as (x1 & ks1 & v1 & Hr1 & [k1 ->] & -> & Hq1).
  assert (exists k2 c, rtc steps (mkConfig p ks v) c /\ c.(pool) !! t = Some (Runs (Lock u k1)) /\
    c.(pool) !! u = Some (Runs (Lock t k2)) /\ c.(keys) !! t = Some t /\ c.(keys) !! u = Some u) as (k2 & c & Hr & Hct & Hcu & Hkct & Hkcu).
  { destruct (decide (u = t)) as [->|Hne].
    - eexists _, _. split; [exact Hr1|]. cbn. by rewrite !lookup_insert_eq.
    - assert (at_work u v1) as Hu1 by (unfold at_work; by rewrite (quiet_others _ _ _ Hq1)).
      destruct (eventually_steps u _ _ (<[t:=t]> ks) v1 (<[t := Runs (Lock u k1)]> p)
        (unpark_needs_key u t idt (<[t:=t]> ks) v1 Hu1 ltac:(by rewrite lookup_insert_ne)
          ltac:(by rewrite (quiet_registry _ _ _ Hq1)))) as (x2 & ks2 & v2 & Hr2 & [k2 ->] & -> & _); [by rewrite lookup_insert_ne|].
      exists k2. eexists. split; [by etransitivity|]. cbn. rewrite !lookup_insert_eq.
      rewrite !(lookup_insert_ne _ u t), !lookup_insert_eq by done. done. }
  exists c. split; [done|]. intros c' Hr'. exists k1, k2.
  assert (deadlocked (fun x => x = t \/ x = u) c) as Hd.
  { intros x [->| ->]; [exists u, k1, u|exists t, k2, t]; auto 10. }
  rewrite !(deadlocked_steps _ _ _ Hr' Hd); auto.
Qed.

End faults.

(** ** Witnesses: two threads that run *)
#[local] Existing Instances Controllers.SingleVirtualTimelineController Controllers.single_total.

Definition running (threadId : Z) : thread :=
  setThreadCurrentlyControllingManager (Some 0%nat) (setRunning (new_VexThreadState 0 threadId)).

Definition two_running : Vex VirtualTimeline.VirtualTimeline.VirtualTimeline LockRegistry.registry :=
  mkVex (new_ThreadManager {[ 1%nat := running 1; 2%nat := running 2 ]} []
    (ThreadRegistry.set_index [(1, 1%nat); (2, 2%nat)] (ThreadRegistry.new_ThreadRegistry 2 false)) ∅
    (VirtualTimeline.VirtualTimeline.mkTimeline 0 0) false 0 None) ∅.

Lemma two_at_work t : t = 1%nat \/ t = 2%nat -> at_work t two_running.
Proof. intros [->| ->]; (split; [reflexivity|by exists 0%nat]). Qed.

Lemma park_releases_key_twice_witness :
  eventually (resume 0 f32_one) awake 1 (fun x ks' v' => forall now, turn (resume 0 f32_one) awake now 1 x ks' v' = Err NotOwner)
    (Runs (onPark 0 f32_one false 5 1 0)) ∅ two_running.
Proof. apply (park_releases_key_twice 0 f32_one false 5 1 0 ∅ two_running); [apply two_at_work; auto|done..]. Defined.

Lemma unparking_deadlocks_witness :
  let p := {[ 1%nat := Runs (onUnpark 0 f32_one false (Some 1%nat) 2); 2%nat := Runs (onUnpark 0 f32_one false (Some 2%nat) 1) ]} in
  let steps := @steps _ (resume 0 f32_one) awake (fun _ _ _ => False) (fun _ _ => False) unit in
  exists c, rtc steps (mkConfig p ∅ two_running) c /\ forall c', rtc steps c c' ->
    exists k k', c'.(pool) !! 1%nat = Some (Runs (Lock 2 k)) /\ c'.(pool) !! 2%nat = Some (Runs (Lock 1 k')).
Proof.
  apply (unparking_deadlocks 0 f32_one false _ _ 1 2 1 2 _ ∅ two_running); [apply two_at_work; auto..|done|done|done|done|done|done].
Defined.

End EventFaults.
