(* ===== verification/Notifications.v ===== *)
(** * Notifications, interrupts and the release of locks

    What becomes of a thread whose wait ends by the hand of another thread
    ([interruptThread] and [onLocklessReleasingLock] of
    src/src/vex/events/ThreadEventsBehaviour.cpp): one that is notified is queued
    at the time of the thread that notifies it and goes on; one that is
    interrupted is queued too, but never goes on and holds up those behind it;
    one to which a lock passes is lost. *)
From stdpp Require Import relations.
From S2P Require Import Prelude Heap AdaptiblePQueue CxxFloat Timers VirtualTimeline Controllers Statistics ThreadParts ThreadState ThreadQueue Registries.
From S2P Require Import ThreadRegistry ThreadManager SchedulingPass Suspension Handlers ThreadHandlers ThreadEvents HandlerLogic.
Import VexThreadState ThreadManager ThreadHandlers ThreadEvents HandlerLogic SchedulingPass.

Module Notifications.
Section notifications.
Context `{HO : StdHeapOps} `{HH : !StdHeap HO} {T L : Type} `{HC : Controllers.VirtualTimelineController T}.
Context `{HT : !Controllers.TotalController T} `{HS : !Controllers.ControllerLaws T} `{HL : LockTable L}.
Variable managerId : nat.
Variable gsf : float.
Variable minimizeTimeslotOnNw : bool.
Variable interactionPointDelay : Z.
Implicit Types (t u : nat) (w : World T).

Abbreviation V := (Vex T L).
Abbreviation returns := (@returns V (resume managerId gsf) awake _).

(** ** The end of a wait *)

(** Whether it queues the thread. *)
Definition queued_by (s : thread) : bool := (getTimeout s =? 0) || (getTimeout s =? -2).

Lemma queued_by_spec s : queued_by s = bool_decide (getTimeout s = 0 \/ getTimeout s = -2).
Proof.
  unfold queued_by. apply Bool.eq_iff_eq_true. rewrite orb_true_iff, !Z.eqb_eq, bool_decide_eq_true. done.
Qed.

(** The thread is suspended and asleep. *)
Record ended (s s' : thread) : Prop := {
  ended_suspended : isSuspended s' = true;
  ended_asleep : wasAwaken s' = false;
  ended_timedOut : s'.(timedOut) = false;
  ended_timeout : getTimeout s' = if getTimeout s <? 0 then 0 else getTimeout s;
  ended_manager : getThreadCurrentlyControllingManager s' = getThreadCurrentlyControllingManager s;
}.

Lemma interrupt_state s : ended s (beforeThreadInterruptAt s) /\
  getEstimatedRealTime (beforeThreadInterruptAt s) = getEstimatedRealTime s.
Proof.
  unfold beforeThreadInterruptAt.
  set (s1 := if s.(parked) then _ else _).
  assert (getTimeout s1 = getTimeout s /\ getEstimatedRealTime s1 = getEstimatedRealTime s /\
    getThreadCurrentlyControllingManager s1 = getThreadCurrentlyControllingManager s) as (Ht & He & Hm)
    by (subst s1; by repeat case_match).
  rewrite Ht. destruct (getTimeout s <? 0) eqn:E; (split; [split|]); try done; cbn; rewrite ?E; done.
Qed.

Lemma pushed t w : t ∉ w.(queue) -> exists q, pushIntoRunnableQueue t w = Ok (set_queue q w) /\ q ≡ₚ t :: w.(queue) /\
  (ordered w -> ordered (set_queue q w)).
Proof.
  intros Hn. destruct (Suspension.push_total t w Hn) as [w' Hp]. pose proof Hp as Hp'.
  unfold pushIntoRunnableQueue in Hp'. apply bind_ok in Hp' as (q & Hq & [= <-]). exists q. split; [done|]. split.
  - unfold ThreadQueue.push, guard_assert in Hq. repeat case_match; try done. injection Hq as <-.
    apply (AdaptiblePQueue.push_perm (ert w.(threads))).
  - intros Hw. by destruct (push_ordered t w (set_queue q w)) as [? _].
Qed.

Lemma interrupt_ends at_ u w : (queued_by (thread_of u w) = true -> u ∉ w.(queue)) -> exists w', onAnyReplacedWaitingInterrupt at_ u w = Ok w' /\
  w'.(queue) ≡ₚ (if queued_by (thread_of u w) then u :: w.(queue) else w.(queue)) /\
  (forall x, x <> u -> thread_of x w' = thread_of x w) /\
  w'.(runningThread) = w.(runningThread) /\ w'.(registry) = w.(registry) /\
  ended (thread_of u w) (thread_of u w') /\ (at_ <> 0 -> getEstimatedRealTime (thread_of u w') = at_) /\
  (ordered w -> ordered w').
Proof.
  intros Hn. unfold onAnyReplacedWaitingInterrupt.
  destruct (Controllers.updateInterrupted_total at_ (thread_of u w).(timers) w.(timeline)) as [[tm tl] E].
  unfold with_timeline at 1. rewrite E. cbn [mbind res_bind].
  set (w1 := set_timeline tl (upd u (set_timers tm) w)).
  assert (thread_of u w1 = set_timers tm (thread_of u w)) as Hu1 by (unfold w1; apply thread_of_upd).
  assert (getTimeout (thread_of u w1) = getTimeout (thread_of u w)) as Htm
    by (rewrite Hu1; by eapply Controllers.updateInterrupted_timeout).
  assert (at_ <> 0 -> getEstimatedRealTime (thread_of u w1) = at_) as Hat.
  { intros Ha. rewrite Hu1. unfold getEstimatedRealTime. cbn. by rewrite (Controllers.updateInterrupted_time _ _ _ _ _ Ha E). }
  set (w2 := upd u beforeThreadInterruptAt (eraseWaitingObject u w1)).
  assert (only u w w2) as Ho.
  { apply only_then_upd. apply (only_trans _ _ w1).
    - eapply only_trans; [apply only_upd|by apply only_same].
    - apply only_same; unfold eraseWaitingObject; by repeat case_match. }
  assert (thread_of u w2 = beforeThreadInterruptAt (thread_of u w1)) as Hu2.
  { unfold w2. rewrite thread_of_upd. f_equal. unfold eraseWaitingObject, thread_of. by repeat case_match. }
  assert (w2.(runningThread) = w.(runningThread) /\ w2.(registry) = w.(registry)) as [Hr2 Hg2]
    by (unfold w2, eraseWaitingObject; by repeat case_match).
  destruct (interrupt_state (thread_of u w1)) as [He Ht]. rewrite <- Hu2 in He, Ht.
  assert (ended (thread_of u w) (thread_of u w2)) as He2.
  { destruct He as [? ? ? Hto Hma]. split; [done..|by rewrite Hto, Htm|rewrite Hma, Hu1; done]. }
  rewrite Htm. fold w2. unfold queued_by in Hn |- *. rewrite <- negb_orb.
  destruct (_ || _); cbn [negb].
  - specialize (Hn eq_refl). destruct (pushed u w2) as (q & Hp & Hq & Hw); [by rewrite (proj1 Ho)|]. exists (set_queue q w2). split; [done|].
    split_and!; [by cbn; rewrite Hq, (proj1 Ho)|apply Ho|done|done|done|rewrite <- Ht in Hat; exact Hat|].
    intros Hw0. apply Hw. by eapply only_ordered.
  - exists (updateRunnableQueue w2). split; [done|].
    assert (queue (updateRunnableQueue w2) ≡ₚ w.(queue)) as Hq
      by (etransitivity; [apply (AdaptiblePQueue.update_perm (ert w2.(threads)))|by rewrite (proj1 Ho)]).
    split_and!; [done|apply Ho|done|done|done|rewrite <- Ht in Hat; exact Hat|].
    intros Hw0. unfold ordered. cbn [queue threads set_queue updateRunnableQueue]. apply ThreadQueue.wf_update.
    rewrite (proj1 Ho). apply Hw0.
Qed.

(** What [interruptThread] does to a thread that waits; the time of the
    interrupt is [at_], and [t] calls it. *)
Record woken (isThreadInterruptCall : bool) (at_ : Z) (t u : nat) (v v' : V) : Prop := {
  woken_queue : v'.(world).(queue) ≡ₚ
    if queued_by (thread_of u v.(world)) then u :: v.(world).(queue) else v.(world).(queue);
  woken_others : forall x, x <> t -> x <> u -> thread_of x v'.(world) = thread_of x v.(world);
  woken_running : v'.(world).(runningThread) = v.(world).(runningThread);
  woken_suspended : isSuspended (thread_of u v'.(world)) = true;
  woken_asleep : wasAwaken (thread_of u v'.(world)) = false;
  woken_timedOut : (thread_of u v'.(world)).(timedOut) = negb isThreadInterruptCall;
  woken_timeout : getTimeout (thread_of u v'.(world)) =
    if getTimeout (thread_of u v.(world)) <? 0 then 0 else getTimeout (thread_of u v.(world));
  woken_time : at_ <> 0 -> getEstimatedRealTime (thread_of u v'.(world)) = at_;
  woken_ordered : ordered v.(world) -> ordered v'.(world);
}.

Lemma returns_interruptThread t u m at_ call ks v : isWaiting (thread_of u v.(world)) = true ->
  (queued_by (thread_of u v.(world)) = true -> u ∉ v.(world).(queue)) ->
  returns t (interruptThread (Some u) (Some m) at_ call) ks v (fun b ks' v' => b = true /\ ks' = ks /\
    woken call at_ t u v v' /\ (t <> u -> thread_of t v'.(world) = thread_of t v.(world))).
Proof.
  intros Hw Hn. unfold interruptThread. apply eventually_look. rewrite Hw. apply eventually_ret.
  apply eventually_act. intros _. destruct (interrupt_ends at_ u v.(world) Hn) as (w' & -> & Hq & Ho & Hr & _ & He & Ht & Hwf).
  exists w'. split; [done|]. apply eventually_act_thread. intros _. apply returns_ret. split; [done|]. split; [done|].
  destruct He as [H1 H2 H3 H4 H5]. split; [split; cbn; rewrite ?thread_of_upd; try done|].
  - intros x _ Hx. rewrite thread_of_upd_ne by done. auto.
  - intros Hv. apply ordered_upd; auto.
  - intros Hx. cbn. rewrite thread_of_upd_ne by done. auto.
Qed.

Lemma quiet_ordered t (v v' : V) : quiet t v v' -> t ∉ v.(world).(queue) -> ordered v.(world) -> ordered v'.(world).
Proof.
  intros Hq Hn Hw. unfold ordered. rewrite (quiet_queue _ _ _ Hq). eapply ThreadQueue.wf_ext; [|exact Hw].
  intros x Hx. unfold ert. pose proof (quiet_others _ _ _ Hq x) as He. unfold thread_of in He. rewrite He; [done|]. by intros ->.
Qed.

(** Accounting of the caller before and after. *)
Lemma woken_quiet call at_ t u v v1 v2 v3 : t <> u -> t ∉ v.(world).(queue) -> quiet t v v1 -> woken call at_ t u v1 v2 ->
  quiet t v2 v3 -> woken call at_ t u v v3.
Proof.
  intros Hne Hn Hq1 [H1 H2 H3 H4 H5 H6 H7 H8 H9] Hq3.
  assert (thread_of u v1.(world) = thread_of u v.(world)) as E1 by (by apply (quiet_others _ _ _ Hq1)).
  assert (thread_of u v3.(world) = thread_of u v2.(world)) as E3 by (by apply (quiet_others _ _ _ Hq3)).
  rewrite E1, (quiet_queue _ _ _ Hq1) in H1. rewrite E1 in H7.
  split; rewrite ?E3; try done.
  - by rewrite (quiet_queue _ _ _ Hq3).
  - intros x Hx Hxu. by rewrite (quiet_others _ _ _ Hq3), H2, (quiet_others _ _ _ Hq1).
  - by rewrite (quiet_running _ _ _ Hq3), H3, (quiet_running _ _ _ Hq1).
  - intros Hw. apply (quiet_ordered _ _ _ Hq3).
    + rewrite H1. destruct (queued_by _); set_solver.
    + by apply H9, (quiet_ordered _ _ _ Hq1).
Qed.

(** [t] notifies or interrupts [u] at its own time. *)
Lemma returns_own_interrupt t u f call ks v : at_work t v -> ks !! t = None -> t ∉ v.(world).(queue) ->
  isWaiting (thread_of u v.(world)) = true -> (queued_by (thread_of u v.(world)) = true -> u ∉ v.(world).(queue)) ->
  (forall m at_ ks' v' R, quiet t v v' -> returns t (interruptThread (Some u) (Some m) at_ call) ks' v' R ->
     returns t (f (Some m) at_) ks' v' R) ->
  returns t (atOwnTime managerId gsf minimizeTimeslotOnNw interactionPointDelay (Some t) f) ks v
    (fun b ks' v' => b = true /\ ks' = ks /\ woken call (getEstimatedRealTime (thread_of t v'.(world))) t u v v').
Proof.
  intros Hw Hk Hnt Hu Hn Hf. assert (t <> u) as Hne.
  { intros ->. destruct Hw as [Hr _]. unfold isRunning, isWaiting, in_state in *. apply bool_decide_eq_true in Hu. by rewrite Hu in Hr. }
  apply eventually_clock. intros startingTime. eapply eventually_bind; [by apply returns_entry_at|].
  intros m ks1 v1 ([-> Hm] & -> & Hq). destruct (controlling t v.(world)) as [m|] eqn:E; [|done].
  apply eventually_look. eapply eventually_bind.
  { apply Hf; [done|]. apply returns_interruptThread; [by rewrite (quiet_others _ _ _ Hq)|by rewrite (quiet_others _ _ _ Hq), (quiet_queue _ _ _ Hq)]. }
  intros b ks2 v2 (-> & -> & Hwk & Ht2). eapply eventually_bind; [apply returns_exit_cpu, lookup_insert_eq|].
  intros [] ks3 v3 ((_ & -> & Hq3) & Ht3). apply returns_ret. split; [done|]. split; [by apply delete_insert_id|].
  rewrite Ht3, Ht2 by done. by eapply woken_quiet.
Qed.

(** C4. A thread that notifies an object wakes the thread that registered
    last for it, or for another object with the same low 32 bits of identifier,
    whatever timeout it waits with: it is suspended at the time of the notifying
    thread, nobody else is touched, and the scheduler resumes it once it comes
    to it.  A thread that waits without a timeout (-2) or whose timeout is over
    (0) is queued; any other stays where it is: in the queue, in its new place,
    when it waits with a timeout, and outside of it when it waits for a lock
    (-1). *)
Theorem notify_wakes_last_waiter t u objectId before id ks v : at_work t v -> ks !! t = None -> t ∉ v.(world).(queue) ->
  ObjectRegistry.waiting v.(world).(objects) objectId = before ++ [id] -> id <> 0 ->
  ThreadRegistry.getCurrentThreadState id v.(world).(registry) = Some u ->
  isWaiting (thread_of u v.(world)) = true ->
  (queued_by (thread_of u v.(world)) = true -> u ∉ v.(world).(queue)) ->
  returns t (onSignallingOnObject managerId gsf minimizeTimeslotOnNw interactionPointDelay (Some t) objectId) ks v
    (fun b ks' v' => b = true /\ ks' = ks /\ woken false (getEstimatedRealTime (thread_of t v'.(world))) t u v v' /\
     v'.(world).(queue) ≡ₚ (if bool_decide (getTimeout (thread_of u v.(world)) = 0 \/ getTimeout (thread_of u v.(world)) = -2)
                            then u :: v.(world).(queue) else v.(world).(queue)) /\
     forall resume_ after_ enter h fuel, dispatch managerId gsf resume_ after_ enter h fuel u v'.(world) = resume_ h u v'.(world)).
Proof.
  intros Hw Hk Hnt Hlast Hid Hreg Hu Hn. apply ObjectRegistry.findNext_last in Hlast. eapply returns_mono.
  - apply (returns_own_interrupt t u _ false); [done..|]. intros m at_ ks' v' R Hq Hi.
    unfold onSignallingOneThreadOnObject. apply eventually_step. intros _. rewrite (quiet_objects _ _ _ Hq).
    assert (set_world (set_objects v.(world).(objects) v'.(world)) v' = v') as ->
      by (rewrite <- (quiet_objects _ _ _ Hq); by destruct v' as [[]]).
    eexists _, _. split; [reflexivity|]. cbn [bind]. rewrite Hlast, (proj2 (Z.eqb_neq _ _) Hid). apply eventually_look.
    by rewrite (quiet_registry _ _ _ Hq), Hreg.
  - intros b ks' v' (-> & -> & Hwk). split; [done|]. split; [done|]. split; [done|].
    split; [by rewrite (woken_queue _ _ _ _ _ _ Hwk), queued_by_spec|].
    intros. unfold dispatch. by rewrite (woken_suspended _ _ _ _ _ _ Hwk), (woken_timedOut _ _ _ _ _ _ Hwk).
Qed.

(** A thread interrupted in an untimed wait is queued like a notified one, but
    when the scheduler comes to it, it only puts it back. *)
Lemma interrupt_only_queues t u threadId ks v : at_work t v -> ks !! t = None -> t ∉ v.(world).(queue) ->
  ThreadRegistry.getCurrentThreadState threadId v.(world).(registry) = Some u ->
  isWaiting (thread_of u v.(world)) = true -> getTimeout (thread_of u v.(world)) = -2 -> u ∉ v.(world).(queue) ->
  returns t (onInterrupt managerId gsf minimizeTimeslotOnNw interactionPointDelay (Some t) threadId) ks v
    (fun b ks' v' => b = true /\ ks' = ks /\ woken true (getEstimatedRealTime (thread_of t v'.(world))) t u v v' /\
     v'.(world).(queue) ≡ₚ u :: v.(world).(queue) /\
     forall resume_ after_ enter h fuel, dispatch managerId gsf resume_ after_ enter h fuel u v'.(world) =
       pushIntoRunnableQueue u v'.(world)).
Proof.
  intros Hw Hk Hnt Hreg Hu Hto Hn. eapply returns_mono.
  - apply (returns_own_interrupt t u _ true); [done..|]. intros m at_ ks' v' R Hq Hi.
    apply eventually_look. by rewrite (quiet_registry _ _ _ Hq), Hreg.
  - intros b ks' v' (-> & -> & Hwk). split; [done|]. split; [done|]. split; [done|].
    pose proof (woken_queue _ _ _ _ _ _ Hwk) as Hq. unfold queued_by in Hq. rewrite Hto in Hq. split; [exact Hq|].
    intros. unfold dispatch. rewrite (woken_suspended _ _ _ _ _ _ Hwk), (woken_timedOut _ _ _ _ _ _ Hwk), (woken_timeout _ _ _ _ _ _ Hwk), Hto.
    done.
Qed.

(** ** Interrupted waits hold up the queue *)
Variable enter : thread -> bool * thread.

Definition pass (w w' : World T) : Prop := exists h fuel, schedulingPass managerId gsf minimizeTimeslotOnNw enter h fuel w = Ok w'.

(** Nobody runs, and [u], interrupted in its wait, comes first. *)
Record starving (u : nat) (w : World T) : Prop := {
  starving_ordered : ordered w;
  starving_idle : w.(runningThread) = None;
  starving_queued : u ∈ w.(queue);
  starving_first : forall x, x ∈ w.(queue) -> x <> u -> ert w.(threads) u < ert w.(threads) x;
  starving_suspended : isSuspended (thread_of u w) = true;
  starving_timedOut : (thread_of u w).(timedOut) = false;
  starving_timeout : getTimeout (thread_of u w) = 0;
}.

Lemma starving_pass h fuel u w : starving u w -> exists w',
  schedulingPass managerId gsf minimizeTimeslotOnNw enter h fuel w = Ok w' /\ starving u w' /\
  forall x, wasAwaken (thread_of x w') = wasAwaken (thread_of x w).
Proof.
  intros [Hw Hr Hin Hf Hs Ht Hz]. unfold schedulingPass, suspendRunningResumeNext. rewrite Hr. cbn [mbind res_bind].
  assert (ThreadQueue.top w.(queue) = Some u) as Htop.
  { destruct (ThreadQueue.top w.(queue)) as [x|] eqn:E; [|destruct w.(queue); [set_solver|done]].
    destruct (ThreadQueue.top_least _ _ _ Hw E) as [Hx Hl]. destruct (decide (x = u)) as [->|Hne]; [done|].
    specialize (Hl u Hin). specialize (Hf x Hx Hne). lia. }
  rewrite Htop, (continue_front _ _ _ _ _ 1) by done. unfold handleFront.
  assert (thread_of u (lockKey u w) = upd_sched Scheduling.lockShareResourceAccessKey (thread_of u w)) as Hu
    by apply thread_of_upd.
  destruct w.(queue) as [|u' q] eqn:Eq; [done|]. injection Htop as ->.
  assert (ordered (lockKey u w)) as Hw1 by (by apply ordered_upd). unfold ordered in Hw1.
  change (queue (lockKey u w)) with (queue w) in *. rewrite Eq in Hw1 |- *.
  destruct (ThreadQueue.wf_pop _ _ _ Hw1) as (Hw2 & Hp & Hn).
  unfold ThreadQueue.next_at_top. fold (thread_of u (lockKey u w)).
  assert (currentState (thread_of u (lockKey u w)) = SUSPENDED) as Hst
    by (rewrite Hu; unfold isSuspended, in_state in Hs; apply bool_decide_eq_true in Hs; exact Hs).
  unfold isRunning, inIoPredictionPhase, isWaitingRealCodeToCompleteAfterModelSimulation, in_state. rewrite Hst.
  rewrite !bool_decide_eq_false_2 by done. cbn [orb].
  set (w2 := set_queue _ (lockKey u w)).
  assert (forall x, wasAwaken (thread_of x w2) = wasAwaken (thread_of x w) /\ ert w2.(threads) x = ert w.(threads) x) as Hx.
  { intros x. unfold w2, lockKey, upd, thread_of. cbn. rewrite ert_update_thread, lookup_update_thread. by case_decide; subst. }
  assert (dispatch managerId gsf (resumeThread managerId) afterModelSimulation enter h fuel u w2 = pushIntoRunnableQueue u w2) as ->.
  { unfold dispatch, isSuspended, in_state. change (thread_of u w2) with (thread_of u (lockKey u w)).
    assert ((thread_of u (lockKey u w)).(timedOut) = false /\ getTimeout (thread_of u (lockKey u w)) = 0) as [-> ->] by (by rewrite Hu).
    by rewrite Hst, bool_decide_eq_true_2 by done. }
  assert (u ∉ w2.(queue)) as Hn2 by (cbn; by rewrite Hp).
  destruct (pushed u w2 Hn2) as (q' & -> & Hq' & Hw'). exists (set_queue q' w2). split; [done|]. split; [|intros x; apply Hx].
  change (queue w2) with (AdaptiblePQueue.pop (ert (threads (lockKey u w))) (u :: q)) in Hq'. rewrite Hp in Hq'.
  split; try done; [by apply Hw'| | | | |]; cbn.
  - rewrite Hq'. by left.
  - intros x Hin' Hne. change (ert w2.(threads) u < ert w2.(threads) x). rewrite !(proj2 (Hx _)). apply Hf; [|done]. by rewrite <- Hq'.
  - change (thread_of u (set_queue q' w2)) with (thread_of u (lockKey u w)). by rewrite Hu.
  - change (thread_of u (set_queue q' w2)) with (thread_of u (lockKey u w)). by rewrite Hu.
  - change (thread_of u (set_queue q' w2)) with (thread_of u (lockKey u w)). by rewrite Hu.
Qed.

(** C6. A thread that was interrupted in an untimed wait and has the least
    virtual time stops the scheduler: however many passes it makes, it resumes
    nobody, neither that thread nor any other. *)
Theorem interrupted_wait_starves u w w' : starving u w -> rtc pass w w' ->
  starving u w' /\ (forall x, wasAwaken (thread_of x w') = wasAwaken (thread_of x w)) /\
  forall h fuel, exists w2, schedulingPass managerId gsf minimizeTimeslotOnNw enter h fuel w' = Ok w2.
Proof.
  intros Hs Hp. enough (starving u w' /\ forall x, wasAwaken (thread_of x w') = wasAwaken (thread_of x w)) as [Hs' Ha].
  { split; [done|]. split; [done|]. intros h fuel. destruct (starving_pass h fuel u w' Hs') as (w2 & ? & _). by exists w2. }
  induction Hp as [|w w1 w' (h & fuel & E) _ IH]; [done|]. destruct (starving_pass h fuel u w Hs) as (w2 & E2 & Hs2 & Ha).
  rewrite E in E2. injection E2 as <-. destruct (IH Hs2) as [? Ha']. split; [done|]. intros x. by rewrite Ha', Ha.
Qed.

(** ** A lock that passes to a thread that waits for it *)

(** Off the core, not in the queue and asleep. *)
Record lost (u : nat) (w : World T) : Prop := {
  lost_core : w.(runningThread) <> Some u;
  lost_queue : u ∉ w.(queue);
  lost_asleep : wasAwaken (thread_of u w) = false;
}.

Lemma lost_pass u w w' : pass w w' -> ordered w -> off_queue w -> lost u w -> lost u w' /\ ordered w' /\ off_queue w'.
Proof.
  intros (h & fuel & Hp) Hw Ho [Hr Hq Ha]. destruct (pass_leaves_alone _ _ _ _ _ _ u _ _ Hw Ho Hp Hr Hq) as (Hq'&Ht&Hk).
  split; [split; [by intros ?%Hk|by rewrite Hq'|by rewrite Ht]|]. by eapply pass_invariant.
Qed.

Lemma returns_releasing t u m lockId l ks (v : V) : controlling t v.(world) = Some m -> ks !! u = None -> u <> t ->
  releaseAndGetNext lockId v.(locks) = Ok (Some u, l) -> getTimeout (thread_of u v.(world)) = -1 -> u ∉ v.(world).(queue) ->
  ordered v.(world) ->
  returns t (onLocklessReleasingLock t lockId) ks v (fun _ ks' v' => ks' = ks /\ v'.(locks) = l /\
    v'.(world).(queue) ≡ₚ v.(world).(queue) /\ v'.(world).(runningThread) = v.(world).(runningThread) /\
    wasAwaken (thread_of u v'.(world)) = false /\ ordered v'.(world)).
Proof.
  intros Hm Hku Hne Hl Hto Hn Ho. apply eventually_step. intros _. rewrite Hl. cbn [mbind res_bind].
  eexists _, _. split; [reflexivity|]. cbn [bind]. apply eventually_look. apply eventually_locking; [done|].
  apply eventually_act_thread. intros _. set (w1 := upd t (setTimeout 0) v.(world)). apply eventually_look.
  cbn [world set_world set_locks]. rewrite Hm. apply eventually_ret, eventually_act. intros _. cbn [world set_world set_locks locks].
  fold w1. destruct (interrupt_ends (getEstimatedRealTime (thread_of t w1)) u w1) as (w' & -> & Hq & _ & Hr & _ & He & _ & Hw'); [done|].
  exists w'. split; [done|]. rewrite <- (bind_ret (unlock u)). apply eventually_unlocking; [apply lookup_insert_eq|].
  rewrite delete_insert_id by done. apply returns_ret.
  unfold queued_by in Hq. unfold w1 in Hq at 1 2. rewrite thread_of_upd_ne, Hto in Hq by done.
  split_and!; [done|done|exact Hq|exact Hr|apply He|]. apply Hw'. by apply ordered_upd.
Qed.

(** C5. A thread that releases a lock hands it over to one that waits for it
    and has no timeout, but that one is lost: neither on the core nor in the
    queue, it sleeps through however many passes the scheduler makes. *)
Theorem contended_lock_lost_wakeup t u lockId l ks v : at_work t v -> ks !! t = None -> ks !! u = None -> u <> t ->
  releaseAndGetNext lockId v.(locks) = Ok (Some u, l) -> getTimeout (thread_of u v.(world)) = -1 ->
  ordered v.(world) -> off_queue v.(world) -> v.(world).(runningThread) = Some t -> u ∉ v.(world).(queue) ->
  returns t (onReleasingLock managerId gsf minimizeTimeslotOnNw t lockId) ks v (fun _ ks' v' => ks' = ks /\ v'.(locks) = l /\
    forall w, rtc pass v'.(world) w -> lost u w).
Proof.
  intros Hw Hk Hku Hne Hl Hto Ho Hoff Hr Hn. eapply eventually_bind; [by apply returns_entry|].
  intros [] ks1 v1 (_ & -> & Hq). destruct (quiet_at_work _ _ _ Hq Hw) as [_ [m Hm]].
  assert (t ∉ v.(world).(queue)) as Hnt by by apply Hoff.
  eapply eventually_bind.
  { apply (returns_releasing t u m lockId l); [done|by rewrite lookup_insert_ne|done|by rewrite (quiet_locks _ _ _ Hq)|
      by rewrite (quiet_others _ _ _ Hq)|by rewrite (quiet_queue _ _ _ Hq)|by eapply quiet_ordered]. }
  intros [] ks2 v2 (-> & Hl2 & Hq2 & Hr2 & Ha2 & Ho2). rewrite (quiet_queue _ _ _ Hq) in Hq2. rewrite (quiet_running _ _ _ Hq) in Hr2.
  eapply returns_mono; [apply returns_exit_cpu, lookup_insert_eq|]. intros _ ks3 v3 ((_ & -> & Hq3) & _).
  split; [by apply delete_insert_id|]. split; [by rewrite (quiet_locks _ _ _ Hq3)|].
  assert (lost u v3.(world) /\ ordered v3.(world) /\ off_queue v3.(world)) as (Hlost & Ho3 & Hoff3).
  { split; [split|split].
    - rewrite (quiet_running _ _ _ Hq3), Hr2, Hr. congruence.
    - by rewrite (quiet_queue _ _ _ Hq3), Hq2.
    - by rewrite (quiet_others _ _ _ Hq3).
    - eapply quiet_ordered; [exact Hq3|by rewrite Hq2|done].
    - intros x. rewrite (quiet_running _ _ _ Hq3), Hr2, (quiet_queue _ _ _ Hq3), Hq2. apply Hoff. }
  clear -Hlost Ho3 Hoff3 HS HH. intros w Hp. induction Hp as [|w w1 w2 Hp _ IH]; [done|].
  destruct (lost_pass u w w1) as (? & ? & ?); auto.
Qed.

End notifications.

(** ** Witnesses: a thread that runs, and one that waits *)
#[local] Existing Instances Controllers.SingleVirtualTimelineController Controllers.single_total Controllers.single_laws.

Definition runner : thread :=
  setThreadCurrentlyControllingManager (Some 0%nat) (setRunning (upd_timers (Timers.setEstimatedRealTime 50) (new_VexThreadState 0 1))).
Definition sleeper (timeout : Z) : thread := setTimeout timeout (setWaiting (new_VexThreadState 0 2)).

Definition one_waits (timeout : Z) (l : LockRegistry.registry) : Vex VirtualTimeline.VirtualTimeline.VirtualTimeline LockRegistry.registry :=
  mkVex (set_runningThread (Some 1%nat) (new_ThreadManager {[ 1%nat := runner; 2%nat := sleeper timeout ]} []
    (ThreadRegistry.set_index [(1, 1%nat); (2, 2%nat)] (ThreadRegistry.new_ThreadRegistry 2 false))
    {[ 7 := ObjectRegistry.mkInfo [2] true ]} (VirtualTimeline.VirtualTimeline.mkTimeline 0 0) false 0 None)) l.

Lemma one_works timeout l : at_work 1 (one_waits timeout l).
Proof. split; [reflexivity|by exists 0%nat]. Qed.

Lemma empty_ordered {T} (w : World T) : w.(queue) = [] -> ordered w.
Proof. intros E. unfold ordered. rewrite E. split; [|apply NoDup_nil_2]. intros i Hi. cbn in Hi. lia. Qed.

Lemma notify_wakes_last_waiter_witness :
  returns (resume 0 f32_one) awake 1 (onSignallingOnObject 0 f32_one false 5 (Some 1%nat) 7) ∅ (one_waits (-2) ∅)
    (fun b _ v' => b = true /\ v'.(world).(queue) ≡ₚ [2%nat]).
Proof.
  eapply returns_mono.
  - apply (notify_wakes_last_waiter 0 f32_one false 5 1 2 7 [] 2 ∅ (one_waits (-2) ∅)); try done; [apply one_works|apply not_elem_of_nil|intros _; apply not_elem_of_nil].
  - intros b ks' v' (-> & _ & _ & Hq & _). by split.
Defined.

Lemma interrupted_wait_starves_witness :
  let w := new_ThreadManager {[ 2%nat := setTimedOut false (setTimeout 0 (VexThreadState.setSuspended (new_VexThreadState 0 2))) ]}
    [2%nat] (ThreadRegistry.new_ThreadRegistry 2 false) ∅ (VirtualTimeline.VirtualTimeline.mkTimeline 0 0) false 0 None in
  starving 2 w /\ forall w', rtc (pass 0 f32_one false no_node) w w' -> wasAwaken (thread_of 2 w') = false.
Proof.
  intros w. assert (starving 2 w) as Hs.
  { split; try reflexivity; cbn.
    - split; [|apply NoDup_singleton]. intros i Hi. cbn in Hi. lia.
    - by left.
    - intros x ->%list_elem_of_singleton. done. }
  split; [done|]. intros w' Hp. rewrite (proj1 (proj2 (interrupted_wait_starves 0 f32_one false no_node 2 w w' Hs Hp))). reflexivity.
Defined.

Lemma contended_lock_lost_wakeup_witness :
  let v := one_waits (-1) {[ 3 := LockRegistry.mkInfo [2%nat] true ]} in
  returns (resume 0 f32_one) awake 1 (onReleasingLock 0 f32_one false 1 3) ∅ v
    (fun _ _ v' => forall w, rtc (pass 0 f32_one false no_node) v'.(world) w -> lost 2 w).
Proof.
  intros v. eapply returns_mono.
  - apply (contended_lock_lost_wakeup 0 f32_one false no_node 1 2 3 {[ 3 := LockRegistry.mkInfo [] true ]} ∅ v); try done;
      [apply one_works|by apply empty_ordered|intros t _; apply not_elem_of_nil|apply not_elem_of_nil].
  - by intros ??? (_ & _ & ?).
Defined.

End Notifications.
