(* ===== verification/Joining.v ===== *)
(** * Joining a thread

    The loop of [ThreadEventsBehaviour::onJoin]
    (src/src/vex/events/ThreadEventsBehaviour.cpp) with
    [ThreadRegistry::coordinateJoiningThreads]: it never spins, however often
    the thread falls asleep in it. *)
From S2P Require Import Prelude Heap AdaptiblePQueue CxxFloat Timers VirtualTimeline Controllers Statistics ThreadParts ThreadState ThreadQueue Registries.
From S2P Require Import ThreadRegistry ThreadManager Suspension Handlers ThreadHandlers ThreadEvents HandlerLogic.
Import VexThreadState ThreadManager ThreadHandlers ThreadEvents HandlerLogic.

Module Joining.
Section join.
Context `{HO : StdHeapOps} `{HH : !StdHeap HO} {T L : Type} `{HC : Controllers.VirtualTimelineController T}.
Context `{HT : !Controllers.TotalController T} `{HL : LockTable L}.
Variable managerId : nat.
Variable gsf : float.
Variable minimizeTimeslotOnNw : bool.
Implicit Type t : nat.

Abbreviation V := (Vex T L).
Abbreviation eventually := (@eventually V (resume managerId gsf) awake _).

(** Charging a thread for its time changes its timers and the timeline only. *)
Lemma charged startingTime t (w : World T) : exists w', setCurrentThreadVT gsf startingTime t w = Ok w' /\
  w'.(queue) = w.(queue) /\ w'.(registry) = w.(registry) /\ w'.(runningThread) = w.(runningThread) /\
  (forall u, u <> t -> thread_of u w' = thread_of u w) /\
  exists tm, thread_of t w' = set_timers tm (thread_of t w).
Proof.
  assert (forall s, s = set_timers s.(timers) s) as Hid by by intros [].
  destruct (Suspension.setVT_total gsf startingTime t w) as [w' E]. exists w'. split; [exact E|].
  unfold setCurrentThreadVT, locklessUpdateTimeBy, with_timeline in E.
  case_match; [|injection E as <-; split_and!; [done..|by eexists]].
  set (w1 := upd t _ w) in E.
  assert ((if isNativeWaiting (thread_of t w1) then '(tm, tl) ← Controllers.commitNativeWaitingProgress (thread_of t w1).(timers) w1.(timeline);
      Ok (set_timeline tl (upd t (set_timers tm) w1))
    else '(tm, tl) ← Controllers.commitCpuTimeProgress (thread_of t w1).(timers) w1.(timeline);
      Ok (set_timeline tl (upd t (set_timers tm) w1))) = Ok w') as E' by exact E.
  assert (exists tm tl, w' = set_timeline tl (upd t (set_timers tm) w1)) as (tm & tl & ->).
  { case_match; apply bind_ok in E' as ([tm tl] & _ & [= <-]); by exists tm, tl. }
  split_and!; [done..| |].
  - intros u Hu. unfold w1, thread_of, upd. cbn. by rewrite !lookup_update_thread, !decide_False.
  - exists tm. unfold w1, thread_of, upd. cbn. by rewrite !lookup_update_thread, !decide_True.
Qed.

(** The thread that asked is marked as awakening when the other one has ended
    or is not known, and is otherwise on record, so that the end of the other
    one, once it comes, marks it. *)
Definition joined (t : nat) (joiningThreadId : Z) (w : World T) : Prop :=
  match ThreadRegistry.getCurrentThreadState joiningThreadId w.(registry) with
  | Some u =>
    if isDead (thread_of u w) then isAwakeningAfterJoin (thread_of t w) = true
    else w.(registry).(ThreadRegistry.waitingToJoin) !! u = Some t /\
      forall th, isAwakeningAfterJoin ((ThreadRegistry.remove u th w.(registry)).1 !!! t) = true
  | None => isAwakeningAfterJoin (thread_of t w) = true
  end.

Lemma coordinates t joiningThreadId th r : (0 <? r.(ThreadRegistry.threadsBeingSpawned)) = false -> exists th' r',
  ThreadRegistry.coordinateJoiningThreads t joiningThreadId th r = (true, th', r') /\
  r'.(ThreadRegistry.threadStateIndex) = r.(ThreadRegistry.threadStateIndex) /\
  (forall u, isDead (th' !!! u) = isDead (th !!! u)) /\
  match ThreadRegistry.find_id joiningThreadId r.(ThreadRegistry.threadStateIndex) with
  | Some u => if isDead (th !!! u) then isAwakeningAfterJoin (th' !!! t) = true
              else r'.(ThreadRegistry.waitingToJoin) !! u = Some t
  | None => isAwakeningAfterJoin (th' !!! t) = true
  end.
Proof.
  intros Hs. unfold ThreadRegistry.coordinateJoiningThreads. rewrite Hs.
  destruct (ThreadRegistry.find_id _ _) as [u|]; [destruct (isDead (th !!! u))|]; eexists _, _; (split; [reflexivity|]);
    (split; [done|]); (split; [|cbn; rewrite ?lookup_insert_eq, ?lookup_update_thread, ?decide_True; done]); intros u';
    rewrite ?lookup_update_thread; try done; by case_decide; subst.
Qed.

Abbreviation force := (Z.lor SUSPEND_OPT_FORCE_SUSPEND SUSPEND_OPT_DONT_UPDATE_THREAD_TIME).

(** While a thread is being spawned, a forced suspension blocks. *)
Lemma forced_suspension cpuNow realNow startingTime t (w : World T) : t ∉ w.(queue) ->
  ThreadRegistry.atLeastOneThreadBeingSpawned w.(registry) = true ->
  exists w', suspend managerId gsf cpuNow realNow t startingTime force w = Ok (BlockedAt [RunAfterBlock], w') /\ Suspension.stopped t w'.
Proof.
  intros Hn Hs. unfold suspend. remember 1%nat as one. cbn [suspendCurrentThread].
  change (has_option force SUSPEND_OPT_DONT_UPDATE_THREAD_TIME) with true. change (has_option force SUSPEND_OPT_FORCE_SUSPEND) with true.
  cbn [negb andb]. unfold mbind at 1, res_bind at 1. rewrite Hs, orb_true_r. cbv zeta iota beta.
  destruct (Suspension.stop_outcome t force [RunAfterBlock] w) as (w' & Hst & Hstop & _).
  { change (has_option force SUSPEND_OPT_THREAD_ALREADY_IN_LIST) with false.
    destruct (ThreadQueue.find w.(queue) t) eqn:E; [|done]. by apply AdaptiblePQueue.find_spec in E. }
  exists w'. split; [exact Hst|exact Hstop].
Qed.

(** A thread that the scheduler resumed has the core when that is free, and
    goes back to sleep when it is not. *)
Lemma resumed_outcome cpuNow realNow t (w : World T) :
  getThreadCurrentlyControllingManager (thread_of t w) <> None ->
  exists o w', resume_frames managerId gsf cpuNow realNow [RunAfterBlock] t w = Ok (o, w') /\
  match o with
  | Returns => Suspension.core_free_for t w /\ isRunning (thread_of t w') = true /\
      getThreadCurrentlyControllingManager (thread_of t w') = Some managerId /\ w'.(queue) = w.(queue) /\ w'.(registry) = w.(registry)
  | BlockedAt fr => ~ Suspension.core_free_for t w /\ fr = [RunAfterBlock] /\ Suspension.stopped t w'
  end.
Proof.
  intros Hm. cbn [resume_frames run_frame]. rewrite bool_decide_eq_true_2 by done. cbn [guard_assert mbind res_bind].
  unfold setRunningThread. destruct (anotherThreadAlreadySetRunning t w) eqn:Hb.
  - assert (~ Suspension.core_free_for t w) as Hn by (rewrite <- Suspension.not_free_iff; congruence).
    unfold setRunningThread_with, changeThreadStateToRunning.
    change (anotherThreadAlreadySetRunning t (upd t ?f w)) with (anotherThreadAlreadySetRunning t w). rewrite Hb.
    set (w1 := upd t (VexThreadState.setAwaken false) w). fold (Suspension.again (ThreadQueue.find (queue w1) t)).
    destruct (Suspension.again_options (ThreadQueue.find (queue w1) t)) as (Hu & Hq & _).
    rewrite Suspension.suspend_stops by (try exact Hu; by apply Suspension.busy_suspended).
    destruct (Suspension.stop_outcome t (Suspension.again (ThreadQueue.find (queue w1) t)) [RunAfterBlock]
      (Suspension.decideToSuspend realNow t (Suspension.again (ThreadQueue.find (queue w1) t)) w1).2) as (w2 & -> & Hst & _).
    { by rewrite (proj1 (proj2 (Suspension.decide_same _ _ _ _))). }
    eexists _, w2. split; [reflexivity|]. by split.
  - apply Suspension.not_free_iff in Hb as Hf. unfold setRunningThread_with, changeThreadStateToRunning.
    change (anotherThreadAlreadySetRunning t (upd t ?f w)) with (anotherThreadAlreadySetRunning t w). rewrite Hb.
    match goal with |- context [with_timeline ?f t ?w0] => set (w1 := w0) end.
    destruct (Suspension.with_timeline_total Controllers.updateResumingSuspendedThreadTimestamp t w1) as [w2 Hw2];
      [apply Controllers.updateResuming_total|].
    rewrite Hw2. cbn [mbind res_bind]. apply bind_ok in Hw2 as ([tm tl] & _ & [= <-]).
    assert (thread_of t (set_timeline tl (upd t (set_timers tm) w1)) = set_timers tm (thread_of t w1)) as Ht
      by (unfold w1; apply thread_of_upd).
    rewrite Ht. unfold w1. rewrite thread_of_upd. rewrite bool_decide_eq_true_2 by done. cbn [guard_assert mbind res_bind].
    eexists Returns, _. split; [reflexivity|]. split; [exact Hf|].
    match goal with |- context [thread_of t (set_timeline tl (upd t ?f ?w0))] =>
      change (thread_of t (set_timeline tl (upd t f w0))) with (thread_of t (upd t f w0)) end.
    rewrite !thread_of_upd. split_and!; try done. unfold thread_of. cbn. by rewrite lookup_update_thread, decide_True.
Qed.

(** ** The loop *)
Abbreviation handler := (proc V).
Abbreviation ownManager := (getCurrentlyControllingManagerOf managerId gsf minimizeTimeslotOnNw).

(** One pass through the loop. *)
Definition tryToJoin (t : nat) (joiningThreadId startingTime : Z) (_ : unit) : handler (unit + unit) :=
  coordinated ← on_registry (fun th r => Ok (ThreadRegistry.coordinateJoiningThreads t joiningThreadId th r));
  if coordinated : bool then mret (inr tt)
  else suspendCurrent managerId gsf t startingTime force ;; ownManager t ;; mret (inl tt).

Definition join_loop (t : nat) (joiningThreadId startingTime : Z) : handler unit :=
  Loop tt (tryToJoin t joiningThreadId startingTime) Ret ;; onVexExitWithCpuTimeUpdate t.

(** What a thread that fell asleep in the loop does when it goes on: it looks
    for its manager, and then tries again. *)
Definition asleep_in_loop (t : nat) (joiningThreadId : Z) (x : status V unit) : Prop :=
  exists startingTime, x = Sleeps [RunAfterBlock] (ownManager t ;; join_loop t joiningThreadId startingTime).

(** The call starts, or the scheduler resumed the thread that fell asleep in
    it: the thread is awake and has a manager. *)
Inductive join_goes_on (t : nat) (joiningThreadId : Z) (v : V) : status V unit -> Prop :=
| join_starts : at_work t v -> join_goes_on t joiningThreadId v (Runs (onJoin managerId gsf minimizeTimeslotOnNw t joiningThreadId))
| join_resumed x : asleep_in_loop t joiningThreadId x -> awake t v = true -> controlling t v.(world) <> None ->
    join_goes_on t joiningThreadId v x.

(** Why it has to sleep: a thread is being spawned, or it was resumed and
    somebody else got the core before it. *)
Definition must_sleep (t : nat) (x : status V unit) (v : V) : Prop :=
  0 < v.(world).(registry).(ThreadRegistry.threadsBeingSpawned) \/
  (exists fr p, x = Sleeps fr p) /\ ~ Suspension.core_free_for t v.(world).

Definition sleeps_or_joined (t : nat) (joiningThreadId : Z) (sleeps : Prop) (x : status V unit) (w : World T) : Prop :=
  (sleeps /\ asleep_in_loop t joiningThreadId x /\ Suspension.stopped t w) \/
  (~ sleeps /\ x = Runs (Ret tt) /\ joined t joiningThreadId w).

Lemma tries t joiningThreadId startingTime ks v : ks !! t = Some t -> t ∉ v.(world).(queue) ->
  eventually t (fun x ks' v' => ks' = delete t ks /\
      sleeps_or_joined t joiningThreadId (0 < v.(world).(registry).(ThreadRegistry.threadsBeingSpawned)) x v'.(world))
    (Runs (join_loop t joiningThreadId startingTime)) ks v.
Proof.
  intros Hk Hn. apply eventually_loop. cbn [bind]. apply eventually_step. intros _.
  destruct (0 <? ThreadRegistry.threadsBeingSpawned v.(world).(registry)) eqn:Es.
  - unfold ThreadRegistry.coordinateJoiningThreads. rewrite Es. eexists false, _. split; [reflexivity|]. apply eventually_block. intros now. cbn [world set_world].
    match goal with |- context [suspend _ _ _ _ _ _ _ ?w] => destruct (forced_suspension now.(cpu) now.(real) startingTime t w)
      as (w' & -> & Hst) end; [done|by unfold ThreadRegistry.atLeastOneThreadBeingSpawned; cbn; lia|].
    eexists _, _. split; [reflexivity|]. cbn [mbind res_bind].
    apply eventually_now. split; [done|]. left. split; [lia|]. split; [by exists startingTime|done].
  - destruct (coordinates t joiningThreadId v.(world).(threads) v.(world).(registry) Es) as (th & r & -> & Hi & Hd & Hj).
    eexists true, _. split; [reflexivity|].
    eapply eventually_mono; [apply returns_exit_cpu, Hk|]. intros x ks3 v3 ([] & -> & (_ & -> & Hq3) & _).
    split; [done|]. right. split; [lia|]. split; [done|]. unfold joined, ThreadRegistry.getCurrentThreadState.
    rewrite (same_join _ _ (quiet_self _ _ _ Hq3)), (quiet_registry _ _ _ Hq3). cbn. rewrite Hi.
    destruct (ThreadRegistry.find_id _ _) as [u|]; [|exact Hj].
    assert (isDead (thread_of u v3.(world)) = isDead (threads v.(world) !!! u)) as ->.
    { rewrite <- Hd. unfold isDead, in_state. destruct (decide (u = t)) as [->|Hu].
      - by rewrite (same_state _ _ (quiet_self _ _ _ Hq3)).
      - by rewrite (quiet_others _ _ _ Hq3 _ Hu). }
    destruct (isDead _); [exact Hj|]. split; [exact Hj|]. intros th'. unfold ThreadRegistry.remove, ThreadRegistry.notifyParentWaitingToJoin.
    cbn. rewrite Hj. by rewrite lookup_update_thread, decide_True.
Qed.

(** C7. A thread that joins another one never spins.  Whenever it goes on, from
    the beginning of the call or from where it fell asleep in the loop, it comes
    to an end by its own steps: while a thread is being spawned, or when it
    was resumed and the core is taken, it sleeps in the queue at the same place
    of the loop; otherwise the call returns, and then the thread is marked as
    awakening, or it is on record so that the end of the other one marks it,
    as long as nobody else joins that one after it. *)
Theorem join_never_spins t joiningThreadId x ks v : join_goes_on t joiningThreadId v x -> ks !! t = None -> t ∉ v.(world).(queue) ->
  eventually t (fun x' ks' v' => ks' = ks /\ sleeps_or_joined t joiningThreadId (must_sleep t x v) x' v'.(world)) x ks v.
Proof.
  intros Hx Hk Hn. destruct Hx as [Hw|x [st ->] Ha Hm].
  - eapply eventually_bind; [by apply returns_time|]. intros startingTime ks1 v1 (_ & -> & Hq).
    eapply eventually_bind; [apply returns_own_manager; by eapply quiet_at_work|]. intros m ks2 v2 (_ & -> & ->).
    apply eventually_act. intros _. destruct (charged startingTime t v1.(world)) as (w2 & -> & Hq2 & Hg2 & _).
    exists w2. split; [done|]. eapply eventually_mono.
    { apply (tries t joiningThreadId startingTime); [apply lookup_insert_eq|]. cbn. by rewrite Hq2, (quiet_queue _ _ _ Hq). }
    intros x' ks' v' [-> Ho]. rewrite delete_insert_id by done. split; [done|]. cbn in Ho.
    rewrite Hg2, (quiet_registry _ _ _ Hq) in Ho. unfold sleeps_or_joined, must_sleep in *. naive_solver.
  - apply eventually_wake; [done|done|]. intros now.
    destruct (resumed_outcome now.(cpu) now.(real) t v.(world) Hm) as (o & w' & E & Ho). exists o, (set_world w' v).
    split; [unfold resume; by rewrite E|]. destruct o as [|fr].
    + destruct Ho as (Hf & Hr & Hc & Hq & Hg). eapply eventually_bind; [apply returns_own_manager; split; [done|by eexists]|].
      intros m ks2 v2 (_ & -> & ->). eapply eventually_mono.
      { apply (tries t joiningThreadId st); [apply lookup_insert_eq|]. cbn. by rewrite Hq. }
      intros x' ks' v' [-> Hj]. rewrite delete_insert_id by done. split; [done|]. cbn in Hj. rewrite Hg in Hj.
      unfold sleeps_or_joined, must_sleep in *. naive_solver.
    + destruct Ho as (Hf & -> & Hst). apply eventually_now. split; [done|]. left. split; [|split; [by exists st|done]].
      right. split; [by eexists _, _|done].
Qed.

End join.

(** ** Witness: a thread that joins while another one is being spawned *)
#[local] Existing Instances Controllers.SingleVirtualTimelineController Controllers.single_total.

Definition spawning : Vex VirtualTimeline.VirtualTimeline.VirtualTimeline LockRegistry.registry :=
  mkVex (new_ThreadManager
    {[ 1%nat := setThreadCurrentlyControllingManager (Some 0%nat) (setRunning (new_VexThreadState 0 1)) ]} []
    (ThreadRegistry.set_spawned 1 (ThreadRegistry.new_ThreadRegistry 2 false)) ∅
    (VirtualTimeline.VirtualTimeline.mkTimeline 0 0) false 0 None) ∅.

Lemma join_never_spins_witness :
  eventually (resume 0 f32_one) awake 1 (fun x _ v' => asleep_in_loop 0 f32_one false 1 9 x /\ Suspension.stopped 1 v'.(world))
    (Runs (onJoin 0 f32_one false 1 9)) ∅ spawning.
Proof.
  eapply eventually_mono; [apply (join_never_spins 0 f32_one false 1 9 (Runs (onJoin 0 f32_one false 1 9)) ∅ spawning)|].
  - apply join_starts. split; [reflexivity|by exists 0%nat].
  - done.
  - apply not_elem_of_nil.
  - intros x ks v' [_ [(_ & H1 & H2)|(H1 & _)]]; [by split|]. exfalso. apply H1. left. reflexivity.
Defined.

End Joining.
