(* ===== verification/IoPrediction.v ===== *)
(** * Levels of I/O prediction

    Which calls are I/O at all (src/src/vex/io/IoRecognizer), which method of
    prediction an operation is given (IoPredictor) and how the options of the
    command line choose between them (IoParameters).  The methods are those of
    [PredictionMethods], which the predictor keeps in one pool and names by
    their index there.  The log of predictions and the export are left out. *)
From Stdlib Require Import String.
From S2P Require Import Prelude CxxFloat PredictionMethods.

(** ** IoState *)
Module IoState.

Record IoState := mkIoState { threadsInIo : Z; traceHash : Z; ioOperation : Z }.

Definition new_IoState : IoState := mkIoState 0 0 0.
Definition setThreadsInIo (tii : Z) (s : IoState) : IoState := mkIoState (uwrap 32 tii) s.(traceHash) s.(ioOperation).

(** The accessor also brings the count below the number of tables. *)
Definition getThreadsInIO (maxNumberOfThreadsPerformingIoInParallel : Z) (s : IoState) : Z * IoState :=
  let s := if maxNumberOfThreadsPerformingIoInParallel <=? s.(threadsInIo)
           then mkIoState (uint_sub maxNumberOfThreadsPerformingIoInParallel 1) s.(traceHash) s.(ioOperation) else s in
  (s.(threadsInIo), s).

End IoState.

(** ** Methods of prediction

    What a predictor asks of the classes derived from [PredictionMethod], and
    of the factory that makes one for a point. *)
Class PredictionMethod (M : Type) := {
  getPredictionMethod : IoState.IoState -> M;
  getNext : M -> res (Z * M);
  addPredictionInfo : Z -> M -> res M;
}.

(** A method over a cyclic buffer. *)
Definition cyclic_method (past : Z) (k : CyclicBufferBased.kind) (bufferSize : Z) : PredictionMethod CyclicBufferBased.CyclicBufferBased := {|
  getPredictionMethod _ := CyclicBufferBased.new_CyclicBufferBased bufferSize;
  getNext := CyclicBufferBased.getNext past k;
  addPredictionInfo := CyclicBufferBased.addPredictionInfo;
|}.

Definition constant_mean : PredictionMethod ConstantMeanPredictor.ConstantMeanPredictor := {|
  getPredictionMethod _ := ConstantMeanPredictor.new_ConstantMeanPredictor;
  getNext p := Ok (ConstantMeanPredictor.getNext p, p);
  addPredictionInfo d p := Ok (ConstantMeanPredictor.addPredictionInfo d p);
|}.

(** [NoPredictor]. *)
Definition no_predictor : PredictionMethod unit := {|
  getPredictionMethod _ := tt;
  getNext p := Ok (0, p);
  addPredictionInfo _ p := Ok p;
|}.

(** ** IoRecognizer and IoExcluder *)
Inductive IoRecognizer := PremiscuousRecognizer | EmpiricalRecognizer (threshold : Z).

Definition isRecognizedAsIoOperation (r : IoRecognizer) (ioDuration : Z) : bool :=
  match r with
  | PremiscuousRecognizer => true
  | EmpiricalRecognizer threshold => (ioDuration =? 0) || (threshold <? ioDuration)
  end.

Inductive IoExcluder := AcceptingExcluder (acceptancePercentage : float) | AllIoExcluder.

(** A double rounded to a float. *)
Definition f64_to_f32 (x : float) : float :=
  match x with
  | S754_finite s m e => binary_normalize 24 128 (cond_Zopp s (Zpos m)) e s
  | _ => x
  end.

Definition new_IoExcluder (_acceptancePercentage : Z) : IoExcluder :=
  AcceptingExcluder (f64_to_f32 (f64_div (f32_to_f64 (ll_to_f32 _acceptancePercentage)) (ll_to_f64 100))).

Definition RAND_MAX : Z := 2147483647.

(** [rand]: the pseudo-random number drawn. *)
Definition shouldRandomlyExcludeIo (rand : Z) (e : IoExcluder) : bool :=
  match e with
  | AcceptingExcluder acceptancePercentage => f_leb (f32_div (ll_to_f32 rand) (ll_to_f32 RAND_MAX)) acceptancePercentage
  | AllIoExcluder => false
  end.

(** ** IoPredictor *)
Inductive level := NoIoPrediction | GlobalIoPrediction | StateAwareIoPrediction | OperationAwareIoPrediction.

Definition TOTAL_IO_OPERATIONS : Z := 30.

Section predictor.
Context {M : Type} `{HM : PredictionMethod M}.

Record IoPredictor := mkIoPredictor {
  threadsInIo : Z;
  maxNumberOfThreadsPerformingIoInParallel : Z;
  predictionMethods : list M;
  predictionsPerInvocationPoint : list (gmap Z nat);
  invocationPointToMethodId : list (gmap Z Z);
}.

Definition set_threadsInIo (n : Z) (p : IoPredictor) : IoPredictor :=
  mkIoPredictor n p.(maxNumberOfThreadsPerformingIoInParallel) p.(predictionMethods) p.(predictionsPerInvocationPoint)
    p.(invocationPointToMethodId).
Definition set_predictionMethods (ms : list M) (p : IoPredictor) : IoPredictor :=
  mkIoPredictor p.(threadsInIo) p.(maxNumberOfThreadsPerformingIoInParallel) ms p.(predictionsPerInvocationPoint)
    p.(invocationPointToMethodId).

(** No constructor sets the count: [undefined] is what it finds there. *)
Definition new_NoIoPrediction (undefined : Z) : IoPredictor := mkIoPredictor undefined 32 [] [] [].

Definition new_GlobalIoPrediction (undefined : Z) : IoPredictor :=
  mkIoPredictor undefined 32
    (map (fun i => getPredictionMethod (IoState.setThreadsInIo (Z.of_nat i) IoState.new_IoState)) (seq 0 32)) [] [].

Definition new_StateAwareIoPrediction (undefined _maxNumberOfThreadsPerformingIoInParallel : Z) : IoPredictor :=
  let n := Z.to_nat _maxNumberOfThreadsPerformingIoInParallel in
  mkIoPredictor undefined _maxNumberOfThreadsPerformingIoInParallel [] (replicate n ∅) (replicate n ∅).

(** The table of [OperationAwareIoPrediction], row by row. *)
Definition new_OperationAwareIoPrediction (undefined : Z) : IoPredictor :=
  mkIoPredictor undefined 32
    (concat (map (fun j => map (fun i => getPredictionMethod (IoState.mkIoState (Z.of_nat j) 0 (Z.of_nat i)))
                               (seq 0 (Z.to_nat TOTAL_IO_OPERATIONS))) (seq 0 32))) [] [].

Definition increaseThreadsInIo (p : IoPredictor) : IoPredictor := set_threadsInIo (uint_add p.(threadsInIo) 1) p.
Definition decreaseThreadsInIo (p : IoPredictor) : IoPredictor := set_threadsInIo (uint_sub p.(threadsInIo) 1) p.

(** A call of a method of the pool. *)
Definition next_of (pm : nat) (p : IoPredictor) : res (Z * IoPredictor) :=
  match p.(predictionMethods) !! pm with
  | Some m => '(prediction, m) ← getNext m; Ok (prediction, set_predictionMethods (<[pm := m]> p.(predictionMethods)) p)
  | None => Err OutOfBounds
  end.
Definition add_to (pm : nat) (realTimeValueOnExit : Z) (p : IoPredictor) : res IoPredictor :=
  match p.(predictionMethods) !! pm with
  | Some m => m ← addPredictionInfo realTimeValueOnExit m; Ok (set_predictionMethods (<[pm := m]> p.(predictionMethods)) p)
  | None => Err OutOfBounds
  end.

(** [predictionMethods[i]] of [GlobalIoPrediction]. *)
Definition global_method (i : Z) (p : IoPredictor) : res nat :=
  if i <? p.(maxNumberOfThreadsPerformingIoInParallel) then Ok (Z.to_nat i) else Err OutOfBounds.

(** [predictionsPerIoOperation[j][i]]. *)
Definition operation_method (j i : Z) (p : IoPredictor) : res nat :=
  if (j <? p.(maxNumberOfThreadsPerformingIoInParallel)) && (0 <=? i) && (i <? TOTAL_IO_OPERATIONS)
  then Ok (Z.to_nat (j * TOTAL_IO_OPERATIONS + i)) else Err OutOfBounds.

Definition getPredictionMethodOfInvocationPoint (ioState : IoState.IoState) (p : IoPredictor) : res (nat * IoPredictor) :=
  let '(threadsInIO, ioState) := IoState.getThreadsInIO p.(maxNumberOfThreadsPerformingIoInParallel) ioState in
  let row := Z.to_nat threadsInIO in
  match p.(predictionsPerInvocationPoint) !! row with
  | None => Err OutOfBounds
  | Some currentStatus =>
    match currentStatus !! ioState.(IoState.traceHash) with
    | Some iti => Ok (iti, p)
    | None =>
      let iti := length p.(predictionMethods) in
      Ok (iti, mkIoPredictor p.(threadsInIo) p.(maxNumberOfThreadsPerformingIoInParallel)
        (p.(predictionMethods) ++ [getPredictionMethod ioState])
        (<[row := <[ioState.(IoState.traceHash) := iti]> currentStatus]> p.(predictionsPerInvocationPoint))
        (alter (<[ioState.(IoState.traceHash) := ioState.(IoState.ioOperation)]>) row p.(invocationPointToMethodId)))
    end
  end.

End predictor.
Arguments IoPredictor M : clear implicits.

(** ** IoParameters

    The options that choose a protocol, a predictor and what is not I/O. *)
Inductive protocol := NoProtocol | IoProtocolSerial | IoProtocolStrict | IoProtocolLax | IoProtocolNormal.

Record IoParameters := mkIoParameters {
  io : protocol;
  predictorType : string;
  recognizer : option IoRecognizer;
  excluder : option IoExcluder;
}.

Definition default_IoParameters : IoParameters := mkIoParameters IoProtocolNormal "invpoint" None None.

Definition parseIoPolicy (ioPolicyOption : string) : option protocol :=
  if String.eqb ioPolicyOption "serial" then Some IoProtocolSerial
  else if String.eqb ioPolicyOption "strict" then Some IoProtocolStrict
  else if String.eqb ioPolicyOption "lax" then Some IoProtocolLax
  else if String.eqb ioPolicyOption "normal" then Some IoProtocolNormal
  else if String.eqb ioPolicyOption "none" then Some NoProtocol
  else None.

Definition known_level (value : string) : bool :=
  String.eqb value "global" || String.eqb value "invpoint" || String.eqb value "ioop" || String.eqb value "none".

Definition parseRandomIoRecognition (value : Z) (ps : IoParameters) : IoParameters :=
  mkIoParameters ps.(io) ps.(predictorType) ps.(recognizer)
    (Some (if value =? 0 then AllIoExcluder else new_IoExcluder value)).
Definition parseThresholdIoRecognition (value : Z) (ps : IoParameters) : IoParameters :=
  mkIoParameters ps.(io) ps.(predictorType) (Some (EmpiricalRecognizer value)) ps.(excluder).

(** The options with a value that is a word, a number (as [atoi] reads it) and
    those without; none when the option is not accepted.  A protocol that is
    not known leaves no protocol behind. *)
Inductive option_ := Io (value : string) | Iolevel (value : string) | Ioexclude (value : Z) | Iodisregard | Iothreshold (value : Z).

Definition setValue (o : option_) (ps : IoParameters) : option IoParameters :=
  match o with
  | Io value => p ← parseIoPolicy value; Some (mkIoParameters p ps.(predictorType) ps.(recognizer) ps.(excluder))
  | Iolevel value => if known_level value then Some (mkIoParameters ps.(io) value ps.(recognizer) ps.(excluder)) else None
  | Ioexclude value => Some (parseRandomIoRecognition value ps)
  | Iodisregard => Some (mkIoParameters ps.(io) ps.(predictorType) ps.(recognizer) (Some AllIoExcluder))
  | Iothreshold value => Some (parseThresholdIoRecognition value ps)
  end.

Definition createPredictor (ps : IoParameters) : level :=
  if String.eqb ps.(predictorType) "global" then GlobalIoPrediction
  else if String.eqb ps.(predictorType) "ioop" then OperationAwareIoPrediction
  else if String.eqb ps.(predictorType) "invpoint" then StateAwareIoPrediction
  else NoIoPrediction.

(** Whether the protocol is wrapped in an [IoProtocolEnforcer]. *)
Definition enforces (ps : IoParameters) : bool :=
  match ps.(excluder), ps.(recognizer) with None, None => false | _, _ => true end.
