(* ===== verification/IoSimulation.v ===== *)
(** * Simulation of I/O operations

    A thread that starts an I/O operation gets a prediction of its duration
    (src/src/vex/io/IoPredictor.cpp), is treated by the protocol of the
    simulator (IoProtocol) and reports the real duration at the end
    (IoSimulator).  The handlers run on the thread, side by side with others;
    the predictor and the protocol are shared by all threads.  The keys of
    threads do not exclude each other here, so that each call of the shared
    predictor is one step; that of a method of prediction is one, too. *)
From S2P Require Import Prelude Heap AdaptiblePQueue CxxFloat Timers Controllers Statistics ThreadParts.
From S2P Require Import ThreadState ThreadQueue Registries ThreadRegistry ThreadManager Handlers ThreadHandlers.
From S2P Require Import PredictionMethods IoPrediction.
Import VexThreadState ThreadManager ThreadHandlers.

(** What simulators share: the predictor, and the operations of [IoProtocolNormal]
    that are under way. *)
Record IoSim (M : Type) := mkIoSim { predictor : IoPredictor M; pendingIoCalls : Z }.
Arguments mkIoSim {M}.
Arguments predictor {M}.
Arguments pendingIoCalls {M}.

Module IoSimulation.
Section handlers.
Context `{HO : StdHeapOps} {T L M : Type} `{HC : Controllers.VirtualTimelineController T}.
Context `{HM : PredictionMethod M} `{HP : Part (IoSim M) L}.
Variable managerId : nat.
Variable gsf : float.
Variable minimizeTimeslotOnNw : bool.

Abbreviation W := (World T).
Abbreviation V := (Vex T L).
Abbreviation handler := (proc V).

(** The method that the log of a thread is in. *)
Variable currentMethodId : nat -> L -> Z.

Definition sim_of (v : V) : IoSim M := part v.(locks).
Definition set_sim (x : IoSim M) (v : V) : V := set_locks (set_part x v.(locks)) v.

(** ** Steps on the predictor *)
Definition on_predictor {B} (f : IoPredictor M -> res (B * IoPredictor M)) : handler B :=
  Step (fun _ v => let x := sim_of v in '(b, p) ← f x.(predictor); Ok (b, set_sim (mkIoSim p x.(pendingIoCalls)) v)) Ret.
Definition ask_predictor {B} (f : IoPredictor M -> res B) : handler B :=
  Step (fun _ v => b ← f (sim_of v).(predictor); Ok (b, v)) Ret.
Definition change_predictor (f : IoPredictor M -> IoPredictor M) : handler unit := on_predictor (fun p => Ok (tt, f p)).

Section thread.
Context (t : nat).

Definition getCurrentMethodId : handler Z := Step (fun _ v => Ok (currentMethodId t v.(locks), v)) Ret.
Definition getIoUniqueInvocationPoint (s : thread) : Z :=
  int_mul s.(ioHandler).(IoHandler.ioInvocationPointHashValue) s.(ioHandler).(IoHandler.stackTraceHash).

(** The prediction of the method [pm], once it is known. *)
Definition predict_with (pm : nat) : handler Z :=
  lastIoPrediction ← on_predictor (next_of pm);
  unlock t ;;
  act_thread t (fun _ => upd_io (IoHandler.setIoPredictionInfo (Some pm) lastIoPrediction)) ;;
  mret lastIoPrediction.

Definition getPredictionValue (l : level) : handler Z :=
  match l with
  | NoIoPrediction => mret 0
  | GlobalIoPrediction =>
    pm ← ask_predictor (fun p => global_method (uint_sub p.(threadsInIo) 1) p);
    lock t ;;
    predict_with pm
  | StateAwareIoPrediction =>
    threads ← ask_predictor (fun p => Ok p.(threadsInIo));
    point ← look (fun w => getIoUniqueInvocationPoint (thread_of t w));
    methodId ← getCurrentMethodId;
    lock t ;;
    pm ← on_predictor (getPredictionMethodOfInvocationPoint (IoState.mkIoState threads point methodId));
    predict_with pm
  | OperationAwareIoPrediction =>
    ioMethodId ← getCurrentMethodId;
    pm ← ask_predictor (fun p => operation_method p.(threadsInIo) ioMethodId p);
    lock t ;;
    predict_with pm
  end.

Definition lastMethod : handler (option nat) :=
  look (fun w => (thread_of t w).(ioHandler).(IoHandler.lastIoPredictionMethod)).

Definition learn (pm : nat) (realTimeValueOnExit : Z) : handler unit :=
  on_predictor (fun p => p ← add_to pm realTimeValueOnExit p; Ok (tt, p)).

Definition addPredictionInfo (l : level) (realTimeValueOnExit : Z) : handler unit :=
  match l with
  | NoIoPrediction => mret tt
  | GlobalIoPrediction =>
    pm ← ask_predictor (fun p => global_method p.(threadsInIo) p);
    learn pm realTimeValueOnExit
  | StateAwareIoPrediction =>
    predictionMethod ← lastMethod;
    match predictionMethod with
    | Some pm => learn pm realTimeValueOnExit
    | None =>
      threads ← ask_predictor (fun p => Ok p.(threadsInIo));
      point ← look (fun w => getIoUniqueInvocationPoint (thread_of t w));
      lock t ;;
      pm ← on_predictor (getPredictionMethodOfInvocationPoint (IoState.mkIoState threads point 0));
      unlock t ;;
      learn pm realTimeValueOnExit
    end
  | OperationAwareIoPrediction =>
    predictionMethod ← lastMethod;
    threadsCurrentlyInIo ← ask_predictor (fun p => Ok p.(threadsInIo));
    match predictionMethod with
    | Some pm => learn pm realTimeValueOnExit
    | None =>
      methodId ← getCurrentMethodId;
      pm ← ask_predictor (operation_method threadsCurrentlyInIo methodId);
      learn pm realTimeValueOnExit
    end
  end.

Definition count (f : IoPredictor M -> IoPredictor M) : handler unit := lock t ;; change_predictor f ;; unlock t.

(** [rand]: the number an excluder draws. *)
Definition onIoEntryGetIoPrediction (ps : IoParameters) (rand : Z) : handler Z :=
  count increaseThreadsInIo ;;
  prediction ← getPredictionValue (createPredictor ps);
  (if match ps.(recognizer) with Some r => negb (isRecognizedAsIoOperation r prediction) | None => false end then
     act_thread t (fun _ => upd_io IoHandler.recognizedCallAsCached) ;;
     count decreaseThreadsInIo
   else if match ps.(excluder) with Some e => shouldRandomlyExcludeIo rand e | None => false end then
     act_thread t (fun _ => upd_io IoHandler.ignoreNextIo)
   else mret tt) ;;
  mret prediction.

Definition callRecognizedAsCached : handler bool := look (fun w => (thread_of t w).(ioHandler).(IoHandler.recognizingIoAsCached)).
Definition isIgnoringIo : handler bool := look (fun w => (thread_of t w).(ioHandler).(IoHandler.ignoringIo)).

Definition onIoExitAddRealTimeMeasurement (ps : IoParameters) (realTimeValueOnExit : Z) : handler unit :=
  cached ← callRecognizedAsCached;
  (if cached : bool then mret tt else count decreaseThreadsInIo) ;;
  addPredictionInfo (createPredictor ps) realTimeValueOnExit.

(** ** Protocols *)
Definition with_manager (f : Now -> W -> res W) : handler unit := m ← look (controlling t); deref m ;; act f.
Definition suspend_with_manager (startingTime options : Z) : handler unit :=
  m ← look (controlling t); deref m ;; suspendCurrent managerId gsf t startingTime options.
Definition finishIo : handler unit := act_thread t (fun _ => upd_io (IoHandler.set_ioFinishedBeforeLogging false)).

Definition Serial_onStart : handler unit :=
  lock t ;;
  stateManager ← look (controlling t);
  deref stateManager ;;
  act (fun now => updateCurrentThreadVT gsf now.(cpu) t) ;;
  act (fun _ w => Ok (setSystemCallThread t w)) ;;
  onVexExitWithBothClocksUpdate t.

Definition Serial_onEnd (actualIoDuration : Z) : handler unit :=
  act_thread t (fun _ => upd_timers (Timers.addGlobalTime actualIoDuration)) ;;
  lock t ;;
  finishIo ;;
  stateManager ← look (controlling t);
  check (fun w => bool_decide (controlling t w <> None)) ;;
  act_thread t (fun _ => setRunning) ;;
  deref stateManager ;;
  act (fun now => updateCurrentThreadVT gsf now.(cpu) t) ;;
  unlock t.

Definition Lax_onStart : handler unit :=
  dummyTime ← look (fun w => ((thread_of t w).(timers).(Timers.lastCPUTime) +ll 1)%cxx);
  lock t ;;
  stateManager ← look (controlling t);
  deref stateManager ;;
  suspendCurrent managerId gsf t dummyTime 0 ;;
  act (fun _ => setIoThread true t) ;;
  act (fun _ w => Ok (conditionalWakeup t w)) ;;
  onVexExitWithBothClocksUpdate t.

Definition commitIoDuration (actualIoDuration : Z) : handler unit :=
  with_manager (fun _ => with_timeline (Controllers.commitIoTimeProgress actualIoDuration) t).

Definition Lax_onEnd (actualIoDuration : Z) : handler unit :=
  act_thread t (fun _ => upd_timers (Timers.addElapsedTime actualIoDuration)) ;;
  lock t ;;
  finishIo ;;
  suspend_with_manager 0 SUSPEND_OPT_DONT_UPDATE_THREAD_TIME ;;
  commitIoDuration actualIoDuration ;;
  unlock t.

(** The count of pending operations is behind a spinlock. *)
Definition on_pending (f : Z -> W -> Z * W) : handler unit :=
  Step (fun _ v => let x := sim_of v in let '(n, w) := f x.(pendingIoCalls) v.(world) in
    Ok (tt, set_sim (mkIoSim x.(predictor) n) (set_world w v))) Ret.
Definition minimizeSchedulerTimeslot : handler unit :=
  on_pending (fun n w => (int_add n 1, if n =? 0 then ThreadManager.minimizeSchedulerTimeslot w else w)).
Definition resetSchedulerTimeslot : handler unit :=
  on_pending (fun n w => let n := int_sub n 1 in (n, if n =? 0 then resetDefaultSchedulerTimeslot w else w)).

Definition Normal_onStart : handler unit :=
  lock t ;;
  with_manager (fun now => updateCurrentThreadVT gsf now.(cpu) t) ;;
  lastIoPrediction ← look (fun w => (thread_of t w).(ioHandler).(IoHandler.lastIoPrediction));
  (if negb (lastIoPrediction =? 0) then
     act_thread t (fun _ => addPredictionToEstimatedRealTime) ;;
     delayed ← look (fun w => f_ltb f32_one (thread_of t w).(timers).(Timers.virtualTimeSpeedup));
     (if delayed : bool then
        suspend_with_manager 0 (Z.lor SUSPEND_OPT_DONT_UPDATE_THREAD_TIME SUSPEND_OPT_FORCE_SUSPEND)
      else mret tt) ;;
     with_manager (fun _ => setIoThread false t)
   else with_manager (fun _ => setIoThread true t)) ;;
  stateManager ← look (controlling t);
  deref stateManager ;;
  minimizeSchedulerTimeslot ;;
  with_manager (fun _ w => Ok (conditionalWakeup t w)) ;;
  onVexExitWithBothClocksUpdate t.

(** The thread's manager is the default one when none controls it. *)
Definition Normal_onEnd (actualIoDuration : Z) : handler unit :=
  lock t ;;
  finishIo ;;
  learning ← look (fun w => inIoLearningPhase (thread_of t w));
  (if learning : bool then
     timeout ← look (fun w => getTimeout (thread_of t w));
     (if negb (timeout =? -1) then
        act_thread t (fun _ s => upd_timers (fun x => Timers.addElapsedTime actualIoDuration (Timers.rollbackFromTimeOutValue x)) s) ;;
        act (fun _ w => Ok (updateRunnableQueue w)) ;;
        suspendCurrent managerId gsf t 0 (Z.lor SUSPEND_OPT_DONT_UPDATE_THREAD_TIME SUSPEND_OPT_THREAD_ALREADY_IN_LIST)
      else
        act_thread t (fun _ => upd_timers (Timers.addLocalIoTime actualIoDuration)) ;;
        suspendCurrent managerId gsf t 0 SUSPEND_OPT_DONT_UPDATE_THREAD_TIME)
   else
     predicted ← look (fun w => inIoPredictionPhase (thread_of t w));
     if predicted : bool then
       act_thread t (fun _ => updateEstimatedRealTimeAfterIoPrediction actualIoDuration) ;;
       act (fun _ w => Ok (updateRunnableQueue w)) ;;
       suspendCurrent managerId gsf t 0 (Z.lor SUSPEND_OPT_DONT_UPDATE_THREAD_TIME SUSPEND_OPT_THREAD_ALREADY_IN_LIST)
     else mret tt) ;;
  resetSchedulerTimeslot ;;
  loose ← look (fun w => bool_decide (controlling t w = None));
  (if loose : bool then suspendLoose managerId gsf minimizeTimeslotOnNw t 0 else mret tt) ;;
  commitIoDuration actualIoDuration ;;
  unlock t.

Definition onStart (p : protocol) : handler unit :=
  match p with
  | NoProtocol => onVexExit t ;; act_thread t (fun now => upd_timers (Timers.updateClocks now.(real) now.(cpu)))
  | IoProtocolSerial => Serial_onStart
  | IoProtocolStrict => mret tt
  | IoProtocolLax => Lax_onStart
  | IoProtocolNormal => Normal_onStart
  end.

Definition onEnd (p : protocol) (actualIoDuration : Z) : handler unit :=
  match p with
  | NoProtocol | IoProtocolStrict => mret tt
  | IoProtocolSerial => Serial_onEnd actualIoDuration
  | IoProtocolLax => Lax_onEnd actualIoDuration
  | IoProtocolNormal => Normal_onEnd actualIoDuration
  end.

(** [IoProtocolEnforcer] over the serial protocol and the chosen one. *)
Definition enforced (f : protocol -> handler unit) (p : protocol) : handler unit :=
  ignoring ← isIgnoringIo;
  if ignoring : bool then mret tt
  else
    cached ← callRecognizedAsCached;
    if cached : bool then f IoProtocolSerial else f p.

Definition getIoProtocol_onStart (ps : IoParameters) : handler unit :=
  if enforces ps then enforced onStart ps.(io) else onStart ps.(io).

Definition getIoProtocol_onEnd (ps : IoParameters) (actualIoDuration : Z) : handler unit :=
  if enforces ps then
    enforced (fun p => onEnd p actualIoDuration) ps.(io) ;;
    act_thread t (fun _ => upd_io IoHandler.resetIoStateFlags)
  else onEnd ps.(io) actualIoDuration.

(** ** IoSimulator *)
Definition startIo (ps : IoParameters) (rand : Z) : handler unit :=
  onIoEntryGetIoPrediction ps rand ;; getIoProtocol_onStart ps.

(** [getTimeScalingFactor() * (realTimeValueOnExit - getLastRealTime())]: a
    product of floats. *)
Definition scaledIoDuration (realTimeValueOnExit : Z) (s : thread) : Z :=
  f_to_ll (f32_mul s.(timers).(Timers.virtualTimeSpeedup) (ll_to_f32 (realTimeValueOnExit -ll s.(timers).(Timers.lastRealTime)))).

Definition endIo (ps : IoParameters) (realTimeValueOnExit : Z) : handler unit :=
  actualIoDuration ← look (fun w => scaledIoDuration realTimeValueOnExit (thread_of t w));
  onIoExitAddRealTimeMeasurement ps actualIoDuration ;;
  getIoProtocol_onEnd ps actualIoDuration.

End thread.
End handlers.

(** ** The last row *)
Section overrun.
Context `{HO : StdHeapOps} {T L M : Type} `{HC : Controllers.VirtualTimelineController T}.
Context `{HM : PredictionMethod M} `{HP : Part (IoSim M) L}.
Variable managerId : nat.
Variable gsf : float.
Variable minimizeTimeslotOnNw : bool.
Variable currentMethodId : nat -> L -> Z.
(** The prediction per operation uses the number of threads in I/O, this one
    included, as the row of a table that starts with row 0: with as many threads
    in I/O as the table has rows, it reads past the end. *)
Theorem operation_level_overruns now t ps rand ks (v : Vex T L) fuel : createPredictor ps = OperationAwareIoPrediction ->
  (sim_of v).(predictor).(maxNumberOfThreadsPerformingIoInParallel) = 32 -> (sim_of v).(predictor).(threadsInIo) = 31 ->
  ks !! t = None -> (5 <= fuel)%nat ->
  alone (resume managerId gsf) awake fuel now t (Runs (startIo managerId gsf currentMethodId t ps rand)) ks v = Err OutOfBounds.
Proof.
  intros Hp Hmax Hn Hk Hf. do 5 (destruct fuel as [|fuel]; [lia|]). unfold startIo, onIoEntryGetIoPrediction. rewrite Hp.
  unfold getPredictionValue, count, change_predictor, on_predictor, ask_predictor, lock, unlock, getCurrentMethodId, mbind, proc_bind, res_bind.
  cbn -[increaseThreadsInIo operation_method]. rewrite Hk. cbn -[increaseThreadsInIo operation_method].
  rewrite decide_True by apply lookup_insert_eq. cbn -[increaseThreadsInIo operation_method].
  unfold sim_of, set_sim. cbn -[increaseThreadsInIo operation_method]. rewrite part_set. unfold sim_of in Hmax, Hn. unfold operation_method. cbn.
  rewrite Hn, Hmax. done.
Qed.
End overrun.
End IoSimulation.
