(* ===== verification/IoCounting.v ===== *)
(** * How many threads are in I/O

    The predictors are indexed by the number of threads in I/O, which every
    thread raises and lowers on its own ([IoSimulation]).  [accounts] follows
    what one thread adds to a shared count, given a mark that it alone sets;
    the count is then the sum of what the threads add, however their steps
    mix. *)
From stdpp Require Import relations.
From S2P Require Import Prelude Heap AdaptiblePQueue CxxFloat Timers VirtualTimeline Controllers Statistics ThreadParts.
From S2P Require Import ThreadState ThreadQueue Registries ThreadRegistry ThreadManager Suspension Handlers ThreadHandlers.
From S2P Require Import PredictionMethods IoPrediction IoSimulation.
Import VexThreadState ThreadManager ThreadHandlers IoSimulation.

(** ** A shared count *)
Section accounts.
Context {S : Type} (total : S -> Z) (mark : nat -> S -> bool).
Implicit Types (t : nat) (c : Z) (b : bool).

(** A step of [t] adds [d] and leaves the marks of others alone. *)
Record adds t (d : Z) (s s' : S) : Prop := {
  adds_total : total s' = if d =? 0 then total s else uwrap 32 (total s + d);
  adds_others u : u <> t -> mark u s' = mark u s;
}.

(** [accounts t p c b Q]: the handler [p] of [t], which has added [c] so far and
    is marked [b], ends with [Q], and has never added more than one. *)
Fixpoint accounts {A : Type} t (p : proc S A) c b (Q : A -> Z -> bool -> Prop) : Prop :=
  match p with
  | Ret a => Q a c b
  | Step f k => forall now s x s', mark t s = b -> f now s = Ok (x, s') ->
      exists d, 0 <= c + d <= 1 /\ adds t d s s' /\ accounts t (k x) (c + d) (mark t s') Q
  | Lock _ k => accounts t k c b Q
  | Unlock _ k => accounts t k c b Q
  | Block f k => (forall now s o s', f now s = Ok (o, s') -> adds t 0 s s' /\ mark t s' = mark t s) /\ accounts t k c b Q
  | Loop _ _ _ => False
  end.

Lemma accounts_bind {A B} t (p : proc S A) (g : A -> proc S B) c b Q Q' : accounts t p c b Q ->
  (forall a c b, Q a c b -> accounts t (g a) c b Q') -> accounts t (bind p g) c b Q'.
Proof.
  revert c b. induction p as [A a|A C f k IH|A m k IH|A m k IH|A f k IH|A X R x body _ k IH]; intros c b; cbn; intros Hp Hg; eauto; [|by intuition eauto].
  intros now s x s' Hb E. destruct (Hp _ _ _ _ Hb E) as (d & ? & ? & ?). eauto 10.
Qed.

Lemma accounts_mbind {A B} t (p : proc S A) (g : A -> proc S B) c b Q Q' : accounts t p c b Q ->
  (forall a c b, Q a c b -> accounts t (g a) c b Q') -> accounts t (p ≫= g) c b Q'.
Proof. apply accounts_bind. Qed.

Lemma accounts_mono {A} t (p : proc S A) c b (Q Q' : A -> Z -> bool -> Prop) : accounts t p c b Q ->
  (forall a c b, Q a c b -> Q' a c b) -> accounts t p c b Q'.
Proof.
  revert c b. induction p as [A a|A C f k IH|A m k IH|A m k IH|A f k IH|A X R x body _ k IH]; intros c b; cbn; intros Hp Hg; eauto; [|by intuition eauto].
  intros now s x s' Hb E. destruct (Hp _ _ _ _ Hb E) as (d & ? & ? & ?). eauto 10.
Qed.

(** Handlers that neither add nor mark. *)
Definition neutral {A} t (p : proc S A) : Prop :=
  forall c b, 0 <= c <= 1 -> accounts t p c b (fun _ c' b' => c' = c /\ b' = b).

Lemma neutral_ret {A} t (a : A) : neutral t (mret a).
Proof. by intros c b Hc. Qed.

Lemma neutral_bind {A B} t (p : proc S A) (g : A -> proc S B) : neutral t p -> (forall a, neutral t (g a)) -> neutral t (p ≫= g).
Proof. intros Hp Hg c b Hc. eapply accounts_bind; [by apply Hp|]. intros a c' b' [-> ->]. by apply Hg. Qed.

Lemma after_neutral {A B} t (p : proc S A) (g : A -> proc S B) c b Q : neutral t p -> 0 <= c <= 1 ->
  (forall a, accounts t (g a) c b Q) -> accounts t (p ≫= g) c b Q.
Proof. intros Hp Hc Hg. eapply accounts_bind; [by apply Hp|]. by intros a c' b' [-> ->]. Qed.

Lemma adds_nothing t s s' : total s' = total s -> (forall u, mark u s' = mark u s) -> adds t 0 s s'.
Proof. intros Ht Hm. split; [exact Ht|by intros; apply Hm]. Qed.

Lemma neutral_step {A} t (f : Now -> S -> res (A * S)) :
  (forall now s x s', f now s = Ok (x, s') -> total s' = total s /\ forall u, mark u s' = mark u s) -> neutral t (Step f Ret).
Proof.
  intros Hf c b Hc now s x s' Hb E. destruct (Hf _ _ _ _ E) as [Ht Hm]. exists 0. split; [lia|]. split; [by apply adds_nothing|].
  cbn. rewrite Hm, Hb. split; [lia|done].
Qed.

Lemma neutral_block t (f : Now -> S -> res (outcome * S)) :
  (forall now s o s', f now s = Ok (o, s') -> total s' = total s /\ forall u, mark u s' = mark u s) -> neutral t (Block f (Ret tt)).
Proof.
  intros Hf c b Hc. split; [|done]. intros now s o s' E. destruct (Hf _ _ _ _ E) as [Ht Hm]. split; [by apply adds_nothing|apply Hm].
Qed.

(** *** The count over all threads *)
Context (resume : Now -> list frame -> nat -> S -> res (outcome * S)) (awake : nat -> S -> bool).
Context (calls : forall A, nat -> proc S A -> Prop) (schedules : S -> S -> Prop) (N : nat).

Definition all_back {A} (a : A) c b : Prop := c = 0 /\ b = false.

Definition account {A} t (x : status S A) c b : Prop :=
  match x with Runs p | Sleeps _ p => accounts t p c b all_back end.

(** [g] is what each thread has added. *)
Record accounted {A} (g : nat -> Z) (x : config S A) : Prop := {
  added_range t : 0 <= g t <= 1;
  added_by t y : x.(pool) !! t = Some y -> account t y (g t) (mark t x.(state));
  added_none t : x.(pool) !! t = None -> g t = 0 /\ mark t x.(state) = false;
  added_sum : total x.(state) = uwrap 32 (sum_of g (seq 0 N));
  added_threads t : (N <= t)%nat -> x.(pool) !! t = None;
}.

Lemma sum_of_update (g : nat -> Z) t d : (t < N)%nat ->
  sum_of (fun u => if decide (u = t) then g u + d else g u) (seq 0 N) = sum_of g (seq 0 N) + d.
Proof.
  clear. assert (forall n i, (i <= t < i + n)%nat ->
    sum_of (fun u => if decide (u = t) then g u + d else g u) (seq i n) = sum_of g (seq i n) + d) as H; [|intros; apply H; lia].
  assert (forall n i, (t < i)%nat -> sum_of (fun u => if decide (u = t) then g u + d else g u) (seq i n) = sum_of g (seq i n)) as Ha.
  { intros n i Hi. apply sum_of_ext. intros u Hu%elem_of_seq. rewrite decide_False by lia. done. }
  induction n as [|n IH]; intros i Hi; [lia|]. unfold sum_of in *. cbn.
  destruct (decide (i = t)) as [->|]; [rewrite Ha by lia; lia|]. rewrite IH by lia. lia.
Qed.

Lemma sum_range (g : nat -> Z) : (forall t, 0 <= g t <= 1) -> 0 <= sum_of g (seq 0 N) <= Z.of_nat N.
Proof.
  clear. intros Hg. generalize 0%nat. induction N as [|n IH]; intros i; unfold sum_of in *; cbn; [lia|].
  specialize (IH (Datatypes.S i)). specialize (Hg i). lia.
Qed.

Lemma uwrap_add x d : uwrap 32 (uwrap 32 x + d) = uwrap 32 (x + d).
Proof. clear. unfold uwrap. by rewrite Z.add_mod_idemp_l. Qed.

Lemma sum_zero : sum_of (fun _ : nat => 0) (seq 0 N) = 0.
Proof. clear. generalize 0%nat. induction N as [|n IH]; intros i; [done|apply IH]. Qed.

(** A step of [t] that adds [d]. *)
Lemma accounted_move {A} g (x : config S A) t y ks s' d : accounted g x -> (t < N)%nat -> 0 <= g t + d <= 1 -> adds t d x.(state) s' ->
  account t y (g t + d) (mark t s') ->
  accounted (fun u => if decide (u = t) then g u + d else g u) (mkConfig (<[t := y]> x.(pool)) ks s').
Proof using.
  intros [Hr Hb Hn Hs Ht] HN Hd [Hsum Ho] Hy. split; cbn.
  - intros u. case_decide; [subst; lia|apply Hr].
  - intros u z. case_decide; [subst; rewrite lookup_insert_eq; by intros [= <-]|].
    rewrite lookup_insert_ne by done. rewrite Ho by done. apply Hb.
  - intros u. case_decide; [subst; by rewrite lookup_insert_eq|]. rewrite lookup_insert_ne, Ho by done. apply Hn.
  - rewrite Hsum, Hs, sum_of_update by done. destruct (Z.eqb_spec d 0) as [->|]; [by rewrite Z.add_0_r|apply uwrap_add].
  - intros u Hu. rewrite lookup_insert_ne by lia. by apply Ht.
Qed.

Lemma accounted_still {A} g (x : config S A) t y y' ks s' : accounted g x -> x.(pool) !! t = Some y ->
  adds t 0 x.(state) s' -> mark t s' = mark t x.(state) ->
  (account t y (g t) (mark t x.(state)) -> account t y' (g t) (mark t x.(state))) ->
  accounted (fun u => if decide (u = t) then g u + 0 else g u) (mkConfig (<[t := y']> x.(pool)) ks s').
Proof using.
  intros Ha Hy Hadd Hm Hyy. assert (t < N)%nat as HN.
  { destruct (decide (t < N)%nat); [done|]. by rewrite (added_threads _ _ Ha t) in Hy by lia. }
  apply accounted_move; [done..| |done|].
  - rewrite Z.add_0_r. apply (added_range _ _ Ha).
  - rewrite Z.add_0_r, Hm. apply Hyy, (added_by _ _ Ha). done.
Qed.

Context (resume_still : forall now fr t s o s', resume now fr t s = Ok (o, s') -> adds t 0 s s' /\ mark t s' = mark t s).

Lemma accounted_turn {A} g (x : config S A) now t y y' ks' s' : accounted g x -> x.(pool) !! t = Some y ->
  turn resume awake now t y x.(keys) x.(state) = Ok (Some (y', ks', s')) ->
  exists g', accounted g' (mkConfig (<[t := y']> x.(pool)) ks' s').
Proof using resume_still.
  intros Ha Hy E. assert (adds t 0 x.(state) x.(state)) as H0 by (by apply adds_nothing).
  pose proof (added_by _ _ Ha _ _ Hy) as Hacc.
  destruct y as [[a|B f k|m k|m k|f k|X R z body k]|fr p]; cbn [turn] in E; cbn [account accounts] in Hacc; try done.
  - apply bind_ok in E as ([r s1] & E & [= <- <- <-]). destruct (Hacc _ _ _ _ eq_refl E) as (d & Hd & Hadd & Hk).
    eexists. apply accounted_move; [done| |done..]. destruct (decide (t < N)%nat); [done|].
    by rewrite (added_threads _ _ Ha t) in Hy by lia.
  - case_match; simplify_eq. eexists. by eapply accounted_still.
  - case_decide; simplify_eq. eexists. by eapply accounted_still.
  - apply bind_ok in E as ([o s1] & E & [= Hc <-]). destruct Hacc as [Hf _]. destruct (Hf _ _ _ _ E) as [Hadd Hm].
    destruct o; cbn in Hc; injection Hc as <- <-; eexists; (eapply accounted_still; [done..|]); by intros [].
  - case_match; [|done]. case_match; [done|]. apply bind_ok in E as ([o s1] & E & [= Hc <-]).
    destruct (resume_still _ _ _ _ _ _ E) as [Hadd Hm].
    destruct o; cbn in Hc; injection Hc as <- <-; eexists; by eapply accounted_still.
Qed.

Context (calls_account : forall A t p, calls A t p -> (t < N)%nat /\ accounts t p 0 false all_back).
Context (schedules_still : forall s s', schedules s s' -> total s' = total s /\ forall t, mark t s' = mark t s).

Lemma accounted_steps {A} g (x x' : config S A) : steps resume awake calls schedules x x' -> accounted g x -> exists g', accounted g' x'.
Proof using resume_still calls_account schedules_still.
  intros Hs Ha. destruct Hs as [now t y y' ks' s' x Hy E|t p x Hret Hc|s' x Hs].
  - by eapply accounted_turn.
  - destruct (calls_account _ _ _ Hc) as [HN Hp].
    assert (g t = 0 /\ mark t x.(state) = false) as [Hg Hm].
    { destruct (x.(pool) !! t) as [y|] eqn:Hy; [|by apply (added_none _ _ Ha)].
      destruct (Hret _ eq_refl) as [a ->]. apply (added_by _ _ Ha _ _ Hy). }
    eexists. eapply (accounted_move g x t _ _ _ 0); [done..|lia|by apply adds_nothing|]. by rewrite Hg, Hm.
  - destruct (schedules_still _ _ Hs) as [Ht Hm]. exists g. destruct Ha as [Hr Hb Hn Hsum HN]. split; cbn; [done| | | |done].
    + intros t y Hy. rewrite Hm. by apply Hb.
    + intros t Hy. rewrite Hm. by apply Hn.
    + by rewrite Ht.
Qed.

(** However the steps mix: the count is at most the number of threads, and 0
    when no handler is under way. *)
Lemma counted {A} (s : S) (x : config S A) : Z.of_nat N < 2 ^ 32 -> total s = 0 -> (forall t, mark t s = false) ->
  rtc (steps resume awake calls schedules) (mkConfig ∅ ∅ s) x ->
  total x.(state) <= Z.of_nat N /\
  ((forall t y, x.(pool) !! t = Some y -> exists a, y = Runs (Ret a)) -> total x.(state) = 0).
Proof using resume_still calls_account schedules_still.
  intros HN Hs Hm Hx. assert (exists g, accounted g x) as [g Hg].
  { assert (accounted (fun _ => 0) (mkConfig ∅ ∅ s : config S A)) as H0.
    { split; cbn; [lia|done|by intros|by rewrite Hs, sum_zero|done]. }
    revert H0. generalize (fun _ : nat => 0). induction Hx as [|y z x Hy _ IH]; intros g0 Hg0; [by exists g0|].
    destruct (accounted_steps _ _ _ Hy Hg0) as [g1 Hg1]. by eapply IH. }
  pose proof (sum_range g (added_range _ _ Hg)) as Hsum. rewrite (added_sum _ _ Hg), uwrap_id by lia. split; [lia|].
  intros Hret. rewrite (sum_of_ext _ (fun _ => 0)); [apply sum_zero|].
  intros t _. destruct (x.(pool) !! t) as [y|] eqn:Hy; [|by apply (added_none _ _ Hg)].
  destruct (Hret _ _ Hy) as [a ->]. apply (added_by _ _ Hg _ _ Hy).
Qed.

End accounts.

Module IoCounting.

(** ** Managers leave the mark alone *)
Section manager.
Context `{HO : StdHeapOps} {T : Type} `{HC : Controllers.VirtualTimelineController T}.
Variable managerId : nat.
Variable gsf : float.
Variable minimizeTimeslotOnNw : bool.
Implicit Types (t : nat) (w : World T).

Definition cached (s : thread) : bool := s.(ioHandler).(IoHandler.recognizingIoAsCached).

(** No thread's mark changes. *)
Definition still w w' : Prop := forall u, cached (thread_of u w') = cached (thread_of u w).

#[export] Instance still_preorder : PreOrder still.
Proof. split; [by intros w u|]. intros w1 w2 w3 H1 H2 u. by rewrite H2, H1. Qed.

Lemma still_threads w w' : w'.(threads) = w.(threads) -> still w w'.
Proof. intros Ht u. unfold thread_of. by rewrite Ht. Qed.

Lemma still_upd t f w w' : (forall s, cached (f s) = cached s) -> still w w' -> still w (upd t f w').
Proof.
  intros Hf Hw u. rewrite <- Hw. unfold thread_of, upd. cbn. rewrite lookup_update_thread. case_decide; [|done].
  subst. apply Hf.
Qed.

Lemma still_timeline f t w w' : with_timeline f t w = Ok w' -> still w w'.
Proof. intros ([tm tl]&_&[= <-])%bind_ok. by apply still_upd. Qed.

Lemma still_updateBy d t w w' : locklessUpdateTimeBy gsf d t w = Ok w' -> still w w'.
Proof.
  unfold locklessUpdateTimeBy. intros Hs. etransitivity; [|case_match; by eapply still_timeline]. by apply still_upd.
Qed.

Lemma still_setVT s t w w' : setCurrentThreadVT gsf s t w = Ok w' -> still w w'.
Proof. unfold setCurrentThreadVT. case_match; [apply still_updateBy|by intros [= <-]]. Qed.

Lemma still_updateVT c t w w' : updateCurrentThreadVT gsf c t w = Ok w' -> still w w'.
Proof.
  unfold updateCurrentThreadVT. intros (w1&Hu&[= <-])%bind_ok. apply still_upd; [done|].
  case_match; [by eapply still_updateBy|by injection Hu as <-].
Qed.

Lemma still_push t w w' : pushIntoRunnableQueue t w = Ok w' -> still w w'.
Proof. intros (q & _ & [= <-])%bind_ok. by apply still_threads. Qed.

Lemma still_unset t w : still w (unsetCurrentThreadFromRunningThread t w).
Proof. unfold unsetCurrentThreadFromRunningThread. by case_decide; apply still_threads. Qed.

Lemma still_wakeup w : still w (unconditionalWakeup w).
Proof. unfold unconditionalWakeup. by case_match; apply still_threads. Qed.

Lemma still_should r t w : still w (shouldCurrentThreadSuspend r t w).2.
Proof.
  unfold shouldCurrentThreadSuspend. destruct (Scheduling.getAndResetForcedSuspendFlag _). repeat case_match; by apply still_upd.
Qed.

Lemma still_suspended_push t w w' : setSuspendedAndPushToRunnables t w = Ok w' -> still w w'.
Proof.
  intros Hp%still_push. etransitivity; [|exact Hp]. apply still_upd; [done|]. apply still_unset.
Qed.

Lemma still_setRunning_with suspend_ t w o w' :
  (forall opts w o w', suspend_ t opts w = Ok (o, w') -> still w w') ->
  setRunningThread_with managerId suspend_ t w = Ok (o, w') -> still w w'.
Proof.
  intros Hs. unfold setRunningThread_with, changeThreadStateToRunning. destruct (anotherThreadAlreadySetRunning _ _); cbv zeta.
  - intros E%Hs. etransitivity; [|exact E]. by apply still_upd.
  - intros (w1 & E%still_timeline & ([] & _ & [= <- <-])%bind_ok)%bind_ok. etransitivity; [|exact E].
    apply still_upd; [done|]. etransitivity; [|by apply still_threads]. by do 2 (apply still_upd; [done|]).
Qed.

Lemma still_suspend fuel c r t startingTime options w o w' :
  suspendCurrentThread managerId gsf fuel c r t startingTime options w = Ok (o, w') -> still w w'.
Proof.
  revert t startingTime options w o w'. induction fuel as [|fuel IH]; intros t startingTime options w o w'; [done|].
  cbn [suspendCurrentThread]. intros (w1 & E1 & E)%bind_ok.
  assert (still w w1) as H1 by (clear E; repeat case_match; solve [by eapply still_updateVT|by eapply still_setVT|by injection E1 as <-]).
  etransitivity; [exact H1|]. clear w E1 H1. revert E.
  assert (forall w1, still w1 (if has_option options SUSPEND_OPT_FORCE_SUSPEND && (negb (ThreadQueue.empty (queue w1)) || ThreadRegistry.atLeastOneThreadBeingSpawned (registry w1))
    then (true, w1) else shouldCurrentThreadSuspend r t w1).2) as H2 by (intros w0; case_match; [by intros u|apply still_should]).
  specialize (H2 w1). destruct (if has_option options SUSPEND_OPT_FORCE_SUSPEND && _ then _ else _) as [[] w2]; cbn in H2.
  - intros (w3 & E3 & ([] & _ & [= <- <-])%bind_ok)%bind_ok. apply still_upd; [done|]. assert (still w2 w3) as H3.
    { case_match; [|by eapply still_suspended_push]. injection E3 as <-. apply still_upd; [done|apply still_unset]. }
    assert (still w1 w3) by (by etransitivity). destruct (has_option options SUSPEND_OPT_DONT_WAKE_UP_SCHEDULER); [done|]. etransitivity; [done|apply still_wakeup].
  - intros E. etransitivity; [exact H2|]. case_decide; [by injection E as <- <-|].
    apply still_setRunning_with in E; [|intros ????; apply IH]. etransitivity; [|exact E]. destruct (has_option options SUSPEND_OPT_THREAD_ALREADY_IN_LIST); [by apply still_threads|done].
Qed.

Lemma still_setRunning c r t w o w' : setRunningThread managerId gsf c r t w = Ok (o, w') -> still w w'.
Proof. apply still_setRunning_with. intros ????. apply still_suspend. Qed.

Lemma still_loose c r t startingTime w o w' :
  suspendLooseCurrentThread managerId gsf minimizeTimeslotOnNw c r t startingTime w = Ok (o, w') -> still w w'.
Proof.
  unfold suspendLooseCurrentThread. intros (w1 & E1 & E)%bind_ok.
  assert (still w w1) as H1 by (clear E; case_match; solve [by eapply still_updateVT|by eapply still_setVT]).
  etransitivity; [exact H1|]. clear w E1 H1. revert E.
  set (w2 := set_registry _ w1). set (w3 := if minimizeTimeslotOnNw then _ else _).
  assert (still w1 w3) as H3 by (subst w3 w2; repeat case_match; by apply still_threads). intros E. etransitivity; [exact H3|].
  revert E. case_match; [|by apply still_setRunning]. intros (w4 & E4%still_suspended_push & [= <- <-])%bind_ok. by apply still_upd.
Qed.

Lemma still_frame c r f t w o w' : run_frame managerId gsf c r f t w = Ok (o, w') -> still w w'.
Proof.
  destruct f; cbn.
  - intros ([] & _ & E)%bind_ok. by eapply still_setRunning.
  - intros (w1 & E1%still_timeline & E%still_setRunning)%bind_ok. by etransitivity.
  - intros [= <- <-]. by apply still_upd.
Qed.

Lemma still_resume c r k t w o w' : resume_frames managerId gsf c r k t w = Ok (o, w') -> still w w'.
Proof.
  revert w. induction k as [|f k IH]; intros w; cbn; [by intros [= <- <-]|].
  intros ([o1 w1] & E1%still_frame & E)%bind_ok. etransitivity; [exact E1|]. destruct o1; [by apply IH|by injection E as <- <-].
Qed.

Lemma still_setIo learning t w w' : setIoThread learning t w = Ok w' -> still w w'.
Proof.
  unfold setIoThread. set (w1 := unsetCurrentThreadFromRunningThread t w).
  destruct (setIoAndCheckIfOperationShouldBlockSimulationProgress learning (thread_of t w1)) as [b s] eqn:Es.
  assert (cached s = cached (thread_of t w1)) as Hs.
  { unfold setIoAndCheckIfOperationShouldBlockSimulationProgress in Es. by repeat case_match; simplify_eq. }
  assert (still w (upd t (fun _ => s) w1)) as H1.
  { transitivity w1; [apply still_unset|]. intros u. unfold thread_of, upd. cbn. rewrite lookup_update_thread. case_decide; [|done].
    subst. exact Hs. }
  destruct b; [intros E%still_push; by etransitivity|by intros [= <-]].
Qed.

End manager.

(** ** What an operation adds *)
Section handlers.
Context `{HO : StdHeapOps} {T L M : Type} `{HC : Controllers.VirtualTimelineController T}.
Context `{HM : PredictionMethod M} `{HP : Part (IoSim M) L}.
Variable managerId : nat.
Variable gsf : float.
Variable minimizeTimeslotOnNw : bool.
Variable currentMethodId : nat -> L -> Z.

Abbreviation V := (Vex T L).
Abbreviation handler := (proc V).

Definition threads_counted (v : V) : Z := (sim_of v).(predictor).(threadsInIo).
Definition marked (t : nat) (v : V) : bool := cached (thread_of t v.(world)).
Abbreviation keeps_count := (neutral threads_counted marked).
Abbreviation accounts_io := (accounts threads_counted marked).

Section steps.
Context (t : nat).

Lemma neutral_clock f : keeps_count t (clock f : handler _).
Proof. apply neutral_step. by intros now v x v' [= <- <-]. Qed.

Lemma neutral_look {B} (f : World T -> B) : keeps_count t (look f : handler _).
Proof. apply neutral_step. by intros now v x v' [= <- <-]. Qed.

Lemma neutral_check f : keeps_count t (check f : handler _).
Proof. apply neutral_step. by intros now v x v' ([] & _ & [= <- <-])%bind_ok. Qed.

Lemma neutral_deref {B} (p : option B) : keeps_count t (deref p : handler _).
Proof. destruct p; [apply neutral_ret|by intros c b Hc now v x v' _ E]. Qed.

Lemma neutral_lock u : keeps_count t (lock u : handler _).
Proof. by intros c b Hc. Qed.

Lemma neutral_unlock u : keeps_count t (unlock u : handler _).
Proof. by intros c b Hc. Qed.

Lemma neutral_act f : (forall now w w', f now w = Ok w' -> still w w') -> keeps_count t (act f : handler _).
Proof. intros Hf. apply neutral_step. intros now v x v' (w & E & [= <- <-])%bind_ok. split; [done|]. exact (Hf _ _ _ E). Qed.

Lemma neutral_thread u f : (forall now s, cached (f now s) = cached s) -> keeps_count t (act_thread u f : handler _).
Proof. intros Hf. apply neutral_act. intros now w w' [= <-]. by apply still_upd. Qed.

Lemma neutral_manager f : (forall now w o w', f now w = Ok (o, w') -> still w w') -> keeps_count t (manager f : handler _).
Proof. intros Hf. apply neutral_block. intros now v o v' ([o' w] & E & [= <- <-])%bind_ok. split; [done|]. exact (Hf _ _ _ _ E). Qed.

Lemma neutral_predictor {B} (f : IoPredictor M -> res (B * IoPredictor M)) :
  (forall p b p', f p = Ok (b, p') -> p'.(threadsInIo) = p.(threadsInIo)) -> keeps_count t (on_predictor f : handler _).
Proof.
  intros Hf. apply neutral_step. intros now v x v' ([b p] & E & [= <- <-])%bind_ok. split; [|done].
  unfold threads_counted, sim_of, set_sim. cbn. rewrite part_set. cbn. exact (Hf _ _ _ E).
Qed.

Lemma neutral_ask {B} (f : IoPredictor M -> res B) : keeps_count t (ask_predictor f : handler _).
Proof. apply neutral_step. by intros now v x v' (b & E & [= <- <-])%bind_ok. Qed.

Lemma neutral_pending f : (forall n w, still w (f n w).2) -> keeps_count t (on_pending f : handler _).
Proof.
  intros Hf. apply neutral_step. intros now v x v'. cbv zeta. specialize (Hf (pendingIoCalls (sim_of v)) (world v)).
  destruct (f _ _) as [n w]. intros [= <- <-]. split; [|exact Hf].
  unfold threads_counted, sim_of, set_sim. cbn. by rewrite part_set.
Qed.

Lemma neutral_methodId : keeps_count t (getCurrentMethodId currentMethodId t : handler _).
Proof. apply neutral_step. by intros now v x v' [= <- <-]. Qed.

End steps.

Lemma next_counts pm p z (p' : IoPredictor M) : next_of pm p = Ok (z, p') -> p'.(threadsInIo) = p.(threadsInIo).
Proof. unfold next_of. case_match; [|done]. by intros ([? ?] & _ & [= <- <-])%bind_ok. Qed.

Lemma add_counts pm z p (p' : IoPredictor M) : add_to pm z p = Ok p' -> p'.(threadsInIo) = p.(threadsInIo).
Proof. unfold add_to. case_match; [|done]. by intros (? & _ & [= <-])%bind_ok. Qed.

Lemma point_counts i p pm (p' : IoPredictor M) : getPredictionMethodOfInvocationPoint i p = Ok (pm, p') ->
  p'.(threadsInIo) = p.(threadsInIo).
Proof. unfold getPredictionMethodOfInvocationPoint. by repeat case_match; intros; simplify_eq. Qed.

Create HintDb neutral.
#[local] Hint Resolve neutral_ret neutral_clock neutral_look neutral_check neutral_deref neutral_lock neutral_unlock neutral_ask
  neutral_methodId : neutral.
#[local] Hint Resolve next_counts point_counts : neutral.

(** One bind after the other; steps that change threads are accounting of a manager or spare the mark. *)
Ltac solve_neutral :=
  repeat match goal with |- forall _, _ => intro end; cbn beta zeta;
  lazymatch goal with
  | |- neutral _ _ _ (mbind _ _) => eapply neutral_bind; [solve_neutral|solve_neutral]
  | |- neutral _ _ _ (if ?c then _ else _) => destruct c; solve_neutral
  | |- neutral _ _ _ (match ?x with _ => _ end) => destruct x; solve_neutral
  | |- neutral _ _ _ (act_thread _ _) => apply neutral_thread; intros; by repeat case_match
  | |- neutral _ _ _ (on_predictor _) => apply neutral_predictor; intros; eauto with neutral
  | _ => solve [eauto with neutral]
  end.

Section neutral.
Context (t : nat).

Lemma neutral_updateVT : keeps_count t (act (fun now => updateCurrentThreadVT gsf now.(cpu) t) : handler _).
Proof. apply neutral_act. intros ???. apply still_updateVT. Qed.
Lemma neutral_quiet f : (forall w, still w (f w)) -> keeps_count t (act (fun _ w => Ok (f w)) : handler _).
Proof. intros Hf. apply neutral_act. intros _ w w' [= <-]. apply Hf. Qed.
Lemma neutral_setIo b : keeps_count t (act (fun _ => setIoThread b t) : handler _).
Proof. apply neutral_act. intros ???. apply still_setIo. Qed.
Lemma neutral_conditional : keeps_count t (act (fun _ w => Ok (conditionalWakeup t w)) : handler _).
Proof. apply neutral_quiet. intros w. unfold conditionalWakeup. case_match; [apply still_wakeup|done]. Qed.
Lemma neutral_requeue : keeps_count t (act (fun _ w => Ok (updateRunnableQueue w)) : handler _).
Proof. apply neutral_quiet. intros w. by apply still_threads. Qed.
Lemma neutral_suspend time opts : keeps_count t (suspendCurrent managerId gsf t time opts : handler _).
Proof. apply neutral_manager. intros ????. apply still_suspend. Qed.
Lemma neutral_loose time : keeps_count t (suspendLoose managerId gsf minimizeTimeslotOnNw t time : handler _).
Proof. apply neutral_manager. intros ????. apply still_loose. Qed.
#[local] Hint Resolve neutral_updateVT neutral_setIo neutral_conditional neutral_requeue neutral_suspend neutral_loose : neutral.

Lemma neutral_exit_both : keeps_count t (onVexExitWithBothClocksUpdate t : handler _).
Proof. unfold onVexExitWithBothClocksUpdate. solve_neutral. Qed.
Lemma neutral_exit : keeps_count t (onVexExit t : handler _).
Proof. unfold onVexExit. solve_neutral. Qed.
Lemma neutral_finish : keeps_count t (finishIo t : handler _).
Proof. unfold finishIo. solve_neutral. Qed.
#[local] Hint Resolve neutral_exit_both neutral_exit neutral_finish : neutral.

Lemma neutral_systemCall : keeps_count t (act (fun _ w => Ok (setSystemCallThread t w)) : handler _).
Proof. apply neutral_quiet. intros w. by apply still_upd. Qed.
Lemma neutral_commit d : keeps_count t (commitIoDuration t d : handler _).
Proof.
  unfold commitIoDuration, with_manager. eapply neutral_bind; [solve_neutral|]. intros m. eapply neutral_bind; [solve_neutral|].
  intros _. apply neutral_act. intros ???. apply still_timeline.
Qed.
Lemma neutral_with_manager f : keeps_count t (act f : handler _) -> keeps_count t (with_manager t f : handler _).
Proof. intros Hf. unfold with_manager. eapply neutral_bind; [solve_neutral|]. intros m. by eapply neutral_bind; [solve_neutral|]. Qed.
Lemma neutral_suspend_with time opts : keeps_count t (suspend_with_manager managerId gsf t time opts : handler _).
Proof. unfold suspend_with_manager. solve_neutral. Qed.
Lemma neutral_minimize : keeps_count t (IoSimulation.minimizeSchedulerTimeslot : handler _).
Proof. apply neutral_pending. intros n w. cbn. unfold ThreadManager.minimizeSchedulerTimeslot. by repeat case_match; apply still_threads. Qed.
Lemma neutral_reset : keeps_count t (IoSimulation.resetSchedulerTimeslot : handler _).
Proof. apply neutral_pending. intros n w. cbn. by case_match; apply still_threads. Qed.
#[local] Hint Resolve neutral_systemCall neutral_commit neutral_with_manager neutral_suspend_with neutral_minimize neutral_reset : neutral.

Lemma neutral_onStart p : keeps_count t (onStart managerId gsf t p : handler _).
Proof. destruct p; cbn [onStart]; unfold Serial_onStart, Lax_onStart, Normal_onStart; solve_neutral. Qed.

Lemma neutral_onEnd p d : keeps_count t (onEnd managerId gsf minimizeTimeslotOnNw t p d : handler _).
Proof. destruct p; cbn [onEnd]; unfold Serial_onEnd, Lax_onEnd, Normal_onEnd; solve_neutral. Qed.

Lemma neutral_learn pm d : keeps_count t (learn pm d : handler _).
Proof. apply neutral_predictor. intros p b p' (p1 & E & [= <- <-])%bind_ok. by eapply add_counts. Qed.
#[local] Hint Resolve neutral_learn : neutral.

Lemma neutral_predict_with pm : keeps_count t (predict_with t pm : handler _).
Proof. unfold predict_with. solve_neutral. Qed.
#[local] Hint Resolve neutral_predict_with : neutral.

Lemma neutral_prediction l : keeps_count t (getPredictionValue currentMethodId t l : handler _).
Proof. destruct l; cbn [getPredictionValue]; solve_neutral. Qed.

Lemma neutral_info l d : keeps_count t (addPredictionInfo currentMethodId t l d : handler _).
Proof. unfold addPredictionInfo, lastMethod. solve_neutral. Qed.

#[local] Hint Resolve neutral_onStart neutral_onEnd neutral_prediction neutral_info : neutral.

(** *** The steps that add and mark *)
Lemma counts_step (f : IoPredictor M -> IoPredictor M) c d b : 0 <= c + d <= 1 -> d <> 0 ->
  (forall p, (f p).(threadsInIo) = uwrap 32 (p.(threadsInIo) + d)) ->
  accounts_io t (count t f : handler _) c b (fun _ c' b' => c' = c + d /\ b' = b).
Proof.
  intros Hc Hd Hf now v x v' Hb [= <- <-]. exists d. split; [done|]. split; [|by split].
  split; [|done]. rewrite (proj2 (Z.eqb_neq _ _) Hd). unfold threads_counted, sim_of, set_sim. cbn. rewrite part_set. apply Hf.
Qed.

Lemma marks_step (f : thread -> thread) m c b : 0 <= c <= 1 -> (forall s, cached (f s) = m) ->
  accounts_io t (act_thread t (fun _ => f) : handler _) c b (fun _ c' b' => c' = c /\ b' = m).
Proof.
  intros Hc Hf now v x v' Hb [= <- <-]. exists 0. split; [lia|]. split; [split; [done|]|].
  - intros u Hu. unfold marked, thread_of, upd. cbn. rewrite lookup_update_thread. by rewrite decide_False.
  - split; [lia|]. unfold marked. cbn. by rewrite thread_of_upd.
Qed.

Lemma reads_mark c b : 0 <= c <= 1 ->
  accounts_io t (callRecognizedAsCached t : handler _) c b (fun x c' b' => x = b /\ c' = c /\ b' = b).
Proof. intros Hc now v x v' Hb [= <- <-]. exists 0. split; [lia|]. split; [by split|]. split; [done|]. split; [lia|done]. Qed.

(** A marked thread has been taken out of the count. *)
Definition outstanding (ps : IoParameters) (c : Z) (b : bool) : Prop :=
  c = (if b then 0 else 1) /\ (b = true -> enforces ps = true).

Lemma start_accounts ps rand :
  accounts_io t (startIo managerId gsf currentMethodId t ps rand : handler _) 0 false (fun _ c b => outstanding ps c b).
Proof.
  unfold startIo, onIoEntryGetIoPrediction. eapply accounts_mbind with (Q := fun _ c b => outstanding ps c b).
  - eapply accounts_mbind; [by apply (counts_step _ 0 1)|]. intros _ c b [-> ->].
    apply after_neutral; [apply neutral_prediction|lia|]. intros z.
    eapply accounts_mbind with (Q := fun _ c b => outstanding ps c b); [|by intros _ c b Ho].
    destruct (match ps.(recognizer) with Some r => _ | None => _ end) eqn:Er.
    + eapply accounts_mbind; [apply (marks_step _ true); [lia|done]|]. intros _ c b [-> ->].
      eapply accounts_mono; [apply (counts_step _ 1 (-1)); [lia|done|done]|]. intros _ c b [-> ->]. split; [done|].
      intros _. unfold enforces. destruct ps.(recognizer); [by destruct ps.(excluder)|done].
    + apply accounts_mono with (Q := fun _ c b => c = 0 + 1 /\ b = false); [|intros _ c b [-> ->]; by split].
      assert (keeps_count t (if match ps.(excluder) with Some e => shouldRandomlyExcludeIo rand e | None => false end
        then act_thread t (fun _ => upd_io IoHandler.ignoreNextIo) else mret tt : handler _)) as Hn by solve_neutral.
      apply Hn. lia.
  - intros _ c b Ho. assert (0 <= c <= 1) by (destruct Ho as [-> _]; destruct b; lia).
    assert (keeps_count t (getIoProtocol_onStart managerId gsf t ps : handler _)) as Hn.
    { unfold getIoProtocol_onStart, enforced, isIgnoringIo, callRecognizedAsCached. solve_neutral. }
    eapply accounts_mono; [by apply Hn|]. by intros _ c' b' [-> ->].
Qed.

Lemma end_accounts ps realTime c b : outstanding ps c b ->
  accounts_io t (endIo managerId gsf minimizeTimeslotOnNw currentMethodId t ps realTime : handler _) c b all_back.
Proof.
  intros [Hc Hb]. unfold endIo, onIoExitAddRealTimeMeasurement. assert (0 <= c <= 1) by (destruct b; lia).
  apply after_neutral; [apply neutral_look|done|]. intros d.
  eapply accounts_mbind with (Q := fun _ c' b' => c' = 0 /\ b' = b).
  - eapply accounts_mbind; [by apply reads_mark|]. intros x c1 b1 (-> & -> & ->).
    eapply accounts_mbind with (Q := fun _ c' b' => c' = 0 /\ b' = b).
    + destruct b; [by split|]. eapply accounts_mono; [by apply (counts_step _ c (-1)); rewrite ?Hc|].
      intros _ c1 b1 [-> ->]. split; [lia|done].
    + intros _ c1 b1 [-> ->]. by apply neutral_info.
  - intros _ c1 b1 [-> ->]. unfold getIoProtocol_onEnd. destruct (enforces ps).
    + apply after_neutral; [|done|intros _; by apply marks_step].
      unfold enforced, isIgnoringIo, callRecognizedAsCached. solve_neutral.
    + eapply accounts_mono; [by apply neutral_onEnd|]. intros u c1 b1 [-> ->]. split; [done|].
      destruct b; [by specialize (Hb eq_refl)|done].
Qed.

(** An operation of a thread: between start and end the thread runs the call. *)
Definition io_operation (ps : IoParameters) (rand : Z) : handler unit :=
  startIo managerId gsf currentMethodId t ps rand ;;
  realTimeValueOnExit ← clock real;
  endIo managerId gsf minimizeTimeslotOnNw currentMethodId t ps realTimeValueOnExit.

Lemma operation_accounts ps rand : accounts_io t (io_operation ps rand) 0 false all_back.
Proof.
  eapply accounts_mbind; [apply start_accounts|]. intros u c b Ho. assert (0 <= c <= 1) by (destruct Ho as [-> _]; destruct b; lia).
  apply after_neutral; [apply neutral_clock|done|]. intros z. by apply end_accounts.
Qed.

End neutral.

Lemma resume_adds_nothing now fr t (v : V) o v' : ThreadHandlers.resume managerId gsf now fr t v = Ok (o, v') ->
  adds threads_counted marked t 0 v v' /\ marked t v' = marked t v.
Proof.
  intros ([o' w] & E%still_resume & [= <- <-])%bind_ok. split; [|apply E]. split; [done|]. intros u _. apply E.
Qed.

(** ** Threads side by side *)
Inductive io_calls (ps : IoParameters) (N : nat) : forall A, nat -> proc V A -> Prop :=
  | calls_io t rand : (t < N)%nat -> io_calls ps N unit t (io_operation t ps rand).

(** What the scheduler does between the steps of threads. *)
Definition spares_io (schedules : V -> V -> Prop) : Prop :=
  forall v v', schedules v v' -> threads_counted v' = threads_counted v /\ forall t, marked t v' = marked t v.

(** C21. Threads that start and end I/O operations, their steps mixed in any
    order with each other and with the scheduler's, are counted exactly: there
    are never more threads in I/O than threads, and none once all operations
    are over, whether operations are predicted, excluded or recognised as
    served by a cache. *)
Theorem io_threads_counted ps N schedules v c : spares_io schedules -> Z.of_nat N < 2 ^ 32 ->
  threads_counted v = 0 -> (forall t, marked t v = false) ->
  rtc (steps (ThreadHandlers.resume managerId gsf) awake (io_calls ps N) schedules) (mkConfig ∅ ∅ v : config V unit) c ->
  threads_counted c.(state) <= Z.of_nat N /\
  ((forall t x, c.(pool) !! t = Some x -> exists a, x = Runs (Ret a)) -> threads_counted c.(state) = 0).
Proof.
  intros Hs HN H0 Hm. apply (counted threads_counted marked); try done.
  - intros. by eapply resume_adds_nothing.
  - intros A t p [u rand Hu]. split; [done|]. apply operation_accounts.
Qed.

End handlers.

(** ** Witness: two threads in I/O at once *)
#[local] Existing Instances Controllers.SingleVirtualTimelineController.
#[local] Instance averages : PredictionMethod CyclicBufferBased.CyclicBufferBased := cyclic_method 0 CyclicBufferBased.AverageCyclicBuffer 16.
#[local] Instance just_io {M} : Part (IoSim M) (IoSim M) := {| part x := x; set_part y _ := y; part_set _ _ := eq_refl |}.

Definition two_at_work : Vex VirtualTimeline.VirtualTimeline.VirtualTimeline (IoSim CyclicBufferBased.CyclicBufferBased) :=
  mkVex (new_ThreadManager {[ 0%nat := ThreadQueue.io_thread 10 5; 1%nat := ThreadQueue.io_thread 20 5 ]} [] (ThreadRegistry.new_ThreadRegistry 2 false) ∅
    (VirtualTimeline.VirtualTimeline.mkTimeline 0 0) false 0 None) (mkIoSim (new_GlobalIoPrediction 0) 0).

Abbreviation V2 := (Vex VirtualTimeline.VirtualTimeline.VirtualTimeline (IoSim CyclicBufferBased.CyclicBufferBased)).

Abbreviation two_turns := (rtc (steps (ThreadHandlers.resume 0 f32_one) awake
  (io_calls 0 f32_one false (fun _ _ => 0) default_IoParameters 2) eq)).

Lemma io_threads_counted_witness : exists c : config V2 unit,
  two_turns (mkConfig ∅ ∅ two_at_work) c /\ threads_counted c.(state) = 2 /\ threads_counted c.(state) <= 2.
Proof.
  assert (exists c : config V2 unit, two_turns (mkConfig ∅ ∅ two_at_work) c /\ threads_counted c.(state) = 2) as (c & Hr & Hc).
  { eexists. split.
    - eapply rtc_l; [apply (steps_call _ _ _ _ 0%nat (io_operation 0 f32_one false (fun _ _ => 0) 0 default_IoParameters 0)); [done|by apply calls_io; lia]|].
      eapply rtc_l; [apply (steps_call _ _ _ _ 1%nat (io_operation 0 f32_one false (fun _ _ => 0) 1 default_IoParameters 0)); [done|by apply calls_io; lia]|].
      do 2 (eapply rtc_l; [eapply (steps_turn _ _ _ _ (mkNow 7 7) 0); reflexivity|]).
      do 2 (eapply rtc_l; [eapply (steps_turn _ _ _ _ (mkNow 7 7) 1); reflexivity|]). apply rtc_refl.
    - reflexivity. }
  exists c. split; [done|]. split; [done|].
  apply (io_threads_counted 0 f32_one false (fun _ _ => 0) default_IoParameters 2 eq two_at_work c); try done.
  - by intros v v' ->.
  - intros t. unfold marked, thread_of, lookup_total, map_lookup_total. cbn.
    destruct t as [|[|t]]; [done..|]. by rewrite lookup_insert_ne, lookup_singleton_ne by lia.
Defined.

End IoCounting.
