(* ===== verification/IoTiming.v ===== *)
(** * The time of an I/O operation

    Under [IoProtocolNormal] an operation whose duration is predicted is put
    where it should end in virtual time, and the scheduler moves it on when it
    takes longer.  This file follows such an operation through the handlers of
    [IoSimulation], the scheduler's corrections of the prediction and the call
    of the manager that ends it. *)
From S2P Require Import Prelude Heap AdaptiblePQueue CxxFloat Timers VirtualTimeline Controllers Statistics ThreadParts.
From S2P Require Import ThreadState ThreadQueue Registries ThreadRegistry ThreadManager SchedulingPass Suspension Handlers ThreadHandlers HandlerLogic.
From S2P Require Import QuickSort PredictionMethods IoPrediction IoSimulation.
Import VexThreadState ThreadManager SchedulingPass Suspension ThreadHandlers HandlerLogic IoSimulation.

Module IoTiming.

(** ** The prediction of a thread

    [s] is a thread that predicted its operation when it was [s0], after [k]
    extensions of the prediction. *)
Record same_prediction (h h' : IoHandler.IoHandler) : Prop := {
  same_last : h'.(IoHandler.lastIoPrediction) = h.(IoHandler.lastIoPrediction);
  same_times : h'.(IoHandler.timesIoPredictionWasAddedToEstimatedTime) = h.(IoHandler.timesIoPredictionWasAddedToEstimatedTime);
}.

Record predicted (k : nat) (s0 s : thread) : Prop := {
  predicted_io : same_prediction (Nat.iter k invalidateIoPrediction (addPredictionToEstimatedRealTime s0)).(ioHandler) s.(ioHandler);
  predicted_time : getEstimatedRealTime s = getEstimatedRealTime (Nat.iter k invalidateIoPrediction (addPredictionToEstimatedRealTime s0));
}.

Lemma extended_same h h' : same_prediction h h' -> (IoHandler.extendPredictionPeriod h').1 = (IoHandler.extendPredictionPeriod h).1 /\
  same_prediction (IoHandler.extendPredictionPeriod h).2 (IoHandler.extendPredictionPeriod h').2.
Proof. intros [Hl Ht]. unfold IoHandler.extendPredictionPeriod. rewrite Hl, Ht. by split; [|split]. Qed.

Lemma predicted_extended k s0 s : predicted k s0 s -> predicted (S k) s0 (invalidateIoPrediction s).
Proof.
  intros [Hi Ht]. set (s1 := Nat.iter k _ _) in *.
  destruct (invalidate_ert s) as [Hi' Ht'], (invalidate_ert s1) as [Hi1 Ht1], (extended_same _ _ Hi) as [He Hs].
  split; cbn [Nat.iter nat_rect]; change (nat_rect _ _ _ k) with s1; [by rewrite Hi', Hi1|rewrite Ht', Ht1; congruence].
Qed.

Lemma predicted_ended k s0 s d : predicted k s0 s ->
  getEstimatedRealTime (updateEstimatedRealTimeAfterIoPrediction d s) = getEstimatedRealTime s0 +ll d.
Proof.
  intros [[Hl Hn] Ht]. rewrite <- (io_prediction_corrected k d s0). set (s1 := Nat.iter k _ _) in *.
  unfold updateEstimatedRealTimeAfterIoPrediction, IoHandler.getTotalTimePredicted. rewrite Hl, Hn.
  unfold getEstimatedRealTime in *. cbn. by rewrite Ht.
Qed.

Section handlers.
Context `{HO : StdHeapOps} `{HH : !StdHeap HO} {T L M : Type} `{HC : Controllers.VirtualTimelineController T} `{HTC : !Controllers.TotalController T}.
Context `{HM : PredictionMethod M} `{HP : Part (IoSim M) L}.
Variable managerId : nat.
Variable gsf : float.
Variable minimizeTimeslotOnNw : bool.

Abbreviation V := (Vex T L).
Abbreviation handler := (proc V).
Abbreviation returns := (@returns V (ThreadHandlers.resume managerId gsf) awake _).
Abbreviation eventually := (@eventually V (ThreadHandlers.resume managerId gsf) awake _).
Implicit Types (t : nat) (v : V) (ks : gmap nat nat).

Lemma with_timeline_timers f t (w w' : World T) : with_timeline f t w = Ok w' -> exists tm, thread_of t w' = set_timers tm (thread_of t w).
Proof. intros ([tm tl]&_&[= <-])%bind_ok. exists tm. exact (thread_of_upd t (set_timers tm) w). Qed.

Lemma updateVT_timers c t (w w' : World T) : updateCurrentThreadVT gsf c t w = Ok w' -> exists tm, thread_of t w' = set_timers tm (thread_of t w).
Proof.
  unfold updateCurrentThreadVT. intros (w1 & E & [= <-])%bind_ok. rewrite thread_of_upd. case_match.
  - unfold locklessUpdateTimeBy in E. case_match; apply with_timeline_timers in E as [tm ->]; rewrite thread_of_upd; by eexists.
  - injection E as <-. by eexists.
Qed.

Section rules.
Context {A : Type} (t : nat) (Q : status V A -> gmap nat nat -> V -> Prop).

Lemma eventually_managed f (g : unit -> handler A) ks v m : getThreadCurrentlyControllingManager (thread_of t v.(world)) = Some m ->
  (forall now, exists w, f now v.(world) = Ok w /\ eventually t Q (Runs (g tt)) ks (set_world w v)) ->
  eventually t Q (Runs (with_manager t f ≫= g)) ks v.
Proof.
  intros Hm Hf. eapply eventually_bind with (R := fun _ ks' v' => eventually t Q (Runs (g tt)) ks' v'); [|by intros []].
  apply eventually_look. unfold controlling. rewrite Hm. cbn [deref]. apply eventually_ret. rewrite <- (bind_ret (act f)).
  apply eventually_act. intros now. destruct (Hf now) as (w & E & He). exists w. split; [done|]. by apply returns_ret.
Qed.

Lemma eventually_assoc {B C} (p : handler B) (f : B -> handler C) (g : C -> handler A) ks v :
  eventually t Q (Runs (p ≫= fun b => f b ≫= g)) ks v -> eventually t Q (Runs ((p ≫= f) ≫= g)) ks v.
Proof. intros He. change (eventually t Q (Runs (bind (bind p f) g)) ks v). rewrite bind_assoc. exact He. Qed.

Lemma eventually_pending f (g : unit -> handler A) ks v :
  (forall x, eventually t Q (Runs (g tt)) ks (set_sim x (set_world (f (sim_of v).(pendingIoCalls) v.(world)).2 v))) ->
  eventually t Q (Runs (on_pending f ≫= g)) ks v.
Proof.
  intros Hg. apply eventually_step. intros now. cbv zeta.
  specialize (Hg (mkIoSim (sim_of v).(predictor) (f (sim_of v).(pendingIoCalls) v.(world)).1)).
  destruct (f _ _) as [n w]. eexists _, _. split; [reflexivity|exact Hg].
Qed.

End rules.

(** ** The start of an operation *)
Context `{HRT : !Controllers.RunningTimers T}.

(** [updateCurrentThreadVT] at [c], as far as the thread goes. *)
Definition charged (c : Z) (s : thread) : thread :=
  upd_timers (fun tm => Timers.set_lastCPUTime c
    (if 0 <? c -ll tm.(Timers.lastCPUTime) then Timers.addLocalTime gsf (c -ll tm.(Timers.lastCPUTime)) tm else tm)) s.

Lemma updateVT_charges c t (w : World T) : exists w', updateCurrentThreadVT gsf c t w = Ok w' /\ w'.(queue) = w.(queue) /\
  thread_of t w' = charged c (thread_of t w).
Proof.
  destruct (updateVT_total gsf c t w) as [w' Hw']. exists w'. split; [done|]. split; [by apply updateVT_same in Hw' as [_ ->]|].
  unfold updateCurrentThreadVT in Hw'. cbv zeta in Hw'. apply bind_ok in Hw' as (w1&E&[= <-]). rewrite thread_of_upd.
  assert (thread_of t w1 = upd_timers (fun tm => if 0 <? c -ll tm.(Timers.lastCPUTime)
    then Timers.addLocalTime gsf (c -ll tm.(Timers.lastCPUTime)) tm else tm) (thread_of t w)) as ->; [|reflexivity].
  unfold upd_timers. set (d := c -ll Timers.lastCPUTime (timers (thread_of t w))) in *. cbv beta.
  destruct (0 <? d); [|injection E as <-; by destruct (thread_of t w)].
  unfold locklessUpdateTimeBy in E. case_match; apply bind_ok in E as ([tm tl]&Hc&[= <-]);
    [apply Controllers.commitNative_timers in Hc as ->|apply Controllers.commitCpu_timers in Hc as ->].
  all: change (thread_of t (set_timeline tl ?x)) with (thread_of t x); rewrite !thread_of_upd; by destruct (thread_of t w).
Qed.

(** A thread whose operation is under way: queued at the time at which it
    should end. *)
Record under_way (k : nat) (s0 : thread) t (w : World T) : Prop := {
  way_predicted : predicted k s0 (thread_of t w);
  way_state : inIoPredictionPhase (thread_of t w) = true;
  way_queued : t ∈ w.(queue);
  way_managed : exists m, getThreadCurrentlyControllingManager (thread_of t w) = Some m;
}.

Lemma set_io_under_way s0 t (w : World T) : t ∉ w.(queue) ->
  (exists m, getThreadCurrentlyControllingManager (thread_of t w) = Some m) ->
  thread_of t w = addPredictionToEstimatedRealTime s0 ->
  exists w', setIoThread false t w = Ok w' /\ under_way 0 s0 t w'.
Proof.
  intros Hq Hm Hs. unfold setIoThread. cbn [setIoAndCheckIfOperationShouldBlockSimulationProgress].
  set (s := thread_of t _). assert (s = thread_of t w) as Hs' by (unfold s, unsetCurrentThreadFromRunningThread; by case_decide).
  clearbody s. rewrite Hs in Hs', Hm.
  destruct (push_total t (upd t (fun _ => setInIo s) (unsetCurrentThreadFromRunningThread t w))) as [w' Hw'].
  { change (t ∉ (unsetCurrentThreadFromRunningThread t w).(queue)). by rewrite unset_queue. }
  exists w'. split; [exact Hw'|]. destruct (push_same _ _ _ Hw') as (Ht & _ & Hin).
  assert (thread_of t w' = setInIo s) as Ho
    by (unfold thread_of; rewrite Ht; exact (thread_of_upd t _ _)).
  subst s. split; [|by rewrite Ho|done|by rewrite Ho]. by rewrite Ho.
Qed.

Lemma under_way_step k s0 t (w w' : World T) : under_way k s0 t w -> w'.(queue) = w.(queue) ->
  same_prediction (thread_of t w).(ioHandler) (thread_of t w').(ioHandler) ->
  getEstimatedRealTime (thread_of t w') = getEstimatedRealTime (thread_of t w) ->
  (thread_of t w').(currentState) = (thread_of t w).(currentState) ->
  getThreadCurrentlyControllingManager (thread_of t w') = getThreadCurrentlyControllingManager (thread_of t w) ->
  under_way k s0 t w'.
Proof.
  intros [[[Hl Hn] Ht] Hs Hq Hm] Eq [El En] Et Es Em. unfold inIoPredictionPhase, in_state in Hs.
  split; [split; [split|]; congruence|unfold inIoPredictionPhase, in_state; by rewrite Es|by rewrite Eq|by rewrite Em].
Qed.

Lemma charged_speed c s : (charged c s).(timers).(Timers.virtualTimeSpeedup) = s.(timers).(Timers.virtualTimeSpeedup).
Proof. unfold charged. cbn. by case_match. Qed.

Lemma returns_start t ks v : ks !! t = None -> t ∉ v.(world).(queue) ->
  (exists m, getThreadCurrentlyControllingManager (thread_of t v.(world)) = Some m) ->
  (thread_of t v.(world)).(ioHandler).(IoHandler.lastIoPrediction) <> 0 ->
  f_ltb f32_one (thread_of t v.(world)).(timers).(Timers.virtualTimeSpeedup) = false ->
  returns t (Normal_onStart managerId gsf t) ks v (fun _ ks' v' => ks' = ks /\
    exists c, under_way 0 (charged c (thread_of t v.(world))) t v'.(world)).
Proof.
  intros Hk Hq [m Hm] Hp Hs. unfold Normal_onStart. apply eventually_locking; [done|].
  eapply eventually_managed; [done|]. intros now. destruct (updateVT_charges (cpu now) t v.(world)) as (w1 & Hw1 & Hq1 & Ht1).
  exists w1. split; [exact Hw1|]. set (s0 := charged (cpu now) (thread_of t v.(world))) in *.
  apply eventually_look. cbn [world set_world]. rewrite Ht1. apply Z.eqb_neq in Hp. 
  change (ioHandler s0) with (ioHandler (thread_of t v.(world))). rewrite Hp. cbn [negb].
  apply eventually_assoc, eventually_act_thread. intros _. apply eventually_assoc, eventually_look.
  cbn [world set_world]. rewrite thread_of_upd, Ht1.
  change (Timers.virtualTimeSpeedup (timers (addPredictionToEstimatedRealTime s0))) with (Timers.virtualTimeSpeedup (timers s0)).
  unfold s0 at 1. rewrite charged_speed, Hs. apply eventually_assoc, eventually_ret.
  set (w2 := upd t _ w1). assert (thread_of t w2 = addPredictionToEstimatedRealTime s0) as Ht2
    by (unfold w2; by rewrite thread_of_upd, Ht1).
  assert (exists m, getThreadCurrentlyControllingManager (thread_of t w2) = Some m) as Hm2 by (rewrite Ht2; by exists m).
  destruct (set_io_under_way s0 t w2) as (w3 & Hw3 & Hu3); [change (t ∉ w1.(queue)); by rewrite Hq1|done..|].
  destruct Hm2 as [m2 Hm2], (way_managed _ _ _ _ Hu3) as [m3 Hm3].
  eapply eventually_managed; [exact Hm2|]. intros _. exists w3. split; [exact Hw3|].
  apply eventually_look. unfold controlling at 1. cbn [world set_world]. rewrite Hm3. apply eventually_ret.
  apply eventually_pending. intros x. cbn [world set_world].
  set (w4 := snd _). assert (under_way 0 s0 t w4) as Hu4 
    by (apply (under_way_step _ _ _ w3); [done|unfold w4, ThreadManager.minimizeSchedulerTimeslot; cbn [snd]; by repeat case_match..]).
  destruct (way_managed _ _ _ _ Hu4) as [m4 Hm4].
  eapply eventually_managed; [exact Hm4|]. intros _. eexists. split; [reflexivity|].
  apply eventually_unlocking; [by rewrite lookup_insert_eq|]. rewrite <- (bind_ret (act_thread _ _)).
  apply eventually_act_thread. intros now'. apply returns_ret. split; [by rewrite delete_insert_id|].
  exists (cpu now). 
  assert (under_way 0 s0 t (conditionalWakeup t w4)) as Hu5.
  { apply (under_way_step _ _ _ w4); [exact Hu4|unfold conditionalWakeup..].
    all: case_match; [by destruct (wakeup_same w4) as (Ht & Hq' & _); unfold thread_of; rewrite ?Ht, ?Hq'|done]. }
  apply (under_way_step _ _ _ _ _ Hu5); cbn [world set_world]; rewrite ?thread_of_upd; done.
Qed.
(** ** While the operation is under way

    Other threads and the scheduler leave the thread where it is, or the
    scheduler finds an operation at the front of the queue. *)
Inductive meanwhile t (w w' : World T) : Prop :=
  | meanwhile_others : thread_of t w' = thread_of t w -> (t ∈ w.(queue) -> t ∈ w'.(queue)) -> meanwhile t w w'
  | meanwhile_scheduler h u : ordered w -> inIoPredictionPhase (thread_of u w) = true ->
      handleIOPerformingThread h u w = Ok w' -> meanwhile t w w'.

Lemma meanwhile_under_way k s0 t (w w' : World T) : under_way k s0 t w -> meanwhile t w w' -> exists k', under_way k' s0 t w'.
Proof.
  intros Hu [Ht Hq|h u Hw Hio Hh].
  { exists k. destruct Hu as [? ? Hin ?]. split; rewrite ?Ht; auto. }
  unfold handleIOPerformingThread in Hh. rewrite Hio in Hh. case_match; [injection Hh as <-; by exists k|].
  case_match.
  { injection Hh as <-. exists k. apply (under_way_step _ _ _ _ _ Hu); [done|..]; cbn; unfold thread_of;
      cbn [threads set_forceMinimumTimeslotSelection set_timesOfMinimumTimeslotForcing upd set_threads]; rewrite lookup_update_thread;
      by case_decide; subst. }
  destruct w.(queue) as [|x q] eqn:Eq; [destruct Hu as [_ _ Hin _]; rewrite Eq in Hin; by apply not_elem_of_nil in Hin|].
  destruct (ThreadQueue.invalidateExpired_spec w.(threads) w.(queue) h.(realNow) x Hw) as (q0 & inv & rest & _ & _ & He); [by rewrite Eq|].
  rewrite Eq in He. destruct (ThreadQueue.invalidateExpiredIoPredictions _ _ _) as [th q']. destruct He as (_ & Hp & He).
  injection Hh as <-. specialize (He t). destruct Hu as [Hpr Hs Hin Hm]. rewrite Eq in Hin. case_decide.
  - exists (S k). assert (thread_of t (set_queue q' (set_threads th w)) = invalidateIoPrediction (thread_of t w)) as Ho by exact He.
    split; [rewrite Ho; by apply predicted_extended|by rewrite Ho|cbn; by rewrite Hp|by rewrite Ho].
  - exists k. assert (thread_of t (set_queue q' (set_threads th w)) = thread_of t w) as Ho by exact He.
    split; [by rewrite Ho..|cbn; by rewrite Hp|by rewrite Ho].
Qed.

(** ** The end of an operation *)
Lemma decide_keeps r t o (w : World T) : getEstimatedRealTime (thread_of t (decideToSuspend r t o w).2) = getEstimatedRealTime (thread_of t w).
Proof.
  unfold decideToSuspend. case_match; [done|]. unfold shouldCurrentThreadSuspend.
  destruct (Scheduling.getAndResetForcedSuspendFlag _) as [forced sched]. repeat case_match; cbn [snd]; by rewrite ?thread_of_upd.
Qed.

Lemma stop_keeps t o k out (w w' : World T) : has_option o SUSPEND_OPT_THREAD_ALREADY_IN_LIST = true -> stop t o k w = Ok (out, w') ->
  getEstimatedRealTime (thread_of t w') = getEstimatedRealTime (thread_of t w).
Proof.
  intros Ho. unfold stop. rewrite Ho. unfold mbind at 1, res_bind at 1. cbv beta iota zeta.
  set (w1 := upd t _ _). assert (getEstimatedRealTime (thread_of t w1) = getEstimatedRealTime (thread_of t w)) as <-.
  { unfold w1. rewrite thread_of_upd. unfold unsetCurrentThreadFromRunningThread. by case_decide. }
  clearbody w1. set (w2 := if has_option o SUSPEND_OPT_DONT_WAKE_UP_SCHEDULER then w1 else unconditionalWakeup w1). assert (thread_of t w2 = thread_of t w1) as <-.
  { unfold w2. case_match; [done|]. destruct (wakeup_same w1) as (Ht & _). unfold thread_of. by rewrite Ht. }
  clearbody w2. intros (u & _ & [= _ <-])%bind_ok. unfold startBlocking. by rewrite thread_of_upd.
Qed.
(** A thread that has ended its operation sleeps in the queue at the time it
    has reached. *)
Definition waits_at time t (x : status V unit) (v : V) : Prop :=
  (exists fr p, x = Sleeps fr p) /\ stopped t v.(world) /\ getEstimatedRealTime (thread_of t v.(world)) = time.

Lemma returns_end k s0 t d ks v : ks !! t = None -> under_way k s0 t v.(world) -> ~ core_free_for t v.(world) ->
  eventually t (fun x _ v' => waits_at (getEstimatedRealTime s0 +ll d) t x v') (Runs (Normal_onEnd managerId gsf minimizeTimeslotOnNw t d)) ks v.
Proof.
  intros Hk Hu Hb. unfold Normal_onEnd. apply eventually_locking; [done|]. apply eventually_act_thread. intros _.
  set (w1 := upd t _ _). assert (under_way k s0 t w1) as Hu1
    by (apply (under_way_step _ _ _ _ _ Hu); unfold w1; rewrite ?thread_of_upd; done).
  pose proof (way_state _ _ _ _ Hu1) as Hs1. unfold inIoPredictionPhase, in_state in Hs1. apply bool_decide_eq_true in Hs1.
  apply eventually_look. cbn [world set_world]. unfold inIoLearningPhase at 1, in_state at 1. rewrite Hs1.
  rewrite bool_decide_eq_false_2 by done. apply eventually_assoc, eventually_look. cbn [world set_world].
  rewrite (way_state _ _ _ _ Hu1). apply eventually_assoc, eventually_act_thread. intros _.
  apply eventually_assoc, eventually_act. intros _. eexists. split; [reflexivity|]. cbn [world set_world].
  set (w2 := upd t _ w1). assert (getEstimatedRealTime (thread_of t w2) = getEstimatedRealTime s0 +ll d) as Ht2
    by (unfold w2; rewrite thread_of_upd; apply (predicted_ended k), Hu1).
  set (w3 := updateRunnableQueue w2). set (o := Z.lor _ _). apply eventually_manager. intros now. cbn [world set_world].
  assert (t ∈ w3.(queue)) as Hq3 by (cbn; unfold ThreadQueue.update; rewrite (AdaptiblePQueue.update_perm _ _); apply Hu).
  assert ((decideToSuspend (real now) t o w3).1 = true) as Hd by (apply busy_suspended; exact Hb).
  destruct (stop_outcome t o [RunAfterBlock] (decideToSuspend (real now) t o w3).2) as (w4 & Hw4 & Hst & _).
  { destruct (decide_same (real now) t o w3) as (_ & -> & _). symmetry. by apply AdaptiblePQueue.find_spec. }
  eexists _, w4. split; [unfold suspend; rewrite suspend_stops; [exact Hw4|exact Hd|done]|].
  apply eventually_now. split; [by eexists _, _|]. split; [exact Hst|]. cbn [world set_world].
  rewrite (stop_keeps t o [RunAfterBlock] _ _ _ eq_refl Hw4), decide_keeps. exact Ht2.
Qed.

(** C12. Under the normal protocol virtual time comes out right however wrong
    the prediction was: a thread that starts an operation for which it has a
    prediction goes into its operation, queued; whatever the other threads do
    meanwhile, and however often the scheduler extends the prediction, when the
    thread ends the operation while another has the core, it stops at exactly
    the time at which it started, its last bit of CPU time included, and the
    duration that the operation really had.  (For threads whose time scaling
    factor is at most 1.) *)
Theorem predicted_io_takes_real_time t ks v : ks !! t = None -> t ∉ v.(world).(queue) ->
  (exists m, getThreadCurrentlyControllingManager (thread_of t v.(world)) = Some m) ->
  (thread_of t v.(world)).(ioHandler).(IoHandler.lastIoPrediction) <> 0 ->
  f_ltb f32_one (thread_of t v.(world)).(timers).(Timers.virtualTimeSpeedup) = false ->
  returns t (onStart managerId gsf t IoProtocolNormal) ks v (fun _ ks1 v1 => ks1 = ks /\ exists c,
    inIoPredictionPhase (thread_of t v1.(world)) = true /\ t ∈ v1.(world).(queue) /\
    forall v2 d, rtc (meanwhile t) v1.(world) v2.(world) -> ~ core_free_for t v2.(world) ->
      eventually t (fun x _ v' => waits_at (getEstimatedRealTime (charged c (thread_of t v.(world))) +ll d) t x v')
        (Runs (onEnd managerId gsf minimizeTimeslotOnNw t IoProtocolNormal d)) ks v2).
Proof.
  intros Hk Hq Hm Hp Hs. eapply returns_mono; [by apply returns_start|]. intros [] ks1 v1 (-> & c & Hu). split; [done|].
  exists c. split; [apply Hu|]. split; [apply Hu|]. intros v2 d Hmw Hb.
  assert (exists k, under_way k (charged c (thread_of t v.(world))) t v2.(world)) as [k Hu2].
  { remember v1.(world) as w1. remember v2.(world) as w2. clear Heqw1 Heqw2 Hb.
    assert (exists k, under_way k (charged c (thread_of t v.(world))) t w1) as Hw1 by (by exists 0%nat).
    clear Hu. induction Hmw as [|w w' w'' Hst _ IH]; [done|]. apply IH.
    destruct Hw1 as [k Hw]. by eapply meanwhile_under_way. }
  by apply (returns_end k).
Qed.
End handlers.

(** ** Witness: the running thread starts an operation predicted to take 5 ns *)
#[local] Existing Instances Controllers.SingleVirtualTimelineController Controllers.single_laws Controllers.single_total Controllers.single_running_timers.
#[local] Instance averages : PredictionMethod CyclicBufferBased.CyclicBufferBased := cyclic_method 0 CyclicBufferBased.AverageCyclicBuffer 16.
#[local] Instance just_io {M} : Part (IoSim M) (IoSim M) := {| part x := x; set_part y _ := y; part_set _ _ := eq_refl |}.

Definition predicting : thread :=
  upd_io (IoHandler.setIoPredictionInfo None 5) (setThreadCurrentlyControllingManager (Some 0%nat) (setRunning (new_VexThreadState 0 7))).

Definition predicting_alone : Vex VirtualTimeline.VirtualTimeline.VirtualTimeline (IoSim CyclicBufferBased.CyclicBufferBased) :=
  mkVex (set_runningThread (Some 1%nat) (new_ThreadManager {[ 1%nat := predicting ]} [] (ThreadRegistry.new_ThreadRegistry 2 false) ∅
    (VirtualTimeline.VirtualTimeline.mkTimeline 0 0) false 0 None)) (mkIoSim (new_GlobalIoPrediction 0) 0).

Lemma predicted_io_takes_real_time_witness :
  HandlerLogic.returns (ThreadHandlers.resume 0 f32_one) awake 1 (onStart (M := CyclicBufferBased.CyclicBufferBased) 0 f32_one 1 IoProtocolNormal) ∅ predicting_alone
    (fun _ ks1 v1 => ks1 = ∅ /\ exists c, inIoPredictionPhase (thread_of 1 v1.(world)) = true /\ 1%nat ∈ v1.(world).(queue) /\
      forall v2 d, rtc (meanwhile 1) v1.(world) v2.(world) -> ~ core_free_for 1 v2.(world) ->
        HandlerLogic.eventually (ThreadHandlers.resume 0 f32_one) awake 1
          (fun x _ v' => waits_at (getEstimatedRealTime (charged f32_one c (thread_of 1 predicting_alone.(world))) +ll d) 1 x v')
          (Runs (onEnd (M := CyclicBufferBased.CyclicBufferBased) 0 f32_one false 1 IoProtocolNormal d)) ∅ v2).
Proof.
  apply (predicted_io_takes_real_time 0 f32_one false 1 ∅ predicting_alone); try done.
  - by intros ?%not_elem_of_nil.
  - by exists 0%nat.
Defined.

End IoTiming.
