(* ===== verification/MethodEvents.v ===== *)
(** * Events of methods

    What the agent reports of instrumented methods,
    src/src/vex/events/MethodEventsBehaviour.cpp and the handlers of
    VexThreadState behind it (threads/ThreadState.cpp): the time of the thread
    is brought up to date, a method with a time scaling factor changes the speed
    of the thread's virtual time, the call goes into the log of the thread, and
    methods that do I/O are simulated.  The logs of threads ([MethodLog]) and
    the simulator ([IoSimulation]) are parts of the state that handlers share;
    methods described by a performance model are left out. *)
From stdpp Require Import functions.
From S2P Require Import Prelude Heap AdaptiblePQueue CxxFloat Timers Controllers Statistics ThreadParts.
From S2P Require Import ThreadState ThreadQueue Registries ThreadRegistry ThreadManager Handlers ThreadHandlers.
From S2P Require Import MethodLog EventLogger QuickSort PredictionMethods IoPrediction IoSimulation.
Import VexThreadState ThreadManager ThreadHandlers IoSimulation.

(** The logs of all threads. *)
Abbreviation Logs P := (nat -> MethodLog * P).

Module MethodEvents.
Section handlers.
Context `{HO : StdHeapOps} {T L P M : Type} `{HC : Controllers.VirtualTimelineController T}.
Context `{HT : Profiling.ThreadMeasures P} `{HL : Part (Logs P) L} `{HM : PredictionMethod M} `{HP : Part (IoSim M) L}.
Variable managerId : nat.
Variable gsf : float.
Variable minimizeTimeslotOnNw : bool.
Variable bytecodeDelay ioBytecodeDelay : Z.

Abbreviation W := (World T).
Abbreviation V := (Vex T L).
Abbreviation handler := (proc V).

Definition log_of (t : nat) (l : L) : MethodLog * P := (part l : Logs P) t.
Definition currentMethodId (t : nat) (l : L) : Z := MethodLog.MethodLog.getCurrentMethodId (log_of t l).1.

(** A step on the log of [t], at the times of its timers. *)
Definition on_log {B} (t : nat) (f : Timers.Timers -> MethodLog * P -> res (B * (MethodLog * P))) : handler B :=
  Step (fun _ v => '(b, s) ← f (thread_of t v.(world)).(timers) (log_of t v.(locks));
    Ok (b, set_locks (set_part (<[t := s]> (part v.(locks) : Logs P)) v.(locks)) v)) Ret.
Definition ask_log {B} (t : nat) (f : MethodLog -> B) : handler B := Step (fun _ v => Ok (f (log_of t v.(locks)).1, v)) Ret.

Section thread.
Context (t : nat).

Definition getThreadTimeBeforeMethodInstrumentation : handler Z := clock (fun now => (now.(cpu) -ll bytecodeDelay)%cxx).
Definition getThreadTimeBeforeIoMethodInstrumentation : handler Z := clock (fun now => (now.(cpu) -ll ioBytecodeDelay)%cxx).

Definition onEntry (methodId : Z) (s : thread) : thread :=
  upd_sched Scheduling.increaseVtfInvocationsSinceLastResume (upd_io (IoHandler.enteringMethod methodId) s).
Definition onExit (methodId : Z) (s : thread) : thread :=
  upd_sched Scheduling.increaseVtfInvocationsSinceLastResume (upd_io (IoHandler.exitingMethod methodId) s).
Definition onIoEntry (possiblyBlocking : bool) (s : thread) : thread :=
  upd_sched Scheduling.increaseVtfInvocationsSinceLastResume
    (upd_io (IoHandler.notifyAboutPossiblyBlockingIo possiblyBlocking) (VexThreadState.setTimeout (-1) s)).

(** The factor of a method takes effect at the normal speed only; the literals
    [1.0] and [0] are floats like the factors. *)
Definition shouldScale (methodTimeScalingFactor : float) (s : thread) : bool :=
  f_eqb s.(timers).(Timers.virtualTimeSpeedup) f32_one && negb (f_eqb methodTimeScalingFactor f32_one)
  && negb (f_eqb methodTimeScalingFactor (f32 0 0)).

(** The entry also asserts that there is a manager. *)
Definition notifyManager (entry : bool) (scalingFactor : float) : handler unit :=
  lock t ;;
  (if entry then check (fun w => bool_decide (controlling t w <> None)) else mret tt) ;;
  m ← look (controlling t);
  deref m ;;
  act (fun _ w => Ok (notifySchedulerForVirtualizedTime t scalingFactor w)) ;;
  unlock t.

Definition onVexMethodEntry (methodId : Z) (methodTimeScalingFactor : float) : handler bool :=
  startingTime ← getThreadTimeBeforeMethodInstrumentation;
  enterAt managerId gsf minimizeTimeslotOnNw t startingTime ;;
  check (fun w => bool_decide (controlling t w <> None)) ;;
  act_thread t (fun _ => onEntry methodId) ;;
  shouldChangeVTFactorOnExit ← look (fun w => shouldScale methodTimeScalingFactor (thread_of t w));
  (if shouldChangeVTFactorOnExit : bool then notifyManager true methodTimeScalingFactor else mret tt) ;;
  on_log t (fun tm s => Ok (Profiling.logMethodEntry methodId shouldChangeVTFactorOnExit tm s)).

(** Whether the method that is left changed the speed: [getShouldResetVTFactor]
    of the current method. *)
Definition resetsSpeed (l : MethodLog) : bool :=
  match l.(currentMethodInfo) with
  | Some i => (nthd l.(methodInfoStorage) i).(MethodCallInfo.shouldResetVTFactor)
  | None => false
  end.

Definition onVexMethodExit (methodId : Z) : handler (option (Profiling.pointer P)) :=
  startingTime ← getThreadTimeBeforeMethodInstrumentation;
  enterAt managerId gsf minimizeTimeslotOnNw t startingTime ;;
  resets ← ask_log t resetsSpeed;
  (if resets : bool then notifyManager false f32_one else mret tt) ;;
  act_thread t (fun _ => onExit methodId) ;;
  on_log t (fun tm s => Profiling.logMethodExit (Profiling.updateExitingMethodInfo methodId tm s.1, s.2)).

(** ** MethodEventsBehaviour *)
Variable methodTimeScalingFactors : gmap Z float.
Variable invalidationPolicy : option ProfilingInvalidationPolicy.policy.
Variable reportIoMethods : bool.
Variable measure_at : Profiling.pointer P -> P -> option PerformanceMeasure.PerformanceMeasure.

(** [defaultTimeScalingFactor] is one. *)
Definition getTimeScalingFactorOfMethod (methodId : Z) : float := default f32_one (methodTimeScalingFactors !! methodId).

Definition afterMethodEntry (methodId : Z) : handler bool :=
  isMethodRecursive ← onVexMethodEntry methodId (getTimeScalingFactorOfMethod methodId);
  onVexExit t ;;
  mret isMethodRecursive.

Definition beforeMethodExit (methodId : Z) : handler bool :=
  methodLog ← onVexMethodExit methodId;
  shouldMethodBeInvalidated ← Step (fun _ v =>
    b ← ProfilingInvalidationPolicy.judge (getCurrentGlobalTime v.(world))
          (pm ← methodLog; measure_at pm (log_of t v.(locks)).2) invalidationPolicy; Ok (b, v)) Ret;
  onVexExit t ;;
  mret shouldMethodBeInvalidated.

(** ** I/O methods *)
Definition onVexIoMethodEntry (invocationPointHashValue : Z) (possiblyBlocking : bool) : handler unit :=
  startingTime ← getThreadTimeBeforeIoMethodInstrumentation;
  enterAt managerId gsf minimizeTimeslotOnNw t startingTime ;;
  act_thread t (fun _ s =>
    upd_io (IoHandler.set_ioInvocationPointHashValue invocationPointHashValue)
      (upd_timers (Timers.set_lastCPUTime startingTime) (onIoEntry possiblyBlocking (set_inVex true s)))).

Definition updateIoCPUTimeTo (startingTime : Z) (s : thread) : thread :=
  upd_io (IoHandler.set_ioCpuTime (startingTime -ll s.(timers).(Timers.lastCPUTime))%cxx) s.

Definition onVexIoMethodExit : handler unit :=
  startingTime ← getThreadTimeBeforeIoMethodInstrumentation;
  act_thread t (fun _ => set_inVex true) ;;
  ignoring ← isIgnoringIo t;
  (if ignoring : bool then updateThreadLocalTimeSinceLastResumeTo gsf t startingTime else mret tt) ;;
  act_thread t (fun _ s => upd_sched Scheduling.increaseVtfInvocationsSinceLastResume
    (upd_io (IoHandler.set_ioFinishedBeforeLogging true) (updateIoCPUTimeTo startingTime s))).

Definition afterIoMethodEntry (ps : IoParameters) (rand methodId invocationPointHashValue : Z) (possiblyBlocking : bool) : handler unit :=
  invalid ← look (fun w => IoHandler.invalidIoInvocationPoint invocationPointHashValue (thread_of t w).(ioHandler));
  if invalid : bool then mret tt
  else
    onVexIoMethodEntry invocationPointHashValue possiblyBlocking ;;
    (if reportIoMethods then on_log t (fun tm s => Ok (Profiling.logMethodEntry methodId false tm s)) ;; mret tt else mret tt) ;;
    startIo managerId gsf currentMethodId t ps rand.

Definition beforeIoMethodExit (ps : IoParameters) (methodId : Z) : handler unit :=
  realTimeValueOnExit ← clock real;
  invalid ← look (fun w => IoHandler.invalidOwnIoInvocationPoint (thread_of t w).(ioHandler));
  if invalid : bool then mret tt
  else
    onVexIoMethodExit ;;
    endIo managerId gsf minimizeTimeslotOnNw currentMethodId t ps realTimeValueOnExit ;;
    on_log t (fun tm s => Ok (tt, (Profiling.updateExitingMethodInfo methodId tm s.1, s.2))) ;;
    (if reportIoMethods then on_log t (fun _ s => Profiling.logMethodExit s) ;; mret tt else mret tt) ;;
    act_thread t (fun now s => upd_timers (Timers.setCpuTimeClockAfterIo now.(cpu) ioBytecodeDelay) (upd_sched Scheduling.exitingVex (set_inVex false s))).

End thread.
End handlers.

(** The factors of methods, from their registration. *)
Definition registerMethodTimeScalingFactor (methodId : Z) (speedup : float) (m : gmap Z float) : gmap Z float :=
  <[methodId := f64_to_f32 speedup]> m.

End MethodEvents.
