(* ===== verification/MethodSpeed.v ===== *)
(** * The speed of a thread in its methods

    A method with a time scaling factor runs the virtual time of its thread at
    that speed.  Seen from outside, a thread has a stack of open methods and the
    speed of the outermost of them that has a factor; this file shows that the
    handlers of [MethodEvents], with the speed in the timers of the thread and a
    mark in the frames of its log, keep to that, and where they do not. *)
From stdpp Require Import functions.
From S2P Require Import Prelude Heap AdaptiblePQueue CxxFloat Timers VirtualTimeline Controllers Statistics ThreadParts.
From S2P Require Import ThreadState ThreadQueue Registries ThreadRegistry ThreadManager Handlers ThreadHandlers HandlerLogic.
From S2P Require Import MethodLog EventLogger QuickSort PredictionMethods IoPrediction IoSimulation MethodEvents.
Import VexThreadState ThreadManager ThreadHandlers HandlerLogic MethodEvents MethodCallInfo.

Module MethodSpeed.

(** ** The stack of open methods *)
Section spec.
Context (factor : Z -> float).

Definition scales (speed : float) (methodId : Z) : bool :=
  f_eqb speed f32_one && negb (f_eqb (factor methodId) f32_one) && negb (f_eqb (factor methodId) (f32 0 0)).

(** The speed at which a thread runs in the methods [st], the innermost in
    front, that runs at [base] outside of them. *)
Fixpoint speed_of (base : float) (st : list Z) : float :=
  match st with
  | [] => base
  | id :: st => if scales (speed_of base st) id then factor id else speed_of base st
  end.

(** Which of them changed the speed. *)
Fixpoint marks (base : float) (st : list Z) : list (Z * bool) :=
  match st with
  | [] => []
  | id :: st => (id, scales (speed_of base st) id) :: marks base st
  end.

Lemma other_speed base st : f_eqb base f32_one = false -> speed_of base st = base.
Proof. intros Hb. induction st as [|id st IH]; cbn; [done|]. unfold scales. by rewrite IH, Hb. Qed.

Lemma unscaled base st : (f_eqb base f32_one = true -> base = f32_one) ->
  f_eqb (speed_of base st) f32_one = true -> speed_of base st = f32_one.
Proof.
  intros Hb. induction st as [|id st IH]; cbn; [done|]. destruct (scales (speed_of base st) id) eqn:Es; [|done].
  unfold scales in Es. intros Hf. rewrite Hf, andb_false_r in Es. done.
Qed.

(** The factor of a method, if it has one that changes the normal speed. *)
Definition own_factor (methodId : Z) : option float :=
  if negb (f_eqb (factor methodId) f32_one) && negb (f_eqb (factor methodId) (f32 0 0)) then Some (factor methodId) else None.

(** That of the outermost of the methods [st] that has one. *)
Fixpoint outermost_factor (st : list Z) : option float :=
  match st with [] => None | id :: st => match outermost_factor st with Some f => Some f | None => own_factor id end end.

Lemma outermost_unlike_one st f : outermost_factor st = Some f -> f_eqb f f32_one = false.
Proof.
  induction st as [|id st IH]; cbn; [done|]. destruct (outermost_factor st); [done|]. unfold own_factor.
  destruct (f_eqb (factor id) f32_one) eqn:E; cbn; [done|]. case_match; congruence.
Qed.

(** The speed is the outermost factor, but only above the normal speed. *)
Lemma speed_of_outermost base st : (f_eqb base f32_one = true -> base = f32_one) ->
  speed_of base st = if f_eqb base f32_one then default base (outermost_factor st) else base.
Proof.
  intros Hb. destruct (f_eqb base f32_one) eqn:E; [|by apply other_speed]. specialize (Hb eq_refl) as ->.
  induction st as [|id st IH]; [done|]. cbn [speed_of outermost_factor]. unfold scales. rewrite IH.
  destruct (outermost_factor st) as [f|] eqn:Ho.
  - change (default f32_one (Some f)) with f. by rewrite (outermost_unlike_one _ _ Ho).
  - change (default f32_one None) with f32_one. rewrite E. unfold own_factor. cbn [andb]. by destruct (_ && _).
Qed.

Lemma marks_other base st : f_eqb base f32_one = false -> marks base st = map (fun id => (id, false)) st.
Proof. intros Hb. induction st as [|id st IH]; cbn; [done|]. unfold scales. by rewrite (other_speed base), Hb, IH. Qed.

(** No method that is open has changed the normal speed. *)
Lemma marks_unscaled st : f_eqb (speed_of f32_one st) f32_one = true -> marks f32_one st = map (fun id => (id, false)) st.
Proof.
  induction st as [|id st IH]; cbn; [done|]. destruct (scales (speed_of f32_one st) id) eqn:Es; [|intros; by rewrite IH].
  unfold scales in Es. intros Hf. by rewrite Hf, andb_false_r in Es.
Qed.

Inductive event := Enter (methodId : Z) | Leave (methodId : Z).

(** The methods that are open after the events, when entries and exits match. *)
Fixpoint opens (es : list event) (st : list Z) : option (list Z) :=
  match es with
  | [] => Some st
  | Enter id :: es => opens es (id :: st)
  | Leave id :: es => match st with id' :: st => if decide (id = id') then opens es st else None | [] => None end
  end.

End spec.

(** ** The log *)
Section log.
Context `{Profiling.ThreadMeasures P} `{HF : !TakesFrames P}.
Implicit Types (l : MethodLog) (p : P).

(** The frames of the stack: method and mark. *)
Definition frame_of (l : MethodLog) (i : nat) : Z * bool :=
  let c := nthd l.(methodInfoStorage) i in (c.(methodId), c.(shouldResetVTFactor)).
Definition frames l : list (Z * bool) := map (frame_of l) l.(methodStack).

Lemma frames_ext l l' : l'.(methodStack) = l.(methodStack) -> (forall i, i ∈ l.(methodStack) -> frame_of l' i = frame_of l i) ->
  frames l' = frames l.
Proof.
  intros Hs Hf. unfold frames. rewrite Hs. apply map_ext_in. intros i Hi. apply Hf. by apply list_elem_of_In.
Qed.

Lemma enters id resets t l p : pool_ok l -> Z.of_nat (length l.(methodInfoStorage)) < 2 ^ 32 - 1 ->
  exists l' p', (Profiling.logMethodEntry id resets t (l, p)).2 = (l', p') /\ pool_ok l' /\
    frames l' = (id, resets) :: frames l /\ (length l'.(methodInfoStorage) <= S (length l.(methodInfoStorage)))%nat.
Proof.
  intros Hok Hlen. pose proof (pool_next _ Hok) as Hn. set (i := Z.to_nat l.(nextMethodInfoToUse)).
  destruct (entry_spec id resets t l p Hok ltac:(lia)) as (l' & p' & Heq & Hok' & Hs & _ & Hl & [Hid _] & Hj). fold i in Hs, Hid, Hj.
  exists l', p'. split; [done|]. split; [done|]. split; [|done].
  unfold frames. rewrite Hs. cbn [map]. f_equal.
  - unfold frame_of. rewrite Hid. f_equal. revert Heq. unfold Profiling.logMethodEntry.
    destruct (takes_frame id t l p) as (info & p1 & -> & _).
    destruct (take_at info l Hok) as (H1 & _ & _ & _ & _ & H6 & _). fold i in H1, H6.
    destruct (takeMethodCallInfo info l) as [i' l1]. cbn in *. subst i'. intros [= <- <-]. cbn.
    rewrite nthd_alter by done. by rewrite decide_True.
  - apply map_ext_in. intros j Hjs. unfold frame_of. rewrite Hj; [done|].
    pose proof (pool_below _ Hok) as Hb. rewrite Forall_forall in Hb. specialize (Hb j). rewrite list_elem_of_In in Hb. specialize (Hb Hjs). subst i. lia.
Qed.

Lemma charged_frame exiting e calling pool j : let pool' := (logTimesOnMethodExit exiting e calling pool).1 in
  (nthd pool' j).(methodId) = (nthd pool j).(methodId) /\ (nthd pool' j).(shouldResetVTFactor) = (nthd pool j).(shouldResetVTFactor).
Proof.
  unfold logTimesOnMethodExit. cbn. destruct calling as [c|]; [|done]. destruct (decide (c < length pool)%nat).
  - rewrite nthd_alter by done. by case_decide; subst.
  - unfold nthd. rewrite list_lookup_alter. case_decide; [|done]. subst. by rewrite (lookup_ge_None_2 pool j) by lia.
Qed.

(** The exit from the innermost method. *)
Context (exits : forall s : MethodLog * P, exists k p, Profiling.getExitingMethodPerformanceMeasure s = Ok (k, p)).

Lemma frames_cons l f fs : frames l = f :: fs -> exists i st, l.(methodStack) = i :: st /\ f = frame_of l i /\ fs = map (frame_of l) st.
Proof. unfold frames. destruct l.(methodStack) as [|i st]; [done|]. intros [= <- <-]. by exists i, st. Qed.

(** [updateExitingMethodInfo] and [logMethodExit]. *)
Definition leave (methodId : Z) (t : Timers.Timers) (s : MethodLog * P) :=
  Profiling.logMethodExit (Profiling.updateExitingMethodInfo methodId t s.1, s.2).

Lemma leaves id t l p fs b : pool_ok l -> frames l = (id, b) :: fs ->
  exists k l' p', leave id t (l, p) = Ok (Some k, (l', p')) /\ pool_ok l' /\ frames l' = fs /\
    length l'.(methodInfoStorage) = length l.(methodInfoStorage).
Proof using exits.
  intros Hok (i & st & Hs & [= Hid Hb] & ->)%frames_cons. unfold leave, Profiling.logMethodExit. cbn [fst snd].
  set (l1 := Profiling.updateExitingMethodInfo id t l). change (methodStack l1) with (methodStack l). rewrite Hs.
  rewrite exitFrom_match by (cbn; congruence). destruct (exits (set_methodStack st l1, p)) as (k & p1 & ->). cbn.
  eexists k, _, _. split; [reflexivity|]. assert (pool_ok (setCurrentMethodInfo (Some i) (set_methodStack (i :: st) l1))) as Hok1.
  { destruct Hok as [Hd Hbel Hn Hw _]. rewrite Hs in Hd, Hbel. by split. }
  split; [by apply exited_pool|]. split; [|by apply length_charged].
  unfold frames. cbn. apply map_ext_in. intros j _. unfold frame_of. cbn -[logTimesOnMethodExit].
  by rewrite !(proj1 (charged_frame _ _ _ _ _)), !(proj2 (charged_frame _ _ _ _ _)).
Qed.

(** An exit from a method further out also leaves those inside of it. *)
Lemma leaves_all id t l p pre b fs : pool_ok l -> id ∉ pre.*1 -> frames l = pre ++ (id, b) :: fs ->
  exists k l' p', leave id t (l, p) = Ok (Some k, (l', p')) /\ pool_ok l' /\ frames l' = fs /\
    length l'.(methodInfoStorage) = length l.(methodInfoStorage).
Proof using HF exits.
  intros Hok Hpre Hf. unfold leave. set (l1 := Profiling.updateExitingMethodInfo id t l).
  assert (exists k l' p', Profiling.logMethodExit (l1, p) = Ok (Some k, (l', p')) /\ frames l' = fs) as (k & l' & p' & E & Hs).
  { unfold Profiling.logMethodExit. cbn [fst]. change (methodStack l1) with (methodStack l).
    unfold frames in Hf. revert pre Hpre Hf. induction l.(methodStack) as [|i st IH]; intros pre Hpre Hf; [by destruct pre|].
    destruct pre as [|[id' b'] pre].
    - injection Hf as Hid _ <-. rewrite exitFrom_match by done.
      destruct (exits (set_methodStack st l1, p)) as (k & p1 & ->). eexists _, _, _. split; [reflexivity|].
      unfold frames. cbn. apply map_ext_in. intros j _. unfold frame_of. cbn -[logTimesOnMethodExit].
      by rewrite !(proj1 (charged_frame _ _ _ _ _)), !(proj2 (charged_frame _ _ _ _ _)).
    - injection Hf as Hid' Hb' Hf. rewrite exitFrom_other.
      + apply IH with pre; [|done]. intros Hin. apply Hpre. by right.
      + cbn. unfold frame_of in Hid'. cbn in Hpre. set_solver. }
  exists k, l', p'. split; [exact E|]. destruct (exit_pool _ _ _ _ _ _ E) as [Hok' Hl]; [by destruct Hok; split|]. by split.
Qed.

End log.
(** ** The handlers *)
Section handlers.
Context `{HO : StdHeapOps} {T L P M : Type} `{HC : Controllers.VirtualTimelineController T}.
Context `{HT : Profiling.ThreadMeasures P} `{HF : !TakesFrames P} `{HL : Part (Logs P) L}.
Variable managerId : nat.
Variable gsf : float.
Variable minimizeTimeslotOnNw : bool.
Variable bytecodeDelay : Z.
Variable methodTimeScalingFactors : gmap Z float.
Variable invalidationPolicy : option ProfilingInvalidationPolicy.policy.
Variable measure_at : Profiling.pointer P -> P -> option PerformanceMeasure.PerformanceMeasure.
Context (exits : forall s : MethodLog * P, exists k p, Profiling.getExitingMethodPerformanceMeasure s = Ok (k, p)).
(** A policy by absolute time can divide by zero or follow a null pointer. *)
Context (relative : forall samples time, invalidationPolicy <> Some (ProfilingInvalidationPolicy.AbsoluteTime samples time)).

Lemma judges g pm : exists b, ProfilingInvalidationPolicy.judge g pm invalidationPolicy = Ok b.
Proof using relative.
  unfold ProfilingInvalidationPolicy.judge. destruct invalidationPolicy as [[]|]; [by eexists..| |by eexists].
  by destruct (relative samplesLimit minimumAcceptableTime).
Qed.

Abbreviation V := (Vex T L).
Abbreviation handler := (proc V).
Abbreviation returns := (@returns V (ThreadHandlers.resume managerId gsf) awake _).
Abbreviation eventually := (@eventually V (ThreadHandlers.resume managerId gsf) awake _).
Abbreviation factor := (getTimeScalingFactorOfMethod methodTimeScalingFactors).
Abbreviation speed_in := (speed_of factor).
Abbreviation marks_in := (marks factor).
Implicit Types (t : nat) (v : V) (ks : gmap nat nat).

Definition speed t v : float := (thread_of t v.(world)).(timers).(Timers.virtualTimeSpeedup).
Definition set_log t (s : MethodLog * P) v : V := set_locks (set_part (<[t := s]> (part v.(locks) : Logs P)) v.(locks)) v.

Lemma log_of_set t s v : log_of t (set_log t s v).(locks) = s.
Proof. unfold log_of, set_log. cbn. rewrite part_set. by rewrite fn_lookup_insert. Qed.

Section rules.
Context {A : Type} (t : nat) (Q : status V A -> gmap nat nat -> V -> Prop).

Lemma eventually_log {B} (f : Timers.Timers -> MethodLog * P -> res (B * (MethodLog * P))) (g : B -> handler A) ks v b s :
  f (thread_of t v.(world)).(timers) (log_of t v.(locks)) = Ok (b, s) ->
  eventually t Q (Runs (g b)) ks (set_log t s v) -> eventually t Q (Runs (on_log t f ≫= g)) ks v.
Proof. intros E Hg. apply eventually_step. intros now. exists b, (set_log t s v). rewrite E. by split. Qed.

Lemma eventually_ask {B} (f : MethodLog -> B) (g : B -> handler A) ks v :
  eventually t Q (Runs (g (f (log_of t v.(locks)).1))) ks v -> eventually t Q (Runs (ask_log t f ≫= g)) ks v.
Proof. intros Hg. apply eventually_step. intros now. eexists _, _. by split. Qed.

Lemma eventually_instrumented (g : Z -> handler A) ks v : (forall z, eventually t Q (Runs (g z)) ks v) ->
  eventually t Q (Runs (getThreadTimeBeforeMethodInstrumentation bytecodeDelay ≫= g)) ks v.
Proof. apply eventually_clock. Qed.

End rules.

(** A thread at work, its log and its speed: [st] are the methods it is in. *)
Record traced t (base : float) (st : list Z) (n : nat) v : Prop := {
  traced_work : at_work t v;
  traced_pool : pool_ok (log_of t v.(locks)).1;
  traced_frames : frames (log_of t v.(locks)).1 = marks_in base st;
  traced_size : (length (log_of t v.(locks)).1.(methodInfoStorage) <= n)%nat;
  traced_speed : speed t v = speed_in base st;
}.

Lemma traced_quiet t base st n v v' : quiet t v v' -> traced t base st n v -> traced t base st n v'.
Proof.
  intros Hq [Hw Hp Hf Hn Hs]. pose proof (quiet_locks _ _ _ Hq) as Hl. split; [by eapply quiet_at_work|by rewrite Hl..|].
  unfold speed. by rewrite (same_speed _ _ (quiet_self _ _ _ Hq)).
Qed.

Lemma notify_thread t f (w : World T) :
  thread_of t (notifySchedulerForVirtualizedTime t f w) = upd_timers (Timers.set_virtualTimeSpeedup f) (thread_of t w).
Proof.
  unfold notifySchedulerForVirtualizedTime, _notifySchedulerForVirtualizedTime, unconditionalWakeup.
  destruct (schedulerWaitingForTimeslotExpiry _); exact (thread_of_upd t (upd_timers (Timers.set_virtualTimeSpeedup f)) w).
Qed.

(** The manager is told of a new speed. *)
Lemma returns_notify t entry f ks v : at_work t v -> ks !! t = None ->
  returns t (notifyManager t entry f) ks v (fun _ ks' v' => ks' = ks /\ at_work t v' /\ v'.(locks) = v.(locks) /\ speed t v' = f).
Proof.
  intros Hw Hk. unfold notifyManager. apply eventually_locking; [done|].
  assert (returns t (if entry then check (fun w => bool_decide (controlling t w <> None)) else mret tt) (<[t:=t]> ks) v
    (fun _ ks' v' => ks' = <[t:=t]> ks /\ v' = v)) as Hc.
  { destruct entry; [|by apply returns_ret]. rewrite <- (bind_ret (check _)). apply eventually_check; [by apply at_work_controlled|].
    by apply returns_ret. }
  eapply eventually_bind; [exact Hc|]. intros [] ks1 v1 [-> ->]. apply eventually_look.
  destruct Hw as [Hr [m Hm]]. unfold controlling at 1. rewrite Hm. cbn [deref]. apply eventually_ret.
  apply eventually_act. intros now. eexists. split; [reflexivity|]. rewrite <- (bind_ret (unlock t)).
  apply eventually_unlocking; [by rewrite lookup_insert_eq|]. apply returns_ret.
  split; [by rewrite delete_insert_id|].
  set (w' := notifySchedulerForVirtualizedTime t f (world v)).
  unfold at_work, speed. cbn. fold w'. unfold w'. rewrite notify_thread. split; [split; [exact Hr|by exists m]|done].
Qed.

Lemma returns_vex_exit t ks v : at_work t v -> returns t (onVexExit t) ks v (fun _ ks' v' => ks' = ks /\ quiet t v v').
Proof.
  intros Hw. rewrite <- (bind_ret (onVexExit t)). apply eventually_act_thread. intros now. apply returns_ret.
  split; [done|]. apply quiet_act; [reflexivity|by split].
Qed.

(** Entering a method. *)
Lemma returns_enter t base st n id ks v : (f_eqb base f32_one = true -> base = f32_one) ->
  traced t base st n v -> ks !! t = None -> Z.of_nat n < 2 ^ 32 - 1 ->
  returns t (afterMethodEntry managerId gsf minimizeTimeslotOnNw bytecodeDelay t methodTimeScalingFactors id) ks v
    (fun _ ks' v' => ks' = ks /\ traced t base (id :: st) (S n) v').
Proof using HF.
  intros Hbase Htr Hk Hn. eapply eventually_bind with (R := fun _ ks' v' => ks' = ks /\ traced t base (id :: st) (S n) v').
  - apply eventually_instrumented. intros z. eapply eventually_bind; [apply returns_enterAt, (traced_work _ _ _ _ _ Htr)|].
    intros [] ks1 v1 (_ & -> & Hq1). apply (traced_quiet _ _ _ _ _ _ Hq1) in Htr. clear v Hq1.
    apply eventually_check; [apply at_work_controlled, (traced_work _ _ _ _ _ Htr)|].
    apply eventually_act_thread. intros now. set (v2 := set_world _ _).
    assert (quiet t v1 v2) as Hq2 by (by apply quiet_act; [reflexivity|by split]).
    apply (traced_quiet _ _ _ _ _ _ Hq2) in Htr. clearbody v2. clear v1 Hq2.
    apply eventually_look. unfold shouldScale. fold (speed t v2). rewrite (traced_speed _ _ _ _ _ Htr).
    change (f_eqb (speed_in base st) f32_one && negb (f_eqb (factor id) f32_one) && negb (f_eqb (factor id) (f32 0 0)))
      with (scales factor (speed_in base st) id).
    set (resets := scales _ _ _).
    assert (returns t (if resets then notifyManager t true (factor id) else mret tt) ks v2 (fun _ ks' v' =>
      ks' = ks /\ at_work t v' /\ v'.(locks) = v2.(locks) /\ speed t v' = speed_in base (id :: st))) as Hnotify.
    { cbn [speed_of]. fold resets. destruct resets; [apply returns_notify; [apply (traced_work _ _ _ _ _ Htr)|done]|].
      apply returns_ret. split_and!; [done|apply (traced_work _ _ _ _ _ Htr)|done|apply (traced_speed _ _ _ _ _ Htr)]. }
    eapply eventually_bind; [exact Hnotify|]. intros [] ks3 v3 (-> & Hw3 & Hl3 & Hs3).
    rewrite <- (bind_ret (on_log _ _)). destruct Htr as [_ Hp Hf Hlen _]. rewrite <- Hl3 in Hp, Hf, Hlen.
    destruct (log_of t v3.(locks)) as [l p] eqn:El. cbn [fst] in *.
    destruct (enters id resets (thread_of t v3.(world)).(timers) l p Hp ltac:(lia)) as (l' & p' & Heq & Hp' & Hf' & Hlen').
    eapply eventually_log; [rewrite El; f_equal; apply surjective_pairing|]. rewrite Heq.
    apply returns_ret. split; [done|]. split; rewrite ?log_of_set; cbn [fst]; [exact Hw3|done| |lia|exact Hs3].
    rewrite Hf', Hf. done.
  - intros r ks1 v1 [-> Htr1]. eapply eventually_bind; [apply returns_vex_exit, (traced_work _ _ _ _ _ Htr1)|].
    intros [] ks2 v2 [-> Hq]. apply returns_ret. split; [done|by eapply traced_quiet].
Qed.

Lemma resets_top l id b fs : pool_ok l -> frames l = (id, b) :: fs -> resetsSpeed l = b.
Proof.
  intros Hok (i & st & Hs & [= _ Hb] & _)%frames_cons. unfold resetsSpeed. rewrite (pool_current _ Hok), Hs. by symmetry.
Qed.

(** Leaving the method [id], and with it those that the log then drops. *)
Lemma returns_leave t base top st n id fs ks v : traced t base (top :: st) n v -> ks !! t = None ->
  (forall tm, exists k l p, leave id tm (log_of t v.(locks)) = Ok (Some k, (l, p)) /\ pool_ok l /\ frames l = fs /\
    length l.(methodInfoStorage) = length (log_of t v.(locks)).1.(methodInfoStorage)) ->
  returns t (beforeMethodExit managerId gsf minimizeTimeslotOnNw bytecodeDelay t invalidationPolicy measure_at id) ks v
    (fun _ ks' v' => ks' = ks /\ at_work t v' /\ pool_ok (log_of t v'.(locks)).1 /\ frames (log_of t v'.(locks)).1 = fs /\
      (length (log_of t v'.(locks)).1.(methodInfoStorage) <= n)%nat /\
      speed t v' = if scales factor (speed_in base st) top then f32_one else speed_in base (top :: st)).
Proof using relative.
  intros Htr Hk Hleave. set (resets := scales _ _ _).
  eapply eventually_bind with (R := fun _ ks' v' => ks' = ks /\ at_work t v' /\ pool_ok (log_of t v'.(locks)).1 /\
    frames (log_of t v'.(locks)).1 = fs /\ (length (log_of t v'.(locks)).1.(methodInfoStorage) <= n)%nat /\
    speed t v' = if resets then f32_one else speed_in base (top :: st)).
  - apply eventually_instrumented. intros z. eapply eventually_bind; [apply returns_enterAt, (traced_work _ _ _ _ _ Htr)|].
    intros [] ks1 v1 (_ & -> & Hq1). rewrite <- (quiet_locks _ _ _ Hq1) in Hleave.
    apply (traced_quiet _ _ _ _ _ _ Hq1) in Htr. clear v Hq1. destruct Htr as [Hw Hp Hf Hn Hs].
    apply eventually_ask. rewrite (resets_top _ _ _ _ Hp Hf). fold resets.
    assert (returns t (if resets then notifyManager t false f32_one else mret tt) ks v1 (fun _ ks' v' =>
      ks' = ks /\ at_work t v' /\ v'.(locks) = v1.(locks) /\ speed t v' = if resets then f32_one else speed_in base (top :: st))) as Hnotify.
    { destruct resets; [by apply returns_notify|by apply returns_ret]. }
    eapply eventually_bind; [exact Hnotify|]. intros [] ks2 v2 (-> & Hw2 & Hl2 & Hs2).
    apply eventually_act_thread. intros now. set (v3 := set_world _ _).
    assert (quiet t v2 v3) as Hq3 by (by apply quiet_act; [reflexivity|by split]).
    assert (speed t v3 = speed t v2) as Hs3 by apply (same_speed _ _ (quiet_self _ _ _ Hq3)).
    apply (quiet_at_work _ _ _ Hq3) in Hw2. assert (v3.(locks) = v1.(locks)) as Hl3 by (by rewrite (quiet_locks _ _ _ Hq3)).
    rewrite <- Hs3 in Hs2. clearbody v3. clear v2 Hl2 Hq3 Hs3.
    rewrite <- (bind_ret (on_log _ _)). rewrite <- Hl3 in Hleave, Hn.
    destruct (Hleave (thread_of t v3.(world)).(timers)) as (k & l' & p' & Heq & Hp' & Hf' & Hlen').
    eapply eventually_log; [exact Heq|]. apply returns_ret. rewrite log_of_set. cbn [fst]. by rewrite Hlen'.
  - intros pm ks1 v1 [-> H1]. apply eventually_step. intros now.
    match goal with |- context [ProfilingInvalidationPolicy.judge ?g ?m ?q] => destruct (judges g m) as [b ->] end.
    exists b, v1. split; [done|]. eapply eventually_bind; [apply returns_vex_exit, (proj1 H1)|].
    intros [] ks2 v2 [-> Hq]. apply returns_ret. rewrite (quiet_locks _ _ _ Hq). destruct H1 as (Hw & Hp & Hf & Hn & Hs).
    split_and!; [done|by eapply quiet_at_work|done..|]. unfold speed. by rewrite (same_speed _ _ (quiet_self _ _ _ Hq)).
Qed.

Lemma returns_leave_top t base id st n ks v : (f_eqb base f32_one = true -> base = f32_one) ->
  traced t base (id :: st) n v -> ks !! t = None ->
  returns t (beforeMethodExit managerId gsf minimizeTimeslotOnNw bytecodeDelay t invalidationPolicy measure_at id) ks v
    (fun _ ks' v' => ks' = ks /\ traced t base st n v').
Proof using exits relative.
  intros Hbase Htr Hk. eapply returns_mono; [eapply (returns_leave t base id st n id (marks_in base st)); [done..|]|].
  - intros tm. destruct (log_of t v.(locks)) as [l p] eqn:El. pose proof (traced_pool _ _ _ _ _ Htr) as Hp.
    pose proof (traced_frames _ _ _ _ _ Htr) as Hf. rewrite El in Hp, Hf. cbn [fst] in *.
    destruct (leaves exits id tm l p _ _ Hp Hf) as (k & l' & p' & ?). by exists k, l', p'.
  - intros b ks' v' (-> & Hw & Hp & Hf & Hn & Hs). split; [done|]. split; try done. rewrite Hs. cbn [speed_of].
    destruct (scales factor (speed_in base st) id) eqn:Es; [|done]. symmetry. apply unscaled; [done|].
    unfold scales in Es. by do 2 apply andb_true_iff in Es as [Es _].
Qed.

(** ** Runs *)
Definition on_event (t : nat) (e : event) : handler bool :=
  match e with
  | Enter id => afterMethodEntry managerId gsf minimizeTimeslotOnNw bytecodeDelay t methodTimeScalingFactors id
  | Leave id => beforeMethodExit managerId gsf minimizeTimeslotOnNw bytecodeDelay t invalidationPolicy measure_at id
  end.

Fixpoint run (t : nat) (es : list event) : handler unit :=
  match es with [] => mret tt | e :: es => on_event t e ;; run t es end.

Lemma run_traced t base es st st' n ks v : (f_eqb base f32_one = true -> base = f32_one) ->
  traced t base st n v -> ks !! t = None -> opens es st = Some st' -> Z.of_nat (n + length es) < 2 ^ 32 ->
  returns t (run t es) ks v (fun _ ks' v' => ks' = ks /\ traced t base st' (n + length es) v').
Proof using HF exits relative.
  intros Hbase. revert st n v. induction es as [|[id|id] es IH]; intros st n v Htr Hk Ho Hn; cbn in Ho.
  - injection Ho as <-. apply returns_ret. split; [done|]. by rewrite Nat.add_0_r.
  - cbn [length] in *. eapply eventually_bind; [apply (returns_enter t base st n id); [done..|lia]|].
    intros b ks1 v1 [-> Htr1]. replace (n + S (length es))%nat with (S n + length es)%nat by lia. apply IH with (id :: st); [done..|lia].
  - destruct st as [|id' st]; [done|]. case_decide; [subst id'|done]. cbn [length] in *.
    eapply eventually_bind; [apply (returns_leave_top t base id st n); done|].
    intros b ks1 v1 [-> Htr1]. replace (n + S (length es))%nat with (S n + length es)%nat by lia.
    apply IH with st; [|done..|lia]. destruct Htr1 as [????]. by split; [..|lia|].
Qed.

(** A thread that is in no method. *)
Record fresh t v : Prop := {
  fresh_work : at_work t v;
  fresh_pool : pool_ok (log_of t v.(locks)).1;
  fresh_stack : (log_of t v.(locks)).1.(methodStack) = [];
}.

Lemma marks_methods base st : (marks_in base st).*1 = st.
Proof. induction st as [|id st IH]; cbn; [done|]. by rewrite IH. Qed.

(** C23. While a thread that ran at the normal speed enters and leaves methods
    in matching order, its log has the methods that it is in, and its virtual
    time runs at the speed of the outermost of them that has a time scaling
    factor, or at the normal speed when none has; one that ran at another speed
    keeps that in all its methods.  The handlers return, whatever the clocks
    say.  This is for threads whose exits find a measure ([exits]: measures by
    method do, stack traces need not), and for policies of invalidation other
    than that by absolute time ([relative]). *)
Theorem speed_of_open_methods t base es st ks v : (f_eqb base f32_one = true -> base = f32_one) ->
  fresh t v -> speed t v = base -> ks !! t = None -> opens es [] = Some st ->
  Z.of_nat (length (log_of t v.(locks)).1.(methodInfoStorage) + length es) < 2 ^ 32 ->
  returns t (run t es) ks v (fun _ ks' v' => ks' = ks /\ at_work t v' /\ (frames (log_of t v'.(locks)).1).*1 = st /\
    speed t v' = if f_eqb base f32_one then default base (outermost_factor factor st) else base).
Proof using HF exits relative.
  intros Hb [Hw Hp Hst] Hs Hk Ho Hn. eapply returns_mono; [eapply (run_traced t base es [] st); [done| |done..]|].
  - split; [done..| | |done]; [|reflexivity]. unfold frames. by rewrite Hst.
  - intros [] ks' v' [-> [Hw' _ Hf' _ Hs']]. split_and!; [done..| |].
    + by rewrite Hf', marks_methods.
    + by rewrite Hs', speed_of_outermost.
Qed.

(** C24. A thread that began at the normal speed is in the methods [top],
    [pre], [id] and [below], and an exception leaves it in [below], past all the
    others at once.  When one of the methods that it leaves had set the speed,
    none of [below] did, and the innermost one was not the one that did, the
    speed stays for good: whatever the thread enters and leaves from then on,
    its virtual time runs at the speed of the method that it left.  (When one of
    [below] had set the speed, that one resets it at its exit; when none had,
    later methods set it as ever.) *)
Theorem unwound_speed_sticks t es0 top pre id below es st ks v : fresh t v -> speed t v = f32_one -> ks !! t = None ->
  opens es0 [] = Some (top :: pre ++ id :: below) -> id ∉ top :: pre ->
  f_eqb (speed_in f32_one below) f32_one = true -> scales factor (speed_in f32_one (pre ++ id :: below)) top = false ->
  f_eqb (speed_in f32_one (top :: pre ++ id :: below)) f32_one = false -> opens es below = Some st ->
  Z.of_nat (length (log_of t v.(locks)).1.(methodInfoStorage) + length es0 + length es) < 2 ^ 32 ->
  returns t (run t es0 ;; on_event t (Leave id) ;; run t es) ks v (fun _ ks' v' => ks' = ks /\
    (frames (log_of t v'.(locks)).1).*1 = st /\ speed t v' = speed_in f32_one (top :: pre ++ id :: below)).
Proof using HF exits relative.
  intros [Hw Hp Hst] Hs Hk Ho Hid Hbelow Htop Hspeed Ho' Hn. set (open := top :: pre ++ id :: below) in *. set (base := speed_in f32_one open) in *.
  eapply eventually_bind; [apply (run_traced t f32_one es0 [] open (length (log_of t v.(locks)).1.(methodInfoStorage))); [done| |done..|lia]|].
  { split; [done..| | |done]; [|reflexivity]. unfold frames. by rewrite Hst. }
  intros [] ks1 v1 [-> Htr]. destruct (log_of t v1.(locks)) as [l p] eqn:El. pose proof (traced_pool _ _ _ _ _ Htr) as Hp1.
  pose proof (traced_frames _ _ _ _ _ Htr) as Hf1. rewrite El in Hp1, Hf1. cbn [fst] in *.
  assert (exists fs b, marks_in f32_one open = fs ++ (id, b) :: marks_in base below /\ fs.*1 = top :: pre) as (fs & b & Hmarks & Hfs).
  { unfold open. rewrite app_comm_cons, (marks_other _ base), <- (marks_unscaled factor below) by done.
    generalize (top :: pre). induction l0 as [|i l0 IH]; cbn; [by eexists [], _|].
    destruct IH as (fs & b & -> & Hfs). exists ((i, scales factor (speed_in f32_one (l0 ++ id :: below)) i) :: fs), b. by rewrite <- Hfs. }
  eapply eventually_bind; [eapply (returns_leave t f32_one top (pre ++ id :: below) _ id (marks_in base below)); [exact Htr|done|]|].
  { intros tm. rewrite El. destruct (leaves_all exits id tm l p fs b (marks_in base below) Hp1) as (k & l' & p' & ?); [by rewrite Hfs|congruence|].
    by exists k, l', p'. }
  intros [] ks2 v2 (-> & Hw2 & Hp2 & Hf2 & Hn2 & Hs2); rewrite Htop in Hs2; fold open base in Hs2.
  all: eapply returns_mono; [eapply (run_traced t base es below st); [congruence| |done..|]|].
  all: try (split; [done..|exact Hn2|by rewrite Hs2, other_speed]). all: try lia.
  all: intros [] ks' v' [-> [_ _ Hf' _ Hs']]; split_and!; [done|by rewrite Hf', marks_methods|].
  all: by rewrite Hs', other_speed.
Qed.

End handlers.

(** ** Witnesses: a method that runs twice as slowly *)
#[local] Existing Instances Controllers.SingleVirtualTimelineController MethodMeasures.methodMeasures.

Lemma measures_exit (s : MethodLog * MethodMeasures.Measures) :
  exists (k : Profiling.pointer MethodMeasures.Measures) p, Profiling.getExitingMethodPerformanceMeasure s = Ok (k, p).
Proof. cbn. unfold MethodMeasures.getExitingMethodPerformanceMeasure. case_match; by eexists _, _. Qed.

#[local] Instance just_logs {P} : Part (Logs P) (Logs P) := {| part x := x; set_part y _ := y; part_set _ _ := eq_refl |}.

Definition slow : gmap Z float := {[ 2 := f32 2 0 ]}.

Definition worker : thread :=
  setThreadCurrentlyControllingManager (Some 0%nat) (setRunning (new_VexThreadState 0 7)).

Definition outside : Vex VirtualTimeline.VirtualTimeline.VirtualTimeline (Logs MethodMeasures.Measures) :=
  mkVex (new_ThreadManager {[ 1%nat := worker ]} [] (ThreadRegistry.new_ThreadRegistry 2 false) ∅
    (VirtualTimeline.VirtualTimeline.mkTimeline 0 0) false 0 None) (fun _ => (new_MethodLog, ∅)).

Lemma outside_fresh : fresh 1 outside.
Proof. split; [by split; [|exists 0%nat]|apply new_pool_ok|done]. Qed.

Abbreviation slow_run := (run 0 f32_one false 5 slow None (fun k (p : MethodMeasures.Measures) => p !! (k : Z)) 1).

Lemma speed_of_open_methods_witness :
  fresh 1 outside /\ HandlerLogic.returns (ThreadHandlers.resume 0 f32_one) awake 1 (slow_run [Enter 1; Enter 2; Enter 3; Leave 3]) ∅ outside
    (fun _ ks' v' => ks' = ∅ /\ at_work 1 v' /\ (frames (log_of 1 v'.(locks)).1).*1 = [2; 1] /\ speed 1 v' = f32 2 0).
Proof.
  split; [apply outside_fresh|]. eapply returns_mono.
  - apply (speed_of_open_methods 0 f32_one false 5 slow None) with (base := f32_one) (es := [Enter 1; Enter 2; Enter 3; Leave 3]) (st := [2; 1]);
      try done; [apply measures_exit|apply outside_fresh].
  - intros [] ks' v' (Hk & Hw & Hf & Hs). split; [exact Hk|]. split; [exact Hw|]. split; [exact Hf|]. rewrite Hs. by vm_compute.
Defined.

Lemma unwound_speed_sticks_witness :
  speed_of (getTimeScalingFactorOfMethod slow) f32_one [3; 2; 1] = f32 2 0 /\
  HandlerLogic.returns (ThreadHandlers.resume 0 f32_one) awake 1
    (slow_run [Enter 1; Enter 2; Enter 3] ;; on_event 0 f32_one false 5 slow None (fun k (p : MethodMeasures.Measures) => p !! (k : Z)) 1 (Leave 1) ;; slow_run [])
    ∅ outside (fun _ ks' v' => ks' = ∅ /\ (frames (log_of 1 v'.(locks)).1).*1 = [] /\
      speed 1 v' = speed_of (getTimeScalingFactorOfMethod slow) f32_one [3; 2; 1]).
Proof.
  split; [by vm_compute|]. apply (unwound_speed_sticks 0 f32_one false 5 slow None _ measures_exit) with (id := 1) (pre := [2]) (below := []); try done.
  - apply outside_fresh.
  - by apply (bool_decide_eq_true (1 ∉ [3; 2])).
Defined.

End MethodSpeed.
