(* ===== verification/LooseParallel.v ===== *)
(** * The loose parallel thread manager

    The manager of a core with loose scheduling,
    src/src/vex/scheduler/LooseParallelThreadManager.cpp.  It replaces methods
    of [ThreadManager] for threads whose time is scaled: such a thread stays in
    the queue while it runs, a timeslot ahead of its time, as a barrier that
    keeps the threads after it from running.  The calls that a thread makes on
    its manager are those of the base class over the replaced methods. *)
From Stdlib Require Import Ascii.
From S2P Require Import Prelude Heap AdaptiblePQueue CxxFloat Timers VirtualTimeline.
From S2P Require Import Controllers Statistics ThreadParts ThreadState ThreadQueue.
From S2P Require Import ThreadRegistry ThreadManager SchedulingPass Suspension.
Import VexThreadState ThreadManager SchedulingPass Suspension.

Module LooseParallelThreadManager.
Section loose.
Context `{HO : StdHeapOps} {T : Type} `{HC : Controllers.VirtualTimelineController T}.
Variable managerId : nat.
Variable gsf : float.
Implicit Types w : World T.

Definition isScaled (s : thread) : bool := negb (ThreadQueue.hasUnitScalingFactor s).

(** *** The barrier *)
Definition setBarrier (t : nat) (w : World T) : World T :=
  upd t (upd_timers (Timers.setSynchronizationBarrierTime w.(schedulerTimeslot))) w.
Definition clearBarrier (t : nat) (w : World T) : World T :=
  upd t (upd_timers (Timers.clearSynchronizationBarrierTime w.(schedulerTimeslot))) w.

Definition locklessUpdateTimeBy (timeDiff : Z) (t : nat) (w : World T) : res (World T) :=
  let w := if isScaled (thread_of t w) then clearBarrier t w else w in
  let w := upd t (upd_timers (Timers.addLocalTime gsf timeDiff)) w in
  if isNativeWaiting (thread_of t w)
  then with_timeline Controllers.commitNativeWaitingProgress t w
  else with_timeline Controllers.commitCpuTimeProgress t w.

(** [updateCurrentThreadVT] and [setCurrentThreadVT] over it. *)
Definition updateCurrentThreadVT (cpuNow : Z) (t : nat) (w : World T) : res (World T) :=
  let timeDiff := cpuNow -ll (thread_of t w).(timers).(Timers.lastCPUTime) in
  w ← (if 0 <? timeDiff then locklessUpdateTimeBy timeDiff t w else Ok w);
  Ok (upd t (upd_timers (Timers.set_lastCPUTime cpuNow)) w).

Definition setCurrentThreadVT (startingTime : Z) (t : nat) (w : World T) : res (World T) :=
  let timeDiff := startingTime -ll (thread_of t w).(timers).(Timers.lastCPUTime) in
  if 0 <? timeDiff then locklessUpdateTimeBy timeDiff t w else Ok w.

(** *** States of threads *)
Definition setSuspendedAndPushToRunnables (t : nat) (w : World T) : res (World T) :=
  let w := unsetCurrentThreadFromRunningThread t w in
  if isScaled (thread_of t w) then
    let w := clearBarrier t w in
    let s := thread_of t w in
    let w := upd t VexThreadState.setSuspended w in
    if isNativeWaiting s || isSuspended s || isWaiting s then pushIntoRunnableQueue t w
    else Ok (updateRunnableQueue w)
  else pushIntoRunnableQueue t (upd t VexThreadState.setSuspended w).

Definition setTimedWaitingThread (t : nat) (w : World T) : res (World T) :=
  let w := upd t setWaiting (unsetCurrentThreadFromRunningThread t w) in
  if 0 <? getTimeout (thread_of t w) then pushIntoRunnableQueue t w else Ok w.

(** [setRunningThread], given what suspends the thread again. *)
Definition setRunningThread_with (suspend : nat -> Z -> World T -> res (outcome * World T)) (t : nat) (w : World T)
    : res (outcome * World T) :=
  let w := upd t (VexThreadState.setAwaken false) w in
  let '(changed, w) := changeThreadStateToRunning managerId t w in
  if changed : bool then
    w ← with_timeline Controllers.updateResumingSuspendedThreadTimestamp t w;
    w ← (if isScaled (thread_of t w) then
           let w := setBarrier t w in
           if ThreadQueue.find w.(queue) t then Ok (updateRunnableQueue w) else pushIntoRunnableQueue t w
         else Ok w);
    Ok (Returns, w)
  else
    suspend t (Z.lor (Z.lor SUSPEND_OPT_FORCE_SUSPEND SUSPEND_OPT_DONT_UPDATE_THREAD_TIME)
                 (if ThreadQueue.find w.(queue) t then SUSPEND_OPT_THREAD_ALREADY_IN_LIST else 0)) w.

(** [suspendCurrentThread] of the base class over the methods above. *)
Fixpoint suspendCurrentThread (fuel : nat) (cpuNow realNow : Z) (t : nat) (startingTime options : Z) (w : World T)
    : res (outcome * World T) :=
  match fuel with
  | O => Err OutOfFuel
  | S fuel =>
    let update := negb (has_option options SUSPEND_OPT_DONT_UPDATE_THREAD_TIME) in
    w ← (if update then
           if startingTime =? 0 then updateCurrentThreadVT cpuNow t w else setCurrentThreadVT startingTime t w
         else Ok w);
    let '(suspend, w) := decideToSuspend realNow t options w in
    if suspend : bool then
      w ← (if has_option options SUSPEND_OPT_THREAD_ALREADY_IN_LIST
           then Ok (upd t VexThreadState.setSuspended (unsetCurrentThreadFromRunningThread t w))
           else setSuspendedAndPushToRunnables t w);
      let w := if has_option options SUSPEND_OPT_DONT_WAKE_UP_SCHEDULER then w else unconditionalWakeup w in
      guard_assert (negb (wasAwaken (thread_of t w))) ;;
      Ok (BlockedAt (RunAfterBlock ::
                       if update && (startingTime =? 0) then [UpdateCpuTimeClock] else []),
          startBlocking t w)
    else if decide (w.(runningThread) = Some t) then Ok (Returns, w)
    else
      let w := if has_option options SUSPEND_OPT_THREAD_ALREADY_IN_LIST then eraseFromRunnables t w else w in
      setRunningThread_with (fun t opts => suspendCurrentThread fuel cpuNow realNow t 0 opts) t w
  end.

Definition setRunningThread (cpuNow realNow : Z) (t : nat) (w : World T) : res (outcome * World T) :=
  setRunningThread_with (fun t opts => suspendCurrentThread 1 cpuNow realNow t 0 opts) t w.

Definition suspend (cpuNow realNow : Z) (t : nat) (startingTime options : Z) (w : World T) : res (outcome * World T) :=
  suspendCurrentThread 2 cpuNow realNow t startingTime options w.

(** *** The speed of a thread changes

    A thread whose speed is set is made running again, which puts its barrier
    up; a call that blocks there notifies the scheduler when it goes on. *)
Definition afterSpeedChange (t : nat) (w : World T) : res (World T) :=
  match getThreadCurrentlyControllingManager (thread_of t w) with
  | Some _ => Ok (_notifySchedulerForVirtualizedTime w)
  | None => Err NullDereference
  end.

Definition notifySchedulerForVirtualizedTime (cpuNow realNow : Z) (t : nat) (scalingFactor : float) (w : World T)
    : res (outcome * World T) :=
  if f_eqb scalingFactor f32_one then
    let w := eraseFromRunnables t (upd t (upd_timers (Timers.set_virtualTimeSpeedup f32_one)) w) in
    w ← afterSpeedChange t (clearBarrier t w); Ok (Returns, w)
  else
    '(o, w) ← setRunningThread cpuNow realNow t (upd t (upd_timers (Timers.set_virtualTimeSpeedup scalingFactor)) w);
    match o with
    | Returns => w ← afterSpeedChange t w; Ok (Returns, w)
    | BlockedAt k => Ok (BlockedAt k, w)
    end.

(** *** What the scheduler does with the running thread *)
Definition setSuspended (t : nat) (w : World T) : res (World T) :=
  let w := unsetCurrentThreadFromRunningThread t (set_lastSuspended w.(runningThread) w) in
  if isScaled (thread_of t w) then Ok (upd t VexThreadState.setSuspended (updateRunnableQueue w))
  else pushIntoRunnableQueue t (upd t VexThreadState.setSuspended w).

Definition onIntentionToKeepOnRunning (t : nat) (w : World T) : World T :=
  let w := upd t (setThreadCurrentlyControllingManager (Some managerId)) (set_runningThread (Some t) w) in
  if isScaled (thread_of t w) then updateRunnableQueue (setBarrier t w) else w.

Definition onIntentionToBeDisregarded (t : nat) (w : World T) : World T :=
  let w := unsetCurrentThreadFromRunningThread t w in
  if isScaled (thread_of t w) then eraseFromRunnables t w else w.

Definition isSignalledThreadGoingToSuspend (h : Host) (t : nat) (w : World T) : res (bool * World T) :=
  let w := set_posixSignalsSent (ulong_add w.(posixSignalsSent) 1) w in
  '(threadsIntention, w) ← getSuspendingThreadIntention h t w;
  match threadsIntention with
  | Scheduling.TO_BE_SUSPENDED => w ← setSuspended t w; Ok (true, w)
  | Scheduling.TO_BE_DISREGARDED => Ok (true, onIntentionToBeDisregarded t w)
  | _ => Ok (false, onIntentionToKeepOnRunning t w)
  end.

Definition _suspendThread (h : Host) (t : nat) (w : World T) : res (bool * World T) :=
  if decide (w.(runningThread) = Some t) then
    if h.(delivered) then isSignalledThreadGoingToSuspend h t w
    else Ok (false, eraseFromRunnables t w)
  else Ok (true, w).

Definition afterModelSimulation (w : World T) : World T := w.

(** The pass of the base class over the methods above; a thread is resumed as
    there. *)
Definition schedulingPass (enter : thread -> bool * thread) (h : Host) (fuel : nat) (w : World T) : res (World T) :=
  suspendRunningResumeNext managerId gsf (resumeThread managerId) afterModelSimulation enter _suspendThread h fuel w.

End loose.
(** ** What a pass keeps *)
Section pass.
Context `{HO : StdHeapOps} `{HH : !StdHeap HO}.
Context {T : Type} `{HC : Controllers.VirtualTimelineController T} `{HL : !Controllers.ControllerLaws T}.
Variable managerId : nat.
Variable gsf : float.
Variable enter : thread -> bool * thread.
Implicit Types w : World T.

#[local] Existing Instance base_keeps_others.

(** The running thread is queued, as a barrier, exactly when it is scaled. *)
Definition anchored w : Prop :=
  forall t, w.(runningThread) = Some t -> (t ∈ w.(queue) <-> isScaled (thread_of t w) = true).

(** The running thread is a barrier: its time has changed since the queue was
    put in order. *)
Definition barrier_runs w : Prop := exists t, w.(runningThread) = Some t /\ isScaled (thread_of t w) = true.

#[export] Instance loose_keeps_others : KeepsOthers (resumeThread managerId) (afterModelSimulation (T := T))
  (ThreadManager._suspendThread managerId false).
Proof.
  split; [apply (base_keeps_others managerId false)..|done].
Qed.

(** What the running thread is taken for, once it answered. *)
Definition settles t w w' : Prop := handled t w w' /\ anchored w'.

Lemma nobody_anchored w : w.(runningThread) = None -> anchored w.
Proof. intros Hr t. by rewrite Hr. Qed.

Lemma unset_leaves t w : w.(runningThread) = Some t -> (unsetCurrentThreadFromRunningThread t w).(runningThread) = None.
Proof. intros Hr. unfold unsetCurrentThreadFromRunningThread. by rewrite decide_True. Qed.

Lemma unset_same t w : (unsetCurrentThreadFromRunningThread t w).(queue) = w.(queue) /\
  (unsetCurrentThreadFromRunningThread t w).(threads) = w.(threads).
Proof. unfold unsetCurrentThreadFromRunningThread. by case_decide. Qed.

Lemma handled_time t w w1 w' : (forall x, ert w'.(threads) x = ert w1.(threads) x) -> only t w1 w' -> handled t w w1 -> handled t w w'.
Proof.
  intros He Ho Hh. eapply handled_then_only; [done..|]. unfold ordered. rewrite (proj1 Ho).
  eapply ThreadQueue.wf_ext; [|apply Hh]. intros x _. apply He.
Qed.

Lemma ert_upd_same t f w x : (forall s, getEstimatedRealTime (f s) = getEstimatedRealTime s) ->
  ert (upd t f w).(threads) x = ert w.(threads) x.
Proof. intros Hf. cbn. rewrite ert_update_thread. case_decide; [|done]. subst. apply Hf. Qed.

Section answered.
Context (t : nat) (w : World T).
Hypothesis distinct : NoDup w.(queue).
Hypothesis in_order : isScaled (thread_of t w) = false -> ordered w.
Hypothesis anchor : t ∈ w.(queue) <-> isScaled (thread_of t w) = true.
Hypothesis runs : w.(runningThread) = Some t.

Lemma keeps_running : settles t w (onIntentionToKeepOnRunning managerId t w).
Proof.
  unfold onIntentionToKeepOnRunning. set (w1 := upd t _ _).
  assert (only t w w1) as Ho.
  { apply (only_trans _ _ (set_runningThread (Some t) w)); [|apply only_upd]. apply only_same; [done..|]. by intros x; cbn; rewrite runs. }
  assert (isScaled (thread_of t w1) = isScaled (thread_of t w)) as Hs by (subst w1; by rewrite thread_of_upd).
  destruct (isScaled (thread_of t w1)) eqn:E.
  - split.
    + eapply only_then_handled; [exact Ho|]. eapply only_then_handled; [apply only_upd|]. by apply update_reorders.
    + intros x [= <-]. cbn. unfold ThreadQueue.update. rewrite (AdaptiblePQueue.update_perm (ert _)), anchor, <- Hs.
      change (thread_of t _) with (thread_of t (setBarrier t w1)). unfold setBarrier. rewrite thread_of_upd. by rewrite <- E.
  - split; [apply handled_only; [by rewrite anchor, <- Hs|by apply in_order|done]|].
    intros x [= <-]. cbn [queue]. rewrite E. change (t ∈ w.(queue) <-> false = true). by rewrite anchor, <- Hs.
Qed.

Lemma is_suspended w' : setSuspended t w = Ok w' -> settles t w w' /\ w'.(runningThread) = None.
Proof.
  unfold setSuspended. set (w1 := unsetCurrentThreadFromRunningThread t _).
  assert (only t w w1) as Ho by (eapply only_trans; [|apply only_unset]; by apply only_same).
  assert (w1.(runningThread) = None) as Hr1 by (by apply unset_leaves).
  assert (w1.(queue) = w.(queue)) as Hq by (subst w1; by rewrite (proj1 (unset_same t _))).
  assert (thread_of t w1 = thread_of t w) as -> by (unfold thread_of; subst w1; by rewrite (proj2 (unset_same t _))).
  destruct (isScaled (thread_of t w)) eqn:E.
  - intros [= <-]. split; [split; [|by apply nobody_anchored]|done].
    eapply handled_time; [intros; by apply ert_upd_same|apply only_upd|].
    eapply only_then_handled; [exact Ho|]. apply update_reorders. by rewrite Hq.
  - intros Hp. assert (handled t w w') as Hh.
    { eapply handled_push; [by rewrite anchor|by apply in_order| |exact Hp]. by apply only_then_upd. }
    assert (w'.(runningThread) = None) by (apply push_same in Hp as (_&->&_); exact Hr1).
    split; [split|]; [done|by apply nobody_anchored|done].
Qed.

Lemma is_disregarded : settles t w (onIntentionToBeDisregarded t w) /\ (onIntentionToBeDisregarded t w).(runningThread) = None.
Proof.
  unfold onIntentionToBeDisregarded. set (w1 := unsetCurrentThreadFromRunningThread t w).
  assert (w1.(runningThread) = None) as Hr1 by (by apply unset_leaves).
  assert (thread_of t w1 = thread_of t w) as -> by (unfold thread_of; subst w1; by rewrite (proj2 (unset_same t _))).
  destruct (isScaled (thread_of t w)) eqn:E; (split; [split|done]); try by apply nobody_anchored.
  - eapply only_then_handled; [apply only_unset|]. apply erase_reorders. subst w1. by rewrite (proj1 (unset_same t _)).
  - apply handled_only; [by rewrite anchor|by apply in_order|apply only_unset].
Qed.
End answered.

Lemma loose_signalled h t w b w' : NoDup w.(queue) -> (isScaled (thread_of t w) = false -> ordered w) -> anchored w ->
  w.(runningThread) = Some t -> isSignalledThreadGoingToSuspend managerId h t w = Ok (b, w') ->
  settles t w w' /\ (b = true -> w'.(runningThread) = None).
Proof.
  intros Hd Hw Ha Hr. unfold isSignalledThreadGoingToSuspend.
  intros ([i w1]&[sched ->]%answer_same&Hs)%bind_ok. specialize (Ha t Hr).
  match type of Hs with context [upd t ?f ?w0] => assert (only t w (upd t f w0)) as Ho
    by (apply only_then_upd; by apply only_same); set (w1 := upd t f w0) in * end.
  assert (isScaled (thread_of t w1) = isScaled (thread_of t w)) as Hs1 by (subst w1; by rewrite thread_of_upd).
  assert (isScaled (thread_of t w1) = false -> ordered w1) as Hw1
    by (rewrite Hs1; intros E; by apply ordered_upd, Hw).
  assert (t ∈ w1.(queue) <-> isScaled (thread_of t w1) = true) as Ha1 by (by rewrite Hs1).
  assert (forall w2, settles t w1 w2 -> settles t w w2) as Hthen
    by (intros w2 [? ?]; split; [by eapply only_then_handled|done]).
  destruct i; try (injection Hs as <- <-; split; [by apply Hthen, keeps_running|done]).
  - apply bind_ok in Hs as (w2&Hp&[= <- <-]). apply is_suspended in Hp as [? ?]; auto.
  - injection Hs as <- <-. destruct (is_disregarded t w1) as [? ?]; auto.
Qed.

(** The first half of a pass. *)
Lemma loose_suspend_running h w goOn w' : NoDup w.(queue) -> h.(keyFree) = true /\ barrier_runs w \/ ordered w ->
  h.(delivered) = true -> anchored w ->
  match w.(runningThread) with
  | None => Ok (true, w)
  | Some t => suspendThread (_suspendThread managerId) h t w
  end = Ok (goOn, w') ->
  ordered w' /\ anchored w' /\ (goOn = true -> w'.(runningThread) = None) /\
  forall x, w.(runningThread) <> Some x -> left_alone x w w'.
Proof.
  intros Hd Hw Hdel Ha. destruct w.(runningThread) as [t|] eqn:Hr.
  - intros Hs. assert (settles t w w' /\ (goOn = true -> w'.(runningThread) = None)) as [[Hh Ha'] Hg].
    { unfold suspendThread in Hs. destruct (keyFree h).
      - unfold _suspendThread in Hs. rewrite decide_True, Hdel in Hs by done.
        eapply loose_signalled; [done| |done..]. intros E. destruct Hw as [[_ (u&Hu&Hus)]|Hw]; [|done]. congruence.
      - injection Hs as <- <-. destruct Hw as [[? _]|Hw]; [done|].
        assert ((unsetCurrentThreadFromRunningThread t w).(runningThread) = None) by (by apply unset_leaves).
        split; [split; [split; [|intros x Hx; eapply left_alone_only; [|done]]|by apply nobody_anchored]|done].
        + apply ordered_upd; [done|]. eapply ordered_same; [apply unset_same..|done].
        + apply only_then_upd, only_unset. }
    split_and!; [apply Hh|done|done|]. intros x Hx. apply Hh. congruence.
  - intros [= <- <-]. destruct Hw as [[_ (t&?&_)]|Hw]; [congruence|]. by split_and!.
Qed.

(** A pass of the loose manager puts the queue in order again, however far
    the barrier of the running thread has moved meanwhile, and keeps it a queue
    of distinct threads in which the running thread stands exactly when its
    time is scaled.  It gives the core to nobody, and moves no thread in or out
    of the queue besides the one that ran and one that it handles. *)
Theorem loose_pass_keeps_queue h fuel w w' : NoDup w.(queue) -> h.(keyFree) = true /\ barrier_runs w \/ ordered w ->
  h.(delivered) = true -> anchored w -> schedulingPass managerId gsf enter h fuel w = Ok w' ->
  ordered w' /\ anchored w' /\ keeps_core w w' /\
  exists u, forall x, w.(runningThread) <> Some x -> u <> Some x -> left_alone x w w'.
Proof.
  intros Hd Hw Hdel Ha. unfold schedulingPass, suspendRunningResumeNext.
  intros ([goOn w1]&Hs&Hc)%bind_ok. eapply loose_suspend_running in Hs as (Hw1&Ha1&Hg&Hq1); [|done..].
  assert (keeps_core w w1) as Hk1.
  { intros x Hx. destruct (decide (w.(runningThread) = Some x)) as [|Hn]; [done|]. exact (proj2 (proj2 (Hq1 x Hn)) x Hx). }
  destruct goOn; [|injection Hc as <-; split_and!; [done..|]; exists None; auto].
  apply (continue_handled managerId gsf enter 1) in Hc as (Hw'&Hk&Hu); [|done].
  assert (w'.(runningThread) = None) as Hr'.
  { destruct w'.(runningThread) as [x|] eqn:Hx; [|done]. apply Hk in Hx. by rewrite Hg in Hx. }
  split_and!; [done|by apply nobody_anchored|by intros x Hx%Hk%Hk1|].
  exists (ThreadQueue.top w1.(queue)). intros x Hx Hxu. eapply left_alone_trans; [by apply Hq1|by apply Hu].
Qed.
End pass.
(** ** What a barrier holds back *)
Section barrier.
Context `{HO : StdHeapOps} `{HH : !StdHeap HO}.
Context {T : Type} `{HC : Controllers.VirtualTimelineController T} `{HL : !Controllers.ControllerLaws T}.
Variable managerId : nat.
Variable gsf : float.
Variable enter : thread -> bool * thread.
Implicit Types w : World T.











End barrier.

(** ** The time of a barrier *)
Section time.
Context `{HO : StdHeapOps} `{HH : !StdHeap HO}.
Context {T : Type} `{HC : Controllers.VirtualTimelineController T}.
Context `{HTC : !Controllers.TotalController T} `{HRT : !Controllers.RunningTimers T}.
Variable managerId : nat.
Variable gsf : float.
Implicit Types w : World T.

(** A thread that got the core at the time [now] of the timeline. *)
Definition running_from (now : Z) (s : thread) : thread :=
  upd_timers (Timers.leapForwardTo now)
    (setThreadCurrentlyControllingManager (Some managerId) (setRunning (VexThreadState.setAwaken false s))).

Lemma leap_speed now tm : Timers.virtualTimeSpeedup (Timers.leapForwardTo now tm) = Timers.virtualTimeSpeedup tm.
Proof. unfold Timers.leapForwardTo. by case_match. Qed.

Lemma running_later now s : getEstimatedRealTime s <= (running_from now s).(timers).(Timers.estimatedRealTime).
Proof.
  change (getEstimatedRealTime s) with (timers (setRunning (VexThreadState.setAwaken false s))).(Timers.estimatedRealTime).
  cbn -[setRunning]. unfold Timers.leapForwardTo. case_match eqn:E; cbn -[setRunning]; [|done]. apply Z.ltb_lt in E. cbn in *. lia.
Qed.

(** A scaled thread that runs: the barrier is up. *)
Record barred (now : Z) t w w1 : Prop := {
  barred_runs : w1.(runningThread) = Some t;
  barred_slot : w1.(schedulerTimeslot) = w.(schedulerTimeslot);
  barred_queue : w1.(queue) ≡ₚ t :: w.(queue);
  barred_order : ordered w1;
  barred_thread : thread_of t w1 =
    upd_timers (Timers.setSynchronizationBarrierTime w.(schedulerTimeslot)) (running_from now (thread_of t w));
}.

Lemma scaled_runs suspend_ t w : core_free_for t w -> t ∉ w.(queue) -> ordered w -> isScaled (thread_of t w) = true ->
  exists now w1, setRunningThread_with managerId suspend_ t w = Ok (Returns, w1) /\ barred now t w w1.
Proof.
  intros Hf%not_free_iff Hn Hw Hs. unfold setRunningThread_with, changeThreadStateToRunning.
  change (anotherThreadAlreadySetRunning t (upd t ?f w)) with (anotherThreadAlreadySetRunning t w). rewrite Hf.
  match goal with |- context [with_timeline ?f t ?w0] => set (w1 := w0) end.
  destruct (with_timeline_total Controllers.updateResumingSuspendedThreadTimestamp t w1) as [w2 Hw2];
    [apply Controllers.updateResuming_total|].
  rewrite Hw2. apply bind_ok in Hw2 as ([tm tl]&Hu&[= <-]). apply Controllers.updateResuming_timers in Hu as [now ->].
  unfold mbind, res_bind. match goal with |- context [isScaled (thread_of t ?w0)] => set (w2 := w0) end.
  assert (thread_of t w2 = running_from now (thread_of t w)) as Ht by (subst w2 w1; cbn; unfold thread_of; cbn; by rewrite !lookup_update_thread, !decide_True).
  assert (isScaled (thread_of t w2) = true) as ->.
  { rewrite Ht. unfold isScaled, ThreadQueue.hasUnitScalingFactor in *. cbn. by rewrite leap_speed. }
  change (queue (setBarrier t w2)) with (queue w).
  assert (ThreadQueue.find (queue w) t = false) as ->
    by (apply not_true_iff_false; by intros ?%AdaptiblePQueue.find_spec).
  destruct (push_total t (setBarrier t w2)) as [w3 Hp]; [done|]. rewrite Hp. exists now, w3. split; [done|].
  assert (ordered (setBarrier t w2)) as Ho.
  { eapply ThreadQueue.wf_ext; [|exact Hw]. intros x Hx. assert (x <> t) by (by intros ->). unfold ert. f_equal.
    subst w2 w1. cbn. by rewrite !lookup_update_thread, !decide_False. }
  apply push_ordered in Hp as Hp'; [|done..]. destruct Hp' as (Ho'&Hq&Ht3&Hr3).
  assert (w3.(schedulerTimeslot) = w.(schedulerTimeslot)) as Hslot by (by apply bind_ok in Hp as (q&_&[= <-])).
  split; [by rewrite Hr3|done|by rewrite Hq|done|].
  unfold thread_of at 1. rewrite Ht3. change (thread_of t (setBarrier t w2) = upd_timers (Timers.setSynchronizationBarrierTime w.(schedulerTimeslot)) (running_from now (thread_of t w))).
  unfold setBarrier. rewrite thread_of_upd. exact (f_equal (upd_timers _) Ht).
Qed.

(** What the clock adds to a scaled thread while its barrier is up: the
    barrier is taken down. *)
Definition advanced (d : Z) (slot : Z) (s : thread) : thread :=
  upd_timers (fun tm => Timers.addLocalTime gsf d (Timers.clearSynchronizationBarrierTime slot tm)) s.

Lemma scaled_advances d t w : isScaled (thread_of t w) = true -> isNativeWaiting (thread_of t w) = false ->
  exists w', locklessUpdateTimeBy gsf d t w = Ok w' /\ w'.(queue) = w.(queue) /\ w'.(runningThread) = w.(runningThread) /\
    w'.(schedulerTimeslot) = w.(schedulerTimeslot) /\ w'.(registry) = w.(registry) /\
    thread_of t w' = advanced d w.(schedulerTimeslot) (thread_of t w).
Proof.
  intros Hs Hn. unfold locklessUpdateTimeBy. rewrite Hs. set (w1 := upd t _ (clearBarrier t w)).
  assert (thread_of t w1 = advanced d w.(schedulerTimeslot) (thread_of t w)) as Ht
    by (subst w1; unfold clearBarrier; by rewrite !thread_of_upd).
  assert (isNativeWaiting (thread_of t w1) = false) as -> by (by rewrite Ht).
  destruct (with_timeline_total Controllers.commitCpuTimeProgress t w1) as [w2 Hw2]; [apply Controllers.commitCpu_total|].
  rewrite Hw2. exists w2. apply bind_ok in Hw2 as ([tm tl]&Hc&[= <-]). apply Controllers.commitCpu_timers in Hc as ->.
  split_and!; [done..|]. change (thread_of t (set_timeline tl ?x)) with (thread_of t x). rewrite thread_of_upd, Ht.
  by destruct (thread_of t w).
Qed.

Lemma advanced_time d slot now s :
  Timers.estimatedRealTime (timers (advanced d slot (upd_timers (Timers.setSynchronizationBarrierTime slot) (running_from now s)))) =
  (running_from now s).(timers).(Timers.estimatedRealTime) +ll scale2 d s.(timers).(Timers.virtualTimeSpeedup) gsf.
Proof.
  unfold advanced. set (x := running_from now s). assert (x.(timers).(Timers.virtualTimeSpeedup) = s.(timers).(Timers.virtualTimeSpeedup)) as Hv
    by (subst x; cbn; by rewrite leap_speed). rewrite <- Hv. generalize x. clear. intros x.
  change (((x.(timers).(Timers.estimatedRealTime) +ll slot) -ll slot) +ll scale2 d x.(timers).(Timers.virtualTimeSpeedup) gsf =
    x.(timers).(Timers.estimatedRealTime) +ll scale2 d x.(timers).(Timers.virtualTimeSpeedup) gsf).
  generalize x.(timers).(Timers.estimatedRealTime) (scale2 d x.(timers).(Timers.virtualTimeSpeedup) gsf). intros g k. ll_ring.
Qed.

Lemma clock_time c s : Timers.estimatedRealTime (timers (upd_timers (Timers.set_lastCPUTime c) s)) = Timers.estimatedRealTime (timers s).
Proof. done. Qed.

Lemma setSuspended_scaled t w : isScaled (thread_of t w) = true -> exists w', setSuspended t w = Ok w' /\
  w'.(queue) ≡ₚ w.(queue) /\ ert w'.(threads) t = ert w.(threads) t.
Proof.
  intros Hs. unfold setSuspended. set (w1 := unsetCurrentThreadFromRunningThread t _). destruct (unset_same t (set_lastSuspended w.(runningThread) w)) as [Hq Ht].
  assert (thread_of t w1 = thread_of t w) as -> by (unfold thread_of; subst w1; by rewrite Ht). rewrite Hs. eexists. split; [done|]. split.
  - cbn. unfold ThreadQueue.update. subst w1. by rewrite (AdaptiblePQueue.update_perm (ert _)), Hq.
  - rewrite ert_upd_same by done. cbn. unfold ert. subst w1. by rewrite Ht.
Qed.

Lemma keeps_scaled t w : isScaled (thread_of t w) = true ->
  let w' := onIntentionToKeepOnRunning managerId t w in
  w'.(queue) ≡ₚ w.(queue) /\
  ert w'.(threads) t = ert w.(threads) t +ll w.(schedulerTimeslot).
Proof.
  intros Hs. unfold onIntentionToKeepOnRunning. set (w1 := upd t _ _).
  assert (thread_of t w1 = setThreadCurrentlyControllingManager (Some managerId) (thread_of t w)) as Ht by (subst w1; by rewrite thread_of_upd).
  assert (isScaled (thread_of t w1) = true) as -> by (by rewrite Ht). cbv zeta. split.
  - cbn. unfold ThreadQueue.update. by rewrite (AdaptiblePQueue.update_perm (ert _)).
  - cbn. rewrite !ert_update_thread, !decide_True by done. by rewrite !lookup_update_thread, decide_True.
Qed.

Lemma barred_scaled now t w w1 : isScaled (thread_of t w) = true -> barred now t w w1 ->
  isScaled (thread_of t w1) = true /\ isNativeWaiting (thread_of t w1) = false /\
  ert w1.(threads) t = (thread_of t (upd t (running_from now) w)).(timers).(Timers.estimatedRealTime) +ll w.(schedulerTimeslot).
Proof.
  intros Hs Hb. unfold ert, getEstimatedRealTime. fold (thread_of t w1). rewrite (barred_thread _ _ _ _ Hb), thread_of_upd. split_and!; [|done|done].
  unfold isScaled, ThreadQueue.hasUnitScalingFactor in *. cbn. by rewrite leap_speed.
Qed.

(** The virtual time of a scaled thread is not disturbed by its barrier:
    when the scheduler signals the thread and it charges itself the time since
    it got the core, it is left, if it goes on running, a timeslot ahead of its
    virtual time in the queue, and if it is suspended, at that time. *)
Theorem barrier_follows_time suspend_ t w d : core_free_for t w -> t ∉ w.(queue) -> ordered w -> isScaled (thread_of t w) = true ->
  exists now w1 w2 w3, setRunningThread_with managerId suspend_ t w = Ok (Returns, w1) /\ locklessUpdateTimeBy gsf d t w1 = Ok w2 /\
  setSuspended t w2 = Ok w3 /\
  let got := (running_from now (thread_of t w)).(timers).(Timers.estimatedRealTime) in
  let time := got +ll scale2 d (thread_of t w).(timers).(Timers.virtualTimeSpeedup) gsf in
  let keeps := onIntentionToKeepOnRunning managerId t w2 in
  (getEstimatedRealTime (thread_of t w) <= got) /\
  (ordered keeps /\ t ∈ keeps.(queue) /\ ert keeps.(threads) t = time +ll w.(schedulerTimeslot)) /\
  (ordered w3 /\ t ∈ w3.(queue) /\ ert w3.(threads) t = time).
Proof.
  intros Hf Hn Hw Hs. destruct (scaled_runs suspend_ t w Hf Hn Hw Hs) as (now&w1&Hrun&Hb).
  destruct (barred_scaled _ _ _ _ Hs Hb) as (Hs1&Hn1&_).
  destruct (scaled_advances d t w1 Hs1 Hn1) as (w2&Hadv&Hq2&Hr2&Hslot2&_&Ht2).
  assert (isScaled (thread_of t w2) = true) as Hs2 by (by rewrite Ht2).
  assert (t ∈ w2.(queue) /\ NoDup w2.(queue)) as [Hin Hd].
  { rewrite Hq2. split; [rewrite (barred_queue _ _ _ _ Hb); left|]. apply (barred_order _ _ _ _ Hb). }
  assert (w2.(runningThread) = Some t) as Hr by (rewrite Hr2; apply Hb).
  assert (isScaled (thread_of t w2) = false -> ordered w2) as Hv by congruence.
  assert (t ∈ w2.(queue) <-> isScaled (thread_of t w2) = true) as Ha by done.
  rewrite (barred_slot _ _ _ _ Hb), (barred_thread _ _ _ _ Hb) in Ht2.
  pose proof (keeps_running managerId t w2 Hd Hv Ha Hr) as [[Hk _] Hka].
  destruct (setSuspended_scaled t w2 Hs2) as (w3&Hsus&Hq3&He3). destruct (is_suspended t w2 Hd Hv Ha Hr _ Hsus) as [[[Hk3 _] _] _].
  destruct (keeps_scaled t w2 Hs2) as [Hqk Hek].
  assert (ert w2.(threads) t = (running_from now (thread_of t w)).(timers).(Timers.estimatedRealTime) +ll
    scale2 d (thread_of t w).(timers).(Timers.virtualTimeSpeedup) gsf) as He2.
  { unfold ert, getEstimatedRealTime. fold (thread_of t w2). rewrite Ht2. apply advanced_time. }
  exists now, w1, w2, w3. split; [exact Hrun|]. split; [exact Hadv|]. split; [exact Hsus|]. cbv zeta. rewrite Hqk, Hq3, Hek, He3, He2, Hslot2.
  split_and!; [|done|done| |done..]; [|by rewrite (barred_slot _ _ _ _ Hb)].
  apply running_later.
Qed.

Lemma self_suspends t w : isScaled (thread_of t w) = true -> in_state RUNNING (thread_of t w) = true -> t ∈ w.(queue) ->
  exists w', setSuspendedAndPushToRunnables t w = Ok w' /\ isSuspended (thread_of t w') = true /\
    wasAwaken (thread_of t w') = false /\ w'.(runningThread) <> Some t /\ t ∈ w'.(queue) /\
    ert w'.(threads) t = ert w.(threads) t -ll w.(schedulerTimeslot).
Proof.
  intros Hs Hr Hq. unfold setSuspendedAndPushToRunnables. destruct (unset_same t w) as [Hqu Htu].
  pose proof (unset_core t w) as Hc.
  assert ((unsetCurrentThreadFromRunningThread t w).(schedulerTimeslot) = w.(schedulerTimeslot)) as Hslot
    by (unfold unsetCurrentThreadFromRunningThread; by case_decide).
  set (w1 := unsetCurrentThreadFromRunningThread t w) in *.
  assert (thread_of t w1 = thread_of t w) as -> by (unfold thread_of; by rewrite Htu). rewrite Hs.
  assert (isNativeWaiting (thread_of t (clearBarrier t w1)) || isSuspended (thread_of t (clearBarrier t w1))
          || isWaiting (thread_of t (clearBarrier t w1)) = false) as ->.
  { unfold clearBarrier. rewrite thread_of_upd. unfold isNativeWaiting, isSuspended, isWaiting, in_state, thread_of in *. rewrite Htu.
    apply bool_decide_eq_true in Hr. cbn. by rewrite Hr. }
  eexists. split; [done|]. unfold thread_of. cbn. rewrite !lookup_update_thread, !decide_True by done. split_and!; [done..| |].
  - unfold ThreadQueue.update. by rewrite (AdaptiblePQueue.update_perm (ert _)), Hqu.
  - rewrite ert_update_thread, decide_True by done. cbn. by rewrite lookup_update_thread, decide_True, Htu, Hslot.
Qed.

(** A scaled thread that suspends itself loses a timeslot of virtual time
    with every run that took it any time: charging the time of the run takes
    the barrier down, and so does putting the thread back into the queue. *)
Theorem scaled_run_loses_timeslot suspend_ c r t w : core_free_for t w -> t ∉ w.(queue) -> ordered w -> isScaled (thread_of t w) = true ->
  let d := c -ll (thread_of t w).(timers).(Timers.lastCPUTime) in 0 < d ->
  exists now w1 k w2, setRunningThread_with managerId suspend_ t w = Ok (Returns, w1) /\
  suspend managerId gsf c r t 0 SUSPEND_OPT_FORCE_SUSPEND w1 = Ok (BlockedAt k, w2) /\ stopped t w2 /\
  let got := (running_from now (thread_of t w)).(timers).(Timers.estimatedRealTime) in
  ert w2.(threads) t = (got +ll scale2 d (thread_of t w).(timers).(Timers.virtualTimeSpeedup) gsf) -ll w.(schedulerTimeslot).
Proof.
  intros Hf Hn Hw Hs d Hd. destruct (scaled_runs suspend_ t w Hf Hn Hw Hs) as (now&w1&Hrun&Hb).
  destruct (barred_scaled _ _ _ _ Hs Hb) as (Hs1&Hn1&_).
  destruct (scaled_advances d t w1 Hs1 Hn1) as (w2&Hadv&Hq2&Hr2&Hslot2&_&Ht2).
  set (w3 := upd t (upd_timers (Timers.set_lastCPUTime c)) w2).
  assert (thread_of t w3 = upd_timers (Timers.set_lastCPUTime c) (thread_of t w2)) as Ht3 by (subst w3; by rewrite thread_of_upd).
  assert (t ∈ w3.(queue)) as Hin by (change (t ∈ w2.(queue)); rewrite Hq2, (barred_queue _ _ _ _ Hb); left).
  destruct (self_suspends t w3) as (w4&Hw4&Hsus&Haw&Hoff&Hin4&He4); [by rewrite Ht3, Ht2|by rewrite Ht3, Ht2, (barred_thread _ _ _ _ Hb)|done|].
  assert ((thread_of t w1).(timers).(Timers.lastCPUTime) = (thread_of t w).(timers).(Timers.lastCPUTime)) as Hcpu.
  { rewrite (barred_thread _ _ _ _ Hb). cbn. unfold Timers.leapForwardTo. by case_match. }
  assert (updateCurrentThreadVT gsf c t w1 = Ok w3) as Hupd.
  { unfold updateCurrentThreadVT. rewrite Hcpu. fold d. rewrite (proj2 (Z.ltb_lt _ _) Hd). by rewrite Hadv. }
  assert (ThreadQueue.empty w3.(queue) = false) as Hne by (by destruct w3.(queue); [apply not_elem_of_nil in Hin|]).
  exists now, w1, [RunAfterBlock; UpdateCpuTimeClock]. eexists. split; [exact Hrun|]. split; [|split].
  - unfold suspend. remember 1%nat as one eqn:Hone. cbn [suspendCurrentThread]. change (has_option SUSPEND_OPT_FORCE_SUSPEND SUSPEND_OPT_DONT_UPDATE_THREAD_TIME) with false.
    change (has_option SUSPEND_OPT_FORCE_SUSPEND SUSPEND_OPT_THREAD_ALREADY_IN_LIST) with false.
    change (has_option SUSPEND_OPT_FORCE_SUSPEND SUSPEND_OPT_DONT_WAKE_UP_SCHEDULER) with false.
    change (0 =? 0) with true. cbn [negb andb]. rewrite Hupd. unfold mbind, res_bind.
    unfold decideToSuspend. change (has_option SUSPEND_OPT_FORCE_SUSPEND SUSPEND_OPT_FORCE_SUSPEND) with true. rewrite Hne. cbn [negb andb orb].
    rewrite Hw4. assert (wasAwaken (thread_of t (unconditionalWakeup w4)) = false) as ->; [|done].
    unfold thread_of. by rewrite (proj1 (wakeup_same w4)).
  - by apply (suspended_to_stopped t false).
  - cbn [ert]. unfold startBlocking. rewrite ert_upd_same, (proj1 (wakeup_same w4)), He4 by done.
    change (schedulerTimeslot w3) with w2.(schedulerTimeslot). rewrite Hslot2, (barred_slot _ _ _ _ Hb). f_equal.
    unfold ert, getEstimatedRealTime. fold (thread_of t w3). rewrite Ht3, clock_time, Ht2, (barred_slot _ _ _ _ Hb), (barred_thread _ _ _ _ Hb).
    apply advanced_time.
Qed.
End time.

(** ** Witnesses: a thread at twice the time, which runs or gets the core, and
    one that waits for the core *)
#[local] Existing Instances Controllers.SingleVirtualTimelineController Controllers.single_laws Controllers.single_total Controllers.single_running_timers.

Definition at_time (ert : Z) (s : thread) : thread := upd_timers (Timers.setEstimatedRealTime ert) (VexThreadState.setSuspended s).
Definition loose_threads (running : bool) : store :=
  {[ 1%nat := (if running then setRunning else id) (upd_timers (Timers.set_virtualTimeSpeedup (f32 2 0)) (at_time 10 (new_VexThreadState 0 0)));
     2%nat := at_time 20 (new_VexThreadState 0 0) ]}.
Definition loose_world (running : bool) (core : option nat) (q : list nat) : World VirtualTimeline.VirtualTimeline.VirtualTimeline :=
  set_runningThread core (new_ThreadManager (loose_threads running) q (ThreadRegistry.new_ThreadRegistry 2 false) ∅
    (VirtualTimeline.VirtualTimeline.mkTimeline 0 0) false 0 None).

Lemma loose_ordered b core q : q = [1; 2]%nat \/ q = [2]%nat -> ordered (loose_world b core q).
Proof.
  intros [-> | ->]; split.
  - intros i Hi. cbn in Hi. assert (i = 1)%nat as -> by lia. destruct b; vm_compute; congruence.
  - apply NoDup_cons; split; [set_solver|apply NoDup_singleton].
  - intros i Hi. cbn in Hi. lia.
  - apply NoDup_singleton.
Qed.

Lemma loose_pass_keeps_queue_witness :
  match schedulingPass 0 f32_one no_node two_host 0 (loose_world true (Some 1%nat) [1; 2]%nat) with
  | Ok w' => ordered w' /\ anchored w'
  | Err _ => False
  end.
Proof.
  destruct (schedulingPass _ _ _ _ _ _) as [w'|e] eqn:E.
  - destruct (loose_pass_keeps_queue 0 f32_one no_node two_host 0 (loose_world true (Some 1%nat) [1; 2]%nat) w') as (?&?&_); [| | | |exact E|done].
    + apply (loose_ordered true (Some 1%nat) [1; 2]%nat). by left.
    + right. apply loose_ordered. by left.
    + done.
    + intros t [= <-]. split; [done|]. intros _. left.
  - vm_compute in E. discriminate E.
Defined.


Lemma barrier_follows_time_witness : exists w1 w2,
  setRunningThread_with 0 (fun _ _ w => Ok (Returns, w)) 1 (loose_world false None [2]%nat) = Ok (Returns, w1) /\
  locklessUpdateTimeBy f32_one 500 1 w1 = Ok w2 /\ 1%nat ∈ (onIntentionToKeepOnRunning 0 1 w2).(queue).
Proof.
  destruct (barrier_follows_time 0 f32_one (fun _ _ w => Ok (Returns, w)) 1 (loose_world false None [2]%nat) 500)
    as (now&w1&w2&w3&Hrun&Hadv&_&_&(_&Hq&_)&_).
  - by left.
  - set_solver.
  - apply loose_ordered. by right.
  - done.
  - exists w1, w2. split; [exact Hrun|]. split; [exact Hadv|exact Hq].
Defined.

Lemma scaled_run_loses_timeslot_witness : exists w1 k w2,
  setRunningThread_with 0 (fun _ _ w => Ok (Returns, w)) 1 (loose_world false None [2]%nat) = Ok (Returns, w1) /\
  suspend 0 f32_one 500 0 1 0 SUSPEND_OPT_FORCE_SUSPEND w1 = Ok (BlockedAt k, w2) /\ stopped 1 w2.
Proof.
  destruct (scaled_run_loses_timeslot 0 f32_one (fun _ _ w => Ok (Returns, w)) 500 0 1 (loose_world false None [2]%nat))
    as (now&w1&k&w2&Hrun&Hsus&Hst&_).
  - by left.
  - set_solver.
  - apply loose_ordered. by right.
  - done.
  - by vm_compute.
  - exists w1, k, w2. split; [exact Hrun|]. split; [exact Hsus|exact Hst].
Defined.

End LooseParallelThreadManager.
