(* ===== verification/PassiveManager.v ===== *)
(** * The passive manager

    The manager of runs that are only profiled,
    src/src/vex/scheduler/PassiveManager.cpp, over the timeline of
    PassiveVirtualTimelineController: it replaces the methods of
    [ThreadManager] so that no thread is ever suspended and every thread moves
    the one clock on.  The wrapped waits are those of the base class over the
    replaced methods; the methods that the class declares for calls that the
    base class no longer has are left out. *)
From S2P Require Import Prelude Heap AdaptiblePQueue CxxFloat Timers VirtualTimeline.
From S2P Require Import Controllers Statistics ThreadParts ThreadState ThreadQueue.
From S2P Require Import ThreadRegistry ThreadManager.
Import VexThreadState ThreadManager.

Module PassiveManager.
#[local] Existing Instance Controllers.PassiveVirtualTimelineController.
Section passive.
Context `{HO : StdHeapOps}.
Variable managerId : nat.
Variable gsf : float.
Abbreviation W := (World Controllers.PassiveTimeline).
Implicit Types (t : nat) (w : W).

(** ** Threads *)
Definition onThreadSpawn (main : bool) (cpuNow : Z) t w : W :=
  let w := upd t setRegistering w in
  let '(th, r) := ThreadRegistry.add main t w.(threads) w.(registry) in
  let w := set_registry r (set_threads th w) in
  upd t (fun s => upd_timers (Timers.updateCpuTimeClock cpuNow) (setRunning (setThreadCurrentlyControllingManager (Some managerId) s))) w.

Definition chargeTime (timeDiff : Z) t w : res W :=
  if 0 <? timeDiff
  then with_timeline Controllers.commitCpuTimeProgress t (upd t (upd_timers (Timers.addLocalTime gsf timeDiff)) w)
  else Ok w.

(** Neither restarts the clock of the thread. *)
Definition updateCurrentThreadVT (cpuNow : Z) t w : res W :=
  chargeTime (cpuNow -ll (thread_of t w).(timers).(Timers.lastCPUTime)) t w.
Definition setCurrentThreadVT (presetTime : Z) t w : res W :=
  chargeTime (presetTime -ll (thread_of t w).(timers).(Timers.lastCPUTime)) t w.

Definition onThreadEnd (cpuNow : Z) t w : res W :=
  w ← updateCurrentThreadVT cpuNow t w;
  let w := upd t setDead w in
  let '(th, r) := ThreadRegistry.remove t w.(threads) w.(registry) in
  Ok (set_registry r (set_threads th w)).

(** ** Suspending and waiting *)
Definition suspendCurrentThread t w : W := w.
Definition suspendLooseCurrentThread t w : W := upd t setRunning w.
Definition setTimedWaitingThread t w : W := w.
Definition unconditionalWakeup w : W := w.
Definition onReplacedWaiting t w : W := w.
Definition onReplacedTimedWaiting t w : W := upd t setRunning w.
Definition onWrappedTimedWaitingEnd t w : res W := with_timeline Controllers.updateTimedOutWaitingThreadTimestamp t w.

(** Of the base class. *)
Definition onWrappedWaitingStart (startingTime : Z) t w : res W :=
  w ← setCurrentThreadVT startingTime t w;
  let w := unsetCurrentThreadFromRunningThread t w in
  guard_assert (bool_decide (w.(runningThread) <> Some t)) ;;
  Ok (unconditionalWakeup w).
Definition onWrappedWaitingEnd t w : res W :=
  w ← with_timeline Controllers.updateBlockedThreadTimestamp t w; Ok (suspendCurrentThread t w).
Definition onWrappedTimedWaitingStart (startingTime : Z) t w : res W :=
  w ← setCurrentThreadVT startingTime t w; Ok (unconditionalWakeup (setTimedWaitingThread t w)).

(** ** Runs

    The calls of threads, in any order. *)
Inductive call :=
| Spawn (main : bool) (cpuNow : Z)
| UpdateVT (cpuNow : Z)
| End (cpuNow : Z)
| SuspendLoose
| WaitingStart (startingTime : Z)
| WaitingEnd
| TimedWaitingStart (startingTime : Z)
| TimedWaitingEnd
| Replaced
| ReplacedTimed.

Definition perform (c : call) t w : res W :=
  match c with
  | Spawn main cpuNow => Ok (onThreadSpawn main cpuNow t w)
  | UpdateVT cpuNow => updateCurrentThreadVT cpuNow t w
  | End cpuNow => onThreadEnd cpuNow t w
  | SuspendLoose => Ok (suspendLooseCurrentThread t w)
  | WaitingStart startingTime => onWrappedWaitingStart startingTime t w
  | WaitingEnd => onWrappedWaitingEnd t w
  | TimedWaitingStart startingTime => onWrappedTimedWaitingStart startingTime t w
  | TimedWaitingEnd => onWrappedTimedWaitingEnd t w
  | Replaced => Ok (onReplacedWaiting t w)
  | ReplacedTimed => Ok (onReplacedTimedWaiting t w)
  end.

Definition globalTime w : Z := getCurrentGlobalTime w.
Definition local t w : Z := (thread_of t w).(timers).(Timers.localTimeSinceLastResume).

(** The time that a call is for, by the clock it reads. *)
Definition until (c : call) : option Z :=
  match c with
  | UpdateVT now | End now | WaitingStart now | TimedWaitingStart now => Some now
  | _ => None
  end.

(** The virtual time that a call adds. *)
Definition charge (c : call) t w : Z :=
  match until c with
  | Some now =>
    let s := (thread_of t w).(timers) in
    let timeDiff := now -ll s.(Timers.lastCPUTime) in
    if 0 <? timeDiff then scale2 timeDiff s.(Timers.virtualTimeSpeedup) gsf else 0
  | None => 0
  end.

(** A run, and the sum of what its calls add. *)
Fixpoint run (cs : list (nat * call)) (sum : Z) w : res (Z * W) :=
  match cs with
  | [] => Ok (sum, w)
  | (t, c) :: cs => let d := charge c t w in w ← perform c t w; run cs (sum +ll d) w
  end.

(** Every thread has handed its time over. *)
Definition settled w : Prop := forall t, local t w = 0.

Definition local_of (s : thread) : Z := s.(timers).(Timers.localTimeSinceLastResume).

Lemma settled_upd f t w : (forall s, local_of s = 0 -> local_of (f s) = 0) -> settled w -> settled (upd t f w).
Proof.
  intros Hf Hw u. unfold local, thread_of, upd. cbn. rewrite lookup_update_thread. case_decide; [subst; apply Hf|]; apply Hw.
Qed.

(** A call that leaves the clocks alone. *)
Definition quiet w w' : Prop := globalTime w' = globalTime w /\ (settled w -> settled w').

Lemma quiet_refl w : quiet w w.
Proof. done. Qed.

Lemma quiet_trans w1 w2 w3 : quiet w1 w2 -> quiet w2 w3 -> quiet w1 w3.
Proof. intros [E1 H1] [E2 H2]. split; [congruence|auto]. Qed.

Lemma quiet_change f t w : (forall s, local_of s = 0 -> local_of (f s) = 0) -> quiet w (upd t f w).
Proof. intros Hf. split; [done|by apply settled_upd]. Qed.

Lemma quiet_registry th r w : (forall t, local_of (th !!! t) = local_of (w.(threads) !!! t)) -> quiet w (set_registry r (set_threads th w)).
Proof. intros Ht. split; [done|]. intros Hw u. unfold local, thread_of. cbn. rewrite <- (Hw u). apply Ht. Qed.

Lemma quiet_unset t w : quiet w (unsetCurrentThreadFromRunningThread t w).
Proof. unfold unsetCurrentThreadFromRunningThread. by case_decide. Qed.

Lemma passive_local t f th u : (forall s, local_of (f s) = local_of s) -> local_of (update_thread t f th !!! u) = local_of (th !!! u).
Proof. intros Hf. rewrite lookup_update_thread. case_decide; [subst; apply Hf|done]. Qed.

Lemma spawn_quiet main cpuNow t w : quiet w (onThreadSpawn main cpuNow t w).
Proof.
  unfold onThreadSpawn. eapply quiet_trans; [by apply (quiet_change setRegistering t)|]. set (w1 := upd t setRegistering w).
  destruct (ThreadRegistry.add main t w1.(threads) w1.(registry)) as [th r] eqn:E.
  eapply quiet_trans; [apply (quiet_registry th r)|by apply quiet_change].
  intros u. unfold ThreadRegistry.add in E. repeat case_match; simplify_eq/=; try done; by apply passive_local.
Qed.

Lemma remove_quiet t w th r : ThreadRegistry.remove t w.(threads) w.(registry) = (th, r) -> quiet w (set_registry r (set_threads th w)).
Proof.
  intros [= <- _]. apply quiet_registry. intros u. unfold ThreadRegistry.notifyParentWaitingToJoin. case_match; [by apply passive_local|done].
Qed.

(** ** Time *)
Lemma charge_time d t w : settled w -> in_ll (globalTime w) -> exists w', chargeTime d t w = Ok w' /\ settled w' /\
  globalTime w' = globalTime w +ll (if 0 <? d then scale2 d (thread_of t w).(timers).(Timers.virtualTimeSpeedup) gsf else 0) /\
  (0 < d -> ert w'.(threads) t = globalTime w').
Proof.
  intros Hw Hg. unfold chargeTime. destruct (0 <? d) eqn:Hd.
  - set (w1 := upd t _ w). set (k := scale2 _ _ _).
    assert ((thread_of t w1).(timers).(Timers.localTimeSinceLastResume) = ll k) as Hl.
    { subst w1. rewrite thread_of_upd. cbn. fold (local t w). rewrite (Hw t). done. }
    eexists. split; [done|]. split_and!.
    + intros u. unfold local, thread_of, upd. cbn. rewrite lookup_update_thread. case_decide as Hu; [done|].
      rewrite lookup_update_thread, decide_False by done. apply Hw.
    + change (globalTime w +ll (thread_of t w1).(timers).(Timers.localTimeSinceLastResume) = globalTime w +ll k). rewrite Hl. unfold ll_add. by rewrite ll_ll_add.
    + intros _. unfold ert, upd. cbn. by rewrite lookup_update_thread, decide_True.
  - exists w. split_and!; [done..| |].
    + unfold ll_add. by rewrite Z.add_0_r, ll_id.
    + apply Z.ltb_ge in Hd. lia.
Qed.

Lemma quiet_perform w w' : settled w -> in_ll (globalTime w) -> quiet w w' -> settled w' /\ globalTime w' = globalTime w +ll 0.
Proof. intros Hw Hg [E Hq]. split; [by apply Hq|]. unfold ll_add. by rewrite Z.add_0_r, ll_id, E. Qed.

Lemma perform_charges c t w : settled w -> in_ll (globalTime w) -> exists w', perform c t w = Ok w' /\ settled w' /\
  globalTime w' = globalTime w +ll charge c t w.
Proof.
  intros Hw Hg. unfold charge.
  assert (forall now, exists w', chargeTime (now -ll (thread_of t w).(timers).(Timers.lastCPUTime)) t w = Ok w' /\ settled w' /\
    globalTime w' = globalTime w +ll (let timeDiff := now -ll (thread_of t w).(timers).(Timers.lastCPUTime) in
      if 0 <? timeDiff then scale2 timeDiff (thread_of t w).(timers).(Timers.virtualTimeSpeedup) gsf else 0)) as Hc.
  { intros now. destruct (charge_time (now -ll (thread_of t w).(timers).(Timers.lastCPUTime)) t w Hw Hg) as (w'&?&?&?&_). eauto. }
  assert (forall w', quiet w w' -> exists w2, Ok w' = Ok w2 /\ settled w2 /\ globalTime w2 = globalTime w +ll 0) as Hquiet
    by (intros w' ?%quiet_perform; eauto).
  assert (forall f now, (forall w', exists w2, f w' = Ok w2 /\ quiet w' w2) -> exists w',
      (w ← setCurrentThreadVT now t w; f w) = Ok w' /\ settled w' /\
      globalTime w' = globalTime w +ll (let timeDiff := now -ll (thread_of t w).(timers).(Timers.lastCPUTime) in
        if 0 <? timeDiff then scale2 timeDiff (thread_of t w).(timers).(Timers.virtualTimeSpeedup) gsf else 0)) as Hthen.
  { intros f now Hf. destruct (Hc now) as (w1&Hw1&Hs1&Hg1). unfold setCurrentThreadVT. rewrite Hw1. destruct (Hf w1) as (w2&Hw2&E&Hq).
    exists w2. split; [exact Hw2|]. split; [by apply Hq|]. by rewrite E. }
  destruct c as [main now|now|now| |now| |now| | |]; cbn [until perform].
  - apply Hquiet, spawn_quiet.
  - apply Hc.
  - apply Hthen. intros w1. destruct (ThreadRegistry.remove t (upd t setDead w1).(threads) (upd t setDead w1).(registry)) as [th r] eqn:E. eexists. split; [done|].
    eapply quiet_trans; [by apply (quiet_change setDead t)|by apply (remove_quiet t)].
  - apply Hquiet. by apply quiet_change.
  - apply Hthen. intros w1. rewrite bool_decide_eq_true_2.
    + eexists. split; [done|]. apply quiet_unset.
    + unfold unsetCurrentThreadFromRunningThread. by case_decide.
  - destruct (Hquiet (set_timeline w.(timeline) w)) as (w2&_); [by destruct w|]. clear w2.
    unfold onWrappedWaitingEnd, with_timeline. cbn. apply Hquiet. split; [done|]. intros _ u. unfold local, thread_of, upd. cbn.
    rewrite lookup_update_thread. case_decide; [done|apply Hw].
  - apply Hthen. intros w1. by eexists.
  - unfold onWrappedTimedWaitingEnd, with_timeline. cbn. apply Hquiet. split; [done|]. intros _ u. unfold local, thread_of, upd. cbn.
    rewrite lookup_update_thread. case_decide as Hu; [|apply Hw]. cbn. unfold Timers.leapForwardTo. case_match; apply Hw.
  - apply Hquiet, quiet_refl.
  - apply Hquiet. by apply quiet_change.
Qed.

Lemma ll_cancel a sum d g total : a +ll (sum +ll d) = (g +ll d) +ll total -> a +ll sum = g +ll total.
Proof.
  intros E. assert ((a +ll (sum +ll d)) -ll d = a +ll sum) as <- by ll_ring.
  rewrite E. ll_ring.
Qed.

(** Under the passive manager no call of a thread ever blocks or fails, and
    there is one clock: whatever the threads do, and in whatever order, the
    global virtual time has moved on by the sum of the scaled times that all of
    them charged. *)
Theorem passive_clock_is_total cs w : settled w -> in_ll (globalTime w) -> exists total w',
  run cs 0 w = Ok (total, w') /\ settled w' /\ globalTime w' = globalTime w +ll total.
Proof.
  intros Hw Hg.
  enough (forall cs sum w, settled w -> in_ll (globalTime w) -> exists total w', run cs sum w = Ok (total, w') /\ settled w' /\
    in_ll (globalTime w') /\ globalTime w' +ll sum = globalTime w +ll total) as Hrun.
  { destruct (Hrun cs 0 w Hw Hg) as (total&w'&Hr&Hs&Hg'&E). exists total, w'. split_and!; [done..|]. rewrite <- E. unfold ll_add. by rewrite Z.add_0_r, ll_id. }
  clear cs w Hw Hg. induction cs as [|[t c] cs IH]; intros sum w Hw Hg; cbn; [by eexists _, _|].
  destruct (perform_charges c t w Hw Hg) as (w1&->&Hs1&Hg1).
  destruct (IH (sum +ll charge c t w) w1) as (total&w'&Hr&Hs&Hg'&E); [done|rewrite Hg1; apply ll_in_ll|].
  exists total, w'. split_and!; [done..|]. rewrite Hg1 in E. by eapply ll_cancel.
Qed.
End passive.
(** ** Witness: two threads that take turns *)
Definition profiled : World Controllers.PassiveTimeline :=
  new_ThreadManager {[ 1%nat := new_VexThreadState 0 0; 2%nat := new_VexThreadState 1 0 ]} [] (ThreadRegistry.new_ThreadRegistry 2 false) ∅
    (Controllers.mkPassive (VirtualTimeline.VirtualTimeline.mkTimeline 0 0)) false 0 None.

Lemma profiled_settled : settled profiled.
Proof.
  intros t. unfold local, thread_of, lookup_total, map_lookup_total. cbn [threads profiled new_ThreadManager].
  destruct (({[ 1%nat := new_VexThreadState 0 0; 2%nat := new_VexThreadState 1 0 ]} : store) !! t) as [s|] eqn:E; [|done].
  apply lookup_insert_Some in E as [[_ <-]|[_ E]]; [done|]. by apply lookup_singleton_Some in E as [_ <-].
Qed.

Lemma passive_clock_is_total_witness : exists total w',
  run 0 f32_one [(1%nat, Spawn true 10); (2%nat, Spawn false 30); (1%nat, WaitingStart 100); (2%nat, UpdateVT 70); (1%nat, WaitingEnd); (2%nat, End 90)] 0
    profiled = Ok (total, w') /\ globalTime w' = 0 +ll total.
Proof.
  destruct (passive_clock_is_total 0 f32_one
    [(1%nat, Spawn true 10); (2%nat, Spawn false 30); (1%nat, WaitingStart 100); (2%nat, UpdateVT 70); (1%nat, WaitingEnd); (2%nat, End 90)]
    profiled profiled_settled) as (total&w'&Hr&_&Hg); [done|].
  exists total, w'. split; [exact Hr|exact Hg].
Defined.

End PassiveManager.
