(* ===== verification/ManagerRegistry.v ===== *)
(** * The registry of thread managers

    src/src/vex/registries/ThreadManagerRegistry.cpp: the managers of all
    cores, the core that the next thread is started on, and the calls that go
    to every manager.  The managers share their threads and queues; what one of
    them does with a thread is in [ThreadManager] and the files for its derived
    classes, so that here a call that is for one manager yields its number. *)
From S2P Require Import Prelude Heap AdaptiblePQueue CxxFloat Timers VirtualTimeline.
From S2P Require Import Controllers Statistics ThreadParts ThreadState ThreadQueue ThreadRegistry ThreadManager.
Import VexThreadState ThreadManager.

Module ThreadManagerRegistry.
Section registry.
Context {T : Type} `{HC : Controllers.VirtualTimelineController T}.

(** [currentlyRegistered] is the number of managers; the array has room for
    [maximumCpus]. *)
Record ThreadManagerRegistry := mkRegistry {
  maximumCpus : Z;
  managerList : list (World T);
  nextCpuToStartThread : Z;
}.

Definition set_managers (ms : list (World T)) (r : ThreadManagerRegistry) : ThreadManagerRegistry :=
  mkRegistry r.(maximumCpus) ms r.(nextCpuToStartThread).
Definition set_next (n : Z) (r : ThreadManagerRegistry) : ThreadManagerRegistry :=
  mkRegistry r.(maximumCpus) r.(managerList) n.

Definition new_ThreadManagerRegistry (_maximumCpus : Z) : ThreadManagerRegistry := mkRegistry _maximumCpus [] 0.
Definition currentlyRegistered (r : ThreadManagerRegistry) : Z := Z.of_nat (length r.(managerList)).

Definition addThreadManager (manager : option (World T)) (r : ThreadManagerRegistry) : bool * ThreadManagerRegistry :=
  match manager with
  | Some m => if currentlyRegistered r <? r.(maximumCpus) then (true, set_managers (r.(managerList) ++ [m]) r) else (false, r)
  | None => (false, r)
  end.

Definition getDefaultManager (r : ThreadManagerRegistry) : option (World T) := head r.(managerList).
Definition getGlobalTime (r : ThreadManagerRegistry) : res Z :=
  match getDefaultManager r with Some m => Ok (ThreadManager.getCurrentGlobalTime m) | None => Err NullDereference end.

(** ** Calls to every manager *)
Definition resetDefaultSchedulerTimeslot (r : ThreadManagerRegistry) : ThreadManagerRegistry :=
  set_managers (map ThreadManager.resetDefaultSchedulerTimeslot r.(managerList)) r.
Definition setDefaultSchedulerTimeslot (timeslot : Z) (r : ThreadManagerRegistry) : ThreadManagerRegistry :=
  set_managers (map (ThreadManager.setDefaultSchedulerTimeslot timeslot) r.(managerList)) r.
Definition getTotalPosixSignalsSent (r : ThreadManagerRegistry) : Z :=
  foldl (fun sum m => ulong_add sum m.(posixSignalsSent)) 0 r.(managerList).

(** ** Calls to one manager *)

(** The manager that a new thread is given to. *)
Definition onThreadSpawn (r : ThreadManagerRegistry) : res (nat * ThreadManagerRegistry) :=
  let temp := r.(nextCpuToStartThread) in
  let next := uint_add temp 1 in
  let r := set_next (if next =? currentlyRegistered r then 0 else next) r in
  if temp <? currentlyRegistered r then Ok (Z.to_nat temp, r) else Err OutOfBounds.

(** The pointer to the pointer to the manager of a thread is never null, the
    pointer to the manager is for a thread that nobody controls. *)
Definition suspendCurrentThread (s : thread) : res nat :=
  match getThreadCurrentlyControllingManager s with Some m => Ok m | None => Err NullDereference end.

(** ** Round robin *)
Fixpoint spawns (n : nat) (r : ThreadManagerRegistry) : res (list nat * ThreadManagerRegistry) :=
  match n with
  | O => Ok ([], r)
  | S n => '(m, r) ← onThreadSpawn r; '(ms, r) ← spawns n r; Ok (m :: ms, r)
  end.

Fixpoint registered (ms : list (World T)) (r : ThreadManagerRegistry) : ThreadManagerRegistry :=
  match ms with [] => r | m :: ms => registered ms (addThreadManager (Some m) r).2 end.

Lemma registered_all ms r : Z.of_nat (length (r.(managerList) ++ ms)) <= r.(maximumCpus) ->
  registered ms r = set_managers (r.(managerList) ++ ms) r.
Proof.
  revert r. induction ms as [|m ms IH]; intros r Hl; cbn [registered]; [by rewrite app_nil_r; destruct r|].
  rewrite length_app in Hl. cbn in Hl. unfold addThreadManager, currentlyRegistered. rewrite (proj2 (Z.ltb_lt _ _)) by lia. cbn [snd].
  rewrite IH; cbn; [by rewrite <- app_assoc|]. rewrite !length_app. cbn. lia.
Qed.

Lemma spawns_from n r j k : k = length r.(managerList) -> (0 < k)%nat -> Z.of_nat k < 2 ^ 32 ->
  r.(nextCpuToStartThread) = Z.of_nat (j mod k) -> exists r',
  spawns n r = Ok (map (fun i => i mod k)%nat (seq j n), r').
Proof.
  intros Hk H0 Hw. revert r j Hk. induction n as [|n IH]; intros r j Hk Hj; cbn; [by eexists|].
  unfold onThreadSpawn. rewrite Hj. pose proof (Nat.mod_upper_bound j k ltac:(lia)) as Hb.
  assert (uint_add (Z.of_nat (j mod k)) 1 = Z.of_nat (j mod k) + 1) as -> by (apply Z.mod_small; lia).
  unfold currentlyRegistered. cbn [managerList set_next]. rewrite <- Hk, (proj2 (Z.ltb_lt _ _)) by lia. cbn [mbind res_bind].
  match goal with |- context [spawns n ?r1] => destruct (IH r1 (S j) Hk) as [r' ->] end.
  - cbn [nextCpuToStartThread set_next].
    assert (S j mod k = S (j mod k) mod k)%nat as -> by (rewrite <- (Nat.add_1_r (j mod k)), Nat.Div0.add_mod_idemp_l, Nat.add_1_r; done).
    generalize dependent (j mod k)%nat. intros m _ Hb. destruct (Z.eqb_spec (Z.of_nat m + 1) (Z.of_nat k)) as [E|E].
    + replace (S m) with k by lia. by rewrite Nat.Div0.mod_same.
    + rewrite Nat.mod_small by lia. lia.
  - eexists. by rewrite Nat2Z.id.
Qed.

(** How many of the threads go to the manager [i]. *)
Definition share (i : nat) (ms : list nat) : nat := length (filter (fun m => m = i) ms).

Lemma share_snoc i ms m : share i (ms ++ [m]) = (share i ms + if decide (m = i) then 1 else 0)%nat.
Proof. unfold share. rewrite filter_app, length_app. f_equal. rewrite filter_cons, filter_nil. by case_decide. Qed.

Lemma next_turn n k : (0 < k)%nat -> (S n / k = n / k + (if decide (S (n mod k) = k) then 1 else 0) /\
  S n mod k = if decide (S (n mod k) = k) then 0 else S (n mod k))%nat.
Proof.
  intros H0. pose proof (Nat.div_mod_eq n k) as E. pose proof (Nat.mod_upper_bound n k ltac:(lia)) as Hb.
  case_decide as Hd.
  - split; symmetry; [apply (Nat.div_unique _ _ _ 0)|apply (Nat.mod_unique _ _ (n / k + 1))]; lia.
  - split; symmetry; [apply (Nat.div_unique _ _ _ (S (n mod k)))|apply (Nat.mod_unique _ _ (n / k))]; lia.
Qed.

Lemma share_round_robin k n i : (i < k)%nat ->
  share i (map (fun j => j mod k)%nat (seq 0 n)) = (n / k + if decide (i < n mod k) then 1 else 0)%nat.
Proof.
  intros Hi. induction n as [|n IH].
  - rewrite Nat.Div0.div_0_l, Nat.Div0.mod_0_l. done.
  - rewrite seq_S, map_app. cbn [map Nat.add]. rewrite share_snoc, IH. destruct (next_turn n k ltac:(lia)) as [-> ->].
    pose proof (Nat.mod_upper_bound n k ltac:(lia)). repeat case_decide; lia.
Qed.

(** Once the managers of the cores are registered, the threads that are
    spawned go to them in turn: every manager gets its share of them, rounded
    up for the first ones. *)
Theorem spawned_in_turn ms _maximumCpus n : ms <> [] -> Z.of_nat (length ms) <= _maximumCpus < 2 ^ 32 -> exists given r',
  spawns n (registered ms (new_ThreadManagerRegistry _maximumCpus)) = Ok (given, r') /\ length given = n /\
  (forall j, (j < n)%nat -> given !! j = Some (j mod length ms)%nat) /\
  (forall i, (i < length ms)%nat -> share i given = (n / length ms + if decide (i < n mod length ms) then 1 else 0)%nat).
Proof.
  intros Hms Hl. set (k := length ms). assert (0 < k)%nat as H0 by (subst k; destruct ms; [done|cbn; lia]).
  rewrite registered_all by (cbn; lia). destruct (spawns_from n (set_managers ms (new_ThreadManagerRegistry _maximumCpus)) 0 k) as [r' Hr];
    [done|done|subst k; lia|by rewrite Nat.Div0.mod_0_l|].
  exists (map (fun i => i mod k)%nat (seq 0 n)), r'. split; [exact Hr|]. split; [by rewrite length_map, length_seq|]. split.
  - intros j Hj. rewrite list_lookup_fmap, lookup_seq_lt by done. done.
  - intros i Hi. by apply share_round_robin.
Qed.
End registry.
Arguments ThreadManagerRegistry T : clear implicits.

(** ** Witness: five threads on two cores *)
#[local] Existing Instance Controllers.MultipleVirtualTimelinesController.
Definition core_manager (id : nat) : World Controllers.Core :=
  new_ThreadManager ∅ [] (ThreadRegistry.new_ThreadRegistry 2 false) ∅
    (Controllers.mkCore id (Multicore.mkMulticore Multicore.Disabling 0 [0; 0] [true; true] 2 false)) false 0 None.

Lemma spawned_in_turn_witness : exists given r',
  spawns 5 (registered [core_manager 0; core_manager 1] (new_ThreadManagerRegistry 2)) = Ok (given, r') /\ share 0 given = 3%nat.
Proof.
  destruct (spawned_in_turn [core_manager 0; core_manager 1] 2 5) as (given&r'&Hr&_&_&Hs); [done|by vm_compute|].
  exists given, r'. split; [exact Hr|]. rewrite (Hs 0%nat); [done|cbn; lia].
Defined.

End ThreadManagerRegistry.
