(* ===== verification/ModelNodes.v ===== *)
(** * Models of methods

    A method may be replaced by a queueing network, which the scheduler
    simulates in virtual time: src/src/vex/models, with the nodes of JmtNodeParser
    (VexQueueingNode, VexInfiniteServerNode, their local variants and the nodes
    behind them, PostActionNode), the customers VexSchedSimCustomer, and the
    network VexSchedSimQueueingNetwork; and the loops over them of ModelHandler,
    VexThreadState and ThreadManager.  The nodes are shared by all threads, so
    that a step of one thread can resume another.  Nodes, and customers, of
    which each thread has one, are found by their addresses; what is sampled is
    a sequence.  Customers that simulate themselves (VexThreadCustomer), the XML
    parser and printing are left out. *)
From S2P Require Import Prelude Heap AdaptiblePQueue CxxFloat Timers VirtualTimeline Controllers Statistics ThreadParts.
From S2P Require Import ThreadState ThreadQueue Registries ThreadRegistry ThreadManager Handlers ThreadHandlers.
From S2P Require Import LinkedList CinqsQueue CinqsSim.
Import VexThreadState ThreadManager Customer Measure.

Module ModelNodes.

(** ** Nodes *)
Section data.
Context {Q : Type} `{HD : !Discipline float Q}.

(** Where the link of a node leads. *)
Inductive Link := LinkTo (n : nat) | ProbabilisticBranch (probs : list float) (nodes : list nat) | Earth.

(** Whether a service waits, or uses the processor of its thread: the classes
    of nodes and those called local. *)
Inductive consumption := Remote | Local.

(** Nobody sets a loss node: it is the null node, which does nothing. *)
Record VexPool := mkVexPool {
  queue : Queue.Queue float Q;
  resources : Resource.Resource float;
  losses : Z;
  mutex : bool;
  uncontendedServiceTimes : Z;
  queueingTimes : Z;
  postQueueingAction : nat;
  postServiceAction : nat;
}.

Inductive node_class :=
  | Source | Sink
  | VexInfiniteServerNode (k : consumption) (postServiceAction : nat)
  | VexQueueingNode (k : consumption) (p : VexPool)
  | PostServiceActionNode (attachedTo : nat)
  | PostQueueingActionNode (attachedTo : nat)
  | PostActionInfiniteServer (attachedTo : nat).

Record Node := mkNode { class : node_class; link : Link; arrivals : Z }.

(** [draws] counts the samples that were taken. *)
Record Network := mkNetwork {
  nodes : gmap nat Node;
  customers : Customers float;
  completions : Z;
  responseTime : Measure float;
  draws : nat;
}.

Definition set_queue (q : Queue.Queue float Q) (p : VexPool) : VexPool :=
  mkVexPool q p.(resources) p.(losses) p.(mutex) p.(uncontendedServiceTimes) p.(queueingTimes) p.(postQueueingAction) p.(postServiceAction).
Definition set_resources (r : Resource.Resource float) (p : VexPool) : VexPool :=
  mkVexPool p.(queue) r p.(losses) p.(mutex) p.(uncontendedServiceTimes) p.(queueingTimes) p.(postQueueingAction) p.(postServiceAction).
Definition set_losses (n : Z) (p : VexPool) : VexPool :=
  mkVexPool p.(queue) p.(resources) n p.(mutex) p.(uncontendedServiceTimes) p.(queueingTimes) p.(postQueueingAction) p.(postServiceAction).
Definition set_mutex (b : bool) (p : VexPool) : VexPool :=
  mkVexPool p.(queue) p.(resources) p.(losses) b p.(uncontendedServiceTimes) p.(queueingTimes) p.(postQueueingAction) p.(postServiceAction).
Definition set_uncontendedServiceTimes (n : Z) (p : VexPool) : VexPool :=
  mkVexPool p.(queue) p.(resources) p.(losses) p.(mutex) n p.(queueingTimes) p.(postQueueingAction) p.(postServiceAction).
Definition set_queueingTimes (n : Z) (p : VexPool) : VexPool :=
  mkVexPool p.(queue) p.(resources) p.(losses) p.(mutex) p.(uncontendedServiceTimes) n p.(postQueueingAction) p.(postServiceAction).

Definition new_VexPool (n : Z) (q : Queue.Queue float Q) (postQueueingAction postServiceAction : nat) : VexPool :=
  mkVexPool q (Resource.new_Resource n) 0 false 0 0 postQueueingAction postServiceAction.

Definition set_class (c : node_class) (x : Node) : Node := mkNode c x.(link) x.(arrivals).
Definition set_arrivals (a : Z) (x : Node) : Node := mkNode x.(class) x.(link) a.
Definition set_nodes (ns : gmap nat Node) (x : Network) : Network :=
  mkNetwork ns x.(customers) x.(completions) x.(responseTime) x.(draws).
Definition set_customers (cs : Customers float) (x : Network) : Network :=
  mkNetwork x.(nodes) cs x.(completions) x.(responseTime) x.(draws).
Definition set_draws (d : nat) (x : Network) : Network :=
  mkNetwork x.(nodes) x.(customers) x.(completions) x.(responseTime) d.

Definition set_finished (b : bool) (c : Customer float) : Customer float :=
  mkCustomer c.(type) c.(priority) c.(arrivalTime) c.(serviceDemand) c.(queueInsertionTime) b c.(location) c.(ordering).
Definition setclass (k : Z) (c : Customer float) : Customer float :=
  mkCustomer k c.(priority) c.(arrivalTime) c.(serviceDemand) c.(queueInsertionTime) c.(finished) c.(location) c.(ordering).

(** [Sim::now()]: nothing in VEX runs the diary of cinqs. *)
Definition now : float := t_zero.

(** A new customer; [priority] and [location] of the constructor. *)
Definition new_VexSchedSimCustomer : Customer float := mkCustomer 0 0 now t_zero t_zero false None ByClass.

(** [DiscreteSampler::next] on a number [r] between 0 and 1: the index at which
    the sum of the probabilities reaches it, which may be behind the array. *)
Fixpoint discrete_next (acc : float) (probs : list float) (r : float) : nat :=
  match probs with
  | [] => 0
  | p :: probs => let acc := f64_add acc p in if f_ltb acc r then S (discrete_next acc probs r) else 0
  end%nat.

End data.
Arguments Network : clear implicits.
Arguments Node : clear implicits.
Arguments VexPool : clear implicits.
Arguments node_class : clear implicits.

Section operations.
Context `{HO : StdHeapOps} {T L Q : Type} `{HC : Controllers.VirtualTimelineController T} `{HD : !Discipline float Q}.
Context `{HP : Part (Network Q) L}.
Variable managerId : nat.
Variable gsf : float.

(** What the generators of random numbers give at each draw: the service time
    that a node samples for a class, and [rand() / RAND_MAX]. *)
Variable sample : nat -> Z -> nat -> float.
Variable uniform : nat -> float.

Abbreviation V := (Vex T L).

Definition net_of (v : V) : Network Q := part v.(locks).
Definition on_net (f : Network Q -> Network Q) (v : V) : V := mkVex v.(world) (set_part (f (net_of v)) v.(locks)).
Definition on_world (f : World T -> World T) (v : V) : V := mkVex (f v.(world)) v.(locks).
Definition act_world (f : World T -> res (World T)) (v : V) : res V := w ← f v.(world); Ok (mkVex w v.(locks)).

(** [n->...] and [c->...]. *)
Definition get_node (n : nat) (v : V) : res (Node Q) :=
  match (net_of v).(nodes) !! n with Some x => Ok x | None => Err NullDereference end.
Definition put_node (n : nat) (x : Node Q) : V -> V := on_net (fun y => set_nodes (<[n := x]> y.(nodes)) y).
Definition get_pool (n : nat) (v : V) : res (VexPool Q) :=
  x ← get_node n v; match x.(class) with VexQueueingNode _ p => Ok p | _ => Err NullDereference end.
Definition put_pool (n : nat) (p : VexPool Q) : V -> V :=
  on_net (fun y => set_nodes (alter (fun x => match x.(class) with VexQueueingNode k _ => set_class (VexQueueingNode k p) x | _ => x end) n y.(nodes)) y).
Definition get_customer (t : nat) (v : V) : res (Customer float) :=
  match (net_of v).(customers) !! t with Some c => Ok c | None => Err NullDereference end.
Definition put_customer (t : nat) (c : Customer float) : V -> V := on_net (fun y => set_customers (<[t := c]> y.(customers)) y).
Definition on_customer (f : Customer float -> Customer float) (t : nat) (v : V) : res V := c ← get_customer t v; Ok (put_customer t (f c) v).

(** ** VexSchedSimCustomer

    The customer of [t]; [service], [blockAtQueue] and [waitRemote] say whether
    the action is over, which it never is: the scheduler goes on later. *)
Definition setLocation (n t : nat) (v : V) : res V :=
  on_customer (Customer.setLocation (Some n)) t (on_world (upd t (upd_model (ModelHandler.setCurrentNode (Some n)))) v).

(** [VexThreadState::setInModelSimulation(source, customer)]: a thread starts at
    the source of its method. *)
Definition setInModelSimulationAt (source t : nat) : V -> V :=
  on_world (upd t (fun s => upd_model (ModelHandler.setCustomer (Some t)) (upd_model (ModelHandler.setCurrentNode (Some source)) (VexThreadState.setInModelSimulation s)))).

Definition service (time : Z) (t : nat) (v : V) : bool * V :=
  (false, on_world (upd t (upd_model (ModelHandler.initiateLocalResourceConsumption time))) v).

(** The mutex of a node. *)
Definition lock_node (n : nat) (v : V) : res V :=
  p ← get_pool n v; if p.(mutex) then Err SelfDeadlock else Ok (put_pool n (set_mutex true p) v).
Definition unlock_node (n : nat) (v : V) : res V := p ← get_pool n v; Ok (put_pool n (set_mutex false p) v).

Definition blockAtQueue (n t : nat) (v : V) : res (bool * V) :=
  v ← unlock_node n (on_world (upd t setInModelWaiting) v); Ok (false, v).

Definition resume (resumeTime : Z) (t : nat) (v : V) : res V :=
  let v := on_world (upd t (fun s => upd_timers (Timers.leapForwardTo resumeTime) (VexThreadState.setInModelSimulation s))) v in
  guard_assert (bool_decide (getThreadCurrentlyControllingManager (thread_of t v.(world)) <> None)) ;;
  act_world (pushIntoRunnableQueue t) v.

Definition waitRemote (duration : Z) (t : nat) (v : V) : bool * V :=
  (false, on_world (upd t (startModelTimedWaiting gsf duration)) v).

Definition setFinished (t : nat) (v : V) : res V := on_customer (set_finished true) t v.

(** ** Links *)
Definition next_node (l : Link) (v : V) : res (nat * V) :=
  match l with
  | LinkTo n => Ok (n, v)
  | ProbabilisticBranch probs ns =>
    let d := (net_of v).(draws) in
    let v := on_net (set_draws (S d)) v in
    match ns !! discrete_next t_zero probs (uniform d) with
    | Some n => Ok (n, v)
    | None => Err OutOfBounds
    end
  | Earth => Err NullDereference
  end.

(** [CinqsNode::forward] through [VexSchedSimQueueingNetwork::enterNode]. *)
Definition forward (n t : nat) (v : V) : res V :=
  x ← get_node n v; '(m, v) ← next_node x.(link) v; setLocation m t v.

(** ** Service *)
Definition nanoseconds (c : Customer float) : Z := f_to_ll (f64_mul c.(serviceDemand) (ll_to_f64 1000000000)).

Definition releaseResourceAt (releaseTime : Z) (n : nat) (v : V) : res V :=
  v ← lock_node n v;
  p ← get_pool n v;
  v ← (if negb (Queue.isEmpty p.(queue)) then
         '(c, q) ← Queue.dequeue now (net_of v).(customers) p.(queue);
         resume releaseTime c (put_pool n (set_queue q p) v)
       else
         r ← Resource.release now p.(resources);
         Ok (put_pool n (set_resources r p) v));
  unlock_node n v.

Definition VexQueueingNode_onCompletingService (n t : nat) (v : V) : res V :=
  v ← releaseResourceAt (getEstimatedRealTime (thread_of t v.(world))) n v; forward n t v.

(** The service of a node: it is over, and [completed] goes on, or the customer
    is left at the node behind. *)
Definition serve (k : consumption) (post : nat) (completed : V -> res V) (t : nat) (v : V) : res V :=
  c ← get_customer t v;
  let '(over, v) := match k with Local => service (nanoseconds c) t v | Remote => waitRemote (nanoseconds c) t v end in
  if over : bool then completed v else setLocation post t v.

Definition invokeService (k : consumption) (n t : nat) (v : V) : res V :=
  p ← get_pool n v; serve k p.(postServiceAction) (VexQueueingNode_onCompletingService n t) t v.

Definition VexQueueingNode_accept (k : consumption) (n t : nat) (v : V) : res V :=
  v ← lock_node n v;
  p ← get_pool n v;
  if Resource.resourceIsAvailable p.(resources) then
    r ← Resource.claim now p.(resources);
    let p := set_uncontendedServiceTimes (uint_add p.(uncontendedServiceTimes) 1) (set_resources r p) in
    v ← unlock_node n (put_pool n p v);
    invokeService k n t v
  else if Queue.canAccept p.(queue) then
    let p := set_queueingTimes (uint_add p.(queueingTimes) 1) p in
    '(cs, q) ← Queue.enqueue now t (net_of v).(customers) p.(queue);
    '(over, v) ← blockAtQueue n t (put_pool n (set_queue q p) (on_net (set_customers cs) v));
    if over : bool then invokeService k n t v else setLocation p.(postQueueingAction) t v
  else Ok (put_pool n (set_losses (int_add p.(losses) 1) p) v).

Definition VexInfiniteServerNode_accept (k : consumption) (post n t : nat) : V -> res V := serve k post (forward n t) t.

(** [Sink::accept]. *)
Definition complete (t : nat) (v : V) : res V :=
  c ← get_customer t v;
  let v := on_net (fun y => mkNetwork y.(nodes) y.(customers) (int_add y.(completions) 1)
    (CustomerMeasure_add (t_sub now c.(arrivalTime)) y.(responseTime)) y.(draws)) v in
  setFinished t v.

(** [CinqsNode::enter]; nodes with service sample its time first. *)
Definition enter_base (n t : nat) (v : V) : res V :=
  x ← get_node n v; setLocation n t (put_node n (set_arrivals (int_add x.(arrivals) 1) x) v).

Definition draw_service (n t : nat) (v : V) : res V :=
  c ← get_customer t v;
  let d := (net_of v).(draws) in
  Ok (put_customer t (setServiceDemand (sample n c.(type) d) c) (on_net (set_draws (S d)) v)).

(** The virtual [enter]. *)
Definition enter (n t : nat) (v : V) : res V :=
  x ← get_node n v;
  match x.(class) with
  | Source => v ← enter_base n t v; forward n t v
  | Sink => v ← enter_base n t v; complete t v
  | VexInfiniteServerNode k post => v ← draw_service n t v; v ← enter_base n t v; VexInfiniteServerNode_accept k post n t v
  | VexQueueingNode k _ => v ← draw_service n t v; v ← enter_base n t v; VexQueueingNode_accept k n t v
  | PostServiceActionNode m => VexQueueingNode_onCompletingService m t v
  | PostQueueingActionNode m =>
    y ← get_node m v;
    match y.(class) with VexQueueingNode k _ => invokeService k m t v | _ => Err NullDereference end
  | PostActionInfiniteServer m => forward m t v
  end.

(** ** The simulation of a thread *)
Definition resumeModelSimulation (t : nat) (v : V) : res (bool * V) :=
  match (thread_of t v.(world)).(modelHandler).(ModelHandler.currentNode) with
  | None => Err NullDereference
  | Some n =>
    v ← enter n t v;
    c ← get_customer t v;
    if c.(finished) then Ok (true, put_customer t (set_finished false c) v) else Ok (false, v)
  end.

(** One turn of the loop of [VexThreadState::resumeModelSimulation]. *)
Definition model_turn (totalExecutionTime : Z) (t : nat) (v : V) : res (bool * Z * V) :=
  let s := thread_of t v.(world) in
  let initialThreadErt := getEstimatedRealTime s in
  let '(localTimeServiced, h) := ModelHandler.simulateLocalServiceTime totalExecutionTime s.(modelHandler) in
  '(finished, v) ← (if negb (localTimeServiced =? 0)
                    then Ok (false, on_world (upd t (fun s => upd_timers (Timers.addLocalTime gsf localTimeServiced) (set_modelHandler h s))) v)
                    else resumeModelSimulation t v);
  Ok (finished, totalExecutionTime -ll (getEstimatedRealTime (thread_of t v.(world)) -ll initialThreadErt), v).

(** Each turn takes one unit of fuel. *)
Fixpoint runModel (fuel : nat) (totalExecutionTime : Z) (t : nat) (v : V) : res (bool * Z * V) :=
  match fuel with
  | O => Err OutOfFuel
  | S fuel =>
    '(finished, total, v) ← model_turn totalExecutionTime t v;
    let s := thread_of t v.(world) in
    if negb finished && isActiveInModel s && (getTimeout s <=? 0) && (0 <? total)
    then runModel fuel total t v else Ok (finished, total, v)
  end.

(** ** ThreadManager *)
Definition hasResumedModelSimulationRunToCompletion (fuel t : nat) (totalExecutionTime : Z) (v : V) : res (bool * V) :=
  '(modelSimulationFinished, _, v) ← runModel fuel totalExecutionTime t (on_world (upd t (VexThreadState.setAwaken false)) v);
  v ← act_world (with_timeline (Controllers.commitModelSimulationProgress (isModelTimedWaiting (thread_of t v.(world)))) t) v;
  Ok (modelSimulationFinished, v).

Definition _simulateModel (fuel t : nat) (totalExecutionTime : Z) (v : V) : res V :=
  '(finished, v) ← hasResumedModelSimulationRunToCompletion fuel t totalExecutionTime v;
  if finished : bool then
    let v := on_world (fun w => upd t waitForRealCodeToComplete (upd t (upd_timers Timers.updateCpuTimeAddingSimulatedVirtualTime) w)) v in
    v ← act_world (pushIntoRunnableQueue t) v;
    Ok (on_world (upd t (upd_sched Scheduling.notifyModelSimulationEnd)) v)
  else if isActiveInModel (thread_of t v.(world)) then act_world (pushIntoRunnableQueue t) v else Ok v.

End operations.
End ModelNodes.
