(* ===== verification/ModelNetwork.v ===== *)
(** * Networks of model nodes

    What the networks of [ModelNodes] keep, however the simulations of threads
    are mixed: resources count services, customers wait only for resources
    that are taken, and a step of a simulation never fails; and that the
    simulation of a thread ends within its timeslice. *)
From stdpp Require Import functions.
From S2P Require Import Prelude Heap AdaptiblePQueue CxxFloat Timers VirtualTimeline Controllers Statistics ThreadParts.
From S2P Require Import ThreadState ThreadQueue Registries ThreadRegistry ThreadManager Suspension Handlers ThreadHandlers.
From S2P Require Import LinkedList CinqsQueue CinqsSim ModelNodes.
Import VexThreadState ThreadManager Customer Measure ModelNodes.

Module ModelNetwork.
Section network.
Context `{HO : StdHeapOps} `{HH : !StdHeap HO} {T L Q : Type} `{HC : Controllers.VirtualTimelineController T}.
Context `{HD : !Discipline float Q} `{HL : !DisciplineLaws float Q}.
Context `{HP : Part (Network Q) L}.
Variable gsf : float.
Variable sample : nat -> Z -> nat -> float.
Variable uniform : nat -> float.

(** Something that is known of all samples. *)
Variable good : float -> Prop.
Hypothesis sample_good : forall n k d, good (sample n k d).
Implicit Types (x : Network Q) (w : World T) (p : VexPool Q) (t u n m : nat) (W : nat -> list nat).

Abbreviation V := (Vex T L).

(** ** Who is where *)
Definition node_at w t : option nat := (thread_of t w).(modelHandler).(ModelHandler.currentNode).

Definition pool_in x n : option (consumption * VexPool Q) :=
  nd ← x.(nodes) !! n; match nd.(class) with VexQueueingNode k p => Some (k, p) | _ => None end.

Definition class_at x n : option (node_class Q) := class <$> x.(nodes) !! n.

(** [t] has a resource of the node: it is served, or it was resumed and is
    going to be.  [ws] wait. *)
Definition holds w p (ws : list nat) t : Prop :=
  node_at w t = Some p.(postServiceAction) \/ (node_at w t = Some p.(postQueueingAction) /\ t ∉ ws).

#[export] Instance holds_dec w p ws t : Decision (holds w p ws t).
Proof. apply _. Defined.

(** The customers that have one, but for [tr], which is on its way. *)
Definition holders (tr : option nat) x w p (ws : list nat) : nat :=
  length (filter (fun t => tr <> Some t /\ holds w p ws t) (elements (dom x.(customers)))).

(** Where a link may lead: to a node that is neither a source nor one behind
    another node. *)
Definition station x n : Prop :=
  match class_at x n with
  | Some Sink | Some (VexInfiniteServerNode _ _) | Some (VexQueueingNode _ _) => True
  | _ => False
  end.

Definition link_ok x (l : Link) : Prop :=
  match l with
  | LinkTo n => station x n
  | ProbabilisticBranch probs ns => forall d, exists n, ns !! discrete_next t_zero probs (uniform d) = Some n /\ station x n
  | Earth => False
  end.

(** A node and those it is connected with. *)
Definition attached x n (nd : Node Q) : Prop :=
  match nd.(class) with
  | Source => link_ok x nd.(link)
  | Sink => True
  | VexInfiniteServerNode _ post => class_at x post = Some (PostActionInfiniteServer n) /\ link_ok x nd.(link)
  | VexQueueingNode _ p => class_at x p.(postServiceAction) = Some (PostServiceActionNode n) /\
      class_at x p.(postQueueingAction) = Some (PostQueueingActionNode n) /\ link_ok x nd.(link)
  | PostServiceActionNode m => exists k p, pool_in x m = Some (k, p) /\ p.(postServiceAction) = n
  | PostQueueingActionNode m => exists k p, pool_in x m = Some (k, p) /\ p.(postQueueingAction) = n
  | PostActionInfiniteServer m => exists k, class_at x m = Some (VexInfiniteServerNode k n)
  end.

(** A node with the customers [ws] in its queue; [owed] is a node of which a
    resource is claimed for the customer on its way. *)
Record pool_ok (tr owed : option nat) x w n p (ws : list nat) : Prop := {
  po_queued : queued x.(customers) p.(queue) ws;
  po_once : NoDup ws;
  po_capacity : p.(queue).(Queue.capacity) = Queue.INT_MAX;
  po_accepts t : is_Some (x.(customers) !! t) -> admits x.(customers) p.(queue) t;
  po_mutex : p.(mutex) = false;
  po_range : 0 <= p.(resources).(Resource.resources) /\ p.(resources).(Resource.nresources) < 2 ^ 31;
  po_idle : 0 < p.(resources).(Resource.resources) -> ws = [];
  po_count : p.(resources).(Resource.nresources) - p.(resources).(Resource.resources)
    = Z.of_nat (holders tr x w p ws + if decide (owed = Some n) then 1 else 0);
}.

(** A thread that waits in the queue of a node, and not in that of the
    scheduler. *)
Record waits w p t : Prop := {
  waits_state : (thread_of t w).(currentState) = IN_MODEL_WAITING;
  waits_node : node_at w t = Some p.(postQueueingAction);
  waits_managed : getThreadCurrentlyControllingManager (thread_of t w) <> None;
  waits_off : t ∉ w.(ThreadManager.queue);
}.

Record ok (tr owed : option nat) x w W : Prop := {
  ok_pool n k p : pool_in x n = Some (k, p) -> pool_ok tr owed x w n p (W n);
  ok_waits n k p t : pool_in x n = Some (k, p) -> t ∈ W n -> waits w p t /\ tr <> Some t;
  ok_nowhere n : pool_in x n = None -> W n = [];
  ok_attached n nd : x.(nodes) !! n = Some nd -> attached x n nd;
  ok_placed t n : is_Some (x.(customers) !! t) -> tr <> Some t -> node_at w t = Some n -> is_Some (x.(nodes) !! n);
  ok_alive t c : x.(customers) !! t = Some c -> tr <> Some t -> c.(finished) = false;
  ok_demand n k p t c : pool_in x n = Some (k, p) -> x.(customers) !! t = Some c -> tr <> Some t ->
    node_at w t = Some p.(postQueueingAction) -> good c.(serviceDemand);
  ok_size : Z.of_nat (size x.(customers)) < Queue.INT_MAX;
}.

(** ** Counting *)
Lemma filter_length_ext {A : Type} (P P' : A -> Prop) `{!forall a, Decision (P a)} `{!forall a, Decision (P' a)} (l : list A) :
  (forall a, a ∈ l -> P a <-> P' a) -> length (filter P l) = length (filter P' l).
Proof.
  induction l as [|a l IH]; intros He; [done|]. rewrite !filter_cons. assert (P a <-> P' a) by (apply He; left).
  repeat case_decide; cbn; try tauto; rewrite IH; try done; intros b Hb; apply He; by right.
Qed.

Lemma filter_length_more {A : Type} (P P' : A -> Prop) `{!forall a, Decision (P a)} `{!forall a, Decision (P' a)} (l : list A) (t : A) :
  NoDup l -> t ∈ l -> P' t -> ~ P t -> (forall a, a ∈ l -> a <> t -> P a <-> P' a) ->
  length (filter P' l) = S (length (filter P l)).
Proof.
  induction l as [|a l IH]; intros Hn Hin H1 H2 He; [by apply not_elem_of_nil in Hin|].
  apply NoDup_cons in Hn as [Ha Hn]. rewrite !filter_cons. apply elem_of_cons in Hin as [<-|Hin].
  - rewrite (decide_True (P := P' t)), (decide_False (P := P t)) by done. cbn. f_equal. symmetry. apply filter_length_ext.
    intros b Hb. apply He; [by right|]. by intros ->.
  - assert (P a <-> P' a) by (apply He; [by left|by intros ->]).
    assert (length (filter P' l) = S (length (filter P l))) as IH' by (apply IH; try done; intros b Hb; apply He; by right).
    repeat case_decide; cbn; try tauto; lia.
Qed.

Lemma holders_ext tr x x' w w' p p' ws ws' : dom x'.(customers) = dom x.(customers) ->
  (forall t, is_Some (x.(customers) !! t) -> tr <> Some t -> holds w p ws t <-> holds w' p' ws' t) ->
  holders tr x' w' p' ws' = holders tr x w p ws.
Proof.
  intros Hd He. unfold holders. rewrite Hd. apply filter_length_ext. intros t Ht%elem_of_elements%elem_of_dom.
  destruct (decide (tr = Some t)); [naive_solver|]. specialize (He t Ht ltac:(done)). naive_solver.
Qed.

Lemma holders_more tr x x' w w' p p' ws ws' t : dom x'.(customers) = dom x.(customers) -> is_Some (x.(customers) !! t) ->
  tr <> Some t -> holds w' p' ws' t -> ~ holds w p ws t ->
  (forall u, is_Some (x.(customers) !! u) -> tr <> Some u -> u <> t -> holds w p ws u <-> holds w' p' ws' u) ->
  holders tr x' w' p' ws' = S (holders tr x w p ws).
Proof.
  intros Hd Ht Htr H1 H2 He. unfold holders. rewrite Hd. apply (filter_length_more _ _ _ t); [apply NoDup_elements| |done|by intros [_ ?]|].
  - by apply elem_of_elements, elem_of_dom.
  - intros u Hu%elem_of_elements%elem_of_dom Hne. destruct (decide (tr = Some u)); [naive_solver|].
    specialize (He u Hu ltac:(done) Hne). naive_solver.
Qed.

(** A customer sets off, or arrives. *)
Lemma holders_transit x w p ws t : is_Some (x.(customers) !! t) ->
  holders None x w p ws = (holders (Some t) x w p ws + if decide (holds w p ws t) then 1 else 0)%nat.
Proof.
  intros Ht. unfold holders. case_decide.
  - rewrite Nat.add_1_r. apply (filter_length_more _ _ _ t); [apply NoDup_elements|by apply elem_of_elements, elem_of_dom|done|naive_solver|].
    intros u _ Hne. naive_solver.
  - rewrite Nat.add_0_r. apply filter_length_ext. intros u _. split; [|naive_solver]. intros [_ Hu]. split; [|done]. by intros [= ->].
Qed.

(** ** What never changes

    The links of nodes and what they are connected with. *)
Definition skeleton x n : option (Link * (node_class Q + consumption * nat * nat)) :=
  (fun nd => (nd.(link), match nd.(class) with
                         | VexQueueingNode k p => inr (k, p.(postQueueingAction), p.(postServiceAction))
                         | c => inl c
                         end)) <$> x.(nodes) !! n.

Section skeleton.
Context (x x' : Network Q) (Hsk : forall n, skeleton x' n = skeleton x n).

Lemma skeleton_known n : is_Some (x.(nodes) !! n) -> is_Some (x'.(nodes) !! n).
Proof. specialize (Hsk n). unfold skeleton in Hsk. destruct (nodes x !! n), (nodes x' !! n); try done; by intros [? ?]. Qed.

Lemma skeleton_pool n k p : pool_in x n = Some (k, p) -> exists p', pool_in x' n = Some (k, p') /\
  p'.(postServiceAction) = p.(postServiceAction) /\ p'.(postQueueingAction) = p.(postQueueingAction).
Proof.
  specialize (Hsk n). unfold skeleton, pool_in in *. destruct (nodes x !! n) as [nd|], (nodes x' !! n) as [nd'|]; try done.
  cbn in *. destruct (class nd) eqn:E; try done. destruct (class nd'); try done. intros [= <- <-]. simplify_eq. by eexists.
Qed.

Lemma skeleton_class n c : class_at x n = Some c -> (forall k p, c <> VexQueueingNode k p) -> class_at x' n = Some c.
Proof.
  specialize (Hsk n). unfold skeleton, class_at in *. destruct (nodes x !! n) as [nd|], (nodes x' !! n) as [nd'|]; try done.
  cbn in *. intros [= <-] Hc. destruct (class nd) eqn:E, (class nd') eqn:E'; simplify_eq; try done. by edestruct Hc.
Qed.

Lemma skeleton_station n : station x n -> station x' n.
Proof.
  specialize (Hsk n). unfold skeleton, station, class_at in *. destruct (nodes x !! n) as [nd|], (nodes x' !! n) as [nd'|]; try done.
  cbn in *. destruct (class nd), (class nd'); simplify_eq; try done.
Qed.

Lemma skeleton_link l : link_ok x l -> link_ok x' l.
Proof.
  destruct l as [n|probs ns|]; cbn; [apply skeleton_station| |done].
  intros Hl d. destruct (Hl d) as (n & Hn & Hst). exists n. split; [done|by apply skeleton_station].
Qed.

Lemma skeleton_attached n nd' : (forall n nd, x.(nodes) !! n = Some nd -> attached x n nd) -> x'.(nodes) !! n = Some nd' -> attached x' n nd'.
Proof.
  intros Ha Hn'. pose proof (Hsk n) as Hn. unfold skeleton in Hn. rewrite Hn' in Hn. cbn in Hn.
  destruct (nodes x !! n) as [nd|] eqn:E; [|done]. cbn in Hn. specialize (Ha n nd E). unfold attached in *.
  destruct (class nd) eqn:Ec, (class nd') eqn:Ec'; simplify_eq; try done;
    try (assert (link nd' = link nd) as -> by congruence); [by apply skeleton_link|..].
  - destruct Ha as [Hc Hl]. split; [by apply skeleton_class|by apply skeleton_link].
  - destruct Ha as (Hc & Hc' & Hl). assert (postServiceAction p0 = postServiceAction p) as -> by congruence.
    assert (postQueueingAction p0 = postQueueingAction p) as -> by congruence. split_and!; [by apply skeleton_class..|by apply skeleton_link].
  - destruct Ha as (k & p & (p' & Hp & Hps & _)%skeleton_pool & <-). by exists k, p'.
  - destruct Ha as (k & p & (p' & Hp & _ & Hps)%skeleton_pool & <-). by exists k, p'.
  - destruct Ha as [k Hc]. exists k. by apply skeleton_class.
Qed.

End skeleton.

(** ** Changes that concern no node *)
Definition alike (tr : option nat) (cs cs' : Customers float) : Prop := forall t,
  match cs !! t, cs' !! t with
  | Some c, Some c' => same_rank c c' /\ (tr <> Some t -> c'.(finished) = c.(finished) /\ c'.(serviceDemand) = c.(serviceDemand))
  | None, None => True
  | _, _ => False
  end.

Lemma alike_refl tr cs : alike tr cs cs.
Proof. intros t. by destruct (cs !! t). Qed.

Lemma alike_put t cs c c' : cs !! t = Some c -> same_rank c c' -> alike (Some t) cs (<[t := c']> cs).
Proof.
  intros Hc Hr u. destruct (decide (u = t)) as [->|]; [by rewrite lookup_insert_eq, Hc|].
  rewrite lookup_insert_ne by done. apply alike_refl.
Qed.

Lemma alike_some tr cs cs' t : alike tr cs cs' -> is_Some (cs' !! t) <-> is_Some (cs !! t).
Proof. intros Hs. specialize (Hs t). destruct (cs !! t), (cs' !! t); try done; by split; intros [? ?]. Qed.

Lemma alike_dom tr cs cs' : alike tr cs cs' -> dom cs' = dom cs.
Proof. intros Hs. apply set_eq. intros t. rewrite !elem_of_dom. by eapply alike_some. Qed.

Lemma alike_keeps tr cs cs' : alike tr cs cs' -> keeps cs cs' /\ keeps cs' cs.
Proof.
  intros Hs. split; intros t c Hc; specialize (Hs t); rewrite Hc in Hs.
  - destruct (cs' !! t) as [c'|]; [|done]. exists c'. by destruct Hs.
  - destruct (cs !! t) as [c'|]; [|done]. exists c'. destruct Hs as [(? & ? & ?) _]. by split_and!.
Qed.

(** The threads that are not on their way stay where they are. *)
Record steady (tr : option nat) x w w' W : Prop := {
  steady_at t : is_Some (x.(customers) !! t) -> tr <> Some t -> node_at w' t = node_at w t;
  steady_waits n k p t : pool_in x n = Some (k, p) -> t ∈ W n -> waits w p t -> waits w' p t;
}.

Lemma steady_holders tr x w w' W p ws : steady tr x w w' W -> holders tr x w' p ws = holders tr x w p ws.
Proof. intros Hs. apply holders_ext; [done|]. intros t Ht Htr. unfold holds. by rewrite (steady_at _ _ _ _ _ Hs t Ht Htr). Qed.

Lemma ok_frame tr owed x x' w w' W : ok tr owed x w W -> alike tr x.(customers) x'.(customers) ->
  (forall n, link <$> x'.(nodes) !! n = link <$> x.(nodes) !! n /\ class_at x' n = class_at x n) -> steady tr x w w' W ->
  ok tr owed x' w' W.
Proof.
  intros [Op Ow On Oa Ol Of Od Os] Hc Hn Hs.
  assert (forall n, pool_in x' n = pool_in x n) as Hp.
  { intros n. destruct (Hn n) as [_ Hcl]. unfold class_at, pool_in in *. destruct (nodes x !! n) as [nd|], (nodes x' !! n) as [nd'|]; try done.
    cbn in *. by injection Hcl as ->. }
  assert (forall n, skeleton x' n = skeleton x n) as Hsk.
  { intros n. destruct (Hn n) as [Hl Hcl]. unfold class_at, skeleton in *. destruct (nodes x !! n) as [nd|], (nodes x' !! n) as [nd'|]; try done.
    cbn in *. injection Hcl as ->. by injection Hl as ->. }
  destruct (alike_keeps _ _ _ Hc) as [Hk Hk'].
  split.
  - intros n k p. rewrite Hp. intros Hpool. destruct (Op n k p Hpool) as [Pq Po Pc Pa Pm Pr Pi Pn]. split; try done.
    + eapply queued_keeps; [by apply keeps_all|done].
    + intros t Ht%(alike_some _ _ _ _ Hc). eapply accepts_keeps; [by apply keeps_all|]. by apply Pa.
    + rewrite Pn. do 2 f_equal. symmetry. etransitivity; [|by eapply steady_holders]. apply holders_ext; [by eapply alike_dom|done].
  - intros n k p t. rewrite Hp. intros Hpool Ht. destruct (Ow n k p t Hpool Ht). split; [|done]. by apply (steady_waits _ _ _ _ _ Hs n k).
  - intros n. rewrite Hp. apply On.
  - intros n nd Hnd. by apply (skeleton_attached x x').
  - intros t n Ht%(alike_some _ _ _ _ Hc) Htr. rewrite (steady_at _ _ _ _ _ Hs t Ht Htr). intros Hat.
    apply (skeleton_known x x'); [done|]. by apply (Ol t).
  - intros t c' Hc' Htr. specialize (Hc t). rewrite Hc' in Hc. destruct (customers x !! t) eqn:E; [|done].
    destruct Hc as [_ [-> _]]; [done|]. by apply (Of t).
  - intros n k p t c'. rewrite Hp. intros Hpool Hc' Htr Hat. pose proof Hc as Hct. specialize (Hct t). rewrite Hc' in Hct.
    destruct (customers x !! t) as [c|] eqn:E; [|done]. destruct Hct as [_ [_ ->]]; [done|].
    apply (Od n k p t c); try done. by rewrite <- (steady_at _ _ _ _ _ Hs t) by done.
  - by rewrite <- size_dom, (alike_dom _ _ _ Hc), size_dom.
Qed.

(** ** Changes of one node *)
Definition upd_pool n p x : Network Q :=
  set_nodes (alter (fun nd => match nd.(class) with VexQueueingNode k _ => set_class (VexQueueingNode k p) nd | _ => nd end) n x.(nodes)) x.

Lemma upd_pool_twice n p p' x : upd_pool n p (upd_pool n p' x) = upd_pool n p x.
Proof.
  unfold upd_pool, set_nodes. cbn. f_equal. rewrite alter_alter_eq. apply alter_ext. intros nd _. unfold compose.
  by destruct (class nd) eqn:E; cbn; rewrite ?E.
Qed.

Lemma pool_in_upd n k p p' x m : pool_in x n = Some (k, p) -> pool_in (upd_pool n p' x) m = if decide (m = n) then Some (k, p') else pool_in x m.
Proof.
  unfold pool_in, upd_pool. cbn. intros Hn. case_decide as Hd; [subst|by rewrite lookup_alter_ne].
  rewrite lookup_alter_eq. destruct (nodes x !! n) as [nd|]; [|done]. cbn in *. destruct (class nd); try done. by injection Hn as -> ->.
Qed.

Lemma upd_pool_link n p x m : link <$> (upd_pool n p x).(nodes) !! m = link <$> x.(nodes) !! m.
Proof.
  unfold upd_pool. cbn. destruct (decide (m = n)) as [->|]; [|by rewrite lookup_alter_ne].
  rewrite lookup_alter_eq. destruct (nodes x !! n) as [nd|]; [|done]. cbn. by destruct (class nd).
Qed.

Lemma upd_pool_skeleton n k p p' x m : pool_in x n = Some (k, p) -> p'.(postServiceAction) = p.(postServiceAction) ->
  p'.(postQueueingAction) = p.(postQueueingAction) -> skeleton (upd_pool n p' x) m = skeleton x m.
Proof.
  unfold pool_in, upd_pool, skeleton. cbn. intros Hn E1 E2. destruct (decide (m = n)) as [->|]; [|by rewrite lookup_alter_ne].
  rewrite lookup_alter_eq. destruct (nodes x !! n) as [nd|]; [|done]. cbn in *. destruct (class nd) eqn:E; try done. injection Hn as -> ->.
  cbn. by rewrite E1, E2.
Qed.

(** A pool is replaced: [ws] wait there then.  The customer on its way may be
    another one. *)
Lemma ok_pool_put tr tr' owed owed' x w W n k p p' ws : ok tr owed x w W -> pool_in x n = Some (k, p) ->
  p'.(postServiceAction) = p.(postServiceAction) -> p'.(postQueueingAction) = p.(postQueueingAction) ->
  pool_ok tr' owed' (upd_pool n p' x) w n p' ws -> (forall t, t ∈ ws -> waits w p t /\ tr' <> Some t) ->
  (forall m, m <> n -> owed = Some m <-> owed' = Some m) ->
  (forall m k' q, m <> n -> pool_in x m = Some (k', q) -> holders tr' x w q (W m) = holders tr x w q (W m) /\ forall t, t ∈ W m -> tr' <> Some t) ->
  (forall t m, is_Some (x.(customers) !! t) -> tr' <> Some t -> node_at w t = Some m -> is_Some (x.(nodes) !! m)) ->
  (forall t c, x.(customers) !! t = Some c -> tr' <> Some t -> c.(finished) = false /\ (tr <> Some t \/ good c.(serviceDemand))) ->
  ok tr' owed' (upd_pool n p' x) w (<[n := ws]> W).
Proof.
  intros [Op Ow On Oa Ol Of Od Os] Hp E1 E2 Hok Hws Howed Hoth Hpl Hal.
  assert (forall m, skeleton (upd_pool n p' x) m = skeleton x m) as Hsk by (intros m; by eapply upd_pool_skeleton).
  split; try done.
  - intros m k' q. rewrite (pool_in_upd _ _ _ _ _ _ Hp). case_decide as Hd; [intros [= <- <-]; subst; by rewrite fn_lookup_insert|].
    rewrite fn_lookup_insert_ne by done. intros Hq. destruct (Op m k' q Hq) as [Pq Po Pc Pa Pm Pr Pi Pn]. split; try done.
    rewrite Pn. change (holders tr' (upd_pool n p' x) w q (W m)) with (holders tr' x w q (W m)).
    destruct (Hoth m k' q Hd Hq) as [-> _]. do 2 f_equal. specialize (Howed m Hd). repeat case_decide; naive_solver.
  - intros m k' q t. rewrite (pool_in_upd _ _ _ _ _ _ Hp). case_decide as Hd.
    + intros [= <- <-]. subst. rewrite fn_lookup_insert. intros Ht. destruct (Hws t Ht) as [[Hw1 Hw2 Hw3 Hw4] ?].
      split; [|done]. split; try done. by rewrite E2.
    + rewrite fn_lookup_insert_ne by done. intros Hq Ht. split; [by eapply Ow|]. by apply (Hoth m k' q).
  - intros m. rewrite (pool_in_upd _ _ _ _ _ _ Hp). case_decide; [done|]. rewrite fn_lookup_insert_ne by done. apply On.
  - intros m nd Hnd. by eapply skeleton_attached.
  - intros t m Ht Htr Hat. apply (skeleton_known x); [done|]. by apply (Hpl t).
  - intros t c Hc Htr. by apply (Hal t).
  - intros m k' q t c Hq Hc Htr Hat. destruct (Hal t c Hc Htr) as [_ [Htr'|]]; [|done].
    rewrite (pool_in_upd _ _ _ _ _ _ Hp) in Hq. case_decide; [injection Hq as <- <-; rewrite E2 in Hat; by apply (Od n k p t c)|by apply (Od m k' q t c)].
Qed.

(** ** Setting off and arriving *)
Lemma ok_depart x w W t owed : ok None None x w W -> is_Some (x.(customers) !! t) -> (forall n, t ∉ W n) ->
  (forall n k p, pool_in x n = Some (k, p) -> holds w p (W n) t <-> owed = Some n) -> ok (Some t) owed x w W.
Proof.
  intros [Op Ow On Oa Ol Of Od Os] Ht HW Ho. split; try done.
  - intros n k p Hp. destruct (Op n k p Hp) as [Pq Po Pc Pa Pm Pr Pi Pn]. split; try done. rewrite Pn.
    rewrite (holders_transit x w p (W n) t Ht). rewrite (decide_False (P := None = Some n)) by done.
    specialize (Ho n k p Hp). destruct (decide (holds w p (W n) t)), (decide (owed = Some n)); [lia|tauto|tauto|lia].
  - intros n k p u Hp Hu. split; [by eapply Ow|]. intros [= ->]. by apply (HW n).
  - intros u n Hu _. by apply Ol.
  - intros u c Hc _. by apply (Of u).
  - intros n k p u c Hp Hc _. by apply (Od n k p u c).
Qed.

Lemma ok_arrive x w W t owed m c : ok (Some t) owed x w W -> x.(customers) !! t = Some c -> c.(finished) = false ->
  ((forall n, class_at x m <> Some (PostQueueingActionNode n)) \/ good c.(serviceDemand)) -> node_at w t = Some m -> is_Some (x.(nodes) !! m) ->
  (forall n k p, pool_in x n = Some (k, p) -> holds w p (W n) t <-> owed = Some n) -> ok None None x w W.
Proof.
  intros [Op Ow On Oa Ol Of Od Os] Hc Hfin Hgood Hat Hm Ho. assert (is_Some (x.(customers) !! t)) as Ht by (by exists c). split; try done.
  - intros n k p Hp. destruct (Op n k p Hp) as [Pq Po Pc Pa Pm Pr Pi Pn]. split; try done. rewrite Pn.
    rewrite (holders_transit x w p (W n) t Ht). rewrite (decide_False (P := None = Some n)) by done.
    specialize (Ho n k p Hp). destruct (decide (holds w p (W n) t)), (decide (owed = Some n)); [lia|tauto|tauto|lia].
  - intros n k p u Hp Hu. split; [by eapply Ow|done].
  - intros u n Hu _ Hn. destruct (decide (u = t)) as [->|]; [congruence|]. apply (Ol u n); [done|congruence|done].
  - intros u c' Hc' _. destruct (decide (u = t)) as [->|]; [congruence|]. apply (Of u c'); [done|congruence].
  - intros n k p u c' Hp Hc' _ Hn. destruct (decide (u = t)) as [->|]; [|apply (Od n k p u c'); [done..|congruence|done]].
    destruct Hgood as [Hst|]; [|congruence].
    exfalso. rewrite Hat in Hn. injection Hn as ->. unfold pool_in in Hp. destruct (nodes x !! n) as [nd|] eqn:E; [|done]. cbn in Hp.
    destruct (class nd) eqn:Ec; try done. injection Hp as <- <-. specialize (Oa n nd E). unfold attached in Oa. rewrite Ec in Oa.
    destruct Oa as (_ & Hq & _). by apply (Hst n).
Qed.

(** ** The operations *)
Abbreviation okv tr owed v W := (ok tr owed (net_of v) v.(world) W).

Lemma net_on_net f (v : V) : net_of (on_net f v) = f (net_of v).
Proof. unfold net_of, on_net. cbn. apply part_set. Qed.

Lemma net_put_pool n p (v : V) : net_of (put_pool n p v) = upd_pool n p (net_of v).
Proof. apply net_on_net. Qed.

Lemma get_node_known n nd (v : V) : (net_of v).(nodes) !! n = Some nd -> get_node n v = Ok nd.
Proof. unfold get_node. by intros ->. Qed.

Lemma get_pool_known n k p (v : V) : pool_in (net_of v) n = Some (k, p) -> get_pool n v = Ok p.
Proof.
  unfold pool_in, get_pool, get_node. destruct (nodes (net_of v) !! n) as [nd|]; [|done]. cbn. destruct (class nd); try done.
  by intros [= -> ->].
Qed.

Lemma pool_known x n k p : pool_in x n = Some (k, p) -> exists nd, x.(nodes) !! n = Some nd /\ nd.(class) = VexQueueingNode k p.
Proof.
  unfold pool_in. destruct (nodes x !! n) as [nd|]; [|done]. cbn. destruct (class nd) eqn:E; try done. intros [= -> ->]. by exists nd.
Qed.

Lemma thread_of_other u t f w : u <> t -> thread_of u (upd t f w) = thread_of u w.
Proof. intros Hu. unfold thread_of, upd. cbn. rewrite lookup_update_thread. by rewrite decide_False. Qed.

(** *** A customer on its way *)
Lemma steady_self t owed x w w' W : ok (Some t) owed x w W -> (forall u, u <> t -> thread_of u w' = thread_of u w) ->
  (forall n u, u ∈ W n -> u ∉ w.(ThreadManager.queue) -> u ∉ w'.(ThreadManager.queue)) -> steady (Some t) x w w' W.
Proof.
  intros Hok Ht Hq. split.
  - intros u _ Hu. unfold node_at. rewrite Ht; [done|congruence].
  - intros n k p u Hp Hu [H1 H2 H3 H4]. destruct (ok_waits _ _ _ _ _ Hok n k p u Hp Hu) as [_ Hne].
    assert (thread_of u w' = thread_of u w) as He by (apply Ht; congruence).
    split; [by rewrite He|unfold node_at; by rewrite He|by rewrite He|by apply (Hq n)].
Qed.

(** The customer and the thread [t] change, the counters of nodes may. *)
Lemma ok_transit t owed x x' w w' W : ok (Some t) owed x w W -> alike (Some t) x.(customers) x'.(customers) ->
  (forall n, link <$> x'.(nodes) !! n = link <$> x.(nodes) !! n /\ class_at x' n = class_at x n) ->
  (forall u, u <> t -> thread_of u w' = thread_of u w) -> w'.(ThreadManager.queue) = w.(ThreadManager.queue) -> ok (Some t) owed x' w' W.
Proof. intros Hok Hc Hn Ht Hq. eapply ok_frame; [done..|]. eapply steady_self; [done..|]. intros n u _. by rewrite Hq. Qed.

Definition put_at m t x : Network Q :=
  set_customers (alter (Customer.setLocation (Some m)) t x.(customers)) x.

Definition place m (s : thread) : thread := upd_model (ModelHandler.setCurrentNode (Some m)) s.

Lemma setLocation_known m t (v : V) : is_Some ((net_of v).(customers) !! t) -> exists v', ModelNodes.setLocation m t v = Ok v' /\
  net_of v' = put_at m t (net_of v) /\ v'.(world) = upd t (place m) v.(world).
Proof.
  intros [c Hc]. unfold ModelNodes.setLocation, on_customer, get_customer. change (net_of (on_world _ v)) with (net_of v). rewrite Hc.
  eexists. split; [reflexivity|]. split; [|done]. unfold put_customer. rewrite net_on_net. change (net_of (on_world _ v)) with (net_of v).
  unfold put_at, set_customers. f_equal. apply map_eq. intros u. destruct (decide (u = t)) as [->|].
  - by rewrite lookup_insert_eq, lookup_alter_eq, Hc.
  - by rewrite lookup_insert_ne, lookup_alter_ne.
Qed.

Lemma alike_alter t cs (f : Customer float -> Customer float) : (forall c, same_rank c (f c)) -> alike (Some t) cs (alter f t cs).
Proof.
  intros Hf u. destruct (decide (u = t)) as [->|].
  - rewrite lookup_alter_eq. destruct (cs !! t) as [c|]; [|done]. cbn. split; [apply Hf|done].
  - rewrite lookup_alter_ne by done. apply alike_refl.
Qed.

Lemma ok_put_at m t owed x w W : ok (Some t) owed x w W -> ok (Some t) owed (put_at m t x) (upd t (place m) w) W.
Proof.
  intros Hok. eapply ok_transit; [exact Hok|by apply alike_alter|done|intros u Hu; by apply thread_of_other|done].
Qed.

(** *** Where a customer is, and what it has *)
Lemma pool_posts tr owed x w W n k p : ok tr owed x w W -> pool_in x n = Some (k, p) ->
  class_at x p.(postServiceAction) = Some (PostServiceActionNode n) /\ class_at x p.(postQueueingAction) = Some (PostQueueingActionNode n).
Proof.
  intros Hok (nd & Hn & Hc)%pool_known. pose proof (ok_attached _ _ _ _ _ Hok n nd Hn) as Ha. unfold attached in Ha. rewrite Hc in Ha. tauto.
Qed.

Definition gives (c : node_class Q) : option nat :=
  match c with PostServiceActionNode n | PostQueueingActionNode n => Some n | _ => None end.

Lemma holds_at tr owed x w W t m c : ok tr owed x w W -> node_at w t = Some m -> class_at x m = Some c -> (forall n, t ∉ W n) ->
  forall n k p, pool_in x n = Some (k, p) -> holds w p (W n) t <-> gives c = Some n.
Proof.
  intros Hok Hat Hc HW n k p Hp. destruct (pool_posts _ _ _ _ _ _ _ _ Hok Hp) as [Hs Hq]. unfold holds. rewrite Hat. split.
  - intros [[= E]|[[= E] _]]; subst m; [rewrite Hs in Hc|rewrite Hq in Hc]; by injection Hc as <-.
  - intros Hg. unfold class_at in Hc. destruct (nodes x !! m) as [nd|] eqn:E; [|done]. injection Hc as <-.
    pose proof (ok_attached _ _ _ _ _ Hok m nd E) as Ha. unfold attached in Ha.
    destruct (class nd); try done; injection Hg as ->; destruct Ha as (k' & p' & Hp' & <-); rewrite Hp in Hp'; injection Hp' as _ <-; auto.
Qed.

(** *** Releasing a resource *)
Lemma runnable_push t w : t ∉ w.(ThreadManager.queue) -> exists w', pushIntoRunnableQueue t w = Ok w' /\ w'.(threads) = w.(threads) /\
  w'.(ThreadManager.queue) ≡ₚ t :: w.(ThreadManager.queue).
Proof.
  intros Ht. destruct (Suspension.push_total t w Ht) as [w' Hw']. exists w'. split; [done|].
  unfold pushIntoRunnableQueue, ThreadQueue.push, guard_assert in Hw'. repeat case_match; try done; injection Hw' as <-;
    (split; [done|]); cbn; apply (AdaptiblePQueue.push_perm (ert w.(threads))).
Qed.

Lemma lock_known n k p (v : V) : pool_in (net_of v) n = Some (k, p) -> p.(mutex) = false ->
  lock_node n v = Ok (put_pool n (set_mutex true p) v).
Proof. intros Hp Hm. unfold lock_node. rewrite (get_pool_known _ _ _ _ Hp). cbn. by rewrite Hm. Qed.

Lemma unlock_known n k p (v : V) : pool_in (net_of v) n = Some (k, p) -> unlock_node n v = Ok (put_pool n (set_mutex false p) v).
Proof. intros Hp. unfold unlock_node. by rewrite (get_pool_known _ _ _ _ Hp). Qed.

Lemma pool_in_put n k p p' (v : V) : pool_in (net_of v) n = Some (k, p) -> pool_in (net_of (put_pool n p' v)) n = Some (k, p').
Proof. intros Hp. rewrite net_put_pool, (pool_in_upd _ _ _ _ _ _ Hp). by rewrite decide_True. Qed.

(** The thread that a release resumes. *)
Definition resumed (releaseTime : Z) (s : thread) : thread :=
  upd_timers (Timers.leapForwardTo releaseTime) (VexThreadState.setInModelSimulation s).

Lemma resume_known r u (v : V) : getThreadCurrentlyControllingManager (thread_of u v.(world)) <> None -> u ∉ v.(world).(ThreadManager.queue) ->
  exists w', ModelNodes.resume r u v = Ok (mkVex w' v.(locks)) /\ w'.(threads) = (upd u (resumed r) v.(world)).(threads) /\
    w'.(ThreadManager.queue) ≡ₚ u :: v.(world).(ThreadManager.queue).
Proof.
  intros Hm Hq. unfold ModelNodes.resume. destruct (runnable_push u (upd u (resumed r) v.(world))) as (w' & Hw' & Ht & Hp); [done|].
  exists w'. split; [|done]. rewrite bool_decide_eq_true_2; [|cbn; rewrite thread_of_upd; exact Hm].
  cbn [guard_assert mbind res_bind]. unfold act_world. change (world (on_world _ v)) with (upd u (resumed r) v.(world)). by rewrite Hw'.
Qed.

(** What is left of a pool when [t] gives its resource back, and [u] gets it. *)
Lemma pool_ok_handed t x w n k p u rest q d c W : ok (Some t) (Some n) x w W -> pool_in x n = Some (k, p) -> W n = u :: rest ->
  q = departed now c d p.(queue) -> queued x.(customers) q rest -> (forall e, admits x.(customers) p.(queue) e -> admits x.(customers) q e) ->
  ok (Some t) None (upd_pool n (set_mutex false (set_queue q (set_mutex true p))) x) w (<[n := rest]> W).
Proof.
  intros Hok Hp HW -> Hq Ha. pose proof (ok_pool _ _ _ _ _ Hok n k p Hp) as [Pq Po Pc Pa Pm Pr Pi Pn]. rewrite HW in *.
  apply NoDup_cons in Po as [Hu Po]. destruct (ok_waits _ _ _ _ _ Hok n k p u Hp) as [Huw Hut]; [rewrite HW; by left|].
  eapply ok_pool_put; [exact Hok|exact Hp|done|done| | | | |by intros; eapply ok_placed|].
  - split; cbn; try done.
    + intros e He. apply Ha, Pa, He.
    + intros Hr. by specialize (Pi Hr).
    + rewrite Pn, decide_True by done. rewrite decide_False by done.
      change (holders _ (upd_pool _ _ x) w _ rest) with (holders (Some t) x w p rest).
      rewrite (holders_more (Some t) x x w w p p (u :: rest) rest u); [lia|done|by apply (queued_known _ _ _ Pq); left|done| | |].
      * right. split; [apply Huw|done].
      * intros [Hs|[_ Hs]]; [|apply Hs; by left].
        destruct (pool_posts _ _ _ _ _ _ _ _ Hok Hp) as [Hs1 Hs2]. rewrite (waits_node _ _ _ Huw) in Hs. injection Hs as Hs. congruence.
      * intros v _ _ Hv. unfold holds. set_solver.
  - intros v Hv. eapply ok_waits; [exact Hok|exact Hp|]. rewrite HW. by right.
  - intros m Hm. split; [congruence|done].
  - intros m k' q Hm Hq'. split; [done|]. intros v Hv. by eapply ok_waits.
  - intros v cv Hcv Hv. split; [by eapply ok_alive|by left].
Qed.
Lemma ok_weaken tr owed x w W W' : (forall n, W' n = W n) -> ok tr owed x w W -> ok tr owed x w W'.
Proof.
  intros He [Op Ow On Oa Ol Of Od Os]. split; try done.
  - intros n k p. rewrite He. apply Op.
  - intros n k p t. rewrite He. apply Ow.
  - intros n. rewrite He. apply On.
Qed.

Lemma release_idle t r n k p (v : V) W : okv (Some t) (Some n) v W -> pool_in (net_of v) n = Some (k, p) -> W n = [] ->
  exists v', releaseResourceAt r n v = Ok v' /\ v'.(world) = v.(world) /\ okv (Some t) None v' W /\
    (net_of v').(customers) = (net_of v).(customers) /\ exists p', pool_in (net_of v') n = Some (k, p').
Proof.
  intros Hok Hp HW. pose proof (ok_pool _ _ _ _ _ Hok n k p Hp) as [Pq Po Pc Pa Pm Pr Pi Pn]. rewrite HW in *. rewrite decide_True in Pn by done.
  set (p1 := set_mutex true p). pose proof (pool_in_put n k p p1 v Hp) as Hp1.
  unfold releaseResourceAt. rewrite (lock_known _ _ _ _ Hp Pm). cbn [mbind res_bind]. fold p1. rewrite (get_pool_known _ _ _ _ Hp1). cbn [mbind res_bind].
  assert (Queue.isEmpty (queue p1) = true) as -> by (unfold Queue.isEmpty; cbn; by rewrite (queued_pop _ _ _ Pq)).
  cbn [negb]. unfold Resource.release. destruct (Z.ltb_spec (Resource.resources (resources p1)) (Resource.nresources (resources p1))); [|cbn in *; lia].
  cbn [guard_assert mbind res_bind]. set (r' := Resource.set_resources _ _ _). set (p2 := set_resources r' p1).
  rewrite (unlock_known n k p2) by by eapply pool_in_put.
  eexists. split; [reflexivity|]. split; [done|]. rewrite !net_put_pool, !upd_pool_twice. split; [|split; [done|eexists; rewrite (pool_in_upd _ _ _ _ _ _ Hp); by rewrite decide_True]].
  apply (ok_weaken _ _ _ _ (<[n := []]> W)).
  { intros m. destruct (decide (m = n)) as [->|]; [by rewrite fn_lookup_insert|by rewrite fn_lookup_insert_ne]. }
  assert (int_add (Resource.resources (resources p)) 1 = Resource.resources (resources p) + 1) as Hr by (apply wrap_id; lia).
  eapply ok_pool_put; [exact Hok|exact Hp|done|done| |by intros ? ?%not_elem_of_nil| | |by intros; eapply ok_placed|].
  - split; cbn; rewrite ?Hr; try done; try lia. rewrite decide_False by done.
    change (holders _ (upd_pool _ _ (net_of v)) _ _ []) with (holders (Some t) (net_of v) v.(world) p []). lia.
  - intros m Hm. split; [congruence|done].
  - intros m k' q Hm Hq'. split; [done|]. intros u Hu. by eapply ok_waits.
  - intros u cv Hcv Hv. split; [by eapply ok_alive|by left].
Qed.

Lemma waits_apart tr owed x w W n k p m k' p' u : ok tr owed x w W -> pool_in x n = Some (k, p) -> pool_in x m = Some (k', p') ->
  u ∈ W n -> u ∈ W m -> m = n.
Proof.
  intros Hok Hp Hp' Hu Hu'. destruct (ok_waits _ _ _ _ _ Hok n k p u Hp Hu) as [[_ Hn _ _] _].
  destruct (ok_waits _ _ _ _ _ Hok m k' p' u Hp' Hu') as [[_ Hm _ _] _].
  destruct (pool_posts _ _ _ _ _ _ _ _ Hok Hp) as [_ H1]. destruct (pool_posts _ _ _ _ _ _ _ _ Hok Hp') as [_ H2].
  rewrite Hn in Hm. injection Hm as Hm. rewrite Hm in H1. rewrite H1 in H2. by injection H2 as ->.
Qed.

(** The first that waits is resumed at the time of the release. *)
Lemma release_handed t r n k p u rest (v : V) W : okv (Some t) (Some n) v W -> pool_in (net_of v) n = Some (k, p) -> W n = u :: rest ->
  exists v', releaseResourceAt r n v = Ok v' /\ v'.(world).(threads) = (upd u (resumed r) v.(world)).(threads) /\
    v'.(world).(ThreadManager.queue) ≡ₚ u :: v.(world).(ThreadManager.queue) /\ okv (Some t) None v' (<[n := rest]> W) /\
    (net_of v').(customers) = (net_of v).(customers) /\ exists p', pool_in (net_of v') n = Some (k, p').
Proof.
  intros Hok Hp HW. pose proof (ok_pool _ _ _ _ _ Hok n k p Hp) as Pok. destruct (ok_waits _ _ _ _ _ Hok n k p u Hp) as [Huw Hut]; [rewrite HW; by left|].
  pose proof (po_queued _ _ _ _ _ _ _ Pok) as Pq. rewrite HW in Pq. pose proof (po_mutex _ _ _ _ _ _ _ Pok) as Pm.
  set (p1 := set_mutex true p). pose proof (pool_in_put n k p p1 v Hp) as Hp1.
  unfold releaseResourceAt. rewrite (lock_known _ _ _ _ Hp Pm). cbn [mbind res_bind]. fold p1. rewrite (get_pool_known _ _ _ _ Hp1). cbn [mbind res_bind].
  assert (Queue.isEmpty (queue p1) = false) as -> by (unfold Queue.isEmpty; cbn; by rewrite (queued_pop _ _ _ Pq)).
  cbn [negb]. destruct (dequeue_queued ModelNodes.now u rest _ _ Pq) as (d & c & Hdq & Hc & Hq' & Ha).
  assert (customers (net_of (put_pool n p1 v)) = customers (net_of v)) as -> by (by rewrite net_put_pool).
  change (queue p1) with (queue p). rewrite Hdq. cbn [mbind res_bind]. set (q' := departed _ _ _ _) in *. set (p2 := set_queue q' p1).
  set (v2 := put_pool n p2 (put_pool n p1 v)).
  destruct (resume_known r u v2) as (w' & -> & Ht & Hpq); [apply Huw|apply Huw|]. cbn [mbind res_bind].
  rewrite (unlock_known n k p2) by (change (net_of (mkVex w' (locks v2))) with (net_of v2); by eapply pool_in_put).
  eexists. split; [reflexivity|]. split; [exact Ht|]. split; [exact Hpq|].
  rewrite net_put_pool. change (net_of (mkVex w' (locks v2))) with (net_of v2). unfold v2. rewrite !net_put_pool, !upd_pool_twice. split; [|split; [done|eexists; rewrite (pool_in_upd _ _ _ _ _ _ Hp); by rewrite decide_True]].
  change (world (put_pool n _ (mkVex w' (locks v2)))) with w'.
  assert (forall s, thread_of s w' = thread_of s (upd u (resumed r) v.(world))) as Hth by (intros s; unfold thread_of; by rewrite Ht).
  pose proof (pool_ok_handed t (net_of v) v.(world) n k p u rest q' d (queueInsertionTime c)) as Hhand.
  specialize (Hhand W Hok Hp HW). eapply ok_frame; [by apply Hhand|apply alike_refl|done|].
  split.
  - intros s _ _. unfold node_at. rewrite Hth. destruct (decide (s = u)) as [->|]; [by rewrite thread_of_upd|by rewrite thread_of_other].
  - intros m k' p' s Hm Hs [W1 W2 W3 W4]. rewrite (pool_in_upd _ _ _ _ _ _ Hp) in Hm. assert (s <> u) as Hne.
    { intros ->. case_decide as Hd; [subst m; rewrite fn_lookup_insert in Hs|rewrite fn_lookup_insert_ne in Hs by done].
      - pose proof (po_once _ _ _ _ _ _ _ Pok) as Hno. rewrite HW in Hno. by apply NoDup_cons in Hno as [? _].
      - apply Hd. eapply waits_apart; [exact Hok|exact Hp|exact Hm|rewrite HW; by left|done]. }
    split; unfold node_at; rewrite ?Hth, ?thread_of_other by done; try done. rewrite Hpq. by intros [?|?]%elem_of_cons.
Qed.
(** *** Forwarding and serving *)
Lemma customer_at m t x c : x.(customers) !! t = Some c -> (put_at m t x).(customers) !! t = Some (Customer.setLocation (Some m) c).
Proof. intros Hc. cbn. by rewrite lookup_alter_eq, Hc. Qed.

Lemma forward_ok t n nd c owed (v : V) W : okv (Some t) owed v W -> (net_of v).(customers) !! t = Some c -> (net_of v).(nodes) !! n = Some nd ->
  link_ok (net_of v) nd.(link) -> exists v' m', forward uniform n t v = Ok v' /\ station (net_of v') m' /\ v'.(world) = upd t (place m') v.(world) /\
    okv (Some t) owed v' W /\ (net_of v').(customers) !! t = Some (Customer.setLocation (Some m') c).
Proof.
  intros Hok Hc Hn Hl. unfold forward. rewrite (get_node_known _ _ _ Hn). cbn [mbind res_bind].
  assert (exists m v1, next_node uniform (link nd) v = Ok (m, v1) /\ station (net_of v1) m /\ v1.(world) = v.(world) /\
    (net_of v1).(customers) = (net_of v).(customers) /\ (net_of v1).(nodes) = (net_of v).(nodes)) as (m & v1 & -> & Hst & Hw & Hcs & Hns).
  { destruct (link nd) as [m|probs ns|]; [by exists m, v| |done]. destruct (Hl (draws (net_of v))) as (m & Hm & Hst). unfold next_node. cbv zeta. rewrite Hm.
    exists m. eexists. split; [done|]. unfold station, class_at. rewrite net_on_net. by split_and!. }
  cbn [mbind res_bind]. destruct (setLocation_known m t v1) as (v' & -> & Hx & Hw'); [by rewrite Hcs, Hc|].
  exists v', m. split; [done|]. rewrite Hx, Hw', Hw. split; [done|]. split; [done|]. split; [|by apply customer_at; rewrite Hcs].
  apply ok_put_at. eapply ok_transit; [exact Hok|rewrite Hcs; apply alike_refl| |done|done].
  intros k. unfold class_at. by rewrite Hns.
Qed.

(** What a step does to the thread, besides where it puts it. *)
Inductive leg := Moves | Works (d : Z) | Waits (d : Z) | Queues.

Definition do_leg (l : leg) (s : thread) : thread :=
  match l with
  | Moves => s
  | Works d => upd_model (ModelHandler.initiateLocalResourceConsumption d) s
  | Waits d => startModelTimedWaiting gsf d s
  | Queues => setInModelWaiting s
  end.

Definition leg_of (k : consumption) (d : Z) : leg := match k with Local => Works d | Remote => Waits d end.

Lemma serve_ok k post completed t c owed (v : V) W : okv (Some t) owed v W -> (net_of v).(customers) !! t = Some c ->
  exists v', serve gsf k post completed t v = Ok v' /\ v'.(world) = upd t (place post) (upd t (do_leg (leg_of k (nanoseconds c))) v.(world)) /\
    okv (Some t) owed v' W /\ (net_of v').(customers) !! t = Some (Customer.setLocation (Some post) c) /\
    class_at (net_of v') post = class_at (net_of v) post.
Proof.
  intros Hok Hc. unfold serve, get_customer. rewrite Hc. cbn [mbind res_bind].
  set (l := leg_of k (nanoseconds c)). set (v1 := on_world (upd t (do_leg l)) v).
  assert ((match k with Local => service (nanoseconds c) t v | Remote => waitRemote gsf (nanoseconds c) t v end) = (false, v1)) as -> by by destruct k.
  destruct (setLocation_known post t v1) as (v' & -> & Hx & Hw'); [by exists c|].
  exists v'. split; [done|]. rewrite Hx, Hw'. split; [done|]. split; [|split; [by apply customer_at|done]].
  apply ok_put_at. eapply ok_transit; [exact Hok|apply alike_refl|done| |done]. intros u Hu. by apply thread_of_other.
Qed.

Lemma place_twice m m' s : place m (place m' s) = place m s.
Proof. by destruct s. Qed.

Lemma place_leg m m' l s : place m (do_leg l (place m' s)) = place m (do_leg l s).
Proof. by destruct l, s. Qed.
(** *** Entering a node *)
Lemma class_node x n c : class_at x n = Some c -> exists nd, x.(nodes) !! n = Some nd /\ nd.(class) = c.
Proof. unfold class_at. destruct (nodes x !! n) as [nd|]; [|done]. intros [= <-]. by exists nd. Qed.

Lemma class_pool x n k p : class_at x n = Some (VexQueueingNode k p) <-> pool_in x n = Some (k, p).
Proof.
  unfold class_at, pool_in. destruct (nodes x !! n) as [nd|]; [|done]. cbn. destruct (class nd); naive_solver.
Qed.

Lemma enter_base_ok m t c nd owed (v : V) W : okv (Some t) owed v W -> (net_of v).(customers) !! t = Some c -> (net_of v).(nodes) !! m = Some nd ->
  exists v', enter_base m t v = Ok v' /\ v'.(world) = upd t (place m) v.(world) /\ okv (Some t) owed v' W /\
    (net_of v').(customers) !! t = Some (Customer.setLocation (Some m) c) /\ forall n, class_at (net_of v') n = class_at (net_of v) n.
Proof.
  intros Hok Hc Hn. unfold enter_base. rewrite (get_node_known _ _ _ Hn). cbn [mbind res_bind].
  set (v1 := put_node _ _ _). assert (net_of v1 = set_nodes (<[m := set_arrivals (int_add nd.(arrivals) 1) nd]> (net_of v).(nodes)) (net_of v)) as Hv1 by exact (net_on_net (fun y => set_nodes (<[m := set_arrivals (int_add nd.(arrivals) 1) nd]> y.(nodes)) y) v).
  destruct (setLocation_known m t v1) as (v' & -> & Hx & Hw'); [rewrite Hv1; by exists c|]. exists v'. split; [done|]. split; [done|].
  assert (forall n, link <$> (net_of v1).(nodes) !! n = link <$> (net_of v).(nodes) !! n /\ class_at (net_of v1) n = class_at (net_of v) n) as Hns.
  { intros n. unfold class_at. rewrite Hv1. cbn. destruct (decide (n = m)) as [->|]; [by rewrite lookup_insert_eq, Hn|by rewrite lookup_insert_ne]. }
  rewrite Hx, Hw'. split; [|split; [apply customer_at; by rewrite Hv1|intros n; apply Hns]].
  apply ok_put_at. eapply ok_transit; [exact Hok|rewrite Hv1; apply alike_refl|exact Hns|done|done].
Qed.

Lemma draw_service_ok m t c owed (v : V) W : okv (Some t) owed v W -> (net_of v).(customers) !! t = Some c ->
  exists v' c', draw_service sample m t v = Ok v' /\ v'.(world) = v.(world) /\ okv (Some t) owed v' W /\
    (net_of v').(customers) !! t = Some c' /\ good c'.(serviceDemand) /\ c'.(finished) = c.(finished) /\ (net_of v').(nodes) = (net_of v).(nodes).
Proof.
  intros Hok Hc. unfold draw_service, get_customer. rewrite Hc. cbn [mbind res_bind]. set (c' := setServiceDemand _ c).
  eexists _, c'. split; [reflexivity|]. unfold put_customer. rewrite !net_on_net. split; [done|]. split_and!; try done.
  - eapply ok_transit; [exact Hok|by apply (alike_put t _ c)|done|done|done].
  - cbn. by rewrite lookup_insert_eq.
  - apply sample_good.
Qed.

Lemma claim_ok t n k p p' (v : V) W r : okv (Some t) None v W -> pool_in (net_of v) n = Some (k, p) -> 0 < p.(resources).(Resource.resources) ->
  r.(Resource.resources) = p.(resources).(Resource.resources) - 1 -> r.(Resource.nresources) = p.(resources).(Resource.nresources) ->
  p'.(queue) = p.(queue) -> p'.(resources) = r -> p'.(mutex) = false -> p'.(postServiceAction) = p.(postServiceAction) ->
  p'.(postQueueingAction) = p.(postQueueingAction) -> ok (Some t) (Some n) (upd_pool n p' (net_of v)) v.(world) W.
Proof.
  intros Hok Hp Hr Hr1 Hr2 Hq Hr' Hm E1 E2. pose proof (ok_pool _ _ _ _ _ Hok n k p Hp) as [Pq Po Pc Pa Pm Pr Pi Pn]. rewrite (decide_False (P := None = Some n)) in Pn by done.
  apply (ok_weaken _ _ _ _ (<[n := W n]> W)).
  { intros m. destruct (decide (m = n)) as [->|]; [by rewrite fn_lookup_insert|by rewrite fn_lookup_insert_ne]. }
  eapply ok_pool_put; [exact Hok|exact Hp|done|done| |intros u Hu; by eapply ok_waits| | |by intros; eapply ok_placed|].
  - split; rewrite ?Hq, ?Hr', ?Hr1, ?Hr2; try done; try lia; [intros _; by apply Pi|]. rewrite decide_True by done.
    rewrite (holders_ext (Some t) (net_of v) (upd_pool n p' (net_of v)) v.(world) v.(world) p p' (W n) (W n)); [lia|done|].
    intros u _ _. unfold holds. by rewrite E1, E2.
  - intros m Hm'. split; [done|congruence].
  - intros m k' q Hm' Hq'. split; [done|]. intros u Hu. by eapply ok_waits.
  - intros u cv Hcv Hv. split; [by eapply ok_alive|by left].
Qed.

Lemma accept_free t n k p c (v : V) W : okv (Some t) None v W -> pool_in (net_of v) n = Some (k, p) -> 0 < p.(resources).(Resource.resources) ->
  (net_of v).(customers) !! t = Some c ->
  exists v', VexQueueingNode_accept gsf uniform k n t v = Ok v' /\
    v'.(world) = upd t (place p.(postServiceAction)) (upd t (do_leg (leg_of k (nanoseconds c))) v.(world)) /\
    okv (Some t) (Some n) v' W /\ (net_of v').(customers) !! t = Some (Customer.setLocation (Some p.(postServiceAction)) c) /\
    class_at (net_of v') p.(postServiceAction) = Some (PostServiceActionNode n).
Proof.
  intros Hok Hp Hr Hc. pose proof (ok_pool _ _ _ _ _ Hok n k p Hp) as [Pq Po Pc Pa Pm Pr Pi Pn].
  set (p1 := set_mutex true p). pose proof (pool_in_put n k p p1 v Hp) as Hp1.
  unfold VexQueueingNode_accept. rewrite (lock_known _ _ _ _ Hp Pm). cbn [mbind res_bind]. fold p1. rewrite (get_pool_known _ _ _ _ Hp1). cbn [mbind res_bind].
  assert (Resource.resourceIsAvailable (resources p1) = true) as Hav by (unfold Resource.resourceIsAvailable; cbn; by apply Z.ltb_lt).
  unfold Resource.claim. rewrite Hav. cbn [guard_assert mbind res_bind]. set (r := Resource.set_resources _ _ _). set (p2 := set_uncontendedServiceTimes _ _).
  rewrite (unlock_known n k p2) by by eapply pool_in_put. cbn [mbind res_bind]. set (v1 := put_pool n (set_mutex false p2) _).
  assert (net_of v1 = upd_pool n (set_mutex false p2) (net_of v)) as Hv1 by (unfold v1; by rewrite !net_put_pool, !upd_pool_twice).
  assert (okv (Some t) (Some n) v1 W) as Hok1.
  { rewrite Hv1. change (world v1) with (world v). eapply (claim_ok t n k p _ v W r); [exact Hok|exact Hp|exact Hr|apply wrap_id; cbn; lia|done..]. }
  assert (pool_in (net_of v1) n = Some (k, set_mutex false p2)) as Hp2 by (unfold v1; by do 2 eapply pool_in_put).
  unfold invokeService. rewrite (get_pool_known _ _ _ _ Hp2). cbn [mbind res_bind].
  destruct (serve_ok k (postServiceAction p) (VexQueueingNode_onCompletingService uniform n t) t c (Some n) v1 W Hok1) as (v' & Hv' & Hw' & Hok' & Hc' & Hcl).
  { by rewrite Hv1. }
  exists v'. split; [exact Hv'|]. split; [exact Hw'|]. split; [done|]. split; [done|]. rewrite Hcl. by apply (pool_posts _ _ _ _ _ _ _ _ Hok1 Hp2).
Qed.

(** *** Joining a queue *)
Lemma ok_its_way t owed x w W n : ok (Some t) owed x w W -> t ∉ W n.
Proof.
  intros Hok Ht. destruct (pool_in x n) as [[k p]|] eqn:Hp; [|rewrite (ok_nowhere _ _ _ _ _ Hok n Hp) in Ht; by apply not_elem_of_nil in Ht].
  by destruct (ok_waits _ _ _ _ _ Hok n k p t Hp Ht) as [_ []].
Qed.

(** Fewer wait than there are customers. *)
Lemma ok_length t owed x w W n k p : ok (Some t) owed x w W -> pool_in x n = Some (k, p) -> is_Some (x.(customers) !! t) ->
  Z.of_nat (length (W n)) < Queue.INT_MAX.
Proof.
  intros Hok Hp Ht. pose proof (ok_pool _ _ _ _ _ Hok n k p Hp) as Pok. pose proof (ok_size _ _ _ _ _ Hok) as Hs.
  assert (length (W n) <= size x.(customers))%nat; [|lia]. rewrite <- size_dom. rewrite <- (size_list_to_set (C := gset nat)) by apply Pok.
  apply subseteq_size. intros u Hu%elem_of_list_to_set. apply elem_of_dom, (queued_known _ _ _ (po_queued _ _ _ _ _ _ _ Pok) u Hu).
Qed.

Lemma ok_joined t x w W n k p p' ws c : ok (Some t) None x w W -> pool_in x n = Some (k, p) -> p.(resources).(Resource.resources) <= 0 ->
  queued x.(customers) p'.(queue) ws -> (forall e, admits x.(customers) p.(queue) e -> admits x.(customers) p'.(queue) e) ->
  p'.(queue).(Queue.capacity) = Queue.INT_MAX -> p'.(resources) = p.(resources) -> p'.(mutex) = false ->
  p'.(postServiceAction) = p.(postServiceAction) -> p'.(postQueueingAction) = p.(postQueueingAction) -> ws ≡ₚ t :: W n ->
  waits w p t -> x.(customers) !! t = Some c -> c.(finished) = false -> good c.(serviceDemand) ->
  ok None None (upd_pool n p' x) w (<[n := ws]> W).
Proof.
  intros Hok Hp Hr Hq Ha Hcap Hres Hm E1 E2 Hws Hwt Hc Hf Hg. pose proof (ok_pool _ _ _ _ _ Hok n k p Hp) as [Pq Po Pc Pa Pm Pr Pi Pn].
  destruct (pool_posts _ _ _ _ _ _ _ _ Hok Hp) as [Hs1 Hs2]. assert (is_Some (x.(customers) !! t)) as Ht by (by exists c).
  pose proof (holds_at _ _ _ _ _ _ _ _ Hok (waits_node _ _ _ Hwt) Hs2 (fun m => ok_its_way _ _ _ _ _ m Hok)) as Hg'.
  eapply ok_pool_put; [exact Hok|exact Hp|done|done| | | | | |].
  - split; rewrite ?Hres; try done; [by rewrite Hws; apply NoDup_cons; split; [eapply ok_its_way|]|intros u Hu; by apply Ha, Pa|lia|].
    rewrite (decide_False (P := None = Some n)) in Pn |- * by done. rewrite Pn. do 2 f_equal.
    rewrite (holders_transit (upd_pool n p' x) w p' ws t Ht). rewrite decide_False.
    + rewrite Nat.add_0_r. apply holders_ext; [done|]. intros u _ Hu. unfold holds. rewrite E1, E2, Hws, elem_of_cons. naive_solver.
    + unfold holds. rewrite E1, (waits_node _ _ _ Hwt), Hws. intros [[= E]|[_ Hn]]; [congruence|apply Hn; by left].
  - intros u Hu. rewrite Hws in Hu. apply elem_of_cons in Hu as [->|Hu]; [done|]. split; [|done]. by eapply ok_waits.
  - done.
  - intros m k' q Hmn Hq'. split; [|done]. rewrite (holders_transit x w q (W m) t Ht). rewrite decide_False; [lia|].
    rewrite (Hg' m k' q Hq'). cbn. congruence.
  - intros u m Hu _ Hat. destruct (decide (u = t)) as [->|]; [|eapply ok_placed; [exact Hok|done|congruence|done]].
    rewrite (waits_node _ _ _ Hwt) in Hat. injection Hat as <-. destruct (class_node _ _ _ Hs2) as (nd & -> & _). by eexists.
  - intros u cu Hcu _. destruct (decide (u = t)) as [->|].
    + rewrite Hc in Hcu. injection Hcu as <-. split; [done|by right].
    + split; [eapply ok_alive; [exact Hok|done|congruence]|left; congruence].
Qed.

Lemma queued_same tr cs cs' q ws : alike tr cs cs' -> queued cs q ws -> queued cs' q ws.
Proof. intros [Hk _]%alike_keeps. apply queued_keeps. by apply keeps_all. Qed.

Lemma admits_same tr cs cs' q e : alike tr cs cs' -> admits cs q e -> admits cs' q e.
Proof. intros [Hk _]%alike_keeps. apply accepts_keeps. by apply keeps_all. Qed.

Lemma accept_queue t n k p c (v : V) W : okv (Some t) None v W -> pool_in (net_of v) n = Some (k, p) -> p.(resources).(Resource.resources) <= 0 ->
  (net_of v).(customers) !! t = Some c -> c.(finished) = false -> good c.(serviceDemand) ->
  getThreadCurrentlyControllingManager (thread_of t v.(world)) <> None -> t ∉ v.(world).(ThreadManager.queue) ->
  exists v' ws c', VexQueueingNode_accept gsf uniform k n t v = Ok v' /\ v'.(world) = upd t (place p.(postQueueingAction)) (upd t (do_leg Queues) v.(world)) /\
    ws ≡ₚ t :: W n /\ okv None None v' (<[n := ws]> W) /\ (net_of v').(customers) !! t = Some c' /\ c'.(finished) = false.
Proof.
  intros Hok Hp Hr Hc Hf Hg Hman Hoff. pose proof (ok_pool _ _ _ _ _ Hok n k p Hp) as [Pq Po Pc Pa Pm Pr Pi Pn].
  pose proof (ok_length _ _ _ _ _ _ _ _ Hok Hp (ex_intro _ c Hc)) as Hlen. destruct (pool_posts _ _ _ _ _ _ _ _ Hok Hp) as [Hs1 Hs2].
  set (p1 := set_mutex true p). pose proof (pool_in_put n k p p1 v Hp) as Hp1.
  destruct (enqueue_queued insertIntoQueue placed ModelNodes.now t c (customers (net_of v)) (queue p) (W n) at_tail_inserts Pq (Pa t (ex_intro _ c Hc)) Hc) as (d & ws & He & Hpl & Hq' & Ha');
    [by rewrite Pc|]. pose proof (placed_perm _ _ _ _ Hpl) as Hws.
  set (cs := <[t := setQueueInsertionTime ModelNodes.now c]> (customers (net_of v))) in *. set (q' := Queue.population _ _ _) in *.
  unfold VexQueueingNode_accept. rewrite (lock_known _ _ _ _ Hp Pm). cbn [mbind res_bind]. fold p1. rewrite (get_pool_known _ _ _ _ Hp1). cbn [mbind res_bind].
  assert (Resource.resourceIsAvailable (resources p1) = false) as -> by (unfold Resource.resourceIsAvailable; cbn; by apply Z.ltb_ge).
  assert (Queue.canAccept (queue p1) = true) as ->.
  { unfold Queue.canAccept. cbn. rewrite Pc, (queued_pop _ _ _ Pq). by apply Z.ltb_lt. }
  assert (customers (net_of (put_pool n p1 v)) = customers (net_of v)) as -> by (by rewrite net_put_pool).
  cbv zeta. change (Queue.enqueue ?a ?b ?e ?f) with (Queue.enqueue_with insertIntoQueue a b e (queue p)). rewrite He. cbn [mbind res_bind].
  set (p2 := set_queue q' _). set (v2 := put_pool n p2 _).
  assert (net_of v2 = upd_pool n p2 (set_customers cs (net_of v))) as Hv2.
  { unfold v2. rewrite net_put_pool, net_on_net, net_put_pool. apply (upd_pool_twice n p2 p1 (set_customers cs (net_of v))). }
  assert (pool_in (set_customers cs (net_of v)) n = Some (k, p)) as Hp' by done.
  assert (pool_in (net_of v2) n = Some (k, p2)) as Hp2 by (rewrite Hv2, (pool_in_upd _ _ _ _ _ _ Hp'); by rewrite decide_True).
  unfold blockAtQueue. rewrite (unlock_known n k p2) by exact Hp2. cbn [mbind res_bind]. set (v3 := put_pool n _ _).
  assert (net_of v3 = upd_pool n (set_mutex false p2) (set_customers cs (net_of v))) as Hv3.
  { unfold v3. rewrite net_put_pool. change (net_of (on_world _ v2)) with (net_of v2). rewrite Hv2. apply upd_pool_twice. }
  destruct (setLocation_known (postQueueingAction p) t v3) as (v' & Hv' & Hx & Hw'); [rewrite Hv3; cbn; unfold cs; rewrite lookup_insert_eq; by eexists|].
  change (postQueueingAction _) with (postQueueingAction p). rewrite Hv'.
  assert (v'.(world) = upd t (place p.(postQueueingAction)) (upd t (do_leg Queues) v.(world))) as Hw by exact Hw'.
  assert (okv (Some t) None (mkVex v'.(world) (set_part (put_at (postQueueingAction p) t (set_customers cs (net_of v))) v.(locks))) W) as Hok'.
  { unfold net_of at 1. cbn [locks world]. rewrite part_set, Hw. eapply ok_transit; [exact Hok| |done|intros u Hu; by rewrite !thread_of_other|done].
    intros u. cbn. unfold cs. destruct (decide (u = t)) as [->|]; [rewrite lookup_alter_eq, lookup_insert_eq, Hc|rewrite lookup_alter_ne, lookup_insert_ne by done; apply alike_refl].
    by cbn. }
  unfold net_of at 1 in Hok'. cbn [locks world] in Hok'. rewrite part_set in Hok'.
  assert (alike (Some t) cs (put_at (postQueueingAction p) t (set_customers cs (net_of v))).(customers)) as Hsame by (by apply alike_alter).
  set (c' := Customer.setLocation (Some (postQueueingAction p)) (setQueueInsertionTime ModelNodes.now c)).
  assert ((put_at (postQueueingAction p) t (set_customers cs (net_of v))).(customers) !! t = Some c') as Hc'.
  { apply customer_at. cbn. unfold cs. by rewrite lookup_insert_eq. }
  exists v', ws, c'. split; [done|]. split; [done|]. split; [done|]. rewrite Hx, Hv3. split; [|by split].
  apply (ok_joined t (put_at (postQueueingAction p) t (set_customers cs (net_of v))) v'.(world) W n k p (set_mutex false p2) ws c'); try done.
  - by eapply queued_same.
  - intros e Hadm. eapply admits_same; [exact Hsame|]. apply Ha'. eapply admits_same; [|exact Hadm].
    intros u. cbn. unfold cs. destruct (decide (u = t)) as [->|]; [rewrite lookup_alter_eq, lookup_insert_eq, Hc; by cbn|rewrite lookup_alter_ne, lookup_insert_ne by done; apply (alike_refl (Some t))].
  - split; unfold node_at; rewrite ?Hw, ?thread_of_upd; try done.
Qed.

(** *** A step of a simulation *)
Definition rank (c : node_class Q) : nat :=
  match c with Source | PostServiceActionNode _ | PostActionInfiniteServer _ => 2 | _ => 1 end.

(** What a customer that enters a node of the class [c] does, and where. *)
Definition progress (c : node_class Q) x (l : leg) m (fin : bool) : Prop :=
  (fin = true <-> c = Sink) /\ (fin = true -> class_at x m = Some Sink) /\
  match l with
  | Moves => fin = false -> rank c = 2%nat /\ station x m
  | Works d | Waits d => exists f, good f /\ d = nanoseconds (setServiceDemand f new_VexSchedSimCustomer)
  | Queues => exists k p n, c = VexQueueingNode k p /\ class_at x m = Some (PostQueueingActionNode n)
  end.

(** A thread that a scheduler simulates. *)
Record simulated t m c (v : V) W : Prop := {
  sim_customer : (net_of v).(customers) !! t = Some c;
  sim_node : node_at v.(world) t = Some m;
  sim_free n : t ∉ W n;
  sim_managed : getThreadCurrentlyControllingManager (thread_of t v.(world)) <> None;
  sim_off : t ∉ v.(world).(ThreadManager.queue);
}.

Record outcome t (cl : node_class Q) (v v' : V) W' l m' fin : Prop := {
  oc_ok : okv None None v' W';
  oc_self : thread_of t v'.(world) = place m' (do_leg l (thread_of t v.(world)));
  oc_customer : is_Some ((net_of v').(customers) !! t);
  oc_off : t ∉ v'.(world).(ThreadManager.queue);
  oc_waits : l <> Queues -> forall n, t ∉ W' n;
  oc_progress : progress cl (net_of v') l m' fin;
}.

Lemma arrives t owed (v : V) W s m cl c : okv (Some t) owed v W -> (net_of v).(customers) !! t = Some c -> c.(finished) = false ->
  thread_of t v.(world) = place m s -> class_at (net_of v) m = Some cl -> gives cl = owed -> (forall n, cl <> PostQueueingActionNode n) ->
  okv None None v W.
Proof.
  intros Hok Hc Hf Hth Hcl Hg Hn. assert (node_at v.(world) t = Some m) as Hat by (unfold node_at; by rewrite Hth).
  eapply ok_arrive; [exact Hok|exact Hc|exact Hf|left; intros n; rewrite Hcl; intros [= E]; by apply (Hn n)|exact Hat| |].
  - destruct (class_node _ _ _ Hcl) as (nd & -> & _). by eexists.
  - intros n k p Hp. rewrite <- Hg. eapply holds_at; [exact Hok|exact Hat|exact Hcl| |exact Hp]. intros n'. by eapply ok_its_way.
Qed.

Lemma departs t m c cl (v : V) W : okv None None v W -> simulated t m c v W -> class_at (net_of v) m = Some cl ->
  okv (Some t) (gives cl) v W.
Proof.
  intros Hok [Hc Hm Hf _ _] Hcl. eapply ok_depart; [exact Hok|by exists c|exact Hf|].
  intros n k p Hp. eapply holds_at; [exact Hok|exact Hm|exact Hcl|exact Hf|exact Hp].
Qed.

Lemma resume_entered t m (v v' : V) c' : node_at v.(world) t = Some m -> enter gsf sample uniform m t v = Ok v' ->
  (net_of v').(customers) !! t = Some c' -> c'.(finished) = false -> resumeModelSimulation gsf sample uniform t v = Ok (false, v').
Proof.
  intros Hm He Hc Hf. unfold resumeModelSimulation. unfold node_at in Hm. rewrite Hm, He. cbn [mbind res_bind].
  unfold get_customer. rewrite Hc. cbn [mbind res_bind]. by rewrite Hf.
Qed.

Lemma enter_class t m cl (v : V) : class_at (net_of v) m = Some cl -> exists nd, (net_of v).(nodes) !! m = Some nd /\ nd.(class) = cl /\
  get_node m v = Ok nd.
Proof. intros (nd & Hn & Hc)%class_node. exists nd. split_and!; try done. by apply get_node_known. Qed.

Lemma station_class x m : station x m -> exists cl, class_at x m = Some cl /\ gives cl = None /\ forall n, cl <> PostQueueingActionNode n.
Proof. unfold station. destruct (class_at x m) as [cl|]; [|done]. intros Hst. exists cl. by destruct cl. Qed.

(** Behind a node of which no resource is taken. *)
Lemma forwarded t n nd c cl (v v1 : V) W : okv (Some t) None v1 W -> (net_of v1).(customers) !! t = Some c -> c.(finished) = false ->
  (net_of v1).(nodes) !! n = Some nd -> link_ok (net_of v1) nd.(link) -> rank cl = 2%nat -> cl <> Sink ->
  (exists m, thread_of t v1.(world) = place m (thread_of t v.(world)) \/ thread_of t v1.(world) = thread_of t v.(world)) ->
  t ∉ v1.(world).(ThreadManager.queue) ->
  exists v' m' c', forward uniform n t v1 = Ok v' /\ outcome t cl v v' W Moves m' false /\ (net_of v').(customers) !! t = Some c' /\ c'.(finished) = false.
Proof.
  intros Hok Hc Hf Hn Hl Hr Hns [m Hth] Hq.
  destruct (forward_ok t n nd c None v1 W Hok Hc Hn Hl) as (v' & m' & Hv' & Hst & Hw' & Hok' & Hc').
  destruct (station_class _ _ Hst) as (cl' & Hcl' & Hg & Hne).
  assert (thread_of t v'.(world) = place m' (thread_of t v.(world))) as Hself.
  { rewrite Hw', thread_of_upd. destruct Hth as [->| ->]; [apply place_twice|done]. }
  exists v', m', (Customer.setLocation (Some m') c). split; [done|]. split; [|by split]. split.
  - by eapply arrives.
  - done.
  - by rewrite Hc'.
  - by rewrite Hw'.
  - intros _ n'. by eapply ok_its_way.
  - split; [split; [done|by intros ->]|]. split; [done|]. by intros _.
Qed.

(** Served at a node. *)
Lemma served t post k completed owed c cl cl' (v v1 : V) W : okv (Some t) owed v1 W -> (net_of v1).(customers) !! t = Some c -> c.(finished) = false ->
  good c.(serviceDemand) -> class_at (net_of v1) post = Some cl' -> gives cl' = owed -> (forall n, cl' <> PostQueueingActionNode n) ->
  cl <> Sink ->
  (exists m, thread_of t v1.(world) = place m (thread_of t v.(world)) \/ thread_of t v1.(world) = thread_of t v.(world)) ->
  t ∉ v1.(world).(ThreadManager.queue) ->
  exists v' l c', serve gsf k post completed t v1 = Ok v' /\ outcome t cl v v' W l post false /\ (net_of v').(customers) !! t = Some c' /\ c'.(finished) = false.
Proof.
  intros Hok Hc Hf Hg Hcl Hgi Hne Hns [m Hth] Hq.
  destruct (serve_ok k post completed t c owed v1 W Hok Hc) as (v' & Hv' & Hw' & Hok' & Hc' & Hcl').
  set (l := leg_of k (nanoseconds c)) in *.
  assert (thread_of t v'.(world) = place post (do_leg l (thread_of t v.(world)))) as Hself.
  { rewrite Hw', !thread_of_upd. destruct Hth as [->| ->]; [apply place_leg|done]. }
  exists v', l, (Customer.setLocation (Some post) c). split; [done|]. split; [|by split]. split.
  - eapply arrives; [exact Hok'|exact Hc'|exact Hf|exact Hself|by rewrite Hcl'|done|done].
  - done.
  - by rewrite Hc'.
  - by rewrite Hw'.
  - intros _ n'. by eapply ok_its_way.
  - split; [split; [done|by intros ->]|]. split; [done|]. unfold l, leg_of. destruct k; exists (serviceDemand c); by split.
Qed.

(** Entering a node of each class. *)
Lemma enter_source t m c (v : V) W : okv None None v W -> simulated t m c v W -> c.(finished) = false -> class_at (net_of v) m = Some Source ->
  exists v' m' c', enter gsf sample uniform m t v = Ok v' /\ outcome t Source v v' W Moves m' false /\ (net_of v').(customers) !! t = Some c' /\ c'.(finished) = false.
Proof.
  intros Hok Hs Hf Hcl. pose proof (departs _ _ _ _ _ _ Hok Hs Hcl) as Hd. destruct (enter_class t m _ v Hcl) as (nd & Hn & Hnc & Hg).
  destruct (enter_base_ok m t c nd None v W Hd (sim_customer _ _ _ _ _ Hs) Hn) as (v1 & Hv1 & Hw1 & Hok1 & Hc1 & Hcl1).
  pose proof Hcl as Hcl'. rewrite <- Hcl1 in Hcl'. destruct (enter_class t m _ v1 Hcl') as (nd1 & Hn1 & Hnc1 & _).
  pose proof (ok_attached _ _ _ _ _ Hok1 m nd1 Hn1) as Ha. unfold attached in Ha. rewrite Hnc1 in Ha.
  unfold enter. rewrite Hg. cbn [mbind res_bind]. rewrite Hnc, Hv1. cbn [mbind res_bind].
  eapply (forwarded t m nd1); [exact Hok1|exact Hc1|exact Hf|exact Hn1|exact Ha|done|done| |].
  - exists m. left. by rewrite Hw1, thread_of_upd.
  - rewrite Hw1. apply Hs.
Qed.

Lemma enter_behind t m n c (v : V) W : okv None None v W -> simulated t m c v W -> c.(finished) = false -> class_at (net_of v) m = Some (PostActionInfiniteServer n) ->
  exists v' m' c', enter gsf sample uniform m t v = Ok v' /\ outcome t (PostActionInfiniteServer n) v v' W Moves m' false /\
    (net_of v').(customers) !! t = Some c' /\ c'.(finished) = false.
Proof.
  intros Hok Hs Hf Hcl. pose proof (departs _ _ _ _ _ _ Hok Hs Hcl) as Hd. destruct (enter_class t m _ v Hcl) as (nd & Hn & Hnc & Hg).
  pose proof (ok_attached _ _ _ _ _ Hok m nd Hn) as Ha. unfold attached in Ha. rewrite Hnc in Ha. destruct Ha as [k Hk].
  destruct (enter_class t n _ v Hk) as (nd1 & Hn1 & Hnc1 & _).
  pose proof (ok_attached _ _ _ _ _ Hok n nd1 Hn1) as Ha. unfold attached in Ha. rewrite Hnc1 in Ha. destruct Ha as [_ Ha].
  unfold enter. rewrite Hg. cbn [mbind res_bind]. rewrite Hnc.
  eapply (forwarded t n nd1); [exact Hd|apply Hs|exact Hf|exact Hn1|exact Ha|done|done| |apply Hs]. exists m. by right.
Qed.

Lemma enter_served t m n c (v : V) W : okv None None v W -> simulated t m c v W -> c.(finished) = false -> class_at (net_of v) m = Some (PostServiceActionNode n) ->
  exists v' W' m' c', enter gsf sample uniform m t v = Ok v' /\ outcome t (PostServiceActionNode n) v v' W' Moves m' false /\
    (net_of v').(customers) !! t = Some c' /\ c'.(finished) = false.
Proof.
  intros Hok Hs Hf Hcl. pose proof (departs _ _ _ _ _ _ Hok Hs Hcl) as Hd. destruct (enter_class t m _ v Hcl) as (nd & Hn & Hnc & Hg).
  pose proof (ok_attached _ _ _ _ _ Hok m nd Hn) as Ha. unfold attached in Ha. rewrite Hnc in Ha. destruct Ha as (k & p & Hp & _).
  unfold enter. rewrite Hg. cbn [mbind res_bind]. rewrite Hnc. unfold VexQueueingNode_onCompletingService. set (r := getEstimatedRealTime _).
  assert (exists v1 W', releaseResourceAt r n v = Ok v1 /\ okv (Some t) None v1 W' /\ (net_of v1).(customers) = (net_of v).(customers) /\
    thread_of t v1.(world) = thread_of t v.(world) /\ (t ∉ v1.(world).(ThreadManager.queue)) /\ exists p', pool_in (net_of v1) n = Some (k, p')) as (v1 & W' & -> & Hok1 & Hc1 & Ht1 & Hq1 & p1 & Hp1).
  { destruct (W n) as [|u rest] eqn:HW.
    - destruct (release_idle t r n k p v W Hd Hp HW) as (v1 & Hv1 & Hw1 & Hok1 & Hc1 & Hp1). exists v1, W. split_and!; try done; [by rewrite Hw1|rewrite Hw1; apply Hs].
    - assert (t <> u) as Hne by (intros ->; apply (sim_free _ _ _ _ _ Hs n); rewrite HW; by left).
      destruct (release_handed t r n k p u rest v W Hd Hp HW) as (v1 & Hv1 & Hth & Hpq & Hok1 & Hc1 & Hp1). exists v1. eexists. split; [done|]. split; [exact Hok1|].
      split; [done|]. split; [unfold thread_of; rewrite Hth; by apply (thread_of_other t u)|].
      split; [|done]. rewrite Hpq. intros [?|?]%elem_of_cons; [done|]. by apply (sim_off _ _ _ _ _ Hs). }
  cbn [mbind res_bind]. apply class_pool in Hp1. destruct (enter_class t n _ v1 Hp1) as (nd1 & Hn1 & Hnc1 & _).
  pose proof (ok_attached _ _ _ _ _ Hok1 n nd1 Hn1) as Ha. unfold attached in Ha. rewrite Hnc1 in Ha. destruct Ha as (_ & _ & Ha).
  destruct (forwarded t n nd1 c (PostServiceActionNode n) v v1 W') as (v' & m' & c' & Hf1 & Ho & Hc' & Hf'); try done; [by rewrite Hc1; apply Hs|exists m; by right|].
  by exists v', W', m', c'.
Qed.

Lemma enter_resumed t m n c (v : V) W : okv None None v W -> simulated t m c v W -> c.(finished) = false -> class_at (net_of v) m = Some (PostQueueingActionNode n) ->
  exists v' l m' c', enter gsf sample uniform m t v = Ok v' /\ outcome t (PostQueueingActionNode n) v v' W l m' false /\ (net_of v').(customers) !! t = Some c' /\ c'.(finished) = false.
Proof.
  intros Hok Hs Hf Hcl. pose proof (departs _ _ _ _ _ _ Hok Hs Hcl) as Hd. destruct (enter_class t m _ v Hcl) as (nd & Hn & Hnc & Hg).
  pose proof (ok_attached _ _ _ _ _ Hok m nd Hn) as Ha. unfold attached in Ha. rewrite Hnc in Ha. destruct Ha as (k & p & Hp & Hm).
  destruct (enter_class t n _ v (proj2 (class_pool _ _ _ _) Hp)) as (nd1 & Hn1 & Hnc1 & Hg1).
  unfold enter. rewrite Hg. cbn [mbind res_bind]. rewrite Hnc, Hg1. cbn [mbind res_bind]. rewrite Hnc1.
  unfold invokeService. rewrite (get_pool_known _ _ _ _ Hp). cbn [mbind res_bind].
  edestruct (served t (postServiceAction p) k (VexQueueingNode_onCompletingService uniform n t) (Some n) c (PostQueueingActionNode n) (PostServiceActionNode n) v v W) as (v' & l & c' & Hv' & Ho & Hc' & Hf'); [exact Hd|apply Hs|exact Hf| |apply (pool_posts _ _ _ _ _ _ _ _ Hd Hp)|done|done|done| |apply Hs|].
  - eapply (ok_demand _ _ _ _ _ Hok n k p t c Hp); [apply Hs|done|]. rewrite Hm. apply Hs.
  - exists m. by right.
  - exists v', l, (postServiceAction p), c'. split; [exact Hv'|]. by split.
Qed.

(** A service time is sampled before the node is entered. *)
Lemma enter_station t m c owed (v : V) W : okv (Some t) owed v W -> (net_of v).(customers) !! t = Some c -> is_Some ((net_of v).(nodes) !! m) ->
  exists v1 v2 c2, draw_service sample m t v = Ok v1 /\ enter_base m t v1 = Ok v2 /\ okv (Some t) owed v2 W /\ v2.(world) = upd t (place m) v.(world) /\
    (net_of v2).(customers) !! t = Some c2 /\ good c2.(serviceDemand) /\ c2.(finished) = c.(finished) /\
    forall n, class_at (net_of v2) n = class_at (net_of v) n.
Proof.
  intros Hok Hc [nd Hn]. destruct (draw_service_ok m t c owed v W Hok Hc) as (v1 & c1 & Hv1 & Hw1 & Hok1 & Hc1 & Hg1 & Hf1 & Hns).
  destruct (enter_base_ok m t c1 nd owed v1 W Hok1 Hc1) as (v2 & Hv2 & Hw2 & Hok2 & Hc2 & Hcl2); [by rewrite Hns|].
  exists v1, v2, (Customer.setLocation (Some m) c1). split_and!; try done; [by rewrite Hw2, Hw1|]. intros n. rewrite Hcl2. unfold class_at. by rewrite Hns.
Qed.

Lemma enter_server t m k post c (v : V) W : okv None None v W -> simulated t m c v W -> c.(finished) = false ->
  class_at (net_of v) m = Some (VexInfiniteServerNode k post) ->
  exists v' l m' c', enter gsf sample uniform m t v = Ok v' /\ outcome t (VexInfiniteServerNode k post) v v' W l m' false /\
    (net_of v').(customers) !! t = Some c' /\ c'.(finished) = false.
Proof.
  intros Hok Hs Hf Hcl. pose proof (departs _ _ _ _ _ _ Hok Hs Hcl) as Hd. destruct (enter_class t m _ v Hcl) as (nd & Hn & Hnc & Hg).
  destruct (enter_station t m c None v W Hd (sim_customer _ _ _ _ _ Hs) (ex_intro _ nd Hn)) as (v1 & v2 & c2 & Hv1 & Hv2 & Hok2 & Hw2 & Hc2 & Hg2 & Hf2 & Hcl2).
  unfold enter. rewrite Hg. cbn [mbind res_bind]. rewrite Hnc, Hv1. cbn [mbind res_bind]. rewrite Hv2. cbn [mbind res_bind].
  pose proof (ok_attached _ _ _ _ _ Hok m nd Hn) as Ha. unfold attached in Ha. rewrite Hnc in Ha. destruct Ha as [Ha _]. rewrite <- Hcl2 in Ha.
  destruct (served t post k (forward uniform m t) None c2 (VexInfiniteServerNode k post) (PostActionInfiniteServer m) v v2 W Hok2 Hc2) as (v' & l & c' & Hv' & Ho & Hc' & Hf'); try done;
    [by rewrite Hf2|exists m; left; by rewrite Hw2, thread_of_upd|rewrite Hw2; apply Hs|].
  by exists v', l, post, c'.
Qed.

Lemma enter_queue t m k p c (v : V) W : okv None None v W -> simulated t m c v W -> c.(finished) = false ->
  class_at (net_of v) m = Some (VexQueueingNode k p) ->
  exists v' W' l m' c', enter gsf sample uniform m t v = Ok v' /\ outcome t (VexQueueingNode k p) v v' W' l m' false /\
    (net_of v').(customers) !! t = Some c' /\ c'.(finished) = false.
Proof.
  intros Hok Hs Hf Hcl. pose proof (departs _ _ _ _ _ _ Hok Hs Hcl) as Hd. destruct (enter_class t m _ v Hcl) as (nd & Hn & Hnc & Hg).
  destruct (enter_station t m c None v W Hd (sim_customer _ _ _ _ _ Hs) (ex_intro _ nd Hn)) as (v1 & v2 & c2 & Hv1 & Hv2 & Hok2 & Hw2 & Hc2 & Hg2 & Hf2 & Hcl2).
  unfold enter. rewrite Hg. cbn [mbind res_bind]. rewrite Hnc, Hv1. cbn [mbind res_bind]. rewrite Hv2. cbn [mbind res_bind]. rewrite Hf in Hf2.
  rewrite <- Hcl2 in Hcl. apply class_pool in Hcl. pose proof (ok_pool _ _ _ _ _ Hok2 m k p Hcl) as Pok.
  assert (t ∉ v2.(world).(ThreadManager.queue)) as Hq2 by (rewrite Hw2; apply Hs).
  destruct (Z.ltb_spec 0 p.(resources).(Resource.resources)) as [Hr|Hr].
  - destruct (accept_free t m k p c2 v2 W Hok2 Hcl Hr Hc2) as (v' & -> & Hw' & Hok' & Hc' & Hcl').
    assert (thread_of t v'.(world) = place p.(postServiceAction) (do_leg (leg_of k (nanoseconds c2)) (thread_of t v.(world)))) as Hself.
    { rewrite Hw', !thread_of_upd, Hw2, thread_of_upd. apply place_leg. }
    exists v', W, (leg_of k (nanoseconds c2)), p.(postServiceAction). eexists. split; [done|]. split; [|split; [exact Hc'|exact Hf2]]. split.
    + eapply arrives; [exact Hok'|exact Hc'|exact Hf2|exact Hself|exact Hcl'|done|done].
    + done.
    + by rewrite Hc'.
    + by rewrite Hw'.
    + intros _ n'. by eapply ok_its_way.
    + split; [done|]. split; [done|]. unfold leg_of. destruct k; exists (serviceDemand c2); by split.
  - destruct (accept_queue t m k p c2 v2 W Hok2 Hcl Hr Hc2 Hf2 Hg2) as (v' & ws & c' & -> & Hw' & Hws & Hok' & Hc' & Hf'); [rewrite Hw2, thread_of_upd; apply Hs|done|].
    exists v', (<[m := ws]> W), Queues, p.(postQueueingAction), c'. split; [done|]. split; [|by split]. split.
    + done.
    + rewrite Hw', !thread_of_upd, Hw2, thread_of_upd. apply place_leg.
    + by rewrite Hc'.
    + by rewrite Hw'.
    + done.
    + split; [done|]. split; [done|]. exists k, p, m. split; [done|].
      assert (pool_in (net_of v') m <> None) as Hp' by (intros E; pose proof (ok_nowhere _ _ _ _ _ Hok' m E) as He; rewrite fn_lookup_insert in He; rewrite He in Hws; by apply Permutation_nil_cons in Hws).
      destruct (pool_in (net_of v') m) as [[k' p']|] eqn:E; [|done]. assert (t ∈ <[m:=ws]> W m) as Ht by (rewrite fn_lookup_insert, Hws; by left).
      destruct (ok_waits _ _ _ _ _ Hok' m k' p' t E Ht) as [Hwt _]. pose proof (waits_node _ _ _ Hwt) as Hat. unfold node_at in Hat. rewrite Hw', thread_of_upd in Hat.
      injection Hat as Hat. rewrite Hat. apply (pool_posts _ _ _ _ _ _ _ _ Hok' E).
Qed.

Lemma resume_sink t m c (v : V) W : okv None None v W -> simulated t m c v W -> class_at (net_of v) m = Some Sink ->
  exists v', resumeModelSimulation gsf sample uniform t v = Ok (true, v') /\ outcome t Sink v v' W Moves m true.
Proof.
  intros Hok Hs Hcl. pose proof (departs _ _ _ _ _ _ Hok Hs Hcl) as Hd. destruct (enter_class t m _ v Hcl) as (nd & Hn & Hnc & Hg).
  destruct (enter_base_ok m t c nd None v W Hd (sim_customer _ _ _ _ _ Hs) Hn) as (v1 & Hv1 & Hw1 & Hok1 & Hc1 & Hcl1).
  unfold resumeModelSimulation. pose proof (sim_node _ _ _ _ _ Hs) as Hm. unfold node_at in Hm. rewrite Hm. unfold enter. rewrite Hg. cbn [mbind res_bind].
  rewrite Hnc, Hv1. cbn [mbind res_bind]. unfold complete, setFinished, on_customer, get_customer. rewrite Hc1. cbn [mbind res_bind]. cbv zeta. rewrite !net_on_net. cbn [customers].
  rewrite Hc1. cbn [mbind res_bind]. unfold put_customer. rewrite !net_on_net. cbn [customers set_customers]. rewrite lookup_insert_eq. cbn [mbind res_bind].
  set (c1 := Customer.setLocation (Some m) c) in *. change (finished (set_finished true c1)) with true. cbv iota. eexists. split; [reflexivity|].
  set (v' := on_net _ (on_net _ _)). set (c' := set_finished false (set_finished true c1)).
  assert ((net_of v').(customers) = <[t := c']> (net_of v1).(customers)) as Hc' by (unfold v'; rewrite !net_on_net; cbn; apply insert_insert_eq).
  assert (okv (Some t) None v' W) as Hok'.
  { eapply ok_transit; [exact Hok1|rewrite Hc'; by eapply alike_put| |done|done].
    intros n. unfold v', class_at. by rewrite !net_on_net. }
  assert (thread_of t v'.(world) = place m (thread_of t v.(world))) as Hself by (change (world v') with (world v1); by rewrite Hw1, thread_of_upd).
  assert ((net_of v').(customers) !! t = Some c') as Hct by (by rewrite Hc', lookup_insert_eq).
  assert (class_at (net_of v') m = Some Sink) as Hcl' by (unfold v', class_at; rewrite !net_on_net; cbn; rewrite <- Hcl1 in Hcl; exact Hcl).
  split.
  - by eapply (arrives t None v' W _ m Sink c').
  - done.
  - by rewrite Hct.
  - change (world v') with (world v1). rewrite Hw1. apply Hs.
  - intros _. apply Hs.
  - split; [done|]. split; [by intros _|done].
Qed.

Lemma resume_ok t m c (v : V) W : okv None None v W -> simulated t m c v W ->
  exists cl v' W' l m' fin, class_at (net_of v) m = Some cl /\ resumeModelSimulation gsf sample uniform t v = Ok (fin, v') /\ outcome t cl v v' W' l m' fin.
Proof.
  intros Hok Hs. pose proof (sim_customer _ _ _ _ _ Hs) as Hc. pose proof (ok_alive _ _ _ _ _ Hok t c Hc ltac:(done)) as Hf.
  destruct (ok_placed _ _ _ _ _ Hok t m ltac:(by exists c) ltac:(done) (sim_node _ _ _ _ _ Hs)) as [nd Hn].
  assert (class_at (net_of v) m = Some nd.(class)) as Hcl by (unfold class_at; by rewrite Hn). exists (class nd).
  assert ((exists v' W' l m' c', enter gsf sample uniform m t v = Ok v' /\ outcome t (class nd) v v' W' l m' false /\ (net_of v').(customers) !! t = Some c' /\ c'.(finished) = false) ->
    exists v' W' l m' fin, class_at (net_of v) m = Some (class nd) /\ resumeModelSimulation gsf sample uniform t v = Ok (fin, v') /\ outcome t (class nd) v v' W' l m' fin) as Hgo.
  { intros (v' & W' & l & m' & c' & He & Ho & Hc' & Hf'). exists v', W', l, m', false. split; [done|]. split; [|done].
    eapply resume_entered; [apply Hs|exact He|exact Hc'|exact Hf']. }
  destruct (class nd) as [| |k post|k p|n|n|n].
  - apply Hgo. destruct (enter_source t m c v W) as (v' & m' & c' & ?); try done. by exists v', W, Moves, m', c'.
  - destruct (resume_sink t m c v W) as (v' & ? & ?); try done. by exists v', W, Moves, m, true.
  - apply Hgo. destruct (enter_server t m k post c v W) as (v' & l & m' & c' & ?); try done. by exists v', W, l, m', c'.
  - apply Hgo. by apply (enter_queue t m k p c v W).
  - apply Hgo. destruct (enter_served t m n c v W) as (v' & W' & m' & c' & ?); try done. by exists v', W', Moves, m', c'.
  - apply Hgo. destruct (enter_resumed t m n c v W) as (v' & l & m' & c' & ?); try done. by exists v', W, l, m', c'.
  - apply Hgo. destruct (enter_behind t m n c v W) as (v' & m' & c' & ?); try done. by exists v', W, Moves, m', c'.
Qed.

(** ** Turns of simulations *)

(** A thread that a scheduler took from its queue, and simulates. *)
Record runs t (v : V) : Prop := {
  runs_customer : is_Some ((net_of v).(customers) !! t);
  runs_node : is_Some (node_at v.(world) t);
  runs_state : (thread_of t v.(world)).(currentState) <> IN_MODEL_WAITING;
  runs_managed : getThreadCurrentlyControllingManager (thread_of t v.(world)) <> None;
  runs_off : t ∉ v.(world).(ThreadManager.queue);
}.

Lemma runs_simulated t (v : V) W : okv None None v W -> runs t v -> exists m c, simulated t m c v W.
Proof.
  intros Hok [[c Hc] [m Hm] Hs Hman Hq]. exists m, c. split; try done. intros n Ht.
  destruct (pool_in (net_of v) n) as [[k p]|] eqn:Hp; [|rewrite (ok_nowhere _ _ _ _ _ Hok n Hp) in Ht; by apply not_elem_of_nil in Ht].
  destruct (ok_waits _ _ _ _ _ Hok n k p t Hp Ht) as [Hw _]. apply Hs, Hw.
Qed.

(** The thread works, and the nodes do not see it. *)
Lemma works_ok t m c (v : V) W f : okv None None v W -> simulated t m c v W ->
  (f (thread_of t v.(world))).(modelHandler).(ModelHandler.currentNode) = node_at v.(world) t ->
  getThreadCurrentlyControllingManager (f (thread_of t v.(world))) = getThreadCurrentlyControllingManager (thread_of t v.(world)) ->
  okv None None (on_world (upd t f) v) W /\ simulated t m c (on_world (upd t f) v) W.
Proof.
  intros Hok [Hc Hm Hf Hman Hq] Hn Hg. split.
  - eapply ok_frame; [exact Hok|apply alike_refl|done|]. split.
    + intros u _ _. unfold node_at. cbn. destruct (decide (u = t)) as [->|]; [by rewrite thread_of_upd, Hn|by rewrite thread_of_other].
    + intros n k p u _ Hu [W1 W2 W3 W4]. assert (u <> t) as Hne by (intros ->; by apply (Hf n)).
      split; unfold node_at; cbn; rewrite ?thread_of_other by done; done.
  - split; cbn; try done; unfold node_at; cbn; rewrite thread_of_upd; [by rewrite Hn|by rewrite Hg].
Qed.

Lemma local_service_node total h d h' : ModelHandler.simulateLocalServiceTime total h = (d, h') ->
  h'.(ModelHandler.currentNode) = h.(ModelHandler.currentNode).
Proof. unfold ModelHandler.simulateLocalServiceTime. intros H. repeat case_match; by simplify_eq. Qed.

Lemma model_turn_ok total t (v : V) W : okv None None v W -> runs t v ->
  exists fin total' v' W', model_turn gsf sample uniform total t v = Ok (fin, total', v') /\ okv None None v' W'.
Proof.
  intros Hok Hr. destruct (runs_simulated t v W Hok Hr) as (m & c & Hs). unfold model_turn. cbv zeta.
  destruct (ModelHandler.simulateLocalServiceTime _ _) as [d h] eqn:Hd. destruct (Z.eqb_spec d 0) as [->|Hne].
  - destruct (resume_ok t m c v W Hok Hs) as (cl & v' & W' & l & m' & fin & _ & Hv' & Ho). cbn [negb]. rewrite Hv'. cbn [mbind res_bind].
    eexists _, _, v', W'. split; [reflexivity|]. apply Ho.
  - cbn [negb mbind res_bind]. eexists _, _, _, W. split; [reflexivity|].
    apply (works_ok t m c v W (fun s => upd_timers (Timers.addLocalTime gsf d) (set_modelHandler h s)) Hok Hs); [|done].
    exact (local_service_node _ _ _ _ Hd).
Qed.

(** A thread starts the simulation of a method: it is at no node, or where its
    last one ended. *)
Lemma begins_ok t c n (v : V) W : okv None None v W -> (net_of v).(customers) !! t = Some c -> class_at (net_of v) n = Some Source ->
  (forall m, node_at v.(world) t = Some m -> class_at (net_of v) m = Some Sink) -> (thread_of t v.(world)).(currentState) <> IN_MODEL_WAITING ->
  okv None None (setInModelSimulationAt n t v) W.
Proof.
  intros Hok Hc Hn Hm Hs. assert (forall m, t ∉ W m) as Hf.
  { intros m Ht. destruct (pool_in (net_of v) m) as [[k p]|] eqn:Hp; [|rewrite (ok_nowhere _ _ _ _ _ Hok m Hp) in Ht; by apply not_elem_of_nil in Ht].
    destruct (ok_waits _ _ _ _ _ Hok m k p t Hp Ht) as [Hw _]. apply Hs, Hw. }
  assert (okv (Some t) None v W) as Hd.
  { eapply ok_depart; [exact Hok|by exists c|exact Hf|]. intros m k p Hp. split; [|done]. intros Hh.
    destruct (node_at v.(world) t) as [m'|] eqn:Hat; [|destruct Hh as [Hh|[Hh _]]; unfold holds in *; congruence].
    by apply (holds_at _ _ _ _ _ _ _ _ Hok Hat (Hm m' eq_refl) Hf m k p Hp) in Hh. }
  eapply (arrives t None _ W (thread_of t (setInModelSimulationAt n t v).(world)) n Source c); [|exact Hc|exact (ok_alive _ _ _ _ _ Hok t c Hc ltac:(done))| |exact Hn|done|done].
  - eapply ok_transit; [exact Hd|apply alike_refl|done|intros u Hu; by apply thread_of_other|done].
  - cbn. by rewrite !thread_of_upd.
Qed.

(** What schedulers do otherwise leaves threads at their nodes, and those that
    wait in nodes where they are. *)
Record elsewhere (w w' : World T) : Prop := {
  elsewhere_at t : node_at w' t = node_at w t;
  elsewhere_waits t : (thread_of t w).(currentState) = IN_MODEL_WAITING -> t ∉ w.(ThreadManager.queue) ->
    getThreadCurrentlyControllingManager (thread_of t w) <> None ->
    (thread_of t w').(currentState) = IN_MODEL_WAITING /\ getThreadCurrentlyControllingManager (thread_of t w') <> None /\
    t ∉ w'.(ThreadManager.queue);
}.

(** The steps of the simulations of all threads, in any order: a turn of one, the
    start of one, and what is done elsewhere. *)
Inductive model_step : V -> V -> Prop :=
  | step_turn t total fin total' v v' : runs t v -> model_turn gsf sample uniform total t v = Ok (fin, total', v') -> model_step v v'
  | step_begin t n v : is_Some ((net_of v).(customers) !! t) -> class_at (net_of v) n = Some Source ->
      (forall m, node_at v.(world) t = Some m -> class_at (net_of v) m = Some Sink) ->
      (thread_of t v.(world)).(currentState) <> IN_MODEL_WAITING -> model_step v (setInModelSimulationAt n t v)
  | step_elsewhere v w' : elsewhere v.(world) w' -> model_step v (mkVex w' v.(locks)).

Lemma step_ok (v v' : V) W : model_step v v' -> okv None None v W -> exists W', okv None None v' W'.
Proof.
  intros Hst Hok. destruct Hst as [t total fin total' v v' Hr Hv'|t n v [c Hc] Hn Hm Hs|v w' He].
  - destruct (model_turn_ok total t v W Hok Hr) as (fin1 & total1 & v1 & W' & Hv1 & Hok1). rewrite Hv' in Hv1. injection Hv1 as _ _ <-. by exists W'.
  - exists W. by eapply begins_ok.
  - exists W. change (net_of (mkVex w' v.(locks))) with (net_of v). eapply ok_frame; [exact Hok|apply alike_refl|done|]. split.
    + intros t _ _. apply He.
    + intros n k p t _ _ [W1 W2 W3 W4]. destruct (elsewhere_waits _ _ He t W1 W4 W3) as (H1 & H2 & H3). split; try done.
      cbn. by rewrite (elsewhere_at _ _ He).
Qed.

(** A network that nobody has entered. *)
Record untouched (v : V) : Prop := {
  un_attached n nd : (net_of v).(nodes) !! n = Some nd -> attached (net_of v) n nd;
  un_pool n k p : pool_in (net_of v) n = Some (k, p) -> queued (net_of v).(customers) p.(queue) [] /\
    p.(queue).(Queue.capacity) = Queue.INT_MAX /\ (forall t, is_Some ((net_of v).(customers) !! t) -> admits (net_of v).(customers) p.(queue) t) /\
    p.(mutex) = false /\ p.(resources).(Resource.resources) = p.(resources).(Resource.nresources) /\ 0 <= p.(resources).(Resource.nresources) < 2 ^ 31;
  un_customer t c : (net_of v).(customers) !! t = Some c -> c.(finished) = false /\ node_at v.(world) t = None;
  un_size : Z.of_nat (size (net_of v).(customers)) < Queue.INT_MAX;
}.

Lemma untouched_ok (v : V) : untouched v -> okv None None v (fun _ => []).
Proof.
  intros [Ua Up Uc Us]. split; try done.
  - intros n k p Hp. destruct (Up n k p Hp) as (H1 & H2 & H3 & H4 & H5 & H6). split; try done; [constructor|lia|].
    rewrite decide_False, Nat.add_0_r, H5, Z.sub_diag by done. symmetry. apply (f_equal Z.of_nat (y := 0%nat)), length_zero_iff_nil.
    destruct (filter _ _) as [|t l] eqn:E; [done|]. assert (t ∈ t :: l) as Ht by (by left). rewrite <- E in Ht.
    apply list_elem_of_filter in Ht as [[_ Hh] Ht%elem_of_elements%elem_of_dom]. destruct Ht as [c Hc]. destruct (Uc t c Hc) as [_ Hat].
    unfold holds in Hh. rewrite Hat in Hh. naive_solver.
  - by intros n k p t _ ?%not_elem_of_nil.
  - intros t n [c Hc] _ Hat. destruct (Uc t c Hc) as [_ Hat']. congruence.
  - intros t c Hc _. by apply (Uc t c).
  - intros n k p t c _ Hc _ Hat. destruct (Uc t c Hc) as [_ Hat']. congruence.
Qed.

Lemma steps_ok (v v' : V) : untouched v -> rtc model_step v v' -> exists W, okv None None v' W.
Proof.
  intros Hu Hs. assert (exists W, okv None None v W) as Hok by (eexists; by apply untouched_ok). clear Hu.
  induction Hs as [v|v1 v2 v3 Hst _ IH]; [done|]. apply IH. destruct Hok as [W Hok]. by eapply step_ok.
Qed.

(** ** The end of a simulation

    The turns left for a timeslice: of three turns in a row, one is a service of
    a nanosecond or more. *)
Hypothesis gsf_one : gsf = f32_one.
Hypothesis good_lasts : forall f, good f -> 1 <= nanoseconds (setServiceDemand f new_VexSchedSimCustomer).

Definition remaining (s : thread) : Z := s.(modelHandler).(ModelHandler.remainingLocalResourceConsumption).

Definition turns_left (total : Z) (s : thread) (cl : node_class Q) : Z :=
  3 * total + Z.of_nat (rank cl) - if decide (0 < remaining s) then 2 else 0.

Lemma rank_le cl : (1 <= rank cl <= 2)%nat.
Proof. destruct cl; cbn; lia. Qed.

(** What a turn leaves to the following ones. *)
Definition goes_on t total (cl : node_class Q) (v v' : V) W' (fin : bool) total' : Prop :=
  let s := thread_of t v.(world) in let s' := thread_of t v'.(world) in
  0 < getTimeout s' \/
  (0 <= total' <= total /\ getEstimatedRealTime s' = getEstimatedRealTime s + (total - total') /\
   (fin = false -> isActiveInModel s' = true -> getTimeout s' <= 0 -> 0 < total' -> exists m' c' cl', simulated t m' c' v' W' /\
     class_at (net_of v') m' = Some cl' /\ model_pre total' s' /\ turns_left total' s' cl' < turns_left total s cl)).

Lemma serve_turn t total m c cl (v : V) W d h : okv None None v W -> simulated t m c v W -> class_at (net_of v) m = Some cl ->
  model_pre total (thread_of t v.(world)) ->
  ModelHandler.simulateLocalServiceTime total (thread_of t v.(world)).(modelHandler) = (d, h) -> d <> 0 ->
  let v' := on_world (upd t (fun s => upd_timers (Timers.addLocalTime gsf d) (set_modelHandler h s))) v in
  let total' := total -ll (getEstimatedRealTime (thread_of t v'.(world)) -ll getEstimatedRealTime (thread_of t v.(world))) in
  okv None None v' W /\ goes_on t total cl v v' W false total'.
Proof.
  intros Hok Hs Hcl Hpre Hd Hne. set (s := thread_of t v.(world)) in *. intros v' total'.
  destruct (works_ok t m c v W (fun s => upd_timers (Timers.addLocalTime gsf d) (set_modelHandler h s)) Hok Hs) as [Hok' Hs'];
    [exact (local_service_node _ _ _ _ Hd)|done|]. fold v' in Hok', Hs'. split; [exact Hok'|].
  assert (thread_of t v'.(world) = upd_timers (Timers.addLocalTime gsf d) (set_modelHandler h s)) as Hth
    by exact (thread_of_upd t (fun s => upd_timers (Timers.addLocalTime gsf d) (set_modelHandler h s)) (world v)).
  set (enter := fun s : thread => (true, upd_model (ModelHandler.initiateLocalResourceConsumption 0) s)).
  destruct (model_turn_spec enter total s) as (fin & total1 & s1 & H1 & H2 & H3 & H4); [|exact Hpre|].
  { intros s0. cbn. split_and!; try done. by left. }
  unfold VexThreadState.model_turn in H1. rewrite Hd in H1. rewrite (proj2 (Z.eqb_neq d 0) Hne) in H1. cbn [negb] in H1. rewrite <- gsf_one, <- Hth in H1.
  injection H1 as <- E <-. assert (total1 = total') as -> by (symmetry; exact E). clear E. unfold goes_on. fold s. right. split; [done|]. split; [done|].
  intros _ Ha Hto Ht. destruct (H4 eq_refl Ha Hto Ht) as [Hpre' Hturns]. exists m, c, cl. split_and!; try done.
  unfold turns, turns_left in *. assert (0 < remaining s) as Hr.
  { unfold ModelHandler.simulateLocalServiceTime in Hd. pose proof (mp_remaining _ _ Hpre) as Hge. unfold remaining.
    destruct (Z.eqb_spec (ModelHandler.remainingLocalResourceConsumption (modelHandler s)) 0); [by simplify_eq|lia]. }
  unfold remaining in *. repeat case_decide; lia.
Qed.

Lemma leg_managed m l s : getThreadCurrentlyControllingManager (place m (do_leg l s)) = getThreadCurrentlyControllingManager s.
Proof. by destruct l, s. Qed.

Lemma ert_leg m l s : (forall d, l <> Waits d) -> getEstimatedRealTime (place m (do_leg l s)) = getEstimatedRealTime s.
Proof. destruct l; try done. intros H. by edestruct H. Qed.

Lemma wait_timeout m d s : getTimeout (place m (do_leg (Waits d) s)) = d.
Proof.
  unfold getTimeout, place, do_leg, startModelTimedWaiting, upd_model, upd_timers. cbn. unfold Timers.updateTimesBeforeWaitingWithTimeout.
  by repeat case_match.
Qed.

Lemma enter_turn t total m c cl (v v' : V) W W' l m' fin : simulated t m c v W -> model_pre total (thread_of t v.(world)) ->
  remaining (thread_of t v.(world)) = 0 -> outcome t cl v v' W' l m' fin ->
  goes_on t total cl v v' W' fin (total -ll (getEstimatedRealTime (thread_of t v'.(world)) -ll getEstimatedRealTime (thread_of t v.(world)))).
Proof.
  intros Hs Hpre Hr [Hok Hself [c' Hc'] Hoff Hfree (Hfin & _ & Hprog)]. set (s := thread_of t v.(world)) in *. unfold goes_on. fold s. rewrite Hself.
  assert ((exists d, l = Waits d) \/ forall d, l <> Waits d) as [[d ->]|Hl] by (destruct l; [by right|by right|left; by eexists|by right]).
  { left. destruct Hprog as (f & Hg & ->). pose proof (good_lasts f Hg). rewrite wait_timeout. lia. }
  right.
  assert (getEstimatedRealTime (place m' (do_leg l s)) = getEstimatedRealTime s) as He by by apply ert_leg.
  rewrite He. assert (total -ll (getEstimatedRealTime s -ll getEstimatedRealTime s) = total) as ->.
  { unfold ll_sub. rewrite Z.sub_diag. change (ll 0) with 0. rewrite Z.sub_0_r. apply ll_id. pose proof (mp_total _ _ Hpre). ll_range. }
  pose proof (mp_total _ _ Hpre) as Htot. split; [lia|]. split; [lia|]. intros Hf Ha Hto _.
  assert (l <> Queues) as Hnq by (intros ->; by destruct s).
  destruct (ok_placed _ _ _ _ _ Hok t m' ltac:(by eexists) ltac:(done)) as [nd Hn]; [unfold node_at; by rewrite Hself|].
  exists m', c', nd.(class). split.
  { split; [done|unfold node_at; by rewrite Hself|by apply Hfree|rewrite Hself, leg_managed; apply Hs|done]. }
  assert (class_at (net_of v') m' = Some (class nd)) as Hcl' by (unfold class_at; by rewrite Hn). split; [done|].
  destruct Hpre as [P1 P2 P3 P4 P5]. pose proof (rank_le (class nd)) as Hrk. pose proof (rank_le cl) as Hrk'. unfold turns_left. rewrite Hr.
  destruct l as [|d|d|]; [|destruct Hprog as (f & Hg & ->)|by destruct (Hl d)|done].
  - destruct (Hprog Hf) as [Hrank Hst]. split; [by split; rewrite ?He|].
    change (remaining (place m' (do_leg Moves s))) with (remaining s). rewrite Hr. unfold station in Hst. rewrite Hcl' in Hst. rewrite Hrank.
    assert (rank (class nd) = 1%nat) as -> by (destruct (class nd); done). repeat case_decide; lia.
  - pose proof (good_lasts f Hg). set (d := nanoseconds _) in *. change (remaining (place m' (do_leg (Works d) s))) with d.
    split; [split; rewrite ?He; try done; cbn; lia|]. repeat case_decide; lia.
Qed.

Lemma turn_goes_on t total m c cl (v : V) W : okv None None v W -> simulated t m c v W -> class_at (net_of v) m = Some cl ->
  model_pre total (thread_of t v.(world)) ->
  exists fin total' v' W', model_turn gsf sample uniform total t v = Ok (fin, total', v') /\ okv None None v' W' /\
    (fin = true -> exists m', node_at v'.(world) t = Some m' /\ class_at (net_of v') m' = Some Sink) /\
    goes_on t total cl v v' W' fin total'.
Proof.
  intros Hok Hs Hcl Hpre. unfold model_turn. cbv zeta.
  destruct (ModelHandler.simulateLocalServiceTime _ _) as [d h] eqn:Hd. destruct (Z.eqb_spec d 0) as [->|Hne].
  - destruct (resume_ok t m c v W Hok Hs) as (cl' & v' & W' & l & m' & fin & Hcl' & Hv' & Ho). rewrite Hcl in Hcl'. injection Hcl' as <-.
    cbn [negb]. rewrite Hv'. cbn [mbind res_bind]. eexists _, _, v', W'. split; [reflexivity|]. split; [apply Ho|]. split.
    + intros Hf. exists m'. split; [unfold node_at; by rewrite (oc_self _ _ _ _ _ _ _ _ Ho)|].
      by apply (oc_progress _ _ _ _ _ _ _ _ Ho).
    + eapply enter_turn; [exact Hs|exact Hpre| |exact Ho]. unfold ModelHandler.simulateLocalServiceTime in Hd. unfold remaining.
      pose proof (mp_total _ _ Hpre). pose proof (mp_remaining _ _ Hpre). repeat case_match; simplify_eq; lia.
  - cbn [negb mbind res_bind]. destruct (serve_turn t total m c cl v W d h Hok Hs Hcl Hpre Hd Hne) as [Hok' Hg].
    eexists _, _, _, W. split; [reflexivity|]. split; [exact Hok'|]. by split.
Qed.

(** Why the simulation of a thread stops. *)
Definition stopped t (v : V) (fin : bool) total : Prop :=
  (fin = true /\ exists m, node_at v.(world) t = Some m /\ class_at (net_of v) m = Some Sink) \/
  (fin = false /\ (isActiveInModel (thread_of t v.(world)) = false \/ 0 < getTimeout (thread_of t v.(world)) \/ total <= 0)).

Lemma run_stops fuel : forall t total m c cl (v : V) W, okv None None v W -> simulated t m c v W -> class_at (net_of v) m = Some cl ->
  model_pre total (thread_of t v.(world)) -> turns_left total (thread_of t v.(world)) cl < Z.of_nat fuel ->
  exists fin total' v' W', runModel gsf sample uniform fuel total t v = Ok (fin, total', v') /\ okv None None v' W' /\ stopped t v' fin total' /\
    (0 < getTimeout (thread_of t v'.(world)) \/ 0 <= total' /\
     getEstimatedRealTime (thread_of t v'.(world)) + total' = getEstimatedRealTime (thread_of t v.(world)) + total).
Proof.
  induction fuel as [|fuel IH]; intros t total m c cl v W Hok Hs Hcl Hpre Hf.
  { pose proof (mp_total _ _ Hpre). pose proof (rank_le cl). unfold turns_left in Hf. case_decide; lia. }
  destruct (turn_goes_on t total m c cl v W Hok Hs Hcl Hpre) as (fin & total1 & v1 & W1 & Hv1 & Hok1 & Hsink & Hgo).
  cbn [runModel]. rewrite Hv1. cbn [mbind res_bind]. cbv zeta. destruct fin; cbn [negb andb].
  { exists true, total1, v1, W1. split; [done|]. split; [done|]. split; [left; split; [done|by apply Hsink]|].
    destruct Hgo as [?|(? & He & _)]; [by left|right; lia]. }
  destruct (isActiveInModel (thread_of t v1.(world))) eqn:Ha; cbn [andb].
  2: { exists false, total1, v1, W1. split; [done|]. split; [done|]. split; [right; split; [done|by left]|]. destruct Hgo as [?|(? & He & _)]; [by left|right; lia]. }
  destruct (Z.leb_spec (getTimeout (thread_of t v1.(world))) 0) as [Hto|Hto]; cbn [andb].
  2: { exists false, total1, v1, W1. split; [done|]. split; [done|]. split; [right; split; [done|right; by left]|by left]. }
  destruct Hgo as [?|(Ht1 & He & Hnext)]; [lia|]. destruct (Z.ltb_spec 0 total1) as [Hpos|Hpos].
  2: { exists false, total1, v1, W1. split; [done|]. split; [done|]. split; [right; split; [done|right; by right]|right; lia]. }
  destruct (Hnext eq_refl Ha Hto Hpos) as (m1 & c1 & cl1 & Hs1 & Hcl1 & Hpre1 & Hlt).
  destruct (IH t total1 m1 c1 cl1 v1 W1 Hok1 Hs1 Hcl1 Hpre1 ltac:(lia)) as (fin & total' & v' & W' & Hv' & Hok' & Hstop & Htime).
  exists fin, total', v', W'. split; [exact Hv'|]. split; [done|]. split; [done|]. destruct Htime as [?|[? ?]]; [by left|right; lia].
Qed.
End network.
End ModelNetwork.
