(* ===== verification/ModelSimulation.v ===== *)
(** * What simulations of models are sure of

    The theorems about the networks of [ModelNodes], from the invariant of
    [ModelNetwork], with a network as an example; and what becomes of a node
    whose queue is full. *)
From stdpp Require Import functions.
From S2P Require Import Prelude Heap AdaptiblePQueue CxxFloat Timers VirtualTimeline Controllers Statistics ThreadParts.
From S2P Require Import ThreadState ThreadQueue Registries ThreadRegistry ThreadManager Suspension Handlers ThreadHandlers.
From S2P Require Import LinkedList CinqsQueue CinqsSim ModelNodes ModelNetwork.
Import VexThreadState ThreadManager Disciplines Customer Measure ModelNodes ModelNetwork.

Module ModelSimulation.

Section simulation.
Context `{HO : StdHeapOps} `{HH : !StdHeap HO} {T L Q : Type} `{HC : Controllers.VirtualTimelineController T}.
Context `{HD : !Discipline float Q} `{HL : !DisciplineLaws float Q}.
Context `{HP : Part (Network Q) L}.
Variable gsf : float.
Variable sample : nat -> Z -> nat -> float.
Variable uniform : nat -> float.
Implicit Types (v : Vex T L) (t n : nat).

(** What the head of a queue says of its contents. *)
Lemma waiting_head (cs : Customers float) (q : Queue.Queue float Q) u ws : queued cs q ws -> Queue.head q = Ok u -> exists rest, ws = u :: rest.
Proof.
  intros Hq. unfold Queue.head. rewrite (queued_pop _ _ _ Hq). destruct ws as [|u' rest]; [done|].
  destruct (Z.ltb_spec 0 (Z.of_nat (length (u' :: rest)))); [|done]. cbn [guard_assert mbind res_bind].
  rewrite (head_waiting _ _ _ _ (queued_waiting _ _ _ Hq)). intros [= ->]. by exists rest.
Qed.


(** C13. A simulation ends within its timeslice: at most
    [3 * total + 3] turns bring the thread to a sink, into the queue of a
    node, into a wait with a timeout, or to the end of the slice; its clock
    and the slice add up, but for that wait.  This is for networks whose queues
    are unbounded ([untouched] asks for a capacity of INT_MAX and fewer
    customers; a full queue locks its node, [full_queue_locks_node]), services
    that last a nanosecond or more, a slice below 2^24 ns and clocks that do not
    overflow in it, and time factors, the global one and the thread's, of one. *)
Theorem simulation_ends v v' t total : gsf = f32_one ->
  (forall n k d, 1 <= nanoseconds (setServiceDemand (sample n k d) new_VexSchedSimCustomer)) ->
  untouched uniform v -> rtc (model_step gsf sample uniform) v v' -> runs t v' -> model_pre total (thread_of t v'.(world)) ->
  exists fin total' v1, runModel gsf sample uniform (Z.to_nat (3 * total + 3)) total t v' = Ok (fin, total', v1) /\ stopped t v1 fin total' /\
    (0 < getTimeout (thread_of t v1.(world)) \/
     0 <= total' /\ getEstimatedRealTime (thread_of t v1.(world)) + total' = getEstimatedRealTime (thread_of t v'.(world)) + total).
Proof.
  intros Hgsf Hlast Hu Hs Hr Hpre. set (good := fun f => 1 <= nanoseconds (setServiceDemand f new_VexSchedSimCustomer)).
  destruct (steps_ok gsf sample uniform good Hlast v v' Hu Hs) as [W Hok]. destruct (runs_simulated uniform good t v' W Hok Hr) as (m & c & Hsim).
  destruct (ok_placed _ _ _ _ _ _ _ Hok t m ltac:(by apply Hr) ltac:(done) (sim_node _ _ _ _ _ Hsim)) as [nd Hn].
  destruct (run_stops gsf sample uniform good Hlast Hgsf (fun f H => H) (Z.to_nat (3 * total + 3)) t total m c nd.(class) v' W Hok Hsim)
    as (fin & total' & v1 & W1 & Hv1 & _ & Hst & Ht); [by unfold class_at; rewrite Hn|done| |by exists fin, total', v1].
  pose proof (mp_total _ _ Hpre). pose proof (rank_le nd.(class)). unfold turns_left. case_decide; lia.
Qed.

(** C15. The resource of a customer that was served goes to the first that
    waits, if any does: that thread is simulated again, from the time the
    service ended, and it is in the queue of the scheduler. *)
Theorem served_customer_hands_over v v' t n k p u : untouched uniform v -> rtc (model_step gsf sample uniform) v v' -> runs t v' ->
  node_at v'.(world) t = Some p.(postServiceAction) -> pool_in (net_of v') n = Some (k, p) -> Queue.head p.(queue) = Ok u ->
  exists v1, enter gsf sample uniform p.(postServiceAction) t v' = Ok v1 /\
    thread_of u v1.(world) = upd_timers (Timers.leapForwardTo (getEstimatedRealTime (thread_of t v'.(world)))) (VexThreadState.setInModelSimulation (thread_of u v'.(world))) /\
    u ∈ v1.(world).(ThreadManager.queue).
Proof.
  intros Hu Hs Hr Hat Hp Hh. destruct (steps_ok gsf sample uniform (fun _ => True) (fun _ _ _ => I) v v' Hu Hs) as [W Hok].
  destruct (runs_simulated uniform (fun _ => True) t v' W Hok Hr) as (m & c & Hsim). rewrite (sim_node _ _ _ _ _ Hsim) in Hat. injection Hat as ->.
  destruct (pool_posts _ _ _ _ _ _ _ _ _ _ Hok Hp) as [Hpost _].
  pose proof (departs _ _ t _ c _ v' W Hok Hsim Hpost) as Hd. destruct (waiting_head _ _ u _ (po_queued _ _ _ _ _ _ _ (ok_pool _ _ _ _ _ _ _ Hok n k p Hp)) Hh) as [rest HW].
  assert (t <> u) as Hne by (intros ->; apply (sim_free _ _ _ _ _ Hsim n); rewrite HW; by left).
  set (r := getEstimatedRealTime (thread_of t v'.(world))).
  destruct (release_handed sample uniform (fun _ => True) (fun _ _ _ => I) t r n k p u rest v' W Hd Hp HW) as (v1 & Hv1 & Hth & Hq & Hok1 & Hc1 & p1 & Hp1).
  destruct (enter_class t _ _ _ Hpost) as (nd & _ & Hnc & Hg). destruct (enter_class t n _ v1 (proj2 (class_pool uniform _ _ _ _) Hp1)) as (nd1 & Hn1 & Hnc1 & _).
  pose proof (ok_attached _ _ _ _ _ _ _ Hok1 n nd1 Hn1) as Ha. unfold attached in Ha. rewrite Hnc1 in Ha. destruct Ha as (_ & _ & Ha).
  destruct (forward_ok uniform (fun _ => True) t n nd1 c None v1 _ Hok1) as (v2 & m' & Hv2 & _ & Hw2 & _); [rewrite Hc1; apply Hsim|done|done|].
  exists v2. split; [|split].
  - unfold enter. rewrite Hg. cbn [mbind res_bind]. rewrite Hnc. unfold VexQueueingNode_onCompletingService. fold r. rewrite Hv1. exact Hv2.
  - rewrite Hw2, thread_of_other by done. unfold thread_of at 1. rewrite Hth. apply (thread_of_upd u (resumed r)).
  - rewrite Hw2. cbn. rewrite Hq. by left.
Qed.

End simulation.

(** ** A full queue *)
Section full.
Context {T L Q : Type} `{HD : !Discipline float Q} `{HP : Part (Network Q) L}.
Variable gsf : float.
Variable sample : nat -> Z -> nat -> float.
Variable uniform : nat -> float.
Implicit Types (v : Vex T L) (t n : nat).

Lemma accept_full k n t v p : pool_in (net_of v) n = Some (k, p) -> p.(mutex) = false -> Resource.resourceIsAvailable p.(resources) = false ->
  Queue.canAccept p.(queue) = false ->
  VexQueueingNode_accept gsf uniform k n t v = Ok (put_pool n (set_losses (int_add p.(losses) 1) (set_mutex true p)) (put_pool n (set_mutex true p) v)).
Proof.
  intros Hp Hm Hr Hq. unfold VexQueueingNode_accept. rewrite (lock_known _ _ _ _ Hp Hm). cbn [mbind res_bind].
  rewrite (get_pool_known n k (set_mutex true p)) by by eapply pool_in_put. cbn [mbind res_bind].
  change (resources (set_mutex true p)) with (resources p). rewrite Hr. change (queue (set_mutex true p)) with (queue p). by rewrite Hq.
Qed.

Lemma accept_locked k n t v p : pool_in (net_of v) n = Some (k, p) -> p.(mutex) = true -> VexQueueingNode_accept gsf uniform k n t v = Err SelfDeadlock.
Proof. intros Hp Hm. unfold VexQueueingNode_accept, lock_node. rewrite (get_pool_known _ _ _ _ Hp). cbn [mbind res_bind]. by rewrite Hm. Qed.

(** A customer comes to a queueing node, after the sample of its service. *)
Lemma come_to k n t v p c : pool_in (net_of v) n = Some (k, p) -> (net_of v).(customers) !! t = Some c ->
  exists v2, enter gsf sample uniform n t v = VexQueueingNode_accept gsf uniform k n t v2 /\ pool_in (net_of v2) n = Some (k, p) /\
    v2.(world) = upd t (place n) v.(world) /\ dom (net_of v2).(customers) = dom (net_of v).(customers) /\
    exists c', (net_of v2).(customers) !! t = Some c' /\ c'.(finished) = c.(finished).
Proof.
  intros Hp Hc. destruct (pool_known _ _ _ _ Hp) as (nd & Hn & Hnc). unfold enter. rewrite (get_node_known _ _ _ Hn). cbn [mbind res_bind]. rewrite Hnc.
  unfold draw_service, get_customer. rewrite Hc. cbn [mbind res_bind]. set (v1 := put_customer t _ _).
  assert (net_of v1 = set_customers (<[t := setServiceDemand (sample n (type c) (draws (net_of v))) c]> (net_of v).(customers)) (set_draws (S (draws (net_of v))) (net_of v))) as Hv1
    by (unfold v1, put_customer; by rewrite !net_on_net).
  unfold enter_base. rewrite (get_node_known n nd v1) by by rewrite Hv1. cbn [mbind res_bind]. set (v1' := put_node _ _ v1).
  assert (net_of v1' = set_nodes (<[n := set_arrivals (int_add (arrivals nd) 1) nd]> (net_of v1).(nodes)) (net_of v1)) as Hv1' by (unfold v1', put_node; by rewrite net_on_net).
  destruct (setLocation_known n t v1') as (v2 & -> & Hx & Hw); [rewrite Hv1', Hv1; cbn; rewrite lookup_insert_eq; by eexists|].
  cbn [mbind res_bind]. exists v2. split; [done|]. rewrite Hx, Hv1', Hv1. split; [|split; [exact Hw|split]].
  - unfold pool_in. cbn. rewrite lookup_insert_eq. cbn. by rewrite Hnc.
  - cbn. rewrite dom_alter_L, dom_insert_L. apply elem_of_dom_2 in Hc. set_solver.
  - cbn. rewrite lookup_alter_eq, lookup_insert_eq. by eexists.
Qed.

(** C16. A customer that finds the resources taken and the queue full is counted
    as lost, but stays at the node, and the mutex of the node stays locked:
    whoever comes next, the same thread in its next turn or another one, blocks
    its scheduler for ever. *)
Theorem full_queue_locks_node k n t v p c : pool_in (net_of v) n = Some (k, p) -> p.(mutex) = false ->
  Resource.resourceIsAvailable p.(resources) = false -> Queue.canAccept p.(queue) = false ->
  (net_of v).(customers) !! t = Some c -> c.(finished) = false -> node_at v.(world) t = Some n ->
  exists v', resumeModelSimulation gsf sample uniform t v = Ok (false, v') /\ node_at v'.(world) t = Some n /\
    (exists p', pool_in (net_of v') n = Some (k, p') /\ p'.(losses) = int_add p.(losses) 1 /\ p'.(mutex) = true) /\
    forall u, is_Some ((net_of v).(customers) !! u) -> node_at v'.(world) u = Some n -> resumeModelSimulation gsf sample uniform u v' = Err SelfDeadlock.
Proof.
  intros Hp Hm Hr Hq Hc Hf Hat. destruct (come_to k n t v p c Hp Hc) as (v2 & He & Hp2 & Hw2 & Hd2 & c2 & Hc2 & Hf2).
  rewrite (accept_full k n t v2 p Hp2 Hm Hr Hq) in He. set (p' := set_losses _ _) in He. set (v' := put_pool n p' _) in He. exists v'.
  assert (pool_in (net_of v') n = Some (k, p')) as Hp' by (unfold v'; by do 2 eapply pool_in_put).
  assert ((net_of v').(customers) = (net_of v2).(customers)) as Hcs by (unfold v'; by rewrite !net_put_pool).
  split; [|split; [|split]].
  - eapply (resume_entered gsf sample uniform t n v v' c2); [exact Hat|exact He|by rewrite Hcs|by rewrite Hf2].
  - change (world v') with (world v2). rewrite Hw2. unfold node_at. by rewrite thread_of_upd.
  - by exists p'.
  - intros u Hu Hatu. assert (is_Some ((net_of v').(customers) !! u)) as [cu Hcu] by (rewrite Hcs; by apply elem_of_dom; rewrite Hd2; apply elem_of_dom).
    destruct (come_to k n u v' p' cu Hp' Hcu) as (v3 & He3 & Hp3 & _). unfold resumeModelSimulation. unfold node_at in Hatu. rewrite Hatu, He3.
    by rewrite (accept_locked k n u v3 p' Hp3).
Qed.

End full.
(** ** A server with one resource between a source and a sink *)
#[local] Existing Instances Controllers.SingleVirtualTimelineController Controllers.single_laws Controllers.single_total Controllers.single_running_timers.
#[local] Instance just_net {Q} : Part (Network Q) (Network Q) := {| part x := x; set_part y _ := y; part_set _ _ := eq_refl |}.

Definition shop_node (c : node_class FIFOQueue) (l : Link) : Node FIFOQueue := mkNode c l 0.

Definition shop_pool (n : Z) : VexPool FIFOQueue := new_VexPool n (Queue.new_Queue (mkFIFO LinkedList.new_List)) 2 3.

Definition shop : Network FIFOQueue :=
  mkNetwork (<[0%nat := shop_node Source (LinkTo 1)]> (<[1%nat := shop_node (VexQueueingNode Local (shop_pool 1)) (LinkTo 4)]>
    (<[2%nat := shop_node (PostQueueingActionNode 1) Earth]> (<[3%nat := shop_node (PostServiceActionNode 1) Earth]>
    (<[4%nat := shop_node Sink Earth]> ∅))))) {[0%nat := new_VexSchedSimCustomer; 1%nat := new_VexSchedSimCustomer]} 0 new_Measure 0.

(** Services take 2^-20 seconds. *)
Definition shop_sample (n : nat) (k : Z) (d : nat) : float := f64 1 (-20).
Definition shop_uniform (d : nat) : float := f64 0 0.

Definition shopper : thread := setThreadCurrentlyControllingManager (Some 0%nat) (setRunning (new_VexThreadState 0 7)).

Abbreviation ShopV := (Vex VirtualTimeline.VirtualTimeline.VirtualTimeline (Network FIFOQueue)).

Definition shop_opens : ShopV :=
  mkVex (new_ThreadManager {[ 0%nat := shopper; 1%nat := shopper ]} [] (ThreadRegistry.new_ThreadRegistry 2 false) ∅
    (VirtualTimeline.VirtualTimeline.mkTimeline 0 0) false 0 None) shop.

Lemma shop_untouched : untouched shop_uniform shop_opens.
Proof.
  split.
  - intros i nd. cbn. do 5 (destruct i as [|i]; [intros [= <-]; vm_compute; eauto 10|]). by rewrite !lookup_insert_ne, lookup_empty by done.
  - intros i k p. unfold pool_in. cbn. destruct i as [|[|[|[|[|i]]]]]; [done| |done..|by rewrite !lookup_insert_ne, lookup_empty by done]. intros [= <- <-].
    split_and!; try done. split; try done; [apply new_holds|by intros x ?%not_elem_of_nil].
  - intros t c. cbn. destruct t as [|[|t]]; [by intros [= <-]..|]. by rewrite lookup_insert_ne, lookup_singleton_ne by lia.
  - done.
Qed.

Definition shop_turn (t : nat) (v : ShopV) : ShopV :=
  match model_turn f32_one shop_sample shop_uniform 1000 t v with Ok (_, _, v) => v | _ => v end.

(** What a step of the example asks for, as a test. *)
Definition ready (t : nat) (v : ShopV) : bool :=
  bool_decide (is_Some ((net_of v).(customers) !! t)) && bool_decide (is_Some (node_at v.(world) t)) &&
  negb (in_state IN_MODEL_WAITING (thread_of t v.(world))) &&
  bool_decide (is_Some (getThreadCurrentlyControllingManager (thread_of t v.(world)))) && bool_decide (t ∉ v.(world).(ThreadManager.queue)).

Lemma ready_runs t v : ready t v = true -> runs t v.
Proof.
  unfold ready, in_state. rewrite !andb_true_iff, negb_true_iff, !bool_decide_eq_true, bool_decide_eq_false. intros [[[[? ?] ?] [? Hm]] ?].
  split; try done. by rewrite Hm.
Qed.

Definition turns (t : nat) (v : ShopV) : bool :=
  ready t v && match model_turn f32_one shop_sample shop_uniform 1000 t v with Ok _ => true | Err _ => false end.

Lemma shop_step t v : turns t v = true -> model_step f32_one shop_sample shop_uniform v (shop_turn t v).
Proof.
  unfold turns, shop_turn. rewrite andb_true_iff. intros [Hr%ready_runs Hok]. destruct (model_turn _ _ _ _ _ _) as [[[fin total] v']|] eqn:E; [|done].
  by eapply step_turn.
Qed.

Definition begins (t : nat) (v : ShopV) : bool :=
  bool_decide (is_Some ((net_of v).(customers) !! t)) && match class_at (net_of v) 0 with Some Source => true | _ => false end &&
  match node_at v.(world) t with None => true | _ => false end && negb (in_state IN_MODEL_WAITING (thread_of t v.(world))).

Lemma shop_begin t v : begins t v = true -> model_step f32_one shop_sample shop_uniform v (setInModelSimulationAt 0 t v).
Proof.
  unfold begins, in_state. rewrite !andb_true_iff, negb_true_iff, !bool_decide_eq_true, bool_decide_eq_false. intros [[[? Hc] Hn] ?].
  apply step_begin; try done; [by destruct (class_at _ _) as [[]|]|]. intros m Hm. by rewrite Hm in Hn.
Qed.

(** The first thread is served, the second waits. *)
Definition shop_first : ShopV := shop_turn 0 (shop_turn 0 (setInModelSimulationAt 0 0 shop_opens)).
Definition shop_busy : ShopV := shop_turn 1 (shop_turn 1 (setInModelSimulationAt 0 1 shop_first)).

Lemma shop_reaches : rtc (model_step f32_one shop_sample shop_uniform) shop_opens shop_busy.
Proof.
  unfold shop_busy, shop_first.
  eapply rtc_l; [apply (shop_begin 0); vm_compute; reflexivity|].
  do 2 (eapply rtc_l; [apply (shop_step 0); vm_compute; reflexivity|]).
  eapply rtc_l; [apply (shop_begin 1); vm_compute; reflexivity|].
  do 2 (eapply rtc_l; [apply (shop_step 1); vm_compute; reflexivity|]). apply rtc_refl.
Qed.

(** The pool then: its resource is taken, and the second thread waits. *)
Definition busy_pool : VexPool FIFOQueue :=
  match pool_in (net_of shop_busy) 1 with Some (_, p) => p | None => shop_pool 1 end.

Definition head_of (p : VexPool FIFOQueue) : Z * option nat :=
  (p.(resources).(Resource.resources), match Queue.head p.(queue) with Ok u => Some u | Err _ => None end).

Lemma shop_is_busy : pool_in (net_of shop_busy) 1 = Some (Local, busy_pool) /\ head_of busy_pool = (0, Some 1%nat).
Proof.
  split; [|vm_compute; reflexivity].
  assert (match pool_in (net_of shop_busy) 1 with Some (Local, _) => true | _ => false end = true) as H by (vm_compute; reflexivity).
  unfold busy_pool. by destruct (pool_in (net_of shop_busy) 1) as [[[] p]|].
Qed.


Lemma shop_lasts n k d : 1 <= nanoseconds (setServiceDemand (shop_sample n k d) new_VexSchedSimCustomer).
Proof. vm_compute. discriminate. Qed.

(** From its source, the first thread gets through the shop in 2000 ns. *)
Lemma simulation_ends_witness : exists fin total' v1,
  runModel f32_one shop_sample shop_uniform (Z.to_nat (3 * 2000 + 3)) 2000 0 (setInModelSimulationAt 0 0 shop_opens) = Ok (fin, total', v1) /\
  stopped 0 v1 fin total'.
Proof.
  destruct (simulation_ends f32_one shop_sample shop_uniform shop_opens (setInModelSimulationAt 0 0 shop_opens) 0 2000) as (fin & total' & v1 & H1 & H2 & _).
  - reflexivity.
  - apply shop_lasts.
  - apply shop_untouched.
  - apply rtc_once, shop_begin. vm_compute. reflexivity.
  - apply ready_runs. vm_compute. reflexivity.
  - split; vm_compute; split_and?; congruence.
  - exists fin, total', v1. split; [exact H1|exact H2].
Defined.

Example shop_through :
  (runModel f32_one shop_sample shop_uniform 6003 2000 0 (setInModelSimulationAt 0 0 shop_opens) ≫= fun '(fin, total, v) =>
   Ok (fin, total, (net_of v).(completions), node_at v.(world) 0)) = Ok (true, 1047, 1, Some 4%nat).
Proof. vm_compute. reflexivity. Qed.

Lemma served_customer_hands_over_witness : exists v1,
  enter f32_one shop_sample shop_uniform busy_pool.(postServiceAction) 0 shop_busy = Ok v1 /\ 1%nat ∈ v1.(world).(ThreadManager.queue).
Proof.
  destruct (served_customer_hands_over f32_one shop_sample shop_uniform shop_opens shop_busy 0 1 Local busy_pool 1 shop_untouched shop_reaches) as (v1 & H1 & _ & H2).
  - apply ready_runs. vm_compute. reflexivity.
  - vm_compute. reflexivity.
  - apply shop_is_busy.
  - destruct shop_is_busy as [_ H]. unfold head_of in H. destruct (Queue.head (queue busy_pool)); congruence.
  - exists v1. split; [exact H1|exact H2].
Defined.

(** The same shop without room to wait, whose only resource is taken. *)
Definition full_pool : VexPool FIFOQueue :=
  mkVexPool (Queue.new_Queue_of 0 (mkFIFO LinkedList.new_List)) (Resource.mkResource 0 1 new_SystemMeasure) 0 false 0 0 2 3.
Definition before : ShopV := shop_turn 1 (setInModelSimulationAt 0 1 shop_first).
Definition busy_before : VexPool FIFOQueue := match pool_in (net_of before) 1 with Some (_, p) => p | None => shop_pool 1 end.

Lemma shop_before : pool_in (net_of before) 1 = Some (Local, busy_before).
Proof.
  assert (match pool_in (net_of before) 1 with Some (Local, _) => true | _ => false end = true) as H by (vm_compute; reflexivity).
  unfold busy_before. by destruct (pool_in (net_of before) 1) as [[[] p]|].
Qed.

Definition full_shop : ShopV := put_pool 1 full_pool before.

Lemma full_queue_locks_node_witness : exists v', resumeModelSimulation f32_one shop_sample shop_uniform 1 full_shop = Ok (false, v') /\
  resumeModelSimulation f32_one shop_sample shop_uniform 1 v' = Err SelfDeadlock.
Proof.
  destruct ((net_of full_shop).(customers) !! 1%nat) as [c|] eqn:Hc; [|vm_compute in Hc; discriminate].
  destruct (full_queue_locks_node f32_one shop_sample shop_uniform Local 1 1 full_shop full_pool c) as (v' & H1 & H2 & _ & H3).
  - unfold full_shop. apply (pool_in_put 1 Local busy_before). exact shop_before.
  - reflexivity.
  - reflexivity.
  - reflexivity.
  - exact Hc.
  - vm_compute in Hc. injection Hc as <-. reflexivity.
  - vm_compute. reflexivity.
  - exists v'. split; [exact H1|]. apply H3; [|exact H2]. exists c. exact Hc.
Defined.

End ModelSimulation.
